(* ===== verification/_CoqProject ===== *)
-Q . S2P
Prelude.v
GoLib.v
Common.v
ConfigTree.v
HandleMap.v
Internal.v
AttrCache.v
AttrCacheSpec.v
Pipeline.v
LRUCache.v
Chain.v
LockMap.v
LruPolicy.v
LruPolicySpec.v
LfuPolicy.v
LfuLists.v
LfuPolicySpec.v
Base64.v
AzUtils.v
BlockBlob.v
BlockBlobSpec.v
BlobRename.v
CacheObj.v
AzStorage.v
AzConfig.v
AzAuth.v
Datalake.v
AzSetup.v
Stream.v
StreamSpec.v
StreamRead.v
StreamWrite.v
StreamRefine.v
AzStorageSpec.v
StreamRuns.v
BlockPool.v
ThreadPool.v
BlockCache.v
BlockCacheRead.v
BlockCacheRuns.v
FileCache.v
FileCacheSpec.v
FileCacheLru.v
FileCacheRuns.v
Libfuse.v
LibfuseSpec.v
LibfuseFs.v
LibfuseRuns.v
