(* ===== verification/Prelude.v ===== *)
(** * Blobfuse2: a verification of its core

    Blobfuse2 is a FUSE file system over Azure Storage.  A mount is a pipeline of
    components with one interface (src/internal/component.go): libfuse at the
    top calls the attribute cache, the file cache, the block cache or the
    streaming layer, and at the bottom azstorage turns the calls into requests
    to the blob service.  A component answers from its own state or calls the
    next one.

    ** What is modelled

    - Prelude.v: outcomes of Go code (return, panic, block forever), a state
      monad [go S A] over them, total correctness [wp], pointers, errors, machine
      integers, automation.  GoLib.v: the parts of Go's library that the code
      uses (strings, filepath, slices, container/list).
    - Common.v: src/common/util.go and types.go, bit maps, blocks and block offset
      lists.  ConfigTree.v: src/common/config, the trees of flags and environment
      variables and how they override the configuration file.  LockMap.v:
      src/common/lock_map.go.  LRUCache.v:
      src/common/cache_policy/lru_policy.go.
    - HandleMap.v: src/internal/handlemap.  Internal.v: the component interface,
      its options, attributes and the base component that forwards every call;
      the class [Runtime] is the heap of attribute and handle objects and the
      clock.  Pipeline.v: src/internal/pipeline.go.
    - AttrCache.v, AttrCacheSpec.v: src/component/attr_cache.
    - LruPolicy.v, LruPolicySpec.v: the eviction policy of
      src/component/file_cache (lru_policy.go, cache_policy.go).  LfuPolicy.v,
      LfuLists.v, LfuPolicySpec.v: the other one (lfu_policy.go), with the goroutine
      and the timers that work beside its callers.  Chain.v: doubly linked lists on
      a heap, for both.
    - FileCache.v: file_cache.go, every operation, over the operating system (class
      [LocalOS]), the interface of the eviction policies (class [cachePolicy]) and
      the next component.  FileCacheSpec.v proves it against the laws of the three;
      FileCacheLru.v has the two policies as instances and shows that the LRU
      policy keeps the laws; FileCacheRuns.v has a
      file system and a container in memory.
    - Base64.v, AzUtils.v: encoding/base64 and src/component/azstorage/utils.go.
    - BlockBlob.v, BlockBlobSpec.v: src/component/azstorage/block_blob.go over the
      calls of the azblob SDK, which are the operations of the class [BlobSDK];
      BlobRename.v: renaming, deleting and downloading.  AzStorage.v: azstorage.go,
      the component over the interface [AzConnection] of connection.go.
    - AzConfig.v: config.go, the options of the storage component and their
      validation.  AzAuth.v: the credentials (azauth*.go) and the set-up of a
      block blob connection.  Datalake.v: datalake.go, the connection for accounts
      with directories, over the calls of azbfs (class [BfsSDK]).  AzSetup.v:
      Configure and OnConfigChange of azstorage.go, which put these together.
    - CacheObj.v: the stream cache of a handle (handle_map.go), on the heap of the
      program (class [CacheHeap]).  Stream.v: src/component/stream, the component
      and its three connections (read.go, read_write.go, read_write_filename.go).
      StreamSpec.v has the interfaces the stream component needs: [StreamStore] for
      the read-write connection, [StreamNext] for the read-only one; StreamRead.v,
      StreamWrite.v and StreamRefine.v prove the two connections against them;
      AzStorageSpec.v shows that azstorage over block blobs has both; StreamRuns.v
      runs the three together in memory.
    - BlockPool.v: block.go and blockpool.go of src/component/block_cache;
      ThreadPool.v: threadpool.go; BlockCache.v: block_cache.go, every operation
      and the two routines the workers call.  BlockCacheRead.v proves the read
      path, BlockCacheRuns.v executes the cache on a store in memory.
    - Libfuse.v: src/component/libfuse, the configuration and every callback for
      fuse3 (libfuse_handler.go) and fuse2 (libfuse2_handler.go), with the C
      functions of native_file_io.h that read and write cached files; the tables of
      the C side (native objects, directory caches) are part of the state.
      LibfuseSpec.v has the contract with the next component (class [FuseNext]) and
      the invariant of the tables; LibfuseFs.v the listings, renames and native
      writes; LibfuseRuns.v a file system in memory.

    A stateful Go routine is a function of the monad [go]; objects shared by
    reference live in finite maps from addresses; every early return, error and
    panic is a branch.  Code outside the repository (the SDK, the kernel, the
    file system) is a class of operations, with its documented behaviour as the
    laws of a second class (BlobService, BlobListing, FileSystemLaws, DiskLaws,
    MemoryLaws, OSLaws, StreamEnvLaws, FillerLaws, BfsModes, AuthReturns).  What a
    component promises to the one above it is a contract, stated as a class too:
    PolicyLaws, StreamStore and StreamNext are proved for the component below
    (FileCacheLru.v, AzStorageSpec.v); AttrService, StorageLaws, FuseNext,
    DirService, NameService, ReadService and OpenService are hypotheses on the next
    component, which a theorem names, and which a next component in memory fulfils.
    They are stronger than what azstorage guarantees where the findings say so: a
    Chmod that is ignored, a directory that is deleted or renamed by half.  Each
    class of laws and each contract has an instance in memory, on which the
    witnesses run.

    ** What is proved

    - The attribute cache is transparent over a next component whose operations
      happen as a whole or fail (AttrService): in every reachable state GetAttr
      answers what the next component has; every operation returns and keeps the
      entries coherent; directory operations touch exactly the directory and what
      is below it.
    - On a service whose reads do not fail, Write of a block blob with distinct
      block ids is a splice of the content and TruncateFile of a non-empty file to a
      positive size a resize, or an error that changes no committed content; the
      same for Write on a blob without blocks.
    - A file of blocks with distinct ids, open through the stream component while the
      number of cached objects is below the limit, is a file: reads return, and
      writes splice into, the sequence of bytes that a successful flush or close
      leaves in storage, whatever the cache of the handle evicts, flushes early or
      fetches again; with azstorage and block blobs below, that is the content of
      the blob.  Read-only mounts return the bytes of the file and respect the limit
      of cached handles.
    - RenameFile of a block blob moves it or loses nothing, on a service whose
      copies end at once; a copy that ends as failed is lost; ReadDir returns all
      pages of a listing.
    - The file cache (no size limit, no empty files created in the container)
      implements a file: any run of opens, creates, reads, writes, flushes, closes
      and deletes through one handle at a time, with evictions by the policy in
      between, is a run of an abstract file and every call returns, as long as
      attribute requests fail only with EACCES and a flush finds a descriptor free;
      GetAttr answers the size the user sees.
    - A timeout tick of the LRU policy evicts exactly the expired files that are
      not in use, from its list and from the disk, when no more than max-eviction
      have expired; the linked list with its markers stays well formed.
    - The lists of the LFU policy stay well formed in every interleaving in which no
      change of the configuration switches the timeout on, count the uses and are
      sorted but for the first bucket while no frequency wraps around; open files
      are never removed.
    - The LRU cache of stream blocks evicts only clean blocks, least recently used
      first, and its map, list and size always agree.
    - Reads through the block cache without disk cache, when no download fails,
      return the bytes of the file within it, whatever the workers have done when a
      block is looked for, in sequential and in random mode, and always return; past
      the end of the file they may return the rest of a block.  The worker pool
      executes every item exactly once, and Stop ends once the workers' callbacks
      return.
    - Locks are exclusive in every interleaving of the statements of Lock and
      Unlock; pool blocks have one owner; a pipeline is a chain in priority order,
      started from the bottom.
    - Every callback of libfuse returns in every state of a mount, with a result that
      its type allows, and keeps the tables of handles and native objects in step,
      except for a rename whose source lookup fails with another error than
      not-exist, which panics; an open and a release give the tables back; a
      directory is listed completely and once whatever the buffers of the kernel; a
      rename is rename(2), together with the checks the kernel makes before the
      callback; data written through C is uploaded by the close.
    - Configuring the storage component with an account type given by name does not
      panic and accepts only well formed settings; after any changes of the
      configuration file the credentials in use are those of the mount with the
      current SAS key; a change of key, block size, concurrency, tier and access
      modifiers reaches the connection as a whole or not at all.  Permissions set
      through the data lake API are read back when access control lists are not
      consulted.
    - A value read from the configuration is that of the flag, else of the
      environment, else of the file.
    - Searches of block lists agree with a linear search; permissions, block ids
      and base64 round trip.
    - A few theorems and runs show where the code departs from what it means to do;
      the manifest lists them as findings.

    ** Bounds

    Loops that are not structural take fuel: BinarySearch one unit per block
    (the interval shrinks), createNewBlocks one per byte of the new range (a
    block has at least one), collect one per evicted node, getAttrUsingList one
    per listing request (20 failures end it), the waits of the block cache one
    per attempt the queued items have left (a failed one is queued again at most
    four times), its read and write loops one per byte, walkDir of the file cache
    one per level of the directory tree (path_max, the longest path the kernel
    accepts), the walk of addFrequency one per frequency node, the eviction loop
    of the LFU policy one per file, listings one per page, the wait for a copy one
    per poll, the read loop of ReadCache one per byte, a directory listing by the
    kernel one round per entry and one more, the list of containers one per
    segment.  The theorems are total: they show
    that the fuel is enough.  int64 and uint64 arithmetic wraps where the code
    can reach the bound; sizes are assumed below 2^62 where stated.

    ** What is not modelled

    The command line, logging, statistics and the health monitor are operating-system
    glue around the file system; loopback is a test double.  viper and pflag, which
    parse the configuration file and the flags, are parameters.
    The SDK's HTTP pipelines and the callbacks that refresh tokens run inside the
    SDK.  Kernel, libfuse and C library are classes of operations.  The write path
    of the block cache is modelled and executed, and has no correctness theorem:
    the findings show writes that it loses.  The theorems on the stream
    component are about one handle of ReadWriteCache at a time and a service whose
    requests succeed; ReadWriteFilenameCache is modelled and has no theorem. *)
From stdpp Require Export base tactics numbers list gmap strings sorting.
From Stdlib Require Export ZArith Lia.
Global Open Scope Z_scope.

(** ** Outcomes of Go code

    A Go call either returns, panics (nil dereference, index out of range,
    an explicit [panic]) or blocks forever on a channel. *)
Inductive outcome (A : Type) : Type :=
  | Ret (a : A)
  | Panic
  | Blocked.
Arguments Ret {A} a.
Arguments Panic {A}.
Arguments Blocked {A}.
#[export] Instance outcome_eq_dec {A} `{!EqDecision A} : EqDecision (outcome A).
Proof. solve_decision. Defined.

(** [go S A] is a Go routine over the mutable state [S] that returns an [A]. *)
Definition go (S A : Type) : Type := S → outcome (A * S).

#[export] Instance go_ret {S} : MRet (go S) := λ A a s, Ret (a, s).
#[export] Instance go_bind {S} : MBind (go S) := λ A B f m s,
  match m s with
  | Ret (a, s') => f a s'
  | Panic => Panic
  | Blocked => Blocked
  end.

Definition go_get {S} : go S S := λ s, Ret (s, s).
Definition go_put {S} (s : S) : go S unit := λ _, Ret (tt, s).
Definition go_modify {S} (f : S → S) : go S unit := λ s, Ret (tt, f s).
Definition go_gets {S A} (f : S → A) : go S A := λ s, Ret (f s, s).
Definition go_panic {S A} : go S A := λ _, Panic.
Definition go_block {S A} : go S A := λ _, Blocked.

(** Dereference: a failed lookup is a nil dereference. *)
Definition go_deref {S A} (o : option A) : go S A :=
  match o with Some a => mret a | None => go_panic end.

(** Run a routine of a component's state inside a larger state. *)
Definition go_snd {C N A} (m : go N A) : go (C * N) A := λ '(c, n),
  match m n with
  | Ret (a, n') => Ret (a, (c, n'))
  | Panic => Panic
  | Blocked => Blocked
  end.

(** Run a routine on a part of the state. *)
Definition go_zoom {S T A} (get : S → T) (set : T → S → S) (m : go T A) : go S A := λ s,
  match m (get s) with
  | Ret (a, t) => Ret (a, set t s)
  | Panic => Panic
  | Blocked => Blocked
  end.

(** A [for _, x := range l] loop whose body may change the state. *)
Fixpoint go_range {S A} (f : A → go S unit) (l : list A) : go S unit :=
  match l with
  | [] => mret tt
  | x :: l => f x ≫= λ _, go_range f l
  end.

(** ** Pointers

    Objects shared by reference live in a finite map from addresses to
    structs; address 0 is [nil] and is never allocated. *)
Definition ptr : Type := nat.
Definition nil_ptr : ptr := 0%nat.

Definition fresh_ptr {A} (h : gmap ptr A) : ptr :=
  S (foldr Nat.max 0%nat ((map_to_list h).*1)).

(** ** Errors *)
Inductive errno :=
  | ENOENT | EEXIST | EIO | EACCES | EPERM | EBADF | ENOSPC | ENOTSUP
  | ERANGE | ENOTEMPTY | EINVAL | ENOSYS.
#[export] Instance errno_eq_dec : EqDecision errno.
Proof. solve_decision. Defined.

(** The service codes of the storage SDKs that the code tells apart; the last
    one stands for all the others. *)
Inductive ServiceCode :=
  | ServiceCodeBlobAlreadyExists | ServiceCodeBlobNotFound | ServiceCodeInvalidRange
  | ServiceCodeLeaseIDMissing | ServiceCodeInsufficientAccountPermissions
  | AuthorizationPermissionMismatch
  | ServiceCodePathAlreadyExists | ServiceCodePathNotFound | ServiceCodeSourcePathNotFound
  | OtherServiceCode (s : string).
#[export] Instance ServiceCode_eq_dec : EqDecision ServiceCode.
Proof. solve_decision. Defined.

(** [Errno e] is the bare [syscall.e]; [PathError e] is an [os.PathError] (or
    [os.LinkError], [os.SyscallError]) that wraps it; [Eof] is [io.EOF];
    [BlobError] and [BfsError] are the StorageError types of azblob and azbfs;
    [Msg s] is any other error. *)
Inductive error :=
  | Errno (e : errno)
  | PathError (e : errno)
  | Eof
  | BlobError (code : ServiceCode)
  | BfsError (code : ServiceCode)
  | Msg (s : string).
#[export] Instance error_eq_dec : EqDecision error.
Proof. solve_decision. Defined.

(** os.IsNotExist, os.IsExist, os.IsPermission of the Go library. *)
Definition os_IsNotExist (e : option error) : bool :=
  match e with Some (Errno ENOENT | PathError ENOENT) => true | _ => false end.
Definition os_IsExist (e : option error) : bool :=
  match e with
  | Some (Errno (EEXIST | ENOTEMPTY) | PathError (EEXIST | ENOTEMPTY)) => true
  | _ => false
  end.
Definition os_IsPermission (e : option error) : bool :=
  match e with
  | Some (Errno (EACCES | EPERM) | PathError (EACCES | EPERM)) => true
  | _ => false
  end.

(** [err == syscall.ENOENT]: comparison of the error value itself. *)
Definition err_is (e : option error) (x : error) : bool := bool_decide (e = Some x).

(** ** Machine integers *)
Definition u16 (x : Z) : Z := x mod 2 ^ 16.
Definition u32 (x : Z) : Z := x mod 2 ^ 32.
Definition u64 (x : Z) : Z := x mod 2 ^ 64.
Definition i32 (x : Z) : Z := (x + 2 ^ 31) mod 2 ^ 32 - 2 ^ 31.
Definition i64 (x : Z) : Z := (x + 2 ^ 63) mod 2 ^ 64 - 2 ^ 63.

Definition is_u32 (x : Z) : Prop := 0 ≤ x < 2 ^ 32.
Definition is_u64 (x : Z) : Prop := 0 ≤ x < 2 ^ 64.
Definition is_i64 (x : Z) : Prop := - 2 ^ 63 ≤ x < 2 ^ 63.

(** Time is a number of nanoseconds since the zero value of [time.Time]. *)
Definition Time : Type := Z.
Definition nanos_per_sec : Z := 1000000000.

(** ** Lemmas on the monad *)
Lemma go_bind_Ret {S A B} (m : go S A) (f : A → go S B) s b s' :
  (m ≫= f) s = Ret (b, s') ↔
  ∃ a s1, m s = Ret (a, s1) ∧ f a s1 = Ret (b, s').
Proof.
  unfold mbind, go_bind. split.
  - destruct (m s) as [[a s1]| |] eqn:E; [eauto | done..].
  - intros (a & s1 & E & Hf). by rewrite E.
Qed.

Lemma go_snd_Ret {C N A} (m : go N A) (c c' : C) n a n' :
  go_snd m (c, n) = Ret (a, (c', n')) ↔ c' = c ∧ m n = Ret (a, n').
Proof.
  unfold go_snd. destruct (m n) as [[? ?]| |]; split.
  all: try (intros [= -> -> ->]; done).
  all: try (intros [-> [= -> ->]]; done).
  all: try (intros [_ ?]; done). all: done.
Qed.

Lemma go_deref_Ret {S A} (o : option A) (s : S) a s' :
  go_deref o s = Ret (a, s') ↔ o = Some a ∧ s' = s.
Proof. destruct o; unfold go_deref, mret, go_ret, go_panic; split;
  (intros [= -> ->] || intros [[= ->] ->] || intros [? _] || intros ?); done. Qed.

Lemma go_range_app {S A} (f : A → go S unit) l1 l2 s :
  go_range f (l1 ++ l2) s = (go_range f l1 ≫= λ _, go_range f l2) s.
Proof.
  revert s. induction l1 as [|x l1 IH]; intros s; [done|].
  simpl. unfold mbind, go_bind in *.
  destruct (f x s) as [[u s1]| |]; [apply IH | done..].
Qed.

(** A loop preserves what its body preserves. *)
Lemma go_range_inv {S A} (P : S → Prop) (f : A → go S unit) l s s' :
  (∀ x s1 s2, x ∈ l → P s1 → f x s1 = Ret (tt, s2) → P s2) →
  P s → go_range f l s = Ret (tt, s') → P s'.
Proof.
  revert s. induction l as [|x l IH]; intros s Hf HP; simpl.
  { intros [= <-]. done. }
  rewrite go_bind_Ret. intros ([] & s1 & H1 & H2).
  eapply IH; [| |exact H2].
  - intros. eapply Hf; [by apply list_elem_of_further | done..].
  - eapply Hf; [by apply list_elem_of_here | done..].
Qed.

(** ** Total correctness

    [wp m Q s]: run from [s], the routine returns (it neither panics nor
    blocks) and its result and final state satisfy [Q]. *)
Definition wp {S A} (m : go S A) (Q : A → S → Prop) (s : S) : Prop :=
  match m s with Ret (a, s') => Q a s' | _ => False end.

Lemma wp_ret {S A} (a : A) (Q : A → S → Prop) s : Q a s → wp (mret a) Q s.
Proof. done. Qed.

Lemma wp_bind {S A B} (m : go S A) (f : A → go S B) (Q : B → S → Prop) s :
  wp m (λ a, wp (f a) Q) s → wp (m ≫= f) Q s.
Proof. unfold wp, mbind, go_bind. by destruct (m s) as [[]| |]. Qed.

Lemma wp_bind_assoc {S A B C} (m : go S A) (g : A → go S B) (f : B → go S C) Q s :
  wp (m ≫= g) (λ b, wp (f b) Q) s → wp (a ← m; b ← g a; f b) Q s.
Proof.
  unfold wp, mbind, go_bind. destruct (m s) as [[a s1]| |]; [|done..].
  by destruct (g a s1) as [[b s2]| |].
Qed.

Lemma wp_mono {S A} (m : go S A) (Q Q' : A → S → Prop) s :
  wp m Q s → (∀ a s', Q a s' → Q' a s') → wp m Q' s.
Proof. unfold wp. destruct (m s) as [[]| |]; eauto. Qed.

Lemma wp_and {S A} (m : go S A) (Q1 Q2 : A → S → Prop) s :
  wp m Q1 s → wp m Q2 s → wp m (λ a s', Q1 a s' ∧ Q2 a s') s.
Proof. unfold wp. by destruct (m s) as [[]| |]. Qed.

Lemma wp_snd {C N A} (m : go N A) (Q : A → C * N → Prop) c n :
  wp m (λ a n', Q a (c, n')) n → wp (go_snd m) Q (c, n).
Proof. unfold wp, go_snd. by destruct (m n) as [[]| |]. Qed.

Lemma wp_zoom {S T A} (get : S → T) (set : T → S → S) (m : go T A)
    (Q : A → S → Prop) s :
  wp m (λ a t, Q a (set t s)) (get s) → wp (go_zoom get set m) Q s.
Proof. unfold wp, go_zoom. by destruct (m (get s)) as [[]| |]. Qed.

Lemma wp_Ret {S A} (m : go S A) (Q : A → S → Prop) s :
  wp m Q s ↔ ∃ a s', m s = Ret (a, s') ∧ Q a s'.
Proof.
  unfold wp. destruct (m s) as [[a s']| |]; split; [eauto| |done| |done|].
  - intros (a1 & s1 & Heq & HQ). by injection Heq as -> ->.
  - by intros (? & ? & ? & ?).
  - by intros (? & ? & ? & ?).
Qed.

(** [safe m Q s]: run from [s], the routine does not panic, and if it returns its
    result and final state satisfy [Q]; it may block. *)
Definition safe {S A} (m : go S A) (Q : A → S → Prop) (s : S) : Prop :=
  match m s with Ret (a, s') => Q a s' | Panic => False | Blocked => True end.
Lemma wp_safe {S A} (m : go S A) (Q : A → S → Prop) s : wp m Q s → safe m Q s.
Proof. unfold wp, safe. by destruct (m s) as [[]| |]. Qed.
Lemma safe_bind {S A B} (m : go S A) (f : A → go S B) (Q : B → S → Prop) s :
  safe m (λ a, safe (f a) Q) s → safe (m ≫= f) Q s.
Proof. unfold safe, mbind, go_bind. by destruct (m s) as [[]| |]. Qed.
Lemma safe_mono {S A} (m : go S A) (Q Q' : A → S → Prop) s :
  safe m Q s → (∀ a s', Q a s' → Q' a s') → safe m Q' s.
Proof. unfold safe. destruct (m s) as [[]| |]; eauto. Qed.
(** A step that returns. *)
Lemma safe_step {S A B} (m : go S A) (f : A → go S B) (Q : B → S → Prop) s :
  wp m (λ a, safe (f a) Q) s → safe (m ≫= f) Q s.
Proof. intros H. apply safe_bind. by apply wp_safe. Qed.

Lemma safe_step_assoc {S A B C} (m : go S A) (g : A → go S B) (f : B → go S C) (Q : C → S → Prop) s :
  wp (m ≫= g) (λ b, safe (f b) Q) s → safe (a ← m; b ← g a; f b) Q s.
Proof.
  unfold wp, safe, mbind, go_bind. destruct (m s) as [[a s1]| |]; [|done..].
  by destruct (g a s1) as [[b s2]| |].
Qed.

(** The invariant rule of a range loop. *)
Lemma wp_range {S A} (I : S → Prop) (f : A → go S unit) l s :
  (∀ x s1, x ∈ l → I s1 → wp (f x) (λ _, I) s1) →
  I s → wp (go_range f l) (λ _, I) s.
Proof.
  intros Hf. revert s. induction l as [|x l IH]; intros s HI; simpl; [by apply wp_ret|].
  apply wp_bind. eapply wp_mono; [apply Hf; [apply list_elem_of_here|done]|].
  intros [] s1 H1. apply IH; [|done]. intros. apply Hf; [by apply list_elem_of_further|done].
Qed.

(** ** Lemmas on pointers *)
Lemma foldr_max_elem_of (l : list nat) x :
  x ∈ l → (x ≤ foldr Nat.max 0 l)%nat.
Proof.
  induction l as [|y l IH]; intros Hx; [by apply not_elem_of_nil in Hx|].
  simpl. apply elem_of_cons in Hx as [-> | Hx]; [lia|].
  specialize (IH Hx). lia.
Qed.

Lemma fresh_ptr_lookup {A} (h : gmap ptr A) : h !! fresh_ptr h = None.
Proof.
  apply eq_None_not_Some. intros [a Ha].
  apply elem_of_map_to_list in Ha.
  assert (Hin : fresh_ptr h ∈ (map_to_list h).*1).
  { apply list_elem_of_fmap. by exists (fresh_ptr h, a). }
  apply foldr_max_elem_of in Hin. unfold fresh_ptr, ptr in Hin. lia.
Qed.

Lemma fresh_ptr_nil {A} (h : gmap ptr A) : fresh_ptr h ≠ nil_ptr.
Proof. unfold fresh_ptr, nil_ptr. lia. Qed.

(** ** Lemmas on machine integers *)
Lemma u16_small x : 0 ≤ x < 2 ^ 16 → u16 x = x.
Proof. apply Z.mod_small. Qed.
Lemma u32_small x : 0 ≤ x < 2 ^ 32 → u32 x = x.
Proof. apply Z.mod_small. Qed.
Lemma u64_small x : 0 ≤ x < 2 ^ 64 → u64 x = x.
Proof. apply Z.mod_small. Qed.
Lemma i64_small x : is_i64 x → i64 x = x.
Proof. unfold is_i64, i64. intros. rewrite Z.mod_small; lia. Qed.

Lemma u32_range x : 0 ≤ u32 x < 2 ^ 32.
Proof. apply Z.mod_pos_bound. lia. Qed.
Lemma u64_range x : 0 ≤ u64 x < 2 ^ 64.
Proof. apply Z.mod_pos_bound. lia. Qed.
Lemma i64_range x : is_i64 (i64 x).
Proof.
  unfold is_i64, i64.
  pose proof (Z.mod_pos_bound (x + 2 ^ 63) (2 ^ 64) ltac:(lia)). lia.
Qed.

(** ** Automation *)
Create HintDb blobfuse.
Create Rewrite HintDb blobfuse.
#[export] Hint Resolve fresh_ptr_lookup fresh_ptr_nil i64_range u32_range
  u64_range : blobfuse.
#[export] Hint Rewrite @go_bind_Ret @go_snd_Ret @go_deref_Ret : blobfuse.

(** Invert a run of a monadic program that returned. *)
Ltac go_inv :=
  repeat match goal with
  | H : (_ ≫= _) _ = Ret _ |- _ =>
      apply go_bind_Ret in H as (? & ? & ? & H)
  | H : mret _ _ = Ret _ |- _ => injection H as H; subst
  | H : go_gets _ _ = Ret _ |- _ => injection H as H; subst
  | H : go_get _ = Ret _ |- _ => injection H as H; subst
  | H : go_modify _ _ = Ret _ |- _ => injection H as H; subst
  | H : go_put _ _ = Ret _ |- _ => injection H as H; subst
  | H : go_panic _ = Ret _ |- _ => discriminate H
  | H : go_block _ = Ret _ |- _ => discriminate H
  | H : go_deref _ _ = Ret _ |- _ => apply go_deref_Ret in H as [? ->]
  | H : go_snd _ _ = Ret _ |- _ => apply go_snd_Ret in H as [-> ?]
  | H : Ret _ = Ret _ |- _ => injection H as H; subst
  end.

(** Case analysis on the innermost [if] or [match] of a hypothesis or goal. *)
Ltac split_ifs :=
  repeat match goal with
  | |- context [if ?b then _ else _] => destruct b eqn:?
  | H : context [if ?b then _ else _] |- _ => destruct b eqn:?
  end.
