(* ===== verification/GoLib.v ===== *)
(** * The parts of the Go standard library the modelled code calls

    Strings ([strings]), slash paths ([path/filepath]), byte slices ([copy])
    and doubly linked lists ([container/list]).  Go strings are byte
    sequences, as [string] is; case folding is the ASCII one. *)
From S2P Require Import Prelude.
From Stdlib Require Import Ascii.
From Stdlib Require String.

(** ** strings *)
Fixpoint sdrop (n : nat) (s : string) : string :=
  match n, s with
  | O, _ => s
  | S n, String _ s => sdrop n s
  | S _, EmptyString => ""
  end.

Fixpoint stake (n : nat) (s : string) : string :=
  match n, s with
  | O, _ => ""
  | S n, String c s => String c (stake n s)
  | S _, EmptyString => ""
  end.

Definition strings_HasPrefix (s p : string) : bool := String.prefix p s.

Definition strings_HasSuffix (s p : string) : bool :=
  (String.length p <=? String.length s)%nat &&
  bool_decide (sdrop (String.length s - String.length p) s = p).

Definition strings_TrimPrefix (s p : string) : string :=
  if strings_HasPrefix s p then sdrop (String.length p) s else s.

Definition strings_TrimSuffix (s p : string) : string :=
  if strings_HasSuffix s p then stake (String.length s - String.length p) s
  else s.

(** The byte offset of the first occurrence, -1 when there is none. *)
Definition strings_Index (s sub : string) : Z :=
  match String.index 0 sub s with Some n => Z.of_nat n | None => -1 end.

Definition strings_Contains (s sub : string) : bool :=
  0 <=? strings_Index s sub.

(** strings.Split with a non-empty separator. *)
Fixpoint split_fuel (fuel : nat) (s sep : string) : list string :=
  match fuel with
  | O => [s]
  | S fuel =>
      match String.index 0 sep s with
      | Some n =>
          stake n s :: split_fuel fuel (sdrop (n + String.length sep) s) sep
      | None => [s]
      end
  end.
Definition strings_Split (s sep : string) : list string :=
  split_fuel (S (String.length s)) s sep.

Fixpoint strings_Join (l : list string) (sep : string) : string :=
  match l with
  | [] => ""
  | [s] => s
  | s :: l => s +:+ sep +:+ strings_Join l sep
  end.

(** strings.Replace(s, old, new, 1) for a non-empty [old]. *)
Definition strings_Replace1 (s old new : string) : string :=
  match String.index 0 old s with
  | Some n => stake n s +:+ new +:+ sdrop (n + String.length old) s
  | None => s
  end.

Definition ascii_lower (c : ascii) : ascii :=
  let n := nat_of_ascii c in
  if ((65 <=? n) && (n <=? 90))%nat then ascii_of_nat (n + 32) else c.

Fixpoint strings_ToLower (s : string) : string :=
  match s with
  | EmptyString => ""
  | String c s => String (ascii_lower c) (strings_ToLower s)
  end.

(** strings.ReplaceAll of one byte by another. *)
Fixpoint replace_char (old new : ascii) (s : string) : string :=
  match s with
  | EmptyString => ""
  | String c s =>
      String (if Ascii.eqb c old then new else c) (replace_char old new s)
  end.

Fixpoint last_char (s : string) : option ascii :=
  match s with
  | EmptyString => None
  | String c EmptyString => Some c
  | String _ s => last_char s
  end.

Definition slash : ascii := "/"%char.

(** ** path/filepath (Unix) *)
Definition clean_step (rooted : bool) (st : list string) (c : string)
    : list string :=
  if bool_decide (c = "") || bool_decide (c = ".") then st
  else if bool_decide (c = "..") then
    match st with
    | top :: st' => if bool_decide (top = "..") then c :: st else st'
    | [] => if rooted then [] else [c]
    end
  else c :: st.

Definition filepath_Clean (s : string) : string :=
  if bool_decide (s = "") then "."
  else
    let rooted := strings_HasPrefix s "/" in
    let st := foldl (clean_step rooted) [] (strings_Split s "/") in
    let body := strings_Join (rev st) "/" in
    if rooted then "/" +:+ body
    else if bool_decide (body = "") then "." else body.

Fixpoint filepath_Join (l : list string) : string :=
  match l with
  | [] => ""
  | s :: l' =>
      if bool_decide (s = "") then filepath_Join l'
      else filepath_Clean (strings_Join l "/")
  end.

Fixpoint trim_right_slashes_rev (l : list ascii) : list ascii :=
  match l with
  | c :: l' => if Ascii.eqb c slash then trim_right_slashes_rev l' else l
  | [] => []
  end.

Definition filepath_Base (s : string) : string :=
  if bool_decide (s = "") then "."
  else
    let t := rev (trim_right_slashes_rev (rev (String.list_ascii_of_string s))) in
    match rev (strings_Split (String.string_of_list_ascii t) "/") with
    | b :: _ => if bool_decide (b = "") then "/" else b
    | [] => "/"
    end.

(** filepath.Dir: what precedes the last slash, cleaned. *)
Fixpoint drop_to_slash (l : list ascii) : list ascii :=
  match l with
  | c :: l' => if Ascii.eqb c slash then l else drop_to_slash l'
  | [] => []
  end.
Definition filepath_Dir (s : string) : string :=
  filepath_Clean
    (String.string_of_list_ascii (rev (drop_to_slash (rev (String.list_ascii_of_string s))))).

(** The suffix that starts at the last dot of the last path element. *)
Fixpoint ext_rev (acc l : list ascii) : list ascii :=
  match l with
  | [] => []
  | c :: l' =>
      if Ascii.eqb c slash then []
      else if Ascii.eqb c "."%char then c :: acc
      else ext_rev (c :: acc) l'
  end.
Definition filepath_Ext (s : string) : string :=
  String.string_of_list_ascii (ext_rev [] (rev (String.list_ascii_of_string s))).

(** ** Byte slices *)
Abbreviation byte := Byte.byte.
Abbreviation zero_byte := Byte.x00.

(** [make([]byte, n)]; a negative length panics at the call sites. *)
Definition make_bytes (n : Z) : list byte := replicate (Z.to_nat n) zero_byte.

(** [copy(dst[off:], src)]: the new contents of [dst] and the bytes copied. *)
Definition copy_at {A} (dst : list A) (off : nat) (src : list A) : list A * nat :=
  let n := Nat.min (length dst - off) (length src) in
  (take off dst ++ take n src ++ drop (off + n) dst, n).

(** [s[lo:hi]] for in-range bounds. *)
Definition slice {A} (l : list A) (lo hi : Z) : list A :=
  take (Z.to_nat (hi - lo)) (drop (Z.to_nat lo) l).

(** The content of a file after a write of [data] at [offset], and after a
    truncation or extension to [size]; gaps are filled with zeros. *)
Definition splice (c : list byte) (offset : nat) (data : list byte) : list byte :=
  take offset (c ++ replicate (offset - length c) zero_byte) ++ data
  ++ drop (offset + length data) c.
Definition resize (c : list byte) (size : nat) : list byte :=
  take size (c ++ replicate (size - length c) zero_byte).

(** Flags of os.OpenFile on Linux. *)
Definition O_RDONLY : Z := 0.
Definition O_WRONLY : Z := 1.
Definition O_RDWR : Z := 2.
Definition O_CREATE : Z := 64.
Definition O_TRUNC : Z := 512.

(** ** container/list

    An element is identified by the number it received when it was pushed,
    as a [*list.Element] is by its address. *)
Module GoList.
Record t (V : Type) := mk { elems : list (nat * V); next_id : nat }.
Arguments mk {V} _ _.
Arguments elems {V} _.
Arguments next_id {V} _.

Definition empty {V} : t V := mk [] 1.
Definition len {V} (l : t V) : Z := Z.of_nat (length (elems l)).
Definition push_front {V} (v : V) (l : t V) : nat * t V :=
  (next_id l, mk ((next_id l, v) :: elems l) (S (next_id l))).
Definition push_back {V} (v : V) (l : t V) : nat * t V :=
  (next_id l, mk (elems l ++ [(next_id l, v)]) (S (next_id l))).
Fixpoint assoc {V} (e : nat) (l : list (nat * V)) : option V :=
  match l with
  | [] => None
  | (e', v) :: l => if decide (e' = e) then Some v else assoc e l
  end.
Definition get {V} (e : nat) (l : t V) : option V := assoc e (elems l).
Definition remove {V} (e : nat) (l : t V) : t V :=
  mk (filter (λ p, p.1 ≠ e) (elems l)) (next_id l).
Definition move_to_front {V} (e : nat) (l : t V) : t V :=
  match get e l with
  | Some v => mk ((e, v) :: filter (λ p, p.1 ≠ e) (elems l)) (next_id l)
  | None => l
  end.
Definition front {V} (l : t V) : option (nat * V) := head (elems l).
Definition back {V} (l : t V) : option (nat * V) := last (elems l).
End GoList.

(** ** Lemmas on strings *)
#[local] Arguments String.append _ _ : simpl nomatch.

Lemma prefix_app p t : String.prefix p (p +:+ t) = true.
Proof.
  induction p as [|c p IH]; [by destruct t|].
  simpl. destruct (ascii_dec c c); done.
Qed.

Lemma prefix_spec p s :
  String.prefix p s = true ↔ ∃ t, s = p +:+ t.
Proof.
  split; [|intros [t ->]; apply prefix_app].
  revert s. induction p as [|c p IH]; intros s; simpl.
  { intros _. by exists s. }
  destruct s as [|d s]; simpl; [done|].
  destruct (ascii_dec c d) as [->|]; [|done].
  intros [t ->]%IH. by exists t.
Qed.

Lemma HasPrefix_spec s p :
  strings_HasPrefix s p = true ↔ ∃ t, s = p +:+ t.
Proof. apply prefix_spec. Qed.

Lemma string_app_nil_r s : s +:+ "" = s.
Proof. induction s as [|c s IH]; simpl; [done|by rewrite IH]. Qed.

Lemma string_app_assoc a b c : (a +:+ b) +:+ c = a +:+ (b +:+ c).
Proof. induction a as [|x a IH]; simpl; [done|by rewrite IH]. Qed.

Lemma string_app_length a b :
  String.length (a +:+ b) = (String.length a + String.length b)%nat.
Proof. induction a as [|x a IH]; simpl; [done|by rewrite IH]. Qed.

Lemma string_app_inj_l a b c : a +:+ b = a +:+ c → b = c.
Proof. induction a as [|x a IH]; simpl; [done|]. intros [= H]. auto. Qed.

Lemma string_app_inj_r a b c : a +:+ c = b +:+ c → a = b.
Proof.
  revert b. induction a as [|x a IH]; intros [|y b]; simpl; intros H; [done|..].
  - exfalso. apply (f_equal String.length) in H. simpl in H.
    rewrite string_app_length in H. lia.
  - exfalso. apply (f_equal String.length) in H. simpl in H.
    rewrite string_app_length in H. lia.
  - injection H as -> H. f_equal. auto.
Qed.

Lemma sdrop_app a b : sdrop (String.length a) (a +:+ b) = b.
Proof. induction a as [|x a IH]; simpl; [by destruct b|done]. Qed.

Lemma stake_app a b : stake (String.length a) (a +:+ b) = a.
Proof. induction a as [|x a IH]; simpl; [by destruct b|by rewrite IH]. Qed.

Lemma last_char_app a c : last_char (a +:+ String c "") = Some c.
Proof.
  induction a as [|x a IH]; simpl; [done|].
  destruct a; simpl in *; done.
Qed.

Lemma last_char_inv s c :
  last_char s = Some c → ∃ a, s = a +:+ String c "".
Proof.
  induction s as [|x s IH]; [done|]. simpl.
  destruct s as [|y s].
  - intros [= ->]. by exists "".
  - intros [a Ha]%IH. exists (String x a). simpl. by rewrite <-Ha.
Qed.

Lemma last_char_None s : last_char s = None → s = "".
Proof.
  induction s as [|x s IH]; [done|]. simpl.
  destruct s as [|y s]; [done|]. intros H%IH. done.
Qed.

Lemma TrimPrefix_app p t : strings_TrimPrefix (p +:+ t) p = t.
Proof.
  unfold strings_TrimPrefix, strings_HasPrefix. rewrite prefix_app. apply sdrop_app.
Qed.

(** The first occurrence splits the string. *)
Lemma index_split s old n :
  String.index 0 old s = Some n → ∃ a b, s = a +:+ old +:+ b ∧ String.length a = n.
Proof.
  revert n. induction s as [|c s IH]; intros n.
  - destruct old; intros [= <-]. by exists "", "".
  - cbn [String.index]. destruct (String.prefix old (String c s)) eqn:Hp.
    + intros [= <-]. apply prefix_spec in Hp as [t Ht]. by exists "", t.
    + destruct (String.index 0 old s) as [m|] eqn:E; [|done]. intros [= <-].
      destruct (IH m eq_refl) as (a & b & -> & <-). by exists (String c a), b.
Qed.

(** ** Lemmas on slices *)
Lemma copy_at_length {A} (dst : list A) off src :
  (off ≤ length dst)%nat → length (copy_at dst off src).1 = length dst.
Proof.
  intros. unfold copy_at. cbn [fst].
  rewrite !length_app, !length_take, length_drop. lia.
Qed.

Lemma copy_at_full {A} (dst : list A) off src :
  (off + length src ≤ length dst)%nat →
  copy_at dst off src = (take off dst ++ src ++ drop (off + length src) dst, length src).
Proof.
  intros H. unfold copy_at. rewrite Nat.min_r by lia. by rewrite (take_ge src) by lia.
Qed.

Lemma copy_at_lookup {A} (dst : list A) off src k :
  (off ≤ length dst)%nat →
  (copy_at dst off src).1 !! k =
    if decide (off ≤ k < off + (copy_at dst off src).2)%nat then src !! (k - off)%nat else dst !! k.
Proof.
  intros H. unfold copy_at. cbn [fst snd]. set (n := Nat.min _ _). case_decide as Hk.
  - rewrite lookup_app_r by (rewrite length_take; lia). rewrite length_take, Nat.min_l by lia.
    rewrite lookup_app_l by (rewrite length_take; lia). by rewrite lookup_take_lt by lia.
  - destruct (decide (k < off)%nat).
    + rewrite lookup_app_l by (rewrite length_take; lia). by rewrite lookup_take_lt.
    + rewrite lookup_app_r by (rewrite length_take; lia).
      rewrite lookup_app_r by (rewrite !length_take; lia). rewrite !length_take, lookup_drop. f_equal. lia.
Qed.

Lemma make_bytes_length n : length (make_bytes n) = Z.to_nat n.
Proof. apply length_replicate. Qed.

Lemma slice_length {A} (l : list A) lo hi :
  0 ≤ lo → lo ≤ hi → hi ≤ Z.of_nat (length l) →
  length (slice l lo hi) = Z.to_nat (hi - lo).
Proof. intros. unfold slice. rewrite length_take, length_drop. lia. Qed.

Lemma slice_app {A} (l : list A) lo mid hi :
  0 ≤ lo → lo ≤ mid → mid ≤ hi →
  slice l lo mid ++ slice l mid hi = slice l lo hi.
Proof.
  intros. unfold slice.
  replace (Z.to_nat (hi - lo)) with (Z.to_nat (mid - lo) + Z.to_nat (hi - mid))%nat by lia.
  rewrite <-take_take_drop, drop_drop. do 3 f_equal. lia.
Qed.

Lemma slice_full {A} (l : list A) : slice l 0 (Z.of_nat (length l)) = l.
Proof. unfold slice. rewrite drop_0. apply take_ge. lia. Qed.

#[export] Hint Rewrite @string_app_nil_r @string_app_assoc @string_app_length
  @make_bytes_length : blobfuse.

(** ** Lemmas on container/list *)
Module GoListFacts.
Import GoList.
Section facts.
Context {V : Type}.
Implicit Types (l : t V).

(** Element numbers are distinct and below the next one to be handed out. *)
Definition wf l : Prop :=
  NoDup ((elems l).*1) ∧ Forall (λ p, (p.1 < next_id l)%nat) (elems l).

Lemma wf_empty : wf empty.
Proof. split; constructor. Qed.

Lemma wf_push_front v l : wf l → wf (push_front v l).2.
Proof.
  intros [Hnd Hlt]. split; simpl.
  - apply NoDup_cons. split; [|done]. intros ([e w] & Heq & Hin)%list_elem_of_fmap.
    simpl in Heq. rewrite Forall_forall in Hlt. apply Hlt in Hin. simpl in *. lia.
  - constructor; [simpl; lia|]. eapply Forall_impl; [done|]. simpl. lia.
Qed.

Lemma NoDup_fst_filter (P : nat * V → Prop) `{!∀ x, Decision (P x)} (m : list (nat * V)) :
  NoDup (m.*1) → NoDup ((filter P m).*1).
Proof.
  intros Hnd. eapply sublist_NoDup; [exact Hnd|].
  apply fmap_sublist. apply sublist_filter.
Qed.

Lemma Forall_filter_keep (P Q : nat * V → Prop) `{!∀ x, Decision (P x)} m :
  Forall Q m → Forall Q (filter P m).
Proof.
  rewrite !Forall_forall. intros HQ x [_ Hx]%list_elem_of_filter. auto.
Qed.

Lemma wf_remove e l : wf l → wf (remove e l).
Proof.
  intros [Hnd Hlt]. split; simpl.
  - by apply NoDup_fst_filter.
  - by apply Forall_filter_keep.
Qed.

Lemma assoc_Some_elem e v (m : list (nat * V)) :
  NoDup (m.*1) → assoc e m = Some v ↔ (e, v) ∈ m.
Proof.
  induction m as [|[e' v'] m IH]; simpl.
  { intros _. split; [done|]. intros H. by apply not_elem_of_nil in H. }
  intros [Hni Hnd]%NoDup_cons. rewrite elem_of_cons. case_decide as Hd.
  - subst e'. split; [intros [= ->]; by left|].
    intros [[= ->]|Hin]; [done|]. exfalso. apply Hni.
    apply list_elem_of_fmap. by exists (e, v).
  - rewrite IH by done. split; [by right|]. intros [[= -> ->]|]; done.
Qed.

Lemma get_elem e v l : wf l → get e l = Some v ↔ (e, v) ∈ elems l.
Proof. intros [Hnd _]. by apply assoc_Some_elem. Qed.

Lemma wf_move_to_front e l : wf l → wf (move_to_front e l).
Proof.
  intros Hwf. unfold move_to_front. destruct (get e l) as [v|] eqn:Hg; [|done].
  apply get_elem in Hg; [|done]. destruct Hwf as [Hnd Hlt]. split; simpl.
  - apply NoDup_cons. split; [|by apply NoDup_fst_filter].
    intros ([e' w] & Heq & Hin)%list_elem_of_fmap. simpl in Heq. subst e'.
    apply list_elem_of_filter in Hin as [Hne _]. done.
  - constructor; [|by apply Forall_filter_keep].
    rewrite Forall_forall in Hlt. apply (Hlt _ Hg).
Qed.
End facts.
End GoListFacts.
