(* ===== verification/Common.v ===== *)
(** * Package common: bit maps, blocks and block offset lists

    src/common/util.go (BitMap16, NormalizeObjectName) and src/common/types.go
    (Block, BlockOffsetList and its searches). *)
From S2P Require Import Prelude GoLib.
From Stdlib Require Import Ascii.

(** ** Paths (src/common/util.go)

    What ExpandPath uses of package os: the home directory ([None] when it is
    not known), os.ExpandEnv and filepath.Abs. *)
Record OsEnv := mkOsEnv {
  UserHomeDir : option string;
  ExpandEnv : string → string;
  filepath_Abs : string → string
}.
Definition ExpandPath (env : OsEnv) (path : string) : string :=
  if bool_decide (path = "") then path
  else if strings_HasPrefix path "~/" then
    match UserHomeDir env with
    | None => path
    | Some homeDir => filepath_Abs env (ExpandEnv env (filepath_Join [homeDir; sdrop 2 path]))
    end
  else filepath_Abs env (ExpandEnv env path).

(** ** BitMap16 (src/common/util.go)

    A [uint16]; the shift, the complement and the stores stay in 16 bits. *)
Definition BitMap16 : Type := Z.

Definition IsSet (bm : BitMap16) (bit : Z) : bool :=
  negb (Z.land bm (u16 (Z.shiftl 1 bit)) =? 0).
Definition Set_ (bm : BitMap16) (bit : Z) : BitMap16 :=
  Z.lor bm (u16 (Z.shiftl 1 bit)).
Definition Clear (bm : BitMap16) (bit : Z) : BitMap16 :=
  Z.land bm (Z.lxor (u16 (Z.shiftl 1 bit)) 65535).
Definition Reset (bm : BitMap16) : BitMap16 := 0.

(** If the name contains a backslash, it becomes a slash. *)
Definition NormalizeObjectName (name : string) : string :=
  replace_char "\"%char "/"%char name.

(** ** Block (src/common/types.go) *)
Definition DirtyBlock : Z := 1.
Definition TruncatedBlock : Z := 2.
Definition RemovedBlocks : Z := 3.

Record Block := mkBlock {
  StartIndex : Z;
  EndIndex : Z;
  bFlags : BitMap16;
  Id : string;
  Data : list byte
}.

Definition Dirty (b : Block) : bool := IsSet (bFlags b) DirtyBlock.
Definition Truncated (b : Block) : bool := IsSet (bFlags b) TruncatedBlock.
Definition Removed (b : Block) : bool := IsSet (bFlags b) RemovedBlocks.

(** [block.Flags.Set(bit)], [block.Flags.Clear(bit)] and the field stores. *)
Definition block_set (bit : Z) (b : Block) : Block :=
  mkBlock (StartIndex b) (EndIndex b) (Set_ (bFlags b) bit) (Id b) (Data b).
Definition block_clear (bit : Z) (b : Block) : Block :=
  mkBlock (StartIndex b) (EndIndex b) (Clear (bFlags b) bit) (Id b) (Data b).
Definition block_with_end (e : Z) (b : Block) : Block :=
  mkBlock (StartIndex b) e (bFlags b) (Id b) (Data b).
Definition block_with_data (d : list byte) (b : Block) : Block :=
  mkBlock (StartIndex b) (EndIndex b) (bFlags b) (Id b) d.
Definition block_size (b : Block) : Z := i64 (EndIndex b - StartIndex b).

(** ** BlockOffsetList (src/common/types.go)

    The blocks are named by their position in [BlockList]. *)
Definition SmallFileFlag : Z := 1.

Record BlockOffsetList := mkBOL {
  BlockList : list Block;
  bolFlags : BitMap16;
  BlockIdLength : Z;
  bolSize : Z;
  bolMtime : Time
}.
Definition empty_bol : BlockOffsetList := mkBOL [] 0 0 0 0.
Definition bol_with_blocks (l : list Block) (bol : BlockOffsetList) :=
  mkBOL l (bolFlags bol) (BlockIdLength bol) (bolSize bol) (bolMtime bol).

Definition SmallFile (bol : BlockOffsetList) : bool :=
  IsSet (bolFlags bol) SmallFileFlag.

(** The loop of BinarySearch: [None] when the fuel runs out.  The test order
    is that of the code: the block holds the offset, the block ends before it,
    the block starts after it. *)
Fixpoint BinarySearch_loop (fuel : nat) (l : list Block) (offset lo hi : Z)
    : option (bool * Z) :=
  match fuel with
  | O => None
  | S fuel =>
      if lo <=? hi then
        let mid := (lo + hi) / 2 in
        match l !! Z.to_nat mid with
        | None => None
        | Some b =>
            if (offset <? EndIndex b) && (StartIndex b <=? offset)
            then Some (true, mid)
            else if EndIndex b <=? offset
            then BinarySearch_loop fuel l offset (mid + 1) hi
            else if offset <? StartIndex b
            then BinarySearch_loop fuel l offset lo (mid - 1)
            else BinarySearch_loop fuel l offset lo hi
        end
      else Some (false, Z.of_nat (length l))
  end.

Definition BinarySearch (bol : BlockOffsetList) (offset : Z) : bool * Z :=
  let size := Z.of_nat (length (BlockList bol)) in
  default (false, size)
    (BinarySearch_loop (S (length (BlockList bol))) (BlockList bol) offset 0
       (size - 1)).

(** The loop of FindBlocks over [BlockList[index:]]; [pos] is the position of
    the head of the list. *)
Fixpoint FindBlocks_loop (l : list Block) (pos : nat) (cur offset length : Z)
    : list nat :=
  match l with
  | [] => []
  | blk :: l =>
      if i64 (offset + length) <? StartIndex blk then []
      else if (StartIndex blk <=? cur) && (cur <? EndIndex blk)
              && (cur <=? i64 (offset + length))
      then pos :: FindBlocks_loop l (S pos) (EndIndex blk) offset length
      else FindBlocks_loop l (S pos) cur offset length
  end.

Definition FindBlocks (bol : BlockOffsetList) (offset length : Z)
    : list nat * bool :=
  let '(found, index) := BinarySearch bol offset in
  if negb found then ([], false)
  else
    (FindBlocks_loop (drop (Z.to_nat index) (BlockList bol)) (Z.to_nat index)
       offset offset length, true).

(** The loop of FindBlocksToModify: the blocks with the dirty flag set on
    those to be modified, the size of the old data and whether no block was
    modified (append only). *)
Fixpoint FindBlocksToModify_loop (l : list Block)
    (cur offset length size : Z) (appendOnly : bool)
    : list Block * Z * bool :=
  match l with
  | [] => ([], size, appendOnly)
  | blk :: l' =>
      if i64 (offset + length) <? StartIndex blk then (l, size, appendOnly)
      else if (StartIndex blk <=? cur) && (cur <? EndIndex blk)
              && (cur <=? i64 (offset + length))
      then
        let '(r, size', ao) :=
          FindBlocksToModify_loop l' (EndIndex blk) offset length
            (i64 (size + block_size blk)) false in
        (block_set DirtyBlock blk :: r, size', ao)
      else
        let '(r, size', ao) :=
          FindBlocksToModify_loop l' cur offset length size appendOnly in
        (blk :: r, size', ao)
  end.

(** Returns the list with its flags updated and the four results: index of the
    first modified block, size of the modified blocks, does the new data
    exceed the current size, is it append only. *)
Definition FindBlocksToModify (bol : BlockOffsetList) (offset length : Z)
    : BlockOffsetList * (Z * Z * bool * bool) :=
  let '(found, index) := BinarySearch bol offset in
  if negb found then (bol, (index, 0, true, true))
  else
    let i := Z.to_nat index in
    let '(r, size, ao) :=
      FindBlocksToModify_loop (drop i (BlockList bol)) offset offset length 0
        true in
    let lst := take i (BlockList bol) ++ r in
    let lastEnd := from_option EndIndex 0 (last lst) in
    (bol_with_blocks lst bol,
     (index, size, lastEnd <=? i64 (offset + length), ao)).

(** ** Bit map laws *)
Definition is_bit (bit : Z) : Prop := 0 ≤ bit < 16.

Lemma shiftl1_u16 bit : is_bit bit → u16 (Z.shiftl 1 bit) = 2 ^ bit.
Proof.
  intros Hb. rewrite Z.shiftl_1_l. apply u16_small. split.
  - apply Z.pow_nonneg. lia.
  - apply Z.pow_lt_mono_r; unfold is_bit in Hb; lia.
Qed.

Lemma land_pow2_testbit x bit :
  0 ≤ bit → Z.land x (2 ^ bit) = if Z.testbit x bit then 2 ^ bit else 0.
Proof.
  intros Hb. apply Z.bits_inj'. intros i Hi.
  rewrite Z.land_spec, Z.pow2_bits_eqb by done.
  destruct (Z.eqb_spec bit i) as [->|Hne].
  - rewrite andb_true_r. destruct (Z.testbit x i) eqn:E.
    + by rewrite Z.pow2_bits_true.
    + by rewrite Z.bits_0.
  - rewrite andb_false_r. destruct (Z.testbit x bit).
    + by rewrite Z.pow2_bits_false.
    + by rewrite Z.bits_0.
Qed.

Lemma IsSet_testbit bm bit : is_bit bit → IsSet bm bit = Z.testbit bm bit.
Proof.
  intros Hb. unfold IsSet. rewrite shiftl1_u16 by done.
  rewrite land_pow2_testbit by (unfold is_bit in Hb; lia).
  destruct (Z.testbit bm bit); [|done].
  pose proof (Z.pow_pos_nonneg 2 bit). unfold is_bit in Hb.
  destruct (Z.eqb_spec (2 ^ bit) 0); [lia|done].
Qed.

Lemma IsSet_Set bm bit bit' :
  is_bit bit → is_bit bit' →
  IsSet (Set_ bm bit) bit' = bool_decide (bit = bit') || IsSet bm bit'.
Proof.
  intros Hb Hb'. rewrite !IsSet_testbit by done. unfold Set_.
  rewrite shiftl1_u16 by done. unfold is_bit in *.
  rewrite Z.lor_spec, Z.pow2_bits_eqb by lia.
  rewrite orb_comm. f_equal. case_bool_decide; destruct (Z.eqb_spec bit bit'); done.
Qed.

Lemma testbit_65535 i : is_bit i → Z.testbit 65535 i = true.
Proof.
  intros Hi. change 65535 with (Z.ones 16). apply Z.ones_spec_low.
  unfold is_bit in Hi. lia.
Qed.

Lemma IsSet_Clear bm bit bit' :
  is_bit bit → is_bit bit' →
  IsSet (Clear bm bit) bit' = negb (bool_decide (bit = bit')) && IsSet bm bit'.
Proof.
  intros Hb Hb'. rewrite !IsSet_testbit by done. unfold Clear.
  rewrite shiftl1_u16 by done. rewrite Z.land_spec, Z.lxor_spec.
  rewrite (testbit_65535 bit') by done.
  unfold is_bit in *. rewrite Z.pow2_bits_eqb by lia.
  rewrite xorb_true_r, andb_comm. f_equal. f_equal.
  case_bool_decide; destruct (Z.eqb_spec bit bit'); done.
Qed.

Lemma IsSet_Reset bm bit : IsSet (Reset bm) bit = false.
Proof. done. Qed.

(** The stores keep the map in 16 bits. *)
Lemma Set_range bm bit :
  is_bit bit → 0 ≤ bm < 2 ^ 16 → 0 ≤ Set_ bm bit < 2 ^ 16.
Proof.
  intros Hb Hbm. unfold Set_. rewrite shiftl1_u16 by done.
  assert (0 ≤ 2 ^ bit < 2 ^ 16).
  { split; [apply Z.pow_nonneg; lia|].
    apply Z.pow_lt_mono_r; unfold is_bit in Hb; lia. }
  split; [apply Z.lor_nonneg; lia|].
  destruct (Z.eq_dec (Z.lor bm (2 ^ bit)) 0) as [->|Hnz]; [lia|].
  apply Z.log2_lt_pow2; [assert (0 ≤ Z.lor bm (2 ^ bit)) by (apply Z.lor_nonneg; lia); lia|].
  rewrite Z.log2_lor by lia.
  unfold is_bit in Hb. rewrite Z.log2_pow2 by lia.
  destruct (Z.eq_dec bm 0) as [->|]; [simpl; lia|].
  apply Z.max_lub_lt; [apply Z.log2_lt_pow2; lia|lia].
Qed.

Create Rewrite HintDb bitmap.
#[export] Hint Rewrite IsSet_Set IsSet_Clear IsSet_Reset
  using (unfold is_bit; lia) : bitmap.

(** ** Searches of a block offset list

    [contiguous start l]: the blocks are non-empty and each starts where the
    previous one ends, the first at [start]. *)
Fixpoint contiguous (start : Z) (l : list Block) : Prop :=
  match l with
  | [] => True
  | b :: l => StartIndex b = start ∧ StartIndex b < EndIndex b
              ∧ contiguous (EndIndex b) l
  end.

(** Where a contiguous list that starts at [start] ends. *)
Definition end_of (start : Z) (l : list Block) : Z :=
  from_option EndIndex start (last l).

Definition holds (offset : Z) (b : Block) : Prop :=
  StartIndex b ≤ offset < EndIndex b.
#[export] Instance holds_dec offset b : Decision (holds offset b).
Proof. unfold holds. apply _. Defined.

(** The reference search: the first block that holds the offset. *)
Definition linear_search (l : list Block) (offset : Z) : bool * Z :=
  match list_find (holds offset) l with
  | Some (i, _) => (true, Z.of_nat i)
  | None => (false, Z.of_nat (length l))
  end.

Lemma contiguous_app start l1 l2 :
  contiguous start (l1 ++ l2) ↔ contiguous start l1 ∧ contiguous (end_of start l1) l2.
Proof.
  revert start. induction l1 as [|b l1 IH]; intros start; simpl; [tauto|].
  rewrite IH. unfold end_of. destruct l1 as [|c l1]; simpl; [tauto|].
  destruct (last (c :: l1)) eqn:E; [simpl; tauto|].
  by apply last_None in E.
Qed.

Lemma end_of_cons start b l : end_of start (b :: l) = end_of (EndIndex b) l.
Proof.
  unfold end_of. destruct l as [|c l]; [done|].
  rewrite last_cons_cons. destruct (last (c :: l)) eqn:E; [done|].
  by apply last_None in E.
Qed.

Lemma contiguous_le start l : contiguous start l → start ≤ end_of start l.
Proof.
  revert start. induction l as [|b l IH]; intros start; simpl.
  { unfold end_of; simpl. lia. }
  intros (H1 & H2 & H3). rewrite end_of_cons. specialize (IH _ H3). lia.
Qed.

(** Blocks before position [i] end at or before block [i] starts, and blocks
    after it start at or after its end. *)
Lemma contiguous_lookup_lt start l i j b c :
  contiguous start l → l !! i = Some b → l !! j = Some c → (i < j)%nat →
  EndIndex b ≤ StartIndex c.
Proof.
  revert start i j. induction l as [|d l IH]; intros start i j; simpl; [done|].
  intros (H1 & H2 & H3). destruct i as [|i]; destruct j as [|j]; simpl; try lia.
  - intros [= <-] Hc _. clear IH.
    assert (∀ s k, contiguous s l → l !! k = Some c → s ≤ StartIndex c) as Haux.
    { clear. induction l as [|e l IH]; intros s k; [done|]. simpl.
      intros (Ha & Hb & Hc). destruct k as [|k]; simpl.
      - intros [= ->]. lia.
      - intros Hk. specialize (IH _ _ Hc Hk). lia. }
    eauto.
  - intros Hb Hc Hlt. eapply IH; eauto. lia.
Qed.

Lemma contiguous_nonempty start l i b :
  contiguous start l → l !! i = Some b → StartIndex b < EndIndex b.
Proof.
  revert start i. induction l as [|d l IH]; intros start i; simpl; [done|].
  intros (H1 & H2 & H3). destruct i as [|i]; simpl; [by intros [= <-]|eauto].
Qed.

Lemma linear_search_found start l offset i b :
  contiguous start l → l !! i = Some b → holds offset b →
  linear_search l offset = (true, Z.of_nat i).
Proof.
  intros Hc Hi Hh. unfold linear_search.
  destruct (list_find (holds offset) l) as [[j c]|] eqn:E.
  - apply list_find_Some in E as (Hj & Hhc & _). do 2 f_equal.
    destruct (Nat.lt_trichotomy i j) as [Hlt|[->|Hlt]]; [|done|].
    + pose proof (contiguous_lookup_lt _ _ _ _ _ _ Hc Hi Hj Hlt). unfold holds in *. lia.
    + pose proof (contiguous_lookup_lt _ _ _ _ _ _ Hc Hj Hi Hlt). unfold holds in *. lia.
  - apply list_find_None in E. rewrite Forall_forall in E.
    exfalso. eapply E; [|exact Hh]. apply list_elem_of_lookup. eauto.
Qed.

Lemma linear_search_none l offset :
  (∀ i b, l !! i = Some b → ¬ holds offset b) →
  linear_search l offset = (false, Z.of_nat (length l)).
Proof.
  intros Hn. unfold linear_search.
  destruct (list_find (holds offset) l) as [[j c]|] eqn:E; [|done].
  apply list_find_Some in E as (Hj & Hh & _). by apply Hn in Hj.
Qed.

Lemma BinarySearch_loop_correct fuel start l offset lo hi :
  contiguous start l →
  0 ≤ lo → hi < Z.of_nat (length l) → lo ≤ hi + 1 →
  (Z.to_nat (hi - lo + 1) < fuel)%nat →
  (∀ i b, l !! i = Some b → Z.of_nat i < lo ∨ hi < Z.of_nat i → ¬ holds offset b) →
  BinarySearch_loop fuel l offset lo hi = Some (linear_search l offset).
Proof.
  intros Hc. revert lo hi. induction fuel as [|fuel IH]; intros lo hi Hlo Hhi Hlh Hf Hout.
  { lia. }
  simpl. destruct (Z.leb_spec lo hi) as [Hle|Hgt]; cycle 1.
  { f_equal. symmetry. apply linear_search_none. intros i b Hb. apply (Hout _ _ Hb). lia. }
  set (mid := (lo + hi) / 2).
  assert (Hmid : lo ≤ mid ≤ hi).
  { unfold mid. split; [apply Z.div_le_lower_bound; lia|apply Z.div_le_upper_bound; lia]. }
  destruct (l !! Z.to_nat mid) as [b|] eqn:Hb; cycle 1.
  { apply lookup_ge_None in Hb. lia. }
  pose proof (contiguous_nonempty _ _ _ _ Hc Hb) as Hne.
  destruct ((offset <? EndIndex b) && (StartIndex b <=? offset)) eqn:Hh.
  { rewrite (linear_search_found start l offset (Z.to_nat mid) b); [|done..|unfold holds; lia].
    do 2 f_equal. lia. }
  destruct (Z.leb_spec (EndIndex b) offset).
  - apply IH; try lia. intros i c Hi Hor.
    destruct (decide (Z.of_nat i = mid)) as [Heq|].
    { assert (i = Z.to_nat mid) as -> by lia. rewrite Hb in Hi. injection Hi as <-.
      unfold holds. lia. }
    destruct (decide (Z.of_nat i < mid)).
    { pose proof (contiguous_lookup_lt _ _ _ _ _ _ Hc Hi Hb ltac:(lia)). unfold holds. lia. }
    apply (Hout _ _ Hi). lia.
  - destruct (Z.ltb_spec offset (StartIndex b)); [|lia].
    apply IH; try lia. intros i c Hi Hor.
    destruct (decide (Z.of_nat i = mid)) as [Heq|].
    { assert (i = Z.to_nat mid) as -> by lia. rewrite Hb in Hi. injection Hi as <-.
      unfold holds. lia. }
    destruct (decide (mid < Z.of_nat i)).
    { pose proof (contiguous_lookup_lt _ _ _ _ _ _ Hc Hb Hi ltac:(lia)). unfold holds. lia. }
    apply (Hout _ _ Hi). lia.
Qed.

Lemma BinarySearch_linear start bol offset :
  contiguous start (BlockList bol) →
  BinarySearch bol offset = linear_search (BlockList bol) offset.
Proof.
  intros Hc. unfold BinarySearch.
  rewrite (BinarySearch_loop_correct _ start); [done|done|lia..|].
  intros i b Hi [?|Hgt]; [lia|]. apply lookup_lt_Some in Hi. lia.
Qed.

(** The list splits at the block that holds an offset inside the file. *)
Lemma contiguous_split start l offset :
  contiguous start l → start ≤ offset < end_of start l →
  ∃ l1 b l2, l = l1 ++ b :: l2 ∧ holds offset b.
Proof.
  revert start. induction l as [|b l IH]; intros start.
  { unfold end_of; simpl. lia. }
  intros (H1 & H2 & H3) Hin. rewrite end_of_cons in Hin.
  destruct (decide (holds offset b)) as [Hh|Hh].
  { by exists [], b, l. }
  unfold holds in Hh.
  destruct (IH (EndIndex b)) as (l1 & c & l2 & -> & Hc); [done|lia|].
  by exists (b :: l1), c, l2.
Qed.

Lemma BinarySearch_split start bol l1 b l2 offset :
  BlockList bol = l1 ++ b :: l2 → contiguous start (BlockList bol) →
  holds offset b → BinarySearch bol offset = (true, Z.of_nat (length l1)).
Proof.
  intros Heq Hc Hh. rewrite (BinarySearch_linear start) by done.
  eapply linear_search_found; [done| |done]. rewrite Heq. by apply list_lookup_middle.
Qed.

Lemma BinarySearch_beyond start bol offset :
  contiguous start (BlockList bol) → end_of start (BlockList bol) ≤ offset →
  BinarySearch bol offset = (false, Z.of_nat (length (BlockList bol))).
Proof.
  intros Hc Hle. rewrite (BinarySearch_linear start) by done.
  apply linear_search_none. intros i b Hi Hh.
  assert (EndIndex b ≤ end_of start (BlockList bol)); [|unfold holds in Hh; lia].
  apply list_elem_of_split_length in Hi as (l1 & l2 & Heq & _).
  rewrite Heq in Hc |- *. apply contiguous_app in Hc as [_ (_ & _ & Hc)].
  apply contiguous_le in Hc. revert Hc. unfold end_of.
  rewrite last_app, last_cons. destruct (last l2); simpl; lia.
Qed.

(** The blocks a write of [length] bytes at [offset] reaches: the maximal
    prefix of blocks that start at or before its end. *)
Definition reached (stop : Z) (m1 m2 : list Block) : Prop :=
  Forall (λ b, StartIndex b ≤ stop) m1 ∧
  match m2 with [] => True | b :: _ => stop < StartIndex b end.

Lemma reached_exists start l stop :
  contiguous start l → ∃ m1 m2, l = m1 ++ m2 ∧ reached stop m1 m2.
Proof.
  revert start. induction l as [|b l IH]; intros start.
  { intros _. exists [], []. done. }
  intros (H1 & H2 & H3). destruct (decide (StartIndex b ≤ stop)).
  - destruct (IH _ H3) as (m1 & m2 & -> & Hf & Hm). exists (b :: m1), m2.
    split; [done|]. split; [by constructor|done].
  - exists [], (b :: l). split; [done|]. split; [done|]. lia.
Qed.

Lemma end_of_app start l1 l2 :
  end_of start (l1 ++ l2) = end_of (end_of start l1) l2.
Proof.
  unfold end_of. rewrite last_app. by destruct (last l2).
Qed.

Lemma block_size_small b :
  0 ≤ StartIndex b → StartIndex b < EndIndex b → EndIndex b < 2 ^ 63 →
  block_size b = EndIndex b - StartIndex b.
Proof. intros. unfold block_size. apply i64_small. unfold is_i64. lia. Qed.

Lemma FindBlocksToModify_loop_spec cur m1 m2 offset len size ao :
  contiguous cur (m1 ++ m2) → 0 ≤ cur → end_of cur (m1 ++ m2) < 2 ^ 63 →
  is_i64 (offset + len) → reached (offset + len) m1 m2 →
  0 ≤ size ≤ cur →
  FindBlocksToModify_loop (m1 ++ m2) cur offset len size ao =
  ((block_set DirtyBlock <$> m1) ++ m2, size + (end_of cur m1 - cur),
   ao && bool_decide (m1 = [])).
Proof.
  intros Hc Hcur Hend Hi64 Hr Hsz. revert cur size ao Hc Hcur Hend Hsz.
  induction m1 as [|b m1 IH]; intros cur size ao Hc Hcur Hend Hsz; simpl.
  - destruct Hr as [_ Hm2]. destruct m2 as [|c m2]; simpl.
    + rewrite andb_true_r. do 2 f_equal. unfold end_of; simpl. lia.
    + rewrite i64_small by done. destruct (Z.ltb_spec (offset + len) (StartIndex c)); [|lia].
      rewrite andb_true_r. do 2 f_equal. unfold end_of; simpl. lia.
  - destruct Hr as [Hf Hm2]. apply Forall_cons in Hf as [Hb Hf].
    destruct Hc as (H1 & H2 & H3). rewrite <-app_comm_cons, end_of_cons in Hend.
    pose proof (contiguous_le _ _ H3) as Hle. rewrite i64_small by done.
    destruct (Z.ltb_spec (offset + len) (StartIndex b)); [lia|].
    destruct ((StartIndex b <=? cur) && (cur <? EndIndex b) && (cur <=? offset + len)) eqn:E; [|lia].
    rewrite block_size_small by lia.
    rewrite (i64_small (size + _)) by (unfold is_i64; lia).
    rewrite IH; [|by split|done|lia|done|lia].
    rewrite end_of_cons, andb_false_r. do 2 f_equal. lia.
Qed.

(** Functional behaviour of FindBlocksToModify on a write that starts inside
    the file. *)
Lemma FindBlocksToModify_inside start bol l1 b m1 m2 offset len :
  BlockList bol = l1 ++ b :: m1 ++ m2 →
  contiguous start (BlockList bol) → 0 ≤ start →
  end_of start (BlockList bol) < 2 ^ 63 →
  holds offset b → 0 ≤ len → is_i64 (offset + len) →
  reached (offset + len) m1 m2 →
  FindBlocksToModify bol offset len =
  (bol_with_blocks (l1 ++ (block_set DirtyBlock <$> b :: m1) ++ m2) bol,
   (Z.of_nat (length l1), end_of (StartIndex b) (b :: m1) - StartIndex b,
    end_of start (BlockList bol) <=? offset + len, false)).
Proof.
  intros Heq Hc Hs Hend Hh Hlen Hi64 Hr. unfold FindBlocksToModify.
  erewrite BinarySearch_split by eauto. simpl. rewrite Nat2Z.id, Heq.
  rewrite drop_app_length, take_app_length.
  pose proof Hc as Hc'. rewrite Heq in Hc'.
  apply contiguous_app in Hc' as [Hc1 (H1 & H2 & H3)].
  pose proof (contiguous_le _ _ Hc1). pose proof (contiguous_le _ _ H3) as Hle.
  rewrite Heq, end_of_app, end_of_cons in Hend.
  unfold holds in Hh. simpl. rewrite i64_small by done.
  destruct (Z.ltb_spec (offset + len) (StartIndex b)); [lia|].
  destruct ((StartIndex b <=? offset) && (offset <? EndIndex b) && (offset <=? offset + len)) eqn:E; [|lia].
  rewrite block_size_small by lia. rewrite (i64_small (0 + _)) by (unfold is_i64; lia).
  rewrite FindBlocksToModify_loop_spec; [|done|lia|done|done|done|lia].
  simpl. rewrite end_of_cons. do 4 f_equal; [lia|].
  f_equal. change (block_set DirtyBlock b :: (block_set DirtyBlock <$> m1) ++ m2)
    with ((block_set DirtyBlock <$> b :: m1) ++ m2).
  rewrite !last_app, end_of_app, end_of_cons, end_of_app. unfold end_of.
  destruct (last m2); [done|]. rewrite fmap_last, last_cons.
  by destruct (last m1).
Qed.

(** A write that starts at or past the end of the file changes no block and is
    append only. *)
Lemma FindBlocksToModify_beyond start bol offset len :
  contiguous start (BlockList bol) → end_of start (BlockList bol) ≤ offset →
  FindBlocksToModify bol offset len =
  (bol, (Z.of_nat (length (BlockList bol)), 0, true, true)).
Proof.
  intros Hc Hle. unfold FindBlocksToModify.
  by rewrite (BinarySearch_beyond start) by done.
Qed.

(** ** Claims *)

(** C28: BinarySearch finds, in a block list whose blocks are contiguous, the
    block that holds the offset; it reports "not found" with the length of the
    list exactly when no block holds it. *)
Theorem BinarySearch_correct start bol offset :
  contiguous start (BlockList bol) →
  match BinarySearch bol offset with
  | (true, i) => ∃ b, BlockList bol !! Z.to_nat i = Some b ∧ 0 ≤ i ∧ holds offset b
  | (false, i) => i = Z.of_nat (length (BlockList bol)) ∧
                  (offset < start ∨ end_of start (BlockList bol) ≤ offset)
  end.
Proof.
  intros Hc. destruct (decide (start ≤ offset < end_of start (BlockList bol))) as [Hin|Hout].
  - destruct (contiguous_split _ _ _ Hc Hin) as (l1 & b & l2 & Heq & Hh).
    rewrite (BinarySearch_split start bol l1 b l2) by done. exists b.
    rewrite Nat2Z.id, Heq. split; [by apply list_lookup_middle|]. split; [lia|done].
  - rewrite (BinarySearch_linear start) by done. rewrite linear_search_none; [split; [done|lia]|].
    intros i b Hi Hh. apply Hout. apply list_elem_of_split_length in Hi as (l1 & l2 & Heq & _).
    rewrite Heq in Hc |- *. rewrite end_of_app, end_of_cons.
    apply contiguous_app in Hc as [Hc1 (H1 & H2 & H3)].
    apply contiguous_le in Hc1, H3. unfold holds in Hh. lia.
Qed.

Definition two_blocks : BlockOffsetList :=
  mkBOL [mkBlock 0 4 0 "a" []; mkBlock 4 10 0 "b" []] 0 8 10 0.
Lemma BinarySearch_correct_witness :
  match BinarySearch two_blocks 6 with
  | (true, i) => ∃ b, BlockList two_blocks !! Z.to_nat i = Some b ∧ 0 ≤ i ∧ holds 6 b
  | (false, i) => i = 2 ∧ (6 < 0 ∨ 10 ≤ 6)
  end.
Proof. apply (BinarySearch_correct 0 two_blocks 6). simpl. lia. Defined.

(** C27: FindBlocksToModify, for a write of [len] bytes at [offset] into a file
    of contiguous blocks.  Inside the file it marks dirty exactly the block
    that holds the offset and the following blocks that start at or before
    the end of the write, and returns the position of the first, their total
    size, and whether the write reaches the end of the file; at or past the
    end it changes nothing and reports an append. *)
Theorem FindBlocksToModify_correct start bol offset len :
  contiguous start (BlockList bol) → 0 ≤ start ≤ offset →
  end_of start (BlockList bol) < 2 ^ 63 → 0 ≤ len → is_i64 (offset + len) →
  let '(bol', (index, size, exceeds, appendOnly)) := FindBlocksToModify bol offset len in
  if offset <? end_of start (BlockList bol) then
    ∃ l1 b m1 m2,
      BlockList bol = l1 ++ (b :: m1) ++ m2 ∧
      BlockList bol' = l1 ++ (block_set DirtyBlock <$> b :: m1) ++ m2 ∧
      holds offset b ∧ reached (offset + len) m1 m2 ∧
      index = Z.of_nat (length l1) ∧
      size = end_of (StartIndex b) (b :: m1) - StartIndex b ∧
      exceeds = (end_of start (BlockList bol) <=? offset + len) ∧ appendOnly = false
  else
    bol' = bol ∧ index = Z.of_nat (length (BlockList bol)) ∧ size = 0 ∧
    exceeds = true ∧ appendOnly = true.
Proof.
  intros Hc Hs Hend Hlen Hi.
  destruct (Z.ltb_spec offset (end_of start (BlockList bol))) as [Hlt|Hge]; cycle 1.
  { by rewrite (FindBlocksToModify_beyond start). }
  destruct (contiguous_split start (BlockList bol) offset Hc) as (l1 & b & l2 & Heq & Hh); [lia|].
  pose proof Hc as Hc'. rewrite Heq in Hc'. apply contiguous_app in Hc' as [_ (_ & _ & Hc2)].
  destruct (reached_exists _ _ (offset + len) Hc2) as (m1 & m2 & -> & Hr).
  rewrite (FindBlocksToModify_inside start bol l1 b m1 m2) by (done || lia).
  exists l1, b, m1, m2. done.
Qed.

Lemma FindBlocksToModify_correct_witness :
  let '(bol', (index, size, exceeds, appendOnly)) := FindBlocksToModify two_blocks 2 3 in
  if 2 <? 10 then
    ∃ l1 b m1 m2,
      BlockList two_blocks = l1 ++ (b :: m1) ++ m2 ∧
      BlockList bol' = l1 ++ (block_set DirtyBlock <$> b :: m1) ++ m2 ∧
      holds 2 b ∧ reached (2 + 3) m1 m2 ∧ index = Z.of_nat (length l1) ∧
      size = end_of (StartIndex b) (b :: m1) - StartIndex b ∧
      exceeds = (10 <=? 2 + 3) ∧ appendOnly = false
  else bol' = two_blocks ∧ index = 2 ∧ size = 0 ∧ exceeds = true ∧ appendOnly = true.
Proof.
  apply (FindBlocksToModify_correct 0 two_blocks 2 3);
    [simpl; lia|lia|vm_compute; reflexivity|lia|unfold is_i64; lia].
Defined.
