(* ===== verification/ConfigTree.v ===== *)
(** * Configuration (src/common/config: keys_tree.go, config_parser.go)

    Flags and environment variables are bound to dotted keys in two trees; a value is
    read from the configuration file (viper, a parameter) and then overridden by the
    environment and by the flags.  An object to fill is a structure of fields with
    their tags, as reflection shows it. *)
From Stdlib Require Import Ascii.
From S2P Require Import Prelude GoLib.
Open Scope Z_scope.

(** ** strconv

    ParseBool, ParseInt and ParseUint with base 0; an error is [None]. *)
Definition ParseBool (s : string) : option bool :=
  if bool_decide (s ∈ ["1"; "t"; "T"; "TRUE"; "true"; "True"]) then Some true
  else if bool_decide (s ∈ ["0"; "f"; "F"; "FALSE"; "false"; "False"]) then Some false
  else None.

Definition digit_of (c : ascii) : option Z :=
  let n := nat_of_ascii (ascii_lower c) in
  if ((48 <=? n) && (n <=? 57))%nat then Some (Z.of_nat n - 48)
  else if ((97 <=? n) && (n <=? 122))%nat then Some (Z.of_nat n - 87)
  else None.
(** The digits after the prefix; underscores are skipped. *)
Fixpoint digits (base acc : Z) (s : string) : option Z :=
  match s with
  | EmptyString => Some acc
  | String c s =>
      if Ascii.eqb c "_" then digits base acc s
      else match digit_of c with
           | Some d => if d <? base then digits base (acc * base + d) s else None
           | None => None
           end
  end.
Definition int_base (s : string) : Z * string :=
  match s with
  | String c0 (String c1 (String _ _ as r)) =>
      if Ascii.eqb c0 "0" then
        if Ascii.eqb (ascii_lower c1) "b" then (2, r)
        else if Ascii.eqb (ascii_lower c1) "o" then (8, r)
        else if Ascii.eqb (ascii_lower c1) "x" then (16, r)
        else (8, String c1 r)
      else (10, s)
  | String c0 r => if Ascii.eqb c0 "0" then (8, r) else (10, s)
  | EmptyString => (10, s)
  end.
(** Underscores separate digits; the prefix of a base counts as one. *)
Inductive saw := SawStart | SawDigit | SawUnderscore | SawOther.
Fixpoint underscores_ok (hex : bool) (last : saw) (s : string) : bool :=
  match s with
  | EmptyString => match last with SawUnderscore => false | _ => true end
  | String c s =>
      match digit_of c with
      | Some d =>
          if (d <? 10) || (hex && (d <? 16)) then underscores_ok hex SawDigit s
          else match last with SawUnderscore => false | _ => underscores_ok hex SawOther s end
      | None =>
          if Ascii.eqb c "_" then match last with SawDigit => underscores_ok hex SawUnderscore s | _ => false end
          else match last with SawUnderscore => false | _ => underscores_ok hex SawOther s end
      end
  end.
Definition underscoreOK (s : string) : bool :=
  match s with
  | String c0 (String c1 r) =>
      if Ascii.eqb c0 "0" && bool_decide (ascii_lower c1 ∈ ["b"; "o"; "x"]%char)
      then underscores_ok (Ascii.eqb (ascii_lower c1) "x") SawDigit r
      else underscores_ok false SawStart s
  | _ => underscores_ok false SawStart s
  end.
Definition width (bitSize : Z) : Z := if bitSize =? 0 then 64 else bitSize.
Definition ParseUint (s : string) (bitSize : Z) : option Z :=
  if bool_decide (s = "") then None
  else
    let '(base, r) := int_base s in
    match digits base 0 r with
    | Some n => if (n <? 2 ^ width bitSize) && underscoreOK s then Some n else None
    | None => None
    end.
Definition ParseInt (s : string) (bitSize : Z) : option Z :=
  let '(neg, r) := match s with
                   | String c r => if Ascii.eqb c "+" then (false, r) else if Ascii.eqb c "-" then (true, r) else (false, s)
                   | EmptyString => (false, s)
                   end in
  match ParseUint r bitSize with
  | Some un =>
      let cutoff := 2 ^ (width bitSize - 1) in
      if negb neg && (cutoff <=? un) then None
      else if neg && (cutoff <? un) then None
      else Some (if neg then - un else un)
  | None => None
  end.

(** ** The tree of keys (keys_tree.go) *)
Inductive TreeNode (V : Type) := mkTreeNode (name : string) (value : option V) (children : gmap string (TreeNode V)).
Arguments mkTreeNode {V}.
Definition node_value {V} (t : TreeNode V) : option V := let 'mkTreeNode _ v _ := t in v.
Definition node_children {V} (t : TreeNode V) : gmap string (TreeNode V) := let 'mkTreeNode _ _ c := t in c.
Definition NewTreeNode {V} (name : string) : TreeNode V := mkTreeNode name None ∅.
Definition NewTree {V} : TreeNode V := NewTreeNode "root".

(** The loop over the keys; no child is nil. *)
Fixpoint insert_path {V} (subKeys : list string) (v : V) (t : TreeNode V) : TreeNode V :=
  let 'mkTreeNode name value children := t in
  match subKeys with
  | [] => mkTreeNode name (Some v) children
  | idx :: subKeys =>
      mkTreeNode name value
        (<[idx := insert_path subKeys v (default (NewTreeNode idx) (children !! idx))]> children)
  end.
Definition Insert {V} (key : string) (v : V) (t : TreeNode V) : TreeNode V := insert_path (strings_Split key ".") v t.

Fixpoint sub_tree {V} (subKeys : list string) (t : TreeNode V) : option (TreeNode V) :=
  match subKeys with
  | [] => Some t
  | idx :: subKeys => match node_children t !! idx with Some c => sub_tree subKeys c | None => None end
  end.
Definition GetSubTree {V} (key : string) (t : TreeNode V) : option (TreeNode V) := sub_tree (strings_Split key ".") t.

(** ** Objects

    Values of the kinds of package reflect; [KOther] is a kind that is neither a
    structure, a pointer nor primitive. *)
Inductive Kind := KBool | KInt (bits : Z) | KUint (bits : Z) | KFloat (bits : Z) | KComplex (bits : Z) | KString | KOther.
Inductive Value (F : Type) := VBool (b : bool) | VInt (z : Z) | VFloat (f : F) | VString (s : string) | VOther.
Arguments VBool {F}. Arguments VInt {F}. Arguments VFloat {F}. Arguments VString {F}. Arguments VOther {F}.
(** A field has a name, its tag, whether it can be set (it is exported), and a value. *)
Inductive obj (F : Type) :=
  | Prim (k : Kind) (v : Value F)
  | Struct (fields : list (string * string * bool * obj F))
  | Pointer (o : option (obj F)).
Arguments Prim {F}. Arguments Struct {F}. Arguments Pointer {F}.

Definition isPrimitiveType (k : Kind) : bool := match k with KOther => false | _ => true end.
Definition getIdxFromField (name tag : string) : string := if bool_decide (tag = "") then strings_ToLower name else tag.

Section merge.
(** Floating point and complex numbers, and their parsers for a number of bits. *)
Context {F : Type} (ParseFloat ParseComplex : Z → string → option F).

Definition parseValue (val : string) (toType : Kind) : option (Value F) :=
  match toType with
  | KBool => VBool <$> ParseBool val
  | KInt bits => VInt <$> ParseInt val bits
  | KUint bits => VInt <$> ParseUint val bits
  | KFloat bits => VFloat <$> ParseFloat bits val
  | KComplex bits => VFloat <$> ParseComplex bits val
  | KString => Some (VString val)
  | KOther => None
  end.
(** The values that are assigned are strings. *)
Definition assignToField (canSet : bool) (k : Kind) (v : Value F) (val : string) : Value F :=
  if canSet then default v (parseValue val k) else v.

Context {V : Type} (getValue : option V → outcome (option string)) (tree : TreeNode V).

(** Assign what getValue gives, if it is ok. *)
Definition merge_value (canSet : bool) (k : Kind) (v : Value F) (node : TreeNode V) : outcome (obj F) :=
  match getValue (node_value node) with
  | Ret (Some val) => Ret (Prim k (assignToField canSet k v val))
  | Ret None => Ret (Prim k v)
  | Panic => Panic
  | Blocked => Blocked
  end.
Definition outcome_map {A B} (f : A → B) (o : outcome A) : outcome B :=
  match o with Ret a => Ret (f a) | Panic => Panic | Blocked => Blocked end.

(** The loop over the fields; [merge] is the recursive call and [subKey] the key of a
    field.  [reflect.Value.Interface] panics on a field that is not exported, [Addr] on
    a nil pointer. *)
Definition merge_loop (merge : string → obj F → outcome (obj F)) (subKey : string → string) (subTree : TreeNode V) :
    list (string * string * bool * obj F) → outcome (list (string * string * bool * obj F)) :=
  fix loop fs :=
    match fs with
    | [] => Ret []
    | (name, tag, canSet, f) :: fs =>
        let idx := getIdxFromField name tag in
        match
          match node_children subTree !! idx with
          | None => Ret f
          | Some child =>
              match f with
              | Struct _ => if canSet then merge (subKey idx) f else Panic
              | Pointer None => Panic
              | Pointer (Some p) =>
                  if canSet then outcome_map (λ p, Pointer (Some p)) (merge (subKey idx) p) else Panic
              | Prim k v => merge_value canSet k v child
              end
          end
        with
        | Ret f => outcome_map (cons (name, tag, canSet, f)) (loop fs)
        | Panic => Panic
        | Blocked => Blocked
        end
    end.

Fixpoint MergeWithKey (key : string) (o : obj F) {struct o} : outcome (obj F) :=
  match GetSubTree key tree with
  | None => Ret o
  | Some subTree =>
      match o with
      | Struct fields => outcome_map Struct (merge_loop MergeWithKey (λ idx, key +:+ "." +:+ idx) subTree fields)
      | Prim k v => if isPrimitiveType k then merge_value true k v subTree else Ret o
      | Pointer _ => Ret o
      end
  end.

(** The same from the root. *)
Definition Merge (o : obj F) : outcome (obj F) :=
  match o with
  | Struct fields => outcome_map Struct (merge_loop MergeWithKey (λ idx, idx) tree fields)
  | Prim k v => if isPrimitiveType k then merge_value true k v tree else Ret o
  | Pointer _ => Ret o
  end.
End merge.

(** ** The configuration (config_parser.go) *)
Record Flag := mkFlag { flag_Changed : bool; flag_String : string }.

(** The flags are objects that the parser of the command line changes: the tree has
    their addresses.  [L] are the listeners. *)
Record config_options (L : Type) := mkOptions {
  op_path : string;
  op_listeners : list L;
  op_flags : gmap ptr Flag;
  op_flagTree : TreeNode ptr;
  op_envTree : TreeNode string;
  op_secureConfig : bool;
  op_passphrase : string
}.
Arguments mkOptions {L}. Arguments op_path {L}. Arguments op_listeners {L}. Arguments op_flags {L}.
Arguments op_flagTree {L}. Arguments op_envTree {L}. Arguments op_secureConfig {L}. Arguments op_passphrase {L}.

Section config.
Context {L : Type}.
Definition ResetConfig : config_options L := mkOptions "" [] ∅ NewTree NewTree false "".
Definition SetSecureConfigOptions (passphrase : string) (u : config_options L) : config_options L :=
  mkOptions (op_path u) (op_listeners u) (op_flags u) (op_flagTree u) (op_envTree u) true passphrase.
Definition SetConfigFile (path : string) (u : config_options L) : config_options L :=
  mkOptions path (op_listeners u) (op_flags u) (op_flagTree u) (op_envTree u) false (op_passphrase u).
Definition AddConfigChangeEventListener (l : L) (u : config_options L) : config_options L :=
  mkOptions (op_path u) (op_listeners u ++ [l]) (op_flags u) (op_flagTree u) (op_envTree u) (op_secureConfig u)
    (op_passphrase u).
Definition BindEnv (key envVarName : string) (u : config_options L) : config_options L :=
  mkOptions (op_path u) (op_listeners u) (op_flags u) (op_flagTree u) (Insert key envVarName (op_envTree u))
    (op_secureConfig u) (op_passphrase u).
Definition BindPFlag (key : string) (flag : ptr) (u : config_options L) : config_options L :=
  mkOptions (op_path u) (op_listeners u) (op_flags u) (Insert key flag (op_flagTree u)) (op_envTree u)
    (op_secureConfig u) (op_passphrase u).
(** Every listener, in the order they were added. *)
Definition cfg_OnConfigChange {S} (call : L → go S unit) (u : config_options L) : go S unit := go_range call (op_listeners u).

(** The values of the two trees; a node without a value is a nil interface, whose
    type assertion panics. *)
Definition env_value (LookupEnv : string → option string) (val : option string) : outcome (option string) :=
  match val with Some envVar => Ret (LookupEnv envVar) | None => Panic end.
Definition flag_value (flags : gmap ptr Flag) (val : option ptr) : outcome (option string) :=
  match val with
  | Some p =>
      match flags !! p with
      | Some flag => Ret (if flag_Changed flag then Some (flag_String flag) else None)
      | None => Panic
      end
  | None => Panic
  end.

Context {F : Type} (ParseFloat ParseComplex : Z → string → option F).
(** os.LookupEnv, and viper's reading of a key into an object and IsSet. *)
Context (LookupEnv : string → option string).
Context (viper_UnmarshalKey : string → obj F → obj F + error) (viper_IsSet : string → bool).

Definition UnmarshalKey (u : config_options L) (key : string) (o : obj F) : outcome (obj F + error) :=
  match viper_UnmarshalKey key o with
  | inr _ => Ret (inr (Msg "config error: unmarshalling"))
  | inl o =>
      match MergeWithKey ParseFloat ParseComplex (env_value LookupEnv) (op_envTree u) key o with
      | Ret o => outcome_map inl (MergeWithKey ParseFloat ParseComplex (flag_value (op_flags u)) (op_flagTree u) key o)
      | Panic => Panic
      | Blocked => Blocked
      end
  end.

(** [viper_Unmarshal] reads the whole file into an object. *)
Definition Unmarshal (viper_Unmarshal : obj F → obj F + error) (u : config_options L) (o : obj F) : outcome (obj F + error) :=
  match viper_Unmarshal o with
  | inr _ => Ret (inr (Msg "config error: unmarshalling"))
  | inl o =>
      match Merge ParseFloat ParseComplex (env_value LookupEnv) (op_envTree u) o with
      | Ret o => outcome_map inl (Merge ParseFloat ParseComplex (flag_value (op_flags u)) (op_flagTree u) o)
      | Panic => Panic
      | Blocked => Blocked
      end
  end.

Definition cfg_IsSet (u : config_options L) (key : string) : outcome bool :=
  if viper_IsSet key then Ret true
  else match sub_tree (strings_Split key ".") (op_flagTree u) with
       | None => Ret false
       | Some node =>
           match node_value node with
           | Some p => match op_flags u !! p with Some flag => Ret (flag_Changed flag) | None => Panic end
           | None => Panic
           end
       end.
End config.

(** ** Properties *)

(** *** Numbers *)
Lemma digit_of_bounds c d : digit_of c = Some d → 0 ≤ d.
Proof.
  unfold digit_of. generalize (nat_of_ascii (ascii_lower c)). intros n.
  destruct ((48 <=? n) && (n <=? 57))%nat eqn:E1; [|destruct ((97 <=? n) && (n <=? 122))%nat eqn:E2; [|done]];
    intros [= <-].
  - apply andb_true_iff in E1 as [?%Nat.leb_le _]. lia.
  - apply andb_true_iff in E2 as [?%Nat.leb_le _]. lia.
Qed.
Lemma digits_bounds base acc s n : 0 ≤ base → 0 ≤ acc → digits base acc s = Some n → 0 ≤ n.
Proof.
  intros Hb. revert acc. induction s as [|c s IH]; intros acc Ha; simpl; [by intros [= <-]|].
  case_match; [by apply IH|]. destruct (digit_of c) as [d|] eqn:Ed; [|done]. apply digit_of_bounds in Ed.
  case_match; [|done]. apply IH. nia.
Qed.
Lemma int_base_bounds s : 0 ≤ (int_base s).1.
Proof. unfold int_base. by repeat case_match. Qed.
Lemma ParseUint_bounds s bits n : ParseUint s bits = Some n → 0 ≤ n < 2 ^ width bits.
Proof.
  unfold ParseUint. case_bool_decide; [done|]. assert (Hb := int_base_bounds s).
  destruct (int_base s) as [base r]. destruct (digits base 0 r) as [m|] eqn:E; [|done].
  apply digits_bounds in E; [|done..]. case_match eqn:Hm; [|done]. intros [= <-].
  apply andb_true_iff in Hm as [?%Z.ltb_lt _]. lia.
Qed.
Lemma ParseInt_bounds s bits n :
  0 ≤ bits → ParseInt s bits = Some n → - 2 ^ (width bits - 1) ≤ n < 2 ^ (width bits - 1).
Proof.
  intros Hbits. unfold ParseInt. assert (Hc : 0 < 2 ^ (width bits - 1)).
  { apply Z.pow_pos_nonneg; [lia|]. unfold width. destruct (Z.eqb_spec bits 0); lia. }
  set (c := 2 ^ (width bits - 1)) in *. destruct (match s with EmptyString => _ | _ => _ end) as [neg r].
  destruct (ParseUint r bits) as [un|] eqn:E; [|done]. apply ParseUint_bounds in E.
  destruct neg; simpl.
  - destruct (Z.ltb_spec c un); [done|]. intros [= <-]. lia.
  - destruct (Z.leb_spec c un); [done|]. intros [= <-]. lia.
Qed.

(** *** Keys *)
Fixpoint dot_split (s : string) : list string :=
  match s with
  | EmptyString => [""]
  | String c s =>
      if Ascii.eqb c "." then "" :: dot_split s
      else match dot_split s with x :: l => String c x :: l | [] => [String c ""] end
  end.
Definition no_dot (s : string) : Prop := dot_split s = [s].
Lemma dot_split_ne s : dot_split s ≠ [].
Proof. destruct s as [|c s]; simpl; [done|]. repeat case_match; done. Qed.
Lemma dot_split_app a b : dot_split (a +:+ "." +:+ b) = dot_split a ++ dot_split b.
Proof.
  induction a as [|c a IH]; [done|]. change (String c a +:+ "." +:+ b) with (String c (a +:+ "." +:+ b)).
  cbn [dot_split]. rewrite IH. destruct (Ascii.eqb c "."); [done|].
  assert (Hne := dot_split_ne a). by destruct (dot_split a).
Qed.
Lemma dot_split_index s :
  dot_split s = match String.index 0 "." s with
                | Some n => stake n s :: dot_split (sdrop (n + 1) s)
                | None => [s]
                end.
Proof.
  induction s as [|c s IH]; [done|]. cbn [dot_split String.index]. cbn [String.prefix].
  destruct (ascii_dec "." c) as [<-|Hc].
  - destruct s; reflexivity.
  - replace (Ascii.eqb c ".") with false by (symmetry; apply Ascii.eqb_neq; congruence).
    rewrite IH. by destruct (String.index 0 "." s).
Qed.
Lemma split_dot s : strings_Split s "." = dot_split s.
Proof.
  unfold strings_Split. assert (Hf : (String.length s < S (String.length s))%nat) by lia. revert Hf.
  generalize (S (String.length s)). intros fuel. revert s. induction fuel as [|fuel IH]; intros s Hs; [lia|].
  cbn [split_fuel]. rewrite dot_split_index. destruct (String.index 0 "." s) as [n|] eqn:E; [|done].
  f_equal. apply IH. destruct (index_split _ _ _ E) as (a & b & -> & <-).
  rewrite <-(string_app_assoc a "." b). change 1%nat with (String.length ".").
  rewrite <-string_app_length, sdrop_app. rewrite !string_app_length in Hs. simpl in Hs. lia.
Qed.
Lemma split_sub_key key idx : no_dot idx → strings_Split (key +:+ "." +:+ idx) "." = strings_Split key "." ++ [idx].
Proof. intros Hi. by rewrite !split_dot, dot_split_app, Hi. Qed.

(** *** The tree is a map from paths to values *)
Definition tree_value {V} (path : list string) (t : TreeNode V) : option V := sub_tree path t ≫= node_value.
Lemma insert_path_value {V} path (v : V) t : tree_value path (insert_path path v t) = Some v.
Proof.
  revert t. induction path as [|i path IH]; intros [name value children]; [done|]. unfold tree_value in *. simpl.
  by rewrite lookup_insert_eq, IH.
Qed.
Lemma sub_tree_new {V} path name : tree_value path (NewTreeNode name : TreeNode V) = None.
Proof. destruct path as [|i path]; unfold tree_value; simpl; [done|]. by rewrite lookup_empty. Qed.
Lemma insert_path_other {V} path q (v : V) t : path ≠ q → tree_value q (insert_path path v t) = tree_value q t.
Proof.
  revert q t. induction path as [|i path IH]; intros [|j q] [name value children] Hne; try done.
  unfold tree_value in *. simpl. destruct (decide (i = j)) as [->|Hij].
  - rewrite lookup_insert_eq. rewrite IH by congruence.
    destruct (children !! j) as [c|]; [done|]. simpl. apply sub_tree_new.
  - by rewrite lookup_insert_ne.
Qed.

(** *** Merging *)
Section merge_props.
Context {F : Type} (ParseFloat ParseComplex : Z → string → option F).

(** The value at a path of field names. *)
Definition field_idx (f : string * string * bool * obj F) : string := getIdxFromField f.1.1.1 f.1.1.2.
Fixpoint find_field (i : string) (fs : list (string * string * bool * obj F)) : option (obj F) :=
  match fs with
  | [] => None
  | f :: fs => if bool_decide (field_idx f = i) then Some f.2 else find_field i fs
  end.
Fixpoint leaf (path : list string) (o : obj F) : option (Kind * Value F) :=
  match path, o with
  | [], Prim k v => Some (k, v)
  | i :: path, Struct fs => match find_field i fs with Some f => leaf path f | None => None end
  | _, _ => None
  end.

Lemma obj_fields_ind (P : obj F → Prop) :
  (∀ k v, P (Prim k v)) → (∀ fs, Forall (λ f, P f.2) fs → P (Struct fs)) → (∀ o, P (Pointer o)) → ∀ o, P o.
Proof.
  intros Hp Hs Hq. fix IH 1. intros [k v|fs|o]; [apply Hp| |apply Hq]. apply Hs.
  induction fs as [|f fs IHfs]; constructor; [apply IH|exact IHfs].
Qed.

Context {V : Type} (getValue : option V → outcome (option string)) (tree : TreeNode V).

(** What the tree gives for a path. *)
Definition bound_value (path : list string) : option string :=
  match sub_tree path tree with
  | Some n => match getValue (node_value n) with Ret s => s | _ => None end
  | None => None
  end.
(** The value of a field of kind [k]: what is bound and can be parsed, else what it was. *)
Definition overridden (k : Kind) (v : Value F) (bound : option string) : Value F :=
  match bound with Some val => default v (parseValue ParseFloat ParseComplex val k) | None => v end.

(** Objects without pointers and unexported fields, whose field names have no dot, and
    whose bound nodes have values. *)
Definition good_node (path : list string) : Prop :=
  ∀ n, sub_tree path tree = Some n → ∃ s, getValue (node_value n) = Ret s.
Fixpoint mergeable (path : list string) (o : obj F) : Prop :=
  match o with
  | Prim _ _ => good_node path
  | Struct fs =>
      (fix all (fs : list (string * string * bool * obj F)) : Prop :=
         match fs with
         | [] => True
         | (name, tag, canSet, f) :: fs =>
             no_dot (getIdxFromField name tag) ∧ canSet = true ∧
             mergeable (path ++ [getIdxFromField name tag]) f ∧ all fs
         end) fs
  | Pointer _ => False
  end.
Definition good_field (path : list string) (f : string * string * bool * obj F) : Prop :=
  no_dot (field_idx f) ∧ f.1.2 = true ∧ mergeable (path ++ [field_idx f]) f.2.
Lemma mergeable_struct path fs : mergeable path (Struct fs) ↔ Forall (good_field path) fs.
Proof.
  induction fs as [|[[[name tag] cs] f] fs IH]; [done|]. rewrite Forall_cons, <-IH. unfold good_field. simpl. tauto.
Qed.

(** The object without its values: merging keeps it. *)
Fixpoint skeleton (o : obj F) : obj F :=
  match o with
  | Prim k _ => Prim k VOther
  | Struct fs => Struct ((λ f : string * string * bool * obj F, (f.1, skeleton f.2)) <$> fs)
  | Pointer p => Pointer p
  end.

Lemma merge_value_ok path k v n :
  good_node path → sub_tree path tree = Some n →
  merge_value ParseFloat ParseComplex getValue true k v n = Ret (Prim k (overridden k v (bound_value path))).
Proof.
  intros Hg Hn. destruct (Hg n Hn) as [s Hs]. unfold merge_value, bound_value, overridden, assignToField.
  rewrite Hn, Hs. by destruct s.
Qed.
Lemma sub_tree_snoc path i : sub_tree (path ++ [i]) tree = (n ← sub_tree path tree; node_children n !! i).
Proof.
  generalize tree. induction path as [|j path IH]; intros t; simpl; [by destruct (node_children t !! i)|].
  destruct (node_children t !! j); [apply IH|done].
Qed.
Lemma sub_tree_none path q : sub_tree path tree = None → sub_tree (path ++ q) tree = None.
Proof.
  generalize tree. induction path as [|j path IH]; intros t; simpl; [done|].
  destruct (node_children t !! j); [apply IH|done].
Qed.

(** What merging does to an object at a path. *)
Definition merged (path : list string) (o o' : obj F) : Prop :=
  skeleton o' = skeleton o ∧
  ∀ p k v, leaf p o = Some (k, v) → leaf p o' = Some (k, overridden k v (bound_value (path ++ p))).
Lemma merged_unbound path o : sub_tree path tree = None → merged path o o.
Proof. intros Hn. split; [done|]. intros p k v ->. unfold bound_value. by rewrite (sub_tree_none path p Hn). Qed.
Lemma merged_prim path k v : merged path (Prim k v) (Prim k (overridden k v (bound_value path))).
Proof. split; [done|]. intros [|i p] k1 v1; [|done]. rewrite app_nil_r. by intros [= <- <-]. Qed.
Lemma merged_struct path fs fs' :
  Forall2 (λ f f', f'.1 = f.1 ∧ merged (path ++ [field_idx f]) f.2 f'.2) fs fs' → merged path (Struct fs) (Struct fs').
Proof.
  intros Hfs. split.
  - simpl. f_equal. induction Hfs as [|f f' fs fs' [Hf [Hs _]] _ IH]; [done|]. rewrite !fmap_cons. by rewrite Hf, Hs, IH.
  - intros [|i p] k v; [done|]. simpl. induction Hfs as [|f f' fs fs' [Hf [_ Hm]] _ IH]; [done|]. simpl.
    assert (Hx : field_idx f' = field_idx f) by (unfold field_idx; by rewrite Hf). rewrite Hx.
    case_bool_decide as Hi; [|apply IH].
    intros Hl. rewrite (Hm _ _ _ Hl). by rewrite <-app_assoc, Hi.
Qed.
Definition merges (merge : string → obj F → outcome (obj F)) (o : obj F) : Prop :=
  ∀ key, mergeable (strings_Split key ".") o → ∃ o', merge key o = Ret o' ∧ merged (strings_Split key ".") o o'.
Lemma merge_loop_ok merge subKey path st fs :
  sub_tree path tree = Some st →
  (∀ i, no_dot i → strings_Split (subKey i) "." = path ++ [i]) →
  Forall (good_field path) fs → Forall (λ f, merges merge f.2) fs →
  ∃ fs', merge_loop ParseFloat ParseComplex getValue merge subKey st fs = Ret fs' ∧
    Forall2 (λ f f', f'.1 = f.1 ∧ merged (path ++ [field_idx f]) f.2 f'.2) fs fs'.
Proof.
  intros Hst Hkey Hgood Hm. induction Hgood as [|[[[name tag] cs] f] fs [Hdot [Hcs Hf]] _ IH]; [by exists []|].
  apply Forall_cons in Hm as [Hmf Hm]. destruct (IH Hm) as (fs' & Hrun & Hfs). simpl in Hcs, Hmf. subst cs.
  assert (Hs : sub_tree (path ++ [getIdxFromField name tag]) tree = node_children st !! getIdxFromField name tag)
    by (by rewrite sub_tree_snoc, Hst).
  assert (Hone : ∃ f', match node_children st !! getIdxFromField name tag with
      | None => Ret f
      | Some child =>
          match f with
          | Struct _ => merge (subKey (getIdxFromField name tag)) f
          | Pointer None => Panic
          | Pointer (Some p) => outcome_map (λ p, Pointer (Some p)) (merge (subKey (getIdxFromField name tag)) p)
          | Prim k v => merge_value ParseFloat ParseComplex getValue true k v child
          end
      end = Ret f' ∧ merged (path ++ [getIdxFromField name tag]) f f').
  { destruct (node_children st !! getIdxFromField name tag) as [child|]; [|eauto using merged_unbound].
    destruct f as [k v|gs|p]; [| |done].
    - eexists. split; [by apply (merge_value_ok (path ++ [getIdxFromField name tag]))|]. apply merged_prim.
    - assert (Hmg : mergeable (strings_Split (subKey (getIdxFromField name tag)) ".") (Struct gs)) by by rewrite Hkey.
      destruct (Hmf _ Hmg) as (o' & Ho & Hmo). rewrite Hkey in Hmo by done. eauto. }
  destruct Hone as (f' & Hone & Hmf'). exists ((name, tag, true, f') :: fs'). split; [|by constructor].
  simpl in *. by rewrite Hone, Hrun.
Qed.
Lemma MergeWithKey_ok o : merges (MergeWithKey ParseFloat ParseComplex getValue tree) o.
Proof.
  induction o as [k v|fs IH|o] using obj_fields_ind; intros key Hm; [| |done].
  - cbn [MergeWithKey]. unfold GetSubTree. destruct (sub_tree _ tree) as [n|] eqn:Hn; [|eauto using merged_unbound].
    destruct (isPrimitiveType k) eqn:Hk.
    + eexists. split; [by apply (merge_value_ok (strings_Split key "."))|]. apply merged_prim.
    + eexists. split; [done|]. assert (Hv := merged_prim (strings_Split key ".") k v). destruct k; try done.
      by destruct (bound_value _) in Hv.
  - cbn [MergeWithKey]. unfold GetSubTree. destruct (sub_tree _ tree) as [st|] eqn:Hst; [|eauto using merged_unbound].
    apply mergeable_struct in Hm.
    destruct (merge_loop_ok (MergeWithKey ParseFloat ParseComplex getValue tree) (λ idx, key +:+ "." +:+ idx) _ st fs Hst)
      as (fs' & Hrun & Hfs); [by intros; apply split_sub_key|done..|].
    rewrite Hrun. eexists. split; [done|]. by apply merged_struct.
Qed.
End merge_props.

Section precedence.
Context {F L : Type} (ParseFloat ParseComplex : Z → string → option F).

Lemma mergeable_skeleton {V} (g : option V → outcome (option string)) t path (o : obj F) :
  mergeable g t path o ↔ mergeable g t path (skeleton o).
Proof.
  revert path. induction o as [k v|fs IH|o] using obj_fields_ind; intros path; [done| |done].
  change (skeleton (Struct fs)) with
    (Struct ((λ f : string * string * bool * obj F, (f.1, skeleton f.2)) <$> fs)).
  rewrite !mergeable_struct, Forall_fmap. rewrite Forall_forall in IH. rewrite !Forall_forall.
  split; intros Hf f Hin; destruct (Hf f Hin) as (Hd & Hc & Hm); (split; [done|split; [done|]]).
  - exact (proj1 (IH f Hin _) Hm).
  - exact (proj2 (IH f Hin _) Hm).
Qed.
Lemma merged_mergeable {V1 V2} (g1 : option V1 → outcome (option string)) t1
    (g2 : option V2 → outcome (option string)) t2 path path2 (o o' : obj F) :
  merged ParseFloat ParseComplex g1 t1 path o o' → mergeable g2 t2 path2 o → mergeable g2 t2 path2 o'.
Proof. intros [Hs _]. by rewrite (mergeable_skeleton g2 t2 path2 o'), Hs, <-mergeable_skeleton. Qed.

Context (LookupEnv : string → option string).
(** What the environment and the flags have for a path. *)
Definition env_binding (u : config_options L) (path : list string) : option string :=
  tree_value path (op_envTree u) ≫= LookupEnv.
Definition flag_binding (u : config_options L) (path : list string) : option string :=
  p ← tree_value path (op_flagTree u);
  flag ← op_flags u !! p;
  if flag_Changed flag then Some (flag_String flag) else None.
(** Flags before the environment before the file, where a value that does not parse
    counts as none. *)
Definition precedence (k : Kind) (file : Value F) (env flag : option string) : Value F :=
  match flag ≫= λ s, parseValue ParseFloat ParseComplex s k with
  | Some v => v
  | None => match env ≫= λ s, parseValue ParseFloat ParseComplex s k with Some v => v | None => file end
  end.
(** Objects whose reading does not panic. *)
Definition readable (u : config_options L) (path : list string) (o : obj F) : Prop :=
  mergeable (env_value LookupEnv) (op_envTree u) path o ∧ mergeable (flag_value (op_flags u)) (op_flagTree u) path o.

Lemma env_bound u path : bound_value (env_value LookupEnv) (op_envTree u) path = env_binding u path.
Proof.
  unfold bound_value, env_binding, tree_value. destruct (sub_tree path (op_envTree u)) as [n|]; [|done]. simpl.
  by destruct (node_value n).
Qed.
Lemma flag_bound u path : bound_value (flag_value (op_flags u)) (op_flagTree u) path = flag_binding u path.
Proof.
  unfold bound_value, flag_binding, tree_value. destruct (sub_tree path (op_flagTree u)) as [n|]; [|done]. simpl.
  destruct (node_value n) as [p|]; [|done]. simpl. by destruct (op_flags u !! p).
Qed.
Lemma overridden_twice k v env flag :
  overridden ParseFloat ParseComplex k (overridden ParseFloat ParseComplex k v env) flag = precedence k v env flag.
Proof.
  unfold overridden, precedence. destruct flag as [s|], env as [e|]; simpl; done.
Qed.

(** C23: A value read from the configuration is that of the flag when it was given, else
    that of the environment variable when it is set, else that of the file, for every
    field of the object, nested ones included, where a value that does not parse as the
    type of the field counts as not given; and reading returns when every bound node
    that the object has a field for has a value. *)
Theorem flags_before_env_before_file viper_UnmarshalKey u key o file :
  viper_UnmarshalKey key o = inl file → readable u (strings_Split key ".") file →
  ∃ o', UnmarshalKey ParseFloat ParseComplex LookupEnv viper_UnmarshalKey u key o = Ret (inl o') ∧
    ∀ p k v, leaf p file = Some (k, v) →
      leaf p o' = Some (k, precedence k v (env_binding u (strings_Split key "." ++ p))
                             (flag_binding u (strings_Split key "." ++ p))).
Proof.
  intros Hfile [Henv Hflag]. unfold UnmarshalKey. rewrite Hfile.
  destruct (MergeWithKey_ok ParseFloat ParseComplex _ _ file key Henv) as (o1 & -> & Hm1).
  destruct (MergeWithKey_ok ParseFloat ParseComplex (flag_value (op_flags u)) (op_flagTree u) o1 key) as (o2 & -> & Hm2); [by eapply merged_mergeable|].
  exists o2. split; [done|]. intros p k v Hl. destruct Hm1 as [_ Hm1], Hm2 as [_ Hm2].
  rewrite (Hm2 _ _ _ (Hm1 _ _ _ Hl)). by rewrite env_bound, flag_bound, overridden_twice.
Qed.
End precedence.

(** ** A mount's configuration *)
Module ConfigRuns.
Definition no_float (bits : Z) (s : string) : option unit := None.
(** The variable and the flags of two settings of the storage component. *)
Definition bound : config_options unit :=
  BindPFlag "azstorage.max-concurrency" 2%nat
    (BindPFlag "azstorage.container" 1%nat (BindEnv "azstorage.container" "AZURE_STORAGE_ACCOUNT_CONTAINER"
      (BindEnv "azstorage.account-name" "AZURE_STORAGE_ACCOUNT" ResetConfig))).
Definition with_flags (f : gmap ptr Flag) (u : config_options unit) : config_options unit :=
  mkOptions (op_path u) (op_listeners u) f (op_flagTree u) (op_envTree u) (op_secureConfig u) (op_passphrase u).
Definition u : config_options unit :=
  with_flags {[1%nat := mkFlag true "from-flag"; 2%nat := mkFlag true "many"]} bound.
Definition env (name : string) : option string :=
  if bool_decide (name = "AZURE_STORAGE_ACCOUNT") then Some "from-env"
  else if bool_decide (name = "AZURE_STORAGE_ACCOUNT_CONTAINER") then Some "env-container" else None.
Definition file : obj unit :=
  Struct [("AccountName", "account-name", true, Prim KString (VString "from-file"));
          ("Container", "container", true, Prim KString (VString "from-file"));
          ("MaxConcurrency", "max-concurrency", true, Prim (KUint 16) (VInt 32));
          ("Endpoint", "endpoint", true, Prim KString (VString "from-file"))].

Lemma file_readable : readable env u ["azstorage"] file.
Proof.
  split; apply mergeable_struct; repeat constructor; intros n Hn; vm_compute in Hn; try discriminate;
    injection Hn as <-; by eexists.
Qed.
Lemma flags_before_env_before_file_witness :
  ∃ o', UnmarshalKey no_float no_float env (λ _ _, inl file) u "azstorage" (Struct []) = Ret (inl o') ∧
    leaf ["container"] o' = Some (KString, VString "from-flag") ∧
    leaf ["account-name"] o' = Some (KString, VString "from-env") ∧
    leaf ["endpoint"] o' = Some (KString, VString "from-file").
Proof.
  destruct (flags_before_env_before_file no_float no_float env (λ _ _, inl file) u "azstorage" (Struct []) file eq_refl file_readable)
    as (o' & Hrun & Hl).
  exists o'. split; [done|]. by rewrite !(Hl _ KString (VString "from-file")) by reflexivity.
Defined.

(** A value that does not parse as the type of the field is ignored without an error:
    the file's value stays. *)
Example bad_flag_ignored :
  (match UnmarshalKey no_float no_float env (λ _ _, inl file) u "azstorage" (Struct []) with
   | Ret (inl o) => leaf ["max-concurrency"] o
   | _ => None
   end) = Some (KUint 16, VInt 32).
Proof. vm_compute. reflexivity. Qed.
Example numbers :
  (λ s, ParseInt s 16) <$> ["12"; "-0x1F"; "0b101"; "1_000"; "0_7"; "0x_f"; "1__0"; "_1"; "32768"; "-32768"; "08"; "0"; ""] =
  [Some 12; Some (-31); Some 5; Some 1000; Some 7; Some 15; None; None; None; Some (-32768); None; Some 0; None].
Proof. vm_compute. reflexivity. Qed.
End ConfigRuns.
