(* ===== verification/HandleMap.v ===== *)
(** * Open file handles (src/internal/handlemap/handle_map.go)

    A [Handle] is shared by reference: components name it by its address.
    The global map from handle numbers to handles is [HandleMap]. *)
From S2P Require Import Prelude GoLib Common.

Definition InvalidHandleID : Z := 0.
Definition HandleFlagDirty : Z := 1.
Definition HandleFlagFSynced : Z := 2.
Definition HandleFlagCached : Z := 3.

(** What components keep in [values]: the block-cache stores the offset
    counter, block pointers and its map from block numbers to block ids; libfuse
    the address of the page of children of a directory. *)
Inductive hvalue :=
  | VUint64 (n : Z)
  | VBlock (b : ptr)
  | VBlockList (m : gmap Z string)
  | VDirCache (c : ptr).

(** [FObj], [CacheObj] and [Buffers] are pointers into the file table, the
    stream caches and the block-cache buffers. *)
Record Handle := mkHandle {
  FObj : ptr;
  CacheObj : ptr;
  Buffers : ptr;
  hID : Z;
  hSize : Z;
  hMtime : Time;
  UnixFD : Z;
  OptCnt : Z;
  hFlags : BitMap16;
  hPath : string;
  values : gmap string hvalue
}.

Definition NewHandle (path : string) : Handle :=
  mkHandle nil_ptr nil_ptr nil_ptr InvalidHandleID 0 0 0 0 0 path ∅.

Definition handle_Dirty (h : Handle) : bool := IsSet (hFlags h) HandleFlagDirty.
Definition Fsynced (h : Handle) : bool := IsSet (hFlags h) HandleFlagFSynced.
Definition Cached (h : Handle) : bool := IsSet (hFlags h) HandleFlagCached.

Definition GetFileObject (h : Handle) : ptr := FObj h.
Definition SetFileObject (f : ptr) (h : Handle) : Handle :=
  mkHandle f (CacheObj h) (Buffers h) (hID h) (hSize h) (hMtime h) (UnixFD h)
    (OptCnt h) (hFlags h) (hPath h) (values h).
Definition FD (h : Handle) : Z := i64 (UnixFD h).

(** Field stores of the struct. *)
Definition handle_with_values (v : gmap string hvalue) (h : Handle) : Handle :=
  mkHandle (FObj h) (CacheObj h) (Buffers h) (hID h) (hSize h) (hMtime h)
    (UnixFD h) (OptCnt h) (hFlags h) (hPath h) v.
Definition handle_with_id (id : Z) (h : Handle) : Handle :=
  mkHandle (FObj h) (CacheObj h) (Buffers h) id (hSize h) (hMtime h)
    (UnixFD h) (OptCnt h) (hFlags h) (hPath h) (values h).
Definition handle_with_flags (fl : BitMap16) (h : Handle) : Handle :=
  mkHandle (FObj h) (CacheObj h) (Buffers h) (hID h) (hSize h) (hMtime h)
    (UnixFD h) (OptCnt h) fl (hPath h) (values h).
Definition handle_with_size (sz : Z) (h : Handle) : Handle :=
  mkHandle (FObj h) (CacheObj h) (Buffers h) (hID h) sz (hMtime h)
    (UnixFD h) (OptCnt h) (hFlags h) (hPath h) (values h).

Definition handle_with_mtime (t : Time) (h : Handle) : Handle :=
  mkHandle (FObj h) (CacheObj h) (Buffers h) (hID h) (hSize h) t (UnixFD h) (OptCnt h) (hFlags h) (hPath h) (values h).
Definition handle_with_buffers (b : ptr) (h : Handle) : Handle :=
  mkHandle (FObj h) (CacheObj h) b (hID h) (hSize h) (hMtime h) (UnixFD h) (OptCnt h) (hFlags h) (hPath h) (values h).
Definition handle_with_optcnt (n : Z) (h : Handle) : Handle :=
  mkHandle (FObj h) (CacheObj h) (Buffers h) (hID h) (hSize h) (hMtime h) (UnixFD h) n (hFlags h) (hPath h) (values h).
Definition handle_with_fd (fd : Z) (h : Handle) : Handle :=
  mkHandle (FObj h) (CacheObj h) (Buffers h) (hID h) (hSize h) (hMtime h) fd (OptCnt h) (hFlags h) (hPath h) (values h).

Definition SetValue (key : string) (v : hvalue) (h : Handle) : Handle :=
  handle_with_values (<[key:=v]> (values h)) h.
Definition GetValue (key : string) (h : Handle) : option hvalue := values h !! key.
Definition RemoveValue (key : string) (h : Handle) : option hvalue * Handle :=
  (values h !! key, handle_with_values (delete key (values h)) h).
(** Cleanup deletes every key of the map in turn. *)
Definition Cleanup (h : Handle) : Handle :=
  handle_with_values
    (foldr (λ kv, delete kv.1) (values h) (map_to_list (values h))) h.

(** ** The map of handles *)
Record HandleMap := mkHandleMap {
  defaultHandleMap : gmap Z ptr;
  nextHandleID : Z;
  handles : gmap ptr Handle
}.
Definition init_handle_map : HandleMap := mkHandleMap ∅ 0 ∅.

(** The loop of Add: take the next number until one is not in use.  [None]
    when the fuel runs out. *)
Fixpoint Add_loop (fuel : nat) (m : gmap Z ptr) (next : Z) : option Z :=
  match fuel with
  | O => None
  | S fuel =>
      let key := u64 (next + 1) in
      match m !! key with
      | Some _ => Add_loop fuel m key
      | None => Some key
      end
  end.

(** One more attempt than there are handles is enough: [Add_loop_fuel]. *)
Definition Add (p : ptr) : go HandleMap Z := λ s,
  match Add_loop (S (size (defaultHandleMap s))) (defaultHandleMap s)
          (nextHandleID s) with
  | None => Blocked
  | Some key =>
      match handles s !! p with
      | None => Panic
      | Some h =>
          Ret (key, mkHandleMap (<[key:=p]> (defaultHandleMap s)) key
                      (<[p:=handle_with_id key h]> (handles s)))
      end
  end.

Definition Delete (key : Z) : go HandleMap unit :=
  go_modify (λ s, mkHandleMap (delete key (defaultHandleMap s))
                    (nextHandleID s) (handles s)).

Definition Load (key : Z) (s : HandleMap) : option ptr := defaultHandleMap s !! key.

(** ** Properties *)

(** The number tried after [k] failures. *)
Lemma u64_succ x : u64 (u64 x + 1) = u64 (x + 1).
Proof. unfold u64. rewrite Zplus_mod_idemp_l. done. Qed.

Lemma Add_loop_None fuel m next :
  Add_loop fuel m next = None →
  ∀ i, (i < fuel)%nat → is_Some (m !! u64 (next + 1 + Z.of_nat i)).
Proof.
  revert next. induction fuel as [|fuel IH]; intros next Hn i Hi; [lia|].
  simpl in Hn. destruct (m !! u64 (next + 1)) as [p|] eqn:E; [|done].
  destruct i as [|i]; [rewrite Z.add_0_r; eauto|].
  specialize (IH _ Hn i ltac:(lia)).
  replace (u64 (next + 1 + Z.of_nat (S i))) with (u64 (u64 (next + 1) + 1 + Z.of_nat i)); [done|].
  unfold u64. rewrite <-Z.add_assoc, Zplus_mod_idemp_l. f_equal. lia.
Qed.

(** Consecutive numbers are distinct modulo 2^64. *)
Lemma u64_consecutive_inj x i j :
  (Z.of_nat i < 2 ^ 64) → (Z.of_nat j < 2 ^ 64) →
  u64 (x + Z.of_nat i) = u64 (x + Z.of_nat j) → i = j.
Proof.
  intros Hi Hj Heq. unfold u64 in Heq.
  assert ((Z.of_nat i - Z.of_nat j) mod 2 ^ 64 = 0) as Hm.
  { replace (Z.of_nat i - Z.of_nat j) with ((x + Z.of_nat i) - (x + Z.of_nat j)) by lia.
    rewrite Zminus_mod, Heq, Z.sub_diag. done. }
  apply Z.mod_divide in Hm; [|lia]. destruct Hm as [k Hk]. nia.
Qed.

(** Enough fuel: fewer than 2^64 handles leave a free number among the first
    [size m + 1]. *)
Lemma Add_loop_fuel m next :
  Z.of_nat (size m) < 2 ^ 64 → is_Some (Add_loop (S (size m)) m next).
Proof.
  intros Hsz. destruct (Add_loop (S (size m)) m next) eqn:E; [eauto|].
  pose proof (Add_loop_None _ _ _ E) as Hall. exfalso.
  set (keys := (λ i, u64 (next + 1 + Z.of_nat i)) <$> seq 0 (S (size m))).
  assert (Hnd : NoDup keys).
  { apply NoDup_fmap_2_strong; [|apply NoDup_seq].
    intros i j Hi%elem_of_seq Hj%elem_of_seq. apply u64_consecutive_inj; lia. }
  assert (Hsub : list_to_set keys ⊆ dom m).
  { intros k Hk. apply elem_of_list_to_set, list_elem_of_fmap in Hk as (i & -> & Hi%elem_of_seq).
    apply elem_of_dom. apply Hall. lia. }
  apply subseteq_size in Hsub. rewrite size_list_to_set, size_dom in Hsub by done.
  unfold keys in Hsub. rewrite length_fmap, length_seq in Hsub. lia.
Qed.

Lemma Add_loop_fresh fuel m next key :
  Add_loop fuel m next = Some key → m !! key = None.
Proof.
  revert next. induction fuel as [|fuel IH]; intros next; simpl; [done|].
  destruct (m !! u64 (next + 1)) eqn:E; [apply IH|]. by intros [= <-].
Qed.

Lemma Add_loop_u64 fuel m next key : Add_loop fuel m next = Some key → is_u64 key.
Proof.
  revert next. induction fuel as [|fuel IH]; intros next; simpl; [done|].
  destruct (m !! u64 (next + 1)) eqn:E; [apply IH|]. intros [= <-]. apply u64_range.
Qed.

Lemma foldr_delete_lookup {V} (l : list (string * V)) (m : gmap string V) k :
  foldr (λ kv, delete kv.1) m l !! k =
  if decide (k ∈ l.*1) then None else m !! k.
Proof.
  induction l as [|[k' v] l IH]; simpl.
  { by destruct (decide (k ∈ [])) as [Hn%not_elem_of_nil|]. }
  destruct (decide (k' = k)) as [->|Hne].
  - rewrite lookup_delete_eq. rewrite decide_True; [done|]. apply list_elem_of_here.
  - rewrite lookup_delete_ne, IH by done.
    repeat case_decide; try done; set_solver.
Qed.

Lemma Cleanup_values h : values (Cleanup h) = ∅.
Proof.
  unfold Cleanup. simpl. apply map_eq. intros k. rewrite foldr_delete_lookup, lookup_empty.
  case_decide as Hd; [done|]. destruct (values h !! k) eqn:E; [|done].
  destruct Hd. apply list_elem_of_fmap. exists (k, h0). split; [done|].
  by apply elem_of_map_to_list.
Qed.

(** Add gives a handle a number that no open handle has, registers it
    under that number, stores the number in the handle and keeps every other
    registration; with fewer than 2^64 open handles it always finds one. *)
Theorem Add_correct p h s :
  handles s !! p = Some h → Z.of_nat (size (defaultHandleMap s)) < 2 ^ 64 →
  wp (Add p) (λ key s',
    Load key s = None ∧ Load key s' = Some p ∧ is_u64 key ∧
    handles s' !! p = Some (handle_with_id key h) ∧
    (∀ k, k ≠ key → Load k s' = Load k s) ∧
    (∀ q, q ≠ p → handles s' !! q = handles s !! q)) s.
Proof.
  intros Hp Hsz. unfold wp, Add, Load.
  destruct (Add_loop_fuel _ (nextHandleID s) Hsz) as [key Hkey]. rewrite Hkey, Hp. simpl.
  split_and!.
  - by eapply Add_loop_fresh.
  - apply lookup_insert_eq.
  - by eapply Add_loop_u64.
  - apply lookup_insert_eq.
  - intros k Hk. by apply lookup_insert_ne.
  - intros q Hq. by apply lookup_insert_ne.
Qed.

Lemma Add_correct_witness :
  let s := mkHandleMap {[1 := 5%nat]} 0 {[7%nat := NewHandle "f"]} in
  wp (Add 7%nat) (λ key s',
    Load key s = None ∧ Load key s' = Some 7%nat ∧ is_u64 key ∧
    handles s' !! 7%nat = Some (handle_with_id key (NewHandle "f")) ∧
    (∀ k, k ≠ key → Load k s' = Load k s) ∧
    (∀ q, q ≠ 7%nat → handles s' !! q = handles s !! q)) s.
Proof. intros s. apply (Add_correct 7%nat (NewHandle "f") s); [reflexivity|vm_compute; reflexivity]. Defined.
