(* ===== verification/Internal.v ===== *)
(** * Package internal: attributes, options and the component interface

    src/internal/attribute.go, component_options.go, component.go and
    base_component.go.  Every stage of the pipeline implements [Component]; a
    stage embeds [BaseComponent], whose operations call the next stage. *)
From S2P Require Import Prelude GoLib Common HandleMap.
From Stdlib Require Import Ascii.

(** ** Attributes (src/internal/attribute.go) *)
Definition PropFlagNotExists : Z := 1.
Definition PropFlagIsDir : Z := 2.
Definition PropFlagEmptyDir : Z := 3.
Definition PropFlagSymlink : Z := 4.
Definition PropFlagMetadataRetrieved : Z := 5.
Definition PropFlagModeDefault : Z := 6.

Definition NewDirBitMap : BitMap16 := Set_ 0 PropFlagIsDir.
Definition NewSymlinkBitMap : BitMap16 := Set_ 0 PropFlagSymlink.
Definition NewFileBitMap : BitMap16 := 0.

(** os.FileMode, a uint32. *)
Definition FileMode : Type := Z.

Record ObjAttr := mkObjAttr {
  Mtime : Time;
  Atime : Time;
  Ctime : Time;
  Crtime : Time;
  Size : Z;
  Mode : FileMode;
  Flags : BitMap16;
  Path : string;
  Name : string;
  MD5 : list byte;
  Metadata : gmap string string
}.
(** [ObjAttr{}] *)
Definition zero_ObjAttr : ObjAttr := mkObjAttr 0 0 0 0 0 0 0 "" "" [] ∅.

Definition IsDir (attr : ObjAttr) : bool := IsSet (Flags attr) PropFlagIsDir.
Definition IsSymlink (attr : ObjAttr) : bool := IsSet (Flags attr) PropFlagSymlink.
Definition IsMetadataRetrieved (attr : ObjAttr) : bool :=
  IsSet (Flags attr) PropFlagMetadataRetrieved.
Definition IsModeDefault (attr : ObjAttr) : bool :=
  IsSet (Flags attr) PropFlagModeDefault.

Definition attr_with_size (mtime : Time) (size : Z) (a : ObjAttr) : ObjAttr :=
  mkObjAttr mtime (Atime a) (Ctime a) (Crtime a) size (Mode a) (Flags a)
    (Path a) (Name a) (MD5 a) (Metadata a).
Definition attr_with_mode (ctime : Time) (mode : FileMode) (a : ObjAttr) : ObjAttr :=
  mkObjAttr (Mtime a) (Atime a) ctime (Crtime a) (Size a) mode (Flags a)
    (Path a) (Name a) (MD5 a) (Metadata a).

(** ** Directory names (src/internal/component_options.go) *)
Definition TruncateDirName (name : string) : string :=
  match last_char name with
  | None => ""
  | Some c =>
      if Ascii.eqb c slash then stake (String.length name - 1) name else name
  end.

Definition ExtendDirName (name : string) : string :=
  match last_char name with
  | None => "/"
  | Some c => if negb (Ascii.eqb c slash) then name +:+ "/" else name
  end.

(** ** Options of the operations (src/internal/component_options.go) *)
Record CreateDirOptions := mkCreateDirOptions {
  CreateDir_Name : string;
  CreateDir_Mode : FileMode
}.

Record DeleteDirOptions := mkDeleteDirOptions {
  DeleteDir_Name : string
}.

Record IsDirEmptyOptions := mkIsDirEmptyOptions {
  IsDirEmpty_Name : string
}.

Record OpenDirOptions := mkOpenDirOptions {
  OpenDir_Name : string
}.

Record ReadDirOptions := mkReadDirOptions {
  ReadDir_Name : string
}.

Record StreamDirOptions := mkStreamDirOptions {
  StreamDir_Name : string;
  StreamDir_Offset : Z;
  StreamDir_Token : string;
  StreamDir_Count : Z
}.

Record CloseDirOptions := mkCloseDirOptions {
  CloseDir_Name : string
}.

Record RenameDirOptions := mkRenameDirOptions {
  RenameDir_Src : string;
  RenameDir_Dst : string
}.

Record CreateFileOptions := mkCreateFileOptions {
  CreateFile_Name : string;
  CreateFile_Mode : FileMode
}.

Record DeleteFileOptions := mkDeleteFileOptions {
  DeleteFile_Name : string
}.

Record OpenFileOptions := mkOpenFileOptions {
  OpenFile_Name : string;
  OpenFile_Flags : Z;
  OpenFile_Mode : FileMode
}.

Record CloseFileOptions := mkCloseFileOptions {
  CloseFile_Handle : ptr
}.

Record RenameFileOptions := mkRenameFileOptions {
  RenameFile_Src : string;
  RenameFile_Dst : string
}.

Record ReadFileOptions := mkReadFileOptions {
  ReadFile_Handle : ptr
}.

Record ReadInBufferOptions := mkReadInBufferOptions {
  ReadInBuffer_Handle : ptr;
  ReadInBuffer_Offset : Z;
  ReadInBuffer_Data : list byte
}.

Record WriteFileOptions := mkWriteFileOptions {
  WriteFile_Handle : ptr;
  WriteFile_Offset : Z;
  WriteFile_Data : list byte;
  WriteFile_Metadata : gmap string string
}.

Record GetFileBlockOffsetsOptions := mkGetFileBlockOffsetsOptions {
  GetFileBlockOffsets_Name : string
}.

Record TruncateFileOptions := mkTruncateFileOptions {
  TruncateFile_Name : string;
  TruncateFile_Size : Z
}.

Record CopyToFileOptions := mkCopyToFileOptions {
  CopyToFile_Name : string;
  CopyToFile_Offset : Z;
  CopyToFile_Count : Z;
  CopyToFile_File : ptr
}.

Record CopyFromFileOptions := mkCopyFromFileOptions {
  CopyFromFile_Name : string;
  CopyFromFile_File : ptr;
  CopyFromFile_Metadata : gmap string string
}.

Record FlushFileOptions := mkFlushFileOptions {
  FlushFile_Handle : ptr
}.

Record SyncFileOptions := mkSyncFileOptions {
  SyncFile_Handle : ptr
}.

Record SyncDirOptions := mkSyncDirOptions {
  SyncDir_Name : string
}.

Record ReleaseFileOptions := mkReleaseFileOptions {
  ReleaseFile_Handle : ptr
}.

Record UnlinkFileOptions := mkUnlinkFileOptions {
  UnlinkFile_Name : string
}.

Record CreateLinkOptions := mkCreateLinkOptions {
  CreateLink_Name : string;
  CreateLink_Target : string
}.

Record ReadLinkOptions := mkReadLinkOptions {
  ReadLink_Name : string
}.

Record GetAttrOptions := mkGetAttrOptions {
  GetAttr_Name : string;
  GetAttr_RetrieveMetadata : bool
}.

Record SetAttrOptions := mkSetAttrOptions {
  SetAttr_Name : string;
  SetAttr_Attr : ptr
}.

Record ChmodOptions := mkChmodOptions {
  Chmod_Name : string;
  Chmod_Mode : FileMode
}.

Record ChownOptions := mkChownOptions {
  Chown_Name : string;
  Chown_Owner : Z;
  Chown_Group : Z
}.

Record StageDataOptions := mkStageDataOptions {
  StageData_Name : string;
  StageData_Id : string;
  StageData_Offset : Z;
  StageData_Data : list byte
}.

Record CommitDataOptions := mkCommitDataOptions {
  CommitData_Name : string;
  CommitData_List : list string;
  CommitData_BlockSize : Z
}.

Record CommittedBlock := mkCommittedBlock {
  CommittedBlock_Id : string;
  CommittedBlock_Offset : Z;
  CommittedBlock_Size : Z
}.
Definition CommittedBlockList : Type := list CommittedBlock.

(** The fields of syscall.Statfs_t that the components set or read. *)
Record Statfs_t := mkStatfs {
  Blocks : Z;
  Bavail : Z;
  Bfree : Z;
  Frsize : Z;
  Bsize : Z;
  Files : Z;
  Ffree : Z;
  statfs_Flags : Z
}.

(** ** The run-time a component executes in

    The clock, and the structs that are passed between components by
    reference: attributes and handles. *)
Class Runtime (N : Type) := {
  rt_now : go N Time;
  rt_objs : N → gmap ptr ObjAttr;
  rt_set_objs : gmap ptr ObjAttr → N → N;
  rt_handles : N → gmap ptr Handle;
  rt_set_handles : gmap ptr Handle → N → N
}.

Class RuntimeLaws (N : Type) `{!Runtime N} := {
  rt_objs_set m n : rt_objs (rt_set_objs m n) = m;
  rt_set_set m m' n : rt_set_objs m (rt_set_objs m' n) = rt_set_objs m n;
  rt_handles_set_objs m n : rt_handles (rt_set_objs m n) = rt_handles n;
  rt_now_returns n : ∃ t n', rt_now n = Ret (t, n');
  rt_now_objs n t n' : rt_now n = Ret (t, n') → rt_objs n' = rt_objs n;
  rt_now_handles n t n' : rt_now n = Ret (t, n') → rt_handles n' = rt_handles n
}.

(** A component's own state on top of the next component's. *)
#[export] Instance Runtime_prod (C N : Type) `{!Runtime N} : Runtime (C * N) := {
  rt_now := go_snd rt_now;
  rt_objs s := rt_objs s.2;
  rt_set_objs m s := (s.1, rt_set_objs m s.2);
  rt_handles s := rt_handles s.2;
  rt_set_handles m s := (s.1, rt_set_handles m s.2)
}.

Definition new_obj {N : Type} `{!Runtime N} (a : ObjAttr) : go N ptr := λ n,
  let p := fresh_ptr (rt_objs n) in
  Ret (p, rt_set_objs (<[p:=a]> (rt_objs n)) n).
Definition load_obj {N : Type} `{!Runtime N} (p : ptr) : go N ObjAttr := λ n,
  go_deref (rt_objs n !! p) n.
Definition store_obj {N : Type} `{!Runtime N} (p : ptr) (a : ObjAttr) : go N unit := λ n,
  match rt_objs n !! p with
  | Some _ => Ret (tt, rt_set_objs (<[p:=a]> (rt_objs n)) n)
  | None => Panic
  end.
Definition load_handle {N : Type} `{!Runtime N} (p : ptr) : go N Handle := λ n,
  go_deref (rt_handles n !! p) n.

(** ** The component interface (src/internal/component.go) *)
Definition LevelMid : Z := 500.
Definition Producer : Z := 1000.
Definition Consumer : Z := 100.
Definition LevelOne : Z := 700.
Definition LevelTwo : Z := 300.

Record Component (N : Type) := mkComponent {
  c_CreateDir : CreateDirOptions → go N (option error);
  c_DeleteDir : DeleteDirOptions → go N (option error);
  c_IsDirEmpty : IsDirEmptyOptions → go N (bool);
  c_OpenDir : OpenDirOptions → go N (option error);
  c_ReadDir : ReadDirOptions → go N (list ptr * option error);
  c_StreamDir : StreamDirOptions → go N (list ptr * string * option error);
  c_CloseDir : CloseDirOptions → go N (option error);
  c_RenameDir : RenameDirOptions → go N (option error);
  c_CreateFile : CreateFileOptions → go N (ptr * option error);
  c_DeleteFile : DeleteFileOptions → go N (option error);
  c_OpenFile : OpenFileOptions → go N (ptr * option error);
  c_CloseFile : CloseFileOptions → go N (option error);
  c_RenameFile : RenameFileOptions → go N (option error);
  c_ReadFile : ReadFileOptions → go N (list byte * option error);
  c_ReadInBuffer : ReadInBufferOptions → go N (list byte * Z * option error);
  c_WriteFile : WriteFileOptions → go N (Z * option error);
  c_TruncateFile : TruncateFileOptions → go N (option error);
  c_CopyToFile : CopyToFileOptions → go N (option error);
  c_CopyFromFile : CopyFromFileOptions → go N (option error);
  c_SyncFile : SyncFileOptions → go N (option error);
  c_SyncDir : SyncDirOptions → go N (option error);
  c_FlushFile : FlushFileOptions → go N (option error);
  c_ReleaseFile : ReleaseFileOptions → go N (option error);
  c_UnlinkFile : UnlinkFileOptions → go N (option error);
  c_CreateLink : CreateLinkOptions → go N (option error);
  c_ReadLink : ReadLinkOptions → go N (string * option error);
  c_GetAttr : GetAttrOptions → go N (ptr * option error);
  c_GetFileBlockOffsets : GetFileBlockOffsetsOptions → go N (option BlockOffsetList * option error);
  c_SetAttr : SetAttrOptions → go N (option error);
  c_Chmod : ChmodOptions → go N (option error);
  c_Chown : ChownOptions → go N (option error);
  c_FileUsed : string → go N (option error);
  c_StatFs : unit → go N (option Statfs_t * bool * option error);
  c_GetCommittedBlockList : string → go N (option CommittedBlockList * option error);
  c_StageData : StageDataOptions → go N (option error);
  c_CommitData : CommitDataOptions → go N (option error)
}.
Arguments c_CreateDir {N} _ _.
Arguments c_DeleteDir {N} _ _.
Arguments c_IsDirEmpty {N} _ _.
Arguments c_OpenDir {N} _ _.
Arguments c_ReadDir {N} _ _.
Arguments c_StreamDir {N} _ _.
Arguments c_CloseDir {N} _ _.
Arguments c_RenameDir {N} _ _.
Arguments c_CreateFile {N} _ _.
Arguments c_DeleteFile {N} _ _.
Arguments c_OpenFile {N} _ _.
Arguments c_CloseFile {N} _ _.
Arguments c_RenameFile {N} _ _.
Arguments c_ReadFile {N} _ _.
Arguments c_ReadInBuffer {N} _ _.
Arguments c_WriteFile {N} _ _.
Arguments c_TruncateFile {N} _ _.
Arguments c_CopyToFile {N} _ _.
Arguments c_CopyFromFile {N} _ _.
Arguments c_SyncFile {N} _ _.
Arguments c_SyncDir {N} _ _.
Arguments c_FlushFile {N} _ _.
Arguments c_ReleaseFile {N} _ _.
Arguments c_UnlinkFile {N} _ _.
Arguments c_CreateLink {N} _ _.
Arguments c_ReadLink {N} _ _.
Arguments c_GetAttr {N} _ _.
Arguments c_GetFileBlockOffsets {N} _ _.
Arguments c_SetAttr {N} _ _.
Arguments c_Chmod {N} _ _.
Arguments c_Chown {N} _ _.
Arguments c_FileUsed {N} _ _.
Arguments c_StatFs {N} _ _.
Arguments c_GetCommittedBlockList {N} _ _.
Arguments c_StageData {N} _ _.
Arguments c_CommitData {N} _ _.
Arguments mkComponent {N}.

(** ** The inherited operations (src/internal/base_component.go)

    [next] is the next component of the pipeline, [None] for nil. *)
Section base.
Context {N : Type} `{!Runtime N} (next : option (Component N)).

Definition Base_CreateDir (options : CreateDirOptions) : go N (option error) :=
  match next with
  | Some c => c_CreateDir c options
  | None => mret None
  end.

Definition Base_DeleteDir (options : DeleteDirOptions) : go N (option error) :=
  match next with
  | Some c => c_DeleteDir c options
  | None => mret None
  end.

Definition Base_IsDirEmpty (options : IsDirEmptyOptions) : go N (bool) :=
  match next with
  | Some c => c_IsDirEmpty c options
  | None => mret false
  end.

Definition Base_OpenDir (options : OpenDirOptions) : go N (option error) :=
  match next with
  | Some c => c_OpenDir c options
  | None => mret None
  end.

Definition Base_ReadDir (options : ReadDirOptions) : go N (list ptr * option error) :=
  match next with
  | Some c => c_ReadDir c options
  | None => mret ([], None)
  end.

Definition Base_StreamDir (options : StreamDirOptions) : go N (list ptr * string * option error) :=
  match next with
  | Some c => c_StreamDir c options
  | None => mret ([], "", None)
  end.

Definition Base_CloseDir (options : CloseDirOptions) : go N (option error) :=
  match next with
  | Some c => c_CloseDir c options
  | None => mret None
  end.

Definition Base_RenameDir (options : RenameDirOptions) : go N (option error) :=
  match next with
  | Some c => c_RenameDir c options
  | None => mret None
  end.

Definition Base_CreateFile (options : CreateFileOptions) : go N (ptr * option error) :=
  match next with
  | Some c => c_CreateFile c options
  | None => mret (nil_ptr, None)
  end.

Definition Base_DeleteFile (options : DeleteFileOptions) : go N (option error) :=
  match next with
  | Some c => c_DeleteFile c options
  | None => mret None
  end.

Definition Base_OpenFile (options : OpenFileOptions) : go N (ptr * option error) :=
  match next with
  | Some c => c_OpenFile c options
  | None => mret (nil_ptr, None)
  end.

Definition Base_CloseFile (options : CloseFileOptions) : go N (option error) :=
  match next with
  | Some c => c_CloseFile c options
  | None => mret None
  end.

Definition Base_RenameFile (options : RenameFileOptions) : go N (option error) :=
  match next with
  | Some c => c_RenameFile c options
  | None => mret None
  end.

Definition Base_ReadFile (options : ReadFileOptions) : go N (list byte * option error) :=
  match next with
  | Some c => c_ReadFile c options
  | None => mret ([], None)
  end.

Definition Base_ReadInBuffer (options : ReadInBufferOptions) : go N (list byte * Z * option error) :=
  match next with
  | Some c => c_ReadInBuffer c options
  | None => mret (ReadInBuffer_Data options, 0, None)
  end.

Definition Base_WriteFile (options : WriteFileOptions) : go N (Z * option error) :=
  match next with
  | Some c => c_WriteFile c options
  | None => mret (0, None)
  end.

Definition Base_TruncateFile (options : TruncateFileOptions) : go N (option error) :=
  match next with
  | Some c => c_TruncateFile c options
  | None => mret None
  end.

Definition Base_CopyToFile (options : CopyToFileOptions) : go N (option error) :=
  match next with
  | Some c => c_CopyToFile c options
  | None => mret None
  end.

Definition Base_CopyFromFile (options : CopyFromFileOptions) : go N (option error) :=
  match next with
  | Some c => c_CopyFromFile c options
  | None => mret None
  end.

Definition Base_SyncFile (options : SyncFileOptions) : go N (option error) :=
  match next with
  | Some c => c_SyncFile c options
  | None => mret None
  end.

Definition Base_SyncDir (options : SyncDirOptions) : go N (option error) :=
  match next with
  | Some c => c_SyncDir c options
  | None => mret None
  end.

Definition Base_FlushFile (options : FlushFileOptions) : go N (option error) :=
  match next with
  | Some c => c_FlushFile c options
  | None => mret None
  end.

Definition Base_ReleaseFile (options : ReleaseFileOptions) : go N (option error) :=
  match next with
  | Some c => c_ReleaseFile c options
  | None => mret None
  end.

Definition Base_UnlinkFile (options : UnlinkFileOptions) : go N (option error) :=
  match next with
  | Some c => c_UnlinkFile c options
  | None => mret None
  end.

Definition Base_CreateLink (options : CreateLinkOptions) : go N (option error) :=
  match next with
  | Some c => c_CreateLink c options
  | None => mret None
  end.

Definition Base_ReadLink (options : ReadLinkOptions) : go N (string * option error) :=
  match next with
  | Some c => c_ReadLink c options
  | None => mret ("", None)
  end.

Definition Base_GetAttr (options : GetAttrOptions) : go N (ptr * option error) :=
  match next with
  | Some c => c_GetAttr c options
  | None => p ← new_obj zero_ObjAttr; mret (p, None)
  end.

Definition Base_GetFileBlockOffsets (options : GetFileBlockOffsetsOptions) : go N (option BlockOffsetList * option error) :=
  match next with
  | Some c => c_GetFileBlockOffsets c options
  | None => mret (Some empty_bol, None)
  end.

Definition Base_SetAttr (options : SetAttrOptions) : go N (option error) :=
  match next with
  | Some c => c_SetAttr c options
  | None => mret None
  end.

Definition Base_Chmod (options : ChmodOptions) : go N (option error) :=
  match next with
  | Some c => c_Chmod c options
  | None => mret None
  end.

Definition Base_Chown (options : ChownOptions) : go N (option error) :=
  match next with
  | Some c => c_Chown c options
  | None => mret None
  end.

Definition Base_FileUsed (options : string) : go N (option error) :=
  match next with
  | Some c => c_FileUsed c options
  | None => mret None
  end.

Definition Base_StatFs (options : unit) : go N (option Statfs_t * bool * option error) :=
  match next with
  | Some c => c_StatFs c options
  | None => mret (None, false, None)
  end.

Definition Base_GetCommittedBlockList (options : string) : go N (option CommittedBlockList * option error) :=
  match next with
  | Some c => c_GetCommittedBlockList c options
  | None => mret (None, None)
  end.

Definition Base_StageData (options : StageDataOptions) : go N (option error) :=
  match next with
  | Some c => c_StageData c options
  | None => mret None
  end.

Definition Base_CommitData (options : CommitDataOptions) : go N (option error) :=
  match next with
  | Some c => c_CommitData c options
  | None => mret None
  end.

(** The component whose every operation is the inherited one. *)
Definition BaseComponent : Component N :=
  mkComponent Base_CreateDir
    Base_DeleteDir
    Base_IsDirEmpty
    Base_OpenDir
    Base_ReadDir
    Base_StreamDir
    Base_CloseDir
    Base_RenameDir
    Base_CreateFile
    Base_DeleteFile
    Base_OpenFile
    Base_CloseFile
    Base_RenameFile
    Base_ReadFile
    Base_ReadInBuffer
    Base_WriteFile
    Base_TruncateFile
    Base_CopyToFile
    Base_CopyFromFile
    Base_SyncFile
    Base_SyncDir
    Base_FlushFile
    Base_ReleaseFile
    Base_UnlinkFile
    Base_CreateLink
    Base_ReadLink
    Base_GetAttr
    Base_GetFileBlockOffsets
    Base_SetAttr
    Base_Chmod
    Base_Chown
    Base_FileUsed
    Base_StatFs
    Base_GetCommittedBlockList
    Base_StageData
    Base_CommitData.
End base.

(** SetNextComponent registers the next component once; a second call panics. *)
Definition SetNextComponent {C} (base c : option C) : outcome (option C) :=
  match base with
  | None => Ret c
  | Some _ => Panic
  end.

(** ** Properties of directory names *)
#[local] Arguments String.append _ _ : simpl nomatch.

Lemma TruncateDirName_slash s : TruncateDirName (s +:+ "/") = s.
Proof.
  unfold TruncateDirName. rewrite last_char_app. simpl.
  rewrite string_app_length. simpl.
  replace (String.length s + 1 - 1)%nat with (String.length s) by lia.
  apply stake_app.
Qed.

Lemma ExtendDirName_cases s :
  (∃ t, s = t +:+ "/" ∧ ExtendDirName s = s ∧ TruncateDirName s = t) ∨
  (ExtendDirName s = s +:+ "/" ∧ TruncateDirName s = s).
Proof.
  unfold ExtendDirName, TruncateDirName. destruct (last_char s) as [c|] eqn:E.
  - destruct (Ascii.eqb_spec c slash) as [->|]; simpl; [left|right; done].
    apply last_char_inv in E as [t ->]. exists t. split_and!; [done..|].
    rewrite string_app_length. simpl.
    replace (String.length t + 1 - 1)%nat with (String.length t) by lia.
    apply stake_app.
  - right. by apply last_char_None in E as ->.
Qed.

(** The prefix of the children of a directory is the key of the directory and a
    slash, however the directory was spelled. *)
Lemma ExtendDirName_Truncate s :
  ExtendDirName s = TruncateDirName s +:+ "/".
Proof.
  destruct (ExtendDirName_cases s) as [(t & -> & -> & ->)|[-> ->]]; done.
Qed.

(** ** Properties of the run-time *)
Section runtime.
Context {N : Type} `{!Runtime N} `{!RuntimeLaws N}.

Lemma new_obj_run (a : ObjAttr) n :
  ∃ p n', new_obj a n = Ret (p, n') ∧ rt_objs n !! p = None ∧
    rt_objs n' = <[p:=a]> (rt_objs n) ∧ rt_handles n' = rt_handles n.
Proof.
  eexists _, _. split; [reflexivity|]. split; [apply fresh_ptr_lookup|].
  by rewrite rt_objs_set, rt_handles_set_objs.
Qed.

Lemma wp_now Q n :
  (∀ t n', rt_now n = Ret (t, n') → rt_objs n' = rt_objs n →
     rt_handles n' = rt_handles n → Q t n') → wp rt_now Q n.
Proof.
  intros HQ. destruct (rt_now_returns n) as (t & n' & H). unfold wp. rewrite H.
  apply HQ; [done|by eapply rt_now_objs|by eapply rt_now_handles].
Qed.

Lemma wp_load_obj Q n p a : rt_objs n !! p = Some a → Q a n → wp (load_obj p) Q n.
Proof. unfold wp, load_obj. by intros ->. Qed.

Lemma wp_load_handle Q n p h :
  rt_handles n !! p = Some h → Q h n → wp (load_handle p) Q n.
Proof. unfold wp, load_handle. by intros ->. Qed.

Lemma wp_store_obj Q n p a b :
  rt_objs n !! p = Some b → Q tt (rt_set_objs (<[p:=a]> (rt_objs n)) n) →
  wp (store_obj p a) Q n.
Proof. unfold wp, store_obj. by intros ->. Qed.

#[export] Instance RuntimeLaws_prod (C : Type) : RuntimeLaws (C * N).
Proof.
  constructor.
  - intros m [c n]. exact (rt_objs_set m n).
  - intros m m' [c n]. simpl. by rewrite rt_set_set.
  - intros m [c n]. exact (rt_handles_set_objs m n).
  - intros [c n]. destruct (rt_now_returns n) as (t & n' & H).
    exists t, (c, n'). simpl. by rewrite H.
  - intros [c n] t [c' n'] H. simpl in H. apply go_snd_Ret in H as [-> H].
    by apply rt_now_objs in H.
  - intros [c n] t [c' n'] H. simpl in H. apply go_snd_Ret in H as [-> H].
    by apply rt_now_handles in H.
Qed.
End runtime.
