(* ===== verification/AttrCache.v ===== *)
(** * The attribute cache (src/component/attr_cache)

    [cacheMap.go] is the item of the cache, [attr_cache.go] the component.
    The state of the component is the record [AttrCache] on top of the state
    [N] of the next component; an operation is a routine over the pair.  The
    operations take the lock of the cache for the whole of what they do to the
    map, so each is one atomic routine here. *)
From S2P Require Import Prelude GoLib Common HandleMap Internal.

(** ** Items (src/component/attr_cache/cacheMap.go) *)
Definition AttrFlagExists : Z := 1.
Definition AttrFlagValid : Z := 2.

Record attrCacheItem := mkItem {
  attr : ptr;
  cachedAt : Time;
  attrFlag : BitMap16
}.

Definition newAttrCacheItem (a : ptr) (exists_ : bool) (t : Time) : attrCacheItem :=
  let f := Set_ 0 AttrFlagValid in
  mkItem a t (if exists_ then Set_ f AttrFlagExists else f).

Definition valid (value : attrCacheItem) : bool := IsSet (attrFlag value) AttrFlagValid.
Definition exists_ (value : attrCacheItem) : bool := IsSet (attrFlag value) AttrFlagExists.
Definition isDeleted (value : attrCacheItem) : bool := negb (exists_ value).
Definition getAttr (value : attrCacheItem) : ptr := attr value.

Section item_ops.
Context {S : Type} `{!Runtime S}.

(** The item gets a new, zero attribute: pointers handed out before still see
    the old one. *)
Definition markDeleted (deletedTime : Time) (value : attrCacheItem) : go S attrCacheItem :=
  p ← new_obj zero_ObjAttr;
  mret (mkItem p deletedTime
          (Set_ (Clear (attrFlag value) AttrFlagExists) AttrFlagValid)).

Definition invalidate (value : attrCacheItem) : go S attrCacheItem :=
  p ← new_obj zero_ObjAttr;
  mret (mkItem p (cachedAt value) (Clear (attrFlag value) AttrFlagValid)).

(** The attribute itself is updated: pointers handed out before see it. *)
Definition setSize (size : Z) (value : attrCacheItem) : go S attrCacheItem :=
  a ← load_obj (attr value);
  mtime ← rt_now;
  _ ← store_obj (attr value) (attr_with_size mtime size a);
  t ← rt_now;
  mret (mkItem (attr value) t (attrFlag value)).

Definition setMode (mode : FileMode) (value : attrCacheItem) : go S attrCacheItem :=
  a ← load_obj (attr value);
  ctime ← rt_now;
  _ ← store_obj (attr value) (attr_with_mode ctime mode a);
  t ← rt_now;
  mret (mkItem (attr value) t (attrFlag value)).
End item_ops.

(** ** The component (src/component/attr_cache/attr_cache.go) *)
Record AttrCache := mkAttrCache {
  cacheTimeout : Z;
  cacheOnList : bool;
  noSymlinks : bool;
  maxFiles : Z;
  cacheMap : gmap string attrCacheItem
}.

Definition with_cacheMap (m : gmap string attrCacheItem) (ac : AttrCache) : AttrCache :=
  mkAttrCache (cacheTimeout ac) (cacheOnList ac) (noSymlinks ac) (maxFiles ac) m.

(** The options of the configuration file, and which of them are set. *)
Record AttrCacheOptions := mkAttrCacheOptions {
  conf_Timeout : Z;
  conf_NoCacheOnList : bool;
  conf_NoSymlinks : bool;
  conf_MaxFiles : Z;
  conf_CacheOnList : bool
}.
Definition defaultAttrCacheTimeout : Z := 120.
Definition defaultMaxFiles : Z := 5000000.

(** [unmarshal] is what config.UnmarshalKey returns, [isSet] config.IsSet. *)
Definition Configure (unmarshal : AttrCacheOptions + error) (isSet : string → bool)
    (ac : AttrCache) : AttrCache * option error :=
  match unmarshal with
  | inr _ => (ac, Some (Msg "config error in attr_cache"))
  | inl conf =>
      (mkAttrCache
         (if isSet "attr_cache.timeout-sec" then conf_Timeout conf
          else defaultAttrCacheTimeout)
         (if isSet "attr_cache.cache-on-list" then conf_CacheOnList conf
          else negb (conf_NoCacheOnList conf))
         (conf_NoSymlinks conf)
         (if isSet "attr_cache.max-files" then conf_MaxFiles conf
          else defaultMaxFiles)
         (cacheMap ac), None)
  end.

(** Start makes an empty map. *)
Definition Start (ac : AttrCache) : AttrCache := with_cacheMap ∅ ac.

Section component.
Context {N : Type} `{!Runtime N} (next : Component N).

Definition get_cache : go (AttrCache * N) AttrCache := go_gets fst.
Definition set_item (k : string) (v : attrCacheItem) : go (AttrCache * N) unit :=
  go_modify (λ s, (with_cacheMap (<[k:=v]> (cacheMap s.1)) s.1, s.2)).

(** Apply an item operation to the entry of a key, if there is one. *)
Definition update_item (f : attrCacheItem → go (AttrCache * N) attrCacheItem)
    (k : string) : go (AttrCache * N) unit :=
  ac ← get_cache;
  match cacheMap ac !! k with
  | Some value => value' ← f value; set_item k value'
  | None => mret tt
  end.

Definition deletePath (path : string) (time : Time) : go (AttrCache * N) unit :=
  update_item (markDeleted time) (TruncateDirName path).

Definition invalidatePath (path : string) : go (AttrCache * N) unit :=
  update_item invalidate (TruncateDirName path).

(** The [range] loop over the map of both recursive helpers. *)
Definition update_prefix (f : attrCacheItem → go (AttrCache * N) attrCacheItem)
    (prefix : string) : go (AttrCache * N) unit :=
  ac ← get_cache;
  go_range (λ kv : string * attrCacheItem,
      if strings_HasPrefix kv.1 prefix
      then value' ← f kv.2; set_item kv.1 value'
      else mret tt) (map_to_list (cacheMap ac)).

Definition deleteDirectory (path : string) (time : Time) : go (AttrCache * N) unit :=
  _ ← update_prefix (markDeleted time) (ExtendDirName path);
  deletePath path time.

Definition invalidateDirectory (path : string) : go (AttrCache * N) unit :=
  _ ← update_prefix invalidate (ExtendDirName path);
  invalidatePath path.

Definition ac_CreateDir (options : CreateDirOptions) : go (AttrCache * N) (option error) :=
  err ← go_snd (c_CreateDir next options);
  _ ← (if bool_decide (err = None) || err_is err (Errno EEXIST)
       then invalidatePath (CreateDir_Name options) else mret tt);
  mret err.

Definition ac_DeleteDir (options : DeleteDirOptions) : go (AttrCache * N) (option error) :=
  deletionTime ← rt_now;
  err ← go_snd (c_DeleteDir next options);
  _ ← (if bool_decide (err = None)
       then deleteDirectory (DeleteDir_Name options) deletionTime else mret tt);
  mret err.

(** The loop of cacheAttributes stops when the map is full. *)
Fixpoint cacheAttributes_loop (currTime : Time) (pathList : list ptr)
    : go (AttrCache * N) unit :=
  match pathList with
  | [] => mret tt
  | a :: rest =>
      ac ← get_cache;
      if maxFiles ac <? Z.of_nat (size (cacheMap ac)) then mret tt
      else
        at_ ← load_obj a;
        _ ← set_item (TruncateDirName (Path at_)) (newAttrCacheItem a true currTime);
        cacheAttributes_loop currTime rest
  end.

Definition cacheAttributes (pathList : list ptr) : go (AttrCache * N) unit :=
  ac ← get_cache;
  if cacheOnList ac && (0 <? Z.of_nat (length pathList)) then
    currTime ← rt_now;
    cacheAttributes_loop currTime pathList
  else mret tt.

Definition ac_ReadDir (options : ReadDirOptions)
    : go (AttrCache * N) (list ptr * option error) :=
  r ← go_snd (c_ReadDir next options);
  _ ← (if bool_decide (r.2 = None) then cacheAttributes r.1 else mret tt);
  mret r.

Definition ac_StreamDir (options : StreamDirOptions)
    : go (AttrCache * N) (list ptr * string * option error) :=
  r ← go_snd (c_StreamDir next options);
  _ ← (if bool_decide (r.2 = None) then cacheAttributes r.1.1 else mret tt);
  mret r.

Definition ac_RenameDir (options : RenameDirOptions) : go (AttrCache * N) (option error) :=
  deletionTime ← rt_now;
  err ← go_snd (c_RenameDir next options);
  _ ← (if bool_decide (err = None) then
         _ ← deleteDirectory (RenameDir_Src options) deletionTime;
         invalidateDirectory (RenameDir_Dst options)
       else mret tt);
  mret err.

Definition ac_CreateFile (options : CreateFileOptions)
    : go (AttrCache * N) (ptr * option error) :=
  r ← go_snd (c_CreateFile next options);
  _ ← (if bool_decide (r.2 = None)
       then invalidatePath (CreateFile_Name options) else mret tt);
  mret r.

Definition ac_DeleteFile (options : DeleteFileOptions) : go (AttrCache * N) (option error) :=
  err ← go_snd (c_DeleteFile next options);
  _ ← (if bool_decide (err = None) then
         now ← rt_now; deletePath (DeleteFile_Name options) now
       else mret tt);
  mret err.

Definition ac_RenameFile (options : RenameFileOptions) : go (AttrCache * N) (option error) :=
  err ← go_snd (c_RenameFile next options);
  _ ← (if bool_decide (err = None) then
         now ← rt_now;
         _ ← deletePath (RenameFile_Src options) now;
         invalidatePath (RenameFile_Dst options)
       else mret tt);
  mret err.

(** time.Since(value.cachedAt).Seconds() < float64(ac.cacheTimeout), on the
    exact number of nanoseconds. *)
Definition not_expired (ac : AttrCache) (value : attrCacheItem) (now : Time) : bool :=
  now - cachedAt value <? cacheTimeout ac * nanos_per_sec.

(** The part of GetAttr that serves from the cache: [None] on a miss. *)
Definition GetAttr_cached (options : GetAttrOptions) (truncatedPath : string)
    : go (AttrCache * N) (option (ptr * option error)) :=
  ac ← get_cache;
  match cacheMap ac !! truncatedPath with
  | Some value =>
      if valid value then
        now ← rt_now;
        if not_expired ac value now then
          if isDeleted value then
            p ← new_obj zero_ObjAttr;
            mret (Some (p, Some (Errno ENOENT)))
          else
            a ← load_obj (getAttr value);
            if IsMetadataRetrieved a
               || (noSymlinks ac && negb (GetAttr_RetrieveMetadata options))
            then mret (Some (getAttr value, None))
            else mret None
        else mret None
      else mret None
  | None => mret None
  end.

(** The part that asks the next component and caches its answer. *)
Definition GetAttr_fetch (options : GetAttrOptions) (truncatedPath : string)
    : go (AttrCache * N) (ptr * option error) :=
  r ← go_snd (c_GetAttr next options);
  _ ← (if bool_decide (r.2 = None) then
         ac ← get_cache;
         if Z.of_nat (size (cacheMap ac)) <? maxFiles ac then
           now ← rt_now;
           set_item truncatedPath (newAttrCacheItem r.1 true now)
         else mret tt
       else if err_is r.2 (Errno ENOENT) then
         p ← new_obj zero_ObjAttr;
         now ← rt_now;
         set_item truncatedPath (newAttrCacheItem p false now)
       else mret tt);
  mret r.

Definition ac_GetAttr (options : GetAttrOptions)
    : go (AttrCache * N) (ptr * option error) :=
  let truncatedPath := TruncateDirName (GetAttr_Name options) in
  hit ← GetAttr_cached options truncatedPath;
  match hit with
  | Some r => mret r
  | None => GetAttr_fetch options truncatedPath
  end.

(** The preamble of WriteFile and CopyFromFile: the metadata to preserve, or
    an error other than "does not exist".  [None] keeps the caller's. *)
Definition preserved_metadata (name : string)
    : go (AttrCache * N) (option (gmap string string) + error) :=
  r ← ac_GetAttr (mkGetAttrOptions name true);
  match r.2 with
  | Some e =>
      if os_IsNotExist (Some e) || err_is (Some e) (Errno ENOENT) then
        if decide (r.1 = nil_ptr) then mret (inl None)
        else a ← load_obj r.1; mret (inl (Some (Metadata a)))
      else mret (inr e)
  | None =>
      if decide (r.1 = nil_ptr) then mret (inl None)
      else a ← load_obj r.1; mret (inl (Some (Metadata a)))
  end.

Definition ac_WriteFile (options : WriteFileOptions)
    : go (AttrCache * N) (Z * option error) :=
  h ← load_handle (WriteFile_Handle options);
  m ← preserved_metadata (hPath h);
  match m with
  | inr e => mret (0, Some e)
  | inl md =>
      let options' := mkWriteFileOptions (WriteFile_Handle options)
        (WriteFile_Offset options) (WriteFile_Data options)
        (default (WriteFile_Metadata options) md) in
      r ← go_snd (c_WriteFile next options');
      _ ← (if bool_decide (r.2 = None) then
             h ← load_handle (WriteFile_Handle options);
             invalidatePath (hPath h)
           else mret tt);
      mret r
  end.

(** A valid entry of an existing path has its attribute updated. *)
Definition update_existing (f : attrCacheItem → go (AttrCache * N) attrCacheItem)
    (k : string) : go (AttrCache * N) unit :=
  ac ← get_cache;
  match cacheMap ac !! k with
  | Some value =>
      if valid value && exists_ value
      then value' ← f value; set_item k value'
      else mret tt
  | None => mret tt
  end.

(** TruncateFile looks the name up as it is given. *)
Definition ac_TruncateFile (options : TruncateFileOptions)
    : go (AttrCache * N) (option error) :=
  err ← go_snd (c_TruncateFile next options);
  _ ← (if bool_decide (err = None)
       then update_existing (setSize (TruncateFile_Size options))
              (TruncateFile_Name options)
       else mret tt);
  mret err.

Definition ac_CopyFromFile (options : CopyFromFileOptions)
    : go (AttrCache * N) (option error) :=
  m ← preserved_metadata (CopyFromFile_Name options);
  match m with
  | inr e => mret (Some e)
  | inl md =>
      let options' := mkCopyFromFileOptions (CopyFromFile_Name options)
        (CopyFromFile_File options) (default (CopyFromFile_Metadata options) md) in
      err ← go_snd (c_CopyFromFile next options');
      _ ← (if bool_decide (err = None)
           then invalidatePath (CopyFromFile_Name options) else mret tt);
      mret err
  end.

Definition ac_SyncFile (options : SyncFileOptions) : go (AttrCache * N) (option error) :=
  err ← go_snd (c_SyncFile next options);
  _ ← (if bool_decide (err = None) then
         h ← load_handle (SyncFile_Handle options); invalidatePath (hPath h)
       else mret tt);
  mret err.

Definition ac_SyncDir (options : SyncDirOptions) : go (AttrCache * N) (option error) :=
  err ← go_snd (c_SyncDir next options);
  _ ← (if bool_decide (err = None)
       then invalidateDirectory (SyncDir_Name options) else mret tt);
  mret err.

Definition ac_CreateLink (options : CreateLinkOptions) : go (AttrCache * N) (option error) :=
  err ← go_snd (c_CreateLink next options);
  _ ← (if bool_decide (err = None) then
         _ ← invalidatePath (CreateLink_Name options);
         invalidatePath (CreateLink_Target options)
       else mret tt);
  mret err.

Definition ac_FlushFile (options : FlushFileOptions) : go (AttrCache * N) (option error) :=
  err ← go_snd (c_FlushFile next options);
  _ ← (if bool_decide (err = None) then
         h ← load_handle (FlushFile_Handle options); invalidatePath (hPath h)
       else mret tt);
  mret err.

Definition ac_Chmod (options : ChmodOptions) : go (AttrCache * N) (option error) :=
  err ← go_snd (c_Chmod next options);
  _ ← (if bool_decide (err = None)
       then update_existing (setMode (Chmod_Mode options))
              (TruncateDirName (Chmod_Name options))
       else mret tt);
  mret err.

Definition ac_Chown (options : ChownOptions) : go (AttrCache * N) (option error) :=
  err ← go_snd (c_Chown next options);
  mret err.

Definition ac_CommitData (options : CommitDataOptions) : go (AttrCache * N) (option error) :=
  err ← go_snd (c_CommitData next options);
  _ ← (if bool_decide (err = None)
       then invalidatePath (CommitData_Name options) else mret tt);
  mret err.
End component.
