(* ===== verification/AttrCacheSpec.v ===== *)
(** * The attribute cache is transparent

    What the next component promises the cache ([AttrService]), the invariant
    that ties the cache to it ([coh]) and the theorems: every operation
    preserves the invariant, and GetAttr answers as the next component would.
    [Memory] is a concrete component that keeps the promise. *)
From S2P Require Import Prelude GoLib Common HandleMap Internal AttrCache.

(** ** The contract of the next component *)

(** What a caller sees of an attribute, times and metadata apart.  The mode counts only
    when it is not flagged as default (libfuse shows the permissions of the mount then):
    block blobs do not store modes and set the flag. *)
Definition attr_eqv (a b : ObjAttr) : Prop :=
  Size a = Size b ∧ Path a = Path b ∧ Name a = Name b ∧ IsDir a = IsDir b ∧ IsSymlink a = IsSymlink b ∧
  IsModeDefault a = IsModeDefault b ∧ (IsModeDefault a = false → Mode a = Mode b).

#[export] Instance attr_eqv_equiv : Equivalence attr_eqv.
Proof.
  split; unfold attr_eqv.
  - intros a. done.
  - intros a b (? & ? & ? & ? & ? & Hd & Hm). split_and!; try done. rewrite <-Hd. intros. symmetry. auto.
  - intros a b c (? & ? & ? & ? & ? & Hd & Hm) (? & ? & ? & ? & ? & Hd' & Hm').
    split_and!; try congruence. intros Hf. rewrite Hm by done. apply Hm'. congruence.
Qed.
#[export] Instance attr_with_size_proper :
  Proper (eq ==> eq ==> attr_eqv ==> attr_eqv) attr_with_size.
Proof. intros ? t -> ? z -> a b (? & ? & ? & ? & ? & ? & ?). unfold attr_eqv. by cbn. Qed.
#[export] Instance attr_with_mode_proper :
  Proper (eq ==> eq ==> attr_eqv ==> attr_eqv) attr_with_mode.
Proof. intros ? t -> ? z -> a b (? & ? & ? & ? & ? & ? & ?). unfold attr_eqv. by cbn. Qed.

Lemma attr_with_size_time t t' z a : attr_eqv (attr_with_size t z a) (attr_with_size t' z a).
Proof. done. Qed.
Lemma attr_with_mode_time t t' z a : attr_eqv (attr_with_mode t z a) (attr_with_mode t' z a).
Proof. done. Qed.

(** Sets of keys: none, the key of one name, a directory and all below it. *)
Definition nowhere (k : string) : Prop := False.
Definition only (name k : string) : Prop := k = TruncateDirName name.
Definition under (name k : string) : Prop :=
  strings_HasPrefix k (ExtendDirName name) = true ∨ k = TruncateDirName name.

#[export] Instance only_dec name k : Decision (only name k).
Proof. unfold only. apply _. Defined.
#[export] Instance under_dec name k : Decision (under name k).
Proof. unfold under. apply _. Defined.

Section contract.
Context {N : Type} `{!Runtime N}.

(** An operation allocates but does not change attributes handed out before,
    keeps the names of open handles, changes the visible attributes at most at
    the keys of [F], and changes none of them when it fails. *)
Record changes (view : N → gmap string ObjAttr) (F : string → Prop)
    (e : option error) (n n' : N) : Prop := mkChanges {
  ch_objs : rt_objs n ⊆ rt_objs n';
  ch_handles p h : rt_handles n !! p = Some h →
    ∃ h', rt_handles n' !! p = Some h' ∧ hPath h' = hPath h;
  ch_error : e ≠ None → view n' = view n;
  ch_frame k : ¬ F k → view n' !! k = view n !! k
}.

(** A new attribute object that describes what the service has at [key]. *)
Definition describes (view : N → gmap string ObjAttr) (key : ObjAttr → string)
    (n n' : N) (p : ptr) : Prop :=
  rt_objs n !! p = None ∧
  ∃ a b, rt_objs n' !! p = Some a ∧ view n !! key a = Some b ∧ attr_eqv a b.

Definition has_handle (p : ptr) (path : string) (n : N) : Prop :=
  ∃ h, rt_handles n !! p = Some h ∧ hPath h = path.
End contract.

(** The next component does each operation completely or not at all: one that fails changes
    no attribute, and a delete or rename that succeeds leaves nothing behind.  (DeleteDirectory
    and RenameDirectory of block blobs may leave blobs behind and succeed; the cache then says
    that they do not exist until its entries time out.) *)
Class AttrService {N : Type} `{!Runtime N} (next : Component N) := {
  view : N → gmap string ObjAttr;
  view_set_objs m n : view (rt_set_objs m n) = view n;
  view_now n t n' : rt_now n = Ret (t, n') → view n' = view n;
  svc_CreateDir o n : wp (c_CreateDir next o) (λ e n',
    changes view (only (CreateDir_Name o)) e n n') n;
  svc_DeleteDir o n : wp (c_DeleteDir next o) (λ e n',
    changes view (under (DeleteDir_Name o)) e n n' ∧
    (e = None → ∀ k, under (DeleteDir_Name o) k → view n' !! k = None)) n;
  svc_ReadDir o n : wp (c_ReadDir next o) (λ r n',
    changes view nowhere r.2 n n' ∧ NoDup r.1 ∧
    Forall (describes view (λ a, TruncateDirName (Path a)) n n') r.1) n;
  svc_StreamDir o n : wp (c_StreamDir next o) (λ r n',
    changes view nowhere r.2 n n' ∧ NoDup r.1.1 ∧
    Forall (describes view (λ a, TruncateDirName (Path a)) n n') r.1.1) n;
  svc_RenameDir o n : wp (c_RenameDir next o) (λ e n',
    changes view (λ k, under (RenameDir_Src o) k ∨ under (RenameDir_Dst o) k) e n n' ∧
    (e = None → ∀ k, under (RenameDir_Src o) k → ¬ under (RenameDir_Dst o) k →
       view n' !! k = None)) n;
  svc_CreateFile o n : wp (c_CreateFile next o) (λ r n',
    changes view (only (CreateFile_Name o)) r.2 n n') n;
  svc_DeleteFile o n : wp (c_DeleteFile next o) (λ e n',
    changes view (only (DeleteFile_Name o)) e n n' ∧
    (e = None → view n' !! TruncateDirName (DeleteFile_Name o) = None)) n;
  svc_RenameFile o n : wp (c_RenameFile next o) (λ e n',
    changes view (λ k, only (RenameFile_Src o) k ∨ only (RenameFile_Dst o) k) e n n' ∧
    (e = None → ¬ only (RenameFile_Dst o) (TruncateDirName (RenameFile_Src o)) →
       view n' !! TruncateDirName (RenameFile_Src o) = None)) n;
  svc_WriteFile o path n : has_handle (WriteFile_Handle o) path n →
    wp (c_WriteFile next o) (λ r n', changes view (only path) r.2 n n') n;
  svc_TruncateFile o n : wp (c_TruncateFile next o) (λ e n',
    changes view (only (TruncateFile_Name o)) e n n' ∧
    (e = None → option_Forall2 attr_eqv
       (attr_with_size 0 (TruncateFile_Size o) <$> view n !! TruncateDirName (TruncateFile_Name o))
       (view n' !! TruncateDirName (TruncateFile_Name o)))) n;
  svc_CopyFromFile o n : wp (c_CopyFromFile next o) (λ e n',
    changes view (only (CopyFromFile_Name o)) e n n') n;
  svc_SyncFile o path n : has_handle (SyncFile_Handle o) path n →
    wp (c_SyncFile next o) (λ e n', changes view (only path) e n n') n;
  svc_SyncDir o n : wp (c_SyncDir next o) (λ e n',
    changes view (under (SyncDir_Name o)) e n n') n;
  svc_FlushFile o path n : has_handle (FlushFile_Handle o) path n →
    wp (c_FlushFile next o) (λ e n', changes view (only path) e n n') n;
  svc_CreateLink o n : wp (c_CreateLink next o) (λ e n',
    changes view (λ k, only (CreateLink_Name o) k ∨ only (CreateLink_Target o) k) e n n') n;
  svc_GetAttr o n : wp (c_GetAttr next o) (λ r n',
    changes view nowhere r.2 n n' ∧
    match r.2 with
    | None => describes view (λ _, TruncateDirName (GetAttr_Name o)) n n' r.1
    | Some e =>
        (r.1 = nil_ptr ∨ is_Some (rt_objs n' !! r.1)) ∧
        (e = Errno ENOENT → view n !! TruncateDirName (GetAttr_Name o) = None)
    end) n;
  svc_Chmod o n : wp (c_Chmod next o) (λ e n',
    changes view (only (Chmod_Name o)) e n n' ∧
    (e = None → option_Forall2 attr_eqv
       (attr_with_mode 0 (Chmod_Mode o) <$> view n !! TruncateDirName (Chmod_Name o))
       (view n' !! TruncateDirName (Chmod_Name o)))) n;
  svc_Chown o n : wp (c_Chown next o) (λ e n', changes view nowhere e n n') n;
  svc_CommitData o n : wp (c_CommitData next o) (λ e n',
    changes view (only (CommitData_Name o)) e n n') n
}.

(** ** The invariant *)

(** What an entry claims: nothing when it is invalid, that the key exists with
    the attribute [a], or that it does not exist. *)
Definition item_ok (v : attrCacheItem) (a : ObjAttr) (o : option ObjAttr) : Prop :=
  valid v = true →
  if exists_ v then ∃ b, o = Some b ∧ attr_eqv a b else o = None.

Lemma newAttrCacheItem_flags a b t :
  valid (newAttrCacheItem a b t) = true ∧ exists_ (newAttrCacheItem a b t) = b.
Proof. by destruct b. Qed.

Lemma deleted_flags p t f :
  valid (mkItem p t (Set_ (Clear f AttrFlagExists) AttrFlagValid)) = true ∧
  exists_ (mkItem p t (Set_ (Clear f AttrFlagExists) AttrFlagValid)) = false.
Proof.
  unfold valid, exists_; simpl. unfold AttrFlagExists, AttrFlagValid.
  split; by autorewrite with bitmap.
Qed.

Lemma invalidated_flags p t f : valid (mkItem p t (Clear f AttrFlagValid)) = false.
Proof. unfold valid; simpl. unfold AttrFlagValid. by autorewrite with bitmap. Qed.

Section transparency.
Context {N : Type} `{!Runtime N} `{!RuntimeLaws N}.
Context (next : Component N) `{!AttrService next}.

Abbreviation state := (AttrCache * N)%type.

(** The cache agrees with the service except at the keys of [F]; its objects
    are allocated and no two entries share one. *)
Record coh (F : string → Prop) (s : state) : Prop := mkCoh {
  coh_obj k v : cacheMap s.1 !! k = Some v → is_Some (rt_objs s.2 !! attr v);
  coh_inj k1 k2 v1 v2 :
    cacheMap s.1 !! k1 = Some v1 → cacheMap s.1 !! k2 = Some v2 →
    attr v1 = attr v2 → k1 = k2;
  coh_ok k v a :
    cacheMap s.1 !! k = Some v → rt_objs s.2 !! attr v = Some a → ¬ F k →
    item_ok v a (view s.2 !! k)
}.

Definition coherent : state → Prop := coh nowhere.

Record same (s s' : state) : Prop := mkSame {
  same_view : view s'.2 = view s.2;
  same_handles : rt_handles s'.2 = rt_handles s.2
}.
#[export] Instance same_preorder : PreOrder same.
Proof.
  split; [done|]. intros s1 s2 s3 [] []. split; congruence.
Qed.

Lemma coh_weaken F G s :
  coh F s → (∀ k, is_Some (cacheMap s.1 !! k) → ¬ G k → ¬ F k) → coh G s.
Proof.
  intros [Ho Hi Hk] HG. split; [done..|]. intros k v a Hv Ha HnG.
  apply (Hk _ _ _ Hv Ha). apply HG; eauto.
Qed.

Lemma coh_next F ac n n' e :
  coherent (ac, n) → changes view F e n n' → coh F (ac, n').
Proof.
  intros [Ho Hi Hk] Hch. split; simpl in *.
  - intros k v [a Ha]%Ho. exists a. exact (lookup_weaken _ _ _ _ Ha (ch_objs _ _ _ _ _ Hch)).
  - done.
  - intros k v a Hv Ha HnF. destruct (Ho _ _ Hv) as [a' Ha'].
    pose proof (lookup_weaken _ _ _ _ Ha' (ch_objs _ _ _ _ _ Hch)) as Ha''.
    rewrite Ha in Ha''. injection Ha'' as <-.
    rewrite (ch_frame _ _ _ _ _ Hch) by done. apply (Hk _ _ _ Hv Ha'). by intros [].
Qed.

Lemma changes_nowhere F e n n' :
  e ≠ None → changes view F e n n' → changes view nowhere e n n'.
Proof. intros He []. split; [done..|]. intros k _. by rewrite ch_error0. Qed.

(** Replacing the entry of [k]: the other entries keep their objects. *)
Lemma coh_insert F G ac n n' k v a :
  coh F (ac, n) → view n' = view n →
  rt_objs n' !! attr v = Some a →
  (∀ k' v', cacheMap ac !! k' = Some v' → k' ≠ k →
     attr v' ≠ attr v ∧ rt_objs n' !! attr v' = rt_objs n !! attr v') →
  (∀ k', ¬ G k' → k' = k ∨ ¬ F k') →
  (¬ G k → item_ok v a (view n !! k)) →
  coh G (with_cacheMap (<[k:=v]> (cacheMap ac)) ac, n').
Proof.
  intros [Ho Hi Hk] Hview Ha Hoth HG Hok. split; simpl in *.
  - intros k' v' Hv'. apply lookup_insert_Some in Hv' as [[<- <-]|[Hne Hv']]; [eauto|].
    destruct (Hoth k' v') as [_ ->]; eauto.
  - intros k1 k2 v1 v2 H1 H2 Heq.
    apply lookup_insert_Some in H1 as [[<- <-]|[Hne1 H1]];
    apply lookup_insert_Some in H2 as [[<- <-]|[Hne2 H2]]; [done|..].
    + by destruct (Hoth k2 v2 H2 ltac:(done)).
    + by destruct (Hoth k1 v1 H1 ltac:(done)).
    + eauto.
  - intros k' v' a' Hv' Ha' HnG. rewrite Hview.
    apply lookup_insert_Some in Hv' as [[<- <-]|[Hne Hv']].
    + rewrite Ha in Ha'. injection Ha' as <-. by apply Hok.
    + destruct (Hoth k' v' Hv') as [_ Heq]; [done|]. rewrite Heq in Ha'.
      apply (Hk _ _ _ Hv' Ha'). by destruct (HG k' HnG).
Qed.

(** Entries of the cache never point at an object that is not allocated. *)
Lemma coh_fresh F ac n k v p :
  coh F (ac, n) → rt_objs n !! p = None → cacheMap ac !! k = Some v → attr v ≠ p.
Proof. intros Hc Hp Hv <-. destruct (coh_obj _ _ Hc k v Hv) as [a Ha]. simpl in Ha. congruence. Qed.

(** ** Invalidating and deleting entries

    Both item operations give the entry a new, zero object; [P] is what has to
    be known of the key for the new entry to be right. *)
Definition zeroing (f : attrCacheItem → go state attrCacheItem)
    (P : option ObjAttr → Prop) : Prop :=
  ∀ v ac n, wp (f v) (λ v' s', ∃ n',
    s' = (ac, n') ∧ rt_objs n !! attr v' = None ∧
    rt_objs n' = <[attr v':=zero_ObjAttr]> (rt_objs n) ∧
    view n' = view n ∧ rt_handles n' = rt_handles n ∧
    ∀ o, P o → item_ok v' zero_ObjAttr o) (ac, n).

Lemma wp_new_obj (a : ObjAttr) (Q : ptr → state → Prop) ac n :
  (∀ p n', rt_objs n !! p = None → rt_objs n' = <[p:=a]> (rt_objs n) →
     view n' = view n → rt_handles n' = rt_handles n → Q p (ac, n')) →
  wp (new_obj a) Q (ac, n).
Proof.
  intros HQ. unfold wp, new_obj. apply HQ; simpl.
  - apply fresh_ptr_lookup.
  - by rewrite rt_objs_set.
  - by rewrite view_set_objs.
  - by rewrite rt_handles_set_objs.
Qed.

Lemma zeroing_markDeleted t : zeroing (markDeleted t) (λ o, o = None).
Proof.
  intros v ac n. unfold markDeleted. apply wp_bind, wp_new_obj.
  intros p n' Hp Ho Hv Hh. apply wp_ret. exists n'. split_and!; [done..|].
  intros o -> _. by rewrite (proj2 (deleted_flags _ _ _)).
Qed.

Lemma zeroing_invalidate : zeroing invalidate (λ _, True).
Proof.
  intros v ac n. unfold invalidate. apply wp_bind, wp_new_obj.
  intros p n' Hp Ho Hv Hh. apply wp_ret. exists n'. split_and!; [done..|].
  intros o _ Hval. by rewrite invalidated_flags in Hval.
Qed.

Section zeroing.
Context (f : attrCacheItem → go state attrCacheItem) (P : option ObjAttr → Prop).
Context (Hf : zeroing f P).

(** One entry is replaced. *)
Lemma wp_zero_entry F G s k v :
  coh F s → (∀ k', ¬ G k' → k' = k ∨ ¬ F k') → (¬ G k → P (view s.2 !! k)) →
  wp (v' ← f v; set_item k v') (λ _ s', coh G s' ∧ same s s') s.
Proof.
  destruct s as [ac n]. intros Hc HG HP. apply wp_bind. eapply wp_mono; [apply Hf|].
  intros v' s' (n' & -> & Hfr & Hobjs & Hview & Hh & Hok). unfold wp; simpl.
  split; [|done]. eapply (coh_insert F); [done|done| | |done|].
  - by rewrite Hobjs, lookup_insert_eq.
  - intros k' w Hw _. assert (attr w ≠ attr v') by by eapply coh_fresh.
    split; [done|]. by rewrite Hobjs, lookup_insert_ne.
  - eauto.
Qed.

Lemma wp_update_item F G s k :
  coh F s → (∀ k', ¬ G k' → k' = k ∨ ¬ F k') → (¬ G k → P (view s.2 !! k)) →
  wp (update_item f k) (λ _ s', coh G s' ∧ same s s') s.
Proof.
  intros Hc HG HP. unfold update_item. apply wp_bind. unfold wp at 1; simpl.
  destruct (cacheMap s.1 !! k) eqn:E; [by eapply wp_zero_entry|].
  apply wp_ret. split; [|done]. eapply coh_weaken; [done|].
  intros k' [? Hk'] HnG. destruct (HG k' HnG) as [->|]; [|done]. congruence.
Qed.

Lemma wp_prefix_loop G prefix (l : list (string * attrCacheItem)) s :
  coh (λ k, G k ∨ (strings_HasPrefix k prefix = true ∧ k ∈ l.*1)) s →
  (∀ k, strings_HasPrefix k prefix = true → ¬ G k → P (view s.2 !! k)) →
  wp (go_range (λ kv : string * attrCacheItem,
      if strings_HasPrefix kv.1 prefix
      then value' ← f kv.2; set_item kv.1 value' else mret tt) l)
    (λ _ s', coh G s' ∧ same s s') s.
Proof.
  revert s. induction l as [|[k v] l IH]; intros s Hc HP; simpl.
  { apply wp_ret. split; [|done]. eapply coh_weaken; [done|].
    intros k _ HnG [?|[_ ?%not_elem_of_nil]]; done. }
  apply wp_bind. destruct (strings_HasPrefix k prefix) eqn:Hpre.
  - eapply wp_mono.
    { eapply (wp_zero_entry _ (λ k, G k ∨ (strings_HasPrefix k prefix = true ∧ k ∈ l.*1)));
        [done| |].
      - intros k' Hk'. destruct (decide (k' = k)); [by left|right].
        rewrite fmap_cons, elem_of_cons; simpl. tauto.
      - intros Hn. apply HP; tauto. }
    intros [] s' [Hc' Hs]. eapply wp_mono.
    { apply IH; [done|]. by rewrite (same_view _ _ Hs). }
    intros [] s'' [Hc'' Hs']. split; [done|]. by transitivity s'.
  - apply wp_ret. apply IH; [|done]. eapply coh_weaken; [done|].
    intros k' _ Hn. rewrite fmap_cons, elem_of_cons; simpl.
    intros [?|[? [->|?]]]; [tauto|congruence|tauto].
Qed.

Lemma wp_update_prefix F G prefix s :
  coh F s → (∀ k, ¬ G k → strings_HasPrefix k prefix = true ∨ ¬ F k) →
  (∀ k, strings_HasPrefix k prefix = true → ¬ G k → P (view s.2 !! k)) →
  wp (update_prefix f prefix) (λ _ s', coh G s' ∧ same s s') s.
Proof.
  intros Hc HG HP. unfold update_prefix. apply wp_bind. unfold wp at 1; simpl.
  apply wp_prefix_loop; [|done]. eapply coh_weaken; [done|].
  intros k [v Hv] Hn HF. destruct (HG k) as [Hpre|]; [tauto| |done].
  apply Hn. right. split; [done|]. apply list_elem_of_fmap. exists (k, v).
  split; [done|]. by apply elem_of_map_to_list.
Qed.

(** A directory: the keys below it, then its own key. *)
Lemma wp_update_dir F G path s :
  coh F s → (∀ k, ¬ G k → under path k ∨ ¬ F k) →
  (∀ k, under path k → ¬ G k → P (view s.2 !! k)) →
  wp (_ ← update_prefix f (ExtendDirName path); update_item f (TruncateDirName path))
    (λ _ s', coh G s' ∧ same s s') s.
Proof.
  intros Hc HG HP. apply wp_bind. eapply wp_mono.
  { eapply (wp_update_prefix _ (λ k, G k ∨ k = TruncateDirName path)); [done| |].
    - intros k Hn. destruct (HG k) as [[]|]; tauto.
    - intros k Hk Hn. apply HP; unfold under; tauto. }
  intros [] s' [Hc' Hs]. eapply wp_mono.
  { eapply (wp_update_item _ G); [done| |].
    - intros k' Hn. simpl. destruct (decide (k' = TruncateDirName path)); tauto.
    - intros Hn. rewrite (same_view _ _ Hs). apply HP; [by right|done]. }
  intros [] s'' [? ?]. split; [done|]. by transitivity s'.
Qed.
End zeroing.

Lemma wp_deleteDirectory F G path t s :
  coh F s → (∀ k, F k → ¬ G k → under path k) →
  (∀ k, under path k → ¬ G k → view s.2 !! k = None) →
  wp (deleteDirectory path t) (λ _ s', coh G s' ∧ same s s') s.
Proof.
  intros Hc HF HP. eapply (wp_update_dir _ _ (zeroing_markDeleted t) F G); [done| |done].
  intros k Hn. destruct (decide (under path k)); [by left|right; eauto].
Qed.

Lemma wp_deletePath F G path t s :
  coh F s → (∀ k, F k → ¬ G k → only path k) →
  (¬ G (TruncateDirName path) → view s.2 !! TruncateDirName path = None) →
  wp (deletePath path t) (λ _ s', coh G s' ∧ same s s') s.
Proof.
  intros Hc HF HP. eapply (wp_update_item _ _ (zeroing_markDeleted t) F G); [done| |done].
  intros k Hn. destruct (decide (only path k)); [by left|right; eauto].
Qed.

(** ** Operations

    The cache is updated only when the call succeeded; a failed call changed
    nothing. *)
Lemma wp_after F ac n n' e (post : go state unit) :
  coherent (ac, n) → changes view F e n n' →
  (e = None → coh F (ac, n') → wp post (λ _, coherent) (ac, n')) →
  wp (if bool_decide (e = None) then post else mret tt) (λ _, coherent) (ac, n').
Proof.
  intros Hc Hch Hpost. case_bool_decide as He.
  - apply Hpost; [done|]. by eapply coh_next.
  - apply wp_ret. eapply coh_next; [done|]. by eapply changes_nowhere.
Qed.

Lemma coherent_invalidatePath F path s :
  coh F s → (∀ k, F k → only path k) → wp (invalidatePath path) (λ _, coherent) s.
Proof.
  intros Hc HF. eapply wp_mono.
  - eapply (wp_update_item _ _ zeroing_invalidate F nowhere); [done| |done].
    intros k _. destruct (decide (only path k)); [by left|right; eauto].
  - by intros [] s' [? _].
Qed.

Lemma coherent_invalidateDirectory F path s :
  coh F s → (∀ k, F k → under path k) → wp (invalidateDirectory path) (λ _, coherent) s.
Proof.
  intros Hc HF. eapply wp_mono.
  - eapply (wp_update_dir _ _ zeroing_invalidate F nowhere); [done| |done].
    intros k _. destruct (decide (under path k)); [by left|right; eauto].
  - by intros [] s' [? _].
Qed.

Lemma coherent_two F p1 p2 s :
  coh F s → (∀ k, F k → only p1 k ∨ only p2 k) →
  wp (_ ← invalidatePath p1; invalidatePath p2) (λ _, coherent) s.
Proof.
  intros Hc HF. apply wp_bind. eapply wp_mono.
  - eapply (wp_update_item _ _ zeroing_invalidate F (only p2)); [done| |done].
    intros k Hn. destruct (decide (only p1 k)); [by left|right].
    intros [?|?]%HF; done.
  - intros [] s' [Hc' _]. by eapply coherent_invalidatePath.
Qed.

(** The call, the update of the cache, the result. *)
Lemma coherent_call {A} (call : go N A) (err : A → option error) F (Post : A → N → Prop)
    (post : A → go state unit) ac n :
  coherent (ac, n) →
  wp call (λ r n', changes view F (err r) n n' ∧ Post r n') n →
  (∀ r n', err r = None → Post r n' → coh F (ac, n') →
     changes view F None n n' → wp (post r) (λ _, coherent) (ac, n')) →
  wp (r ← go_snd call; _ ← (if bool_decide (err r = None) then post r else mret tt); mret r)
    (λ _, coherent) (ac, n).
Proof.
  intros Hc Hcall Hpost. apply wp_bind, wp_snd. eapply wp_mono; [done|].
  intros r n' [Hch HP]. apply wp_bind. eapply wp_mono.
  - eapply wp_after; [done..|]. intros He Hc'. apply Hpost; [done..|]. by rewrite <-He.
  - intros [] s' Hs'. by apply wp_ret.
Qed.

Lemma wp_and_True {A} (m : go N A) (Q : A → N → Prop) n :
  wp m Q n → wp m (λ r n', Q r n' ∧ True) n.
Proof. intros H. eapply wp_mono; [done|]. done. Qed.

Lemma coherent_CreateFile o s : coherent s → wp (ac_CreateFile next o) (λ _, coherent) s.
Proof.
  destruct s as [ac n]. intros Hc. eapply (coherent_call _ snd _ (λ _ _, True));
    [done|apply wp_and_True, svc_CreateFile|].
  intros r n' _ _ Hc' _. by eapply coherent_invalidatePath.
Qed.

Lemma coherent_CommitData o s : coherent s → wp (ac_CommitData next o) (λ _, coherent) s.
Proof.
  destruct s as [ac n]. intros Hc. eapply (coherent_call _ id _ (λ _ _, True));
    [done|apply wp_and_True, svc_CommitData|].
  intros r n' _ _ Hc' _. by eapply coherent_invalidatePath.
Qed.

Lemma coherent_SyncDir o s : coherent s → wp (ac_SyncDir next o) (λ _, coherent) s.
Proof.
  destruct s as [ac n]. intros Hc. eapply (coherent_call _ id _ (λ _ _, True));
    [done|apply wp_and_True, svc_SyncDir|].
  intros r n' _ _ Hc' _. by eapply coherent_invalidateDirectory.
Qed.

Lemma coherent_CreateLink o s : coherent s → wp (ac_CreateLink next o) (λ _, coherent) s.
Proof.
  destruct s as [ac n]. intros Hc. eapply (coherent_call _ id _ (λ _ _, True));
    [done|apply wp_and_True, svc_CreateLink|].
  intros r n' _ _ Hc' _. by eapply coherent_two.
Qed.

Lemma coherent_Chown o s : coherent s → wp (ac_Chown next o) (λ _, coherent) s.
Proof.
  destruct s as [ac n]. intros Hc. apply wp_bind, wp_snd.
  eapply wp_mono; [apply svc_Chown|]. intros e n' Hch. apply wp_ret. exact (coh_next _ _ _ _ _ Hc Hch).
Qed.

(** CreateDir also invalidates the entry when the directory was there. *)
Lemma coherent_CreateDir o s : coherent s → wp (ac_CreateDir next o) (λ _, coherent) s.
Proof.
  destruct s as [ac n]. intros Hc. apply wp_bind, wp_snd.
  eapply wp_mono; [apply svc_CreateDir|]. intros e n' Hch.
  pose proof (coh_next _ _ _ _ _ Hc Hch) as Hc'. apply wp_bind.
  eapply (wp_mono _ (λ _, coherent)); [|by intros [] s' Hs'; apply wp_ret].
  destruct (bool_decide (e = None) || err_is e (Errno EEXIST)) eqn:E.
  - by eapply coherent_invalidatePath.
  - apply wp_ret. assert (He : e ≠ None) by by intros ->.
    exact (coh_next _ _ _ _ _ Hc (changes_nowhere _ _ _ _ He Hch)).
Qed.

Lemma wp_clock (Q : Time → state → Prop) F ac n :
  coh F (ac, n) → (∀ t n', coh F (ac, n') → same (ac, n) (ac, n') →
    rt_objs n' = rt_objs n → Q t (ac, n')) →
  wp rt_now Q (ac, n).
Proof.
  intros Hc HQ. apply wp_snd, wp_now. intros t n' Hnow Hobjs Hh.
  pose proof (view_now _ _ _ Hnow) as Hv. apply HQ; [|done..].
  destruct Hc as [Ho Hi Hk]. split; simpl in *; rewrite ?Hobjs, ?Hv; eauto.
Qed.

Lemma coherent_DeleteFile o s : coherent s → wp (ac_DeleteFile next o) (λ _, coherent) s.
Proof.
  destruct s as [ac n]. intros Hc.
  eapply (coherent_call _ id _ (λ e n', e = None → view n' !! _ = None)
            (λ _, now ← rt_now; deletePath (DeleteFile_Name o) now));
    [done|apply svc_DeleteFile|].
  intros r n' He HP Hc' _. apply wp_bind. eapply wp_clock; [done|]. intros t n'' Hc'' Hs _.
  eapply wp_mono; [eapply (wp_deletePath _ nowhere); [done|eauto|]|by intros [] ? []].
  intros _. rewrite (same_view _ _ Hs). by apply HP.
Qed.

Lemma coherent_RenameFile o s : coherent s → wp (ac_RenameFile next o) (λ _, coherent) s.
Proof.
  destruct s as [ac n]. intros Hc.
  eapply (coherent_call _ id _ (λ e n', e = None → _ → view n' !! _ = None)
    (λ _, now ← rt_now; _ ← deletePath (RenameFile_Src o) now;
          invalidatePath (RenameFile_Dst o))); [done|apply svc_RenameFile|].
  intros r n' He HP Hc' _. apply wp_bind. eapply wp_clock; [done|]. intros t n'' Hc'' Hs _.
  apply wp_bind. eapply wp_mono.
  - eapply (wp_deletePath _ (only (RenameFile_Dst o))); [done|by intros k [] ?|].
    rewrite (same_view _ _ Hs). by apply HP.
  - intros [] s' [? _]. by eapply coherent_invalidatePath.
Qed.

Lemma coherent_DeleteDir o s : coherent s → wp (ac_DeleteDir next o) (λ _, coherent) s.
Proof.
  destruct s as [ac n]. intros Hc. apply wp_bind. eapply wp_clock; [done|]. intros t n1 Hc1 _ _.
  eapply (coherent_call _ id _ (λ e n', e = None → ∀ k, _ → view n' !! k = None)
    (λ _, deleteDirectory (DeleteDir_Name o) t)); [done|apply svc_DeleteDir|].
  intros r n' He HP Hc' _.
  eapply wp_mono; [eapply (wp_deleteDirectory _ nowhere); [done|done|]|by intros [] ? []].
  intros k Hk _. by apply HP.
Qed.

Lemma coherent_RenameDir o s : coherent s → wp (ac_RenameDir next o) (λ _, coherent) s.
Proof.
  destruct s as [ac n]. intros Hc. apply wp_bind. eapply wp_clock; [done|]. intros t n1 Hc1 _ _.
  eapply (coherent_call _ id _ (λ e n', e = None → ∀ k, _ → _ → view n' !! k = None)
    (λ _, _ ← deleteDirectory (RenameDir_Src o) t;
          invalidateDirectory (RenameDir_Dst o))); [done|apply svc_RenameDir|].
  intros r n' He HP Hc' _. apply wp_bind. eapply wp_mono.
  - eapply (wp_deleteDirectory _ (under (RenameDir_Dst o))); [done|by intros k [] ?|].
    intros k Hk Hn. by apply HP.
  - intros [] s' [? _]. by eapply coherent_invalidateDirectory.
Qed.

(** ** Listing *)
Definition listed (s : state) (p : ptr) : Prop :=
  (∀ k v, cacheMap s.1 !! k = Some v → attr v ≠ p) ∧
  ∃ a b, rt_objs s.2 !! p = Some a ∧
    view s.2 !! TruncateDirName (Path a) = Some b ∧ attr_eqv a b.

Lemma coherent_cacheAttributes_loop t l s :
  coherent s → NoDup l → Forall (listed s) l →
  wp (cacheAttributes_loop t l) (λ _, coherent) s.
Proof.
  revert s. induction l as [|p l IH]; intros [ac n] Hc Hnd Hl; [by apply wp_ret|].
  apply NoDup_cons in Hnd as [Hp Hnd].
  apply Forall_cons in Hl as [(Hnew & a & b & Ha & Hb & Heq) Hl]. simpl in *.
  apply wp_bind. unfold wp at 1; simpl.
  destruct (maxFiles ac <? Z.of_nat (size (cacheMap ac))); [by apply wp_ret|].
  apply wp_bind. eapply wp_load_obj; [done|]. apply wp_bind. unfold wp at 1; simpl.
  apply IH; [|done|].
  - eapply (coh_insert nowhere); simpl; [done|done|done| |by right|].
    + intros k' v' Hv' _. split; [by eapply Hnew|done].
    + intros _ _. rewrite (proj2 (newAttrCacheItem_flags _ _ _)). eauto.
  - rewrite Forall_forall in Hl |- *. intros q Hq. destruct (Hl q Hq) as [Hnew' Hex].
    split; [|done]. simpl. intros k v [[_ <-]|[_ Hv]]%lookup_insert_Some; [|by eapply Hnew'].
    simpl. intros ->. done.
Qed.

Lemma coherent_cacheAttributes l ac n n' e F :
  coherent (ac, n) → changes view F e n n' → coherent (ac, n') → view n' = view n → NoDup l →
  Forall (describes view (λ a, TruncateDirName (Path a)) n n') l →
  wp (cacheAttributes l) (λ _, coherent) (ac, n').
Proof.
  intros Hc0 Hch Hc Hv Hnd Hl. unfold cacheAttributes. apply wp_bind. unfold wp at 1; simpl.
  destruct (_ && _); [|by apply wp_ret]. apply wp_bind. eapply wp_clock; [done|].
  intros t n2 Hc2 Hs Hobjs. apply coherent_cacheAttributes_loop; [done..|].
  eapply Forall_impl; [done|]. intros p (Hnew & a & b & Ha & Hb & Heq). split; simpl.
  - intros k v Hk. by eapply (coh_fresh nowhere ac n).
  - exists a, b. rewrite Hobjs. split_and!; [done| |done].
    pose proof (same_view _ _ Hs) as Hsv. simpl in Hsv. by rewrite Hsv, Hv.
Qed.

Lemma view_nowhere e n n' : changes view nowhere e n n' → view n' = view n.
Proof. intros Hch. apply map_eq. intros k. apply (ch_frame _ _ _ _ _ Hch). by intros []. Qed.

Lemma coherent_ReadDir o s : coherent s → wp (ac_ReadDir next o) (λ _, coherent) s.
Proof.
  destruct s as [ac n]. intros Hc.
  eapply (coherent_call _ snd _ (λ r n', _) (λ r, cacheAttributes r.1));
    [done|apply svc_ReadDir|].
  intros r n' He [Hnd Hl] Hc' Hch. apply (coherent_cacheAttributes _ ac n n' None nowhere);
    [done..| |done|done]. by apply view_nowhere in Hch.
Qed.

Lemma coherent_StreamDir o s : coherent s → wp (ac_StreamDir next o) (λ _, coherent) s.
Proof.
  destruct s as [ac n]. intros Hc.
  eapply (coherent_call _ snd _ (λ r n', _) (λ r, cacheAttributes r.1.1));
    [done|apply svc_StreamDir|].
  intros r n' He [Hnd Hl] Hc' Hch. apply (coherent_cacheAttributes _ ac n n' None nowhere);
    [done..| |done|done]. by apply view_nowhere in Hch.
Qed.

(** ** Reading attributes

    [answers]: the result agrees with what the service has. *)
Definition answers (name : string) (m : gmap string ObjAttr)
    (r : ptr * option error) (s : state) : Prop :=
  match r.2 with
  | None => ∃ a b, rt_objs s.2 !! r.1 = Some a ∧
              m !! TruncateDirName name = Some b ∧ attr_eqv a b
  | Some e =>
      (r.1 = nil_ptr ∨ is_Some (rt_objs s.2 !! r.1)) ∧
      (e = Errno ENOENT → m !! TruncateDirName name = None)
  end.

(** A state in which the view is the same and open handles keep their names. *)
Definition kept (s s' : state) : Prop :=
  view s'.2 = view s.2 ∧
  ∀ p path, has_handle p path s.2 → has_handle p path s'.2.

Lemma same_kept s s' : same s s' → kept s s'.
Proof. intros [Hv Hh]. split; [done|]. unfold has_handle. by rewrite Hh. Qed.

Lemma changes_has_handle F e n n' p path :
  changes view F e n n' → has_handle p path n → has_handle p path n'.
Proof.
  intros Hch (h & Hh & <-). destruct (ch_handles _ _ _ _ _ Hch _ _ Hh) as (h' & Hh' & Hp).
  by exists h'.
Qed.

(** Served from the cache: the next component is not asked. *)
Lemma wp_GetAttr_cached o s :
  coherent s →
  wp (GetAttr_cached o (TruncateDirName (GetAttr_Name o))) (λ hit s',
    coherent s' ∧ same s s' ∧
    match hit with Some r => answers (GetAttr_Name o) (view s.2) r s' | None => True end) s.
Proof.
  destruct s as [ac n]. intros Hc. unfold GetAttr_cached. set (k := TruncateDirName _).
  apply wp_bind. unfold wp at 1; simpl.
  destruct (cacheMap ac !! k) as [v|] eqn:Hk; [|by apply wp_ret].
  destruct (valid v) eqn:Hval; [|by apply wp_ret].
  apply wp_bind. eapply wp_clock; [done|]. intros t n1 Hc1 Hs1 Hobjs1.
  destruct (not_expired ac v t); [|by apply wp_ret].
  destruct (coh_obj _ _ Hc1 _ _ Hk) as [a Ha].
  pose proof (coh_ok _ _ Hc1 _ _ _ Hk Ha (λ x, x) Hval) as Hok. simpl in *.
  pose proof (same_view _ _ Hs1) as Hv1. simpl in Hv1. rewrite Hv1 in Hok.
  unfold isDeleted. destruct (exists_ v) eqn:Hex; simpl.
  - apply wp_bind. eapply wp_load_obj; [done|]. destruct (_ || _); [|by apply wp_ret].
    apply wp_ret. split_and!; [done..|]. unfold answers; simpl.
    destruct Hok as (b & Hb & Heq). eauto.
  - apply wp_bind, wp_new_obj. intros p n2 Hp Ho Hv Hh. apply wp_ret. split_and!.
    + eapply (coh_weaken nowhere); [|done].
      destruct Hc1 as [Hob Hin Hko]. split; simpl in *.
      * intros k' v' [a' Ha']%Hob. exists a'. rewrite Ho. rewrite lookup_insert_ne; congruence.
      * done.
      * intros k' v' a' Hv' Ha' Hn. rewrite Hv. apply (Hko _ _ _ Hv'); [|done].
        destruct (Hob _ _ Hv') as [a2 Ha2]. rewrite Ho, lookup_insert_ne in Ha'; congruence.
    + split; simpl; destruct Hs1; simpl in *; congruence.
    + unfold answers; simpl. split; [right|done]. rewrite Ho, lookup_insert_eq. eauto.
Qed.

(** Fetched from the next component and remembered. *)
Lemma wp_GetAttr_fetch o s :
  coherent s →
  wp (GetAttr_fetch next o (TruncateDirName (GetAttr_Name o))) (λ r s',
    coherent s' ∧ kept s s' ∧ answers (GetAttr_Name o) (view s.2) r s') s.
Proof.
  destruct s as [ac n]. intros Hc. unfold GetAttr_fetch. set (k := TruncateDirName _).
  apply wp_bind, wp_snd. eapply wp_mono; [apply svc_GetAttr|].
  intros [p e] n1 [Hch Hpost]. simpl in *.
  pose proof (coh_next _ _ _ _ _ Hc Hch) as Hc1.
  pose proof (view_nowhere _ _ _ Hch) as Hv1.
  assert (Hk1 : kept (ac, n) (ac, n1)).
  { split; [done|]. intros. by eapply changes_has_handle. }
  apply wp_bind. case_bool_decide as He; [subst e|destruct (err_is e (Errno ENOENT)) eqn:He'].
  - destruct Hpost as (Hp & a & b & Ha & Hb & Heq). unfold answers; simpl.
    apply wp_bind. unfold wp at 1; simpl. case_match; cycle 1.
    { apply wp_ret, wp_ret. simpl. eauto 8. }
    apply wp_bind. eapply wp_clock; [done|]. intros t n2 Hc2 Hs2 Hobjs2.
    unfold wp at 1; simpl. apply wp_ret. simpl. rewrite Hobjs2. split_and!; [| |eauto].
    + eapply (coh_insert nowhere nowhere ac n2 n2 k (newAttrCacheItem p true t)); simpl;
        [done|done|by rewrite Hobjs2| |by right|].
      * intros k' v' Hv' _. split; [|done]. by eapply (coh_fresh nowhere ac n).
      * intros _ _. rewrite (proj2 (newAttrCacheItem_flags _ _ _)). exists b.
        destruct Hs2 as [Hv2 _]. simpl in Hv2. by rewrite Hv2, Hv1.
    + destruct (same_kept _ _ Hs2), Hk1. split; [simpl in *; congruence|eauto].
  - apply bool_decide_eq_true in He' as ->. destruct Hpost as [Hp HN]. specialize (HN eq_refl).
    apply wp_bind, wp_new_obj. intros q n2 Hq Hobjs2 Hv2 Hh2.
    assert (Hs2 : same (ac, n1) (ac, n2)) by done.
    apply wp_bind, wp_snd, wp_now. intros t n3 Hnow Hobjs3 Hh3.
    pose proof (view_now _ _ _ Hnow) as Hv3.
    assert (Hs3 : same (ac, n1) (ac, n3)) by (split; simpl; congruence).
    unfold wp at 1; simpl. apply wp_ret. split_and!.
    + eapply (coh_insert nowhere nowhere ac n1 n3 k (newAttrCacheItem q false t)); simpl;
        [done|congruence|by rewrite Hobjs3, Hobjs2, lookup_insert_eq| |by right|].
      * intros k' v' Hv' _. assert (attr v' ≠ q) by by eapply (coh_fresh nowhere ac n1).
        split; [done|]. by rewrite Hobjs3, Hobjs2, lookup_insert_ne.
      * intros _ _. rewrite (proj2 (newAttrCacheItem_flags _ _ _)). by rewrite Hv1.
    + destruct (same_kept _ _ Hs3), Hk1. split; [simpl in *; congruence|eauto].
    + unfold answers; simpl. split; [|done].
      destruct Hp as [?|[a Ha]]; [by left|right]. rewrite Hobjs3, Hobjs2.
      destruct (decide (q = p)) as [->|]; [rewrite lookup_insert_eq; eauto|].
      rewrite lookup_insert_ne by done. eauto.
  - apply wp_ret, wp_ret. split_and!; [done..|]. unfold answers; simpl. by destruct e.
Qed.

Lemma wp_GetAttr o s :
  coherent s →
  wp (ac_GetAttr next o) (λ r s',
    coherent s' ∧ kept s s' ∧ answers (GetAttr_Name o) (view s.2) r s') s.
Proof.
  intros Hc. unfold ac_GetAttr. apply wp_bind.
  eapply wp_mono; [by apply wp_GetAttr_cached|]. intros [r|] s' (Hc' & Hs & Hr).
  - apply wp_ret. split_and!; [done|by apply same_kept|done].
  - eapply wp_mono; [by apply wp_GetAttr_fetch|]. intros r s'' (Hc'' & Hk & Ha).
    destruct (same_kept _ _ Hs) as [Hv Hh], Hk as [Hv' Hh']. split_and!; [done| |].
    + split; [congruence|eauto].
    + by rewrite <-Hv.
Qed.

(** ** Writing *)
Lemma wp_preserved_metadata name s :
  coherent s →
  wp (preserved_metadata next name) (λ _ s', coherent s' ∧ kept s s') s.
Proof.
  intros Hc. unfold preserved_metadata. apply wp_bind.
  eapply wp_mono; [by apply wp_GetAttr|]. intros [p e] s' (Hc' & Hk & Ha).
  unfold answers in Ha. simpl in *.
  destruct e as [e|].
  - destruct Ha as [Hp _]. destruct (_ || _); [|by apply wp_ret].
    destruct (decide (p = nil_ptr)) as [|Hne]; [by apply wp_ret|].
    destruct Hp as [|[a Ha]]; [done|]. apply wp_bind. eapply wp_load_obj; [done|]. by apply wp_ret.
  - destruct (decide (p = nil_ptr)) as [|Hne]; [by apply wp_ret|].
    destruct Ha as (a & b & Ha & _). apply wp_bind. eapply wp_load_obj; [done|]. by apply wp_ret.
Qed.

Lemma coherent_CopyFromFile o s : coherent s → wp (ac_CopyFromFile next o) (λ _, coherent) s.
Proof.
  intros Hc. unfold ac_CopyFromFile. apply wp_bind.
  eapply wp_mono; [by apply wp_preserved_metadata|]. intros [md|e] [ac n] [Hc' _]; [|by apply wp_ret].
  eapply (coherent_call _ id _ (λ _ _, True) (λ _, invalidatePath (CopyFromFile_Name o)));
    [done|apply wp_and_True, svc_CopyFromFile|].
  intros r n' _ _ Hc2 _. by eapply coherent_invalidatePath.
Qed.

(** An operation on a handle invalidates the entry of the handle's path. *)
Lemma coherent_invalidateHandle p path F e ac n n' :
  has_handle p path n → changes view F e n n' → coh (only path) (ac, n') →
  wp (h ← load_handle p; invalidatePath (hPath h)) (λ _, coherent) (ac, n').
Proof.
  intros Hh Hch Hc. destruct (changes_has_handle _ _ _ _ _ _ Hch Hh) as (h & Hl & <-).
  apply wp_bind. eapply wp_load_handle; [done|]. by eapply coherent_invalidatePath.
Qed.

Lemma coherent_WriteFile o path s :
  coherent s → has_handle (WriteFile_Handle o) path s.2 →
  wp (ac_WriteFile next o) (λ _, coherent) s.
Proof.
  intros Hc Hh. unfold ac_WriteFile. apply wp_bind. destruct Hh as (h & Hh & Hp).
  eapply wp_load_handle; [done|]. apply wp_bind.
  eapply wp_mono; [by apply wp_preserved_metadata|].
  intros [md|e] [ac n] [Hc' [_ Hk]]; [|by apply wp_ret].
  assert (Hh' : has_handle (WriteFile_Handle o) path n) by (apply Hk; by exists h).
  eapply (coherent_call _ snd (only path) (λ _ _, True)); [done|by apply wp_and_True, svc_WriteFile|].
  intros r n' _ _ Hc2 Hch. by eapply coherent_invalidateHandle.
Qed.

Lemma coherent_SyncFile o path s :
  coherent s → has_handle (SyncFile_Handle o) path s.2 →
  wp (ac_SyncFile next o) (λ _, coherent) s.
Proof.
  destruct s as [ac n]. intros Hc Hh.
  eapply (coherent_call _ id (only path) (λ _ _, True)
    (λ _, h ← load_handle (SyncFile_Handle o); invalidatePath (hPath h)));
    [done|by apply wp_and_True, svc_SyncFile|].
  intros r n' _ _ Hc2 Hch. by eapply coherent_invalidateHandle.
Qed.

Lemma coherent_FlushFile o path s :
  coherent s → has_handle (FlushFile_Handle o) path s.2 →
  wp (ac_FlushFile next o) (λ _, coherent) s.
Proof.
  destruct s as [ac n]. intros Hc Hh.
  eapply (coherent_call _ id (only path) (λ _ _, True)
    (λ _, h ← load_handle (FlushFile_Handle o); invalidatePath (hPath h)));
    [done|by apply wp_and_True, svc_FlushFile|].
  intros r n' _ _ Hc2 Hch. by eapply coherent_invalidateHandle.
Qed.

(** ** Updating an attribute in place

    [setSize] and [setMode] store to the object of a valid entry: [g] is the
    update up to times. *)
Definition updating (f : attrCacheItem → go state attrCacheItem)
    (g : ObjAttr → ObjAttr) : Prop :=
  ∀ v a ac n, rt_objs n !! attr v = Some a →
  wp (f v) (λ v' s', ∃ n' a', s' = (ac, n') ∧ attr v' = attr v ∧ attrFlag v' = attrFlag v ∧
    rt_objs n' = <[attr v:=a']> (rt_objs n) ∧ view n' = view n ∧ attr_eqv a' (g a)) (ac, n).

Lemma wp_now_raw (Q : Time → state → Prop) ac n :
  (∀ t n', rt_objs n' = rt_objs n → view n' = view n → Q t (ac, n')) → wp rt_now Q (ac, n).
Proof.
  intros HQ. apply wp_snd, wp_now. intros t n' Hnow Hobjs _.
  apply HQ; [done|by eapply view_now].
Qed.

Lemma updating_setSize z : updating (setSize z) (attr_with_size 0 z).
Proof.
  intros v a ac n Ha. unfold setSize. apply wp_bind. eapply wp_load_obj; [done|].
  apply wp_bind, wp_now_raw. intros t n1 Ho1 Hv1. apply wp_bind.
  eapply wp_store_obj; [simpl; by rewrite Ho1|]. apply wp_bind, wp_now_raw.
  intros t2 n2 Ho2 Hv2. apply wp_ret. exists n2, (attr_with_size t z a). split_and!; try done.
  - rewrite Ho2, rt_objs_set. simpl. by rewrite Ho1.
  - by rewrite Hv2, view_set_objs.
Qed.

Lemma updating_setMode m : updating (setMode m) (attr_with_mode 0 m).
Proof.
  intros v a ac n Ha. unfold setMode. apply wp_bind. eapply wp_load_obj; [done|].
  apply wp_bind, wp_now_raw. intros t n1 Ho1 Hv1. apply wp_bind.
  eapply wp_store_obj; [simpl; by rewrite Ho1|]. apply wp_bind, wp_now_raw.
  intros t2 n2 Ho2 Hv2. apply wp_ret. exists n2, (attr_with_mode t m a). split_and!; try done.
  - rewrite Ho2, rt_objs_set. simpl. by rewrite Ho1.
  - by rewrite Hv2, view_set_objs.
Qed.

(** The service applied [g] at [k] and the cache follows. *)
Lemma coherent_update_existing f g k ac n n' e name :
  updating f g → Proper (attr_eqv ==> attr_eqv) g →
  coherent (ac, n) → changes view (only name) e n n' → k = TruncateDirName name →
  option_Forall2 attr_eqv (g <$> view n !! k) (view n' !! k) →
  wp (update_existing f k) (λ _, coherent) (ac, n').
Proof.
  intros Hf Hg Hc Hch -> Hpost. pose proof (coh_next _ _ _ _ _ Hc Hch) as Hc'.
  set (k := TruncateDirName name) in *. unfold update_existing.
  apply wp_bind. unfold wp at 1; simpl.
  assert (Hskip : (∀ v, cacheMap ac !! k = Some v → valid v && exists_ v = false) →
    coherent (ac, n')).
  { intros Hnv. destruct Hc' as [Ho Hi Hk]. split; [done..|]. intros k' v a Hv Ha _.
    destruct (decide (k' = k)) as [->|Hne]; [|by apply (Hk _ _ _ Hv Ha)].
    intros Hval. specialize (Hnv _ Hv). rewrite Hval in Hnv. simpl in Hnv. rewrite Hnv.
    destruct (coh_obj _ _ Hc _ _ Hv) as [a0 Ha0].
    pose proof (coh_ok _ _ Hc _ _ _ Hv Ha0 (λ x, x) Hval) as H. rewrite Hnv in H.
    simpl in H. rewrite H in Hpost. simpl. by inversion Hpost. }
  destruct (cacheMap ac !! k) as [v|] eqn:Hk; [|apply wp_ret, Hskip; done].
  destruct (valid v && exists_ v) eqn:Hve;
    [|apply wp_ret, Hskip; intros ? [= <-]; done].
  apply andb_true_iff in Hve as [Hval Hex].
  destruct (coh_obj _ _ Hc _ _ Hk) as [a Ha]. simpl in Ha.
  pose proof (coh_ok _ _ Hc _ _ _ Hk Ha (λ x, x) Hval) as H. rewrite Hex in H.
  destruct H as (b & Hb & Heq). simpl in Hb. rewrite Hb in Hpost.
  inversion Hpost as [? b' Heq' Hx Hb'|]; subst.
  apply wp_bind. eapply wp_mono.
  { apply Hf. exact (lookup_weaken _ _ _ _ Ha (ch_objs _ _ _ _ _ Hch)). }
  intros v' s' (n2 & a' & -> & Hat & Hfl & Hobjs & Hv2 & Ha'). unfold wp; simpl.
  eapply (coh_insert (only name)); simpl; [done|done| | | |].
  - rewrite Hat, Hobjs. apply lookup_insert_eq.
  - intros k' w Hw Hne. assert (attr w ≠ attr v).
    { intros Hcontra. by apply (coh_inj _ _ Hc' k' k w v Hw Hk) in Hcontra. }
    rewrite Hat. split; [done|]. by rewrite Hobjs, lookup_insert_ne.
  - intros k' _. destruct (decide (only name k')); [by left|by right].
  - intros _ _. unfold exists_ in *. rewrite Hfl, Hex. exists b'. split; [done|].
    etransitivity; [exact Ha'|]. etransitivity; [|exact Heq']. by apply Hg.
Qed.

Lemma coherent_TruncateFile o s :
  coherent s → TruncateDirName (TruncateFile_Name o) = TruncateFile_Name o →
  wp (ac_TruncateFile next o) (λ _, coherent) s.
Proof.
  destruct s as [ac n]. intros Hc Hname.
  eapply (coherent_call _ id _ (λ e n', e = None → _)
    (λ _, update_existing (setSize (TruncateFile_Size o)) (TruncateFile_Name o)));
    [done|apply svc_TruncateFile|].
  intros r n' He HP _ Hch. rewrite Hname in HP.
  eapply (coherent_update_existing _ (attr_with_size 0 (TruncateFile_Size o)));
    [apply updating_setSize|by apply attr_with_size_proper|exact Hc|exact Hch|done|by apply HP].
Qed.

Lemma coherent_Chmod o s : coherent s → wp (ac_Chmod next o) (λ _, coherent) s.
Proof.
  destruct s as [ac n]. intros Hc.
  eapply (coherent_call _ id _ (λ e n', e = None → _)
    (λ _, update_existing (setMode (Chmod_Mode o)) (TruncateDirName (Chmod_Name o))));
    [done|apply svc_Chmod|].
  intros r n' He HP _ Hch.
  eapply (coherent_update_existing _ (attr_with_mode 0 (Chmod_Mode o)));
    [apply updating_setMode|by apply attr_with_mode_proper|exact Hc|exact Hch|done|by apply HP].
Qed.

(** ** Runs of the component *)
Inductive ac_op :=
  | OpCreateDir (o : CreateDirOptions) | OpDeleteDir (o : DeleteDirOptions)
  | OpReadDir (o : ReadDirOptions) | OpStreamDir (o : StreamDirOptions)
  | OpRenameDir (o : RenameDirOptions) | OpCreateFile (o : CreateFileOptions)
  | OpDeleteFile (o : DeleteFileOptions) | OpRenameFile (o : RenameFileOptions)
  | OpWriteFile (o : WriteFileOptions) | OpTruncateFile (o : TruncateFileOptions)
  | OpCopyFromFile (o : CopyFromFileOptions) | OpSyncFile (o : SyncFileOptions)
  | OpSyncDir (o : SyncDirOptions) | OpGetAttr (o : GetAttrOptions)
  | OpCreateLink (o : CreateLinkOptions) | OpFlushFile (o : FlushFileOptions)
  | OpChmod (o : ChmodOptions) | OpChown (o : ChownOptions)
  | OpCommitData (o : CommitDataOptions).

Definition void {A} (m : go state A) : go state unit := _ ← m; mret tt.

Definition exec (op : ac_op) : go state unit :=
  match op with
  | OpCreateDir o => void (ac_CreateDir next o)
  | OpDeleteDir o => void (ac_DeleteDir next o)
  | OpReadDir o => void (ac_ReadDir next o)
  | OpStreamDir o => void (ac_StreamDir next o)
  | OpRenameDir o => void (ac_RenameDir next o)
  | OpCreateFile o => void (ac_CreateFile next o)
  | OpDeleteFile o => void (ac_DeleteFile next o)
  | OpRenameFile o => void (ac_RenameFile next o)
  | OpWriteFile o => void (ac_WriteFile next o)
  | OpTruncateFile o => void (ac_TruncateFile next o)
  | OpCopyFromFile o => void (ac_CopyFromFile next o)
  | OpSyncFile o => void (ac_SyncFile next o)
  | OpSyncDir o => void (ac_SyncDir next o)
  | OpGetAttr o => void (ac_GetAttr next o)
  | OpCreateLink o => void (ac_CreateLink next o)
  | OpFlushFile o => void (ac_FlushFile next o)
  | OpChmod o => void (ac_Chmod next o)
  | OpChown o => void (ac_Chown next o)
  | OpCommitData o => void (ac_CommitData next o)
  end.

(** What the caller owes: handles are open, the name of a truncated file has no
    trailing slash. *)
Definition op_pre (op : ac_op) (n : N) : Prop :=
  match op with
  | OpWriteFile o => ∃ path, has_handle (WriteFile_Handle o) path n
  | OpSyncFile o => ∃ path, has_handle (SyncFile_Handle o) path n
  | OpFlushFile o => ∃ path, has_handle (FlushFile_Handle o) path n
  | OpTruncateFile o => TruncateDirName (TruncateFile_Name o) = TruncateFile_Name o
  | _ => True
  end.

(** States reached from a started cache by its operations and by activity of
    the rest of the process that leaves the attributes alone (opening and
    closing handles, reading). *)
Inductive reachable : state → Prop :=
  | reach_start ac n : reachable (Start ac, n)
  | reach_op op s s' :
      reachable s → op_pre op s.2 → exec op s = Ret (tt, s') → reachable s'
  | reach_env ac n n' :
      reachable (ac, n) → changes view nowhere None n n' → reachable (ac, n').

Lemma wp_void {A} (m : go state A) s :
  wp m (λ _, coherent) s → wp (void m) (λ _, coherent) s.
Proof. intros H. apply wp_bind. eapply wp_mono; [done|]. intros a s' Hs. by apply wp_ret. Qed.

Lemma exec_coherent op s :
  coherent s → op_pre op s.2 → wp (exec op) (λ _, coherent) s.
Proof.
  intros Hc Hpre. destruct op; simpl in *; apply wp_void; try match type of Hpre with ex _ => destruct Hpre end.
  all: eauto using coherent_CreateDir, coherent_DeleteDir, coherent_ReadDir,
    coherent_StreamDir, coherent_RenameDir, coherent_CreateFile, coherent_DeleteFile,
    coherent_RenameFile, coherent_WriteFile, coherent_TruncateFile, coherent_CopyFromFile,
    coherent_SyncFile, coherent_SyncDir, coherent_CreateLink, coherent_FlushFile,
    coherent_Chmod, coherent_Chown, coherent_CommitData.
  eapply wp_mono; [by apply wp_GetAttr|]. by intros r s' (? & _).
Qed.

Lemma coherent_Start ac n : coherent (Start ac, n).
Proof. by split. Qed.

Lemma reachable_coherent s : reachable s → coherent s.
Proof.
  induction 1 as [ac n|op s s' _ IH Hpre Hrun|ac n n' _ IH Hch].
  - apply coherent_Start.
  - pose proof (exec_coherent op s IH Hpre) as H. unfold wp in H. by rewrite Hrun in H.
  - by eapply coh_next.
Qed.

(** C8: the attribute cache is transparent over a next component whose operations are all or
    nothing ([AttrService]: one that fails changes nothing, a delete or rename of a
    directory that succeeds is complete).  After any run of its operations, truncates being
    called without a final slash and handles being open, GetAttr returns (without a panic)
    what the next component has: an attribute that agrees with it in size, path, name, type
    and, when it is not a default, mode, or "does not exist" only for a path that does not
    exist; asking changes nothing the next component shows. *)
Theorem GetAttr_transparent o s :
  reachable s →
  wp (ac_GetAttr next o) (λ r s',
    view s'.2 = view s.2 ∧
    match r.2 with
    | None => ∃ a b, rt_objs s'.2 !! r.1 = Some a ∧
                view s.2 !! TruncateDirName (GetAttr_Name o) = Some b ∧ attr_eqv a b
    | Some e => e = Errno ENOENT → view s.2 !! TruncateDirName (GetAttr_Name o) = None
    end) s.
Proof.
  intros Hc%reachable_coherent. eapply wp_mono; [by apply wp_GetAttr|].
  intros [p [e|]] s' (_ & [Hv _] & Ha); unfold answers in Ha; simpl in *; [|done].
  by destruct Ha.
Qed.

(** C15: over a next component whose operations are all or nothing ([AttrService]), no
    operation of the cache panics or blocks on its own account, in any reachable state, and
    the cache still agrees with the next component after it: every valid entry describes
    the path it is kept for (size, path, name, type and, when it is not a default, mode).
    Truncates are called without a final slash, operations on handles with open ones. *)
Theorem operations_preserve_coherence op s :
  reachable s → op_pre op s.2 →
  wp (exec op) (λ _ s', ∀ k v a,
    cacheMap s'.1 !! k = Some v → rt_objs s'.2 !! attr v = Some a → valid v = true →
    if exists_ v then ∃ b, view s'.2 !! k = Some b ∧ attr_eqv a b
    else view s'.2 !! k = None) s.
Proof.
  intros Hc%reachable_coherent Hpre. eapply wp_mono; [by apply exec_coherent|].
  intros [] s' Hs' k v a Hk Ha. exact (coh_ok _ _ Hs' k v a Hk Ha (λ x, x)).
Qed.
End transparency.

(** ** What a directory operation touches

    [R] relates an entry before and after an item operation. *)
Section footprint.
Context {N : Type} `{!Runtime N} `{!RuntimeLaws N}.
Context (f : attrCacheItem → go (AttrCache * N) attrCacheItem).
Context (R : attrCacheItem → attrCacheItem → Prop).
Context (Hf : ∀ v s, wp (f v) (λ v' s', s'.1 = s.1 ∧ R v v') s).

(** Entries with [b] set are related by [R], the others are left alone. *)
Definition touched (b : bool) (o o' : option attrCacheItem) : Prop :=
  if b then option_Forall2 R o o' else o' = o.

Lemma touched_update_item k s :
  wp (update_item f k) (λ _ s', ∀ k',
    touched (bool_decide (k' = k)) (cacheMap s.1 !! k') (cacheMap s'.1 !! k')) s.
Proof.
  unfold update_item. apply wp_bind. unfold wp at 1; simpl.
  destruct (cacheMap s.1 !! k) as [v|] eqn:E.
  - apply wp_bind. eapply wp_mono; [apply Hf|]. intros v' [ac' n'] [Heq HR].
    simpl in Heq; subst ac'. unfold wp; simpl. intros k'. unfold touched.
    case_bool_decide as Hk; [subst|by rewrite lookup_insert_ne].
    rewrite lookup_insert_eq, E. by constructor.
  - apply wp_ret. intros k'. unfold touched. case_bool_decide as Hk; [subst|done].
    rewrite E. constructor.
Qed.

Lemma bool_decide_elem_cons (k k' : string) l :
  k' ≠ k → bool_decide (k' ∈ k :: l) = bool_decide (k' ∈ l).
Proof. intros Hne. apply bool_decide_ext. rewrite elem_of_cons. tauto. Qed.

Lemma touched_loop prefix (l : list (string * attrCacheItem)) s :
  NoDup l.*1 → Forall (λ kv, cacheMap s.1 !! kv.1 = Some kv.2) l →
  wp (go_range (λ kv : string * attrCacheItem,
      if strings_HasPrefix kv.1 prefix
      then value' ← f kv.2; set_item kv.1 value' else mret tt) l)
    (λ _ s', ∀ k, touched (bool_decide (k ∈ l.*1) && strings_HasPrefix k prefix)
               (cacheMap s.1 !! k) (cacheMap s'.1 !! k)) s.
Proof.
  revert s. induction l as [|[k v] l IH]; intros s Hnd Hl; csimpl; [by apply wp_ret|].
  apply NoDup_cons in Hnd as [Hk Hnd]. apply Forall_cons in Hl as [Hv Hl]. csimpl in *.
  apply wp_bind. destruct (strings_HasPrefix k prefix) eqn:Hp.
  - apply wp_bind. eapply wp_mono; [apply Hf|]. intros v' [ac' n'] [Heq HR].
    simpl in Heq; subst ac'. unfold wp at 1; simpl. eapply wp_mono.
    + apply IH; [done|]. rewrite Forall_forall in Hl |- *. intros [k2 v2] H2. simpl.
      rewrite lookup_insert_ne; [by apply (Hl (k2, v2))|]. intros ->. apply Hk.
      apply list_elem_of_fmap. by exists (k2, v2).
    + intros [] s' Hs' k'. specialize (Hs' k'). simpl in Hs'. unfold touched in *.
      destruct (decide (k' = k)) as [->|Hne].
      * rewrite (bool_decide_false (k ∈ l.*1)) in Hs' by done.
        rewrite lookup_insert_eq in Hs'. simpl in Hs'. rewrite bool_decide_true by left.
        rewrite Hp, Hv, Hs'. by constructor.
      * rewrite lookup_insert_ne in Hs' by done.
        by rewrite bool_decide_elem_cons.
  - apply wp_ret. eapply wp_mono; [by apply IH|]. intros [] s' Hs' k'. specialize (Hs' k').
    destruct (decide (k' = k)) as [->|Hne].
    + rewrite Hp, andb_false_r in Hs' |- *. done.
    + by rewrite bool_decide_elem_cons.
Qed.

Lemma touched_update_dir path s :
  wp (_ ← update_prefix f (ExtendDirName path); update_item f (TruncateDirName path))
    (λ _ s', ∀ k, touched (bool_decide (under path k))
               (cacheMap s.1 !! k) (cacheMap s'.1 !! k)) s.
Proof.
  apply wp_bind. unfold update_prefix. apply wp_bind. unfold wp at 1; simpl.
  eapply wp_mono.
  { apply touched_loop; [apply NoDup_fst_map_to_list|].
    apply Forall_forall. intros [k v] H. by apply elem_of_map_to_list. }
  intros [] s1 H1. eapply wp_mono; [apply touched_update_item|].
  intros [] s2 H2 k. specialize (H1 k). specialize (H2 k). unfold touched in *.
  destruct (strings_HasPrefix k (ExtendDirName path)) eqn:Hp.
  - rewrite (bool_decide_false (k = _)) in H2.
    2:{ intros ->. apply HasPrefix_spec in Hp as [t Ht]. rewrite ExtendDirName_Truncate in Ht.
        apply (f_equal String.length) in Ht. rewrite !string_app_length in Ht. simpl in Ht. lia. }
    rewrite bool_decide_true by by left. rewrite andb_true_r in H1. rewrite H2.
    case_bool_decide as Hin; [done|]. rewrite H1. destruct (cacheMap s.1 !! k) as [v|] eqn:E; [|constructor].
    destruct Hin. apply list_elem_of_fmap. exists (k, v). split; [done|]. by apply elem_of_map_to_list.
  - rewrite andb_false_r in H1. rewrite H1 in H2.
    replace (bool_decide (under path k)) with (bool_decide (k = TruncateDirName path)); [done|].
    apply bool_decide_ext. unfold under. intuition congruence.
Qed.
End footprint.

(** ** A concrete service

    A component that keeps the attributes of its files and directories in memory: it has
    every operation of the contract (it stores no data, so reads are refused). *)
Module Memory.
Record mem := mkMem {
  m_objs : gmap ptr ObjAttr;
  m_handles : gmap ptr Handle;
  m_clock : Time;
  m_files : gmap string ObjAttr
}.
#[export] Instance Runtime_mem : Runtime mem := {
  rt_now n := Ret (m_clock n, mkMem (m_objs n) (m_handles n) (m_clock n + 1) (m_files n));
  rt_objs := m_objs;
  rt_set_objs o n := mkMem o (m_handles n) (m_clock n) (m_files n);
  rt_handles := m_handles;
  rt_set_handles h n := mkMem (m_objs n) h (m_clock n) (m_files n)
}.
#[export] Instance RuntimeLaws_mem : RuntimeLaws mem.
Proof. split; try done; intros n *; simpl; intros; simplify_eq; eauto. Qed.

Definition with_files (g : gmap string ObjAttr → gmap string ObjAttr) (n : mem) : mem :=
  mkMem (m_objs n) (m_handles n) (m_clock n) (g (m_files n)).
Definition refuse {A} (a : A) : go mem (A * option error) := mret (a, Some (Errno ENOTSUP)).
Definition refuse' : go mem (option error) := mret (Some (Errno ENOTSUP)).
(** Change the files. *)
Definition change (g : gmap string ObjAttr → gmap string ObjAttr) : go mem (option error) := λ n,
  Ret (None, with_files g n).
(** Change them when there is a file at a key, or fail. *)
Definition on_file (name : string) (g : gmap string ObjAttr → gmap string ObjAttr)
    : go mem (option error) := λ n,
  match m_files n !! TruncateDirName name with
  | Some _ => change g n
  | None => Ret (Some (Errno ENOENT), n)
  end.
Definition entry (name : string) (mode : FileMode) (flags : BitMap16) : ObjAttr :=
  mkObjAttr 0 0 0 0 0 mode (Set_ flags PropFlagMetadataRetrieved) (TruncateDirName name) (TruncateDirName name) [] ∅.
Definition put (name : string) (a : ObjAttr) : gmap string ObjAttr → gmap string ObjAttr :=
  <[TruncateDirName name := a]>.

Definition mem_GetAttr (o : GetAttrOptions) : go mem (ptr * option error) := λ n,
  match m_files n !! TruncateDirName (GetAttr_Name o) with
  | Some a => (p ← new_obj a; mret (p, None)) n
  | None => Ret ((nil_ptr, Some (Errno ENOENT)), n)
  end.
(** A new handle on the new file. *)
Definition mem_CreateFile (o : CreateFileOptions) : go mem (ptr * option error) := λ n,
  let p := fresh_ptr (m_handles n) in
  Ret ((p, None), rt_set_handles (<[p := NewHandle (CreateFile_Name o)]> (m_handles n))
                    (with_files (put (CreateFile_Name o) (entry (CreateFile_Name o) (CreateFile_Mode o) 0)) n)).
(** What is listed: the entries below the directory. *)
Definition listed (name : string) (m : gmap string ObjAttr) : list ObjAttr :=
  (filter (λ ka : string * ObjAttr, under name ka.1 ∧ TruncateDirName (Path ka.2) = ka.1) (map_to_list m)).*2.
Definition mem_List (name : string) : go mem (list ptr) := λ n, mapM new_obj (listed name (m_files n)) n.
Definition drop_dir (name : string) (m : gmap string ObjAttr) : gmap string ObjAttr :=
  filter (λ ka : string * ObjAttr, ¬ under name ka.1) m.
(** The entries below [src], as entries below [dst]. *)
Definition moved_dir (src dst : string) (m : gmap string ObjAttr) : gmap string ObjAttr :=
  filter (λ ka : string * ObjAttr, under dst ka.1)
    (list_to_map ((λ ka : string * ObjAttr,
       let k := TruncateDirName dst +:+ sdrop (String.length (TruncateDirName src)) ka.1 in
       (k, mkObjAttr 0 0 0 0 (Size ka.2) (Mode ka.2) (Flags ka.2) k k [] ∅))
     <$> filter (λ ka : string * ObjAttr, under src ka.1) (map_to_list m))).
Definition move_dir (src dst : string) (m : gmap string ObjAttr) : gmap string ObjAttr :=
  moved_dir src dst m ∪ drop_dir dst (drop_dir src m).
Definition move_file (src dst : string) (m : gmap string ObjAttr) : gmap string ObjAttr :=
  match m !! TruncateDirName src with
  | Some a => put dst (mkObjAttr 0 0 0 0 (Size a) (Mode a) (Flags a) (TruncateDirName dst) (TruncateDirName dst) [] ∅)
                (delete (TruncateDirName src) m)
  | None => m
  end.
(** An operation on the file of a handle. *)
Definition with_handle {A} (p : ptr) (f : string → go mem A) : go mem A := h ← load_handle p; f (hPath h).
Definition mem_Write (o : WriteFileOptions) : go mem (Z * option error) :=
  with_handle (WriteFile_Handle o) (λ path,
    e ← on_file path (alter (λ a, attr_with_size 0
          (Z.max (Size a) (WriteFile_Offset o + Z.of_nat (length (WriteFile_Data o)))) a) (TruncateDirName path));
    mret (Z.of_nat (length (WriteFile_Data o)), e)).
Definition touch (name : string) : go mem (option error) := on_file name (λ m, m).

Definition component : Component mem := mkComponent
  (λ o, change (put (CreateDir_Name o) (entry (CreateDir_Name o) (CreateDir_Mode o) NewDirBitMap)))
  (λ o, on_file (DeleteDir_Name o) (drop_dir (DeleteDir_Name o)))
  (λ o n, Ret (bool_decide (listed (IsDirEmpty_Name o) (m_files n) = []), n)) (λ _, mret None)
  (λ o, ps ← mem_List (ReadDir_Name o); mret (ps, None))
  (λ o, ps ← mem_List (StreamDir_Name o); mret (ps, "", None)) (λ _, mret None)
  (λ o, on_file (RenameDir_Src o) (move_dir (RenameDir_Src o) (RenameDir_Dst o)))
  mem_CreateFile
  (λ o, on_file (DeleteFile_Name o) (delete (TruncateDirName (DeleteFile_Name o))))
  (λ _, refuse nil_ptr) (λ _, mret None)
  (λ o, on_file (RenameFile_Src o) (move_file (RenameFile_Src o) (RenameFile_Dst o))) (λ _, refuse [])
  (λ _, refuse ([], 0)) mem_Write
  (λ o, on_file (TruncateFile_Name o)
     (alter (attr_with_size 0 (TruncateFile_Size o)) (TruncateDirName (TruncateFile_Name o))))
  (λ _, refuse')
  (λ o, change (put (CopyFromFile_Name o) (entry (CopyFromFile_Name o) 420 0)))
  (λ o, with_handle (SyncFile_Handle o) touch) (λ o, touch (SyncDir_Name o))
  (λ o, with_handle (FlushFile_Handle o) touch)
  (λ _, mret None) (λ _, mret None)
  (λ o, change (put (CreateLink_Name o) (entry (CreateLink_Name o) 511 NewSymlinkBitMap)))
  (λ _, refuse "") mem_GetAttr
  (λ _, refuse None) (λ _, refuse')
  (λ o, on_file (Chmod_Name o)
     (alter (attr_with_mode 0 (Chmod_Mode o)) (TruncateDirName (Chmod_Name o))))
  (λ _, mret None) (λ _, mret None) (λ _, mret (None, false, None)) (λ _, refuse None)
  (λ _, mret None)
  (λ o, change (put (CommitData_Name o) (entry (CommitData_Name o) 420 0))).

Lemma changes_refl F e n : changes m_files F e n n.
Proof. split; eauto. Qed.

Lemma changes_files F n g :
  (∀ k, ¬ F k → g (m_files n) !! k = m_files n !! k) →
  changes m_files F None n (with_files g n).
Proof. intros H. split; eauto. done. Qed.

Lemma wp_on_file name g n (Q : option error → mem → Prop) :
  (∀ a, m_files n !! TruncateDirName name = Some a → Q None (with_files g n)) →
  Q (Some (Errno ENOENT)) n → wp (on_file name g) Q n.
Proof. intros H1 H2. unfold wp, on_file. destruct (_ !! _) eqn:E; simpl; eauto. Qed.
Lemma wp_with_handle {A} p path (f : string → go mem A) Q n :
  has_handle p path n → wp (f path) Q n → wp (with_handle p f) Q n.
Proof. intros (h & Hh & <-) Hf. unfold with_handle. apply wp_bind. unfold wp at 1, load_handle. by rewrite Hh. Qed.

Lemma put_frame (F : string → Prop) name a m : F (TruncateDirName name) → ∀ k, ¬ F k → put name a m !! k = m !! k.
Proof. intros HF k Hk. unfold put. rewrite lookup_insert_ne; [done|]. by intros <-. Qed.
Lemma alter_frame f name (m : gmap string ObjAttr) : ∀ k, ¬ only name k → alter f (TruncateDirName name) m !! k = m !! k.
Proof. intros k Hk. rewrite lookup_alter_ne; [done|]. by intros <-. Qed.
Lemma drop_dir_lookup name m k : drop_dir name m !! k = if decide (under name k) then None else m !! k.
Proof.
  unfold drop_dir. destruct (decide (under name k)) as [Hu|Hu].
  - apply map_lookup_filter_None. right. intros x _ H. by apply H.
  - destruct (m !! k) as [x|] eqn:E.
    + by apply map_lookup_filter_Some.
    + apply map_lookup_filter_None. by left.
Qed.
Lemma moved_dir_lookup src dst m k : ¬ under dst k → moved_dir src dst m !! k = None.
Proof. intros Hk. unfold moved_dir. apply map_lookup_filter_None. right. by intros x _. Qed.
Lemma move_dir_lookup src dst m k :
  ¬ under dst k → move_dir src dst m !! k = if decide (under src k) then None else m !! k.
Proof.
  intros Hk. unfold move_dir. rewrite lookup_union_r by (by apply moved_dir_lookup).
  by rewrite drop_dir_lookup, decide_False, drop_dir_lookup by done.
Qed.
Lemma move_file_lookup src dst m k :
  ¬ only dst k → move_file src dst m !! k = if decide (only src k) then None else m !! k.
Proof.
  intros Hk. unfold move_file, only, put in *. destruct (m !! TruncateDirName src) as [a|] eqn:E.
  - rewrite lookup_insert_ne by (by intros <-). destruct (decide (k = _)) as [->|Hne]; [apply lookup_delete_eq|].
    by rewrite lookup_delete_ne.
  - destruct (decide (k = _)) as [->|Hne]; [done|done].
Qed.

(** New objects for a list of attributes. *)
Lemma wp_new_objs (l : list ObjAttr) n :
  wp (mapM new_obj l) (λ ps n', m_files n' = m_files n ∧ m_handles n' = m_handles n ∧ m_objs n ⊆ m_objs n' ∧
    NoDup ps ∧ Forall2 (λ p a, m_objs n !! p = None ∧ m_objs n' !! p = Some a) ps l) n.
Proof.
  revert n. induction l as [|a l IH]; intros n; simpl.
  { apply wp_ret. split_and!; try done. apply NoDup_nil_2. }
  apply wp_bind. unfold wp at 1, new_obj. simpl. set (p := fresh_ptr _).
  assert (Hp : m_objs n !! p = None) by apply fresh_ptr_lookup. clearbody p.
  apply wp_bind. eapply wp_mono; [apply IH|]. intros ps n' (Hf & Hh & Hs & Hnd & HF). simpl in *. apply wp_ret.
  assert (Hp' : m_objs n' !! p = Some a) by (eapply lookup_weaken; [apply lookup_insert_eq|exact Hs]).
  split_and!; try done.
  - etrans; [by apply insert_subseteq|exact Hs].
  - apply NoDup_cons. split; [|done]. intros Hin. apply list_elem_of_lookup in Hin as [i Hi].
    destruct (Forall2_lookup_l _ _ _ _ _ HF Hi) as (b & _ & Hnone & _). by rewrite lookup_insert_eq in Hnone.
  - constructor; [done|]. eapply Forall2_impl; [exact HF|]. simpl. intros q b [Hq Hb]. split; [|done].
    rewrite lookup_insert_ne in Hq; [done|]. intros <-. by rewrite lookup_insert_eq in Hq.
Qed.
Lemma wp_mem_List name n :
  wp (mem_List name) (λ ps n', changes m_files nowhere None n n' ∧ NoDup ps ∧
    Forall (describes m_files (λ a, TruncateDirName (Path a)) n n') ps) n.
Proof.
  unfold mem_List, wp. eapply wp_mono; [apply wp_new_objs|]. simpl. intros ps n' (Hf & Hh & Hs & Hnd & HF).
  split; [split; simpl; rewrite ?Hf, ?Hh; eauto|]. split; [done|]. apply Forall_forall. intros p Hp.
  apply list_elem_of_lookup in Hp as [i Hi]. destruct (Forall2_lookup_l _ _ _ _ _ HF Hi) as (a & Ha & Hnone & Hsome).
  split; [done|]. exists a, a. split; [done|]. split; [|done]. unfold listed in Ha.
  apply list_elem_of_lookup_2, list_elem_of_fmap in Ha as ([k a'] & -> & Hin).
  apply list_elem_of_filter in Hin as [[_ Hk] Hin]. simpl in *. rewrite Hk. by apply elem_of_map_to_list.
Qed.

#[export] Instance AttrService_mem : AttrService component.
Proof.
  refine {| view := m_files |}; try done.
  - by intros n t n' [= <- <-].
  - intros o n. apply changes_files, put_frame. done.
  - intros o n. apply wp_on_file; [intros a _|split; [apply changes_refl|done]].
    split; [apply changes_files|intros _]; intros k Hk; simpl; rewrite drop_dir_lookup; [by rewrite decide_False|by rewrite decide_True].
  - intros o n. apply wp_bind. eapply wp_mono; [apply wp_mem_List|]. intros ps n' H. by apply wp_ret.
  - intros o n. apply wp_bind. eapply wp_mono; [apply wp_mem_List|]. intros ps n' H. by apply wp_ret.
  - intros o n. apply wp_on_file; [intros a _|split; [apply changes_refl|done]]. split.
    + apply changes_files. intros k Hk. rewrite move_dir_lookup, decide_False by tauto. done.
    + intros _ k Hs Hd. simpl. by rewrite move_dir_lookup, decide_True by done.
  - intros o n. unfold wp; simpl. split; simpl.
    + done.
    + intros p h Hp. rewrite lookup_insert_ne; [eauto|]. intros <-. by rewrite fresh_ptr_lookup in Hp.
    + done.
    + intros k Hk. by apply (put_frame (only (CreateFile_Name o))).
  - intros o n. apply wp_on_file; [intros a Ha|split; [apply changes_refl|done]].
    split; [apply changes_files; intros k Hk; rewrite lookup_delete_ne; [done|by intros <-]|].
    intros _. apply lookup_delete_eq.
  - intros o n. apply wp_on_file; [intros a _|split; [apply changes_refl|done]]. split.
    + apply changes_files. intros k Hk. rewrite move_file_lookup, decide_False by tauto. done.
    + intros _ Hd. simpl. by rewrite move_file_lookup, decide_True by done.
  - intros o path n Hh. eapply wp_with_handle; [done|]. apply wp_bind.
    apply wp_on_file; [intros a _|]; apply wp_ret; simpl; [|apply changes_refl].
    apply changes_files, alter_frame.
  - intros o n. apply wp_on_file; [intros a Ha|split; [apply changes_refl|done]].
    split; [apply changes_files, alter_frame|]. intros _. simpl. rewrite lookup_alter_eq, Ha. by constructor.
  - intros o n. apply changes_files, put_frame. done.
  - intros o path n Hh. eapply wp_with_handle; [done|]. apply wp_on_file; [intros a _; by apply changes_files|apply changes_refl].
  - intros o n. apply wp_on_file; [intros a _; by apply changes_files|apply changes_refl].
  - intros o path n Hh. eapply wp_with_handle; [done|]. apply wp_on_file; [intros a _; by apply changes_files|apply changes_refl].
  - intros o n. apply changes_files, (put_frame (λ k, only (CreateLink_Name o) k ∨ only (CreateLink_Target o) k)). by left.
  - intros o n. unfold wp; simpl. unfold mem_GetAttr.
    destruct (m_files n !! TruncateDirName (GetAttr_Name o)) as [a|] eqn:E; simpl.
    + split.
      * split; simpl; [apply insert_subseteq, fresh_ptr_lookup|eauto|done..].
      * split; [apply fresh_ptr_lookup|]. exists a, a. simpl. by rewrite lookup_insert_eq.
    + split; [apply changes_refl|]. split; [by left|done].
  - intros o n. apply wp_on_file; [intros a Ha|split; [apply changes_refl|done]].
    split; [apply changes_files, alter_frame|]. intros _. simpl. rewrite lookup_alter_eq, Ha. by constructor.
  - intros o n. apply changes_refl.
  - intros o n. apply changes_files, put_frame. done.
Defined.
End Memory.

(** ** Claims on entries *)
Lemma under_spec path k :
  under path k ↔
  k = TruncateDirName path ∨ ∃ rest, k = TruncateDirName path +:+ "/" +:+ rest.
Proof.
  unfold under. rewrite HasPrefix_spec, ExtendDirName_Truncate. split.
  - intros [[t ->]|H]; [right; exists t; by rewrite string_app_assoc|by left].
  - intros [H|[t ->]]; [by right|left; exists t; by rewrite string_app_assoc].
Qed.

Section entries.
Context {N : Type} `{!Runtime N} `{!RuntimeLaws N}.

Lemma markDeleted_item t v (s : AttrCache * N) :
  wp (markDeleted t v) (λ v' s', s'.1 = s.1 ∧
    valid v' = true ∧ exists_ v' = false ∧ cachedAt v' = t) s.
Proof. unfold wp; simpl. split_and!; [done|apply deleted_flags..|done]. Qed.

Lemma invalidate_item v (s : AttrCache * N) :
  wp (invalidate v) (λ v' s', s'.1 = s.1 ∧ valid v' = false) s.
Proof. unfold wp; simpl. split; [done|apply invalidated_flags]. Qed.

(** DeleteDirectory marks as deleted, at the given time, exactly the cached
    entries of the directory and of the paths below it; it keeps the others
    and adds none.  A sibling whose name extends the directory's name without
    a slash ("ab" beside "a") is not touched. *)
Theorem deleteDirectory_exact path t (s : AttrCache * N) :
  wp (deleteDirectory path t) (λ _ s', ∀ k,
    let below := k = TruncateDirName path ∨
                 ∃ rest, k = TruncateDirName path +:+ "/" +:+ rest in
    (below → option_Forall2 (λ _ v', valid v' = true ∧ exists_ v' = false ∧ cachedAt v' = t)
               (cacheMap s.1 !! k) (cacheMap s'.1 !! k)) ∧
    (¬ below → cacheMap s'.1 !! k = cacheMap s.1 !! k)) s.
Proof.
  eapply wp_mono; [apply touched_update_dir; intros v s1; apply (markDeleted_item t v s1)|].
  intros [] s' Hs' k below. specialize (Hs' k). unfold touched in Hs'.
  split; intros H; [rewrite bool_decide_true in Hs'|rewrite bool_decide_false in Hs'];
    rewrite ?under_spec; done.
Qed.

(** InvalidateDirectory (SyncDir, the destination of RenameDir) leaves no
    valid entry for the directory or anything below it, and keeps every other
    entry as it was. *)
Theorem invalidateDirectory_exact path (s : AttrCache * N) :
  wp (invalidateDirectory path) (λ _ s', ∀ k,
    let below := k = TruncateDirName path ∨
                 ∃ rest, k = TruncateDirName path +:+ "/" +:+ rest in
    (below → option_Forall2 (λ _ v', valid v' = false)
               (cacheMap s.1 !! k) (cacheMap s'.1 !! k)) ∧
    (¬ below → cacheMap s'.1 !! k = cacheMap s.1 !! k)) s.
Proof.
  eapply wp_mono; [apply touched_update_dir; intros v s1; apply (invalidate_item v s1)|].
  intros [] s' Hs' k below. specialize (Hs' k). unfold touched in Hs'.
  split; intros H; [rewrite bool_decide_true in Hs'|rewrite bool_decide_false in Hs'];
    rewrite ?under_spec; done.
Qed.

(** An entry that is missing, invalid or older than the timeout is never
    served: GetAttr asks the next component, with only the clock read. *)
Definition stale (ac : AttrCache) (k : string) (now : Time) : Prop :=
  match cacheMap ac !! k with
  | None => True
  | Some v => valid v = false ∨ cacheTimeout ac * nanos_per_sec ≤ now - cachedAt v
  end.

Lemma GetAttr_fetch_result (next : Component N) o k ac n r n2 :
  c_GetAttr next o n = Ret (r, n2) →
  wp (GetAttr_fetch next o k) (λ r' _, r' = r) (ac, n).
Proof.
  intros E. unfold GetAttr_fetch. apply wp_bind, wp_snd. unfold wp at 1. rewrite E.
  apply wp_bind. eapply (wp_mono _ (λ _ _, True)); [|by intros [] s' _; apply wp_ret].
  destruct (rt_now_returns n2) as (t & n3 & Hnow).
  case_bool_decide; [|case_match]; [| |by apply wp_ret].
  - apply wp_bind. unfold wp at 1; simpl. case_match; [|by apply wp_ret].
    apply wp_bind, wp_snd. unfold wp at 1. by rewrite Hnow.
  - apply wp_bind. unfold wp at 1. simpl. unfold wp, mbind, go_bind. simpl.
    edestruct rt_now_returns as (t4 & n4 & ->). done.
Qed.

(** A stale entry is never served.  When the entry of the path is missing,
    invalid or at least cache-timeout old, GetAttr answers exactly what the
    next component answers when asked then (before or after the clock was
    read). *)
Theorem GetAttr_stale_asks (next : Component N) o ac n t n1 :
  rt_now n = Ret (t, n1) → stale ac (TruncateDirName (GetAttr_Name o)) t →
  ∃ n', (n' = n ∨ n' = n1) ∧ ∀ r n2, c_GetAttr next o n' = Ret (r, n2) →
    wp (ac_GetAttr next o) (λ r' _, r' = r) (ac, n).
Proof.
  intros Hnow Hst. unfold stale in Hst.
  destruct (cacheMap ac !! TruncateDirName (GetAttr_Name o)) as [v|] eqn:Hk; cycle 1.
  { exists n. split; [by left|]. intros r n2 E. unfold ac_GetAttr. apply wp_bind.
    unfold wp at 1, GetAttr_cached. unfold mbind, go_bind; simpl. rewrite Hk.
    by eapply GetAttr_fetch_result. }
  destruct (valid v) eqn:Hval; cycle 1.
  { exists n. split; [by left|]. intros r n2 E. unfold ac_GetAttr. apply wp_bind.
    unfold wp at 1, GetAttr_cached. unfold mbind, go_bind; simpl. rewrite Hk, Hval.
    by eapply GetAttr_fetch_result. }
  destruct Hst as [|Hold]; [done|]. exists n1. split; [by right|]. intros r n2 E.
  unfold ac_GetAttr. apply wp_bind. unfold wp at 1, GetAttr_cached.
  unfold mbind, go_bind; simpl. rewrite Hk, Hval. simpl. rewrite Hnow. simpl.
  unfold not_expired. destruct (Z.ltb_spec (t - cachedAt v) (cacheTimeout ac * nanos_per_sec)); [lia|].
  by eapply GetAttr_fetch_result.
Qed.

(** A path that was deleted through the cache is known to be gone.  After
    DeleteFile succeeded on a cached path, GetAttr of it answers ENOENT until
    the entry times out, whatever component comes next: it is not asked. *)
Theorem DeleteFile_remembered (next next' : Component N) o o' ac n n1 :
  c_DeleteFile next o n = Ret (None, n1) →
  is_Some (cacheMap ac !! TruncateDirName (DeleteFile_Name o)) →
  TruncateDirName (GetAttr_Name o') = TruncateDirName (DeleteFile_Name o) →
  wp (ac_DeleteFile next o) (λ e s', e = None ∧ ∃ v,
    cacheMap s'.1 !! TruncateDirName (DeleteFile_Name o) = Some v ∧
    ∀ t n2, rt_now s'.2 = Ret (t, n2) →
      t - cachedAt v < cacheTimeout ac * nanos_per_sec →
      wp (ac_GetAttr next' o') (λ r s'', r.2 = Some (Errno ENOENT) ∧ s''.1 = s'.1) s') (ac, n).
Proof.
  intros Hdel [w Hw] Hname. unfold ac_DeleteFile. apply wp_bind, wp_snd. unfold wp at 1.
  rewrite Hdel. apply wp_bind. rewrite bool_decide_true by done. apply wp_bind, wp_snd, wp_now.
  intros td n2 _ _ _. unfold deletePath, update_item. apply wp_bind. unfold wp at 1; simpl.
  rewrite Hw. apply wp_bind. unfold wp at 1; simpl. apply wp_ret. split; [done|]. simpl.
  eexists. rewrite lookup_insert_eq. split; [done|]. simpl. intros t n3 Hnow Hlt.
  unfold ac_GetAttr. rewrite Hname. apply wp_bind. unfold wp at 1, GetAttr_cached.
  unfold mbind, go_bind; simpl. rewrite lookup_insert_eq.
  rewrite (proj1 (deleted_flags _ _ _)). simpl. rewrite Hnow. simpl. unfold not_expired; simpl.
  destruct (Z.ltb_spec (t - td) (cacheTimeout ac * nanos_per_sec)); [|lia].
  unfold isDeleted. rewrite (proj2 (deleted_flags _ _ _)). done.
Qed.

(** Listing stops adding entries one past the configured maximum. *)
Lemma cacheAttributes_loop_size t l (s : AttrCache * N) s' :
  cacheAttributes_loop t l s = Ret (tt, s') →
  maxFiles s'.1 = maxFiles s.1 ∧
  Z.of_nat (size (cacheMap s'.1)) ≤
    Z.max (Z.of_nat (size (cacheMap s.1))) (maxFiles s.1 + 1).
Proof.
  revert s. induction l as [|p l IH]; intros s; simpl.
  { intros [= <-]. lia. }
  unfold mbind, go_bind; simpl. destruct (Z.ltb_spec (maxFiles s.1) (Z.of_nat (size (cacheMap s.1)))).
  { intros [= <-]. lia. }
  unfold load_obj. destruct (rt_objs s !! p) as [a|]; simpl; [|done].
  intros [Hm Hs]%IH. simpl in *. split; [done|].
  rewrite map_size_insert in Hs. case_match; unfold id in Hs; lia.
Qed.
End entries.

(** ** Witnesses: the cache over the in-memory component *)
Module Witness.
Import Memory.
Definition ac0 : AttrCache := mkAttrCache 120 true false 10 ∅.
Definition n0 : mem := mkMem ∅ ∅ 0 ∅.
Definition step (op : ac_op) (s : AttrCache * mem) : AttrCache * mem :=
  match exec component op s with Ret (_, s') => s' | _ => s end.

(** Create a directory and a file in it, read its attribute, truncate it, change its mode. *)
Definition s0 := step (OpCreateDir (mkCreateDirOptions "d" 493)) (Start ac0, n0).
Definition s1 := step (OpCreateFile (mkCreateFileOptions "d/a" 420)) s0.
Definition s2 := step (OpGetAttr (mkGetAttrOptions "d/a" false)) s1.
Definition s3 := step (OpTruncateFile (mkTruncateFileOptions "d/a" 7)) s2.
Definition s4 := step (OpChmod (mkChmodOptions "d/a" 384)) s3.

Lemma reachable_s4 : reachable component s4.
Proof.
  eapply (reach_op _ (OpChmod (mkChmodOptions "d/a" 384)) s3); [|done|vm_compute; reflexivity].
  eapply (reach_op _ (OpTruncateFile (mkTruncateFileOptions "d/a" 7)) s2); [|done|vm_compute; reflexivity].
  eapply (reach_op _ (OpGetAttr (mkGetAttrOptions "d/a" false)) s1); [|done|vm_compute; reflexivity].
  eapply (reach_op _ (OpCreateFile (mkCreateFileOptions "d/a" 420)) s0); [|done|vm_compute; reflexivity].
  eapply (reach_op _ (OpCreateDir (mkCreateDirOptions "d" 493)) (Start ac0, n0)); [|done|vm_compute; reflexivity].
  apply reach_start.
Defined.

(** The cached size and mode follow the file without another request. *)
Example s4_served :
  match ac_GetAttr component (mkGetAttrOptions "d/a" false) s4 with
  | Ret (p, None, s') => (λ a, (Size a, Mode a)) <$> rt_objs s'.2 !! p
  | _ => None
  end = Some (7, 384).
Proof. vm_compute. reflexivity. Qed.

Lemma GetAttr_transparent_witness :
  reachable component s4 ∧
  wp (ac_GetAttr component (mkGetAttrOptions "d/a" false)) (λ r s',
    view s'.2 = view s4.2 ∧
    match r.2 with
    | None => ∃ a b, rt_objs s'.2 !! r.1 = Some a ∧
                view s4.2 !! TruncateDirName "d/a" = Some b ∧ attr_eqv a b
    | Some e => e = Errno ENOENT → view s4.2 !! TruncateDirName "d/a" = None
    end) s4.
Proof.
  split; [apply reachable_s4|].
  exact (GetAttr_transparent component (mkGetAttrOptions "d/a" false) s4 reachable_s4).
Defined.

Lemma operations_preserve_coherence_witness :
  reachable component s4 ∧
  wp (exec component (OpRenameDir (mkRenameDirOptions "d" "e"))) (λ _ s', ∀ k v a,
    cacheMap s'.1 !! k = Some v → rt_objs s'.2 !! attr v = Some a → valid v = true →
    if exists_ v then ∃ b, view s'.2 !! k = Some b ∧ attr_eqv a b
    else view s'.2 !! k = None) s4.
Proof.
  split; [apply reachable_s4|].
  exact (operations_preserve_coherence component
    (OpRenameDir (mkRenameDirOptions "d" "e")) s4 reachable_s4 I).
Defined.
(** After the rename the file is known to be gone from the old name, and is found under the
    new one. *)
Example renamed_dir :
  let s5 := step (OpRenameDir (mkRenameDirOptions "d" "e")) s4 in
  match ac_GetAttr component (mkGetAttrOptions "d/a" false) s5 with Ret (_, e, _) => e | _ => None end
    = Some (Errno ENOENT) ∧
  match ac_GetAttr component (mkGetAttrOptions "e/a" false) s5 with
  | Ret (p, None, s') => (λ a, (Size a, Mode a)) <$> rt_objs s'.2 !! p
  | _ => None
  end = Some (7, 384).
Proof. vm_compute. done. Qed.

(** The file is looked up long after the entry was made. *)
Definition late : mem := mkMem (m_objs s4.2) ∅ (200 * nanos_per_sec) (m_files s4.2).
Lemma GetAttr_stale_asks_witness :
  ∃ n', (n' = late ∨ n' = mkMem (m_objs late) ∅ (m_clock late + 1) (m_files late)) ∧
  ∀ r n2, c_GetAttr component (mkGetAttrOptions "d/a" false) n' = Ret (r, n2) →
    wp (ac_GetAttr component (mkGetAttrOptions "d/a" false)) (λ r' _, r' = r) (s4.1, late).
Proof.
  apply (GetAttr_stale_asks component (mkGetAttrOptions "d/a" false) s4.1 late
           (200 * nanos_per_sec)); [reflexivity|].
  vm_compute. right. discriminate.
Defined.

Lemma DeleteFile_remembered_witness :
  wp (ac_DeleteFile component (mkDeleteFileOptions "d/a")) (λ e s', e = None ∧ ∃ v,
    cacheMap s'.1 !! TruncateDirName "d/a" = Some v ∧
    ∀ t n2, rt_now s'.2 = Ret (t, n2) → t - cachedAt v < 120 * nanos_per_sec →
      wp (ac_GetAttr component (mkGetAttrOptions "d/a/" false))
        (λ r s'', r.2 = Some (Errno ENOENT) ∧ s''.1 = s'.1) s') (s4.1, s4.2).
Proof.
  eapply (DeleteFile_remembered component component (mkDeleteFileOptions "d/a")
    (mkGetAttrOptions "d/a/" false) s4.1 s4.2); [reflexivity|vm_compute; eauto|reflexivity].
Defined.

(** Listing with a maximum of one file leaves two entries in the cache. *)
Definition two_files : mem :=
  mkMem {[1%nat := mkObjAttr 0 0 0 0 0 0 0 "a" "a" [] ∅;
          2%nat := mkObjAttr 0 0 0 0 0 0 0 "b" "b" [] ∅]} ∅ 0 ∅.
Example cacheAttributes_exceeds_max :
  match cacheAttributes [1%nat; 2%nat] (mkAttrCache 120 true false 1 ∅, two_files) with
  | Ret (_, s') => Z.of_nat (size (cacheMap s'.1)) = 2 ∧ maxFiles s'.1 = 1
  | _ => False
  end.
Proof. vm_compute. done. Qed.
End Witness.
