(* ===== verification/Pipeline.v ===== *)
(** * The pipeline (src/internal/pipeline.go)

    [NewPipeline] makes and configures the components that the configuration
    names, [Create] links each to the next one, [Start] and [Stop] run them.
    Components are objects: they live in a heap and are named by address.  The
    constructors and the Configure, Start and Stop methods of the components
    act on the rest of the process, a state [W]. *)
From S2P Require Import Prelude GoLib Common HandleMap Internal.

Record Stage (W : Type) := mkStage {
  st_Name : string;
  st_Priority : Z;
  st_Configure : bool → go W (option error);
  st_Start : go W (option error);
  st_Stop : go W (option error);
  st_next : option ptr
}.
Arguments mkStage {W}.
Arguments st_Name {W} _.
Arguments st_Priority {W} _.
Arguments st_Configure {W} _ _.
Arguments st_Start {W} _.
Arguments st_Stop {W} _.
Arguments st_next {W} _.

Section pipeline.
Context {W : Type}.

(** The heap of components and the rest of the process. *)
Abbreviation pstate := (gmap ptr (Stage W) * W)%type.
Implicit Types (s : pstate) (comps : list ptr).

Definition alloc_stage (st : Stage W) : go pstate ptr := λ s,
  let p := fresh_ptr s.1 in Ret (p, (<[p:=st]> s.1, s.2)).
Definition load_stage (p : ptr) : go pstate (Stage W) := λ s, go_deref (s.1 !! p) s.
Definition store_stage (p : ptr) (st : Stage W) : go pstate unit :=
  go_modify (λ s, (<[p:=st]> s.1, s.2)).
Definition with_next (q : option ptr) (st : Stage W) : Stage W :=
  mkStage (st_Name st) (st_Priority st) (st_Configure st) (st_Start st) (st_Stop st) q.

(** [registeredComponents]: the constructors by name. *)
Context (registeredComponents : gmap string (go W (Stage W))).

Fixpoint NewPipeline_loop (isParent : bool) (components : list string)
    (lastPriority : Z) (comps : list ptr) : go pstate (list ptr + error) :=
  match components with
  | [] => mret (inl comps)
  | name :: rest =>
      match registeredComponents !! name with
      | Some compInit =>
          st ← go_snd compInit;
          comp ← alloc_stage st;
          err ← go_snd (st_Configure st isParent);
          match err with
          | Some e => mret (inr e)
          | None =>
              if negb (st_Priority st <=? lastPriority)
              then mret (inr (Msg ("config error in Pipeline [component " +:+ name +:+ " is out of order]")))
              else NewPipeline_loop isParent rest (st_Priority st) (comps ++ [comp])
          end
      | None =>
          mret (inr (Msg ("config error in Pipeline [component " +:+ name +:+ " not registered]")))
      end
  end.

Definition NewPipeline (components : list string) (isParent : bool)
    : go pstate (list ptr + error) :=
  NewPipeline_loop isParent components Producer [].

(** [curComp.SetNextComponent(nextComp)] *)
Definition set_next (cur next : ptr) : go pstate unit :=
  st ← load_stage cur;
  match SetNextComponent (st_next st) (Some next) with
  | Ret n => store_stage cur (with_next n st)
  | Panic => go_panic
  | Blocked => go_block
  end.

Fixpoint Create_loop (cur : ptr) (comps : list ptr) : go pstate unit :=
  match comps with
  | [] => mret tt
  | next :: rest => _ ← set_next cur next; Create_loop next rest
  end.

(** Returns the header; [p.components[0]] of an empty pipeline panics. *)
Definition Create (comps : list ptr) : go pstate ptr :=
  match comps with
  | [] => go_panic
  | h :: rest => _ ← Create_loop h rest; mret h
  end.

(** Call a method of each component in turn, up to the first error. *)
Fixpoint each_stage (method : Stage W → go W (option error)) (comps : list ptr)
    : go pstate (option error) :=
  match comps with
  | [] => mret None
  | p :: rest =>
      st ← load_stage p;
      err ← go_snd (method st);
      match err with
      | Some e => mret (Some e)
      | None => each_stage method rest
      end
  end.

Definition Pipeline_Start (comps : list ptr) : go pstate (option error) :=
  _ ← Create comps; each_stage st_Start (rev comps).

Definition Pipeline_Stop (comps : list ptr) : go pstate (option error) :=
  each_stage st_Stop comps.

(** ** Properties *)
Definition prio (m : gmap ptr (Stage W)) (p : ptr) : Z := from_option st_Priority 0 (m !! p).

(** Each component's next is the component after it, the last has none. *)
Fixpoint chain (m : gmap ptr (Stage W)) (comps : list ptr) : Prop :=
  match comps with
  | [] => True
  | p :: rest => (∃ st, m !! p = Some st ∧ st_next st = head rest) ∧ chain m rest
  end.

(** What NewPipeline has built so far. *)
Record built (lastPriority : Z) (comps : list ptr) (m : gmap ptr (Stage W)) : Prop := mkBuilt {
  built_nodup : NoDup comps;
  built_last : from_option (prio m) Producer (last comps) = lastPriority;
  built_sorted : Sorted Z.ge (prio m <$> comps);
  built_top : Forall (λ p, prio m p ≤ Producer) comps;
  built_alone : Forall (λ p, ∃ st, m !! p = Some st ∧ st_next st = None) comps
}.

Context (Hctor : ∀ name init w st w',
  registeredComponents !! name = Some init → init w = Ret (st, w') → st_next st = None).

Lemma Sorted_snoc {A} (R : relation A) l y :
  Sorted R l → (∀ x, last l = Some x → R x y) → Sorted R (l ++ [y]).
Proof.
  induction l as [|x l IH]; intros Hs Hl; simpl; [repeat constructor|].
  apply Sorted_inv in Hs as [Hs Hhd]. destruct l as [|z l]; simpl in *.
  - repeat constructor. by apply Hl.
  - constructor; [by apply IH|]. constructor. by inversion Hhd.
Qed.

Lemma built_snoc lastP comps m st :
  built lastP comps m → st_next st = None → st_Priority st ≤ lastP → lastP ≤ Producer →
  let p := fresh_ptr m in
  built (st_Priority st) (comps ++ [p]) (<[p:=st]> m).
Proof.
  intros [Hnd Hl Hs Ht Ha] Hn Hle Htop p.
  assert (Hold : ∀ q, q ∈ comps → q ≠ p ∧ prio (<[p:=st]> m) q = prio m q).
  { intros q Hq. rewrite Forall_forall in Ha. destruct (Ha q Hq) as (sq & Hsq & _).
    assert (q ≠ p). { intros ->. unfold p in Hsq. by rewrite fresh_ptr_lookup in Hsq. }
    split; [done|]. unfold prio. by rewrite lookup_insert_ne. }
  assert (Hp : prio (<[p:=st]> m) p = st_Priority st).
  { unfold prio. by rewrite lookup_insert_eq. }
  split; simpl.
  - apply NoDup_app. split_and!; [done| |apply NoDup_singleton].
    intros q Hq ->%list_elem_of_singleton. by destruct (Hold p Hq).
  - by rewrite last_snoc.
  - rewrite fmap_app. simpl. rewrite Hp.
    rewrite (list_fmap_ext (prio (<[p:=st]> m)) (prio m) comps);
      [|intros i q Hq; apply Hold, list_elem_of_lookup; eauto].
    apply Sorted_snoc; [done|]. intros x Hx. rewrite fmap_last in Hx.
    destruct (last comps); simpl in *; simplify_eq. lia.
  - rewrite Forall_app, Forall_singleton, Hp. split; [|lia]. rewrite Forall_forall in Ht |- *.
    intros q Hq. rewrite (proj2 (Hold q Hq)). eauto.
  - rewrite Forall_app, Forall_singleton. split; [|exists st; by rewrite lookup_insert_eq].
    rewrite Forall_forall in Ha |- *. intros q Hq. rewrite lookup_insert_ne; [eauto|].
    intros <-. by destruct (Hold p Hq).
Qed.

Lemma NewPipeline_loop_built isParent names lastP comps s comps' s' :
  built lastP comps s.1 → lastP ≤ Producer →
  NewPipeline_loop isParent names lastP comps s = Ret (inl comps', s') →
  length comps' = (length comps + length names)%nat ∧
  Forall (λ name, is_Some (registeredComponents !! name)) names ∧
  ∃ lastP', built lastP' comps' s'.1.
Proof.
  revert lastP comps s. induction names as [|name names IH]; intros lastP comps s Hb Htop; simpl.
  { intros [= <- <-]. rewrite Nat.add_0_r. eauto. }
  destruct (registeredComponents !! name) as [init|] eqn:Hreg; [|done].
  destruct s as [m w]. intros H.
  apply go_bind_Ret in H as (st & [m1 w1] & H1 & H). apply go_snd_Ret in H1 as [-> H1].
  apply go_bind_Ret in H as (p & [m2 w2] & H2 & H). injection H2 as <- <- <-.
  apply go_bind_Ret in H as (err & [m3 w3] & H3 & H). apply go_snd_Ret in H3 as [-> H3].
  destruct err; [done|]. destruct (Z.leb_spec (st_Priority st) lastP) as [Hle|]; [|done].
  simpl in H. apply IH in H as (Hlen & Hall & Hex); [|simpl; apply (built_snoc lastP comps m); eauto|lia].
  rewrite length_app in Hlen. simpl in Hlen. split; [simpl; lia|]. split; [|done].
  constructor; [by exists init|done].
Qed.

(** Linking fresh components. *)
Lemma wp_Create_loop cur comps s :
  NoDup (cur :: comps) →
  Forall (λ p, ∃ st, s.1 !! p = Some st ∧ st_next st = None) (cur :: comps) →
  wp (Create_loop cur comps) (λ _ s', chain s'.1 (cur :: comps) ∧
    (∀ p, prio s'.1 p = prio s.1 p) ∧ (∀ p, p ∉ cur :: comps → s'.1 !! p = s.1 !! p)) s.
Proof.
  revert cur s. induction comps as [|q comps IH]; intros cur s Hnd Ha.
  { apply wp_ret. split_and!; [|done..]. simpl. split; [|done]. apply Forall_singleton in Ha as (st & Hst & Hn). by exists st. }
  apply NoDup_cons in Hnd as [Hcur Hnd]. apply Forall_cons in Ha as [(st & Hst & Hnext) Ha].
  simpl. apply wp_bind. unfold set_next. apply wp_bind. unfold wp at 1, load_stage.
  rewrite Hst. simpl. rewrite Hnext. simpl. unfold wp at 1; simpl.
  set (s1 := (<[cur:=with_next (Some q) st]> s.1, s.2)).
  eapply wp_mono; [apply (IH q s1 Hnd)|].
  { rewrite Forall_forall in Ha |- *. intros p Hp. simpl. rewrite lookup_insert_ne; [eauto|congruence]. }
  intros [] s' (Hch & Hpr & Hout). split; [|split].
  - split; [|done]. exists (with_next (Some q) st). split; [|done].
    rewrite Hout by done. simpl. apply lookup_insert_eq.
  - intros p. rewrite Hpr. unfold prio; simpl. destruct (decide (p = cur)) as [->|].
    + by rewrite lookup_insert_eq, Hst.
    + by rewrite lookup_insert_ne.
  - intros p Hp. rewrite Hout by set_solver. simpl. apply lookup_insert_ne. set_solver.
Qed.

(** C24: a pipeline that NewPipeline accepts consists of one component for each
    configured name, all registered, in non-increasing order of priority and
    none above a producer; Create then links each component to the one that
    follows it, the last to nothing, without a panic, and returns the first. *)
Theorem pipeline_well_formed names isParent w comps s' :
  NewPipeline names isParent (∅, w) = Ret (inl comps, s') → names ≠ [] →
  length comps = length names ∧
  Forall (λ name, is_Some (registeredComponents !! name)) names ∧
  wp (Create comps) (λ h s'', head comps = Some h ∧ chain s''.1 comps ∧
    Sorted Z.ge (prio s''.1 <$> comps) ∧ Forall (λ p, prio s''.1 p ≤ Producer) comps) s'.
Proof.
  intros H Hne. apply NewPipeline_loop_built in H as (Hlen & Hall & lastP & Hb); [| |done].
  2:{ split; try done; constructor. }
  split; [done|]. split; [done|]. destruct comps as [|h comps]; [by destruct names|].
  destruct Hb as [Hnd _ Hs Ht Ha]. unfold Create. apply wp_bind.
  eapply wp_mono; [by apply wp_Create_loop|]. intros [] s'' (Hch & Hpr & _). apply wp_ret.
  split_and!; [done..| |].
  - by rewrite (list_fmap_ext (prio s''.1) (prio s'.1) (h :: comps)).
  - rewrite Forall_forall in Ht |- *. intros p Hp. rewrite Hpr. eauto.
Qed.
End pipeline.

(** ** Starting *)

(** A component whose Start records its name and fails as [fails] says. *)
Definition recorded (fails : string → option error) (st : Stage (list string)) : Prop :=
  ∀ w, st_Start st w = Ret (fails (st_Name st), w ++ [st_Name st]).

(** The names up to and including the first that fails. *)
Fixpoint started (fails : string → option error) (names : list string)
    : list string * option error :=
  match names with
  | [] => ([], None)
  | name :: rest =>
      match fails name with
      | Some e => ([name], Some e)
      | None => let '(l, e) := started fails rest in (name :: l, e)
      end
  end.

Lemma each_stage_started fails comps names (m : gmap ptr (Stage (list string))) w :
  Forall2 (λ p name, ∃ st, m !! p = Some st ∧ st_Name st = name ∧ recorded fails st)
    comps names →
  each_stage st_Start comps (m, w) =
  Ret ((started fails names).2, (m, w ++ (started fails names).1)).
Proof.
  intros H. revert w. induction H as [|p name comps names (st & Hp & <- & Hr) _ IH]; intros w; simpl.
  { by rewrite app_nil_r. }
  unfold mbind, go_bind, load_stage; simpl. rewrite Hp. simpl. rewrite Hr.
  destruct (fails (st_Name st)) as [e|]; [done|]. rewrite IH.
  destruct (started fails names) as [l e]. simpl. by rewrite <-app_assoc.
Qed.

(** Start calls the components in the reverse of the order in which they
    are chained, so that a component starts after everything it calls, and
    stops at the first failure, whose error it returns: nothing above the
    failed component is started. *)
Theorem Start_reverse_order fails comps names (m m' : gmap ptr (Stage (list string))) h :
  Create comps (m, []) = Ret (h, (m', [])) →
  Forall2 (λ p name, ∃ st, m' !! p = Some st ∧ st_Name st = name ∧ recorded fails st)
    comps names →
  Pipeline_Start comps (m, []) =
  Ret ((started fails (rev names)).2, (m', (started fails (rev names)).1)).
Proof.
  intros Hc Hf. unfold Pipeline_Start, mbind, go_bind. rewrite Hc.
  rewrite (each_stage_started fails _ (rev names)); [done|].
  clear -Hf. induction Hf as [|p name comps names Hp Hf IH]; simpl; [constructor|].
  apply Forall2_app; [done|]. by repeat constructor.
Qed.

(** ** Witnesses *)
Module Witness.
Definition ok_stage (name : string) (p : Z) (e : option error) : Stage (list string) :=
  mkStage name p (λ _, mret None) (λ w, Ret (e, w ++ [name])) (mret None) None.
Definition registry : gmap string (go (list string) (Stage (list string))) :=
  <["libfuse" := mret (ok_stage "libfuse" Producer None)]>
  (<["attr_cache" := mret (ok_stage "attr_cache" LevelTwo (Some (Errno EIO)))]>
  {["azstorage" := mret (ok_stage "azstorage" Consumer None)]}).
Definition names : list string := ["libfuse"; "attr_cache"; "azstorage"].

Lemma registry_alone name init w st w' :
  registry !! name = Some init → init w = Ret (st, w') → st_next st = None.
Proof.
  unfold registry. rewrite !lookup_insert_Some, lookup_singleton_Some.
  intros [[_ <-]|[_ [[_ <-]|[_ [_ <-]]]]] [= <- _]; done.
Qed.

Definition made : list ptr * (gmap ptr (Stage (list string)) * list string) :=
  match NewPipeline registry names true (∅, []) with
  | Ret (inl comps, s) => (comps, s)
  | _ => ([], (∅, []))
  end.

Lemma pipeline_well_formed_witness :
  length made.1 = length names ∧
  Forall (λ name, is_Some (registry !! name)) names ∧
  wp (Create made.1) (λ h s'', head made.1 = Some h ∧ chain s''.1 made.1 ∧
    Sorted Z.ge (prio s''.1 <$> made.1) ∧ Forall (λ p, prio s''.1 p ≤ Producer) made.1) made.2.
Proof.
  apply (pipeline_well_formed registry registry_alone names true [] made.1 made.2);
    [vm_compute; reflexivity|discriminate].
Defined.

Definition created : ptr * (gmap ptr (Stage (list string)) * list string) :=
  match Create made.1 made.2 with Ret r => r | _ => (nil_ptr, (∅, [])) end.
Definition fails (name : string) : option error :=
  if bool_decide (name = "attr_cache") then Some (Errno EIO) else None.

(** The cache fails to start: libfuse is never started. *)
Lemma Start_reverse_order_witness :
  Pipeline_Start made.1 made.2 =
  Ret (Some (Errno EIO), (created.2.1, ["azstorage"; "attr_cache"])).
Proof.
  apply (Start_reverse_order fails made.1 names made.2.1 created.2.1 created.1);
    [vm_compute; reflexivity|].
  repeat constructor; eexists; (split; [vm_compute; reflexivity|]);
    (split; [reflexivity|]); intros w; reflexivity.
Defined.
End Witness.
