(* ===== verification/LRUCache.v ===== *)
(** * The block cache of the stream component (src/common/cache_policy/lru_policy.go)

    Blocks are shared by reference: they live in a heap.  The cache is a
    doubly linked list of key/block pairs, most recently used first, and a map
    from keys to list elements. *)
From S2P Require Import Prelude GoLib Common.

Record KeyPair := mkKeyPair { key : Z; value : ptr }.

(** [List] is [None] for nil, after Purge.  A nil [Elements] map is read as
    the empty one. *)
Record LRUCache := mkLRUCache {
  Capacity : Z;
  List_ : option (GoList.t KeyPair);
  Elements : gmap Z nat;
  Occupied : Z
}.
Abbreviation lru_state := (LRUCache * gmap ptr Block)%type.

Definition NewLRUCache (capacity : Z) : LRUCache :=
  mkLRUCache capacity (Some GoList.empty) ∅ 0.

Definition the_list : go lru_state (GoList.t KeyPair) := λ s, go_deref (List_ s.1) s.
Definition load_block (p : ptr) : go lru_state Block := λ s, go_deref (s.2 !! p) s.
Definition store_block (p : ptr) (b : Block) : go lru_state unit :=
  go_modify (λ s, (s.1, <[p:=b]> s.2)).

(** getKeyPair: the pair kept in a list element. *)
Definition getKeyPair (node : nat) : go lru_state KeyPair :=
  l ← the_list; go_deref (GoList.get node l).

Definition lru_Get (bk : Z) : go lru_state (ptr * bool) :=
  cache ← go_gets fst;
  match Elements cache !! bk with
  | Some node =>
      kp ← getKeyPair node;
      l ← the_list;
      _ ← go_modify (λ s : lru_state,
        (mkLRUCache (Capacity s.1) (Some (GoList.move_to_front node l))
           (Elements s.1) (Occupied s.1), s.2));
      mret (value kp, true)
  | None => mret (nil_ptr, false)
  end.

Definition lru_Resize (bk newEndIndex : Z) : go lru_state bool :=
  cache ← go_gets fst;
  match Elements cache !! bk with
  | Some node =>
      kp ← getKeyPair node;
      cb ← load_block (value kp);
      let sizeDiff := i64 (newEndIndex - EndIndex cb) in
      _ ← go_modify (λ s : lru_state,
        (mkLRUCache (Capacity s.1) (List_ s.1) (Elements s.1)
           (i64 (Occupied s.1 + sizeDiff)), s.2));
      _ ← store_block (value kp) (block_with_end newEndIndex cb);
      mret true
  | None => mret false
  end.

Definition lru_Remove (k : Z) : go lru_state unit :=
  cache ← go_gets fst;
  match Elements cache !! k with
  | Some node =>
      kp ← getKeyPair node;
      cb ← load_block (value kp);
      _ ← store_block (value kp) (block_with_data [] cb);
      l ← the_list;
      go_modify (λ s : lru_state,
        (mkLRUCache (Capacity s.1) (Some (GoList.remove node l)) (delete k (Elements s.1))
           (i64 (Occupied s.1 - block_size cb)), s.2))
  | None => mret tt
  end.

(** The loop of evict walks from the back of the list to its front. *)
Fixpoint evict_loop (nodes : list KeyPair) : go lru_state bool :=
  match nodes with
  | [] => mret false
  | kp :: rest =>
      b ← load_block (value kp);
      if negb (Dirty b) then _ ← lru_Remove (key kp); mret true
      else evict_loop rest
  end.

(** getKeyPair of the Back of an empty list is a nil dereference. *)
Definition evict : go lru_state bool :=
  l ← the_list;
  match GoList.back l with
  | None => go_panic
  | Some _ => evict_loop (rev (GoList.elems l).*2)
  end.

Definition lru_insert (k : Z) (v : ptr) : go lru_state bool :=
  l ← the_list;
  b ← load_block v;
  let '(pointer, l') := GoList.push_front (mkKeyPair k v) l in
  _ ← go_modify (λ s : lru_state,
    (mkLRUCache (Capacity s.1) (Some l') (<[k:=pointer]> (Elements s.1))
       (i64 (Occupied s.1 + block_size b)), s.2));
  mret true.

Definition lru_Put (k : Z) (v : ptr) : go lru_state bool :=
  cache ← go_gets fst;
  if Capacity cache <=? Occupied cache then
    evicted ← evict;
    if negb evicted then mret false else lru_insert k v
  else lru_insert k v.

Definition lru_Keys (cache : LRUCache) : list Z := (map_to_list (Elements cache)).*1.

Definition RecentlyUsed : go lru_state ptr :=
  l ← the_list; e ← go_deref (GoList.front l); mret (value e.2).
Definition LeastRecentlyUsed : go lru_state ptr :=
  l ← the_list; e ← go_deref (GoList.back l); mret (value e.2).

Definition lru_Purge : go lru_state unit :=
  cache ← go_gets fst;
  _ ← go_range lru_Remove (lru_Keys cache);
  go_modify (λ s : lru_state, (mkLRUCache 0 None ∅ (Occupied s.1), s.2)).

(** ** The abstract cache: key/block pairs, most recently used first *)
Definition pairs (c : LRUCache) : list KeyPair :=
  from_option (λ l, (GoList.elems l).*2) [] (List_ c).

Definition total (m : gmap ptr Block) (l : list KeyPair) : Z :=
  foldr (λ p acc, from_option block_size 0 (m !! value p) + acc) 0 l.

Record lru_ok (s : lru_state) (l : GoList.t KeyPair) : Prop := mkLruOk {
  ok_list : List_ s.1 = Some l;
  ok_wf : GoListFacts.wf l;
  ok_elements k e : Elements s.1 !! k = Some e ↔ ∃ p, (e, mkKeyPair k p) ∈ GoList.elems l;
  ok_values : NoDup (value <$> (GoList.elems l).*2);
  ok_alloc : Forall (λ p, is_Some (s.2 !! value p)) (GoList.elems l).*2;
  ok_occupied : Occupied s.1 = i64 (total s.2 (GoList.elems l).*2)
}.

Lemma i64_add_l a b : i64 (i64 a + b) = i64 (a + b).
Proof.
  unfold i64. f_equal.
  replace ((a + 2 ^ 63) mod 2 ^ 64 - 2 ^ 63 + b + 2 ^ 63) with ((a + 2 ^ 63) mod 2 ^ 64 + b) by lia.
  rewrite Zplus_mod_idemp_l. f_equal. lia.
Qed.

Lemma lru_ok_new capacity m : lru_ok (NewLRUCache capacity, m) GoList.empty.
Proof.
  split; simpl; [done|apply GoListFacts.wf_empty| |constructor|constructor|done].
  intros k e. split; [done|]. intros [p Hp%not_elem_of_nil]. done.
Qed.

(** The element of a cached key. *)
Lemma ok_lookup s l k e :
  lru_ok s l → Elements s.1 !! k = Some e →
  ∃ p b l1 l2, GoList.get e l = Some (mkKeyPair k p) ∧ s.2 !! p = Some b ∧
    GoList.elems l = l1 ++ (e, mkKeyPair k p) :: l2.
Proof.
  intros Hok [p Hp]%(ok_elements _ _ Hok). pose proof (ok_wf _ _ Hok) as Hwf.
  pose proof (ok_alloc _ _ Hok) as Ha. rewrite Forall_forall in Ha.
  destruct (Ha (mkKeyPair k p)) as [b Hb].
  { apply list_elem_of_fmap. by exists (e, mkKeyPair k p). }
  destruct (list_elem_of_split _ _ Hp) as (l1 & l2 & Heq). exists p, b, l1, l2.
  split_and!; [by apply GoListFacts.get_elem|done..].
Qed.

Lemma wf_filter_split e v (l1 l2 : list (nat * KeyPair)) :
  NoDup ((l1 ++ (e, v) :: l2).*1) →
  filter (λ p : nat * KeyPair, p.1 ≠ e) (l1 ++ (e, v) :: l2) = l1 ++ l2.
Proof.
  rewrite fmap_app, fmap_cons. simpl. intros (Hnd1 & Hdis & Hnd2)%NoDup_app.
  apply NoDup_cons in Hnd2 as [He Hnd2].
  assert (Hkeep : ∀ l : list (nat * KeyPair), e ∉ l.*1 → filter (λ p : nat * KeyPair, p.1 ≠ e) l = l).
  { induction l as [|[e' w] l IH]; [done|]. rewrite fmap_cons, not_elem_of_cons. simpl.
    intros [Hne Hl]. rewrite filter_cons_True by (simpl; congruence). by rewrite IH. }
  rewrite filter_app, filter_cons_False by (simpl; tauto).
  rewrite (Hkeep l1), (Hkeep l2); [done|done|]. intros H. apply (Hdis e H). left.
Qed.

Lemma total_app m l1 l2 : total m (l1 ++ l2) = total m l1 + total m l2.
Proof. induction l1 as [|x l1 IH]; simpl; [lia|]. rewrite IH. lia. Qed.

(** A store to a block that no pair of the list refers to is not seen. *)
Lemma total_insert_ne m p b l :
  p ∉ value <$> l → total (<[p:=b]> m) l = total m l.
Proof.
  induction l as [|x l IH]; simpl; [done|]. rewrite not_elem_of_cons. intros [Hne Hl].
  rewrite IH by done. by rewrite lookup_insert_ne.
Qed.

(** ** Removal *)
Lemma lru_ok_remove s l k e p b l1 l2 :
  lru_ok s l → GoList.elems l = l1 ++ (e, mkKeyPair k p) :: l2 → s.2 !! p = Some b →
  lru_ok (mkLRUCache (Capacity s.1) (Some (GoList.remove e l)) (delete k (Elements s.1))
            (i64 (Occupied s.1 - block_size b)), <[p:=block_with_data [] b]> s.2)
         (GoList.remove e l) ∧
  GoList.elems (GoList.remove e l) = l1 ++ l2.
Proof.
  intros [Hl Hwf Hel Hv Ha Ho] Heq Hb.
  assert (Hrem : GoList.elems (GoList.remove e l) = l1 ++ l2).
  { simpl. rewrite Heq. apply wf_filter_split. rewrite <-Heq. apply Hwf. }
  pose proof Hwf as [Hnd _]. rewrite Heq in Hv, Ha, Ho, Hnd, Hel.
  rewrite !fmap_app, !fmap_cons in *. simpl in *.
  apply NoDup_app in Hv as (Hv1 & Hvd & Hv2). apply NoDup_cons in Hv2 as [Hp2 Hv2].
  assert (Hp1 : p ∉ value <$> l1.*2) by (intros H; apply (Hvd p H); left).
  split; [|done]. split; simpl; rewrite ?Hrem, ?fmap_app.
  - done.
  - by apply GoListFacts.wf_remove.
  - intros k' e'. rewrite lookup_delete_Some, Hel. split.
    + intros [Hne [p' Hin]]. exists p'. apply elem_of_app. apply elem_of_app in Hin as [?|[[=]|?]%elem_of_cons]; eauto.
      congruence.
    + intros [p' Hin]. split; [|exists p'; apply elem_of_app; apply elem_of_app in Hin as [?|?]; [by left|right; by right]].
      intros <-. assert (Helk : Elements s.1 !! k = Some e) by (apply Hel; exists p; apply elem_of_app; right; left).
      assert (Helk' : Elements s.1 !! k = Some e').
      { apply Hel. exists p'. apply elem_of_app. apply elem_of_app in Hin as [?|?]; [by left|right; by right]. }
      rewrite Helk in Helk'. injection Helk' as <-.
      apply NoDup_app in Hnd as (_ & Hd & [Hn2 _]%NoDup_cons).
      apply elem_of_app in Hin as [Hin|Hin].
      * apply (Hd e); [|left]. apply list_elem_of_fmap. by exists (e, mkKeyPair k p').
      * apply Hn2. apply list_elem_of_fmap. by exists (e, mkKeyPair k p').
  - apply NoDup_app. split_and!; [done| |done]. intros x Hx Hx2. apply (Hvd x Hx). by right.
  - apply Forall_app in Ha as [Ha1 [_ Ha2]%Forall_cons]. apply Forall_app.
    split; eapply Forall_impl; try done; simpl; intros kp [b' Hb'];
      (destruct (decide (value kp = p)) as [->|]; [rewrite lookup_insert_eq|rewrite lookup_insert_ne by done]; eauto).
  - rewrite total_app, !total_insert_ne by done. rewrite Ho, total_app. simpl. rewrite Hb. simpl.
    unfold Z.sub. rewrite i64_add_l. f_equal. unfold block_size in *. lia.
Qed.

Lemma wp_lru_Remove s l k e p b l1 l2 (Q : unit → lru_state → Prop) :
  lru_ok s l → GoList.elems l = l1 ++ (e, mkKeyPair k p) :: l2 → s.2 !! p = Some b →
  (∀ s' l', lru_ok s' l' → GoList.elems l' = l1 ++ l2 →
     Capacity s'.1 = Capacity s.1 → s'.2 = <[p:=block_with_data [] b]> s.2 → Q tt s') →
  wp (lru_Remove k) Q s.
Proof.
  intros Hok Heq Hb HQ. unfold lru_Remove.
  assert (He : Elements s.1 !! k = Some e).
  { apply (ok_elements _ _ Hok). exists p. rewrite Heq. apply elem_of_app. right. left. }
  assert (Hg : GoList.get e l = Some (mkKeyPair k p)).
  { apply GoListFacts.get_elem; [apply Hok|]. rewrite Heq. apply elem_of_app. right. left. }
  unfold wp, mbind, go_bind, getKeyPair, the_list, load_block; simpl. rewrite He.
  unfold mbind, go_bind; simpl. rewrite (ok_list _ _ Hok). simpl. rewrite Hg. simpl. rewrite Hb. simpl.
  rewrite (ok_list _ _ Hok). simpl.
  destruct (lru_ok_remove _ _ _ _ _ _ _ _ Hok Heq Hb) as [Hok' Heq'].
  by eapply HQ; [exact Hok'|exact Heq'|..].
Qed.

(** ** Eviction *)
Lemma forallb_Forall {A} (f : A → bool) l :
  forallb f l = true ↔ Forall (λ x, f x = true) l.
Proof.
  induction l as [|x l IH]; simpl; [by split|].
  by rewrite andb_true_iff, Forall_cons, IH.
Qed.

Definition dirty_block (m : gmap ptr Block) (kp : KeyPair) : bool :=
  from_option Dirty false (m !! value kp).

(** The block [p] of [m] lost its data in [m']. *)
Definition emptied (p : ptr) (m m' : gmap ptr Block) : Prop :=
  ∃ b, m !! p = Some b ∧ m' = <[p:=block_with_data [] b]> m.
Lemma emptied_ne p m m' q : emptied p m m' → q ≠ p → m' !! q = m !! q.
Proof. intros (b & _ & ->) Hq. by rewrite lookup_insert_ne. Qed.

(** [evict_loop] over the pairs from the back; [done_] were dirty. *)
Lemma wp_evict_loop s l todo done_ (Q : bool → lru_state → Prop) :
  lru_ok s l → (GoList.elems l).*2 = reverse todo ++ done_ →
  Forall (λ kp, dirty_block s.2 kp = true) done_ →
  (Forall (λ kp, dirty_block s.2 kp = true) (GoList.elems l).*2 → Q false s) →
  (∀ s' l' r1 kp r2, lru_ok s' l' → (GoList.elems l).*2 = r1 ++ kp :: r2 →
     dirty_block s.2 kp = false → Forall (λ kp, dirty_block s.2 kp = true) r2 →
     (GoList.elems l').*2 = r1 ++ r2 → Capacity s'.1 = Capacity s.1 →
     emptied (value kp) s.2 s'.2 → Q true s') →
  wp (evict_loop todo) Q s.
Proof.
  intros Hok. revert done_. induction todo as [|kp todo IH]; intros done_ Heq Hd HF HT; simpl.
  { apply wp_ret, HF. by rewrite Heq. }
  rewrite reverse_cons, <-app_assoc in Heq. simpl in Heq.
  pose proof (ok_alloc _ _ Hok) as Ha. rewrite Heq in Ha.
  apply Forall_app in Ha as [_ [[b Hb] _]%Forall_cons].
  apply wp_bind. unfold wp at 1, load_block. rewrite Hb. simpl.
  destruct (Dirty b) eqn:Hdb; simpl.
  - apply (IH (kp :: done_)); try done. constructor; [|done]. unfold dirty_block. by rewrite Hb.
  - apply wp_bind. apply fmap_app_inv in Heq as (e1 & e2 & Hr1 & He2 & Hel).
    symmetry in He2. apply fmap_cons_inv in He2 as ([e kp'] & e3 & Hkp & -> & ->).
    simpl in Hkp; subst kp'. destruct kp as [k p]. simpl in *.
    eapply wp_lru_Remove; [done..|]. intros s' l' Hok' Hel' Hcap Hsame. apply wp_ret.
    apply (HT s' l' e1.*2 (mkKeyPair k p) e3.*2); try done.
    + rewrite Hel, fmap_app. done.
    + unfold dirty_block; simpl. by rewrite Hb.
    + by rewrite Hel', fmap_app.
    + by exists b.
Qed.

Lemma wp_evict s l (Q : bool → lru_state → Prop) :
  lru_ok s l → (GoList.elems l).*2 ≠ [] →
  (Forall (λ kp, dirty_block s.2 kp = true) (GoList.elems l).*2 → Q false s) →
  (∀ s' l' r1 kp r2, lru_ok s' l' → (GoList.elems l).*2 = r1 ++ kp :: r2 →
     dirty_block s.2 kp = false → Forall (λ kp, dirty_block s.2 kp = true) r2 →
     (GoList.elems l').*2 = r1 ++ r2 → Capacity s'.1 = Capacity s.1 →
     emptied (value kp) s.2 s'.2 → Q true s') →
  wp evict Q s.
Proof.
  intros Hok Hne HF HT. unfold evict. apply wp_bind. unfold wp at 1, the_list.
  rewrite (ok_list _ _ Hok). simpl. unfold GoList.back.
  destruct (last (GoList.elems l)) as [x|] eqn:E; [|apply last_None in E; by rewrite E in Hne].
  eapply (wp_evict_loop s l _ []); [done| |constructor|done|done].
  rewrite app_nil_r. unfold reverse. rewrite <-rev_alt, rev_involutive. done.
Qed.

(** ** Insertion *)
Lemma lru_ok_push s l k v b :
  lru_ok s l → Elements s.1 !! k = None → s.2 !! v = Some b →
  v ∉ value <$> (GoList.elems l).*2 →
  let '(pointer, l') := GoList.push_front (mkKeyPair k v) l in
  lru_ok (mkLRUCache (Capacity s.1) (Some l') (<[k:=pointer]> (Elements s.1))
            (i64 (Occupied s.1 + block_size b)), s.2) l'.
Proof.
  intros [Hl Hwf Hel Hv Ha Ho] Hk Hb Hnv. csimpl. split; csimpl.
  - done.
  - apply (GoListFacts.wf_push_front (mkKeyPair k v) l Hwf).
  - intros k' e. rewrite lookup_insert_Some, Hel. split.
    + intros [[<- <-]|[Hne [p Hp]]]; [exists v; left|exists p; by right].
    + intros [p [Heq|Hin]%elem_of_cons]; [injection Heq as -> -> ->; by left|].
      right. split; [|eauto]. intros ->. assert (Elements s.1 !! k' = Some e) by (apply Hel; eauto).
      congruence.
  - apply NoDup_cons. done.
  - constructor; [by exists b|done].
  - rewrite Hb, Ho, i64_add_l. simpl. f_equal. unfold total. lia.
Qed.

Lemma wp_lru_insert s l k v b (Q : bool → lru_state → Prop) :
  lru_ok s l → Elements s.1 !! k = None → s.2 !! v = Some b →
  v ∉ value <$> (GoList.elems l).*2 →
  (∀ s' l', lru_ok s' l' → (GoList.elems l').*2 = mkKeyPair k v :: (GoList.elems l).*2 →
     s'.2 = s.2 → Capacity s'.1 = Capacity s.1 → Q true s') →
  wp (lru_insert k v) Q s.
Proof.
  intros Hok Hk Hb Hv HQ. pose proof (lru_ok_push _ _ _ _ _ Hok Hk Hb Hv) as Hpush.
  unfold lru_insert, wp, mbind, go_bind, the_list, load_block; simpl.
  rewrite (ok_list _ _ Hok). simpl. rewrite Hb. simpl. by eapply HQ; [exact Hpush|..].
Qed.

(** A key is cached when a pair of the list carries it. *)
Lemma ok_key_None s l k :
  lru_ok s l → Elements s.1 !! k = None ↔ k ∉ key <$> (GoList.elems l).*2.
Proof.
  intros Hok. split.
  - intros HN Hin. apply list_elem_of_fmap in Hin as ([k' p] & -> & Hin).
    apply list_elem_of_fmap in Hin as ([e kp] & Heq & Hin). simpl in *. subst kp.
    assert (Elements s.1 !! k' = Some e) by (apply (ok_elements _ _ Hok); eauto). congruence.
  - intros Hni. destruct (Elements s.1 !! k) as [e|] eqn:E; [|done]. exfalso. apply Hni.
    apply (ok_elements _ _ Hok) in E as [p Hp]. apply list_elem_of_fmap. exists (mkKeyPair k p).
    split; [done|]. apply list_elem_of_fmap. by exists (e, mkKeyPair k p).
Qed.

Definition lru_inv (s : lru_state) : Prop := ∃ l, lru_ok s l.

Lemma lru_inv_pairs s l : lru_ok s l → pairs s.1 = (GoList.elems l).*2.
Proof. intros Hok. unfold pairs. by rewrite (ok_list _ _ Hok). Qed.

(** Put of a new key: with room, with every block dirty, and with a victim. *)
Definition put_result (k : Z) (v : ptr) (s : lru_state) (r : bool) (s' : lru_state) : Prop :=
  (Occupied s.1 < Capacity s.1 ∧ r = true ∧ s'.2 = s.2 ∧ pairs s'.1 = mkKeyPair k v :: pairs s.1) ∨
  (Capacity s.1 ≤ Occupied s.1 ∧ r = false ∧ s' = s ∧
     Forall (λ kp, dirty_block s.2 kp = true) (pairs s.1)) ∨
  (Capacity s.1 ≤ Occupied s.1 ∧ r = true ∧ ∃ r1 kp r2, pairs s.1 = r1 ++ kp :: r2 ∧
     pairs s'.1 = mkKeyPair k v :: r1 ++ r2 ∧ dirty_block s.2 kp = false ∧
     Forall (λ kp, dirty_block s.2 kp = true) r2 ∧ emptied (value kp) s.2 s'.2).

Lemma wp_lru_Put s k v b :
  lru_inv s → k ∉ key <$> pairs s.1 → s.2 !! v = Some b → v ∉ value <$> pairs s.1 →
  (Occupied s.1 < Capacity s.1 ∨ pairs s.1 ≠ []) →
  wp (lru_Put k v) (λ r s', lru_inv s' ∧ Capacity s'.1 = Capacity s.1 ∧ put_result k v s r s') s.
Proof.
  intros [l Hok] Hk Hb Hv Hroom. unfold put_result. rewrite (lru_inv_pairs _ _ Hok) in *.
  unfold lru_Put. apply wp_bind. unfold wp at 1; simpl.
  apply (ok_key_None s l k Hok) in Hk.
  destruct (Z.leb_spec (Capacity s.1) (Occupied s.1)) as [Hle|Hlt]; cycle 1.
  { eapply wp_lru_insert; [done..|]. intros s' l' Hok' Hl' Hs Hcap.
    split; [by exists l'|]. split; [done|]. left. by rewrite (lru_inv_pairs _ _ Hok'). }
  destruct Hroom as [?|Hne]; [lia|]. apply wp_bind. eapply wp_evict; [done..| |].
  { intros Hall. simpl. apply wp_ret. split; [by exists l|]. split; [done|]. right. by left. }
  intros s' l' r1 kp r2 Hok' Heq Hd Hr2 Hl' Hcap Hemp. simpl.
  assert (Hkp : ∀ x, x ∈ r1 ++ r2 → x ∈ r1 ++ kp :: r2).
  { intros x. rewrite !elem_of_app, elem_of_cons. tauto. }
  assert (Hvne : v ≠ value kp).
  { intros ->. apply Hv. rewrite Heq. apply list_elem_of_fmap. exists kp.
    split; [done|]. apply elem_of_app. right. left. }
  eapply wp_lru_insert; [exact Hok'| |by rewrite (emptied_ne _ _ _ _ Hemp)| |].
  - apply (ok_key_None s' l' k Hok'). rewrite Hl'. intros (x & -> & Hx)%list_elem_of_fmap.
    apply (ok_key_None s l _ Hok) in Hk. apply Hk. rewrite Heq. apply list_elem_of_fmap. eauto.
  - rewrite Hl'. intros (x & -> & Hx)%list_elem_of_fmap. apply Hv. rewrite Heq.
    apply list_elem_of_fmap. eauto.
  - intros s'' l'' Hok'' Hl'' Hs Hc''. split; [by exists l''|]. split; [congruence|]. right. right.
    split; [done|]. split; [done|]. exists r1, kp, r2.
    rewrite (lru_inv_pairs _ _ Hok''), Hl'', Hl', Hs. done.
Qed.

(** C13: Put of a new key into a cache that is not empty or has room.  Below its
    capacity the block goes to the front and nothing leaves.  Otherwise the
    least recently used block that is not dirty leaves (exactly that one) and
    the new block goes to the front; when every cached block is dirty, Put
    returns false and the cache is as it was.  No dirty block is ever
    dropped, and the invariant (map, list and occupied size agree) is kept. *)
Theorem lru_Put_spec s k v b :
  lru_inv s → k ∉ key <$> pairs s.1 → s.2 !! v = Some b → v ∉ value <$> pairs s.1 →
  (Occupied s.1 < Capacity s.1 ∨ pairs s.1 ≠ []) →
  wp (lru_Put k v) (λ r s', lru_inv s' ∧
    if Occupied s.1 <? Capacity s.1
    then r = true ∧ pairs s'.1 = mkKeyPair k v :: pairs s.1
    else if forallb (dirty_block s.2) (pairs s.1)
    then r = false ∧ s' = s
    else r = true ∧ ∃ r1 kp r2,
      pairs s.1 = r1 ++ kp :: r2 ∧ pairs s'.1 = mkKeyPair k v :: r1 ++ r2 ∧
      dirty_block s.2 kp = false ∧ Forall (λ kp, dirty_block s.2 kp = true) r2) s.
Proof.
  intros Hinv Hk Hb Hv Hroom. eapply wp_mono; [by eapply wp_lru_Put|].
  intros r s' (Hinv' & _ & [(Hlt & -> & _ & Hp)|[(Hge & -> & -> & Hall)|(Hge & -> & Hvic)]]).
  - split; [done|]. by rewrite (proj2 (Z.ltb_lt _ _)).
  - split; [done|]. rewrite (proj2 (Z.ltb_ge _ _)) by done. by rewrite (proj2 (forallb_Forall _ _)).
  - split; [done|]. rewrite (proj2 (Z.ltb_ge _ _)) by done.
    destruct Hvic as (r1 & kp & r2 & Heq & Hp' & Hd & Hr2 & _).
    destruct (forallb _ _) eqn:Hfa; [|split; [done|]; by exists r1, kp, r2].
    rewrite forallb_Forall, Heq, Forall_app, Forall_cons in Hfa.
    destruct Hfa as (_ & Hc & _). by rewrite Hd in Hc.
Qed.

Lemma wp_lru_Get s k :
  lru_inv s →
  wp (lru_Get k) (λ r s', lru_inv s' ∧ Capacity s'.1 = Capacity s.1 ∧ s'.2 = s.2 ∧ Occupied s'.1 = Occupied s.1 ∧
    if decide (k ∈ key <$> pairs s.1) then
      ∃ r1 r2, pairs s.1 = r1 ++ mkKeyPair k r.1 :: r2 ∧ r.2 = true ∧
        pairs s'.1 = mkKeyPair k r.1 :: r1 ++ r2
    else r = (nil_ptr, false) ∧ s' = s) s.
Proof.
  intros [l Hok]. rewrite (lru_inv_pairs _ _ Hok). unfold lru_Get. apply wp_bind.
  unfold wp at 1; simpl. destruct (Elements s.1 !! k) as [e|] eqn:He; cycle 1.
  { apply wp_ret. split; [by exists l|]. rewrite decide_False; [done|]. by apply (ok_key_None s). }
  destruct (ok_lookup _ _ _ _ Hok He) as (p & b & l1 & l2 & Hg & Hb & Heq).
  unfold wp, mbind, go_bind, getKeyPair, the_list; simpl. unfold mbind, go_bind; simpl.
  rewrite (ok_list _ _ Hok). simpl. rewrite Hg. simpl. rewrite (ok_list _ _ Hok). simpl.
  set (l' := GoList.move_to_front e l).
  assert (Hl' : GoList.elems l' = (e, mkKeyPair k p) :: l1 ++ l2).
  { unfold l', GoList.move_to_front. rewrite Hg. simpl. rewrite Heq. f_equal.
    apply wf_filter_split. rewrite <-Heq. apply Hok. }
  assert (Hperm : GoList.elems l' ≡ₚ GoList.elems l).
  { rewrite Hl', Heq. by rewrite Permutation_middle. }
  split_and!; [|done..|].
  - exists l'. destruct Hok as [Hl Hwf Hel Hv Ha Ho]. split; simpl.
    + done.
    + by apply GoListFacts.wf_move_to_front.
    + intros k' e'. rewrite Hel. by setoid_rewrite Hperm.
    + by rewrite Hperm.
    + by rewrite Hperm.
    + rewrite Ho. f_equal. rewrite Hl', Heq. csimpl. rewrite !fmap_app, !total_app.
      csimpl. lia.
  - rewrite decide_True.
    + exists l1.*2, l2.*2. unfold pairs. cbn [List_ from_option].
      rewrite Heq, Hl', fmap_app. csimpl. by rewrite fmap_app.
    + rewrite Heq. apply list_elem_of_fmap. exists (mkKeyPair k p). split; [done|].
      apply list_elem_of_fmap. exists (e, mkKeyPair k p). split; [done|]. apply elem_of_app. right. left.
Qed.

(** C35: Get finds a block exactly when its key is cached, returns the block that
    was stored under the key and makes it the most recently used; the order
    of the other blocks and the occupied size do not change. *)
Theorem lru_Get_spec s k :
  lru_inv s →
  wp (lru_Get k) (λ r s', s'.2 = s.2 ∧ Occupied s'.1 = Occupied s.1 ∧
    if decide (k ∈ key <$> pairs s.1) then
      ∃ r1 r2, pairs s.1 = r1 ++ mkKeyPair k r.1 :: r2 ∧ r.2 = true ∧
        pairs s'.1 = mkKeyPair k r.1 :: r1 ++ r2
    else r = (nil_ptr, false) ∧ s' = s) s.
Proof. intros Hinv. eapply wp_mono; [by apply wp_lru_Get|]. by intros r s' (_ & _ & ?). Qed.

(** ** Runs *)
Lemma lru_Get_inv s k : lru_inv s → wp (lru_Get k) (λ _, lru_inv) s.
Proof. intros Hinv. eapply wp_mono; [by apply wp_lru_Get|]. by intros r s' [? _]. Qed.

Lemma lru_inv_Remove s k : lru_inv s → wp (lru_Remove k) (λ _, lru_inv) s.
Proof.
  intros [l Hok]. destruct (Elements s.1 !! k) as [e|] eqn:He.
  - destruct (ok_lookup _ _ _ _ Hok He) as (p & b & l1 & l2 & Hg & Hb & Heq).
    eapply wp_lru_Remove; [done..|]. intros s' l' Hok' _ _ _. by exists l'.
  - unfold lru_Remove. apply wp_bind. unfold wp at 1; simpl. rewrite He. apply wp_ret. by exists l.
Qed.

Lemma lru_inv_Resize s k z : lru_inv s → wp (lru_Resize k z) (λ _, lru_inv) s.
Proof.
  intros [l Hok]. unfold lru_Resize. apply wp_bind. unfold wp at 1; simpl.
  destruct (Elements s.1 !! k) as [e|] eqn:He; [|apply wp_ret; by exists l].
  destruct (ok_lookup _ _ _ _ Hok He) as (p & b & l1 & l2 & Hg & Hb & Heq).
  unfold wp, mbind, go_bind, getKeyPair, the_list, load_block; simpl. unfold mbind, go_bind; simpl.
  rewrite (ok_list _ _ Hok). simpl. rewrite Hg. simpl. rewrite Hb. simpl.
  exists l. destruct Hok as [Hl Hwf Hel Hv Ha Ho]. split; simpl; try done.
  - eapply Forall_impl; [done|]. intros kp [b' Hb'].
    destruct (decide (value kp = p)) as [->|]; [rewrite lookup_insert_eq|rewrite lookup_insert_ne by done]; eauto.
  - rewrite Ho, Heq. rewrite Heq in Hv. rewrite !fmap_app, !fmap_cons in *. simpl in *.
    apply NoDup_app in Hv as (Hv1 & Hvd & Hv2). apply NoDup_cons in Hv2 as [Hp2 Hv2].
    assert (Hp1 : p ∉ value <$> l1.*2) by (intros H; apply (Hvd p H); left).
    rewrite !total_app. simpl. fold (total s.2 l2.*2). fold (total (<[p:=block_with_end z b]> s.2) l2.*2).
    rewrite !total_insert_ne by done. rewrite lookup_insert_eq, Hb. simpl.
    rewrite !i64_add_l. unfold block_size; simpl.
    set (t1 := total s.2 l1.*2). set (t2 := total s.2 l2.*2).
    replace (t1 + (i64 (EndIndex b - StartIndex b) + t2) + i64 (z - EndIndex b))
      with (i64 (EndIndex b - StartIndex b) + (i64 (z - EndIndex b) + (t1 + t2))) by lia.
    rewrite i64_add_l. rewrite (Z.add_comm (EndIndex b - StartIndex b)), <-Z.add_assoc, i64_add_l.
    replace (t1 + (i64 (z - StartIndex b) + t2)) with (i64 (z - StartIndex b) + (t1 + t2)) by lia.
    rewrite i64_add_l. f_equal. lia.
Qed.

Lemma lru_Remove_elements k s s' : lru_Remove k s = Ret (tt, s') → Elements s'.1 = delete k (Elements s.1).
Proof.
  unfold lru_Remove, mbind, go_bind. simpl. destruct (Elements s.1 !! k) as [e|] eqn:He; simpl.
  - unfold getKeyPair, the_list, load_block, mbind, go_bind. destruct (List_ s.1) as [l|] eqn:El; simpl; [|done].
    destruct (GoList.get e l) as [kp|]; simpl; [|done]. destruct (s.2 !! value kp); simpl; [|done].
    unfold go_deref. rewrite El. simpl. by intros [= <-].
  - intros [= <-]. by rewrite delete_id.
Qed.

(** After Purge. *)
Definition purged (s : lru_state) : Prop := s.1 = mkLRUCache 0 None ∅ 0.

Lemma lru_inv_Remove_all ks s :
  lru_inv s → wp (go_range lru_Remove ks) (λ _ s', lru_inv s' ∧
    ∀ k, is_Some (Elements s'.1 !! k) → is_Some (Elements s.1 !! k) ∧ k ∉ ks) s.
Proof.
  revert s. induction ks as [|k ks IH]; intros s Hinv; simpl.
  { apply wp_ret. split; [done|]. intros k Hk. split; [done|by apply not_elem_of_nil]. }
  apply wp_bind. pose proof (lru_inv_Remove s k Hinv) as ([] & s1 & Hr & H1)%wp_Ret.
  apply wp_Ret. exists tt, s1. split; [done|]. apply lru_Remove_elements in Hr.
  eapply wp_mono; [by apply IH|]. intros _ s2 [H2 Hk2]. split; [done|]. intros k' [Hs Hn]%Hk2.
  rewrite Hr in Hs. destruct (decide (k = k')) as [->|Hne]; [rewrite lookup_delete_eq in Hs; by destruct Hs|].
  rewrite lookup_delete_ne in Hs by done. split; [done|]. by apply not_elem_of_cons.
Qed.

Lemma wp_Purge_all s : lru_inv s → wp lru_Purge (λ _ s', purged s') s.
Proof.
  intros Hinv. unfold lru_Purge. apply wp_bind. unfold wp at 1, go_gets.
  apply wp_bind. eapply wp_mono; [by apply lru_inv_Remove_all|]. intros _ s' [[l Hok] Hno]. simpl in *.
  assert (Hnil : GoList.elems l = []).
  { destruct (GoList.elems l) as [|[e [k p]] l'] eqn:El; [done|]. exfalso.
    assert (He : Elements s'.1 !! k = Some e) by (apply (ok_elements _ _ Hok); exists p; rewrite El; left).
    destruct (Hno k) as [[e' Hk] []]; [by rewrite He|]. unfold lru_Keys. apply list_elem_of_fmap.
    exists (k, e'). split; [done|]. by apply elem_of_map_to_list. }
  unfold wp, go_modify, purged. simpl. by rewrite (ok_occupied _ _ Hok), Hnil.
Qed.

(** States reached by the operations.  Put stores a block that is not in the cache under
    a key that is not in the cache: the stream component calls it after a failed Get. *)
Inductive lru_reach (capacity : Z) : lru_state → Prop :=
  | lru_start m : lru_reach capacity (NewLRUCache capacity, m)
  | lru_alloc c m p b : lru_reach capacity (c, m) → m !! p = None →
      lru_reach capacity (c, <[p:=b]> m)
  | lru_get s k r s' : lru_reach capacity s → lru_Get k s = Ret (r, s') → lru_reach capacity s'
  | lru_put s k v r s' : lru_reach capacity s → is_Some (s.2 !! v) →
      k ∉ key <$> pairs s.1 → v ∉ value <$> pairs s.1 →
      lru_Put k v s = Ret (r, s') → lru_reach capacity s'
  | lru_remove s k s' : lru_reach capacity s → lru_Remove k s = Ret (tt, s') → lru_reach capacity s'
  | lru_resize s k z r s' : lru_reach capacity s → lru_Resize k z s = Ret (r, s') →
      lru_reach capacity s'
  | lru_purge s s' : lru_reach capacity s → lru_Purge s = Ret (tt, s') → lru_reach capacity s'.

Lemma lru_inv_Put s k v r s' :
  lru_inv s → is_Some (s.2 !! v) → k ∉ key <$> pairs s.1 → v ∉ value <$> pairs s.1 →
  lru_Put k v s = Ret (r, s') → lru_inv s'.
Proof.
  intros Hinv [b Hb] Hk Hv Hput.
  assert (Hroom : Occupied s.1 < Capacity s.1 ∨ pairs s.1 ≠ []).
  { destruct (Z.ltb_spec (Occupied s.1) (Capacity s.1)) as [|Hge]; [by left|]. right. intros Hnil.
    unfold lru_Put, mbind, go_bind in Hput. simpl in Hput.
    rewrite (proj2 (Z.leb_le _ _) Hge) in Hput. destruct Hinv as [l Hok].
    rewrite (lru_inv_pairs _ _ Hok) in Hnil. apply fmap_nil_inv in Hnil.
    unfold evict, mbind, go_bind, the_list in Hput. rewrite (ok_list _ _ Hok) in Hput. simpl in Hput.
    unfold GoList.back in Hput. by rewrite Hnil in Hput. }
  pose proof (wp_lru_Put s k v b Hinv Hk Hb Hv Hroom) as H. unfold wp in H. rewrite Hput in H. apply H.
Qed.

(** Every operation on a purged cache leaves it purged, or panics. *)
Lemma purged_Get s k r s' : purged s → lru_Get k s = Ret (r, s') → s' = s.
Proof. intros Hp. unfold lru_Get, mbind, go_bind. simpl. rewrite Hp. simpl. rewrite lookup_empty. by intros [= _ <-]. Qed.
Lemma purged_Remove s k s' : purged s → lru_Remove k s = Ret (tt, s') → s' = s.
Proof. intros Hp. unfold lru_Remove, mbind, go_bind. simpl. rewrite Hp. simpl. rewrite lookup_empty. by intros [= <-]. Qed.
Lemma purged_Resize s k z r s' : purged s → lru_Resize k z s = Ret (r, s') → s' = s.
Proof. intros Hp. unfold lru_Resize, mbind, go_bind. simpl. rewrite Hp. simpl. rewrite lookup_empty. by intros [= _ <-]. Qed.
Lemma purged_Put s k v : purged s → lru_Put k v s = Panic.
Proof.
  intros Hp. unfold lru_Put, mbind, go_bind. simpl. rewrite Hp. simpl.
  unfold evict, the_list, mbind, go_bind. by rewrite Hp.
Qed.
Lemma purged_Purge s s' : purged s → lru_Purge s = Ret (tt, s') → purged s'.
Proof.
  intros Hp. unfold lru_Purge, mbind, go_bind, lru_Keys, purged. simpl. rewrite Hp. simpl.
  rewrite map_to_list_empty. simpl. intros [= <-]. simpl. by rewrite Hp.
Qed.

Lemma lru_reach_inv capacity s : lru_reach capacity s → lru_inv s ∨ purged s.
Proof.
  intros Hr. induction Hr as [m|c m p b _ IH Hp|s k r s' _ IH Hg|s k v r s' _ IH Ha Hk Hv Hp
                  |s k s' _ IH Hrm|s k z r s' _ IH Hrs|s s' _ IH Hpg].
  - left. eexists. apply lru_ok_new.
  - destruct IH as [[l [Hl Hwf Hel Hv Ha Ho]]|IH]; [left|by right]. exists l. split; simpl in *; try done.
    + eapply Forall_impl; [done|]. simpl. intros kp [b' Hb'].
      rewrite lookup_insert_ne; [eauto|congruence].
    + rewrite total_insert_ne; [done|]. intros (kp & -> & Hkp)%list_elem_of_fmap.
      rewrite Forall_forall in Ha. destruct (Ha _ Hkp). simpl in *. congruence.
  - destruct IH as [IH|IH]; [left|right; by rewrite (purged_Get _ _ _ _ IH Hg)].
    pose proof (lru_Get_inv s k IH) as H. unfold wp in H. by rewrite Hg in H.
  - destruct IH as [IH|IH]; [left; by eapply lru_inv_Put|by rewrite purged_Put in Hp].
  - destruct IH as [IH|IH]; [left|right; by rewrite (purged_Remove _ _ _ IH Hrm)].
    pose proof (lru_inv_Remove s k IH) as H. unfold wp in H. by rewrite Hrm in H.
  - destruct IH as [IH|IH]; [left|right; by rewrite (purged_Resize _ _ _ _ _ IH Hrs)].
    pose proof (lru_inv_Resize s k z IH) as H. unfold wp in H. by rewrite Hrs in H.
  - right. destruct IH as [IH|IH]; [|by eapply purged_Purge].
    pose proof (wp_Purge_all s IH) as H. unfold wp in H. by rewrite Hpg in H.
Qed.

(** No key occurs twice in the list: the map has one element for it. *)
Lemma lru_ok_keys s l : lru_ok s l → NoDup (key <$> (GoList.elems l).*2).
Proof.
  intros Hok. pose proof (ok_wf _ _ Hok) as [Hnd _]. apply NoDup_alt. intros i j k.
  rewrite !list_lookup_fmap. intros Hi Hj.
  destruct (GoList.elems l !! i) as [[ei [ki pi]]|] eqn:Ei; [|done].
  destruct (GoList.elems l !! j) as [[ej [kj pj]]|] eqn:Ej; [|done]. simpl in *. simplify_eq.
  assert (Hi : Elements s.1 !! k = Some ei) by (apply (ok_elements _ _ Hok); eauto using list_elem_of_lookup_2).
  assert (Hj : Elements s.1 !! k = Some ej) by (apply (ok_elements _ _ Hok); eauto using list_elem_of_lookup_2).
  rewrite Hi in Hj. injection Hj as ->.
  apply (NoDup_lookup _ i j ej Hnd); rewrite list_lookup_fmap; [by rewrite Ei|by rewrite Ej].
Qed.

(** C26: in every state that Get, Put, Remove, Resize and Purge reach from a new cache, the
    cache is consistent: the map holds exactly the keys of the list, no key and no block
    occurs twice, and the occupied size is the sum of the sizes of the cached blocks.  Put
    is called with a block and a key that are not in the cache, as its callers do; blocks
    are allocated in between. *)
Theorem lru_consistent capacity s :
  lru_reach capacity s →
  (∀ k, is_Some (Elements s.1 !! k) ↔ k ∈ key <$> pairs s.1) ∧
  NoDup (key <$> pairs s.1) ∧ NoDup (value <$> pairs s.1) ∧
  Occupied s.1 = i64 (total s.2 (pairs s.1)).
Proof.
  intros [[l Hok]|Hp]%lru_reach_inv; cycle 1.
  { unfold pairs. rewrite Hp. simpl. split_and!; try apply NoDup_nil_2; [|done]. intros k. rewrite lookup_empty.
    split; [by intros [? ?]|by intros ?%not_elem_of_nil]. }
  rewrite (lru_inv_pairs _ _ Hok). split_and!; [|by eapply lru_ok_keys|apply Hok..].
  intros k. pose proof (ok_key_None s l k Hok) as Hn. split.
  - intros [e He]. destruct (decide (k ∈ key <$> (GoList.elems l).*2)) as [|Hni]; [done|].
    apply Hn in Hni. congruence.
  - intros Hin. destruct (Elements s.1 !! k); [eauto|]. by apply Hn in Hin.
Qed.

(** ** Witnesses *)
Module Witness.
Definition heap : gmap ptr Block :=
  {[1%nat := mkBlock 0 2 0 "" []; 2%nat := mkBlock 2 4 (Set_ 0 DirtyBlock) "" [];
    3%nat := mkBlock 4 6 0 "" []]}.
Definition after_put (k : Z) (v : ptr) (s : lru_state) : lru_state :=
  match lru_Put k v s with Ret (_, s') => s' | _ => s end.
(** A clean and a dirty block fill the cache; the dirty one is older. *)
Definition s2 : lru_state := after_put 0 1%nat (after_put 2 2%nat (NewLRUCache 4, heap)).

Lemma s2_reach : lru_reach 4 s2.
Proof.
  eapply (lru_put 4 (after_put 2 2%nat (NewLRUCache 4, heap)) 0 1%nat true);
    [|vm_compute; eauto|refine (bool_decide_unpack _ _); vm_compute; done
     |refine (bool_decide_unpack _ _); vm_compute; done|vm_compute; reflexivity].
  eapply (lru_put 4 (NewLRUCache 4, heap) 2 2%nat true);
    [|vm_compute; eauto|refine (bool_decide_unpack _ _); vm_compute; done
     |refine (bool_decide_unpack _ _); vm_compute; done|vm_compute; reflexivity].
  apply lru_start.
Defined.

Lemma s2_inv : lru_inv s2.
Proof. destruct (lru_reach_inv 4 s2 s2_reach) as [H|H]; [exact H|discriminate H]. Qed.

Lemma lru_consistent_witness :
  (∀ k, is_Some (Elements s2.1 !! k) ↔ k ∈ key <$> pairs s2.1) ∧
  NoDup (key <$> pairs s2.1) ∧ NoDup (value <$> pairs s2.1) ∧ Occupied s2.1 = i64 (total s2.2 (pairs s2.1)).
Proof. apply (lru_consistent 4 s2 s2_reach). Defined.

Lemma lru_Get_spec_witness :
  wp (lru_Get 2) (λ r s', s'.2 = s2.2 ∧ Occupied s'.1 = Occupied s2.1 ∧
    if decide (2 ∈ key <$> pairs s2.1) then
      ∃ r1 r2, pairs s2.1 = r1 ++ mkKeyPair 2 r.1 :: r2 ∧ r.2 = true ∧
        pairs s'.1 = mkKeyPair 2 r.1 :: r1 ++ r2
    else r = (nil_ptr, false) ∧ s' = s2) s2.
Proof. apply (lru_Get_spec s2 2 s2_inv). Defined.

(** The clean block leaves although the dirty one is less recently used. *)
Lemma lru_Put_spec_witness :
  wp (lru_Put 4 3%nat) (λ r s', lru_inv s' ∧
    if Occupied s2.1 <? Capacity s2.1
    then r = true ∧ pairs s'.1 = mkKeyPair 4 3%nat :: pairs s2.1
    else if forallb (dirty_block s2.2) (pairs s2.1)
    then r = false ∧ s' = s2
    else r = true ∧ ∃ r1 kp r2,
      pairs s2.1 = r1 ++ kp :: r2 ∧ pairs s'.1 = mkKeyPair 4 3%nat :: r1 ++ r2 ∧
      dirty_block s2.2 kp = false ∧ Forall (λ kp, dirty_block s2.2 kp = true) r2) s2.
Proof.
  apply (lru_Put_spec s2 4 3%nat (mkBlock 4 6 0 "" []) s2_inv).
  - refine (bool_decide_unpack _ _); vm_compute; done.
  - vm_compute. reflexivity.
  - refine (bool_decide_unpack _ _); vm_compute; done.
  - right. vm_compute. discriminate.
Defined.

(** A cache of capacity 0 panics on its first Put: the back of the empty list
    is dereferenced. *)
Example Put_capacity_0_panics : lru_Put 0 1%nat (NewLRUCache 0, heap) = Panic.
Proof. reflexivity. Qed.
End Witness.
