(* ===== verification/Chain.v ===== *)
(** * Doubly linked lists on a heap

    Several components link objects by address (the LRU and LFU policies of the
    file cache).  [chain nx pv m pr l z]: the objects at the addresses of [l] are
    linked in order by the fields [nx] and [pv]; the first one's [pv] is [pr] and
    the last one's [nx] is [z].  A list with its two ends is a [dlist]. *)
From S2P Require Import Prelude.

Definition hd_or (z : ptr) (l : list ptr) : ptr :=
  match l with [] => z | q :: _ => q end.
Definition last_or (pr : ptr) (l : list ptr) : ptr := default pr (last l).

Lemma last_or_cons pr q l : last_or pr (q :: l) = last_or q l.
Proof. unfold last_or. rewrite last_cons. by destruct (last l). Qed.
Lemma last_or_app pr l1 l2 : last_or pr (l1 ++ l2) = last_or (last_or pr l1) l2.
Proof. revert pr. induction l1 as [|q l1 IH]; intros pr; simpl; [done|]. by rewrite !last_or_cons. Qed.
Lemma hd_or_app z l1 l2 : hd_or z (l1 ++ l2) = hd_or (hd_or z l2) l1.
Proof. by destruct l1. Qed.
Lemma last_or_in pr l : l ≠ [] → last_or pr l ∈ l.
Proof.
  induction l as [|q l IH] using rev_ind; [done|]. intros _. rewrite last_or_app, last_or_cons.
  apply elem_of_app. right. by left.
Qed.

(** Fields that hold links, with their stores. *)
Class LinkLaws {A : Type} (nx pv : A → ptr) (set_nx set_pv : ptr → A → A) : Prop := {
  nx_set_nx q n : nx (set_nx q n) = q;
  pv_set_nx q n : pv (set_nx q n) = pv n;
  nx_set_pv q n : nx (set_pv q n) = nx n;
  pv_set_pv q n : pv (set_pv q n) = q
}.

Section chain.
Context {A : Type} (nx pv : A → ptr).
Implicit Types (m : gmap ptr A).

Fixpoint chain m (pr : ptr) (l : list ptr) (z : ptr) : Prop :=
  match l with
  | [] => True
  | q :: r => (∃ n, m !! q = Some n ∧ pv n = pr ∧ nx n = hd_or z r) ∧ chain m q r z
  end.

Lemma chain_app m pr l1 l2 z :
  chain m pr (l1 ++ l2) z ↔ chain m pr l1 (hd_or z l2) ∧ chain m (last_or pr l1) l2 z.
Proof.
  revert pr. induction l1 as [|q l1 IH]; intros pr; simpl; [unfold last_or; simpl; tauto|].
  rewrite IH, last_or_cons, hd_or_app. tauto.
Qed.

Lemma chain_elem m pr l z q : chain m pr l z → q ∈ l → is_Some (m !! q).
Proof.
  revert pr. induction l as [|x l IH]; intros pr; [by intros _ ?%not_elem_of_nil|].
  intros [(n & Hn & _) Hs] [->|Hin]%elem_of_cons; eauto.
Qed.

(** A chain depends on the links of its own objects only. *)
Lemma chain_links m m' pr l z :
  (∀ q, q ∈ l → (λ n, (nx n, pv n)) <$> m' !! q = (λ n, (nx n, pv n)) <$> m !! q) →
  chain m pr l z → chain m' pr l z.
Proof.
  revert pr. induction l as [|q l IH]; intros pr Hl; [done|]. intros [(n & Hn & Hp & Hx) Hs]. split.
  - specialize (Hl q ltac:(left)). rewrite Hn in Hl. simpl in Hl.
    destruct (m' !! q) as [n'|]; [|done]. injection Hl as Hx' Hp'. exists n'. by rewrite Hp', Hx'.
  - apply IH; [|done]. intros x Hx'. apply Hl. by right.
Qed.

Lemma chain_insert_ne m q n pr l z : q ∉ l → chain m pr l z → chain (<[q:=n]> m) pr l z.
Proof.
  intros Hq. apply chain_links. intros x Hx. rewrite lookup_insert_ne; [done|]. by intros ->.
Qed.

(** Stores to the backward link of the first object and to the forward link of
    the last one. *)
Lemma chain_set_prev m q n n' pr pr' r z :
  chain m pr (q :: r) z → q ∉ r → m !! q = Some n → nx n' = nx n → pv n' = pr' →
  chain (<[q:=n']> m) pr' (q :: r) z.
Proof.
  intros [(n0 & Hn0 & _ & Hx) Hs] Hq Hn Hnx Hpv. rewrite Hn in Hn0. injection Hn0 as <-.
  split; [|by apply chain_insert_ne]. exists n'. rewrite lookup_insert_eq. by rewrite Hnx.
Qed.

Lemma chain_set_next m q n n' pr l z z' :
  chain m pr (l ++ [q]) z → q ∉ l → m !! q = Some n → pv n' = pv n → nx n' = z' →
  chain (<[q:=n']> m) pr (l ++ [q]) z'.
Proof.
  rewrite !chain_app. intros [Hs [(n0 & Hn0 & Hp & _) _]] Hq Hn Hpv Hnx. rewrite Hn in Hn0. injection Hn0 as <-.
  split; [by apply chain_insert_ne|]. split; [|done]. exists n'. rewrite lookup_insert_eq. by rewrite Hpv.
Qed.

(** ** Lists with two ends *)
Definition dlist m (first last_ : ptr) (l : list ptr) : Prop :=
  chain m nil_ptr l nil_ptr ∧ first = hd_or nil_ptr l ∧ last_ = last_or nil_ptr l ∧ NoDup l ∧ nil_ptr ∉ l.

Lemma dlist_links m m' f e l :
  (∀ q, q ∈ l → (λ n, (nx n, pv n)) <$> m' !! q = (λ n, (nx n, pv n)) <$> m !! q) →
  dlist m f e l → dlist m' f e l.
Proof. intros Hl (Hc & Hr). split; [by eapply chain_links|done]. Qed.
Lemma dlist_insert_ne m q n f e l : q ∉ l → dlist m f e l → dlist (<[q:=n]> m) f e l.
Proof. intros Hq (Hc & Hr). split; [by apply chain_insert_ne|done]. Qed.
Lemma dlist_nil m : dlist m nil_ptr nil_ptr [].
Proof. split_and!; [done..|constructor|by intros ?%not_elem_of_nil]. Qed.
Lemma dlist_single m q n :
  m !! q = Some n → nx n = nil_ptr → pv n = nil_ptr → q ≠ nil_ptr → dlist m q q [q].
Proof.
  intros Hn Hx Hp Hq. split_and!; [|done..|by apply NoDup_singleton|by intros ?%list_elem_of_singleton].
  split; [|done]. exists n. split_and!; done.
Qed.
(** The ends are the same object exactly in a list of at most one. *)
Lemma dlist_ends m f e l : dlist m f e l → f = e → l = [] ∨ ∃ q, l = [q].
Proof.
  intros (_ & -> & -> & Hnd & Hnil) Heq. destruct l as [|q r]; [by left|]. right.
  destruct r as [|x r]; [by exists q|]. exfalso. rewrite last_or_cons in Heq. simpl in Heq.
  apply NoDup_cons in Hnd as [Hq _]. apply Hq. rewrite Heq. by apply last_or_in.
Qed.
Lemma dlist_nil_inv m f e l : dlist m f e l → f = nil_ptr → l = [].
Proof. intros (_ & -> & _ & _ & Hnil) Hf. destruct l as [|q r]; [done|]. simpl in Hf. subst. exfalso. apply Hnil. by left. Qed.
Lemma dlist_lookup m f e l1 q l2 :
  dlist m f e (l1 ++ q :: l2) →
  ∃ n, m !! q = Some n ∧ nx n = hd_or nil_ptr l2 ∧ pv n = last_or nil_ptr l1.
Proof. intros ([_ [(n & ? & ? & ?) _]]%chain_app & _). by exists n. Qed.

(** The links at the two ends of a chain are redirected. *)
Definition redirected m m' (a b : ptr) (na pb : ptr) (l : list ptr) : Prop :=
  ∀ x n, x ∈ l → m !! x = Some n → ∃ n', m' !! x = Some n' ∧
    nx n' = (if decide (x = a) then na else nx n) ∧ pv n' = (if decide (x = b) then pb else pv n).

Lemma chain_redirect m m' pr pr' l z z' :
  NoDup l → chain m pr l z → redirected m m' (last_or nil_ptr l) (hd_or nil_ptr l) z' pr' l →
  chain m' pr' l z'.
Proof.
  revert pr pr'. induction l as [|q r IH]; intros pr pr' Hnd Hc Hm; [done|].
  apply NoDup_cons in Hnd as [Hq Hnd]. destruct Hc as [(n & Hn & Hp & Hx) Hc]. split.
  - destruct (Hm q n ltac:(left) Hn) as (n' & Hn' & Hx' & Hp'). exists n'. split; [done|]. simpl in Hp'.
    rewrite decide_True in Hp' by done. split; [done|]. rewrite Hx', last_or_cons.
    destruct r as [|y r]; [by rewrite decide_True|]. rewrite decide_False; [done|].
    intros Heq. apply Hq. rewrite Heq. by apply last_or_in.
  - apply (IH q q Hnd Hc). intros x nx0 Hin Hx0. destruct (Hm x nx0 ltac:(by right) Hx0) as (n' & Hn' & Hx' & Hp').
    exists n'. split; [done|]. simpl in Hp'. rewrite decide_False in Hp' by (intros ->; done).
    split.
    + rewrite Hx', last_or_cons. destruct r as [|y r]; [by apply not_elem_of_nil in Hin|].
      by rewrite !last_or_cons.
    + rewrite Hp'. destruct (decide (x = hd_or nil_ptr r)) as [Hh|]; [|done]. destruct r as [|y r]; [by apply not_elem_of_nil in Hin|].
      simpl in Hh. subst y. destruct Hc as [(n1 & H1 & Hp1 & _) _]. rewrite Hx0 in H1. by injection H1 as <-.
Qed.

(** Two parts are apart: neither has the other's end, or nil. *)
Lemma parts_apart l1 l2 :
  NoDup (l1 ++ l2) → nil_ptr ∉ l1 ++ l2 →
  (∀ x, x ∈ l1 → x ≠ hd_or nil_ptr l2) ∧ (∀ x, x ∈ l2 → x ≠ last_or nil_ptr l1).
Proof.
  intros (_ & Hd & _)%NoDup_app Hnil. split; intros x Hx ->.
  - destruct l2 as [|y l2]; simpl in *; [set_solver|]. apply (Hd y Hx). by left.
  - destruct l1 as [|y l1]; [unfold last_or in Hx; simpl in *; set_solver|].
    by apply (Hd (last_or nil_ptr (y :: l1))); [apply last_or_in|].
Qed.

Lemma chain_parts m m' l1 l2 z pr a b :
  NoDup (l1 ++ l2) → nil_ptr ∉ l1 ++ l2 → chain m nil_ptr l1 z → chain m pr l2 nil_ptr →
  redirected m m' (last_or nil_ptr l1) (hd_or nil_ptr l2) a b (l1 ++ l2) →
  chain m' nil_ptr l1 a ∧ chain m' b l2 nil_ptr.
Proof.
  intros Hnd Hnil Hc1 Hc2 Hr. destruct (parts_apart _ _ Hnd Hnil) as [Hs1 Hs2].
  apply NoDup_app in Hnd as (Hn1 & _ & Hn2). split.
  - eapply chain_redirect; [done|exact Hc1|]. intros x n Hx Hn.
    destruct (Hr x n ltac:(set_solver) Hn) as (n' & Hn' & Hx' & Hp'). exists n'. split; [done|]. split; [done|].
    rewrite Hp', (decide_False _ _ (P := x = hd_or nil_ptr l2)) by (by apply Hs1).
    destruct (decide (x = hd_or nil_ptr l1)) as [Hh|]; [|done].
    destruct l1 as [|y l1]; [by apply not_elem_of_nil in Hx|]. simpl in Hh. subst y.
    destruct Hc1 as [(n1 & H1 & Hp1 & _) _]. rewrite Hn in H1. by injection H1 as <-.
  - eapply chain_redirect; [done|exact Hc2|]. intros x n Hx Hn.
    destruct (Hr x n ltac:(set_solver) Hn) as (n' & Hn' & Hx' & Hp'). exists n'. split; [done|]. split; [|done].
    rewrite Hx', (decide_False _ _ (P := x = last_or nil_ptr l1)) by (by apply Hs2).
    destruct (decide (x = last_or nil_ptr l2)) as [Hh|]; [|done].
    destruct l2 as [|y l2 _] using rev_ind; [by apply not_elem_of_nil in Hx|].
    rewrite last_or_app, last_or_cons in Hh. unfold last_or in Hh. simpl in Hh. subst y.
    apply chain_app in Hc2 as [_ [(n1 & H1 & _ & Hx1) _]]. rewrite Hn in H1. by injection H1 as <-.
Qed.

(** Taking out an object, wherever it is. *)
Lemma dlist_remove m m' f e l1 q l2 :
  dlist m f e (l1 ++ q :: l2) →
  redirected m m' (last_or nil_ptr l1) (hd_or nil_ptr l2) (hd_or nil_ptr l2) (last_or nil_ptr l1) (l1 ++ l2) →
  dlist m' (hd_or nil_ptr (l1 ++ l2)) (last_or nil_ptr (l1 ++ l2)) (l1 ++ l2).
Proof.
  intros ([Hc1 [_ Hc2]]%chain_app & _ & _ & Hnd & Hnil) Hr.
  assert (Hnd' : NoDup (l1 ++ l2)) by (rewrite <-Permutation_middle in Hnd; by apply NoDup_cons in Hnd as [_ ?]).
  assert (Hnil' : nil_ptr ∉ l1 ++ l2) by set_solver.
  split_and!; [|done..]. apply chain_app. by eapply chain_parts.
Qed.

(** Putting an object between two parts. *)
Lemma dlist_insert m m' f e l1 q nq l2 :
  dlist m f e (l1 ++ l2) → q ∉ l1 ++ l2 → q ≠ nil_ptr →
  m' !! q = Some nq → nx nq = hd_or nil_ptr l2 → pv nq = last_or nil_ptr l1 →
  redirected m m' (last_or nil_ptr l1) (hd_or nil_ptr l2) q q (l1 ++ l2) →
  dlist m' (hd_or nil_ptr (l1 ++ q :: l2)) (last_or nil_ptr (l1 ++ q :: l2)) (l1 ++ q :: l2).
Proof.
  intros ([Hc1 Hc2]%chain_app & _ & _ & Hnd & Hnil) Hq Hqnil Hnq Hnx Hpv Hr.
  destruct (chain_parts _ _ _ _ _ _ _ _ Hnd Hnil Hc1 Hc2 Hr) as [H1 H2].
  split_and!; [|done|done|rewrite <-Permutation_middle; by constructor|set_solver].
  apply chain_app. split; [done|]. split; [by exists nq|done].
Qed.

Lemma dlist_members m f e l1 q l2 y :
  dlist m f e (l1 ++ q :: l2) → y ∈ l1 ++ l2 → y ≠ q ∧ y ≠ nil_ptr.
Proof.
  intros (_ & _ & _ & Hnd & Hnil) Hy. rewrite <-Permutation_middle in Hnd, Hnil.
  apply NoDup_cons in Hnd as [Hq _]. set_solver.
Qed.

(** What is at an end has nothing beyond it. *)
Lemma dlist_at_first m f e l1 q l2 : dlist m f e (l1 ++ q :: l2) → f = q → l1 = [].
Proof.
  intros Hd Hf. destruct l1 as [|y l1]; [done|]. destruct (dlist_members _ _ _ _ _ _ y Hd ltac:(by left)).
  destruct Hd as (_ & Hf' & _). simpl in Hf'. congruence.
Qed.
Lemma dlist_at_last m f e l1 q l2 : dlist m f e (l1 ++ q :: l2) → e = q → l2 = [].
Proof.
  intros Hd He. destruct l2 as [|y l2 _] using rev_ind; [done|].
  destruct (dlist_members _ _ _ _ _ _ y Hd ltac:(set_solver)). destruct Hd as (_ & _ & He' & _).
  rewrite He', last_or_app, last_or_cons, last_or_app, last_or_cons in He. unfold last_or in He. simpl in He. congruence.
Qed.

(** ** Unlinking and linking with field stores *)
Context (set_nx set_pv : ptr → A → A) `{!LinkLaws nx pv set_nx set_pv}.

Lemma dlist_unlink_first m f e l1 q l2 n :
  dlist m f e (l1 ++ q :: l2) → m !! q = Some n → f ≠ e → f = q →
  l1 = [] ∧ nx n ∈ l2 ∧ nx n ≠ q ∧ ∃ ny, m !! nx n = Some ny ∧
    dlist (<[nx n := set_pv nil_ptr ny]> (<[q := set_nx nil_ptr n]> m)) (nx n) e l2.
Proof.
  intros Hd Hn Hne Hf. pose proof (λ y, dlist_members _ _ _ _ _ _ y Hd) as Hin.
  pose proof (dlist_lookup _ _ _ _ _ _ Hd) as (n0 & Hn0 & Hnx & _). rewrite Hn in Hn0. injection Hn0 as <-.
  pose proof Hd as (_ & Hf' & He & _ & _).
  pose proof (dlist_at_first _ _ _ _ _ _ Hd Hf) as ->.
  split; [done|]. destruct l2 as [|y l2]; [by rewrite Hf', He in Hne|]. simpl in Hnx. rewrite Hnx.
  destruct (dlist_lookup m f e [q] y l2 Hd) as (ny & Hny & _). destruct (Hin y ltac:(by left)) as [Hyq Hynil].
  split; [by left|]. split; [done|]. exists ny. split; [done|].
  replace e with (last_or nil_ptr ([] ++ y :: l2)) by (rewrite He; simpl; by rewrite !last_or_cons).
  eapply (dlist_remove _ _ _ _ [] q (y :: l2)); [exact Hd|]. intros z nz Hz Hnz. simpl.
  destruct (Hin z Hz) as [Hzq Hznil]. unfold last_or at 1. simpl. rewrite decide_False by done.
  destruct (decide (z = y)) as [->|Hzy].
  - rewrite lookup_insert_eq. rewrite Hny in Hnz. injection Hnz as <-. eexists. split; [done|]. by rewrite nx_set_pv, pv_set_pv.
  - rewrite !lookup_insert_ne by done. by exists nz.
Qed.

Lemma dlist_unlink_last m f e l1 q l2 n :
  dlist m f e (l1 ++ q :: l2) → m !! q = Some n → f ≠ q → e = q →
  l2 = [] ∧ pv n ∈ l1 ∧ pv n ≠ q ∧ ∃ ny, m !! pv n = Some ny ∧
    dlist (<[pv n := set_nx nil_ptr ny]> (<[q := set_pv nil_ptr n]> m)) f (pv n) l1.
Proof.
  intros Hd Hn Hf He. pose proof (λ y, dlist_members _ _ _ _ _ _ y Hd) as Hin.
  pose proof (dlist_lookup _ _ _ _ _ _ Hd) as (n0 & Hn0 & _ & Hpv). rewrite Hn in Hn0. injection Hn0 as <-.
  pose proof Hd as (_ & Hf' & He' & _ & _).
  pose proof (dlist_at_last _ _ _ _ _ _ Hd He) as ->.
  split; [done|]. destruct l1 as [|y l1 _] using rev_ind; [by rewrite Hf' in Hf|].
  assert (Hly : last_or nil_ptr (l1 ++ [y]) = y) by (by rewrite last_or_app, last_or_cons).
  rewrite Hly in Hpv. rewrite Hpv. destruct (Hin y ltac:(set_solver)) as [Hyq Hynil].
  assert (Hd' : dlist m f e (l1 ++ y :: [q])) by (by rewrite <-app_assoc in Hd).
  destruct (dlist_lookup m f e l1 y [q] Hd') as (ny & Hny & _).
  split; [set_solver|]. split; [done|]. exists ny. split; [done|].
  replace f with (hd_or nil_ptr ((l1 ++ [y]) ++ [])) by (rewrite Hf', !hd_or_app; by destruct l1).
  replace y with (last_or nil_ptr ((l1 ++ [y]) ++ [])) at 3 by (by rewrite app_nil_r).
  rewrite <-(app_nil_r (l1 ++ [y])) at 3.
  eapply (dlist_remove _ _ _ _ (l1 ++ [y]) q []); [exact Hd|]. intros z nz Hz Hnz. rewrite Hly. simpl.
  destruct (Hin z Hz) as [Hzq Hznil]. rewrite (decide_False (P := z = nil_ptr)) by done.
  destruct (decide (z = y)) as [->|Hzy].
  - rewrite lookup_insert_eq. rewrite Hny in Hnz. injection Hnz as <-. eexists. split; [done|]. by rewrite nx_set_nx, pv_set_nx.
  - rewrite !lookup_insert_ne by done. by exists nz.
Qed.

Lemma dlist_unlink_mid m f e l1 q l2 n :
  dlist m f e (l1 ++ q :: l2) → m !! q = Some n → f ≠ q → e ≠ q →
  pv n ∈ l1 ∧ nx n ∈ l2 ∧ pv n ≠ q ∧ nx n ≠ q ∧ pv n ≠ nx n ∧ ∃ na nc, m !! pv n = Some na ∧ m !! nx n = Some nc ∧
    ∀ n', dlist (<[q := n']> (<[nx n := set_pv (pv n) nc]> (<[pv n := set_nx (nx n) na]> m))) f e (l1 ++ l2).
Proof.
  intros Hd Hn Hf He. pose proof (λ y, dlist_members _ _ _ _ _ _ y Hd) as Hin.
  pose proof (dlist_lookup _ _ _ _ _ _ Hd) as (n0 & Hn0 & Hnx & Hpv). rewrite Hn in Hn0. injection Hn0 as <-.
  pose proof Hd as (_ & Hf' & He' & Hdup & _).
  destruct l1 as [|a l1 _] using rev_ind; [by rewrite Hf' in Hf|].
  destruct l2 as [|c l2]; [rewrite He', last_or_app, last_or_cons in He; done|]. simpl in Hnx.
  assert (Hla : last_or nil_ptr (l1 ++ [a]) = a) by (by rewrite last_or_app, last_or_cons).
  rewrite Hla in Hpv. rewrite Hnx, Hpv. destruct (Hin a ltac:(set_solver)) as [Haq _].
  destruct (Hin c ltac:(set_solver)) as [Hcq _].
  assert (Hac : a ≠ c).
  { intros ->. apply NoDup_app in Hdup as (_ & Hdis & _). apply (Hdis c); set_solver. }
  assert (Hd1 : dlist m f e (l1 ++ a :: q :: c :: l2)) by (by rewrite <-app_assoc in Hd).
  assert (Hd2 : dlist m f e ((l1 ++ [a; q]) ++ c :: l2)) by (by rewrite <-!app_assoc in *).
  destruct (dlist_lookup _ _ _ _ _ _ Hd1) as (na & Hna & _). destruct (dlist_lookup _ _ _ _ _ _ Hd2) as (nc & Hnc & _).
  split_and!; [set_solver..|]. exists na, nc. split_and!; [done..|]. intros n'.
  replace f with (hd_or nil_ptr ((l1 ++ [a]) ++ c :: l2)) by (rewrite Hf'; by destruct l1).
  replace e with (last_or nil_ptr ((l1 ++ [a]) ++ c :: l2)) by (rewrite He', !last_or_app, !last_or_cons; done).
  eapply (dlist_remove _ _ _ _ (l1 ++ [a]) q (c :: l2)); [exact Hd|]. rewrite Hla. intros z nz Hz Hnz. simpl.
  destruct (Hin z Hz) as [Hzq Hznil]. rewrite lookup_insert_ne by done. destruct (decide (z = c)) as [->|Hzc].
  - rewrite lookup_insert_eq. rewrite Hnc in Hnz. injection Hnz as <-. eexists. split; [done|].
    by rewrite decide_False, nx_set_pv, pv_set_pv.
  - rewrite lookup_insert_ne by done. destruct (decide (z = a)) as [->|Hza].
    + rewrite lookup_insert_eq. rewrite Hna in Hnz. injection Hnz as <-. eexists. split; [done|]. by rewrite nx_set_nx, pv_set_nx.
    + rewrite lookup_insert_ne by done. by exists nz.
Qed.

(** A list whose two ends coincide has one object, with no links. *)
Lemma dlist_unlink_only m f e l1 q l2 n :
  dlist m f e (l1 ++ q :: l2) → m !! q = Some n → f = e →
  l1 = [] ∧ l2 = [] ∧ nx n = nil_ptr ∧ pv n = nil_ptr.
Proof.
  intros Hd Hn Heq. pose proof (dlist_lookup _ _ _ _ _ _ Hd) as (n0 & Hn0 & Hnx & Hpv). rewrite Hn in Hn0. injection Hn0 as <-.
  destruct (dlist_ends _ _ _ _ Hd Heq) as [Hl|[y Hl]]; [by destruct l1|].
  destruct l1 as [|? [|]]; [|done..]. by destruct l2.
Qed.

Lemma dlist_append m f e l q nq :
  dlist m f e l → f ≠ nil_ptr → q ∉ l → q ≠ nil_ptr → m !! q = Some nq → nx nq = nil_ptr →
  e ≠ q ∧ ∃ ne, m !! e = Some ne ∧ dlist (<[q := set_pv e nq]> (<[e := set_nx q ne]> m)) f q (l ++ [q]).
Proof.
  intros Hd Hf Hq Hqnil Hnq Hnx. pose proof Hd as (_ & Hf' & He & Hdup & Hnil).
  destruct l as [|y l _] using rev_ind; [done|].
  assert (Hly : last_or nil_ptr (l ++ [y]) = y) by (by rewrite last_or_app, last_or_cons). rewrite Hly in He. subst e.
  destruct (dlist_lookup _ _ _ _ _ _ Hd) as (ny & Hny & _). split; [set_solver|]. exists ny. split; [done|].
  replace f with (hd_or nil_ptr ((l ++ [y]) ++ [q])) by (rewrite Hf'; by destruct l).
  replace q with (last_or nil_ptr ((l ++ [y]) ++ [q])) at 4 by (by rewrite last_or_app, last_or_cons).
  rewrite <-(app_nil_r (l ++ [y])) in Hd, Hq.
  eapply (dlist_insert _ _ _ _ (l ++ [y]) q (set_pv y nq) []); [exact Hd|done|done|by rewrite lookup_insert_eq| |
    by rewrite pv_set_pv|]; [by rewrite nx_set_pv|].
  rewrite Hly. simpl. rewrite app_nil_r in *. intros z nz Hz Hnz. rewrite lookup_insert_ne by set_solver.
  rewrite (decide_False (P := z = nil_ptr)) by (by intros ->). destruct (decide (z = y)) as [->|Hzy].
  - rewrite lookup_insert_eq. rewrite Hny in Hnz. injection Hnz as <-. eexists. split; [done|]. by rewrite nx_set_nx, pv_set_nx.
  - rewrite lookup_insert_ne by done. by exists nz.
Qed.

Lemma dlist_insert_after m f e l1 a l2 q na :
  dlist m f e (l1 ++ a :: l2) → m !! a = Some na → a ≠ e → q ∉ l1 ++ a :: l2 → q ≠ nil_ptr →
  nx na ≠ a ∧ nx na ≠ q ∧ a ≠ q ∧ ∃ nc, m !! nx na = Some nc ∧ ∀ n', nx n' = nx na → pv n' = a →
    dlist (<[q := n']> (<[a := set_nx q na]> (<[nx na := set_pv q nc]> m))) f e (l1 ++ a :: q :: l2).
Proof.
  intros Hd Hna Hae Hq Hqnil. pose proof Hd as (_ & Hf' & He & Hdup & Hnil).
  pose proof (dlist_lookup _ _ _ _ _ _ Hd) as (n0 & Hn0 & Hnx & _). rewrite Hna in Hn0. injection Hn0 as <-.
  destruct l2 as [|c l2]; [rewrite He, last_or_app, last_or_cons in Hae; done|]. simpl in Hnx. rewrite Hnx.
  assert (Hd' : dlist m f e ((l1 ++ [a]) ++ c :: l2)) by (by rewrite <-app_assoc).
  destruct (dlist_lookup _ _ _ _ _ _ Hd') as (nc & Hnc & _).
  assert (Hca : c ≠ a).
  { intros ->. apply NoDup_app in Hdup as (_ & _ & [Ha _]%NoDup_cons). set_solver. }
  split_and!; [done|set_solver|set_solver|]. exists nc. split; [done|]. intros n' Hnx' Hpv'.
  assert (Hla : last_or nil_ptr (l1 ++ [a]) = a) by (by rewrite last_or_app, last_or_cons).
  replace f with (hd_or nil_ptr ((l1 ++ [a]) ++ q :: c :: l2)) by (rewrite Hf'; by destruct l1).
  replace e with (last_or nil_ptr ((l1 ++ [a]) ++ q :: c :: l2)) by (rewrite He, !last_or_app, !last_or_cons; done).
  replace (l1 ++ a :: q :: c :: l2) with ((l1 ++ [a]) ++ q :: c :: l2) by (by rewrite <-app_assoc).
  eapply (dlist_insert _ _ _ _ (l1 ++ [a]) q n' (c :: l2)); [exact Hd'|by rewrite <-app_assoc|done|
    by rewrite lookup_insert_eq|done|by rewrite Hla|].
  rewrite Hla. simpl. intros z nz Hz Hnz. rewrite lookup_insert_ne by set_solver.
  destruct (decide (z = a)) as [->|Hza].
  - rewrite lookup_insert_eq. rewrite Hna in Hnz. injection Hnz as <-. eexists. split; [done|].
    rewrite (decide_False (P := a = c)) by done. by rewrite nx_set_nx, pv_set_nx.
  - rewrite lookup_insert_ne by done. destruct (decide (z = c)) as [->|Hzc].
    + rewrite lookup_insert_eq. rewrite Hnc in Hnz. injection Hnz as <-. eexists. split; [done|]. by rewrite nx_set_pv, pv_set_pv.
    + rewrite lookup_insert_ne by done. by exists nz.
Qed.
End chain.
