(* ===== verification/LockMap.v ===== *)
(** * File locks (src/common/lock_map.go)

    A lock item is shared by reference between the components and threads that
    asked for the same file name. *)
From S2P Require Import Prelude GoLib.

Record LockMapItem := mkLockMapItem {
  handleCount : Z;
  exLocked : bool;
  mtx : bool;  (* the mutex is held *)
  downloadTime : Time
}.
Definition new_item : LockMapItem := mkLockMapItem 0 false false 0.

Record LockMap := mkLockMap {
  locks : gmap string ptr;
  items : gmap ptr LockMapItem
}.
Definition NewLockMap : LockMap := mkLockMap ∅ ∅.

(** LoadOrStore: the item of the name, made on first use. *)
Definition lm_Get (name : string) : go LockMap ptr := λ l,
  match locks l !! name with
  | Some p => Ret (p, l)
  | None =>
      let p := fresh_ptr (items l) in
      Ret (p, mkLockMap (<[name:=p]> (locks l)) (<[p:=new_item]> (items l)))
  end.

Definition lm_Delete (name : string) : go LockMap unit :=
  go_modify (λ l, mkLockMap (delete name (locks l)) (items l)).

Definition load_item (p : ptr) : go LockMap LockMapItem := λ l, go_deref (items l !! p) l.
Definition store_item (p : ptr) (i : LockMapItem) : go LockMap unit :=
  go_modify (λ l, mkLockMap (locks l) (<[p:=i]> (items l))).

Definition lm_Locked (name : string) : go LockMap bool :=
  l ← go_get;
  match locks l !! name with
  | Some p => i ← load_item p; mret (exLocked i)
  | None => mret false
  end.

(** The statements of Lock and Unlock: taking the mutex blocks while it is held, the
    flag is read by [Locked] without the mutex, and unlocking a free mutex is a fatal
    error. *)
Definition mutex_lock (p : ptr) : go LockMap unit :=
  i ← load_item p;
  if mtx i then go_block
  else store_item p (mkLockMapItem (handleCount i) (exLocked i) true (downloadTime i)).
Definition set_exLocked (b : bool) (p : ptr) : go LockMap unit :=
  i ← load_item p;
  store_item p (mkLockMapItem (handleCount i) b (mtx i) (downloadTime i)).
Definition mutex_unlock (p : ptr) : go LockMap unit :=
  i ← load_item p;
  if mtx i
  then store_item p (mkLockMapItem (handleCount i) (exLocked i) false (downloadTime i))
  else go_panic.

(** The bodies of the two methods as statements, and their execution in one go; threads
    (below) execute the same bodies one statement at a time. *)
Inductive stmt := MtxLock | MtxUnlock | SetExLocked (b : bool).
#[export] Instance stmt_eq_dec : EqDecision stmt.
Proof. solve_decision. Defined.
Definition run_stmt (c : stmt) (p : ptr) : go LockMap unit :=
  match c with
  | MtxLock => mutex_lock p
  | MtxUnlock => mutex_unlock p
  | SetExLocked b => set_exLocked b p
  end.
Fixpoint run_body (body : list stmt) (p : ptr) : go LockMap unit :=
  match body with
  | [] => mret tt
  | [c] => run_stmt c p
  | c :: body => _ ← run_stmt c p; run_body body p
  end.
Definition Lock_body : list stmt := [MtxLock; SetExLocked true].
Definition Unlock_body : list stmt := [SetExLocked false; MtxUnlock].
Definition lm_Lock (p : ptr) : go LockMap unit :=
  Eval cbn [run_body Lock_body run_stmt] in run_body Lock_body p.
Definition lm_Unlock (p : ptr) : go LockMap unit :=
  Eval cbn [run_body Unlock_body run_stmt] in run_body Unlock_body p.

Definition lm_Inc (p : ptr) : go LockMap unit :=
  i ← load_item p;
  store_item p (mkLockMapItem (u32 (handleCount i + 1)) (exLocked i) (mtx i) (downloadTime i)).
Definition lm_Dec (p : ptr) : go LockMap unit :=
  i ← load_item p;
  store_item p (mkLockMapItem (u32 (handleCount i - 1)) (exLocked i) (mtx i) (downloadTime i)).
Definition lm_Count (p : ptr) : go LockMap Z := i ← load_item p; mret (handleCount i).
Definition SetDownloadTime (now : Time) (p : ptr) : go LockMap unit :=
  i ← load_item p;
  store_item p (mkLockMapItem (handleCount i) (exLocked i) (mtx i) now).
Definition DownloadTime (p : ptr) : go LockMap Time := i ← load_item p; mret (downloadTime i).

(** ** Threads

    Threads interleave between the statements of Lock and Unlock.  A thread is outside,
    has a part of the body of Lock or of Unlock still to execute, or is between the
    return of Lock and the call of Unlock. *)
Inductive pc :=
  | Outside
  | InLock (p : ptr) (rest : list stmt)
  | Holding (p : ptr)
  | InUnlock (p : ptr) (rest : list stmt).
Definition threads : Type := nat → pc.
Definition move (t : nat) (c : pc) (ts : threads) : threads :=
  λ t', if decide (t' = t) then c else ts t'.

Inductive step : threads * LockMap → threads * LockMap → Prop :=
  | step_get ts l name p l' : lm_Get name l = Ret (p, l') → step (ts, l) (ts, l')
  | step_delete ts l name l' : lm_Delete name l = Ret (tt, l') → step (ts, l) (ts, l')
  | step_count ts l p l' :
      lm_Inc p l = Ret (tt, l') ∨ lm_Dec p l = Ret (tt, l') → step (ts, l) (ts, l')
  | step_download ts l now p l' : SetDownloadTime now p l = Ret (tt, l') → step (ts, l) (ts, l')
  | step_call_lock t p ts l : ts t = Outside → is_Some (items l !! p) →
      step (ts, l) (move t (InLock p Lock_body) ts, l)
  | step_lock t p c rest ts l l' : ts t = InLock p (c :: rest) → run_stmt c p l = Ret (tt, l') →
      step (ts, l) (move t (InLock p rest) ts, l')
  | step_lock_returns t p ts l : ts t = InLock p [] → step (ts, l) (move t (Holding p) ts, l)
  | step_call_unlock t p ts l : ts t = Holding p → step (ts, l) (move t (InUnlock p Unlock_body) ts, l)
  | step_unlock t p c rest ts l l' : ts t = InUnlock p (c :: rest) → run_stmt c p l = Ret (tt, l') →
      step (ts, l) (move t (InUnlock p rest) ts, l')
  | step_unlock_returns t p ts l : ts t = InUnlock p [] → step (ts, l) (move t Outside ts, l).

Inductive lm_reach : threads * LockMap → Prop :=
  | lm_start : lm_reach (λ _, Outside, NewLockMap)
  | lm_step s s' : lm_reach s → step s s' → lm_reach s'.

(** A thread has the mutex of an item from the statement that takes it to the one that
    releases it. *)
Definition has_mutex (c : pc) (p : ptr) : Prop :=
  match c with
  | Outside => False
  | InLock q rest => q = p ∧ MtxLock ∉ rest
  | Holding q => q = p
  | InUnlock q rest => q = p ∧ MtxUnlock ∈ rest
  end.
(** The part of it in which the flag is set. *)
Definition flagged (c : pc) (p : ptr) : Prop :=
  match c with
  | Outside => False
  | InLock q rest => q = p ∧ rest = []
  | Holding q => q = p
  | InUnlock q rest => q = p ∧ rest = Unlock_body
  end.
Definition refers (c : pc) (p : ptr) : Prop :=
  match c with Outside => False | InLock q _ | Holding q | InUnlock q _ => q = p end.
Definition wf_pc (c : pc) : Prop :=
  match c with
  | Outside | Holding _ => True
  | InLock _ rest => rest = Lock_body ∨ rest = [SetExLocked true] ∨ rest = []
  | InUnlock _ rest => rest = Unlock_body ∨ rest = [MtxUnlock] ∨ rest = []
  end.

(** The mutex is held exactly by the one thread that has it, and the flag is set exactly
    in its part. *)
Record lm_inv (s : threads * LockMap) : Prop := mkLmInv {
  inv_wf t : wf_pc (s.1 t);
  inv_alloc t p : refers (s.1 t) p → is_Some (items s.2 !! p);
  inv_unique t1 t2 p : has_mutex (s.1 t1) p → has_mutex (s.1 t2) p → t1 = t2;
  inv_mtx t p i : has_mutex (s.1 t) p → items s.2 !! p = Some i → mtx i = true;
  inv_flag p i : items s.2 !! p = Some i → exLocked i = true ↔ ∃ t, flagged (s.1 t) p;
  inv_names name p : locks s.2 !! name = Some p → is_Some (items s.2 !! p)
}.

Lemma has_mutex_refers c p : has_mutex c p → refers c p.
Proof. destruct c; simpl; tauto. Qed.
Lemma flagged_mutex c p : flagged c p → has_mutex c p.
Proof.
  destruct c as [|q rest|q|q rest]; simpl; [done| |done|]; intros [-> ->]; (split; [done|]);
    unfold Unlock_body; set_solver.
Qed.
Lemma refers_inj c p q : refers c p → refers c q → p = q.
Proof. destruct c; simpl; [done|congruence..]. Qed.

Lemma item_update (f : LockMapItem → LockMapItem) p l l' :
  (i ← load_item p; store_item p (f i)) l = Ret (tt, l') →
  ∃ i, items l !! p = Some i ∧ l' = mkLockMap (locks l) (<[p:=f i]> (items l)).
Proof.
  unfold load_item, mbind, go_bind. destruct (items l !! p) as [i|]; simpl; [|done].
  intros [= <-]. eauto.
Qed.
Lemma is_Some_insert {A} (m : gmap ptr A) p q x : is_Some (m !! q) → is_Some (<[p:=x]> m !! q).
Proof. rewrite lookup_insert_is_Some. destruct (decide (p = q)); auto. Qed.

(** An update of an item that keeps its mutex and its flag. *)
Lemma lm_inv_benign ts l p i i' :
  lm_inv (ts, l) → items l !! p = Some i → mtx i' = mtx i → exLocked i' = exLocked i →
  lm_inv (ts, mkLockMap (locks l) (<[p:=i']> (items l))).
Proof.
  intros [Hw Ha Hu Hm Hf Hn] Hi Hmi Hfi. split; simpl in *; eauto using is_Some_insert.
  - intros t q j Hin [[<- <-]|[_ Hj]]%lookup_insert_Some; [rewrite Hmi|]; eauto.
  - intros q j [[<- <-]|[_ Hj]]%lookup_insert_Some; [rewrite Hfi|]; eauto.
Qed.

(** A thread goes on without touching an item. *)
Lemma lm_inv_quiet ts l t c :
  lm_inv (ts, l) → wf_pc c → (∀ q, refers c q → is_Some (items l !! q)) →
  (∀ q, has_mutex c q → has_mutex (ts t) q) → (∀ q, flagged c q ↔ flagged (ts t) q) →
  lm_inv (move t c ts, l).
Proof.
  intros [Hw Ha Hu Hm Hf Hn] Hwf Hr Hmx Hfl. unfold move. split; simpl in *.
  - intros t'. by destruct (decide (t' = t)).
  - intros t' q. destruct (decide (t' = t)); eauto.
  - intros t1 t2 q. destruct (decide (t1 = t)) as [->|], (decide (t2 = t)) as [->|]; eauto.
  - intros t' q i. destruct (decide (t' = t)); eauto.
  - intros q i Hi. rewrite (Hf _ _ Hi). split; intros [t' Ht']; exists t'.
    + destruct (decide (t' = t)) as [->|]; [by apply Hfl|done].
    + destruct (decide (t' = t)) as [->|]; [by apply Hfl|done].
  - done.
Qed.

(** A thread executes a statement on the item of its lock, of which no other thread has
    the mutex. *)
Lemma lm_inv_move ts l t p c i i' :
  lm_inv (ts, l) → items l !! p = Some i → refers (ts t) p → refers c p ∧ wf_pc c →
  (∀ t', t' ≠ t → ¬ has_mutex (ts t') p) →
  (has_mutex c p → mtx i' = true) → (exLocked i' = true ↔ flagged c p) →
  lm_inv (move t c ts, mkLockMap (locks l) (<[p:=i']> (items l))).
Proof.
  intros [Hw Ha Hu Hm Hf Hn] Hi Hold [Hc Hwf] Hout Hmtx Hflag. unfold move. split; simpl in *.
  - intros t'. by destruct (decide (t' = t)).
  - intros t' q Hin. apply is_Some_insert. destruct (decide (t' = t)); [|eauto].
    rewrite (refers_inj c q p) by done. eauto.
  - intros t1 t2 q H1 H2. destruct (decide (t1 = t)) as [->|], (decide (t2 = t)) as [->|]; [done| | |eauto].
    + rewrite (refers_inj c q p) in H2 by eauto using has_mutex_refers. by apply Hout in H2.
    + rewrite (refers_inj c q p) in H1 by eauto using has_mutex_refers. by apply Hout in H1.
  - intros t' q j Hin [[<- <-]|[Hne Hj]]%lookup_insert_Some.
    + destruct (decide (t' = t)); [by apply Hmtx|]. by apply Hout in Hin.
    + destruct (decide (t' = t)); [|eauto]. exfalso. apply Hne.
      symmetry. apply (refers_inj c); eauto using has_mutex_refers.
  - intros q j [[<- <-]|[Hne Hj]]%lookup_insert_Some.
    + rewrite Hflag. split; [intros H; exists t; by rewrite decide_True|].
      intros [t' Ht']. destruct (decide (t' = t)); [done|]. exfalso. by eapply Hout, flagged_mutex.
    + rewrite (Hf _ _ Hj). split; intros [t' Ht']; exists t'; destruct (decide (t' = t)) as [->|]; try done;
        exfalso; apply Hne; [apply (refers_inj (ts t))|apply (refers_inj c)]; eauto using has_mutex_refers, flagged_mutex.
  - eauto using is_Some_insert.
Qed.

(** What a statement does when it goes on. *)
Lemma run_stmt_spec c p l l' :
  run_stmt c p l = Ret (tt, l') →
  ∃ i i', items l !! p = Some i ∧ l' = mkLockMap (locks l) (<[p:=i']> (items l)) ∧
    match c with
    | MtxLock => mtx i = false ∧ mtx i' = true ∧ exLocked i' = exLocked i
    | MtxUnlock => mtx i' = false ∧ exLocked i' = exLocked i
    | SetExLocked b => mtx i' = mtx i ∧ exLocked i' = b
    end.
Proof.
  destruct c as [| |b]; simpl.
  - unfold mutex_lock, load_item, mbind, go_bind. destruct (items l !! p) as [i|]; simpl; [|done].
    destruct (mtx i) eqn:E; [done|]. intros [= <-]. eauto 10.
  - unfold mutex_unlock, load_item, mbind, go_bind. destruct (items l !! p) as [i|]; simpl; [|done].
    destruct (mtx i); [|done]. intros [= <-]. eauto 10.
  - intros (i & Hi & ->)%item_update. eauto 10.
Qed.

Lemma lm_inv_get ts l name : lm_inv (ts, l) → ∀ p l', lm_Get name l = Ret (p, l') → lm_inv (ts, l').
Proof.
  intros Hinv p' l'. unfold lm_Get. destruct (locks l !! name) as [q|] eqn:E; intros H; simplify_eq; [done|].
  destruct Hinv as [Hw Ha Hu Hm Hf Hn]. simpl in *. set (p := fresh_ptr (items l)) in *.
  assert (Hfresh : items l !! p = None) by apply fresh_ptr_lookup.
  assert (Hno : ∀ t, ¬ refers (ts t) p). { intros t Hin. destruct (Ha _ _ Hin). congruence. }
  split; simpl in *; eauto using is_Some_insert.
  - intros t q i Hin [[<- <-]|[_ Hi]]%lookup_insert_Some; [|eauto].
    exfalso. by eapply Hno, has_mutex_refers.
  - intros q i [[<- <-]|[_ Hi]]%lookup_insert_Some; [|eauto]. simpl. split; [done|].
    intros [t Ht]. exfalso. by eapply Hno, has_mutex_refers, flagged_mutex.
  - intros name' q. rewrite lookup_insert_Some. intros [[_ <-]|[_ Hq]]; [rewrite lookup_insert_eq|]; eauto using is_Some_insert.
Qed.

(** One statement of Lock, one of Unlock. *)
Lemma lm_inv_lock ts l l' t p c rest :
  lm_inv (ts, l) → ts t = InLock p (c :: rest) → run_stmt c p l = Ret (tt, l') →
  lm_inv (move t (InLock p rest) ts, l').
Proof.
  intros Hinv Ht (i & i' & Hi & -> & Hc)%run_stmt_spec. pose proof Hinv as [Hw Ha Hu Hm Hf Hn]. simpl in *.
  specialize (Hw t). rewrite Ht in Hw. assert (Hr : refers (ts t) p) by by rewrite Ht.
  destruct Hw as [[= -> ->]|[[= -> ->]|[=]]].
  - destruct Hc as (Hfree & Hmi & Hfi).
    assert (Hno : ∀ t', ¬ has_mutex (ts t') p). { intros t' Hin. pose proof (Hm _ _ _ Hin Hi). congruence. }
    apply (lm_inv_move _ _ _ _ _ i); [done..|simpl; by auto|by auto|done|].
    rewrite Hfi, (Hf _ _ Hi). split; [|by intros [_ [=]]]. intros [t' Ht']. by destruct (Hno _ (flagged_mutex _ _ Ht')).
  - destruct Hc as [Hmi Hfi]. assert (Hin : has_mutex (ts t) p) by (rewrite Ht; simpl; split; [done|set_solver]).
    apply (lm_inv_move _ _ _ _ _ i); [done..|simpl; by auto| | |].
    + intros t' Hne Hin'. by apply Hne, (Hu _ _ p).
    + intros _. rewrite Hmi. eauto.
    + by rewrite Hfi.
Qed.
Lemma lm_inv_unlock ts l l' t p c rest :
  lm_inv (ts, l) → ts t = InUnlock p (c :: rest) → run_stmt c p l = Ret (tt, l') →
  lm_inv (move t (InUnlock p rest) ts, l').
Proof.
  intros Hinv Ht (i & i' & Hi & -> & Hc)%run_stmt_spec. pose proof Hinv as [Hw Ha Hu Hm Hf Hn]. simpl in *.
  specialize (Hw t). rewrite Ht in Hw. assert (Hr : refers (ts t) p) by by rewrite Ht.
  assert (Hin : has_mutex (ts t) p).
  { rewrite Ht. simpl. split; [done|]. destruct Hw as [-> |[-> |[=]]]; unfold Unlock_body; set_solver. }
  assert (Hout : ∀ t', t' ≠ t → ¬ has_mutex (ts t') p) by (intros t' Hne Hin'; by apply Hne, (Hu _ _ p)).
  destruct Hw as [[= -> ->]|[[= -> ->]|[=]]].
  - destruct Hc as [Hmi Hfi]. apply (lm_inv_move _ _ _ _ _ i); [done..|simpl; by auto|done| |].
    + intros _. rewrite Hmi. eauto.
    + rewrite Hfi. split; [done|by intros [_ [=]]].
  - destruct Hc as [Hmi Hfi]. apply (lm_inv_move _ _ _ _ _ i); [done..|simpl; by auto|done| |].
    + by intros [_ ?%not_elem_of_nil].
    + rewrite Hfi, (Hf _ _ Hi). split; [|by intros [_ [=]]]. intros [t' Ht'].
      assert (t' = t) as -> by eauto using flagged_mutex. rewrite Ht in Ht'. by destruct Ht' as [_ [=]].
Qed.

Lemma lm_inv_step s s' : lm_inv s → step s s' → lm_inv s'.
Proof.
  intros Hinv Hs. destruct Hs as [ts l name p l' H|ts l name l' H|ts l p l' H|ts l now p l' H
    |t p ts l Ht Hp|t p c rest ts l l' Ht H|t p ts l Ht|t p ts l Ht|t p c rest ts l l' Ht H|t p ts l Ht].
  - by eapply lm_inv_get.
  - injection H as <-. destruct Hinv as [Hw Ha Hu Hm Hf Hn]. split; simpl in *; try done.
    intros name' q [_ Hq]%lookup_delete_Some. eauto.
  - destruct H as [H|H]; apply item_update in H as (i & Hi & ->); by eapply lm_inv_benign.
  - apply item_update in H as (i & Hi & ->). by eapply lm_inv_benign.
  - apply lm_inv_quiet; [done|simpl; auto| | |]; rewrite ?Ht; simpl.
    + by intros q <-.
    + intros q [_ []]. unfold Lock_body. set_solver.
    + intros q. split; [by intros [_ [=]]|done].
  - by eapply lm_inv_lock.
  - apply lm_inv_quiet; [done|done| | |]; rewrite ?Ht; simpl.
    + intros q <-. apply (inv_alloc _ Hinv t). simpl. by rewrite Ht.
    + intros q ->. split; [done|set_solver].
    + intros q. tauto.
  - apply lm_inv_quiet; [done|simpl; auto| | |]; rewrite ?Ht; simpl.
    + intros q <-. apply (inv_alloc _ Hinv t). simpl. by rewrite Ht.
    + by intros q [-> _].
    + intros q. tauto.
  - by eapply lm_inv_unlock.
  - apply lm_inv_quiet; [done|done| | |]; rewrite ?Ht; simpl; [done|done|].
    intros q. split; [done|by intros [_ [=]]].
Qed.

Lemma lm_reach_inv s : lm_reach s → lm_inv s.
Proof. induction 1 as [|s s' _ IH Hs]; [|by eapply lm_inv_step]. by split. Qed.

(** C25: Mutual exclusion, with threads interleaved between the statements of Lock and
    Unlock.  In every reachable state at most one thread has the mutex of a lock item
    (from the statement of Lock that takes it to the statement of Unlock that releases
    it).  For a name whose item is in the map, [Locked] answers true while a thread is
    between the return of Lock and the call of Unlock of that item, and answers true
    only while some thread has its mutex.  No statement of Lock or Unlock panics: those
    of Unlock return, and of Lock only the first can wait.  (After Delete the name is no
    longer in the map and Locked answers false, whoever holds the old item.) *)
Theorem lock_exclusive ts l :
  lm_reach (ts, l) →
  (∀ t1 t2 p, has_mutex (ts t1) p → has_mutex (ts t2) p → t1 = t2) ∧
  (∀ name p, locks l !! name = Some p →
     wp (lm_Locked name) (λ b _,
       ((∃ t, ts t = Holding p) → b = true) ∧ (b = true → ∃ t, has_mutex (ts t) p)) l) ∧
  (∀ t p c rest, ts t = InUnlock p (c :: rest) → wp (run_stmt c p) (λ _ _, True) l) ∧
  (∀ t p c rest, ts t = InLock p (c :: rest) →
     run_stmt c p l ≠ Panic ∧ (rest = [] → wp (run_stmt c p) (λ _ _, True) l)).
Proof.
  intros [Hw Ha Hu Hm Hf Hn]%lm_reach_inv. simpl in *. split; [done|]. split_and!.
  - intros name p Hp. destruct (Hn _ _ Hp) as [i Hi].
    unfold wp, lm_Locked, mbind, go_bind, load_item; simpl. rewrite Hp.
    unfold mbind, go_bind; simpl. rewrite Hi. simpl. rewrite (Hf _ _ Hi).
    split; intros [t Ht]; exists t; [by rewrite Ht|by apply flagged_mutex].
  - intros t p c rest Ht. destruct (Ha t p) as [i Hi]; [by rewrite Ht|].
    assert (Hmt : mtx i = true).
    { apply (Hm t p); [|done]. rewrite Ht. simpl. split; [done|]. specialize (Hw t). rewrite Ht in Hw.
      destruct Hw as [-> |[-> |[=]]]; unfold Unlock_body; set_solver. }
    specialize (Hw t). rewrite Ht in Hw. unfold wp.
    destruct Hw as [[= -> ->]|[[= -> ->]|[=]]]; simpl;
      unfold set_exLocked, mutex_unlock, mbind, go_bind, load_item; rewrite Hi; simpl; by rewrite ?Hmt.
  - intros t p c rest Ht. destruct (Ha t p) as [i Hi]; [by rewrite Ht|].
    specialize (Hw t). rewrite Ht in Hw. unfold wp.
    destruct Hw as [[= -> ->]|[[= -> ->]|[=]]]; simpl;
      unfold set_exLocked, mutex_lock, mbind, go_bind, load_item; rewrite Hi; simpl; [|done].
    by destruct (mtx i).
Qed.

(** One thread in Unlock, another waiting in Lock. *)
Definition p1 : ptr := 1%nat.
Definition locked_map (ex m : bool) : LockMap :=
  mkLockMap {["f" := p1]} {[p1 := mkLockMapItem 0 ex m 0]}.
Definition two_threads : threads :=
  move 6 (InLock p1 Lock_body)
    (move 5 (InUnlock p1 [MtxUnlock]) (move 5 (InUnlock p1 Unlock_body) (move 5 (Holding p1)
      (move 5 (InLock p1 []) (move 5 (InLock p1 [SetExLocked true]) (move 5 (InLock p1 Lock_body) (λ _, Outside))))))).
Lemma lock_exclusive_witness :
  (∀ t1 t2 p, has_mutex (two_threads t1) p → has_mutex (two_threads t2) p → t1 = t2) ∧
  wp (lm_Locked "f") (λ b _,
       ((∃ t, two_threads t = Holding p1) → b = true) ∧ (b = true → ∃ t, has_mutex (two_threads t) p1))
    (locked_map false true) ∧
  wp (run_stmt MtxUnlock p1) (λ _ _, True) (locked_map false true).
Proof.
  destruct (lock_exclusive two_threads (locked_map false true)) as (H1 & H2 & H3 & _).
  { eapply lm_step; [|by apply (step_call_lock 6 p1)].
    eapply lm_step; [|by apply (step_unlock 5 p1 (SetExLocked false) [MtxUnlock] _ (locked_map true true))].
    eapply lm_step; [|by apply (step_call_unlock 5 p1)].
    eapply lm_step; [|by apply (step_lock_returns 5 p1)].
    eapply lm_step; [|by apply (step_lock 5 p1 (SetExLocked true) [] _ (locked_map false true))].
    eapply lm_step; [|by apply (step_lock 5 p1 MtxLock [SetExLocked true] _ (locked_map false false))].
    eapply lm_step; [|by apply (step_call_lock 5 p1)].
    eapply lm_step; [apply lm_start|]. by eapply (step_get _ _ "f" p1). }
  split; [exact H1|]. split; [by apply H2|]. by apply (H3 5%nat p1 MtxUnlock []).
Defined.
