(* ===== verification/LruPolicy.v ===== *)
(** * The LRU eviction policy of the file cache
    (src/component/file_cache/lru_policy.go and cache_policy.go)

    The policy keeps a doubly linked list of nodes, most recently used first,
    with two marker nodes in it.  On every timeout the last marker moves to the
    front and the markers swap roles, so what lies behind the last marker has
    not been used for a whole period and is deleted.  Nodes are objects on a
    heap, linked by address, as in the code. *)
From S2P Require Import Prelude GoLib LockMap.
From Stdlib Require Import Ascii QArith.
Open Scope Z_scope.

Record lruNode := mkLruNode {
  next : ptr;
  prev : ptr;
  usage : Z;
  deleted : bool;
  name : string
}.
Definition set_next (p : ptr) (n : lruNode) := mkLruNode p (prev n) (usage n) (deleted n) (name n).
Definition set_prev (p : ptr) (n : lruNode) := mkLruNode (next n) p (usage n) (deleted n) (name n).
Definition set_deleted (b : bool) (n : lruNode) := mkLruNode (next n) (prev n) (usage n) b (name n).
Definition incr_usage (n : lruNode) :=
  mkLruNode (next n) (prev n) (i64 (usage n + 1)) (deleted n) (name n).

(** The sizes and thresholds are float64 in the code; they are exact rationals
    here. *)
Record cachePolicyConfig := mkPolicyConfig {
  tmpPath : string;
  cacheTimeout : Z;
  maxEviction : Z;
  maxSizeMB : Q;
  highThreshold : Q;
  lowThreshold : Q;
  policyTrace : bool
}.

(** [fs] is the file system, [fileLocks] the lock map shared with the file
    cache; [deleteEvent] and [validateChan] are the contents of the channels. *)
Record lruPolicy (FS : Type) := mkLruPolicy {
  config : cachePolicyConfig;
  nodeMap : gmap string ptr;
  head : ptr;
  currMarker : ptr;
  lastMarker : ptr;
  nodes : gmap ptr lruNode;
  deleteEvent : list string;
  validateChan : list string;
  duPresent : bool;
  fileLocks : LockMap;
  fs : FS
}.
Arguments mkLruPolicy {FS}.
Arguments config {FS} _.
Arguments nodeMap {FS} _.
Arguments head {FS} _.
Arguments currMarker {FS} _.
Arguments lastMarker {FS} _.
Arguments nodes {FS} _.
Arguments deleteEvent {FS} _.
Arguments validateChan {FS} _.
Arguments duPresent {FS} _.
Arguments fileLocks {FS} _.
Arguments fs {FS} _.

(** What the policy uses of package os, and the two readings of disk usage of
    package common: the size that [du] reports for a directory ([None] when it
    failed), and the size and the percentage that statfs reports. *)
Class FileSystem (FS : Type) := {
  os_Remove : string → go FS (option error);
  os_Chmod : string → Z → go FS (option error);
  GetUsage : string → go FS (option Q);
  GetDiskUsageFromStatfs : string → go FS (Q * Q * option error)
}.

Definition NewLRUPolicy {FS} (cfg : cachePolicyConfig) (locks : LockMap) (f : FS) : lruPolicy FS :=
  mkLruPolicy cfg ∅ nil_ptr 1%nat 2%nat
    {[1%nat := mkLruNode nil_ptr nil_ptr (-1) false "__";
      2%nat := mkLruNode nil_ptr nil_ptr (-1) false "##"]}
    [] [] false locks f.

(** float64 comparison. *)
Definition Qlt_bool (x y : Q) : bool := negb (Qle_bool y x).

(** cache_policy.go: the usage as a percentage of the configured size, or of
    the disk when none is configured.  Errors leave the reading at 0. *)
Definition getUsagePercentage {FS} `{!FileSystem FS} (path : string) (maxSize : Q) : go FS Q :=
  if Qeq_bool maxSize 0 then
    '(currSize, usagePercent, err) ← GetDiskUsageFromStatfs path;
    mret usagePercent
  else
    currSize ← GetUsage path;
    mret (default 0 currSize / maxSize * 100)%Q.

(** cache_policy.go: a file without delete permission is made writable first. *)
Definition deleteFile {FS} `{!FileSystem FS} (nm : string) : go FS (option error) :=
  err ← os_Remove nm;
  if bool_decide (err ≠ None) && os_IsPermission err then
    err ← os_Chmod nm 438;
    if bool_decide (err ≠ None) then mret err else os_Remove nm
  else if bool_decide (err ≠ None) && os_IsNotExist err then mret None
  else mret err.

Section policy.
Context {FS : Type} `{!FileSystem FS}.
Abbreviation policy := (lruPolicy FS).

Definition with_nodes (m : gmap ptr lruNode) (p : policy) : policy :=
  mkLruPolicy (config p) (nodeMap p) (head p) (currMarker p) (lastMarker p) m
    (deleteEvent p) (validateChan p) (duPresent p) (fileLocks p) (fs p).
Definition with_head (h : ptr) (p : policy) : policy :=
  mkLruPolicy (config p) (nodeMap p) h (currMarker p) (lastMarker p) (nodes p)
    (deleteEvent p) (validateChan p) (duPresent p) (fileLocks p) (fs p).
Definition with_markers (c l : ptr) (p : policy) : policy :=
  mkLruPolicy (config p) (nodeMap p) (head p) c l (nodes p)
    (deleteEvent p) (validateChan p) (duPresent p) (fileLocks p) (fs p).
Definition with_nodeMap (m : gmap string ptr) (p : policy) : policy :=
  mkLruPolicy (config p) m (head p) (currMarker p) (lastMarker p) (nodes p)
    (deleteEvent p) (validateChan p) (duPresent p) (fileLocks p) (fs p).
Definition with_channels (d v : list string) (p : policy) : policy :=
  mkLruPolicy (config p) (nodeMap p) (head p) (currMarker p) (lastMarker p) (nodes p)
    d v (duPresent p) (fileLocks p) (fs p).
Definition with_du (b : bool) (p : policy) : policy :=
  mkLruPolicy (config p) (nodeMap p) (head p) (currMarker p) (lastMarker p) (nodes p)
    (deleteEvent p) (validateChan p) b (fileLocks p) (fs p).
Definition with_locks (l : LockMap) (p : policy) : policy :=
  mkLruPolicy (config p) (nodeMap p) (head p) (currMarker p) (lastMarker p) (nodes p)
    (deleteEvent p) (validateChan p) (duPresent p) l (fs p).
Definition with_fs (f : FS) (p : policy) : policy :=
  mkLruPolicy (config p) (nodeMap p) (head p) (currMarker p) (lastMarker p) (nodes p)
    (deleteEvent p) (validateChan p) (duPresent p) (fileLocks p) f.
Definition with_config (c : cachePolicyConfig) (p : policy) : policy :=
  mkLruPolicy c (nodeMap p) (head p) (currMarker p) (lastMarker p) (nodes p)
    (deleteEvent p) (validateChan p) (duPresent p) (fileLocks p) (fs p).

Definition on_locks {A} (m : go LockMap A) : go policy A := go_zoom fileLocks with_locks m.
Definition on_fs {A} (m : go FS A) : go policy A := go_zoom fs with_fs m.

Definition load_node (q : ptr) : go policy lruNode := λ p, go_deref (nodes p !! q) p.
(** A field store through a pointer. *)
Definition upd_node (q : ptr) (f : lruNode → lruNode) : go policy unit := λ p,
  match nodes p !! q with
  | Some n => Ret (tt, with_nodes (<[q:=f n]> (nodes p)) p)
  | None => Panic
  end.
Definition new_node (n : lruNode) : go policy ptr := λ p,
  let q := fresh_ptr (nodes p) in Ret (q, with_nodes (<[q:=n]> (nodes p)) p).

(** The fragment shared by cacheValidate, removeNode and updateMarker: the
    neighbours of a node are linked to each other. *)
Definition unlink (q : ptr) : go policy unit :=
  n ← load_node q;
  _ ← (if decide (next n = nil_ptr) then mret tt else upd_node (next n) (set_prev (prev n)));
  n ← load_node q;
  (if decide (prev n = nil_ptr) then mret tt else upd_node (prev n) (set_next (next n))).

(** ... and the node becomes the head. *)
Definition push_head (q : ptr) : go policy unit :=
  p ← go_get;
  _ ← upd_node q (set_prev nil_ptr);
  _ ← upd_node q (set_next (head p));
  _ ← upd_node (head p) (set_prev q);
  go_modify (with_head q).

Definition StartPolicy : go policy (option error) :=
  p ← go_get;
  _ ← upd_node (currMarker p) (set_prev nil_ptr);
  _ ← upd_node (currMarker p) (set_next (lastMarker p));
  _ ← upd_node (lastMarker p) (set_prev (currMarker p));
  _ ← upd_node (lastMarker p) (set_next nil_ptr);
  _ ← go_modify (with_head (currMarker p));
  _ ← go_modify (with_channels [] []);
  du ← on_fs (GetUsage (tmpPath (config p)));
  _ ← (if bool_decide (is_Some du) then go_modify (with_du true) else mret tt);
  mret None.

(** The sends on the two unbuffered channels meet the receives of the two
    goroutines; before StartPolicy the channels are nil and a send blocks. *)
Definition ShutdownPolicy : go policy (option error) :=
  p ← go_get;
  if decide (head p = nil_ptr) then go_block else mret None.

Definition UpdateConfig (c : cachePolicyConfig) : go policy (option error) :=
  _ ← go_modify (λ p, with_config (mkPolicyConfig (tmpPath (config p))
    (cacheTimeout (config p)) (maxEviction c) (maxSizeMB c) (highThreshold c)
    (lowThreshold c) (policyTrace c)) p);
  mret None.

Definition cacheValidate (nm : string) : go policy unit :=
  p ← go_get;
  node ← match nodeMap p !! nm with
         | None =>
             q ← new_node (mkLruNode nil_ptr nil_ptr 0 false nm);
             _ ← go_modify (λ p, with_nodeMap (<[nm:=q]> (nodeMap p)) p);
             mret q
         | Some q => mret q
         end;
  _ ← upd_node node (set_deleted false);
  p ← go_get;
  if decide (node = head p) then mret tt
  else
    _ ← unlink node;
    _ ← push_head node;
    upd_node node incr_usage.

(** Sends on the buffered channels block when the buffer is full. *)
Definition send_validate (nm : string) : go policy unit := λ p,
  if Z.of_nat (length (validateChan p)) <? 10000
  then Ret (tt, with_channels (deleteEvent p) (validateChan p ++ [nm]) p) else Blocked.
Definition send_delete (nm : string) : go policy unit := λ p,
  if Z.of_nat (length (deleteEvent p)) <? 1000
  then Ret (tt, with_channels (deleteEvent p ++ [nm]) (validateChan p) p) else Blocked.

Definition CacheValid (nm : string) : go policy unit :=
  p ← go_get;
  match nodeMap p !! nm with
  | None => cacheValidate nm
  | Some _ => send_validate nm
  end.

Definition removeNode (nm : string) : go policy unit :=
  p ← go_get;
  match nodeMap p !! nm with
  | None => mret tt
  | Some node =>
      _ ← go_modify (λ p, with_nodeMap (delete nm (nodeMap p)) p);
      _ ← upd_node node (set_deleted true);
      p ← go_get;
      if decide (node = head p) then
        n ← load_node node;
        _ ← go_modify (with_head (next n));
        _ ← upd_node (next n) (set_prev nil_ptr);
        upd_node node (set_next nil_ptr)
      else
        _ ← unlink node;
        _ ← upd_node node (set_prev nil_ptr);
        upd_node node (set_next nil_ptr)
  end.

Definition CachePurge (nm : string) : go policy unit :=
  _ ← removeNode nm; send_delete nm.

Definition CacheInvalidate (nm : string) : go policy unit :=
  p ← go_get;
  if (cacheTimeout (config p) =? 0) || bool_decide (nodeMap p !! nm = None)
  then CachePurge nm else mret tt.

Definition IsCached (nm : string) : go policy bool :=
  p ← go_get;
  match nodeMap p !! nm with
  | Some q => n ← load_node q; mret (negb (deleted n))
  | None => mret false
  end.

(** One round of asyncCacheValid: the receive blocks on an empty channel. *)
Definition asyncCacheValid_step : go policy unit :=
  p ← go_get;
  match validateChan p with
  | nm :: rest => _ ← go_modify (with_channels (deleteEvent p) rest); cacheValidate nm
  | [] => go_block
  end.

Definition updateMarker : go policy unit :=
  p ← go_get;
  let node := lastMarker p in
  _ ← unlink node;
  _ ← push_head node;
  go_modify (λ p, with_markers node (currMarker p) p).

Definition deleteItem (nm : string) : go policy unit :=
  p ← go_get;
  let azPath := strings_TrimPrefix nm (tmpPath (config p)) in
  if bool_decide (azPath = "") then mret tt
  else
    let azPath := if strings_HasPrefix azPath "/" then sdrop 1 azPath else azPath in
    flock ← on_locks (lm_Get azPath);
    locked ← on_locks (lm_Locked azPath);
    if (locked : bool) then CacheValid nm
    else
      _ ← on_locks (lm_Lock flock);
      count ← on_locks (lm_Count flock);
      _ ← (if 0 <? count then CacheValid nm else _ ← on_fs (deleteFile nm); mret tt);
      on_locks (lm_Unlock flock).

(** The loop that collects expired nodes: those collected, and the node it
    stopped at.  It ends at nil or when [maxEviction] nodes are collected, so
    that many steps are enough. *)
Fixpoint collect (fuel : nat) (max count : Z) (node : ptr) : go policy (list ptr * ptr) :=
  if decide (node = nil_ptr) then mret ([], node)
  else if negb (count <? max) then mret ([], node)
  else
    match fuel with
    | O => go_block
    | S fuel =>
        _ ← upd_node node (set_deleted true);
        n ← load_node node;
        '(items, stop) ← collect fuel max (u32 (count + 1)) (next n);
        mret (node :: items, stop)
    end.

Definition delete_collected (item : ptr) : go policy unit :=
  n ← load_node item;
  if deleted n then _ ← removeNode (name n); deleteItem (name n) else mret tt.

Definition deleteExpiredNodes : go policy unit :=
  p ← go_get;
  lm ← load_node (lastMarker p);
  if decide (next lm = nil_ptr) then mret tt
  else
    let node := next lm in
    _ ← upd_node (lastMarker p) (set_next nil_ptr);
    _ ← (if decide (node = nil_ptr) then mret tt else upd_node node (set_prev nil_ptr));
    '(delItems, stop) ← collect (Z.to_nat (maxEviction (config p))) (maxEviction (config p)) 0 node;
    _ ← upd_node (lastMarker p) (set_next stop);
    _ ← (if decide (stop = nil_ptr) then mret tt else upd_node stop (set_prev (lastMarker p)));
    go_range delete_collected delItems.

(** The cases of clearCache's select: a delete event, the timeout tick and the
    disk-usage tick.  The usage loop runs at most three times. *)
Definition clearCache_delete : go policy unit :=
  p ← go_get;
  match deleteEvent p with
  | nm :: rest => _ ← go_modify (with_channels rest (validateChan p)); deleteItem nm
  | [] => go_block
  end.

Definition clearCache_timeout : go policy unit := _ ← updateMarker; deleteExpiredNodes.

Fixpoint usage_loop (todo : nat) : go policy unit :=
  match todo with
  | O => mret tt
  | S todo =>
      _ ← updateMarker;
      _ ← deleteExpiredNodes;
      p ← go_get;
      pUsage ← on_fs (getUsagePercentage (tmpPath (config p)) (maxSizeMB (config p)));
      if Qlt_bool pUsage (lowThreshold (config p)) then mret tt else usage_loop todo
  end.

Definition clearCache_usage : go policy unit :=
  p ← go_get;
  pUsage ← on_fs (getUsagePercentage (tmpPath (config p)) (maxSizeMB (config p)));
  if Qlt_bool (highThreshold (config p)) pUsage then usage_loop 3 else mret tt.
End policy.
