(* ===== verification/LruPolicySpec.v ===== *)
(** * The LRU list of the file cache is well formed and evicts what expired

    Separation-style reasoning on the heap of list nodes ([seg], [unlink],
    [push_head]), the invariant [policy_ok] of the policy, and the theorems on
    cacheValidate, CachePurge, deleteItem and the timeout tick, with the run in
    which more than max-eviction files expire. *)
From S2P Require Import Prelude GoLib Chain LockMap LruPolicy.
From Stdlib Require Import QArith.
Open Scope Z_scope.

(** ** Linked lists on the heap *)
Abbreviation seg := (chain next prev).
Abbreviation seg_app := (chain_app next prev).
Abbreviation seg_insert_ne := (chain_insert_ne next prev).
Abbreviation seg_elem := (chain_elem next prev).

(** What of a node is not a link. *)
Definition payload (n : lruNode) : Z * bool * string := (usage n, deleted n, name n).
Definition same_payload (m m' : gmap ptr lruNode) : Prop :=
  ∀ q, payload <$> m' !! q = payload <$> m !! q.
#[export] Instance same_payload_preorder : PreOrder same_payload.
Proof. split; [done|]. intros m1 m2 m3 H1 H2 q. by rewrite H2. Qed.

Lemma seg_set_prev m q n pr pr' r nx :
  seg m pr (q :: r) nx → q ∉ r → m !! q = Some n →
  seg (<[q:=set_prev pr' n]> m) pr' (q :: r) nx.
Proof. intros. by eapply chain_set_prev. Qed.

Lemma seg_set_next m q n pr l nx nx' :
  seg m pr (l ++ [q]) nx → q ∉ l → m !! q = Some n →
  seg (<[q:=set_next nx' n]> m) pr (l ++ [q]) nx'.
Proof. intros. by eapply chain_set_next. Qed.

Lemma seg_next m pr q r :
  seg m pr (q :: r) nil_ptr →
  from_option next nil_ptr (m !! q) = hd_or nil_ptr r ∧ seg m q r nil_ptr.
Proof. by intros [(n & -> & _ & <-) Hs]. Qed.

Lemma same_payload_insert m q n n' :
  m !! q = Some n → payload n' = payload n → same_payload m (<[q:=n']> m).
Proof.
  intros Hn Hp x. destruct (decide (q = x)) as [->|]; [|by rewrite lookup_insert_ne].
  rewrite lookup_insert_eq, Hn. simpl. by rewrite Hp.
Qed.

Section linking.
Context {FS : Type} `{!FileSystem FS}.
Abbreviation policy := (lruPolicy FS).
Implicit Types (p : policy).

Lemma wp_upd_node q f n p (Q : unit → policy → Prop) :
  nodes p !! q = Some n → Q tt (with_nodes (<[q:=f n]> (nodes p)) p) → wp (upd_node q f) Q p.
Proof. intros Hn HQ. unfold wp, upd_node. by rewrite Hn. Qed.

Lemma wp_load_node q n p (Q : lruNode → policy → Prop) :
  nodes p !! q = Some n → Q n p → wp (load_node q) Q p.
Proof. intros Hn HQ. unfold wp, load_node. by rewrite Hn. Qed.

(** A node that is in no list has no neighbours. *)
Lemma wp_unlink_alone q n p (Q : unit → policy → Prop) :
  nodes p !! q = Some n → next n = nil_ptr → prev n = nil_ptr → Q tt p → wp (unlink q) Q p.
Proof.
  intros Hn Hnx Hpr HQ. unfold unlink. apply wp_bind. eapply wp_load_node; [done|].
  rewrite decide_True by done. apply wp_bind, wp_ret, wp_bind. eapply wp_load_node; [done|].
  rewrite decide_True by done. by apply wp_ret.
Qed.

(** Unlinking a node joins what precedes it to what follows it. *)
Lemma wp_unlink q l1 l2 p (Q : unit → policy → Prop) :
  seg (nodes p) nil_ptr (l1 ++ q :: l2) nil_ptr →
  NoDup (l1 ++ q :: l2) → nil_ptr ∉ l1 ++ q :: l2 →
  (∀ m', seg m' nil_ptr (l1 ++ l2) nil_ptr → m' !! q = nodes p !! q →
     same_payload (nodes p) m' → (∀ x, x ∉ l1 ++ l2 → m' !! x = nodes p !! x) →
     Q tt (with_nodes m' p)) →
  wp (unlink q) Q p.
Proof.
  intros Hs Hnd Hnil HQ. apply seg_app in Hs as [Hs1 [(n & Hn & Hpr & Hnx) Hs2]]. simpl in Hs1.
  apply NoDup_app in Hnd as (Hnd1 & Hdis & [Hq2 Hnd2]%NoDup_cons).
  assert (Hq1 : q ∉ l1) by (intros H; apply (Hdis q H); left).
  assert (Hdis2 : ∀ x, x ∈ l1 → x ∉ l2) by (intros x Hx Hx2; apply (Hdis x Hx); by right).
  set (pr := last_or nil_ptr l1) in *. unfold unlink. apply wp_bind.
  eapply wp_load_node; [done|]. rewrite Hpr, Hnx.
  (* the first store *)
  assert (H1 : ∃ m1, seg m1 nil_ptr l1 q ∧ seg m1 pr l2 nil_ptr ∧ m1 !! q = Some n ∧
    same_payload (nodes p) m1 ∧ (∀ x, x ∉ l2 → m1 !! x = nodes p !! x) ∧
    ∀ Q', Q' tt (with_nodes m1 p) →
      wp (if decide (hd_or nil_ptr l2 = nil_ptr) then mret tt
          else upd_node (hd_or nil_ptr l2) (set_prev pr)) Q' p).
  { destruct l2 as [|x l2]; simpl.
    - exists (nodes p). split_and!; try done.
      intros Q' HQ'. apply wp_ret. by destruct p.
    - rewrite decide_False by (intros ->; apply Hnil; set_solver).
      destruct Hs2 as [(nx & Hx & Hxp & Hxn) Hs2].
      apply NoDup_cons in Hnd2 as [Hx2 Hnd2]. apply not_elem_of_cons in Hq2 as [Hqx Hq2].
      exists (<[x:=set_prev pr nx]> (nodes p)). split_and!.
      + apply seg_insert_ne; [set_solver|done].
      + exists (set_prev pr nx). by rewrite lookup_insert_eq.
      + by apply seg_insert_ne.
      + by rewrite lookup_insert_ne.
      + by eapply same_payload_insert.
      + intros y [Hy _]%not_elem_of_cons. by rewrite lookup_insert_ne.
      + intros Q' HQ'. by eapply wp_upd_node. }
  destruct H1 as (m1 & Hm1 & Hm2 & Hmq & Hpay & Hout & Hwp).
  apply wp_bind, Hwp, wp_bind. eapply wp_load_node; [exact Hmq|]. rewrite Hpr, Hnx.
  (* the second store *)
  destruct (decide (pr = nil_ptr)) as [Hprn|Hprn].
  - apply wp_ret. assert (l1 = []) as ->.
    { destruct l1 as [|y l1] using rev_ind; [done|]. exfalso. unfold pr, last_or in Hprn.
      rewrite last_snoc in Hprn. simpl in Hprn. subst y. apply Hnil. set_solver. }
    apply HQ; simpl; [by rewrite Hprn in Hm2|by rewrite Hn|done|done].
  - destruct l1 as [|y l1 _] using rev_ind; [done|]. unfold pr, last_or in *.
    rewrite last_snoc in *. simpl in *.
    destruct (seg_elem _ _ _ _ y Hm1) as [ny Hy]; [set_solver|].
    apply NoDup_app in Hnd1 as (Hnd1 & Hdy & _).
    assert (Hyl1 : y ∉ l1) by (intros H; apply (Hdy y H); left).
    eapply wp_upd_node; [exact Hy|]. apply (HQ (<[y:=set_next (hd_or nil_ptr l2) ny]> m1)).
    + apply seg_app. unfold last_or. rewrite last_snoc. simpl. split.
      * by eapply seg_set_next.
      * apply seg_insert_ne; [apply Hdis2; set_solver|done].
    + rewrite lookup_insert_ne; [by rewrite Hmq|]. intros ->. set_solver.
    + transitivity m1; [done|]. by eapply same_payload_insert.
    + intros x Hx. rewrite lookup_insert_ne by set_solver. apply Hout. set_solver.
Qed.

(** A node that is in no list becomes the head. *)
Lemma wp_push_head q l p (Q : unit → policy → Prop) :
  seg (nodes p) nil_ptr l nil_ptr → NoDup l → l ≠ [] → head p = hd_or nil_ptr l → q ∉ l →
  is_Some (nodes p !! q) →
  (∀ m', seg m' nil_ptr (q :: l) nil_ptr → same_payload (nodes p) m' →
     (∀ x, x ∉ q :: l → m' !! x = nodes p !! x) → Q tt (with_head q (with_nodes m' p))) →
  wp (push_head q) Q p.
Proof.
  intros Hs Hnd Hne Hh Hq [n Hn] HQ. destruct l as [|h l]; [done|]. simpl in Hh.
  apply NoDup_cons in Hnd as [Hhl Hnd]. apply not_elem_of_cons in Hq as [Hqh Hql].
  pose proof Hs as [(nh & Hnh & _) _].
  unfold push_head. apply wp_bind. unfold wp at 1, go_get. rewrite Hh.
  apply wp_bind. eapply wp_upd_node; [done|]. apply wp_bind.
  eapply wp_upd_node; [by simpl; rewrite lookup_insert_eq|].
  simpl. rewrite insert_insert_eq. apply wp_bind.
  eapply wp_upd_node; [by simpl; rewrite lookup_insert_ne|]. unfold wp, go_modify; simpl.
  apply HQ.
  - split.
    + eexists. rewrite lookup_insert_ne, lookup_insert_eq by done. split; [done|]. done.
    + eapply seg_set_prev; [|done|by rewrite lookup_insert_ne].
      apply seg_insert_ne; [set_solver|done].
  - transitivity (<[q:=set_next h (set_prev nil_ptr n)]> (nodes p)).
    + by eapply same_payload_insert.
    + eapply same_payload_insert; [by rewrite lookup_insert_ne|done].
  - intros x Hx. rewrite !lookup_insert_ne by set_solver. done.
Qed.
End linking.

(** ** The invariant of the policy

    [policy_ok p L D]: [L] is the list that starts at the head; [D] is a
    detached list of expired nodes that deleteExpiredNodes is working off, and
    is empty at rest. *)
Definition node_is (m : gmap ptr lruNode) (q : ptr) (nm : string) (d : bool) : Prop :=
  ∃ n, m !! q = Some n ∧ name n = nm ∧ deleted n = d.

Lemma node_is_payload m m' q nm d :
  payload <$> m' !! q = payload <$> m !! q → node_is m q nm d → node_is m' q nm d.
Proof.
  intros Hp (n & Hn & <- & <-). rewrite Hn in Hp. simpl in Hp.
  destruct (m' !! q) as [n'|] eqn:E; simpl in Hp; [|done]. injection Hp as _ Hd Hnm. by exists n'.
Qed.

Definition links (n : lruNode) : ptr * ptr := (next n, prev n).

Lemma seg_links m m' pr l nx :
  seg m pr l nx → (∀ x, x ∈ l → links <$> m' !! x = links <$> m !! x) → seg m' pr l nx.
Proof. intros Hs Hl. by eapply chain_links. Qed.

Lemma filter_ne_notin (q : ptr) (l : list ptr) : q ∉ l → filter (λ x, x ≠ q) l = l.
Proof.
  induction l as [|x l IH]; [done|]. intros [Hne Hl]%not_elem_of_cons.
  rewrite filter_cons_True by congruence. by rewrite IH.
Qed.

Lemma filter_ne_split (q : ptr) l1 l2 :
  NoDup (l1 ++ q :: l2) → filter (λ x, x ≠ q) (l1 ++ q :: l2) = l1 ++ l2.
Proof.
  intros (Hnd1 & Hdis & [Hq Hnd2]%NoDup_cons)%NoDup_app.
  rewrite filter_app, filter_cons_False by tauto. rewrite !filter_ne_notin; [done|done|].
  intros H. apply (Hdis q H). left.
Qed.

Lemma sublist_filter_mono (P : ptr → Prop) `{!∀ x, Decision (P x)} l1 l2 :
  l1 `sublist_of` l2 → filter P l1 `sublist_of` filter P l2.
Proof.
  induction 1 as [|x l1 l2 _ IH|x l1 l2 _ IH]; [done|..].
  - destruct (decide (P x)); [rewrite !filter_cons_True|rewrite !filter_cons_False]; try done.
    by constructor.
  - destruct (decide (P x)); [rewrite !filter_cons_True|rewrite !filter_cons_False]; try done.
    by constructor.
Qed.

Section invariant.
Context {FS : Type} `{!FileSystem FS}.
Abbreviation policy := (lruPolicy FS).
Implicit Types (p : policy) (L D : list ptr).

Record policy_ok p L D : Prop := mkPolicyOk {
  po_seg : seg (nodes p) nil_ptr L nil_ptr;
  po_segD : seg (nodes p) nil_ptr D nil_ptr;
  po_nodup : NoDup (L ++ D);
  po_nil : nil_ptr ∉ L ++ D;
  po_head : head p = hd_or nil_ptr L;
  po_markers : [currMarker p; lastMarker p] `sublist_of` L;
  po_map nm q : nodeMap p !! nm = Some q ↔
    (q ∈ L ∧ q ≠ currMarker p ∧ q ≠ lastMarker p ∧ node_is (nodes p) q nm false) ∨
    (q ∈ D ∧ node_is (nodes p) q nm true);
  po_in q : q ∈ L → q ≠ currMarker p → q ≠ lastMarker p →
    ∃ nm, node_is (nodes p) q nm false;
  po_inD q : q ∈ D → ∃ nm, node_is (nodes p) q nm true
}.

Lemma po_markers_in p L D : policy_ok p L D → currMarker p ∈ L ∧ lastMarker p ∈ L.
Proof.
  intros Hok. pose proof (po_markers _ _ _ Hok) as Hs.
  split; eapply sublist_subseteq; try exact Hs; set_solver.
Qed.

Lemma po_nonempty p L D : policy_ok p L D → L ≠ [].
Proof. intros [Hc _]%po_markers_in ->. by apply not_elem_of_nil in Hc. Qed.

Lemma po_alloc p L D q : policy_ok p L D → q ∈ L ++ D → is_Some (nodes p !! q).
Proof.
  intros Hok [Hq|Hq]%elem_of_app; eapply seg_elem; [apply Hok|done|apply (po_segD _ _ _ Hok)|done].
Qed.

(** A well-formed list is no cycle of three. *)
Lemma policy_ok_acyclic p L D x1 x2 :
  policy_ok p L D → from_option next nil_ptr (nodes p !! head p) = x1 → x1 ≠ nil_ptr →
  from_option next nil_ptr (nodes p !! x1) = x2 → x2 ≠ nil_ptr →
  from_option next nil_ptr (nodes p !! x2) ≠ head p.
Proof.
  intros Hok H1 Hx1 H2 Hx2 H3. pose proof (po_nonempty _ _ _ Hok) as Hne.
  destruct Hok as [Hs _ Hnd Hnil Hh _ _ _ _]. apply NoDup_app in Hnd as (Hnd & _).
  destruct L as [|h r]; [done|]. simpl in Hh. rewrite Hh in H1, H3.
  apply seg_next in Hs as [E1 Hs]. rewrite H1 in E1. destruct r as [|y1 r]; [done|]. simpl in E1; subst y1.
  apply seg_next in Hs as [E2 Hs]. rewrite H2 in E2. destruct r as [|y2 r]; [done|]. simpl in E2; subst y2.
  apply seg_next in Hs as [E3 Hs]. rewrite H3 in E3. destruct r as [|y3 r]; simpl in E3; subst.
  - apply Hnil. left.
  - apply NoDup_cons in Hnd as [Hn _]. apply Hn. right; right; left.
Qed.

(** A change of the heap that keeps names and flags, and links [L'] instead of
    [L], with the same markers and nodes. *)
Lemma policy_ok_relink p p' L L' D :
  policy_ok p L D → L' ≡ₚ L → seg (nodes p') nil_ptr L' nil_ptr →
  (∀ x, x ∈ D → nodes p' !! x = nodes p !! x) →
  same_payload (nodes p) (nodes p') → head p' = hd_or nil_ptr L' →
  nodeMap p' = nodeMap p →
  ((currMarker p', lastMarker p') = (currMarker p, lastMarker p) ∨
   (currMarker p', lastMarker p') = (lastMarker p, currMarker p)) →
  [currMarker p'; lastMarker p'] `sublist_of` L' → policy_ok p' L' D.
Proof.
  intros [H1 H2 H3 H4 H5 H6 H7 H8 H9] HP Hseg HD Hpay Hh Hm Hmk Hsub.
  assert (Hn : ∀ q nm d, node_is (nodes p') q nm d ↔ node_is (nodes p) q nm d).
  { intros q nm d. split; apply node_is_payload; by rewrite (Hpay q). }
  assert (Hmk' : ∀ q, q ≠ currMarker p' ∧ q ≠ lastMarker p' ↔ q ≠ currMarker p ∧ q ≠ lastMarker p).
  { intros q. destruct Hmk as [[= -> ->]|[= -> ->]]; tauto. }
  split; try done.
  - eapply seg_links; [exact H2|]. intros x Hx. by rewrite HD.
  - by rewrite HP.
  - by rewrite HP.
  - intros nm q. rewrite Hm, H7, HP, !Hn. specialize (Hmk' q). tauto.
  - intros q. rewrite HP. intros Hq Hc Hl. setoid_rewrite Hn. apply H8; [done|apply Hmk'; done..].
  - intros q Hq. setoid_rewrite Hn. eauto.
Qed.

(** What the list operations leave alone. *)
Definition frame p p' : Prop :=
  config p' = config p ∧ currMarker p' = currMarker p ∧ lastMarker p' = lastMarker p ∧
  fileLocks p' = fileLocks p ∧ fs p' = fs p ∧ deleteEvent p' = deleteEvent p ∧
  validateChan p' = validateChan p.
#[export] Instance frame_preorder : PreOrder frame.
Proof. split; unfold frame; [done|]. intros p1 p2 p3. intuition congruence. Qed.

(** ** cacheValidate: a used file moves to the front *)
Lemma wp_touch q L D p (Q : unit → policy → Prop) :
  policy_ok p L D → q ∈ L → q ≠ currMarker p → q ≠ lastMarker p →
  (∀ p', policy_ok p' (q :: filter (λ x, x ≠ q) L) D → nodeMap p' = nodeMap p →
     frame p p' → Q tt p') →
  wp (_ ← upd_node q (set_deleted false); p ← go_get;
      if decide (q = head p) then mret tt
      else _ ← unlink q; _ ← push_head q; upd_node q incr_usage) Q p.
Proof.
  intros Hok Hq Hqc Hql HQ. pose proof Hok as [H1 H2 H3 H4 H5 H6 H7 H8 H9].
  destruct (H8 q Hq Hqc Hql) as (nm & n & Hn & Hnm & Hd).
  apply wp_bind. eapply wp_upd_node; [exact Hn|].
  assert (set_deleted false n = n) as -> by (destruct n; simpl in *; by subst).
  rewrite insert_id by done. replace (with_nodes (nodes p) p) with p by by destruct p.
  apply wp_bind. unfold wp at 1, go_get.
  apply list_elem_of_split in Hq as (l1 & l2 & ->).
  pose proof H3 as Hnd. apply NoDup_app in Hnd as (HndL & HLD & _).
  rewrite filter_ne_split in HQ by done.
  destruct (decide (q = head p)) as [Hhead|Hhead].
  { apply wp_ret. assert (l1 = []) as ->.
    { destruct l1 as [|y l1]; [done|]. rewrite H5 in Hhead. simpl in Hhead. subst y.
      apply NoDup_cons in HndL as [Hc _]. exfalso. apply Hc. set_solver. }
    by apply HQ. }
  apply wp_bind. eapply wp_unlink; [done|done|set_solver|].
  intros m1 Hs1 Hq1 Hpay1 Hout1. apply wp_bind.
  assert (Hne : l1 ++ l2 ≠ []).
  { destruct l1; [|done]. rewrite H5 in Hhead. by simpl in Hhead. }
  assert (Hqn : q ∉ l1 ++ l2).
  { apply NoDup_app in HndL as (_ & Hd1 & [Hq2 _]%NoDup_cons). intros [Hx|Hx]%elem_of_app; [|done].
    apply (Hd1 q Hx). left. }
  eapply (wp_push_head q (l1 ++ l2)); simpl; [exact Hs1| |done| |done|by rewrite Hq1; exists n|].
  { eapply sublist_NoDup; [exact HndL|]. apply sublist_app; [done|by constructor]. }
  { rewrite H5. destruct l1; [|done]. rewrite H5 in Hhead. by simpl in Hhead. }
  intros m2 Hs2 Hpay2 Hout2. pose proof Hs2 as [(n2 & Hn2 & _) _].
  eapply wp_upd_node; [simpl; exact Hn2|]. simpl. apply HQ; try done.
  set (m3 := <[q:=incr_usage n2]> m2).
  assert (Hlinks : seg m3 nil_ptr (q :: l1 ++ l2) nil_ptr).
  { eapply seg_links; [exact Hs2|]. intros x _. unfold m3.
    destruct (decide (q = x)) as [->|]; [rewrite lookup_insert_eq, Hn2; done|by rewrite lookup_insert_ne]. }
  (* the usage counter is not observed by the invariant *)
  assert (Hok2 : policy_ok (with_head q (with_nodes m2 p)) (q :: l1 ++ l2) D).
  { apply (policy_ok_relink p _ (l1 ++ q :: l2)); simpl; try done.
    - by rewrite Permutation_middle.
    - intros x Hx. assert (x ∉ l1 ++ q :: l2) by (intros Hx2; by apply (HLD x)).
      rewrite Hout2, Hout1; [done|set_solver..].
    - by transitivity m1.
    - by left.
    - apply (sublist_filter_mono (λ x, x ≠ q)) in H6. rewrite filter_ne_split in H6 by done.
      rewrite !filter_cons_True in H6 by congruence. by constructor. }
  destruct Hok2 as [G1 G2 G3 G4 G5 G6 G7 G8 G9]. simpl in *.
  assert (Hnode : ∀ x nm d, node_is m3 x nm d ↔ node_is m2 x nm d).
  { intros x nm' d. unfold node_is, m3. destruct (decide (q = x)) as [->|]; [|by rewrite lookup_insert_ne].
    rewrite lookup_insert_eq, Hn2. split; intros (y & [= <-] & Hy); eexists; split; done. }
  split; simpl; try done.
  - eapply seg_links; [exact G2|]. intros x Hx. unfold m3. rewrite lookup_insert_ne; [done|].
    intros ->. apply (HLD x); set_solver.
  - intros nm' x. rewrite G7, !Hnode. done.
  - intros x Hx Hxc Hxl. setoid_rewrite Hnode. by apply G8.
  - intros x Hx. setoid_rewrite Hnode. by apply G9.
Qed.

(** The usage counter and other updates that keep links, names and flags. *)
Lemma policy_ok_benign p L D q n n' :
  policy_ok p L D → nodes p !! q = Some n →
  links n' = links n → name n' = name n → deleted n' = deleted n →
  policy_ok (with_nodes (<[q:=n']> (nodes p)) p) L D.
Proof.
  intros [G1 G2 G3 G4 G5 G6 G7 G8 G9] Hn Hl Hnm Hd.
  assert (Hlk : ∀ x, links <$> <[q:=n']> (nodes p) !! x = links <$> nodes p !! x).
  { intros x. destruct (decide (q = x)) as [->|]; [|by rewrite lookup_insert_ne].
    rewrite lookup_insert_eq, Hn. simpl. by rewrite Hl. }
  assert (Hnode : ∀ x nm d, node_is (<[q:=n']> (nodes p)) x nm d ↔ node_is (nodes p) x nm d).
  { intros x nm d. unfold node_is. destruct (decide (q = x)) as [->|]; [|by rewrite lookup_insert_ne].
    rewrite lookup_insert_eq, Hn. split; intros (y & [= <-] & <- & <-); eexists; split_and!; done. }
  split; simpl; try done.
  - eapply seg_links; [exact G1|]. intros. apply Hlk.
  - eapply seg_links; [exact G2|]. intros. apply Hlk.
  - intros nm x. by rewrite G7, !Hnode.
  - intros x Hx Hxc Hxl. setoid_rewrite Hnode. by apply G8.
  - intros x Hx. setoid_rewrite Hnode. by apply G9.
Qed.

(** A new node for a name that has none. *)
Lemma wp_insert_new nm L D p (Q : unit → policy → Prop) :
  policy_ok p L D → nodeMap p !! nm = None →
  let q := fresh_ptr (nodes p) in
  let p1 := with_nodeMap (<[nm:=q]> (nodeMap p))
              (with_nodes (<[q:=mkLruNode nil_ptr nil_ptr 0 false nm]> (nodes p)) p) in
  (∀ p', policy_ok p' (q :: L) D → nodeMap p' = <[nm:=q]> (nodeMap p) → frame p p' → Q tt p') →
  wp (_ ← upd_node q (set_deleted false); p ← go_get;
      if decide (q = head p) then mret tt
      else _ ← unlink q; _ ← push_head q; upd_node q incr_usage) Q p1.
Proof.
  intros Hok Hnm q p1 HQ. pose proof Hok as [H1 H2 H3 H4 H5 H6 H7 H8 H9].
  set (n0 := mkLruNode nil_ptr nil_ptr 0 false nm) in *.
  assert (Hq : q ∉ L ++ D).
  { intros Hin. destruct (po_alloc _ _ _ _ Hok Hin) as [n Hn]. unfold q in Hn.
    by rewrite fresh_ptr_lookup in Hn. }
  assert (Hqn : q ≠ nil_ptr) by apply fresh_ptr_nil.
  assert (HqL : q ∉ L) by (intros Hx; apply Hq, elem_of_app; by left).
  assert (Hp1 : nodes p1 !! q = Some n0) by (unfold p1; simpl; apply lookup_insert_eq).
  apply wp_bind. eapply wp_upd_node; [exact Hp1|]. change (set_deleted false n0) with n0.
  rewrite insert_id by done. replace (with_nodes (nodes p1) p1) with p1 by done.
  apply wp_bind. unfold wp at 1, go_get.
  assert (Hne : L ≠ []) by by eapply po_nonempty.
  rewrite decide_False; [|unfold p1; simpl; rewrite H5; destruct L; [done|simpl; intros Heq; apply HqL; rewrite Heq; left]].
  apply wp_bind. eapply wp_unlink_alone; [exact Hp1|done|done|]. apply wp_bind.
  eapply (wp_push_head q L); [unfold p1; simpl; by apply seg_insert_ne| |done|done|done|by exists n0|].
  { by apply NoDup_app in H3 as (? & _). }
  intros m2 Hs2 Hpay2 Hout2. pose proof Hs2 as [(n2 & Hn2 & _) _].
  eapply wp_upd_node; [simpl; exact Hn2|].
  apply HQ; [|done|done]. eapply (policy_ok_benign (with_head q (with_nodes m2 p1))); [|exact Hn2|done..].
  assert (Hold : ∀ x nm d, x ≠ q → node_is m2 x nm d ↔ node_is (nodes p) x nm d).
  { intros x nm' d Hx. pose proof (Hpay2 x) as Hx2. unfold p1 in Hx2. simpl in Hx2.
    rewrite lookup_insert_ne in Hx2 by done. split; by apply node_is_payload. }
  assert (Hqis : ∀ nm' d, node_is m2 q nm' d ↔ nm' = nm ∧ d = false).
  { intros nm' d. pose proof (Hpay2 q) as Hx2. rewrite Hp1, Hn2 in Hx2. injection Hx2 as Hu Hd Hn.
    split; [intros (y & Hy & <- & <-); rewrite Hn2 in Hy; injection Hy as <-; done|].
    intros [-> ->]. by exists n2. }
  destruct (po_markers_in _ _ _ Hok) as [HcL HlL].
  assert (HqD : q ∉ D) by (intros Hx; apply Hq, elem_of_app; by right).
  assert (Hqc : q ≠ currMarker p) by congruence.
  assert (Hql : q ≠ lastMarker p) by congruence.
  split; simpl.
  - done.
  - eapply seg_links; [exact H2|]. intros x Hx. rewrite Hout2.
    + unfold p1; simpl. rewrite lookup_insert_ne; [done|congruence].
    + apply NoDup_app in H3 as (_ & Hd & _). intros [->|Hx2]%elem_of_cons; [done|]. by apply (Hd x).
  - by apply NoDup_cons.
  - intros [?|?]%elem_of_cons; [congruence|done].
  - done.
  - by constructor.
  - intros nm' x. rewrite lookup_insert_Some, H7, elem_of_cons. destruct (decide (x = q)) as [->|Hx].
    + rewrite !Hqis. split; [|intros [(_ & _ & _ & -> & _)|[? _]]; [by left|done]].
      intros [[<- _]|[_ [[? _]|[? _]]]]; [|done..].
      left. split_and!; [by left|done..].
    + rewrite !Hold by done. split; [intros [[_ ?]|[_ ?]]; [congruence|tauto]|].
      intros Hor. right. split; [|tauto]. intros <-.
      assert (nodeMap p !! nm = Some x) by (apply H7; tauto). congruence.
  - intros x [->|Hx]%elem_of_cons; [exists nm; by apply Hqis|].
    setoid_rewrite Hold; [by apply H8|congruence].
  - intros x Hx. setoid_rewrite Hold; [by apply H9|congruence].
Qed.

Lemma wp_cacheValidate nm L D p :
  policy_ok p L D → (∀ q, nodeMap p !! nm = Some q → q ∈ L) →
  wp (cacheValidate nm) (λ _ p', ∃ q,
    policy_ok p' (q :: filter (λ x, x ≠ q) L) D ∧
    nodeMap p' = <[nm:=q]> (nodeMap p) ∧ frame p p' ∧
    (nodeMap p !! nm = None → q ∉ L)) p.
Proof.
  intros Hok Hin. unfold cacheValidate. apply wp_bind. unfold wp at 1, go_get.
  destruct (nodeMap p !! nm) as [q|] eqn:Hq.
  - apply wp_bind, wp_ret. pose proof (Hin q eq_refl) as HqL.
    apply (po_map _ _ _ Hok) in Hq as Hq'.
    destruct Hq' as [(_ & Hc & Hl & _)|[HD _]].
    2:{ exfalso. destruct (proj1 (NoDup_app _ _) (po_nodup _ _ _ Hok)) as (_ & Hd & _). by apply (Hd q). }
    eapply (wp_touch q L D); [done..|]. intros p' Hok' Hm Hfr. exists q.
    split_and!; [done| |done|done]. rewrite Hm. symmetry. by apply insert_id.
  - apply wp_bind. unfold wp at 1; simpl. eapply wp_insert_new; [done..|].
    intros p' Hok' Hm Hfr. exists (fresh_ptr (nodes p)).
    assert (HqL : fresh_ptr (nodes p) ∉ L).
    { intros Hx. destruct (po_alloc p L D (fresh_ptr (nodes p)) Hok) as [n Hn]; [set_solver|].
      by rewrite fresh_ptr_lookup in Hn. }
    split_and!; [|done|done|done].
    by rewrite filter_ne_notin.
Qed.

(** ** removeNode *)
Lemma policy_ok_drop p p' L D L' D' nm q :
  policy_ok p L D → nodeMap p !! nm = Some q → nodeMap p' = delete nm (nodeMap p) →
  NoDup (L' ++ D') → (∀ x, x ∈ L' ↔ x ∈ L ∧ x ≠ q) → (∀ x, x ∈ D' ↔ x ∈ D ∧ x ≠ q) →
  seg (nodes p') nil_ptr L' nil_ptr → seg (nodes p') nil_ptr D' nil_ptr →
  (∀ x, x ≠ q → payload <$> nodes p' !! x = payload <$> nodes p !! x) →
  head p' = hd_or nil_ptr L' → frame p p' →
  [currMarker p; lastMarker p] `sublist_of` L' → policy_ok p' L' D'.
Proof.
  intros [H1 H2 H3 H4 H5 H6 H7 H8 H9] Hnm Hm Hsub HL HD Hs Hs' Hpay Hh (_ & Hc & Hl & _) Hmk.
  assert (Hn : ∀ x nm d, x ≠ q → node_is (nodes p') x nm d ↔ node_is (nodes p) x nm d).
  { intros x nm' d Hx. split; apply node_is_payload; by rewrite Hpay. }
  assert (Hqnm : ∀ nm', nodeMap p !! nm' = Some q → nm' = nm).
  { intros nm' Hq. apply H7 in Hq, Hnm.
    destruct Hq as [(_ & _ & _ & n & Hn1 & Hn2 & _)|(_ & n & Hn1 & Hn2 & _)];
    destruct Hnm as [(_ & _ & _ & n' & Hn1' & Hn2' & _)|(_ & n' & Hn1' & Hn2' & _)]; congruence. }
  split; rewrite ?Hc, ?Hl; try done.
  - intros [Hx%HL|Hx%HD]%elem_of_app; apply H4, elem_of_app; tauto.
  - intros nm' x. rewrite Hm, lookup_delete_Some, H7, HL, HD.
    destruct (decide (x = q)) as [->|Hx].
    + split; [|tauto]. intros [Hne Hq]. exfalso. apply Hne. symmetry. apply Hqnm. by apply H7.
    + rewrite !Hn by done. split; [tauto|]. intros Hor. split; [|tauto]. intros <-.
      assert (nodeMap p !! nm = Some x) by (apply H7; tauto). congruence.
  - intros x [Hx Hne]%HL ? ?. setoid_rewrite Hn; [by apply H8|done].
  - intros x [Hx Hne]%HD. setoid_rewrite Hn; [by apply H9|done].
Qed.

Lemma elem_of_split_ne (q : ptr) l1 l2 x :
  NoDup (l1 ++ q :: l2) → x ∈ l1 ++ l2 ↔ x ∈ l1 ++ q :: l2 ∧ x ≠ q.
Proof.
  intros Hnd. rewrite <-(filter_ne_split q l1 l2), list_elem_of_filter by done. tauto.
Qed.

Lemma markers_drop p L D l1 l2 q :
  policy_ok p L D → L = l1 ++ q :: l2 → q ≠ currMarker p → q ≠ lastMarker p →
  [currMarker p; lastMarker p] `sublist_of` l1 ++ l2.
Proof.
  intros Hok -> Hc Hl. pose proof (po_markers _ _ _ Hok) as H6.
  apply (sublist_filter_mono (λ x, x ≠ q)) in H6.
  pose proof (po_nodup _ _ _ Hok) as (Hnd & _)%NoDup_app. rewrite filter_ne_split in H6 by done.
  by rewrite !filter_cons_True in H6 by congruence.
Qed.

(** After [unlink], the node's own links are cleared. *)
Lemma wp_clear_links q l m p (Q : unit → policy → Prop) :
  seg m nil_ptr l nil_ptr → q ∉ l → is_Some (m !! q) →
  (∀ m', seg m' nil_ptr l nil_ptr → (∀ x, x ≠ q → m' !! x = m !! x) →
     Q tt (with_nodes m' p)) →
  wp (_ ← upd_node q (set_prev nil_ptr); upd_node q (set_next nil_ptr)) Q (with_nodes m p).
Proof.
  intros Hs Hq [n Hn] HQ. apply wp_bind. eapply wp_upd_node; [exact Hn|].
  eapply wp_upd_node; [apply lookup_insert_eq|]. simpl. rewrite insert_insert_eq.
  apply (HQ (<[q:=set_next nil_ptr (set_prev nil_ptr n)]> m)).
  - by apply seg_insert_ne.
  - intros x Hx. by rewrite lookup_insert_ne.
Qed.

(** A node of the list leaves it. *)
Lemma wp_removeNode nm q L D p (Q : unit → policy → Prop) :
  policy_ok p L D → nodeMap p !! nm = Some q → q ∈ L →
  (∀ p', policy_ok p' (filter (λ x, x ≠ q) L) D → nodeMap p' = delete nm (nodeMap p) →
     frame p p' → Q tt p') →
  wp (removeNode nm) Q p.
Proof.
  intros Hok Hnm HqL HQ. pose proof Hok as [H1 H2 H3 H4 H5 H6 H7 H8 H9].
  pose proof Hnm as Hcase. apply H7 in Hcase.
  destruct Hcase as [(_ & Hc & Hl & n & Hn & Hname & Hd)|[HqD _]].
  2:{ exfalso. apply NoDup_app in H3 as (_ & Hdis & _). by apply (Hdis q). }
  apply list_elem_of_split in HqL as (l1 & l2 & ->).
  pose proof H3 as (HndL & HLD & HndD)%NoDup_app. rewrite filter_ne_split in HQ by done.
  pose proof (markers_drop _ _ _ _ _ _ Hok eq_refl Hc Hl) as Hmk.
  assert (Hne : l1 ++ l2 ≠ []). { intros Hnil. rewrite Hnil in Hmk. by apply sublist_nil_r in Hmk. }
  assert (Hqn : q ∉ l1 ++ l2) by (rewrite elem_of_split_ne by done; tauto).
  assert (HndL' : NoDup ((l1 ++ l2) ++ D)).
  { apply NoDup_app. split_and!; [|intros x Hx; apply (elem_of_split_ne q) in Hx as [Hx _]; [by apply HLD|done]|done].
    eapply sublist_NoDup; [exact HndL|]. apply sublist_app; [done|by constructor]. }
  assert (HqD : ∀ x, x ∈ D ↔ x ∈ D ∧ x ≠ q).
  { intros x. split; [|tauto]. intros Hx. split; [done|]. intros ->.
    apply (HLD q); [apply elem_of_app; right; left|done]. }
  unfold removeNode. apply wp_bind. unfold wp at 1, go_get. rewrite Hnm.
  apply wp_bind. unfold wp at 1, go_modify.
  set (n1 := set_deleted true n). set (m1 := <[q:=n1]> (nodes p)).
  apply wp_bind. eapply wp_upd_node; [exact Hn|]. apply wp_bind. unfold wp at 1, go_get.
  change (with_nodes _ (with_nodeMap (delete nm (nodeMap p)) p))
    with (with_nodes m1 (with_nodeMap (delete nm (nodeMap p)) p)).
  set (p1 := with_nodeMap (delete nm (nodeMap p)) p).
  assert (Hs1 : seg m1 nil_ptr (l1 ++ q :: l2) nil_ptr).
  { eapply seg_links; [exact H1|]. intros x _. unfold m1.
    destruct (decide (q = x)) as [->|]; [rewrite lookup_insert_eq, Hn; done|by rewrite lookup_insert_ne]. }
  assert (Hpay1 : ∀ x, x ≠ q → payload <$> m1 !! x = payload <$> nodes p !! x).
  { intros x Hx. unfold m1. by rewrite lookup_insert_ne. }
  simpl. destruct (decide (q = head p)) as [Hhead|Hhead].
  - assert (l1 = []) as ->.
    { destruct l1 as [|y l1]; [done|]. rewrite H5 in Hhead. simpl in Hhead. subst y.
      apply NoDup_cons in HndL as [Hx _]. exfalso. apply Hx, elem_of_app. right. left. }
    destruct l2 as [|h l2]; [done|]. destruct Hs1 as [(n' & Hn' & Hpv & Hnx) [(nh & Hnh & _ & Hhx) Hs1]].
    simpl in Hnx, Hqn. apply not_elem_of_cons in Hqn as [Hqh Hqn].
    apply wp_bind. eapply wp_load_node; [exact Hn'|]. rewrite Hnx. apply wp_bind.
    unfold wp at 1, go_modify. apply wp_bind. eapply wp_upd_node; [exact Hnh|]. simpl.
    eapply wp_upd_node; [by simpl; rewrite lookup_insert_ne|]. simpl.
    apply HQ; [|done|done]. eapply policy_ok_drop; [exact Hok|exact Hnm|done|exact HndL'| |exact HqD| | | |done|done|exact Hmk].
    + intros x. by apply (elem_of_split_ne q []).
    + assert (Hhl2 : h ∉ l2) by (by apply NoDup_cons in HndL as [_ [? _]%NoDup_cons]).
      apply (seg_insert_ne _ q _ nil_ptr (h :: l2)); [by apply not_elem_of_cons|].
      eapply (seg_set_prev m1 h nh q); [|done|exact Hnh]. split; [|exact Hs1].
      destruct H1 as [_ [(nh' & Hnh' & Hpv' & _) _]]. exists nh.
      split; [done|]. unfold m1 in Hnh. rewrite lookup_insert_ne in Hnh by done. by simplify_eq.
    + simpl. eapply seg_links; [exact H2|]. intros x Hx.
      assert (x ∉ q :: h :: l2) by (intros Hx2; by apply (HLD x)).
      unfold m1. rewrite !lookup_insert_ne by set_solver. done.
    + intros x Hx. simpl. rewrite lookup_insert_ne by done. rewrite <-Hpay1 by done.
      destruct (decide (h = x)) as [->|]; [by rewrite lookup_insert_eq, Hnh|by rewrite lookup_insert_ne].
  - apply wp_bind. eapply (wp_unlink q l1 l2); [exact Hs1|done|set_solver|].
    intros m2 Hs2 Hq2 Hpay2 Hout2. change (with_nodes m2 (with_nodes m1 p1)) with (with_nodes m2 p1).
    eapply wp_clear_links; [exact Hs2|exact Hqn|rewrite Hq2; exists n1; apply lookup_insert_eq|].
    intros m3 Hs3 Hout3. apply HQ; [|done|done].
    assert (Hpay3 : ∀ x, x ≠ q → payload <$> m3 !! x = payload <$> nodes p !! x).
    { intros x Hx. rewrite Hout3 by done. rewrite (Hpay2 x). by apply Hpay1. }
    eapply policy_ok_drop; [exact Hok|exact Hnm|done|exact HndL'| |exact HqD|exact Hs3| |exact Hpay3| |done|exact Hmk].
    + intros x. by apply elem_of_split_ne.
    + eapply seg_links; [exact H2|]. intros x Hx.
      assert (x ∉ l1 ++ q :: l2) by (intros Hx2; by apply (HLD x)).
      simpl. rewrite Hout3 by set_solver. rewrite Hout2 by set_solver.
      unfold m1. simpl. by rewrite lookup_insert_ne by set_solver.
    + simpl. rewrite H5. destruct l1; [|done]. rewrite H5 in Hhead. by simpl in Hhead.
Qed.

(** The first detached node is worked off. *)
Lemma wp_removeNode_detached nm q L D p (Q : unit → policy → Prop) :
  policy_ok p L (q :: D) → nodeMap p !! nm = Some q →
  (∀ p', policy_ok p' L D → nodeMap p' = delete nm (nodeMap p) →
     (∀ x, x ≠ q → payload <$> nodes p' !! x = payload <$> nodes p !! x) →
     frame p p' → Q tt p') →
  wp (removeNode nm) Q p.
Proof.
  intros Hok Hnm HQ. pose proof Hok as [H1 H2 H3 H4 H5 H6 H7 H8 H9].
  pose proof H3 as (HndL & HLD & [HqD HndD]%NoDup_cons)%NoDup_app.
  assert (HqL : q ∉ L) by (intros Hx; apply (HLD q Hx); left).
  destruct (H9 q ltac:(left)) as (nm' & n & Hn & Hname & Hd).
  assert (HndL' : NoDup (L ++ D)).
  { apply NoDup_app. split_and!; [done| |done]. intros x Hx Hx2. apply (HLD x Hx). by right. }
  assert (HL : ∀ x, x ∈ L ↔ x ∈ L ∧ x ≠ q) by (intros x; split; [|tauto]; intros Hx; split; [done|congruence]).
  assert (HD : ∀ x, x ∈ D ↔ x ∈ q :: D ∧ x ≠ q).
  { intros x. rewrite elem_of_cons. split; [|tauto]. intros Hx. split; [by right|congruence]. }
  unfold removeNode. apply wp_bind. unfold wp at 1, go_get. rewrite Hnm.
  apply wp_bind. unfold wp at 1, go_modify.
  apply wp_bind. eapply wp_upd_node; [exact Hn|].
  assert (set_deleted true n = n) as -> by (destruct n; simpl in *; by subst).
  apply wp_bind. unfold wp at 1, go_get. simpl. rewrite insert_id by done.
  set (p1 := with_nodeMap (delete nm (nodeMap p)) p).
  change (with_nodes (nodes p) p1) with p1.
  rewrite decide_False by (rewrite H5; destruct L; [by apply po_nonempty in Hok|intros ->; apply HqL; left]).
  apply wp_bind. eapply (wp_unlink q [] D); [exact H2|by constructor|set_solver|].
  intros m2 Hs2 Hq2 Hpay2 Hout2.
  eapply (wp_clear_links q D m2 p1); [exact Hs2|exact HqD|rewrite Hq2; by exists n|].
  intros m3 Hs3 Hout3.
  assert (Hpay3 : ∀ x, x ≠ q → payload <$> m3 !! x = payload <$> nodes p !! x).
  { intros x Hx. rewrite Hout3 by done. apply Hpay2. }
  apply HQ; [|done|exact Hpay3|done].
  eapply policy_ok_drop; [exact Hok|exact Hnm|done|exact HndL'|exact HL|exact HD| |exact Hs3|exact Hpay3|exact H5|done|exact H6].
  eapply seg_links; [exact H1|]. intros x Hx. simpl. rewrite Hout3 by congruence.
  rewrite Hout2; [done|]. intros Hx2. apply (HLD x Hx). by right.
Qed.

(** ** updateMarker: the markers rotate *)
Lemma wp_updateMarker a b c p (Q : unit → policy → Prop) :
  policy_ok p (a ++ currMarker p :: b ++ lastMarker p :: c) [] →
  (∀ p', policy_ok p' (lastMarker p :: a ++ currMarker p :: b ++ c) [] →
     currMarker p' = lastMarker p → lastMarker p' = currMarker p →
     nodeMap p' = nodeMap p → config p' = config p → fileLocks p' = fileLocks p →
     fs p' = fs p → same_payload (nodes p) (nodes p') → Q tt p') →
  wp updateMarker Q p.
Proof.
  intros Hok HQ. set (l1 := a ++ currMarker p :: b).
  assert (HL : a ++ currMarker p :: b ++ lastMarker p :: c = l1 ++ lastMarker p :: c).
  { unfold l1. by rewrite <-app_assoc. }
  pose proof Hok as [H1 H2 H3 H4 H5 H6 H7 H8 H9]. rewrite HL, app_nil_r in *.
  assert (Hl1 : lastMarker p :: a ++ currMarker p :: b ++ c = lastMarker p :: l1 ++ c).
  { unfold l1. by rewrite <-app_assoc. }
  rewrite Hl1 in HQ.
  unfold updateMarker. apply wp_bind. unfold wp at 1, go_get.
  apply wp_bind. eapply (wp_unlink _ l1 c); [exact H1|done|done|].
  intros m1 Hs1 Hq1 Hpay1 Hout1. apply wp_bind.
  assert (Hne : l1 ++ c ≠ []) by (unfold l1; by destruct a).
  assert (Hqn : lastMarker p ∉ l1 ++ c) by (rewrite (elem_of_split_ne (lastMarker p)) by done; tauto).
  eapply (wp_push_head _ (l1 ++ c)); simpl; [exact Hs1| |done| |done| |].
  { eapply sublist_NoDup; [exact H3|]. apply sublist_app; [done|by constructor]. }
  { rewrite H5. unfold l1. by destruct a. }
  { rewrite Hq1. eapply seg_elem; [exact H1|]. apply elem_of_app. right. left. }
  intros m2 Hs2 Hpay2 Hout2. unfold wp, go_modify. simpl.
  apply HQ; try done; [|by transitivity m1].
  apply (policy_ok_relink p _ (l1 ++ lastMarker p :: c)); simpl; try done.
  - apply Permutation_middle.
  - by intros x ?%not_elem_of_nil.
  - by transitivity m1.
  - by right.
  - constructor. apply singleton_sublist_l. unfold l1. set_solver.
Qed.
End invariant.

(** ** Lock items *)
Definition locks_ok (l : LockMap) : Prop :=
  ∀ nm q, locks l !! nm = Some q → ∃ i, items l !! q = Some i ∧ mtx i = exLocked i.

(** Locked by a download, or open. *)
Definition lm_busy (l : LockMap) (az : string) : bool :=
  match locks l !! az with
  | Some q => from_option (λ i, exLocked i || (0 <? handleCount i)) false (items l !! q)
  | None => false
  end.

Lemma lm_Get_run az l :
  locks_ok l → ∃ q l1 i, lm_Get az l = Ret (q, l1) ∧ locks l1 !! az = Some q ∧
    items l1 !! q = Some i ∧ locks_ok l1 ∧ (∀ az', lm_busy l1 az' = lm_busy l az').
Proof.
  intros Hok. unfold lm_Get. destruct (locks l !! az) as [q|] eqn:E.
  { destruct (Hok _ _ E) as (i & Hi & _). exists q, l, i. done. }
  set (q := fresh_ptr (items l)). exists q, (mkLockMap (<[az:=q]> (locks l)) (<[q:=new_item]> (items l))), new_item.
  assert (Hq : items l !! q = None) by apply fresh_ptr_lookup.
  simpl. rewrite !lookup_insert_eq. split_and!; try done.
  - intros nm x. simpl. rewrite lookup_insert_Some. intros [[_ <-]|[_ Hx]].
    + exists new_item. by rewrite lookup_insert_eq.
    + destruct (Hok _ _ Hx) as (i & Hi & Hm). exists i. rewrite lookup_insert_ne; [done|congruence].
  - intros az'. unfold lm_busy; simpl. destruct (decide (az' = az)) as [->|].
    + by rewrite lookup_insert_eq, E, lookup_insert_eq.
    + rewrite lookup_insert_ne by done. destruct (locks l !! az') as [x|] eqn:Ex; [|done].
      destruct (Hok _ _ Ex) as (i & Hi & _). rewrite lookup_insert_ne; [done|congruence].
Qed.

(** Lock, look at the count, unlock: the item is as before. *)
Lemma lm_lock_roundtrip q l i :
  items l !! q = Some i → exLocked i = false → mtx i = false →
  ∃ l2, lm_Lock q l = Ret (tt, l2) ∧ lm_Count q l2 = Ret (handleCount i, l2) ∧
        lm_Unlock q l2 = Ret (tt, l).
Proof.
  intros Hi Hex Hm. unfold lm_Lock, lm_Unlock, lm_Count, mutex_lock, mutex_unlock, set_exLocked, load_item, store_item.
  unfold mbind, go_bind. rewrite Hi. simpl. rewrite Hm. simpl. rewrite lookup_insert_eq. simpl.
  eexists. split; [reflexivity|]. simpl. rewrite !lookup_insert_eq. simpl. split; [done|].
  rewrite !lookup_insert_eq. simpl. unfold go_modify; simpl. rewrite !insert_insert_eq.
  rewrite insert_id; [by destruct l|].
  rewrite Hi. destruct i; simpl in *; by subst.
Qed.

(** ** Deleting files *)
Class FileSystemLaws (FS : Type) `{!FileSystem FS} := {
  os_Remove_returns nm f : ∃ e f', os_Remove nm f = Ret (e, f');
  os_Chmod_returns nm mode f : ∃ e f', os_Chmod nm mode f = Ret (e, f')
}.

(** unlink(2) and chmod(2) as package os exposes them: which names exist, of
    which files the mode allows to delete them, and which cannot be deleted for
    another reason ([stuck]: an immutable file, a read-only file system). *)
Class DiskLaws (FS : Type) `{!FileSystem FS} := {
  on_disk : FS → gset string;
  writable : FS → string → Prop;
  stuck : string → Prop;
  law_unlink nm f : wp (os_Remove nm) (λ err f',
    match err with
    | None => on_disk f' = on_disk f ∖ {[nm]}
    | Some e => on_disk f' = on_disk f ∧
        (¬ stuck nm → nm ∈ on_disk f → os_IsPermission (Some e) = true ∧ ¬ writable f nm)
    end) f;
  law_make_writable nm f : wp (os_Chmod nm 438) (λ err f', on_disk f' = on_disk f ∧
    (¬ stuck nm → nm ∈ on_disk f → err = None ∧ writable f' nm)) f
}.

(** What an eviction of the files [gone] does to the disk: they are deleted
    unless the system refuses, and no other file is. *)
Definition disk_evicted {FS} `{!FileSystem FS} `{!DiskLaws FS} (gone : string → Prop) (f f' : FS) : Prop :=
  on_disk f' ⊆ on_disk f ∧
  (∀ nm, gone nm → ¬ stuck nm → nm ∉ on_disk f') ∧
  ∀ nm, nm ∈ on_disk f → ¬ gone nm → nm ∈ on_disk f'.

Section deletion.
Context {FS : Type} `{!FileSystem FS} `{!FileSystemLaws FS}.
Abbreviation policy := (lruPolicy FS).
Implicit Types (p : policy) (L D : list ptr).

(** The name of the file in the container, and whether it is in use. *)
Definition az_name p (nm : string) : string :=
  let azPath := strings_TrimPrefix nm (tmpPath (config p)) in
  if strings_HasPrefix azPath "/" then sdrop 1 azPath else azPath.
Definition busy p (nm : string) : bool :=
  negb (bool_decide (strings_TrimPrefix nm (tmpPath (config p)) = "")) &&
  lm_busy (fileLocks p) (az_name p nm).
(** A file, and not the directory of the cache itself, that is not in use. *)
Definition idle_file p (nm : string) : Prop :=
  strings_TrimPrefix nm (tmpPath (config p)) ≠ "" ∧ busy p nm = false.

Lemma wp_deleteFile nm (f : FS) : wp (deleteFile nm) (λ _ _, True) f.
Proof.
  unfold deleteFile. apply wp_bind. unfold wp at 1.
  destruct (os_Remove_returns nm f) as (e & f1 & ->). destruct (_ && _).
  - apply wp_bind. unfold wp at 1. destruct (os_Chmod_returns nm 438 f1) as (e2 & f2 & ->).
    destruct (bool_decide _); [by apply wp_ret|]. unfold wp.
    by destruct (os_Remove_returns nm f2) as (e3 & f3 & ->).
  - destruct (_ && _); by apply wp_ret.
Qed.

Section disk.
Context `{!DiskLaws FS}.

Lemma disk_evicted_none (gone : string → Prop) (f : FS) : (∀ nm, ¬ gone nm) → disk_evicted gone f f.
Proof. intros Hg. split_and!; [done| |done]. by intros nm ?%Hg. Qed.
Lemma disk_evicted_trans (g1 g2 g : string → Prop) (f1 f2 f3 : FS) :
  disk_evicted g1 f1 f2 → disk_evicted g2 f2 f3 → (∀ nm, g nm ↔ g1 nm ∨ g2 nm) → disk_evicted g f1 f3.
Proof.
  intros (Ha & Hb & Hc) (Ha' & Hb' & Hc') Hg. split_and!; [set_solver| |].
  - intros nm [H|H]%Hg Hst; [|by apply Hb']. intros Hin. by apply (Hb nm H Hst), Ha'.
  - intros nm Hin Hn. rewrite Hg in Hn. apply Hc'; [apply Hc|]; tauto.
Qed.

Lemma disk_evicted_ext (g g' : string → Prop) (f f' : FS) :
  disk_evicted g f f' → (∀ nm, g nm ↔ g' nm) → disk_evicted g' f f'.
Proof. intros He Hg. eapply disk_evicted_trans; [exact He|by apply (disk_evicted_none (λ _, False)); auto|]. intros nm. rewrite Hg. tauto. Qed.

Lemma wp_deleteFile_disk nm (f : FS) : wp (deleteFile nm) (λ _ f', disk_evicted (eq nm) f f') f.
Proof.
  assert (Hrm : ∀ f1 : FS, wp (os_Remove nm) (λ err f2,
    on_disk f2 ⊆ on_disk f1 ∧ (∀ x, x ∈ on_disk f1 → nm ≠ x → x ∈ on_disk f2) ∧
    (¬ stuck nm → nm ∈ on_disk f2 → os_IsPermission err = true ∧ ¬ writable f1 nm)) f1).
  { intros f1. eapply wp_mono; [apply law_unlink|]. intros [e|] f2.
    - intros [-> H]. by split_and!.
    - intros ->. set_solver. }
  unfold deleteFile. apply wp_bind. eapply wp_mono; [apply Hrm|]. intros err f1 (Ha & Hc & Hp).
  assert (Hdone : os_IsPermission err = false → disk_evicted (eq nm) f f1).
  { intros He. split_and!; [done| |done]. intros ? <- Hst Hin. destruct (Hp Hst Hin). congruence. }
  destruct (os_IsPermission err) eqn:Hperm.
  2: { rewrite andb_false_r. destruct (_ && _); apply wp_ret; auto. }
  destruct err as [e|]; [|done]. simpl. apply wp_bind.
  eapply wp_mono; [apply law_make_writable|]. intros err2 f2 [Hd Hw]. case_bool_decide as He2.
  - apply wp_ret. split_and!; [set_solver| |set_solver]. intros ? <- Hst Hin. rewrite Hd in Hin.
    by destruct (Hw Hst Hin).
  - eapply wp_mono; [apply Hrm|]. intros err3 f3 (Ha3 & Hc3 & Hp3). rewrite Hd in Ha3, Hc3.
    split_and!; [set_solver| |auto]. intros ? <- Hst Hin.
    destruct (Hp3 Hst Hin) as [_ Hnw]. apply Hnw, (Hw Hst). auto.
Qed.

Lemma policy_ok_with_locks l p L D : policy_ok p L D → policy_ok (with_locks l p) L D.
Proof. by intros []. Qed.
Lemma policy_ok_with_fs f p L D : policy_ok p L D → policy_ok (with_fs f p) L D.
Proof. by intros []. Qed.

(** An idle file leaves the list alone and is deleted; a file in use is entered
    again, at the front, and the file system is not touched. *)
Lemma wp_deleteItem nm L D p :
  policy_ok p L D → nodeMap p !! nm = None → locks_ok (fileLocks p) →
  wp (deleteItem nm) (λ _ p', locks_ok (fileLocks p') ∧
    config p' = config p ∧ currMarker p' = currMarker p ∧ lastMarker p' = lastMarker p ∧
    (∀ nm', busy p' nm' = busy p nm') ∧
    if busy p nm
    then fs p' = fs p ∧ ∃ q, q ∉ L ∧ policy_ok p' (q :: L) D ∧ nodeMap p' = <[nm:=q]> (nodeMap p)
    else policy_ok p' L D ∧ nodeMap p' = nodeMap p ∧
      disk_evicted (λ x, x = nm ∧ idle_file p nm) (fs p) (fs p')) p.
Proof.
  intros Hok Hnm Hlk. unfold deleteItem. apply wp_bind. unfold wp at 1, go_get.
  unfold busy at 3. fold (az_name p nm).
  case_bool_decide as Hempty; simpl.
  { apply wp_ret. split_and!; try done. apply disk_evicted_none. by intros x [_ [? _]]. }
  destruct (lm_Get_run (az_name p nm) _ Hlk) as (q & l1 & i & Hget & Hq & Hi & Hlk1 & Hbusy).
  apply wp_bind, wp_zoom. unfold wp at 1. rewrite Hget.
  assert (Hb : lm_busy (fileLocks p) (az_name p nm) = exLocked i || (0 <? handleCount i)).
  { rewrite <-Hbusy. unfold lm_busy. by rewrite Hq, Hi. }
  set (p1 := with_locks l1 p). apply wp_bind, wp_zoom. unfold wp at 1, lm_Locked.
  unfold mbind, go_bind. simpl. rewrite Hq. unfold mbind, go_bind, load_item; simpl. rewrite Hi. simpl.
  change (with_locks l1 p1) with p1.
  assert (Hvalid : ∀ l2, wp (CacheValid nm) (λ _ p', fileLocks p' = l2 ∧ config p' = config p ∧
    currMarker p' = currMarker p ∧ lastMarker p' = lastMarker p ∧ fs p' = fs p ∧
    ∃ q, q ∉ L ∧ policy_ok p' (q :: L) D ∧ nodeMap p' = <[nm:=q]> (nodeMap p)) (with_locks l2 p)).
  { intros l2. unfold CacheValid. apply wp_bind. unfold wp at 1, go_get. simpl. rewrite Hnm.
    eapply wp_mono; [apply (wp_cacheValidate nm L D); [by apply policy_ok_with_locks|simpl; congruence]|].
    intros [] p' (x & Hok' & Hm & (Hf1 & Hf2 & Hf3 & Hf4 & Hf5 & _) & Hx). simpl in *.
    split_and!; try done. specialize (Hx Hnm). exists x. rewrite filter_ne_notin in Hok' by done. done. }
  assert (Hbusy' : ∀ p', config p' = config p → fileLocks p' = l1 → ∀ nm', busy p' nm' = busy p nm').
  { intros p' Hc Hf nm'. unfold busy, az_name. rewrite Hc, Hf. by rewrite Hbusy. }
  rewrite Hb. destruct (exLocked i) eqn:Hex; simpl.
  { eapply wp_mono; [apply Hvalid|]. intros [] p' (Hl & Hc & Hcm & Hlm & Hfs & Hq').
    rewrite Hl. split_and!; try done. by apply Hbusy'. }
  destruct (Hlk1 _ _ Hq) as (i' & Hi' & Hmi). rewrite Hi in Hi'. injection Hi' as <-. rewrite Hex in Hmi.
  destruct (lm_lock_roundtrip q l1 i Hi Hex Hmi) as (l2 & Hlock & Hcount & Hunlock).
  apply wp_bind, wp_zoom. unfold wp at 1. simpl. rewrite Hlock. apply wp_bind, wp_zoom. unfold wp at 1. simpl.
  rewrite Hcount. apply wp_bind. change (with_locks l2 (with_locks l2 p1)) with (with_locks l2 p).
  destruct (0 <? handleCount i) eqn:Hcnt.
  - eapply wp_mono; [apply Hvalid|]. intros [] p' (Hl & Hc & Hcm & Hlm & Hfs & x & Hx & Hok' & Hm).
    apply wp_zoom. unfold wp. rewrite Hl, Hunlock. simpl. split_and!; try done; [by apply Hbusy'|].
    exists x. split; [done|]. split; [by apply policy_ok_with_locks|done].
  - apply wp_bind, wp_zoom. eapply wp_mono; [apply wp_deleteFile_disk|]. intros e f He. apply wp_ret.
    apply wp_zoom. unfold wp. simpl. rewrite Hunlock. simpl. split_and!; try done; [by apply Hbusy'| |].
    + by apply policy_ok_with_locks, policy_ok_with_fs, policy_ok_with_locks.
    + eapply disk_evicted_ext; [exact He|]. intros x. split; [intros <-|by intros [-> _]].
      split; [done|]. split; [done|]. unfold busy. by rewrite Hb, andb_false_r.
Qed.

(** ** Expired nodes *)

(** The nodes of the list are marked; nothing else changes. *)
Definition marked (m m' : gmap ptr lruNode) (c : list ptr) : Prop :=
  ∀ x, m' !! x = (if decide (x ∈ c) then set_deleted true else id) <$> m !! x.

Lemma wp_collect c fuel max count pr p :
  seg (nodes p) pr c nil_ptr → nil_ptr ∉ c → NoDup c →
  0 ≤ count → count + Z.of_nat (length c) ≤ max → max < 2 ^ 32 → (length c ≤ fuel)%nat →
  wp (collect fuel max count (hd_or nil_ptr c)) (λ r p', r = (c, nil_ptr) ∧
    ∃ m', p' = with_nodes m' p ∧ marked (nodes p) m' c) p.
Proof.
  revert fuel count pr p. induction c as [|q c IH]; intros fuel count pr p Hs Hnil Hnd H0 Hmax H32 Hf.
  { assert (Hrun : collect fuel max count nil_ptr p = Ret (([], nil_ptr), p)) by by destruct fuel.
    unfold wp; simpl. rewrite Hrun. split; [done|]. exists (nodes p). split; [by destruct p|].
    intros x. rewrite decide_False by apply not_elem_of_nil. by rewrite option_fmap_id. }
  destruct fuel as [|fuel]; [simpl in Hf; lia|]. destruct Hs as [(n & Hn & Hpv & Hnx) Hs].
  apply not_elem_of_cons in Hnil as [Hqn Hnil]. apply NoDup_cons in Hnd as [Hqc Hnd].
  simpl in *. rewrite decide_False by congruence.
  destruct (Z.ltb_spec count max); [simpl|lia].
  apply wp_bind. eapply wp_upd_node; [exact Hn|]. apply wp_bind.
  eapply wp_load_node; [apply lookup_insert_eq|]. simpl. rewrite Hnx. apply wp_bind.
  rewrite (u32_small (count + 1)) by lia.
  eapply wp_mono; [apply (IH fuel (count + 1) q); try done; try lia; simpl; by apply seg_insert_ne|].
  intros [l stop] p' ([= -> ->] & m' & -> & Hm'). apply wp_ret. split; [done|].
  exists m'. split; [done|]. intros x. rewrite Hm'. simpl. destruct (decide (q = x)) as [->|Hne].
  - rewrite lookup_insert_eq, decide_False by done. rewrite decide_True by left. by rewrite Hn.
  - rewrite lookup_insert_ne by done. f_equal.
    destruct (decide (x ∈ c)); [rewrite decide_True by by right|rewrite decide_False by (by intros [?|?]%elem_of_cons)]; done.
Qed.

(** Working off the detached nodes: those in use are entered again. *)
Lemma wp_delete_loop D L p :
  policy_ok p L D → locks_ok (fileLocks p) →
  wp (go_range delete_collected D) (λ _ p', ∃ L',
    policy_ok p' (L' ++ L) [] ∧ locks_ok (fileLocks p') ∧
    config p' = config p ∧ currMarker p' = currMarker p ∧ lastMarker p' = lastMarker p ∧
    (∀ nm', busy p' nm' = busy p nm') ∧
    (∀ nm, is_Some (nodeMap p' !! nm) ↔
       ∃ q, nodeMap p !! nm = Some q ∧ (q ∉ D ∨ busy p nm = true)) ∧
    disk_evicted (λ nm, (∃ q, nodeMap p !! nm = Some q ∧ q ∈ D) ∧ idle_file p nm) (fs p) (fs p')) p.
Proof.
  revert L p. induction D as [|q D IH]; intros L p Hok Hlk; simpl.
  { apply wp_ret. exists []. split_and!; try done.
    - intros nm. split.
      + intros [q Hq]. exists q. split; [done|]. left. apply not_elem_of_nil.
      + intros (q & Hq & _). eauto.
    - apply disk_evicted_none. by intros nm [(q & _ & ?%not_elem_of_nil) _]. }
  apply wp_bind. unfold delete_collected.
  destruct (po_inD _ _ _ Hok q ltac:(left)) as (nm0 & n & Hn & Hname & Hdel).
  assert (Hmap : nodeMap p !! nm0 = Some q).
  { apply (po_map _ _ _ Hok). right. split; [left|]. by exists n. }
  apply wp_bind. eapply wp_load_node; [exact Hn|]. rewrite Hdel, Hname. apply wp_bind.
  eapply wp_removeNode_detached; [exact Hok|exact Hmap|].
  intros p1 Hok1 Hm1 _ (Hc1 & Hcm1 & Hlm1 & Hf1 & Hfs1 & _).
  assert (Hb1 : ∀ nm', busy p1 nm' = busy p nm').
  { intros nm'. unfold busy, az_name. by rewrite Hc1, Hf1. }
  eapply wp_mono.
  { apply (wp_deleteItem nm0 L D p1 Hok1); [rewrite Hm1; apply lookup_delete_eq|by rewrite Hf1]. }
  intros [] p2 (Hlk2 & Hc2 & Hcm2 & Hlm2 & Hb2 & Hcase).
  assert (Hstep : ∃ L2, policy_ok p2 (L2 ++ L) D ∧
    (∀ nm x, nodeMap p2 !! nm = Some x ∧ x ∈ D ↔ nodeMap p !! nm = Some x ∧ x ∈ D) ∧
    (∀ nm, is_Some (nodeMap p2 !! nm) ↔
       ∃ x, nodeMap p !! nm = Some x ∧ (x ≠ q ∨ busy p nm = true)) ∧
    disk_evicted (λ nm, nodeMap p !! nm = Some q ∧ idle_file p nm) (fs p) (fs p2)).
  { assert (HqD : q ∉ D).
    { pose proof (po_nodup _ _ _ Hok) as (_ & _ & [? _]%NoDup_cons)%NoDup_app. done. }
    assert (Hone : ∀ nm, nodeMap p !! nm = Some q → nm = nm0).
    { intros nm Hx. apply (po_map _ _ _ Hok) in Hx as [(_ & _ & _ & n' & Hn' & <- & _)|(_ & n' & Hn' & <- & _)]; congruence. }
    rewrite Hb1 in Hcase. destruct (busy p nm0) eqn:Hbusy.
    - destruct Hcase as (Hfs2 & x & Hx & Hok2 & Hm2). exists [x]. split; [done|]. rewrite Hm2, Hm1. split_and!.
      + intros nm y. rewrite lookup_insert_Some, lookup_delete_Some.
        assert (x ∉ D). { pose proof (po_nodup _ _ _ Hok2) as (_ & Hd & _)%NoDup_app. apply Hd. left. }
        split; [intros [[[_ <-]|[_ [_ ?]]] ?]; done|]. intros [Hy HyD]. split; [|done]. right.
        assert (nm0 ≠ nm) by (intros ->; congruence). done.
      + intros nm. destruct (decide (nm0 = nm)) as [<-|Hne].
        * rewrite lookup_insert_eq. split; [|eauto]. intros _. exists q. auto.
        * rewrite lookup_insert_ne, lookup_delete_ne by done. split.
          -- intros [y Hy]. exists y. split; [done|]. left. intros ->. by apply Hone in Hy.
          -- intros (y & Hy & _). eauto.
      + rewrite Hfs2, Hfs1. apply disk_evicted_none. intros nm [->%Hone [_ Hi]]. congruence.
    - destruct Hcase as (Hok2 & Hm2 & Hev). exists []. split; [done|]. rewrite Hm2, Hm1. split_and!.
      + intros nm y. rewrite lookup_delete_Some. split; [tauto|]. intros [Hy HyD]. split; [|done].
        split; [|done]. intros ->. congruence.
      + intros nm. destruct (decide (nm0 = nm)) as [<-|Hne].
        * rewrite lookup_delete_eq. split; [by intros [? ?]|]. intros (y & Hy & [Hy2|Hy2]); [|congruence].
          rewrite Hmap in Hy. by injection Hy as ->.
        * rewrite lookup_delete_ne by done. split.
          -- intros [y Hy]. exists y. split; [done|]. left. intros ->. by apply Hone in Hy.
          -- intros (y & Hy & _). eauto.
      + rewrite Hfs1 in Hev. eapply disk_evicted_ext; [exact Hev|]. intros nm. unfold idle_file. rewrite Hb1, Hc1.
        split; [by intros [-> ?]|]. intros [Hx ?]. by apply Hone in Hx as ->. }
  destruct Hstep as (L2 & Hok2 & Hsame & Hdom & Hev2).
  eapply wp_mono; [by apply IH|].
  intros [] p3 (L3 & Hok3 & Hlk3 & Hc3 & Hcm3 & Hlm3 & Hb3 & Hdom3 & Hev3).
  exists (L3 ++ L2). rewrite <-app_assoc. split_and!; try congruence; try done.
  2: { eapply disk_evicted_trans; [exact Hev2|exact Hev3|]. intros nm. unfold idle_file. rewrite Hb2, Hb1, Hc2, Hc1.
       split.
       - intros [(x & Hx & [->|HxD]%elem_of_cons) Hi]; [by left|right].
         split; [exists x; by apply Hsame|done].
       - intros [[Hx Hi]|[(x & Hx & HxD) Hi]].
         + split; [|done]. exists q. split; [done|left].
         + destruct (proj1 (Hsame nm x) (conj Hx HxD)). split; [|done]. exists x. split; [done|by right]. }
  intros nm. rewrite Hdom3, Hb2, Hb1. split.
  - intros (x & Hx & Hor). destruct (proj1 (Hdom nm)) as (y & Hy & Hyor); [eauto|]. exists y. split; [done|].
    destruct (decide (busy p nm = true)) as [|Hnb]; [by right|left].
    destruct Hor as [HxD|]; [|done]. destruct Hyor as [Hyq|]; [|done].
    intros [?|HyD]%elem_of_cons; [done|].
    destruct (proj2 (Hsame nm y) (conj Hy HyD)) as [Hy2 _]. congruence.
  - intros (y & Hy & Hor). destruct (proj2 (Hdom nm)) as [x Hx].
    { exists y. split; [done|]. destruct Hor as [Hn'|]; [|by right]. left. intros ->. apply Hn'. left. }
    exists x. split; [done|]. destruct (decide (busy p nm = true)) as [|Hnb]; [by right|left].
    intros HxD. destruct (proj1 (Hsame nm x) (conj Hx HxD)) as [Hx2 _].
    destruct Hor as [Hn'|]; [|done]. apply Hn'. right. congruence.
Qed.

(** The list is cut behind the last marker. *)
Lemma wp_cut a q n x c p (Q : unit → policy → Prop) :
  seg (nodes p) nil_ptr (a ++ q :: x :: c) nil_ptr → NoDup (a ++ q :: x :: c) →
  nodes p !! q = Some n → x ≠ nil_ptr →
  (∀ m', seg m' nil_ptr (a ++ [q]) nil_ptr → seg m' nil_ptr (x :: c) nil_ptr →
     same_payload (nodes p) m' → Q tt (with_nodes m' p)) →
  wp (_ ← upd_node q (set_next nil_ptr);
      (if decide (x = nil_ptr) then mret tt else upd_node x (set_prev nil_ptr))) Q p.
Proof.
  intros Hs Hnd Hn Hx HQ.
  replace (a ++ q :: x :: c) with ((a ++ [q]) ++ x :: c) in * by by rewrite <-app_assoc.
  apply seg_app in Hs as [Hs1 Hs2]. apply NoDup_app in Hnd as (Hnd1 & Hdis & Hnd2).
  apply NoDup_app in Hnd1 as (_ & Hqa & _). pose proof Hs2 as [(nx & Hnx & _) _].
  assert (Hq1 : q ∉ x :: c) by (apply Hdis, elem_of_app; right; left).
  assert (Hq2 : q ∉ a) by (intros H; apply (Hqa q H); left).
  assert (Hx1 : x ∉ a ++ [q]) by (intros H; apply (Hdis x H); left).
  apply not_elem_of_cons in Hq1 as [Hqx Hqc]. apply NoDup_cons in Hnd2 as [Hxc Hnd2].
  apply wp_bind. eapply wp_upd_node; [exact Hn|]. rewrite decide_False by done.
  eapply wp_upd_node; [simpl; by rewrite lookup_insert_ne|]. simpl.
  apply (HQ (<[x:=set_prev nil_ptr nx]> (<[q:=set_next nil_ptr n]> (nodes p)))).
  - apply seg_insert_ne; [done|]. by eapply seg_set_next.
  - eapply seg_set_prev; [|done|by rewrite lookup_insert_ne].
    apply seg_insert_ne; [by apply not_elem_of_cons|exact Hs2].
  - transitivity (<[q:=set_next nil_ptr n]> (nodes p)); [by eapply same_payload_insert|].
    eapply same_payload_insert; [by rewrite lookup_insert_ne|done].
Qed.

Lemma marked_seg m m' c pr l nx : marked m m' c → seg m pr l nx → seg m' pr l nx.
Proof.
  intros Hm Hs. eapply seg_links; [exact Hs|]. intros x _. rewrite Hm.
  by destruct (m !! x), (decide (x ∈ c)).
Qed.

(** Cutting and marking give the detached list. *)
Lemma policy_ok_detach p A c m1 m2 :
  policy_ok p (A ++ lastMarker p :: c) [] →
  seg m1 nil_ptr (A ++ [lastMarker p]) nil_ptr → seg m1 nil_ptr c nil_ptr →
  same_payload (nodes p) m1 → marked m1 m2 c → A ≠ [] →
  policy_ok (with_nodes m2 p) (A ++ [lastMarker p]) c.
Proof.
  intros Hok Hs1 Hs2 Hpay Hmk HA. pose proof Hok as [H1 H2 H3 H4 H5 H6 H7 H8 H9].
  rewrite app_nil_r in *.
  assert (Hsplit : (A ++ [lastMarker p]) ++ c = A ++ lastMarker p :: c) by by rewrite <-app_assoc.
  assert (HcL : [currMarker p; lastMarker p] `sublist_of` A ++ [lastMarker p]).
  { rewrite <-Hsplit in H6, H3. apply sublist_app_r in H6 as (k1 & k2 & Hk & Hk1 & Hk2).
    apply NoDup_app in H3 as (_ & Hdis & _).
    destruct k2 as [|y k2] using rev_ind; [rewrite app_nil_r in Hk; by rewrite Hk|].
    rewrite app_assoc in Hk. change [currMarker p; lastMarker p] with ([currMarker p] ++ [lastMarker p]) in Hk.
    apply app_inj_tail in Hk as [_ <-]. exfalso. apply (Hdis (lastMarker p)).
    - apply elem_of_app. right. left.
    - eapply sublist_subseteq; [exact Hk2|]. apply elem_of_app. right. left. }
  assert (Hin : ∀ x, x ∈ A ++ lastMarker p :: c ↔ x ∈ A ++ [lastMarker p] ∨ x ∈ c).
  { intros x. rewrite <-Hsplit. apply elem_of_app. }
  rewrite <-Hsplit in H3. pose proof H3 as (_ & Hdis & _)%NoDup_app.
  assert (Hcm : currMarker p ∉ c ∧ lastMarker p ∉ c).
  { split; apply Hdis; eapply sublist_subseteq; try exact HcL; set_solver. }
  assert (HnL : ∀ x nm d, x ∉ c → node_is m2 x nm d ↔ node_is (nodes p) x nm d).
  { intros x nm d Hx. pose proof (Hmk x) as Hmx. rewrite decide_False in Hmx by done.
    rewrite option_fmap_id in Hmx. split; apply node_is_payload; by rewrite Hmx, (Hpay x). }
  assert (HnD : ∀ x nm, x ∈ c → node_is m2 x nm true ↔ node_is (nodes p) x nm false).
  { intros x nm Hx. pose proof (Hmk x) as Hmx. rewrite decide_True in Hmx by done.
    pose proof (Hpay x) as Hpx. destruct (H8 x) as (nm' & n & Hn & Hnm' & Hd);
      [apply Hin; by right|intros ->; tauto..|].
    rewrite Hn in Hpx. destruct (m1 !! x) as [n1|] eqn:E1; simpl in *; [|done].
    injection Hpx as Hu Hdl Hname.
    split; intros (y & Hy & Hynm & _).
    - rewrite Hmx in Hy. injection Hy as <-. simpl in Hynm. exists n. split_and!; congruence.
    - exists (set_deleted true n1). simpl. split_and!; congruence. }
  split; simpl; try done.
  - by eapply marked_seg.
  - by eapply marked_seg.
  - by rewrite Hsplit.
  - rewrite H5. by destruct A.
  - intros nm x. rewrite H7, Hin. destruct (decide (x ∈ c)) as [Hx|Hx].
    + rewrite (HnD x) by done. split; [intros [(_ & _ & _ & ?)|[?%not_elem_of_nil _]]; [by right|done]|].
      intros [(Hx2 & _)|[_ Hn]]; [by apply Hdis in Hx2|]. left. split_and!; [by right|intros ->; tauto..|done].
    + rewrite !HnL by done. split; [intros [(? & ? & ? & ?)|[?%not_elem_of_nil _]]; tauto|tauto].
  - intros x Hx Hxc Hxl. setoid_rewrite HnL; [|by apply Hdis]. apply H8; [apply Hin; by left|done..].
  - intros x Hx. destruct (H8 x) as (nm & Hn); [apply Hin; by right|intros ->; tauto..|].
    exists nm. by apply HnD.
Qed.

(** When no more than max-eviction files have expired. *)
Lemma wp_deleteExpiredNodes p A c :
  policy_ok p (A ++ lastMarker p :: c) [] → locks_ok (fileLocks p) →
  Z.of_nat (length c) ≤ maxEviction (config p) < 2 ^ 32 →
  wp deleteExpiredNodes (λ _ p', ∃ L',
    policy_ok p' (L' ++ A ++ [lastMarker p]) [] ∧
    (∀ nm, is_Some (nodeMap p' !! nm) ↔
      ∃ q, nodeMap p !! nm = Some q ∧ (q ∉ c ∨ busy p nm = true)) ∧
    disk_evicted (λ nm, (∃ q, nodeMap p !! nm = Some q ∧ q ∈ c) ∧ idle_file p nm) (fs p) (fs p')) p.
Proof.
  intros Hok Hlk Hmax. pose proof Hok as [H1 _ H3 H4 _ H6 _ _ _]. rewrite app_nil_r in *.
  pose proof H1 as [_ [(n & Hn & _ & Hnx) _]]%seg_app. unfold deleteExpiredNodes.
  apply wp_bind. unfold wp at 1, go_get. apply wp_bind. eapply wp_load_node; [exact Hn|]. rewrite Hnx.
  destruct c as [|x c]; simpl.
  { apply wp_ret. exists []. split_and!; [done| |].
    - intros nm. split; [|intros (q & Hq & _); eauto].
      intros [q Hq]. exists q. split; [done|]. left. apply not_elem_of_nil.
    - apply disk_evicted_none. by intros nm [(q & _ & ?%not_elem_of_nil) _]. }
  assert (Hxn : x ≠ nil_ptr) by (intros ->; set_solver). rewrite decide_False by done.
  assert (HA : A ≠ []).
  { intros ->. pose proof H6 as Hs. apply sublist_cons_r in Hs as [Hs|(k & Hk & Hs)].
    - simpl in H3. apply NoDup_cons in H3 as [Hl _]. apply Hl.
      eapply sublist_subseteq; [exact Hs|]. right. left.
    - injection Hk as Hcl <-. simpl in H3. apply NoDup_cons in H3 as [Hl _]. apply Hl.
      eapply sublist_subseteq; [exact Hs|]. left. }
  apply wp_bind_assoc. eapply (wp_cut A (lastMarker p) n x c); [exact H1|exact H3|exact Hn|done|].
  intros m1 Hs1 Hs2 Hpay. apply wp_bind. eapply wp_mono.
  { apply (wp_collect (x :: c) _ _ 0 nil_ptr); simpl in *; try done; try lia; [set_solver|].
    by apply NoDup_app in H3 as (_ & _ & [_ ?]%NoDup_cons). }
  intros [items stop] p1 ([= -> ->] & m2 & -> & Hmk). simpl in Hmk.
  pose proof (policy_ok_detach p A (x :: c) m1 m2 Hok Hs1 Hs2 Hpay Hmk HA) as Hok2.
  change (with_nodes m2 (with_nodes m1 p)) with (with_nodes m2 p).
  pose proof (po_seg _ _ _ Hok2) as [_ [(n2 & Hn2 & _ & Hnx2) _]]%seg_app.
  apply wp_bind. eapply wp_upd_node; [exact Hn2|].
  assert (set_next nil_ptr n2 = n2) as -> by (destruct n2; simpl in *; by subst).
  rewrite insert_id by done. simpl. apply wp_bind, wp_ret.
  change (with_nodes m2 (with_nodes m2 p)) with (with_nodes m2 p).
  eapply wp_mono; [apply (wp_delete_loop _ _ _ Hok2 Hlk)|].
  intros [] p' (L' & Hok' & _ & _ & _ & _ & _ & Hdom & Hev). exists L'. split; [done|]. split; [exact Hdom|exact Hev].
Qed.

(** C12: a timeout tick of the policy, when no more than max-eviction files have
    expired.  With [a] the nodes in front of the current marker (used since the
    previous tick) and [b], [c] those behind it, the files of [b] and [c] that are
    neither locked nor open leave the policy and are deleted from the disk, unless
    the system refuses that; no other file is deleted.  The files of [a] stay, in
    order, behind the new marker, and files in use are entered again at the front.
    The list stays well formed. *)
Theorem clearCache_timeout_spec p a b c :
  policy_ok p (a ++ currMarker p :: b ++ lastMarker p :: c) [] → locks_ok (fileLocks p) →
  Z.of_nat (length (b ++ c)) ≤ maxEviction (config p) < 2 ^ 32 →
  wp clearCache_timeout (λ _ p', ∃ L',
    policy_ok p' (L' ++ lastMarker p :: a ++ [currMarker p]) [] ∧
    (∀ nm, is_Some (nodeMap p' !! nm) ↔
      ∃ q, nodeMap p !! nm = Some q ∧ (q ∈ a ∨ busy p nm = true)) ∧
    disk_evicted (λ nm, (∃ q, nodeMap p !! nm = Some q ∧ q ∈ b ++ c) ∧ idle_file p nm) (fs p) (fs p')) p.
Proof.
  intros Hok Hlk Hmax. unfold clearCache_timeout. apply wp_bind.
  eapply wp_updateMarker; [exact Hok|]. intros p1 Hok1 Hc1 Hl1 Hm1 Hcfg1 Hlk1 Hfs1 _.
  change (lastMarker p :: a ++ currMarker p :: b ++ c)
    with ((lastMarker p :: a) ++ currMarker p :: b ++ c) in Hok1. rewrite <-Hl1 in Hok1.
  eapply wp_mono; [apply (wp_deleteExpiredNodes p1 (lastMarker p :: a) (b ++ c) Hok1)|].
  { by rewrite Hlk1. } { by rewrite Hcfg1. }
  assert (Hb : ∀ nm, busy p1 nm = busy p nm) by (intros nm; unfold busy, az_name; by rewrite Hcfg1, Hlk1).
  intros [] p' (L' & Hok' & Hdom & Hev). exists L'. rewrite Hl1 in Hok'. split; [exact Hok'|]. split.
  2: { rewrite Hfs1, Hm1 in Hev. eapply disk_evicted_ext; [exact Hev|]. intros nm. unfold idle_file. by rewrite Hb, Hcfg1. }
  intros nm. rewrite Hdom, Hm1, Hb.
  pose proof (po_nodup _ _ _ Hok) as Hnd. rewrite app_nil_r in Hnd.
  apply NoDup_app in Hnd as (_ & Hdis & _).
  assert (Hcase : ∀ q, nodeMap p !! nm = Some q → q ∉ b ++ c ↔ q ∈ a).
  { intros q Hq. apply (po_map _ _ _ Hok) in Hq as [(Hq & Hqc & Hql & _)|[?%not_elem_of_nil _]]; [|done].
    split; [set_solver|]. intros Hqa Hqbc. apply (Hdis q Hqa). set_solver. }
  split; intros (q & Hq & Hor); exists q; (split; [done|]); rewrite (Hcase q Hq) in * || idtac; tauto.
Qed.

Lemma IsCached_in nm q p L :
  policy_ok p L [] → nodeMap p !! nm = Some q → IsCached nm p = Ret (true, p).
Proof.
  intros Hok Hq. unfold IsCached, mbind, go_bind, load_node; simpl. rewrite Hq.
  apply (po_map _ _ _ Hok) in Hq as [(_ & _ & _ & n & Hn & _ & Hd)|[?%not_elem_of_nil _]]; [|done].
  unfold mbind, go_bind; simpl. rewrite Hn. simpl. by rewrite Hd.
Qed.

(** CacheValidate makes a file the most recently used one: its node, an
    existing one or a new one, moves to the front, the order of the others
    does not change, and the file counts as cached.  Nothing panics. *)
Theorem cacheValidate_front nm p L :
  policy_ok p L [] →
  wp (cacheValidate nm) (λ _ p', ∃ q, policy_ok p' (q :: filter (λ x, x ≠ q) L) [] ∧
    nodeMap p' = <[nm:=q]> (nodeMap p) ∧ IsCached nm p' = Ret (true, p')) p.
Proof.
  intros Hok. eapply wp_mono; [apply (wp_cacheValidate nm L [] p Hok)|].
  { intros q Hq. by apply (po_map _ _ _ Hok) in Hq as [[? _]|[?%not_elem_of_nil _]]. }
  intros [] p' (q & Hok' & Hm & _). exists q. split_and!; [done..|].
  eapply IsCached_in; [exact Hok'|]. rewrite Hm. apply lookup_insert_eq.
Qed.

(** CachePurge, with what it leaves alone. *)
Lemma wp_CachePurge nm p L :
  policy_ok p L [] → Z.of_nat (length (deleteEvent p)) < 1000 →
  wp (CachePurge nm) (λ _ p', nodeMap p' = delete nm (nodeMap p) ∧
    deleteEvent p' = deleteEvent p ++ [nm] ∧
    policy_ok p' (filter (λ x, nodeMap p !! nm ≠ Some x) L) [] ∧
    validateChan p' = validateChan p ∧ config p' = config p ∧ fileLocks p' = fileLocks p ∧ fs p' = fs p) p.
Proof.
  intros Hok Hroom. unfold CachePurge. apply wp_bind.
  assert (Hsend : ∀ p1, frame p p1 → wp (send_delete nm) (λ _ p',
    nodeMap p' = nodeMap p1 ∧ deleteEvent p' = deleteEvent p ++ [nm] ∧
    (∀ L', policy_ok p1 L' [] → policy_ok p' L' []) ∧
    validateChan p' = validateChan p ∧ config p' = config p ∧ fileLocks p' = fileLocks p ∧ fs p' = fs p) p1).
  { intros p1 (Hc & _ & _ & Hl & Hf & Hd & Hv). unfold wp, send_delete. rewrite Hd.
    destruct (Z.ltb_spec (Z.of_nat (length (deleteEvent p))) 1000); [|lia].
    split_and!; [done..| |done|done|done|done]. by intros L' []. }
  destruct (nodeMap p !! nm) as [q|] eqn:Hq.
  - assert (HqL : q ∈ L) by (by apply (po_map _ _ _ Hok) in Hq as [[? _]|[?%not_elem_of_nil _]]).
    eapply wp_removeNode; [exact Hok|exact Hq|exact HqL|]. intros p1 Hok1 Hm1 Hfr.
    eapply wp_mono; [by apply Hsend|]. intros [] p' (Hm & Hd & Hk & Hrest).
    split_and!; [by rewrite Hm|done| |apply Hrest..]. apply Hk.
    rewrite (list_filter_iff _ (λ x, x ≠ q)); [done|]. intros x. split; congruence.
  - unfold removeNode. apply wp_bind. unfold wp at 1, go_get. rewrite Hq. apply wp_ret.
    eapply wp_mono; [by apply Hsend|]. intros [] p' (Hm & Hd & Hk & Hrest).
    split_and!; [by rewrite Hm, delete_id|done| |apply Hrest..]. apply Hk.
    replace (filter (λ x, None ≠ Some x) L) with L; [done|]. clear.
    induction L as [|x L IH]; [done|]. rewrite filter_cons_True by done. by f_equal.
Qed.

(** CachePurge takes a file out of the list and of the map, keeps the order
    of the others, and queues exactly that file for deletion; with room in
    the channel it does not block. *)
Theorem CachePurge_spec nm p L :
  policy_ok p L [] → Z.of_nat (length (deleteEvent p)) < 1000 →
  wp (CachePurge nm) (λ _ p', nodeMap p' = delete nm (nodeMap p) ∧
    deleteEvent p' = deleteEvent p ++ [nm] ∧
    policy_ok p' (filter (λ x, nodeMap p !! nm ≠ Some x) L) []) p.
Proof.
  intros Hok Hroom. eapply wp_mono; [by apply wp_CachePurge|]. simpl. tauto.
Qed.

(** Eviction never deletes a file in use.  deleteItem of a file that is locked
    by a download or has open handles touches nothing of the file system and
    makes the file cached again. *)
Theorem deleteItem_in_use nm p L :
  policy_ok p L [] → nodeMap p !! nm = None → locks_ok (fileLocks p) → busy p nm = true →
  wp (deleteItem nm) (λ _ p', fs p' = fs p ∧ IsCached nm p' = Ret (true, p')) p.
Proof.
  intros Hok Hnm Hlk Hb. eapply wp_mono; [by apply (wp_deleteItem nm L [])|].
  intros [] p' (_ & _ & _ & _ & _ & Hcase). rewrite Hb in Hcase.
  destruct Hcase as (Hfs & q & Hq & Hok' & Hm). split; [done|].
  assert (Hq' : nodeMap p' !! nm = Some q) by (rewrite Hm; apply lookup_insert_eq).
  by eapply IsCached_in.
Qed.

End disk.

Lemma wp_StartPolicy cfg l f :
  (∃ u f', GetUsage (tmpPath cfg) f = Ret (u, f')) →
  wp StartPolicy (λ e p', e = None ∧ policy_ok p' [currMarker p'; lastMarker p'] [] ∧
    nodeMap p' = ∅ ∧ fileLocks p' = l ∧ config p' = cfg) (NewLRUPolicy cfg l f).
Proof.
  intros (u & f' & Hu). unfold StartPolicy. apply wp_bind. unfold wp at 1, go_get.
  do 4 (apply wp_bind; eapply wp_upd_node; [vm_compute; reflexivity|]).
  do 2 (apply wp_bind; unfold wp at 1, go_modify).
  apply wp_bind, wp_zoom. unfold wp at 1. simpl. rewrite Hu. apply wp_bind.
  case_bool_decide; unfold wp; simpl; (split_and!; [done| |done..]); split; simpl.
  all: try done.
  all: try (intros nm q; split; [done|]; intros [(Hq & Hc & Hl & _)|[?%not_elem_of_nil _]]; [set_solver|done]).
  all: try (intros q Hq Hc Hl; set_solver).
  all: try (by intros q ?%not_elem_of_nil).
  all: try (refine (bool_decide_unpack _ _); vm_compute; done).
  all: split; [|split; [|done]]; eexists; (split; [vm_compute; reflexivity|by split]).
Qed.
End deletion.

(** ** Witnesses *)
Module Witness.
(** A file system that removes names from a set. *)
#[export] Instance FileSystem_set : FileSystem (gset string) := {
  os_Remove nm f := if decide (nm ∈ f) then Ret (None, f ∖ {[nm]})
                    else Ret (Some (PathError ENOENT), f);
  os_Chmod _ _ f := Ret (None, f);
  GetUsage _ f := Ret (Some 0%Q, f);
  GetDiskUsageFromStatfs _ f := Ret ((0%Q, 0%Q, None), f)
}.
#[export] Instance FileSystemLaws_set : FileSystemLaws (gset string).
Proof. split; [|eauto]. intros nm f. simpl. destruct (decide (nm ∈ f)); eauto. Qed.

#[export] Instance DiskLaws_set : DiskLaws (gset string).
Proof.
  refine {| on_disk := id; writable := λ _ _, True; stuck := λ _, False |}.
  - intros nm f. unfold wp. simpl. by destruct (decide (nm ∈ f)).
  - intros nm f. unfold wp. simpl. auto.
Defined.

Definition cfg (max : Z) : cachePolicyConfig := mkPolicyConfig "/t" 120 max 0%Q 80%Q 60%Q false.
Definition files : gset string := {["/t/a"; "/t/b"]}.
Definition no_locks : LockMap := mkLockMap ∅ ∅.
(** "/t/b" is open. *)
Definition b_open : LockMap := mkLockMap {["b" := 1%nat]} {[1%nat := mkLockMapItem 1 false false 0]}.

Definition run {A} (m : go (lruPolicy (gset string)) A) (p : lruPolicy (gset string)) :=
  match m p with Ret (_, p') => p' | _ => p end.
Definition started (max : Z) (l : LockMap) := run StartPolicy (NewLRUPolicy (cfg max) l files).

Lemma started_ok max l : policy_ok (started max l) [1%nat; 2%nat] [].
Proof.
  pose proof (wp_StartPolicy (cfg max) l files ltac:(simpl; eauto)) as H.
  unfold wp in H. unfold started, run. destruct (StartPolicy _) as [[e p']| |] eqn:E; [|done..].
  destruct H as (_ & Hok & _). vm_compute in E. injection E as <- <-. exact Hok.
Qed.

Lemma cacheValidate_front_witness :
  wp (cacheValidate "/t/a") (λ _ p', ∃ q,
    policy_ok p' (q :: filter (λ x, x ≠ q) [1%nat; 2%nat]) [] ∧
    nodeMap p' = <["/t/a":=q]> (nodeMap (started 5 no_locks)) ∧
    IsCached "/t/a" p' = Ret (true, p')) (started 5 no_locks).
Proof. apply (cacheValidate_front "/t/a" (started 5 no_locks) _ (started_ok 5 no_locks)). Defined.

Lemma CachePurge_spec_witness :
  wp (CachePurge "/t/a") (λ _ p', nodeMap p' = delete "/t/a" (nodeMap (started 5 no_locks)) ∧
    deleteEvent p' = ["/t/a"] ∧
    policy_ok p' (filter (λ x, nodeMap (started 5 no_locks) !! "/t/a" ≠ Some x) [1%nat; 2%nat]) [])
    (started 5 no_locks).
Proof.
  apply (CachePurge_spec "/t/a" (started 5 no_locks) _ (started_ok 5 no_locks)).
  vm_compute. reflexivity.
Defined.

Lemma b_open_ok : locks_ok b_open.
Proof.
  intros nm q Hq. simpl in Hq. apply lookup_singleton_Some in Hq as [_ <-].
  exists (mkLockMapItem 1 false false 0). split; reflexivity.
Qed.
Lemma deleteItem_in_use_witness :
  wp (deleteItem "/t/b") (λ _ p', fs p' = files ∧ IsCached "/t/b" p' = Ret (true, p'))
    (started 5 b_open).
Proof.
  apply (deleteItem_in_use "/t/b" (started 5 b_open) [1%nat; 2%nat] (started_ok 5 b_open));
    [reflexivity|apply b_open_ok|vm_compute; reflexivity].
Defined.

(** Two files used before the previous tick, one of them open. *)
Definition idle := run (cacheValidate "/t/b") (run (cacheValidate "/t/a") (started 5 b_open)).
Lemma validated_ok nm p L q :
  policy_ok p L [] → nodeMap (run (cacheValidate nm) p) !! nm = Some q →
  policy_ok (run (cacheValidate nm) p) (q :: filter (λ x, x ≠ q) L) [].
Proof.
  intros Hok Hq. pose proof (wp_cacheValidate nm L [] p Hok) as H. unfold wp, run in *.
  destruct (cacheValidate nm p) as [[[] p']| |].
  - destruct H as (q' & Hok' & Hm & _).
    { intros x Hx. by apply (po_map _ _ _ Hok) in Hx as [[? _]|[?%not_elem_of_nil _]]. }
    rewrite Hm, lookup_insert_eq in Hq. by injection Hq as <-.
  - destruct H. intros x Hx. by apply (po_map _ _ _ Hok) in Hx as [[? _]|[?%not_elem_of_nil _]].
  - destruct H. intros x Hx. by apply (po_map _ _ _ Hok) in Hx as [[? _]|[?%not_elem_of_nil _]].
Qed.
Lemma idle_ok : policy_ok idle ([4%nat; 3%nat] ++ 1%nat :: [] ++ 2%nat :: []) [].
Proof.
  apply (validated_ok "/t/b" (run (cacheValidate "/t/a") (started 5 b_open)) [3%nat; 1%nat; 2%nat] 4%nat);
    [|vm_compute; reflexivity].
  apply (validated_ok "/t/a" (started 5 b_open) [1%nat; 2%nat] 3%nat);
    [apply started_ok|vm_compute; reflexivity].
Qed.
(** The first tick keeps both files: they were used since Start. *)
Definition aged := run clearCache_timeout idle.
Lemma aged_ok : policy_ok aged ([] ++ 2%nat :: [4%nat; 3%nat] ++ 1%nat :: []) [].
Proof.
  assert (Hrun : updateMarker idle = Ret (tt, aged)) by (vm_compute; reflexivity).
  assert (Hwp : wp updateMarker (λ _ p', policy_ok p' ([] ++ 2%nat :: [4%nat; 3%nat] ++ 1%nat :: []) []) idle).
  { apply (wp_updateMarker [4%nat; 3%nat] [] []); [exact idle_ok|]. by intros p' Hok _. }
  unfold wp in Hwp. by rewrite Hrun in Hwp.
Qed.
(** The second tick deletes "/t/a", which is idle, from the map and from the disk,
    and keeps "/t/b", which is open. *)
Lemma clearCache_timeout_spec_witness :
  wp clearCache_timeout (λ _ p', ∃ L',
    policy_ok p' (L' ++ 1%nat :: [] ++ [2%nat]) [] ∧
    (∀ nm, is_Some (nodeMap p' !! nm) ↔
      ∃ q, nodeMap aged !! nm = Some q ∧ (q ∈ [] ∨ busy aged nm = true)) ∧
    disk_evicted (λ nm, (∃ q, nodeMap aged !! nm = Some q ∧ q ∈ [4%nat; 3%nat] ++ []) ∧ idle_file aged nm)
      (fs aged) (fs p')) aged ∧
  nodeMap aged !! "/t/a" = Some 3%nat ∧ idle_file aged "/t/a" ∧ busy aged "/t/b" = true.
Proof.
  split.
  - apply (clearCache_timeout_spec aged [] [4%nat; 3%nat] []);
      [exact aged_ok|exact b_open_ok|vm_compute; split; [discriminate|reflexivity]].
  - split_and!; [vm_compute; reflexivity| |vm_compute; reflexivity]. split; [vm_compute; discriminate|vm_compute; reflexivity].
Defined.

Example second_tick :
  let p := run clearCache_timeout aged in
  nodeMap p !! "/t/a" = None ∧ is_Some (nodeMap p !! "/t/b") ∧ fs p = {["/t/b"]}.
Proof. vm_compute. split_and!; [reflexivity|eauto|reflexivity]. Qed.

(** More expired files than max-eviction corrupt the list.  Two files expire
    with max-eviction 1: removing the first cuts the backward link of the
    second to the last marker; when the second file is used again it becomes
    the head while the last marker still points at it, and the list is a
    cycle: following [next] from the head comes back to the head. *)
Theorem max_eviction_makes_cycle :
  let p := run (cacheValidate "/t/a")
             (run clearCache_timeout (run clearCache_timeout
               (run (cacheValidate "/t/b") (run (cacheValidate "/t/a") (started 1 no_locks))))) in
  let step q := from_option next nil_ptr (nodes p !! q) in
  nodeMap p !! "/t/a" = Some (head p) ∧ nodeMap p !! "/t/b" = None ∧
  step (step (step (head p))) = head p ∧ ¬ ∃ L D, policy_ok p L D.
Proof.
  intros p step. split_and!; [vm_compute; reflexivity..|].
  intros (L & D & Hok).
  apply (policy_ok_acyclic p L D (step (head p)) (step (step (head p))) Hok);
    [reflexivity|vm_compute; discriminate|reflexivity|vm_compute; discriminate|vm_compute; reflexivity].
Qed.
End Witness.
