(* ===== verification/LfuPolicy.v ===== *)
(** * The LFU eviction policy of the file cache
    (src/component/file_cache/lfu_policy.go)

    Files are counted by use.  The policy keeps a doubly linked list of
    frequency nodes, each with the doubly linked list of the data nodes of that
    frequency; both kinds of node are objects on a heap, linked by address.
    Three parties share it: the callers, which hold the mutex of the list while
    they work, the goroutine clearCache, which receives the paths of evicted
    files from a channel of capacity ten and removes them, and the timers of the
    nodes.

    An operation runs as one step; at every send on the channel the goroutine may
    have received any number of paths first ([schedule]).  Inside an operation
    the mutex is taken, so when the goroutine has to put a file back it waits for
    the mutex and receives no more ([Waiting]). *)
From S2P Require Import Prelude GoLib LockMap LruPolicy.
From Stdlib Require Import Ascii QArith.
Open Scope Z_scope.

(** ** Data *)
Record dataNode := mkDataNode {
  dn_key : string;
  dn_frequency : Z;
  dn_next : ptr;
  dn_prev : ptr;
  dn_timer : option nat
}.
Definition newDataNode (key : string) : dataNode := mkDataNode key 1 nil_ptr nil_ptr None.

Record dataNodeLinkedList := mkDataNodeLinkedList {
  dl_size : Z;
  dl_first : ptr;
  dl_last : ptr
}.
Definition newDataNodeLinkedList : dataNodeLinkedList := mkDataNodeLinkedList 0 nil_ptr nil_ptr.

(** The list of a frequency node is its own: no other node refers to it. *)
Record frequencyNode := mkFrequencyNode {
  fn_list : dataNodeLinkedList;
  fn_next : ptr;
  fn_prev : ptr;
  fn_frequency : Z
}.
Definition newFrequencyNode (freq : Z) : frequencyNode :=
  mkFrequencyNode newDataNodeLinkedList nil_ptr nil_ptr freq.

Record lfuList := mkLfuList {
  ll_first : ptr;
  ll_last : ptr;
  dataNodeMap : gmap string ptr;
  freqNodeMap : gmap Z ptr;
  ll_size : Z;
  ll_maxSizeMB : Q;
  ll_lowerThresh : Q;
  ll_upperThresh : Q;
  ll_cachePath : string;
  cacheAge : Z;
  ll_cacheTimeout : Z
}.
Definition newLFUList (maxSizMB lowerThresh upperThresh : Q) (cachePath : string) (cacheTimeout : Z) : lfuList :=
  mkLfuList nil_ptr nil_ptr ∅ ∅ 0 maxSizMB lowerThresh upperThresh cachePath 0 cacheTimeout.

(** What the goroutine clearCache is doing: it waits for a path, or for the
    mutex of the list to put [path] back, with the file's lock [flock] taken
    when [Some flock], or it is not running. *)
Inductive receiver_state :=
  | Receiving
  | Waiting (path : string) (flock : option ptr)
  | Stopped.

(** [dataNodes] and [freqNodes] are the heap; [timers] the running timers, with
    the key of the node they were started for, and [fired] those that have run
    out and wait for the mutex. *)
Record lfuPolicy (FS : Type) := mkLfuPolicy {
  lfu_config : cachePolicyConfig;
  lfu_list : lfuList;
  dataNodes : gmap ptr dataNode;
  freqNodes : gmap ptr frequencyNode;
  timers : gmap nat string;
  fired : list string;
  removeFiles : list string;
  closeChan : nat;
  receiver : receiver_state;
  schedule : list nat;
  lfu_fileLocks : LockMap;
  lfu_fs : FS
}.
Arguments mkLfuPolicy {FS}.
Arguments lfu_config {FS} _.
Arguments lfu_list {FS} _.
Arguments dataNodes {FS} _.
Arguments freqNodes {FS} _.
Arguments timers {FS} _.
Arguments fired {FS} _.
Arguments removeFiles {FS} _.
Arguments closeChan {FS} _.
Arguments receiver {FS} _.
Arguments schedule {FS} _.
Arguments lfu_fileLocks {FS} _.
Arguments lfu_fs {FS} _.

Definition NewLFUPolicy {FS} (cfg : cachePolicyConfig) (locks : LockMap) (sch : list nat) (f : FS) : lfuPolicy FS :=
  mkLfuPolicy cfg
    (newLFUList (maxSizeMB cfg) (lowThreshold cfg) (highThreshold cfg) (tmpPath cfg) (cacheTimeout cfg))
    ∅ ∅ ∅ [] [] 0 Stopped sch locks f.

Definition dn_set_frequency (f : Z) (n : dataNode) := mkDataNode (dn_key n) f (dn_next n) (dn_prev n) (dn_timer n).
Definition dn_set_next (q : ptr) (n : dataNode) := mkDataNode (dn_key n) (dn_frequency n) q (dn_prev n) (dn_timer n).
Definition dn_set_prev (q : ptr) (n : dataNode) := mkDataNode (dn_key n) (dn_frequency n) (dn_next n) q (dn_timer n).
Definition dn_set_timer (t : option nat) (n : dataNode) := mkDataNode (dn_key n) (dn_frequency n) (dn_next n) (dn_prev n) t.
Definition fn_set_list (l : dataNodeLinkedList) (n : frequencyNode) := mkFrequencyNode l (fn_next n) (fn_prev n) (fn_frequency n).
Definition fn_set_next (q : ptr) (n : frequencyNode) := mkFrequencyNode (fn_list n) q (fn_prev n) (fn_frequency n).
Definition fn_set_prev (q : ptr) (n : frequencyNode) := mkFrequencyNode (fn_list n) (fn_next n) q (fn_frequency n).

Definition ll_set_ends (a b : ptr) (l : lfuList) : lfuList :=
  mkLfuList a b (dataNodeMap l) (freqNodeMap l) (ll_size l) (ll_maxSizeMB l) (ll_lowerThresh l)
    (ll_upperThresh l) (ll_cachePath l) (cacheAge l) (ll_cacheTimeout l).
Definition ll_set_dataMap (m : gmap string ptr) (l : lfuList) : lfuList :=
  mkLfuList (ll_first l) (ll_last l) m (freqNodeMap l) (ll_size l) (ll_maxSizeMB l) (ll_lowerThresh l)
    (ll_upperThresh l) (ll_cachePath l) (cacheAge l) (ll_cacheTimeout l).
Definition ll_set_freqMap (m : gmap Z ptr) (l : lfuList) : lfuList :=
  mkLfuList (ll_first l) (ll_last l) (dataNodeMap l) m (ll_size l) (ll_maxSizeMB l) (ll_lowerThresh l)
    (ll_upperThresh l) (ll_cachePath l) (cacheAge l) (ll_cacheTimeout l).
Definition ll_set_size (n : Z) (l : lfuList) : lfuList :=
  mkLfuList (ll_first l) (ll_last l) (dataNodeMap l) (freqNodeMap l) n (ll_maxSizeMB l) (ll_lowerThresh l)
    (ll_upperThresh l) (ll_cachePath l) (cacheAge l) (ll_cacheTimeout l).
Definition ll_set_age (n : Z) (l : lfuList) : lfuList :=
  mkLfuList (ll_first l) (ll_last l) (dataNodeMap l) (freqNodeMap l) (ll_size l) (ll_maxSizeMB l) (ll_lowerThresh l)
    (ll_upperThresh l) (ll_cachePath l) n (ll_cacheTimeout l).

Section lfu.
Context {FS : Type} `{!FileSystem FS}.
Abbreviation policy := (lfuPolicy FS).

Definition lfu_set_list (l : lfuList) (p : policy) : policy :=
  mkLfuPolicy (lfu_config p) l (dataNodes p) (freqNodes p) (timers p) (fired p) (removeFiles p)
    (closeChan p) (receiver p) (schedule p) (lfu_fileLocks p) (lfu_fs p).
Definition lfu_set_config (c : cachePolicyConfig) (p : policy) : policy :=
  mkLfuPolicy c (lfu_list p) (dataNodes p) (freqNodes p) (timers p) (fired p) (removeFiles p)
    (closeChan p) (receiver p) (schedule p) (lfu_fileLocks p) (lfu_fs p).
Definition lfu_set_dataNodes (m : gmap ptr dataNode) (p : policy) : policy :=
  mkLfuPolicy (lfu_config p) (lfu_list p) m (freqNodes p) (timers p) (fired p) (removeFiles p)
    (closeChan p) (receiver p) (schedule p) (lfu_fileLocks p) (lfu_fs p).
Definition lfu_set_freqNodes (m : gmap ptr frequencyNode) (p : policy) : policy :=
  mkLfuPolicy (lfu_config p) (lfu_list p) (dataNodes p) m (timers p) (fired p) (removeFiles p)
    (closeChan p) (receiver p) (schedule p) (lfu_fileLocks p) (lfu_fs p).
Definition lfu_set_timers (t : gmap nat string) (f : list string) (p : policy) : policy :=
  mkLfuPolicy (lfu_config p) (lfu_list p) (dataNodes p) (freqNodes p) t f (removeFiles p)
    (closeChan p) (receiver p) (schedule p) (lfu_fileLocks p) (lfu_fs p).
Definition lfu_set_channel (c : list string) (r : receiver_state) (p : policy) : policy :=
  mkLfuPolicy (lfu_config p) (lfu_list p) (dataNodes p) (freqNodes p) (timers p) (fired p) c
    (closeChan p) r (schedule p) (lfu_fileLocks p) (lfu_fs p).
Definition lfu_set_close (n : nat) (p : policy) : policy :=
  mkLfuPolicy (lfu_config p) (lfu_list p) (dataNodes p) (freqNodes p) (timers p) (fired p) (removeFiles p)
    n (receiver p) (schedule p) (lfu_fileLocks p) (lfu_fs p).
Definition lfu_set_schedule (s : list nat) (p : policy) : policy :=
  mkLfuPolicy (lfu_config p) (lfu_list p) (dataNodes p) (freqNodes p) (timers p) (fired p) (removeFiles p)
    (closeChan p) (receiver p) s (lfu_fileLocks p) (lfu_fs p).
Definition lfu_set_locks (l : LockMap) (p : policy) : policy :=
  mkLfuPolicy (lfu_config p) (lfu_list p) (dataNodes p) (freqNodes p) (timers p) (fired p) (removeFiles p)
    (closeChan p) (receiver p) (schedule p) l (lfu_fs p).
Definition lfu_set_fs (f : FS) (p : policy) : policy :=
  mkLfuPolicy (lfu_config p) (lfu_list p) (dataNodes p) (freqNodes p) (timers p) (fired p) (removeFiles p)
    (closeChan p) (receiver p) (schedule p) (lfu_fileLocks p) f.

Definition lfu_on_locks {A} (m : go LockMap A) : go policy A := go_zoom lfu_fileLocks lfu_set_locks m.
Definition lfu_on_fs {A} (m : go FS A) : go policy A := go_zoom lfu_fs lfu_set_fs m.
Definition on_list (f : lfuList → lfuList) : go policy unit :=
  go_modify (λ p, lfu_set_list (f (lfu_list p)) p).
Definition the_list : go policy lfuList := go_gets lfu_list.

Definition load_data (q : ptr) : go policy dataNode := λ p, go_deref (dataNodes p !! q) p.
Definition upd_data (q : ptr) (f : dataNode → dataNode) : go policy unit := λ p,
  match dataNodes p !! q with
  | Some n => Ret (tt, lfu_set_dataNodes (<[q:=f n]> (dataNodes p)) p)
  | None => Panic
  end.
Definition new_data (n : dataNode) : go policy ptr := λ p,
  let q := fresh_ptr (dataNodes p) in Ret (q, lfu_set_dataNodes (<[q:=n]> (dataNodes p)) p).
Definition load_freq (q : ptr) : go policy frequencyNode := λ p, go_deref (freqNodes p !! q) p.
Definition upd_freq (q : ptr) (f : frequencyNode → frequencyNode) : go policy unit := λ p,
  match freqNodes p !! q with
  | Some n => Ret (tt, lfu_set_freqNodes (<[q:=f n]> (freqNodes p)) p)
  | None => Panic
  end.
Definition new_freq (n : frequencyNode) : go policy ptr := λ p,
  let q := fresh_ptr (freqNodes p) in Ret (q, lfu_set_freqNodes (<[q:=n]> (freqNodes p)) p).
(** A map lookup of a missing key gives nil. *)
Definition freq_node (f : Z) (l : lfuList) : ptr := default nil_ptr (freqNodeMap l !! f).

(** ** The list of a frequency node *)
Definition dl_remove (fq node : ptr) : go policy ptr :=
  fn ← load_freq fq;
  let dl := fn_list fn in
  if dl_size dl =? 0 then mret nil_ptr
  else
    ends ← (if decide (dl_first dl = dl_last dl) then mret (nil_ptr, nil_ptr)
            else if decide (dl_first dl = node) then
              temp ← load_data (dl_first dl);
              _ ← upd_data (dl_first dl) (dn_set_next nil_ptr);
              _ ← upd_data (dn_next temp) (dn_set_prev nil_ptr);
              mret (dn_next temp, dl_last dl)
            else if decide (dl_last dl = node) then
              temp ← load_data (dl_last dl);
              _ ← upd_data (dl_last dl) (dn_set_prev nil_ptr);
              _ ← upd_data (dn_prev temp) (dn_set_next nil_ptr);
              mret (dl_first dl, dn_prev temp)
            else
              n ← load_data node;
              _ ← upd_data (dn_prev n) (dn_set_next (dn_next n));
              _ ← upd_data (dn_next n) (dn_set_prev (dn_prev n));
              _ ← upd_data node (dn_set_next nil_ptr);
              _ ← upd_data node (dn_set_prev nil_ptr);
              mret (dl_first dl, dl_last dl));
    _ ← upd_freq fq (fn_set_list (mkDataNodeLinkedList (u64 (dl_size dl - 1)) ends.1 ends.2));
    mret node.

Definition dl_pop (fq : ptr) : go policy ptr :=
  fn ← load_freq fq;
  if dl_size (fn_list fn) =? 0 then mret nil_ptr else dl_remove fq (dl_first (fn_list fn)).

Definition dl_push (fq node : ptr) : go policy unit :=
  fn ← load_freq fq;
  let dl := fn_list fn in
  ends ← (if decide (dl_first dl = nil_ptr) then mret (node, node)
          else
            _ ← upd_data (dl_last dl) (dn_set_next node);
            _ ← upd_data node (dn_set_prev (dl_last dl));
            mret (dl_first dl, node));
  upd_freq fq (fn_set_list (mkDataNodeLinkedList (u64 (dl_size dl + 1)) ends.1 ends.2)).

(** ** The list of frequencies *)
Definition deleteFrequency (freq : Z) : go policy unit :=
  l ← the_list;
  let freqNode := freq_node freq l in
  _ ← (if decide (ll_first l = ll_last l) then on_list (ll_set_ends nil_ptr nil_ptr)
       else if decide (ll_first l = freqNode) then
         n ← load_freq (ll_first l);
         _ ← on_list (ll_set_ends (fn_next n) (ll_last l));
         _ ← upd_freq (fn_next n) (fn_set_prev nil_ptr);
         upd_freq freqNode (fn_set_next nil_ptr)
       else if decide (ll_last l = freqNode) then
         n ← load_freq (ll_last l);
         _ ← on_list (ll_set_ends (ll_first l) (fn_prev n));
         _ ← upd_freq (fn_prev n) (fn_set_next nil_ptr);
         upd_freq freqNode (fn_set_prev nil_ptr)
       else
         n ← load_freq freqNode;
         _ ← upd_freq (fn_next n) (fn_set_prev (fn_prev n));
         _ ← upd_freq (fn_prev n) (fn_set_next (fn_next n));
         _ ← upd_freq freqNode (fn_set_next nil_ptr);
         upd_freq freqNode (fn_set_prev nil_ptr));
  on_list (λ l, ll_set_freqMap (delete freq (freqNodeMap l)) (ll_set_size (u64 (ll_size l - 1)) l)).

(** The walk of addFrequency: forward while the next frequency is smaller.  It
    passes every node of the list at most once. *)
Fixpoint freq_walk (fuel : nat) (freq : Z) (q : ptr) : go policy ptr :=
  match fuel with
  | O => go_block
  | S fuel =>
      n ← load_freq q;
      if decide (fn_next n = nil_ptr) then mret q
      else
        nn ← load_freq (fn_next n);
        if fn_frequency nn <? freq then freq_walk fuel freq (fn_next n) else mret q
  end.

Definition addFrequency (freq : Z) (freqNode prevFreqNode : ptr) : go policy unit :=
  l ← the_list;
  let added := on_list (λ l, ll_set_freqMap (<[freq := freqNode]> (freqNodeMap l)) (ll_set_size (u64 (ll_size l + 1)) l)) in
  if decide (ll_first l = nil_ptr ∧ ll_last l = nil_ptr) then
    _ ← on_list (ll_set_ends freqNode freqNode); added
  else
    p ← go_get;
    prevFreqNode ← freq_walk (size (freqNodes p)) freq
                     (if decide (prevFreqNode = nil_ptr) then ll_first l else prevFreqNode);
    _ ← (if decide (prevFreqNode = nil_ptr) then
           _ ← upd_freq freqNode (fn_set_next (ll_first l));
           _ ← upd_freq (ll_first l) (fn_set_prev freqNode);
           on_list (ll_set_ends freqNode (ll_last l))
         else if decide (prevFreqNode = ll_last l) then
           _ ← upd_freq prevFreqNode (fn_set_next freqNode);
           _ ← upd_freq freqNode (fn_set_prev prevFreqNode);
           on_list (ll_set_ends (ll_first l) freqNode)
         else
           n ← load_freq prevFreqNode;
           _ ← upd_freq freqNode (fn_set_next (fn_next n));
           _ ← upd_freq (fn_next n) (fn_set_prev freqNode);
           _ ← upd_freq prevFreqNode (fn_set_next freqNode);
           upd_freq freqNode (fn_set_prev prevFreqNode));
    added.

Definition promote (node : ptr) : go policy unit :=
  d ← load_data node;
  l ← the_list;
  let prevFreqNode := freq_node (dn_frequency d) l in
  _ ← dl_remove prevFreqNode node;
  let freq := u64 (dn_frequency d + u64 (1 + cacheAge l)) in
  _ ← upd_data node (dn_set_frequency freq);
  l ← the_list;
  _ ← match freqNodeMap l !! freq with
      | Some newFreqNode => dl_push newFreqNode node
      | None =>
          newFreqNode ← new_freq (newFrequencyNode freq);
          _ ← addFrequency freq newFreqNode prevFreqNode;
          _ ← on_list (λ l, ll_set_freqMap (<[freq := newFreqNode]> (freqNodeMap l)) l);
          dl_push newFreqNode node
      end;
  pf ← load_freq prevFreqNode;
  if dl_size (fn_list pf) =? 0 then
    _ ← deleteFrequency (fn_frequency pf); on_list (λ l, ll_set_size (u64 (ll_size l - 1)) l)
  else mret tt.

(** ** Timers *)

(** Stop of a nil timer is a nil dereference. *)
Definition stop_timer (node : ptr) : go policy unit :=
  l ← the_list;
  if 0 <? ll_cacheTimeout l then
    n ← load_data node;
    t ← go_deref (dn_timer n);
    go_modify (λ p, lfu_set_timers (delete t (timers p)) (fired p) p)
  else mret tt.

Definition setTimerIfValid (node : ptr) : go policy unit :=
  l ← the_list;
  if 0 <? ll_cacheTimeout l then
    n ← load_data node;
    p ← go_get;
    let t := fresh_ptr (timers p) in
    _ ← go_modify (λ p, lfu_set_timers (<[t := dn_key n]> (timers p)) (fired p) p);
    upd_data node (dn_set_timer (Some t))
  else mret tt.

(** ** The goroutine that removes files *)

(** clearItemFromCache up to the point where the file is removed ([None]) or has
    to be put back ([Some flock], with the lock it then holds). *)
Definition clearItem (path : string) : go policy (option (option ptr)) :=
  c ← go_gets lfu_config;
  let azPath := strings_TrimPrefix path (tmpPath c) in
  if bool_decide (azPath = "") then go_panic
  else
    let azPath := if strings_HasPrefix azPath "/" then sdrop 1 azPath else azPath in
    flock ← lfu_on_locks (lm_Get azPath);
    locked ← lfu_on_locks (lm_Locked azPath);
    if (locked : bool) then mret (Some None)
    else
      _ ← lfu_on_locks (lm_Lock flock);
      count ← lfu_on_locks (lm_Count flock);
      if 0 <? count then mret (Some (Some flock))
      else
        _ ← lfu_on_fs (deleteFile path);
        _ ← lfu_on_locks (lm_Unlock flock);
        mret None.

(** A round of the goroutine while an operation holds the mutex. *)
Definition receiver_round : go policy unit :=
  p ← go_get;
  match receiver p, removeFiles p with
  | Receiving, path :: rest =>
      _ ← go_modify (lfu_set_channel rest Receiving);
      r ← clearItem path;
      match r with
      | None => mret tt
      | Some held => go_modify (λ p, lfu_set_channel (removeFiles p) (Waiting path held) p)
      end
  | _, _ => mret tt
  end.
Fixpoint receiver_rounds (k : nat) : go policy unit :=
  match k with
  | O => mret tt
  | S k => _ ← receiver_round; receiver_rounds k
  end.

(** A send on removeFiles: first the rounds that the schedule has for the
    goroutine; when the channel is full the sender waits for one more. *)
Definition send_remove (path : string) : go policy unit :=
  p ← go_get;
  _ ← go_modify (lfu_set_schedule (tail (schedule p)));
  _ ← receiver_rounds (default 0%nat (List.hd_error (schedule p)));
  p ← go_get;
  _ ← (if Z.of_nat (length (removeFiles p)) <? 10 then mret tt else receiver_round);
  p ← go_get;
  if Z.of_nat (length (removeFiles p)) <? 10
  then go_modify (λ p, lfu_set_channel (removeFiles p ++ [path]) (receiver p) p) else go_block.

(** ** Operations on the list *)
Definition lfu_get (key : string) : go policy ptr :=
  l ← the_list;
  match dataNodeMap l !! key with
  | Some node =>
      _ ← stop_timer node;
      _ ← promote node;
      _ ← setTimerIfValid node;
      mret node
  | None => mret nil_ptr
  end.

(** A round of the loop of put that evicts: the first file of the first
    frequency; the usage is read again when that was its last one. *)
Definition evict_one (usage : Q) : go policy Q :=
  l ← the_list;
  fn ← load_freq (ll_first l);
  d ← load_data (dl_first (fn_list fn));
  let toDeletePath := dn_key d in
  _ ← dl_pop (ll_first l);
  _ ← on_list (λ l, ll_set_dataMap (delete toDeletePath (dataNodeMap l)) l);
  fn ← load_freq (ll_first l);
  usage ← (if dl_size (fn_list fn) =? 0 then
             _ ← deleteFrequency (fn_frequency fn);
             _ ← on_list (λ l, ll_set_size (u64 (ll_size l - 1)) l);
             lfu_on_fs (getUsagePercentage (ll_cachePath l) (ll_maxSizeMB l))
           else mret usage);
  _ ← send_remove toDeletePath;
  mret usage.
(** The loop goes on until the usage is low or the list is empty; every round
    takes one file. *)
Fixpoint evict_files (fuel : nat) (usage : Q) : go policy unit :=
  l ← the_list;
  if negb (Qlt_bool (ll_lowerThresh l) usage) || bool_decide (ll_first l = nil_ptr) then mret tt
  else
    match fuel with
    | O => go_block
    | S fuel => usage ← evict_one usage; evict_files fuel usage
    end.

Definition lfu_put (key : string) : go policy unit :=
  l ← the_list;
  match dataNodeMap l !! key with
  | Some node =>
      _ ← stop_timer node;
      _ ← promote node;
      setTimerIfValid node
  | None =>
      usage ← lfu_on_fs (getUsagePercentage (ll_cachePath l) (ll_maxSizeMB l));
      _ ← (if Qlt_bool (ll_upperThresh l) usage then evict_files (size (dataNodeMap l)) usage else mret tt);
      newNode ← new_data (newDataNode key);
      _ ← on_list (λ l, ll_set_dataMap (<[key := newNode]> (dataNodeMap l)) l);
      l ← the_list;
      _ ← match freqNodeMap l !! 1 with
          | Some freqNode => dl_push freqNode newNode
          | None =>
              freqNode ← new_freq (newFrequencyNode 1);
              _ ← on_list (λ l, ll_set_freqMap (<[1 := freqNode]> (freqNodeMap l)) l);
              _ ← dl_push freqNode newNode;
              addFrequency 1 freqNode nil_ptr
          end;
      setTimerIfValid newNode
  end.

Definition lfu_delete (key : string) : go policy unit :=
  l ← the_list;
  match dataNodeMap l !! key with
  | Some node =>
      _ ← stop_timer node;
      d ← load_data node;
      let freqNode := freq_node (dn_frequency d) l in
      _ ← dl_remove freqNode node;
      _ ← on_list (λ l, ll_set_dataMap (delete key (dataNodeMap l)) l);
      fn ← load_freq freqNode;
      _ ← (if dl_size (fn_list fn) =? 0 then
             _ ← deleteFrequency (dn_frequency d); on_list (λ l, ll_set_size (u64 (ll_size l - 1)) l)
           else mret tt);
      _ ← send_remove (dn_key d);
      on_list (ll_set_age (dn_frequency d))
  | None => mret tt
  end.

(** ** The policy *)
Definition lfu_StartPolicy : go policy (option error) :=
  _ ← go_modify (λ p, lfu_set_channel (removeFiles p) Receiving p);
  mret None.

(** The send on closeChan, which holds ten messages. *)
Definition lfu_ShutdownPolicy : go policy (option error) :=
  p ← go_get;
  if (closeChan p <? 10)%nat
  then _ ← go_modify (lfu_set_close (S (closeChan p))); mret None
  else go_block.

Definition lfu_UpdateConfig (c : cachePolicyConfig) : go policy (option error) :=
  _ ← go_modify (λ p, lfu_set_config (mkPolicyConfig (tmpPath (lfu_config p))
    (cacheTimeout (lfu_config p)) (maxEviction c) (maxSizeMB c) (highThreshold c)
    (lowThreshold c) (policyTrace c)) p);
  _ ← on_list (λ l, mkLfuList (ll_first l) (ll_last l) (dataNodeMap l) (freqNodeMap l) (ll_size l)
    (maxSizeMB c) (lowThreshold c) (highThreshold c) (ll_cachePath l) (cacheAge l) (cacheTimeout c));
  mret None.

Definition lfu_CacheValid (nm : string) : go policy unit := lfu_put nm.

Definition lfu_CachePurge (nm : string) : go policy unit :=
  _ ← lfu_delete nm; send_remove nm.

Definition lfu_CacheInvalidate (nm : string) : go policy unit :=
  c ← go_gets lfu_config;
  if cacheTimeout c =? 0 then lfu_CachePurge nm else mret tt.

Definition lfu_IsCached (nm : string) : go policy bool :=
  val ← lfu_get nm; mret (bool_decide (val ≠ nil_ptr)).

(** The goroutine between operations: it gets the mutex it waits for (while it
    puts the file back it receives nothing), or receives the next path. *)
Definition receiver_resume : go policy unit :=
  p ← go_get;
  match receiver p with
  | Waiting path held =>
      _ ← lfu_CacheValid path;
      _ ← match held with Some flock => lfu_on_locks (lm_Unlock flock) | None => mret tt end;
      go_modify (λ p, lfu_set_channel (removeFiles p) Receiving p)
  | _ => go_block
  end.
Definition clearCache_close : go policy unit :=
  p ← go_get;
  match receiver p, closeChan p with
  | Receiving, S n => go_modify (λ p, lfu_set_channel (removeFiles p) Stopped (lfu_set_close n p))
  | _, _ => go_block
  end.
Definition clearCache_receive : go policy unit :=
  p ← go_get;
  match receiver p, removeFiles p with
  | Receiving, _ :: _ => receiver_round
  | _, _ => go_block
  end.

(** A timer runs out; and its function gets the mutex. *)
Definition timer_expires (t : nat) : go policy unit :=
  p ← go_get;
  match timers p !! t with
  | Some key => go_modify (lfu_set_timers (delete t (timers p)) (fired p ++ [key]))
  | None => go_block
  end.
Definition timer_runs : go policy unit :=
  p ← go_get;
  match fired p with
  | key :: rest => _ ← go_modify (lfu_set_timers (timers p) rest); lfu_delete key
  | [] => go_block
  end.
End lfu.
