(* ===== verification/LfuLists.v ===== *)
(** * The lists of the LFU policy

    The two levels of linked lists of LfuPolicy.v represent a list of buckets: a
    frequency and the files used that often ([content], [linked]).  Rules for the
    operations on them: taking a node out of its bucket, putting it into one,
    making and dropping buckets, promote. *)
From S2P Require Import Prelude GoLib Chain LockMap LruPolicy LfuPolicy.
Open Scope Z_scope.

(** ** Buckets *)
Record bucket := mkBucket { bk_ptr : ptr; bk_freq : Z; bk_nodes : list (ptr * string) }.

(** What of a data node is not a link. *)
Definition data_payload (n : dataNode) : string * Z * option nat := (dn_key n, dn_frequency n, dn_timer n).
(** What of a frequency node is not a link. *)
Definition freq_payload (n : frequencyNode) : dataNodeLinkedList * Z := (fn_list n, fn_frequency n).

#[global] Instance data_LinkLaws : LinkLaws dn_next dn_prev dn_set_next dn_set_prev.
Proof. by split. Qed.
#[global] Instance freq_LinkLaws : LinkLaws fn_next fn_prev fn_set_next fn_set_prev.
Proof. by split. Qed.
Abbreviation data_list := (dlist dn_next dn_prev).
Abbreviation freq_list := (dlist fn_next fn_prev).

(** Where a frequency is inserted among the buckets behind the first. *)
Fixpoint freq_insert (n : bucket) (l : list bucket) : list bucket :=
  match l with
  | [] => [n]
  | c :: r => if bk_freq c <? bk_freq n then c :: freq_insert n r else n :: c :: r
  end.

(** All buckets but the first are in the order of their frequencies. *)
Definition ordered (B : list bucket) : Prop := StronglySorted Z.lt (tail (bk_freq <$> B)).

Lemma freq_insert_perm n l : freq_insert n l ≡ₚ n :: l.
Proof.
  induction l as [|c l IH]; simpl; [done|]. destruct (_ <? _); [|done]. rewrite IH. apply Permutation_swap.
Qed.
Lemma freq_insert_sorted n l :
  StronglySorted Z.lt (bk_freq <$> l) → bk_freq n ∉ bk_freq <$> l → StronglySorted Z.lt (bk_freq <$> freq_insert n l).
Proof.
  induction l as [|c l IH]; intros Hs Hn; simpl; [repeat constructor|].
  apply StronglySorted_inv in Hs as [Hs Hall]. apply not_elem_of_cons in Hn as [Hc Hn].
  destruct (Z.ltb_spec (bk_freq c) (bk_freq n)); simpl; constructor.
  - by apply IH.
  - rewrite freq_insert_perm. simpl. by constructor.
  - by constructor.
  - constructor; [lia|]. eapply Forall_impl; [exact Hall|]. simpl. lia.
Qed.
Lemma StronglySorted_sublist (l l' : list Z) : sublist l l' → StronglySorted Z.lt l' → StronglySorted Z.lt l.
Proof.
  induction 1 as [|x l l' Hs IH|x l l' Hs IH]; [done|..]; intros [H1 H2]%StronglySorted_inv; [|by apply IH].
  constructor; [by apply IH|]. rewrite Forall_forall in *. intros y Hy. apply H2. by eapply elem_of_sublist.
Qed.
Lemma sublist_tail (l l' : list Z) : sublist l l' → sublist (tail l) (tail l').
Proof.
  intros Hs. destruct Hs as [|x l l' Hs|x l l' Hs]; simpl; [constructor|done|]. etransitivity; [|exact Hs].
  destruct l as [|y l]; [done|]. by apply sublist_cons.
Qed.
Lemma ordered_sublist B B' : sublist (bk_freq <$> B) (bk_freq <$> B') → ordered B' → ordered B.
Proof. intros Hs. unfold ordered. apply StronglySorted_sublist. by apply sublist_tail. Qed.

(** A larger frequency is inserted behind a bucket. *)
Lemma ordered_insert B1 b B2 n :
  ordered (B1 ++ b :: B2) → bk_freq n ∉ bk_freq <$> (B1 ++ b :: B2) → (B1 ≠ [] → bk_freq b < bk_freq n) →
  ordered (B1 ++ b :: freq_insert n B2).
Proof.
  unfold ordered. intros Ho Hn Hlt. destruct B1 as [|c B1]; simpl in *.
  - apply freq_insert_sorted; [done|set_solver].
  - specialize (Hlt ltac:(done)). rewrite fmap_app in *. simpl in *.
    apply (StronglySorted_app _ _ (bk_freq b :: _)) in Ho as (Hlt' & Hs1 & [Hs2 Hb]%StronglySorted_inv).
    assert (Hs : StronglySorted Z.lt (bk_freq b :: (bk_freq <$> freq_insert n B2))).
    { constructor; [apply freq_insert_sorted; [done|set_solver]|]. rewrite freq_insert_perm. by constructor. }
    apply StronglySorted_app. split_and!; [|done|done]. intros g g' Hg Hg'.
    rewrite freq_insert_perm in Hg'. simpl in Hg'. pose proof (Hlt' g (bk_freq b) Hg ltac:(left)).
    apply elem_of_cons in Hg' as [->|[->|Hg']%elem_of_cons]; [done|lia|]. apply Hlt'; [done|by right].
Qed.

(** The files in the order in which they are evicted. *)
Definition evict_order (B : list bucket) : list string := B ≫= λ b, (bk_nodes b).*2.

(** The node [e] joins the bucket of frequency [f]. *)
Definition join (f : Z) (e : ptr * string) (B : list bucket) : list bucket :=
  (λ c, if bk_freq c =? f then mkBucket (bk_ptr c) (bk_freq c) (bk_nodes c ++ [e]) else c) <$> B.
Lemma join_app f e B1 B2 : join f e (B1 ++ B2) = join f e B1 ++ join f e B2.
Proof. apply fmap_app. Qed.
Lemma join_cons f e b B :
  join f e (b :: B) = (if bk_freq b =? f then mkBucket (bk_ptr b) (bk_freq b) (bk_nodes b ++ [e]) else b) :: join f e B.
Proof. done. Qed.
Lemma join_other f e B : f ∉ bk_freq <$> B → join f e B = B.
Proof.
  induction B as [|c B IH]; [done|]. intros Hf. rewrite join_cons, IH by set_solver.
  destruct (Z.eqb_spec (bk_freq c) f); [set_solver|done].
Qed.
Lemma join_freqs f e B : bk_freq <$> join f e B = bk_freq <$> B.
Proof. unfold join. rewrite <-list_fmap_compose. apply list_fmap_ext. intros i c _. simpl. by destruct (_ =? _). Qed.
Lemma join_ptrs f e B : bk_ptr <$> join f e B = bk_ptr <$> B.
Proof. unfold join. rewrite <-list_fmap_compose. apply list_fmap_ext. intros i c _. simpl. by destruct (_ =? _). Qed.

Section spec.
Context {FS : Type} `{!FileSystem FS}.
Abbreviation policy := (lfuPolicy FS).
Implicit Types (p : policy) (b : bucket) (B : list bucket) (D : list (ptr * string)) (x : option string).

(** The frequency node of a bucket holds its data nodes. *)
Definition bucket_ok (m : gmap ptr dataNode) (fn : frequencyNode) (b : bucket) : Prop :=
  fn_frequency fn = bk_freq b ∧ Z.of_nat (length (bk_nodes b)) < 2 ^ 64 ∧
  dl_size (fn_list fn) = Z.of_nat (length (bk_nodes b)) ∧
  data_list m (dl_first (fn_list fn)) (dl_last (fn_list fn)) (bk_nodes b).*1.

(** The buckets [B], in any order, and the data nodes [D] that are in no bucket
    make up the two maps; all nodes but that of [x] have a timer when timers are
    used. *)
Record content p B D x : Prop := mkContent {
  ct_ptrs : NoDup (bk_ptr <$> B);
  ct_freqs : NoDup (bk_freq <$> B);
  ct_nil : nil_ptr ∉ bk_ptr <$> B;
  ct_bucket b : b ∈ B → ∃ fn, freqNodes p !! bk_ptr b = Some fn ∧ bucket_ok (dataNodes p) fn b;
  ct_node b d k : b ∈ B → (d, k) ∈ bk_nodes b →
    ∃ n, dataNodes p !! d = Some n ∧ dn_key n = k ∧ dn_frequency n = bk_freq b;
  ct_detached d k : (d, k) ∈ D →
    d ≠ nil_ptr ∧ ∃ n, dataNodes p !! d = Some n ∧ dn_key n = k ∧ dn_next n = nil_ptr ∧ dn_prev n = nil_ptr;
  ct_apart b d k : b ∈ B → (d, k) ∈ D → d ∉ (bk_nodes b).*1;
  ct_map k d : dataNodeMap (lfu_list p) !! k = Some d ↔ (d, k) ∈ D ∨ ∃ b, b ∈ B ∧ (d, k) ∈ bk_nodes b;
  ct_fmap f q : freqNodeMap (lfu_list p) !! f = Some q ↔ ∃ b, b ∈ B ∧ bk_freq b = f ∧ bk_ptr b = q;
  ct_timer k d n : dataNodeMap (lfu_list p) !! k = Some d → dataNodes p !! d = Some n →
    0 < ll_cacheTimeout (lfu_list p) → x ≠ Some k → is_Some (dn_timer n)
}.

(** The frequency nodes are linked in the order of the buckets. *)
Definition linked p B : Prop :=
  freq_list (freqNodes p) (ll_first (lfu_list p)) (ll_last (lfu_list p)) (bk_ptr <$> B).

Lemma linked_join p f e B : linked p (join f e B) ↔ linked p B.
Proof. unfold linked. by rewrite join_ptrs. Qed.
Definition listed p B x : Prop :=
  content p B [] x ∧ linked p B ∧ ∀ b, b ∈ B → bk_nodes b ≠ [].
Definition lfu_ok p B : Prop := listed p B None.

(** Fields that the operations on the lists leave alone. *)
Definition rest p p' : Prop :=
  lfu_config p' = lfu_config p ∧ fired p' = fired p ∧
  removeFiles p' = removeFiles p ∧ closeChan p' = closeChan p ∧ receiver p' = receiver p ∧ schedule p' = schedule p ∧
  lfu_fileLocks p' = lfu_fileLocks p ∧ lfu_fs p' = lfu_fs p ∧
  cacheAge (lfu_list p') = cacheAge (lfu_list p) ∧ ll_cacheTimeout (lfu_list p') = ll_cacheTimeout (lfu_list p) ∧
  ll_maxSizeMB (lfu_list p') = ll_maxSizeMB (lfu_list p) ∧ ll_lowerThresh (lfu_list p') = ll_lowerThresh (lfu_list p) ∧
  ll_upperThresh (lfu_list p') = ll_upperThresh (lfu_list p) ∧ ll_cachePath (lfu_list p') = ll_cachePath (lfu_list p).
#[global] Instance rest_preorder : PreOrder rest.
Proof. split; [done|]. unfold rest. intros p1 p2 p3 H1 H2. naive_solver congruence. Qed.

(** *** Loads and stores *)
Lemma wp_load_data q n p (Q : dataNode → policy → Prop) :
  dataNodes p !! q = Some n → Q n p → wp (load_data q) Q p.
Proof. intros Hn HQ. unfold wp, load_data. by rewrite Hn. Qed.
Lemma wp_upd_data q f n p (Q : unit → policy → Prop) :
  dataNodes p !! q = Some n → Q tt (lfu_set_dataNodes (<[q:=f n]> (dataNodes p)) p) → wp (upd_data q f) Q p.
Proof. intros Hn HQ. unfold wp, upd_data. by rewrite Hn. Qed.
Lemma wp_load_freq q n p (Q : frequencyNode → policy → Prop) :
  freqNodes p !! q = Some n → Q n p → wp (load_freq q) Q p.
Proof. intros Hn HQ. unfold wp, load_freq. by rewrite Hn. Qed.
Lemma wp_upd_freq q f n p (Q : unit → policy → Prop) :
  freqNodes p !! q = Some n → Q tt (lfu_set_freqNodes (<[q:=f n]> (freqNodes p)) p) → wp (upd_freq q f) Q p.
Proof. intros Hn HQ. unfold wp, upd_freq. by rewrite Hn. Qed.
Lemma wp_on_list f p (Q : unit → policy → Prop) :
  Q tt (lfu_set_list (f (lfu_list p)) p) → wp (on_list f) Q p.
Proof. done. Qed.
Lemma wp_the_list p (Q : lfuList → policy → Prop) : Q (lfu_list p) p → wp the_list Q p.
Proof. done. Qed.

(** *** Facts of the content *)
Lemma content_perm p B B' D x : B ≡ₚ B' → content p B D x → content p B' D x.
Proof.
  intros HP []. split; try done.
  - by rewrite <-HP.
  - by rewrite <-HP.
  - by rewrite <-HP.
  - intros b. rewrite <-HP. auto.
  - intros b d k. rewrite <-HP. auto.
  - intros b d k. rewrite <-HP. eauto.
  - intros k d. setoid_rewrite <-HP. auto.
  - intros f q. setoid_rewrite <-HP. auto.
Qed.

(** A data node is in one bucket only. *)
Lemma content_same_bucket p B D x b b' d k k' :
  content p B D x → b ∈ B → b' ∈ B → (d, k) ∈ bk_nodes b → (d, k') ∈ bk_nodes b' → b = b'.
Proof.
  intros H Hb Hb' Hd Hd'. destruct (ct_node _ _ _ _ H _ _ _ Hb Hd) as (n & Hn & _ & Hf).
  destruct (ct_node _ _ _ _ H _ _ _ Hb' Hd') as (n' & Hn' & _ & Hf'). rewrite Hn in Hn'. injection Hn' as <-.
  assert (Heq : bk_freq b = bk_freq b') by congruence.
  pose proof (ct_freqs _ _ _ _ H) as Hnd. clear -Hnd Hb Hb' Heq. revert Hnd Hb Hb'. induction B as [|c B IH]; [by intros _ ?%not_elem_of_nil|].
  intros [Hc Hnd]%NoDup_cons [->|Hb]%elem_of_cons [->|Hb']%elem_of_cons; [done| | |by apply IH].
  - exfalso. apply Hc. rewrite Heq. by apply list_elem_of_fmap_2.
  - exfalso. apply Hc. rewrite <-Heq. by apply list_elem_of_fmap_2.
Qed.

Lemma elem_of_fst (d : ptr) (l : list (ptr * string)) : d ∈ l.*1 ↔ ∃ k, (d, k) ∈ l.
Proof.
  rewrite list_elem_of_fmap. split.
  - intros ([d' k] & -> & Hin). by exists k.
  - intros [k Hin]. by exists (d, k).
Qed.

(** The buckets hold every file once, no more than the map has. *)
Lemma content_keys p B D x :
  content p B D x → NoDup (evict_order B) ∧ ∀ k, k ∈ evict_order B → is_Some (dataNodeMap (lfu_list p) !! k).
Proof.
  intros H. assert (Hin : ∀ b k, b ∈ B → k ∈ (bk_nodes b).*2 → ∃ d, (d, k) ∈ bk_nodes b ∧ dataNodeMap (lfu_list p) !! k = Some d).
  { intros b k Hb ([d k'] & -> & Hk)%list_elem_of_fmap. exists d. split; [done|]. apply (ct_map _ _ _ _ H). eauto. }
  split.
  - apply NoDup_bind.
    + intros b1 b2 k H1 H2 Hk1 Hk2. destruct (Hin _ _ H1 Hk1) as (d1 & Hd1 & Hm1). destruct (Hin _ _ H2 Hk2) as (d2 & Hd2 & Hm2).
      assert (d1 = d2) as -> by congruence. by eapply content_same_bucket.
    + intros b Hb. destruct (ct_bucket _ _ _ _ H _ Hb) as (fn & _ & _ & _ & _ & _ & _ & _ & Hnd & _).
      apply NoDup_fmap_2_strong; [|by eapply NoDup_fmap_1]. intros [d1 k] [d2 k'] H1 H2 Heq. simpl in Heq. subst k'. f_equal.
      assert (H1' : dataNodeMap (lfu_list p) !! k = Some d1) by (apply (ct_map _ _ _ _ H); eauto).
      assert (H2' : dataNodeMap (lfu_list p) !! k = Some d2) by (apply (ct_map _ _ _ _ H); eauto). congruence.
    + eapply NoDup_fmap_1. apply (ct_ptrs _ _ _ _ H).
  - intros k (b & Hk & Hb)%list_elem_of_bind. destruct (Hin b k Hb Hk) as (d & _ & ->). eauto.
Qed.
Lemma content_size p B D x : content p B D x → (length (evict_order B) ≤ size (dataNodeMap (lfu_list p)))%nat.
Proof.
  intros [Hnd Hin]%content_keys. rewrite <-size_dom, <-(size_list_to_set (C := gset string) _ Hnd).
  apply subseteq_size. intros k. rewrite elem_of_list_to_set, elem_of_dom. auto.
Qed.
Lemma content_length p B D x b :
  content p B D x → b ∈ B → (length (bk_nodes b) ≤ size (dataNodeMap (lfu_list p)))%nat.
Proof.
  intros H Hb. etransitivity; [|by eapply content_size]. apply list_elem_of_split in Hb as (B1 & B2 & ->).
  unfold evict_order. rewrite bind_app, bind_cons, !length_app, length_fmap. lia.
Qed.

(** The nodes of one bucket are relinked, and move between it and [D]. *)
Lemma content_change p p' b b' B D D' x :
  content p (b :: B) D x → bk_ptr b' = bk_ptr b → bk_freq b' = bk_freq b →
  (∀ q, data_payload <$> dataNodes p' !! q = data_payload <$> dataNodes p !! q) →
  (∀ q, q ∉ (bk_nodes b).*1 → q ∉ D.*1 → dataNodes p' !! q = dataNodes p !! q) →
  (∀ q, q ≠ bk_ptr b → freq_payload <$> freqNodes p' !! q = freq_payload <$> freqNodes p !! q) →
  (∃ fn, freqNodes p' !! bk_ptr b = Some fn ∧ bucket_ok (dataNodes p') fn b') →
  dataNodeMap (lfu_list p') = dataNodeMap (lfu_list p) → freqNodeMap (lfu_list p') = freqNodeMap (lfu_list p) →
  ll_cacheTimeout (lfu_list p') = ll_cacheTimeout (lfu_list p) →
  (∀ e, e ∈ D' ∨ e ∈ bk_nodes b' ↔ e ∈ D ∨ e ∈ bk_nodes b) →
  (∀ d k, (d, k) ∈ bk_nodes b' → dn_frequency <$> dataNodes p !! d = Some (bk_freq b)) →
  (∀ d k, (d, k) ∈ D' → d ≠ nil_ptr ∧ (d ∉ (bk_nodes b').*1) ∧
     ((λ n, (dn_next n, dn_prev n)) <$> dataNodes p' !! d) = Some (nil_ptr, nil_ptr)) →
  content p' (b' :: B) D' x.
Proof.
  intros H Hptr Hfreq Hpay Hother Hfpay Hb' Hdm Hfm Hto Hel Hfq HD'.
  assert (Hkey : ∀ d k, (d, k) ∈ D' ∨ (d, k) ∈ bk_nodes b' → ∃ n, dataNodes p !! d = Some n ∧ dn_key n = k).
  { intros d k Hin. apply Hel in Hin as [Hin|Hin].
    - destruct (ct_detached _ _ _ _ H _ _ Hin) as (_ & n & ? & ? & _). eauto.
    - destruct (ct_node _ _ _ _ H b d k ltac:(left) Hin) as (n & ? & ? & _). eauto. }
  assert (Hap : ∀ c d k, c ∈ B → (d, k) ∈ D ∨ (d, k) ∈ bk_nodes b → d ∉ (bk_nodes c).*1).
  { intros c d k Hc [Hin|Hin] Hd; [by apply (ct_apart _ _ _ _ H c d k ltac:(by right) Hin)|].
    apply elem_of_fst in Hd as [k' Hd].
    pose proof (content_same_bucket _ _ _ _ _ _ _ _ _ H ltac:(left) ltac:(by right) Hin Hd) as ->.
    pose proof (ct_ptrs _ _ _ _ H) as [Hn _]%NoDup_cons. apply Hn. by apply list_elem_of_fmap_2. }
  assert (Hsame : ∀ c q, c ∈ B → q ∈ (bk_nodes c).*1 → dataNodes p' !! q = dataNodes p !! q).
  { intros c q Hc Hq. apply Hother; intros [k Hin]%elem_of_fst; (eapply Hap; [exact Hc| |exact Hq]); eauto. }
  split.
  - simpl. rewrite Hptr. apply H.
  - simpl. rewrite Hfreq. apply H.
  - simpl. rewrite Hptr. apply H.
  - intros c [->|Hc]%elem_of_cons; [by rewrite Hptr|].
    destruct (ct_bucket _ _ _ _ H c ltac:(by right)) as (fn & Hfn & Hok).
    assert (Hne : bk_ptr c ≠ bk_ptr b).
    { intros Heq. pose proof (ct_ptrs _ _ _ _ H) as [Hn _]%NoDup_cons. apply Hn. rewrite <-Heq. by apply list_elem_of_fmap_2. }
    specialize (Hfpay _ Hne). rewrite Hfn in Hfpay. destruct (freqNodes p' !! bk_ptr c) as [fn'|]; [|done].
    injection Hfpay as Hl Hf. exists fn'. split; [done|]. unfold bucket_ok in *. rewrite Hl, Hf.
    destruct Hok as (? & ? & ? & Hd). split_and!; try done. eapply dlist_links; [|exact Hd].
    intros q Hq. by rewrite (Hsame c q Hc Hq).
  - intros c d k [->|Hc]%elem_of_cons Hin.
    + destruct (Hkey d k ltac:(by right)) as (n & Hn & Hk). pose proof (Hfq _ _ Hin) as Hf. specialize (Hpay d).
      rewrite Hn in Hf, Hpay. injection Hf as Hf. destruct (dataNodes p' !! d) as [n'|]; [|done].
      injection Hpay as Hk' Hf' _. exists n'. split_and!; congruence.
    + rewrite (Hsame c) by (done || by apply elem_of_fst; exists k). eapply ct_node; [done|by right|done].
  - intros d k Hin. destruct (HD' _ _ Hin) as (Hnil & _ & Hlk). split; [done|].
    destruct (Hkey d k ltac:(by left)) as (n & Hn & Hk). specialize (Hpay d). rewrite Hn in Hpay.
    destruct (dataNodes p' !! d) as [n'|]; [|done]. injection Hpay as Hk' _ _. injection Hlk as ? ?.
    exists n'. split_and!; congruence.
  - intros c d k [->|Hc]%elem_of_cons Hin; [by eapply HD'|]. apply (Hap c d k Hc). apply Hel. by left.
  - intros k d. rewrite Hdm, (ct_map _ _ _ _ H). setoid_rewrite elem_of_cons. specialize (Hel (d, k)). naive_solver.
  - intros f q. rewrite Hfm, (ct_fmap _ _ _ _ H). setoid_rewrite elem_of_cons. naive_solver.
  - intros k d n. rewrite Hdm, Hto. intros Hk Hn. specialize (Hpay d). rewrite Hn in Hpay.
    destruct (dataNodes p !! d) as [n0|] eqn:E; [|done]. injection Hpay as _ _ ->. by eapply ct_timer.
Qed.

(** *** Data lists *)
Definition data_links (n : dataNode) : ptr * ptr := (dn_next n, dn_prev n).
Definition data_relinked (m m' : gmap ptr dataNode) (ds : list ptr) : Prop :=
  (∀ q, data_payload <$> m' !! q = data_payload <$> m !! q) ∧ (∀ q, q ∉ ds → m' !! q = m !! q).
Lemma data_relinked_insert m m' ds q n n' :
  data_relinked m m' ds → q ∈ ds → m' !! q = Some n → data_payload n' = data_payload n →
  data_relinked m (<[q:=n']> m') ds.
Proof.
  intros [Hp Ho] Hq Hn Hpay. split; intros y.
  - destruct (decide (q = y)) as [->|]; [|by rewrite lookup_insert_ne]. rewrite lookup_insert_eq, <-Hp, Hn. simpl. by rewrite Hpay.
  - intros Hy. rewrite lookup_insert_ne by (by intros ->). auto.
Qed.
Lemma wp_dl_remove fq fn d l1 l2 p (Q : ptr → policy → Prop) :
  freqNodes p !! fq = Some fn → dl_size (fn_list fn) = Z.of_nat (length (l1 ++ d :: l2)) →
  data_list (dataNodes p) (dl_first (fn_list fn)) (dl_last (fn_list fn)) (l1 ++ d :: l2) →
  (∀ m' f e, data_relinked (dataNodes p) m' (l1 ++ d :: l2) → data_list m' f e (l1 ++ l2) →
     data_links <$> m' !! d = Some (nil_ptr, nil_ptr) →
     Q d (lfu_set_freqNodes (<[fq := fn_set_list (mkDataNodeLinkedList (u64 (dl_size (fn_list fn) - 1)) f e) fn]>
            (freqNodes p)) (lfu_set_dataNodes m' p))) →
  wp (dl_remove fq d) Q p.
Proof.
  intros Hfn Hsz Hd HQ. unfold dl_remove. apply wp_bind. eapply wp_load_freq; [done|].
  rewrite (proj2 (Z.eqb_neq _ 0)) by (rewrite Hsz, length_app; simpl; lia).
  pose proof (dlist_lookup _ _ _ _ _ _ _ _ Hd) as (nd & Hnd & Hnx & Hpv).
  assert (Hind : d ∈ l1 ++ d :: l2) by set_solver.
  assert (Hends : ∀ m' ends, data_relinked (dataNodes p) m' (l1 ++ d :: l2) → data_list m' ends.1 ends.2 (l1 ++ l2) →
    data_links <$> m' !! d = Some (nil_ptr, nil_ptr) →
    wp (_ ← upd_freq fq (fn_set_list (mkDataNodeLinkedList (u64 (dl_size (fn_list fn) - 1)) ends.1 ends.2)); mret d) Q
      (lfu_set_dataNodes m' p)).
  { intros m' ends Hr Hl Hlk. apply wp_bind. eapply wp_upd_freq; [done|]. apply wp_ret. by apply HQ. }
  apply wp_bind. destruct (decide (dl_first (fn_list fn) = dl_last (fn_list fn))) as [Heq|Hne].
  { destruct (dlist_unlink_only _ _ _ _ _ _ _ _ _ Hd Hnd Heq) as (-> & -> & H1 & H2). apply wp_ret.
    replace p with (lfu_set_dataNodes (dataNodes p) p) by (by destruct p).
    apply Hends; [done|apply dlist_nil|]. simpl. rewrite Hnd. simpl. unfold data_links. by rewrite H1, H2. }
  destruct (decide (dl_first (fn_list fn) = d)) as [Hf|Hnf].
  { destruct (dlist_unlink_first dn_next dn_prev dn_set_next dn_set_prev _ _ _ _ _ _ _ Hd Hnd Hne Hf)
      as (-> & Hin & Hyd & ny & Hny & Hl). rewrite Hf. apply wp_bind. eapply wp_load_data; [done|].
    apply wp_bind. eapply wp_upd_data; [done|]. apply wp_bind.
    eapply (wp_upd_data _ _ ny); [simpl; by rewrite lookup_insert_ne|]. apply wp_ret. simpl.
    apply (Hends _ (dn_next nd, dl_last (fn_list fn))); [|done|].
    - eapply data_relinked_insert; [by eapply data_relinked_insert|set_solver|by rewrite lookup_insert_ne|done].
    - rewrite lookup_insert_ne, lookup_insert_eq by done. simpl. unfold data_links. simpl. by rewrite Hpv. }
  destruct (decide (dl_last (fn_list fn) = d)) as [Hl|Hnl].
  { destruct (dlist_unlink_last dn_next dn_prev dn_set_next dn_set_prev _ _ _ _ _ _ _ Hd Hnd Hnf Hl)
      as (-> & Hin & Hyd & ny & Hny & Hl'). rewrite Hl. apply wp_bind. eapply wp_load_data; [done|].
    apply wp_bind. eapply wp_upd_data; [done|]. apply wp_bind.
    eapply (wp_upd_data _ _ ny); [simpl; by rewrite lookup_insert_ne|]. apply wp_ret. simpl.
    apply (Hends _ (dl_first (fn_list fn), dn_prev nd)); [|by rewrite app_nil_r|].
    - eapply data_relinked_insert; [by eapply data_relinked_insert|set_solver|by rewrite lookup_insert_ne|done].
    - rewrite lookup_insert_ne, lookup_insert_eq by done. simpl. unfold data_links. simpl. by rewrite Hnx. }
  destruct (dlist_unlink_mid dn_next dn_prev dn_set_next dn_set_prev _ _ _ _ _ _ _ Hd Hnd Hnf Hnl)
    as (Hin1 & Hin2 & Hpd & Hxd & Hpx & na & nc & Hna & Hnc & Hl).
  apply wp_bind. eapply wp_load_data; [done|]. apply wp_bind. eapply wp_upd_data; [done|].
  apply wp_bind. eapply (wp_upd_data _ _ nc); [simpl; by rewrite lookup_insert_ne|].
  apply wp_bind. eapply (wp_upd_data d _ nd); [simpl; by rewrite !lookup_insert_ne|].
  apply wp_bind. eapply (wp_upd_data d); [simpl; by rewrite lookup_insert_eq|]. apply wp_ret. simpl.
  rewrite insert_insert_eq. apply (Hends _ (dl_first (fn_list fn), dl_last (fn_list fn))); [|apply Hl|by rewrite lookup_insert_eq].
  eapply data_relinked_insert; [|done|by rewrite !lookup_insert_ne|done].
  eapply data_relinked_insert; [by eapply data_relinked_insert; [|set_solver|..]|set_solver|by rewrite lookup_insert_ne|done].
Qed.

Lemma wp_dl_push fq fn d nd l p (Q : unit → policy → Prop) :
  freqNodes p !! fq = Some fn → data_list (dataNodes p) (dl_first (fn_list fn)) (dl_last (fn_list fn)) l →
  dataNodes p !! d = Some nd → data_links nd = (nil_ptr, nil_ptr) → d ≠ nil_ptr → d ∉ l →
  (∀ m' f e, data_relinked (dataNodes p) m' (l ++ [d]) → data_list m' f e (l ++ [d]) →
     Q tt (lfu_set_freqNodes (<[fq := fn_set_list (mkDataNodeLinkedList (u64 (dl_size (fn_list fn) + 1)) f e) fn]>
            (freqNodes p)) (lfu_set_dataNodes m' p))) →
  wp (dl_push fq d) Q p.
Proof.
  intros Hfn Hl Hnd [= Hnx Hpv] Hnil Hd HQ. unfold dl_push. apply wp_bind. eapply wp_load_freq; [done|].
  apply wp_bind. destruct (decide (dl_first (fn_list fn) = nil_ptr)) as [Hf|Hf].
  - apply wp_ret. eapply wp_upd_freq; [done|]. simpl. rewrite (dlist_nil_inv _ _ _ _ _ _ Hl Hf) in HQ.
    replace (lfu_set_freqNodes _ p) with (lfu_set_freqNodes
      (<[fq := fn_set_list (mkDataNodeLinkedList (u64 (dl_size (fn_list fn) + 1)) d d) fn]> (freqNodes p))
      (lfu_set_dataNodes (dataNodes p) p)) by (by destruct p).
    apply HQ; [done|]. by eapply dlist_single.
  - destruct (dlist_append dn_next dn_prev dn_set_next dn_set_prev _ _ _ _ _ _ Hl Hf Hd Hnil Hnd Hnx)
      as (Hed & ne & Hne & Hl').
    assert (Hel : dl_last (fn_list fn) ∈ l).
    { destruct Hl as (_ & Hf' & -> & _). apply last_or_in. intros ->. done. }
    apply wp_bind. eapply wp_upd_data; [done|]. apply wp_bind.
    eapply wp_upd_data; [simpl; by rewrite lookup_insert_ne|]. apply wp_ret. eapply wp_upd_freq; [done|]. simpl.
    apply HQ; [|done]. eapply data_relinked_insert; [by eapply data_relinked_insert; [|set_solver|..]|set_solver|
      by rewrite lookup_insert_ne|done].
Qed.

(** An operation on the data list of one frequency node. *)
Definition freq_links (n : frequencyNode) : ptr * ptr := (fn_next n, fn_prev n).
Definition data_op p p' : Prop :=
  rest p p' ∧ ll_first (lfu_list p') = ll_first (lfu_list p) ∧ ll_last (lfu_list p') = ll_last (lfu_list p) ∧
  dataNodeMap (lfu_list p') = dataNodeMap (lfu_list p) ∧ freqNodeMap (lfu_list p') = freqNodeMap (lfu_list p) ∧
  (∀ q, freq_links <$> freqNodes p' !! q = freq_links <$> freqNodes p !! q) ∧
  (∀ q, data_payload <$> dataNodes p' !! q = data_payload <$> dataNodes p !! q).
Lemma linked_data_op p p' B : data_op p p' → linked p B → linked p' B.
Proof.
  intros (_ & H1 & H2 & _ & _ & Hl & _) H. unfold linked. rewrite H1, H2. eapply dlist_links; [|exact H].
  intros q _. apply Hl.
Qed.
Lemma freq_links_set_list (m : gmap ptr frequencyNode) fq fn l q :
  m !! fq = Some fn → freq_links <$> <[fq := fn_set_list l fn]> m !! q = freq_links <$> m !! q.
Proof.
  intros Hfn. destruct (decide (fq = q)) as [->|]; [|by rewrite lookup_insert_ne]. by rewrite lookup_insert_eq, Hfn.
Qed.

Lemma wp_remove_node b B D x d k l1 l2 p (Q : ptr → policy → Prop) :
  content p (b :: B) D x → bk_nodes b = l1 ++ (d, k) :: l2 →
  (∀ p', content p' (mkBucket (bk_ptr b) (bk_freq b) (l1 ++ l2) :: B) ((d, k) :: D) x → data_op p p' → Q d p') →
  wp (dl_remove (bk_ptr b) d) Q p.
Proof.
  intros H Hb HQ. destruct (ct_bucket _ _ _ _ H b ltac:(left)) as (fn & Hfn & Hfr & Hlen & Hsz & Hl).
  rewrite Hb in Hlen, Hsz, Hl. rewrite fmap_app in Hl. simpl in Hl.
  assert (Hin : ∀ e, e ∈ bk_nodes b ↔ e = (d, k) ∨ e ∈ l1 ++ l2) by (intros e; rewrite Hb; set_solver).
  eapply wp_dl_remove; [done| |exact Hl|].
  { rewrite Hsz, !length_app. simpl. by rewrite !length_fmap. }
  intros m' f e [Hpay Hoth] Hl' Hlk. apply HQ.
  2: { split_and!; try done. intros q. simpl. by apply freq_links_set_list. }
  assert (Hnotin : d ∉ (l1 ++ l2).*1).
  { destruct Hl as (_ & _ & _ & Hdup & _). rewrite <-Permutation_middle in Hdup. rewrite fmap_app. by apply NoDup_cons in Hdup as [? _]. }
  eapply content_change; [exact H|done|done|exact Hpay| | |eexists; split; [by simpl; rewrite lookup_insert_eq|]|done|done|done| | |]; simpl.
  - intros q Hq _. apply Hoth. rewrite Hb, fmap_app in Hq. done.
  - intros q Hq. by rewrite lookup_insert_ne.
  - rewrite length_app in Hsz, Hlen. simpl in Hsz, Hlen. unfold bucket_ok. simpl. rewrite length_app.
    split_and!; [done|lia| |by rewrite fmap_app]. rewrite Hsz, u64_small; lia.
  - intros e0. rewrite Hin, elem_of_cons. tauto.
  - intros d0 k0 Hin0. destruct (ct_node _ _ _ _ H b d0 k0 ltac:(left)) as (n & Hn & _ & Hf); [rewrite Hin; by right|].
    rewrite Hn. simpl. by rewrite Hf.
  - intros d0 k0 [[= -> ->]|Hin0]%elem_of_cons.
    + split_and!; [|done|exact Hlk]. destruct Hl as (_ & _ & _ & _ & Hnil). set_solver.
    + destruct (ct_detached _ _ _ _ H _ _ Hin0) as (Hnil & n & Hn & _ & Hnx & Hpv). split_and!; [done| |].
      * intros Hin1. apply (ct_apart _ _ _ _ H b d0 k0 ltac:(left) Hin0). rewrite Hb. set_solver.
      * rewrite Hoth, Hn; [simpl; by rewrite Hnx, Hpv|]. intros Hin1.
        apply (ct_apart _ _ _ _ H b d0 k0 ltac:(left) Hin0). rewrite Hb, fmap_app. done.
Qed.

Lemma wp_push_data b B D x d k p (Q : unit → policy → Prop) :
  content p (b :: B) ((d, k) :: D) x → d ∉ D.*1 → dn_frequency <$> dataNodes p !! d = Some (bk_freq b) →
  Z.of_nat (length (bk_nodes b)) + 1 < 2 ^ 64 →
  (∀ p', content p' (mkBucket (bk_ptr b) (bk_freq b) (bk_nodes b ++ [(d, k)]) :: B) D x → data_op p p' → Q tt p') →
  wp (dl_push (bk_ptr b) d) Q p.
Proof.
  intros H HdD Hfq Hbound HQ. destruct (ct_bucket _ _ _ _ H b ltac:(left)) as (fn & Hfn & Hfr & Hlen & Hsz & Hl).
  destruct (ct_detached _ _ _ _ H d k ltac:(left)) as (Hnil & nd & Hnd & Hk & Hnx & Hpv).
  pose proof (ct_apart _ _ _ _ H b d k ltac:(left) ltac:(left)) as Hap.
  eapply wp_dl_push; [done|exact Hl|done|unfold data_links; by rewrite Hnx, Hpv|done|done|].
  intros m' f e [Hpay Hoth] Hl'. apply HQ.
  2: { split_and!; try done. intros q. simpl. by apply freq_links_set_list. }
  eapply content_change; [exact H|done|done|exact Hpay| | |eexists; split; [by simpl; rewrite lookup_insert_eq|]|done|done|done| | |]; simpl.
  - intros q Hq HqD. apply Hoth. set_solver.
  - intros q Hq. by rewrite lookup_insert_ne.
  - unfold bucket_ok. simpl. rewrite length_app, fmap_app. simpl. split_and!; [done|lia| |done]. rewrite Hsz, u64_small; lia.
  - intros e0. set_solver.
  - intros d0 k0 [Hin0|[= -> ->]%list_elem_of_singleton]%elem_of_app; [|done].
    destruct (ct_node _ _ _ _ H b d0 k0 ltac:(left) Hin0) as (n & Hn & _ & Hf). rewrite Hn. simpl. by rewrite Hf.
  - intros d0 k0 Hin0. destruct (ct_detached _ _ _ _ H d0 k0 ltac:(by right)) as (Hnil0 & n & Hn & _ & Hnx0 & Hpv0).
    assert (Hne : d0 ≠ d) by (intros ->; apply HdD, elem_of_fst; eauto).
    pose proof (ct_apart _ _ _ _ H b d0 k0 ltac:(left) ltac:(by right)) as Hap0.
    split_and!; [done|rewrite fmap_app; set_solver|].
    rewrite Hoth, Hn; [simpl; by rewrite Hnx0, Hpv0|]. set_solver.
Qed.

(** *** The list of frequencies *)

(** Empty buckets come and go. *)
Lemma content_refreq p p' B B' D x :
  content p B D x → dataNodes p' = dataNodes p → dataNodeMap (lfu_list p') = dataNodeMap (lfu_list p) →
  ll_cacheTimeout (lfu_list p') = ll_cacheTimeout (lfu_list p) →
  NoDup (bk_ptr <$> B') → NoDup (bk_freq <$> B') → nil_ptr ∉ bk_ptr <$> B' →
  (∀ b, b ∈ B' → ∃ fn, freqNodes p' !! bk_ptr b = Some fn ∧ bucket_ok (dataNodes p) fn b) →
  (∀ b, bk_nodes b ≠ [] → b ∈ B' ↔ b ∈ B) →
  (∀ f q, freqNodeMap (lfu_list p') !! f = Some q ↔ ∃ b, b ∈ B' ∧ bk_freq b = f ∧ bk_ptr b = q) →
  content p' B' D x.
Proof.
  intros H Hd Hm Ht H1 H2 H3 H4 H5 H6.
  assert (Hin : ∀ b e, e ∈ bk_nodes b → bk_nodes b ≠ []) by (by intros b e He Hb; rewrite Hb in He; apply not_elem_of_nil in He).
  split; rewrite ?Hd, ?Hm, ?Ht; try done.
  - intros b d k Hb He. eapply ct_node; [done| |done]. apply H5; eauto.
  - apply H.
  - intros b d k Hb He Hd'. pose proof Hd' as [k' Hk']%elem_of_fst. eapply (ct_apart _ _ _ _ H); [|done|done].
    apply H5; eauto.
  - intros k d. rewrite (ct_map _ _ _ _ H). split; (intros [?|(b & Hb & He)]; [by left|right; exists b; split; [|done]; apply H5; eauto]).
  - apply H.
Qed.

(** The frequency nodes keep their content. *)
Definition freq_op p p' : Prop :=
  rest p p' ∧ dataNodes p' = dataNodes p ∧ dataNodeMap (lfu_list p') = dataNodeMap (lfu_list p) ∧
  (∀ q, freq_payload <$> freqNodes p' !! q = freq_payload <$> freqNodes p !! q).
Lemma bucket_ok_freq_op p p' B D x b :
  freq_op p p' → content p B D x → b ∈ B →
  ∃ fn, freqNodes p' !! bk_ptr b = Some fn ∧ bucket_ok (dataNodes p) fn b.
Proof.
  intros (_ & _ & _ & Hp) H Hb. destruct (ct_bucket _ _ _ _ H b Hb) as (fn & Hfn & Hok). specialize (Hp (bk_ptr b)).
  rewrite Hfn in Hp. destruct (freqNodes p' !! bk_ptr b) as [fn'|]; [|done]. injection Hp as Hl Hf.
  exists fn'. split; [done|]. unfold bucket_ok in *. by rewrite Hl, Hf.
Qed.
Lemma freq_payload_insert (m m0 : gmap ptr frequencyNode) q n n' :
  (∀ y, freq_payload <$> m !! y = freq_payload <$> m0 !! y) → m !! q = Some n → freq_payload n' = freq_payload n →
  ∀ y, freq_payload <$> <[q:=n']> m !! y = freq_payload <$> m0 !! y.
Proof.
  intros Hp Hn Hpay y. destruct (decide (q = y)) as [->|]; [|by rewrite lookup_insert_ne].
  rewrite lookup_insert_eq, <-Hp, Hn. simpl. by rewrite Hpay.
Qed.

Lemma wp_deleteFrequency_links f (b : ptr) l1 l2 p (Q : unit → policy → Prop) :
  freq_list (freqNodes p) (ll_first (lfu_list p)) (ll_last (lfu_list p)) (l1 ++ b :: l2) →
  freqNodeMap (lfu_list p) !! f = Some b →
  (∀ p', freq_op p p' → freq_list (freqNodes p') (ll_first (lfu_list p')) (ll_last (lfu_list p')) (l1 ++ l2) →
     freqNodeMap (lfu_list p') = delete f (freqNodeMap (lfu_list p)) → Q tt p') →
  wp (deleteFrequency f) Q p.
Proof.
  intros Hl Hf HQ. unfold deleteFrequency. apply wp_bind, wp_the_list. unfold freq_node. rewrite Hf. simpl.
  pose proof (dlist_lookup _ _ _ _ _ _ _ _ Hl) as (n & Hn & _).
  apply wp_bind. destruct (decide (ll_first (lfu_list p) = ll_last (lfu_list p))) as [Heq|Hne].
  { destruct (dlist_unlink_only _ _ _ _ _ _ _ _ _ Hl Hn Heq) as (-> & -> & _). apply wp_on_list, wp_on_list, HQ; try done.
    apply dlist_nil. }
  destruct (decide (ll_first (lfu_list p) = b)) as [Hfb|Hnf].
  { destruct (dlist_unlink_first fn_next fn_prev fn_set_next fn_set_prev _ _ _ _ _ _ _ Hl Hn Hne Hfb)
      as (-> & Hin & Hyb & ny & Hny & Hl'). rewrite Hfb. apply wp_bind. eapply wp_load_freq; [done|].
    apply wp_bind, wp_on_list, wp_bind. eapply wp_upd_freq; [done|]. eapply wp_upd_freq; [simpl; by rewrite lookup_insert_ne|].
    apply wp_on_list, HQ; simpl; [|by rewrite insert_insert_ne|done].
    split_and!; try done. eapply freq_payload_insert; [by eapply freq_payload_insert|by rewrite lookup_insert_ne|done]. }
  destruct (decide (ll_last (lfu_list p) = b)) as [Hlb|Hnl].
  { destruct (dlist_unlink_last fn_next fn_prev fn_set_next fn_set_prev _ _ _ _ _ _ _ Hl Hn Hnf Hlb)
      as (-> & Hin & Hyb & ny & Hny & Hl'). rewrite Hlb. apply wp_bind. eapply wp_load_freq; [done|].
    apply wp_bind, wp_on_list, wp_bind. eapply wp_upd_freq; [done|]. eapply wp_upd_freq; [simpl; by rewrite lookup_insert_ne|].
    apply wp_on_list, HQ; simpl; [|rewrite app_nil_r; by rewrite insert_insert_ne|done].
    split_and!; try done. eapply freq_payload_insert; [by eapply freq_payload_insert|by rewrite lookup_insert_ne|done]. }
  destruct (dlist_unlink_mid fn_next fn_prev fn_set_next fn_set_prev _ _ _ _ _ _ _ Hl Hn Hnf Hnl)
    as (Hin1 & Hin2 & Hpb & Hxb & Hpx & na & nc & Hna & Hnc & Hl').
  apply wp_bind. eapply wp_load_freq; [done|]. apply wp_bind. eapply wp_upd_freq; [done|].
  apply wp_bind. eapply (wp_upd_freq _ _ na); [simpl; by rewrite lookup_insert_ne|].
  apply wp_bind. eapply (wp_upd_freq b _ n); [simpl; by rewrite !lookup_insert_ne|].
  eapply (wp_upd_freq b); [simpl; by rewrite lookup_insert_eq|]. apply wp_on_list, HQ; simpl; [|rewrite insert_insert_eq|done].
  - split_and!; try done. simpl. rewrite insert_insert_eq.
    eapply freq_payload_insert; [|by rewrite !lookup_insert_ne|done].
    eapply freq_payload_insert; [by eapply freq_payload_insert|by rewrite lookup_insert_ne|done].
  - rewrite (insert_insert_ne _ _ _ (fn_set_next (fn_next n) na)) by done. apply Hl'.
Qed.

Lemma wp_deleteFrequency B1 b B2 D x p (Q : unit → policy → Prop) :
  content p (B1 ++ b :: B2) D x → linked p (B1 ++ b :: B2) → bk_nodes b = [] →
  (∀ p', content p' (B1 ++ B2) D x → linked p' (B1 ++ B2) → rest p p' → dataNodes p' = dataNodes p →
     dataNodeMap (lfu_list p') = dataNodeMap (lfu_list p) → Q tt p') →
  wp (deleteFrequency (bk_freq b)) Q p.
Proof.
  intros H Hl Hb HQ. unfold linked in Hl. rewrite fmap_app in Hl.
  pose proof (content_perm _ _ _ _ _ (Permutation_sym (Permutation_middle _ _ _)) H) as H'.
  eapply wp_deleteFrequency_links; [exact Hl|apply (ct_fmap _ _ _ _ H); exists b; set_solver|].
  intros p' Hop Hl' Hfm. pose proof Hop as (Hr & Hd & Hm & _). apply HQ; try done; [|unfold linked; by rewrite fmap_app].
  pose proof (ct_ptrs _ _ _ _ H') as [Hp1 Hp2]%NoDup_cons. pose proof (ct_freqs _ _ _ _ H') as [Hf1 Hf2]%NoDup_cons.
  eapply content_refreq; [exact H|done|done|apply Hr|done|done| | | |].
  - pose proof (ct_nil _ _ _ _ H') as Hnil. simpl in Hnil. set_solver.
  - intros c Hc. eapply bucket_ok_freq_op; [done|exact H|set_solver].
  - intros c Hc. assert (c ≠ b) by (intros ->; done). set_solver.
  - intros f q. rewrite Hfm, lookup_delete_Some, (ct_fmap _ _ _ _ H'). split.
    + intros [Hne (c & Hc & <- & <-)]. exists c. set_solver.
    + intros (c & Hc & <- & <-). split; [|exists c; set_solver]. intros Heq. apply Hf1. rewrite Heq. by apply list_elem_of_fmap_2.
Qed.

(** The walk stops at the bucket the new one is inserted after. *)
Lemma wp_freq_walk fuel n b B1 B2 p (Q : ptr → policy → Prop) :
  linked p (B1 ++ b :: B2) → (length B2 < fuel)%nat →
  (∀ c, c ∈ B2 → fn_frequency <$> freqNodes p !! bk_ptr c = Some (bk_freq c)) →
  (∀ M1 m M2, b :: B2 = M1 ++ m :: M2 → freq_insert n B2 = tail (M1 ++ [m]) ++ n :: M2 → Q (bk_ptr m) p) →
  wp (freq_walk fuel (bk_freq n) (bk_ptr b)) Q p.
Proof.
  revert b B1 B2. induction fuel as [|fuel IH]; intros b B1 B2 Hl Hlen Hfr HQ; [lia|]. simpl.
  pose proof Hl as Hl'. unfold linked in Hl'. rewrite fmap_app in Hl'. simpl in Hl'.
  destruct (dlist_lookup _ _ _ _ _ _ _ _ Hl') as (fb & Hfb & Hnx & _).
  apply wp_bind. eapply wp_load_freq; [done|]. rewrite Hnx. destruct B2 as [|c B2]; simpl.
  { apply wp_ret. by apply (HQ [] b []). }
  assert (Hcn : bk_ptr c ≠ nil_ptr).
  { destruct Hl' as (_ & _ & _ & _ & Hnil). set_solver. }
  rewrite decide_False by done. pose proof (Hfr c ltac:(left)) as Hc.
  destruct (freqNodes p !! bk_ptr c) as [fc|] eqn:Hfc; [|done]. injection Hc as Hc.
  apply wp_bind. eapply wp_load_freq; [done|]. rewrite Hc. simpl in HQ.
  destruct (bk_freq c <? bk_freq n).
  - eapply (IH c (B1 ++ [b]) B2); [by rewrite <-app_assoc|simpl in Hlen; lia|set_solver|].
    intros M1 m M2 Heq Hins. apply (HQ (b :: M1) m M2); [by rewrite Heq|]. simpl. rewrite Hins.
    destruct M1 as [|c' M1]; simpl in *; by injection Heq as -> ->.
  - apply wp_ret. by apply (HQ [] b (c :: B2)).
Qed.

Lemma linked_length p B q :
  linked p B → q ∉ bk_ptr <$> B → is_Some (freqNodes p !! q) → (length B < size (freqNodes p))%nat.
Proof.
  intros (Hc & _ & _ & Hdup & _) Hq Hs. rewrite <-size_dom.
  assert (Hnd : NoDup (q :: (bk_ptr <$> B))) by by constructor.
  enough (length (q :: (bk_ptr <$> B)) ≤ size (dom (freqNodes p)))%nat by (simpl in *; rewrite length_fmap in *; lia).
  rewrite <-(size_list_to_set (C := gset ptr) _ Hnd). apply subseteq_size. intros y. rewrite elem_of_list_to_set, elem_of_dom.
  intros [->|Hy]%elem_of_cons; [done|]. by eapply chain_elem.
Qed.

Definition add_ends (b0 : option bucket) : ptr := from_option bk_ptr nil_ptr b0.
(** The buckets before the place where the walk starts, the place and the rest. *)
Definition walk_from (from : option bucket) B1 b B2 : Prop :=
  match from with Some b0 => b0 = b | None => B1 = [] end.

Lemma wp_addFrequency from n fq B1 b B2 p (Q : unit → policy → Prop) :
  linked p (B1 ++ b :: B2) → walk_from from B1 b B2 →
  freqNodes p !! bk_ptr n = Some fq → freq_links fq = (nil_ptr, nil_ptr) →
  bk_ptr n ∉ bk_ptr <$> (B1 ++ b :: B2) → bk_ptr n ≠ nil_ptr →
  (∀ c, c ∈ B2 → fn_frequency <$> freqNodes p !! bk_ptr c = Some (bk_freq c)) →
  (∀ p', freq_op p p' → linked p' (B1 ++ b :: freq_insert n B2) →
     freqNodeMap (lfu_list p') = <[bk_freq n := bk_ptr n]> (freqNodeMap (lfu_list p)) → Q tt p') →
  wp (addFrequency (bk_freq n) (bk_ptr n) (add_ends from)) Q p.
Proof.
  intros Hl Hfrom Hfq [= Hnx Hpv] Hnew Hnil Hfr HQ. unfold addFrequency. apply wp_bind, wp_the_list.
  assert (Hbn : bk_ptr b ≠ nil_ptr) by (destruct Hl as (_ & _ & _ & _ & Hn); set_solver).
  assert (Hfirst : ll_first (lfu_list p) = hd_or nil_ptr (bk_ptr <$> (B1 ++ b :: B2))) by apply Hl.
  rewrite decide_False.
  2: { intros [Hf _]. apply (dlist_nil_inv _ _ _ _ _ _ Hl) in Hf. by destruct B1. }
  apply wp_bind. unfold go_get, wp at 1.
  assert (Hstart : (if decide (add_ends from = nil_ptr) then ll_first (lfu_list p) else add_ends from) = bk_ptr b).
  { unfold add_ends, walk_from in *. destruct from as [b0|]; cbn [from_option]; [subst b0; by rewrite decide_False|].
    subst B1. by rewrite decide_True. }
  rewrite Hstart. pose proof (linked_length _ _ _ Hl Hnew ltac:(eauto)) as Hlen. rewrite length_app in Hlen. simpl in Hlen.
  apply wp_bind. eapply (wp_freq_walk _ n b B1 B2); [done|lia|done|]. intros M1 m M2 Heq Hins.
  assert (HB : B1 ++ b :: B2 = (B1 ++ M1) ++ m :: M2) by (by rewrite <-app_assoc, Heq).
  assert (HB' : B1 ++ b :: freq_insert n B2 = (B1 ++ M1) ++ m :: n :: M2).
  { rewrite Hins, <-app_assoc. f_equal. destruct M1 as [|c M1]; simpl in *; injection Heq as -> ->; [done|].
    by rewrite <-app_assoc. }
  rewrite HB' in HQ. rewrite HB in Hl, Hnew. pose proof Hl as Hl'. unfold linked in Hl'. rewrite fmap_app in Hl', Hnew. simpl in Hl', Hnew.
  destruct (dlist_lookup _ _ _ _ _ _ _ _ Hl') as (fm & Hfm & Hnxm & _).
  assert (Hmn : bk_ptr m ≠ nil_ptr) by (destruct Hl' as (_ & _ & _ & _ & Hn); set_solver).
  rewrite (decide_False (P := bk_ptr m = nil_ptr)) by done. apply wp_bind.
  destruct (decide (bk_ptr m = ll_last (lfu_list p))) as [Hm|Hm].
  - pose proof (dlist_at_last _ _ _ _ _ _ _ _ Hl' (eq_sym Hm)) as ->%fmap_nil_inv.
    assert (Hf : ll_first (lfu_list p) ≠ nil_ptr).
    { intros Hf. apply (dlist_nil_inv _ _ _ _ _ _ Hl') in Hf. by apply app_nil in Hf as [_ ?]. }
    destruct (dlist_append fn_next fn_prev fn_set_next fn_set_prev _ _ _ _ _ _ Hl' Hf Hnew Hnil Hfq Hnx) as (Hed & ne & Hne & Hl2).
    rewrite <-Hm in *. rewrite Hfm in Hne. injection Hne as <-.
    apply wp_bind. eapply wp_upd_freq; [done|]. apply wp_bind. eapply wp_upd_freq; [simpl; by rewrite lookup_insert_ne|].
    apply wp_on_list, wp_on_list, HQ; simpl; [|unfold linked; simpl; rewrite fmap_app; simpl; by rewrite <-app_assoc in Hl2|done].
    split_and!; try done. eapply freq_payload_insert; [by eapply freq_payload_insert|by rewrite lookup_insert_ne|done].
  - destruct (dlist_insert_after fn_next fn_prev fn_set_next fn_set_prev _ _ _ _ _ _ _ _ Hl' Hfm Hm Hnew Hnil)
      as (Hca & Hcq & Haq & nc & Hnc & Hl2).
    apply wp_bind. eapply wp_load_freq; [done|]. apply wp_bind. eapply wp_upd_freq; [done|].
    apply wp_bind. eapply (wp_upd_freq _ _ nc); [simpl; by rewrite lookup_insert_ne|].
    apply wp_bind. eapply (wp_upd_freq _ _ fm); [simpl; by rewrite !lookup_insert_ne|].
    eapply (wp_upd_freq _ _ (fn_set_next (fn_next fm) fq)); [simpl; by rewrite !lookup_insert_ne, lookup_insert_eq by done|].
    specialize (Hl2 (fn_set_prev (bk_ptr m) (fn_set_next (fn_next fm) fq)) eq_refl eq_refl).
    assert (Hheap : <[bk_ptr n := fn_set_prev (bk_ptr m) (fn_set_next (fn_next fm) fq)]>
      (<[bk_ptr m := fn_set_next (bk_ptr n) fm]> (<[fn_next fm := fn_set_prev (bk_ptr n) nc]>
        (<[bk_ptr n := fn_set_next (fn_next fm) fq]> (freqNodes p)))) =
      <[bk_ptr n := fn_set_prev (bk_ptr m) (fn_set_next (fn_next fm) fq)]>
      (<[bk_ptr m := fn_set_next (bk_ptr n) fm]> (<[fn_next fm := fn_set_prev (bk_ptr n) nc]> (freqNodes p)))).
    { rewrite (insert_insert_ne _ (fn_next fm)), (insert_insert_ne _ (bk_ptr m)), insert_insert_eq by done. done. }
    apply wp_on_list, HQ; simpl; rewrite ?Hheap; [|unfold linked; simpl; by rewrite ?Hheap, fmap_app|done].
    split_and!; try done. simpl. rewrite ?Hheap. eapply freq_payload_insert; [|by rewrite !lookup_insert_ne|done].
    eapply freq_payload_insert; [by eapply freq_payload_insert|by rewrite lookup_insert_ne|done].
Qed.

(** *** Single nodes *)

(** A store to the frequency or the timer of a node in no bucket. *)
Lemma content_upd_detached p B D x d k n n' :
  content p B D x → (d, k) ∈ D → dataNodes p !! d = Some n →
  dn_key n' = dn_key n → data_links n' = data_links n → (is_Some (dn_timer n) → is_Some (dn_timer n')) →
  content (lfu_set_dataNodes (<[d:=n']> (dataNodes p)) p) B D x.
Proof.
  intros H Hd Hn Hk [= Hnx Hpv] Ht.
  assert (Hap : ∀ b, b ∈ B → d ∉ (bk_nodes b).*1) by (intros b Hb; by eapply ct_apart).
  destruct H as [H1 H2 H3 H4 H5 H6 H7 H8 H9 H10]. split; try done; simpl.
  - intros b Hb. destruct (H4 b Hb) as (fn & Hfn & Hf & Hlen & Hsz & Hl). exists fn. split; [done|].
    split_and!; try done. apply dlist_insert_ne; [by apply Hap|done].
  - intros b d0 k0 Hb Hin. rewrite lookup_insert_ne; [by eapply H5|]. intros ->. apply (Hap b Hb), elem_of_fst. eauto.
  - intros d0 k0 Hin. destruct (H6 _ _ Hin) as (Hnil & n0 & Hn0 & Hk0 & Hx0 & Hp0). split; [done|].
    destruct (decide (d = d0)) as [<-|]; [|rewrite lookup_insert_ne by done; eauto].
    rewrite Hn in Hn0. injection Hn0 as <-. exists n'. rewrite lookup_insert_eq. split_and!; congruence.
  - intros k0 d0 n0 Hm [[<- <-]|[_ Hn0]]%lookup_insert_Some Hto Hx; [|by eapply H10]. apply Ht. by eapply H10.
Qed.

(** A store to the timer of any node. *)
Lemma content_set_timer p B D x d n t :
  content p B D x → dataNodes p !! d = Some n →
  content (lfu_set_dataNodes (<[d:=dn_set_timer (Some t) n]> (dataNodes p)) p) B D x.
Proof.
  intros [H1 H2 H3 H4 H5 H6 H7 H8 H9 H10] Hn. split; try done; simpl.
  - intros b Hb. destruct (H4 b Hb) as (fn & Hfn & Hf & Hlen & Hsz & Hl). exists fn. split; [done|].
    split_and!; try done. eapply dlist_links; [|exact Hl]. intros q _.
    destruct (decide (d = q)) as [<-|]; [by rewrite lookup_insert_eq, Hn|by rewrite lookup_insert_ne].
  - intros b d0 k0 Hb Hin. destruct (H5 _ _ _ Hb Hin) as (n0 & Hn0 & ? & ?).
    destruct (decide (d = d0)) as [<-|]; [|rewrite lookup_insert_ne by done; eauto].
    rewrite Hn in Hn0. injection Hn0 as <-. rewrite lookup_insert_eq. eauto.
  - intros d0 k0 Hin. destruct (H6 _ _ Hin) as (Hnil & n0 & Hn0 & Hk0 & Hx0 & Hp0). split; [done|].
    destruct (decide (d = d0)) as [<-|]; [|rewrite lookup_insert_ne by done; eauto].
    rewrite Hn in Hn0. injection Hn0 as <-. rewrite lookup_insert_eq. eauto.
  - intros k0 d0 n0 Hm [[<- <-]|[_ Hn0]]%lookup_insert_Some Hto Hx; [eauto|]. by eapply H10.
Qed.

(** A new frequency node, in no list yet. *)
Lemma content_new_freq p B D x f :
  content p B D x →
  content (lfu_set_freqNodes (<[fresh_ptr (freqNodes p) := newFrequencyNode f]> (freqNodes p)) p) B D x.
Proof.
  intros H. pose proof H as []. eapply content_refreq; [exact H|done..| | |done].
  - intros b Hb. destruct (ct_bucket0 b Hb) as (fn & Hfn & Hok). exists fn. split; [|done]. simpl.
    rewrite lookup_insert_ne; [done|]. intros Heq. rewrite <-Heq, fresh_ptr_lookup in Hfn. done.
  - done.
Qed.
Lemma linked_new_freq p B f :
  linked p B → linked (lfu_set_freqNodes (<[fresh_ptr (freqNodes p) := newFrequencyNode f]> (freqNodes p)) p) B.
Proof.
  intros H. apply dlist_insert_ne; [|done]. intros Hin. destruct H as (Hc & _).
  destruct (chain_elem _ _ _ _ _ _ _ Hc Hin) as [n Hn]. by rewrite fresh_ptr_lookup in Hn.
Qed.
(** ... and linked, with its frequency in the map. *)
Lemma content_add_freq p p' B B' D x q f :
  content p B D x → freq_op p p' → freqNodes p !! q = Some (newFrequencyNode f) → q ≠ nil_ptr →
  q ∉ bk_ptr <$> B → f ∉ bk_freq <$> B → freqNodeMap (lfu_list p') = <[f:=q]> (freqNodeMap (lfu_list p)) →
  B' ≡ₚ mkBucket q f [] :: B → content p' B' D x.
Proof.
  intros H Hop Hq Hnil Hqn Hfn Hfm HP. eapply content_perm; [symmetry; exact HP|].
  pose proof Hop as (Hr & Hd & Hm & Hpay).
  eapply content_refreq; [exact H|done|done|apply Hr|simpl; constructor; [done|apply H]..| | | |]; simpl.
  - pose proof (ct_nil _ _ _ _ H). set_solver.
  - intros b [->|Hb]%elem_of_cons; [|by eapply bucket_ok_freq_op]. simpl. specialize (Hpay q). rewrite Hq in Hpay.
    destruct (freqNodes p' !! q) as [fn|]; [|done]. injection Hpay as Hl Hf. exists fn. split; [done|].
    unfold bucket_ok. rewrite Hl, Hf. split_and!; [done..|apply dlist_nil].
  - intros b Hb. rewrite elem_of_cons. split; [|auto]. by intros [->|?].
  - intros f0 q0. rewrite Hfm, lookup_insert_Some, (ct_fmap _ _ _ _ H). split.
    + intros [[<- <-]|[_ (b & Hb & <- & <-)]]; [exists (mkBucket q f []); set_solver|exists b; set_solver].
    + intros (b & [->|Hb]%elem_of_cons & <- & <-); [by left|]. right. split; [|eauto].
      intros ->. apply Hfn. by apply list_elem_of_fmap_2.
Qed.

(** *** Operations *)

(** Fewer files than a uint64 counts. *)
Definition small p : Prop := Z.of_nat (size (dataNodeMap (lfu_list p))) + 2 < 2 ^ 64.

Lemma rest_on_list f p :
  (∀ l, cacheAge (f l) = cacheAge l ∧ ll_cacheTimeout (f l) = ll_cacheTimeout l ∧ ll_maxSizeMB (f l) = ll_maxSizeMB l ∧
     ll_lowerThresh (f l) = ll_lowerThresh l ∧ ll_upperThresh (f l) = ll_upperThresh l ∧ ll_cachePath (f l) = ll_cachePath l) →
  rest p (lfu_set_list (f (lfu_list p)) p).
Proof. intros Hf. destruct (Hf (lfu_list p)) as (?&?&?&?&?&?). by split_and!. Qed.
Lemma content_set_size p B D x z : content p B D x → content (lfu_set_list (ll_set_size z (lfu_list p)) p) B D x.
Proof. by intros []. Qed.

(** The bucket that lost a node is dropped when it is empty. *)
Lemma wp_drop_empty X1 b X2 x fn f p (Q : unit → policy → Prop) :
  content p (X1 ++ b :: X2) [] x → linked p (X1 ++ b :: X2) → (∀ c, c ∈ X1 ++ X2 → bk_nodes c ≠ []) →
  freqNodes p !! bk_ptr b = Some fn → f = bk_freq b →
  (∀ p' B', listed p' B' x → B' = X1 ++ b :: X2 ∧ bk_nodes b ≠ [] ∨ B' = X1 ++ X2 ∧ bk_nodes b = [] → rest p p' →
     dataNodes p' = dataNodes p → dataNodeMap (lfu_list p') = dataNodeMap (lfu_list p) → Q tt p') →
  wp (if dl_size (fn_list fn) =? 0 then
        _ ← deleteFrequency f; on_list (λ l, ll_set_size (u64 (ll_size l - 1)) l)
      else mret tt) Q p.
Proof.
  intros H Hl Hne Hfn -> HQ. destruct (ct_bucket _ _ _ _ H b ltac:(set_solver)) as (fn' & Hfn' & _ & _ & Hsz & _).
  rewrite Hfn in Hfn'. injection Hfn' as <-. rewrite Hsz. destruct (bk_nodes b) as [|e r] eqn:Hb.
  - simpl. apply wp_bind. eapply wp_deleteFrequency; [done..|]. intros p' H' Hl' Hr Hd Hm. apply wp_on_list.
    eapply HQ; [| | |done|done].
    + split; [|split; [|exact Hne]]; [by apply content_set_size|done].
    + by right.
    + etransitivity; [exact Hr|]. by apply rest_on_list.
  - rewrite (proj2 (Z.eqb_neq _ 0)) by (simpl; lia). apply wp_ret. eapply HQ; [|by left|done..].
    split_and!; [done..|]. intros c [Hc|[->|Hc]%elem_of_cons]%elem_of_app; [apply Hne; set_solver|by rewrite Hb|apply Hne; set_solver].
Qed.

(** A node in no bucket joins the bucket of its frequency. *)
Lemma wp_push_join C x d k f q p (Q : unit → policy → Prop) :
  content p C [(d, k)] x → Z.of_nat (size (dataNodeMap (lfu_list p))) + 1 < 2 ^ 64 →
  dn_frequency <$> dataNodes p !! d = Some f → freqNodeMap (lfu_list p) !! f = Some q →
  (∀ p', content p' (join f (d, k) C) [] x → data_op p p' → Q tt p') → wp (dl_push q d) Q p.
Proof.
  intros H Hsm Hfr Hq HQ. apply (ct_fmap _ _ _ _ H) in Hq as (c & Hc & <- & <-).
  apply list_elem_of_split in Hc as (C1 & C2 & ->).
  pose proof (content_perm _ _ _ _ _ (Permutation_sym (Permutation_middle _ _ _)) H) as H'.
  pose proof (content_length _ _ _ _ c H' ltac:(left)) as Hlen.
  eapply (wp_push_data c); [exact H'|set_solver|done|lia|]. intros p' Hp' Hop. apply HQ; [|done].
  pose proof (ct_freqs _ _ _ _ H') as [Hc _]%NoDup_cons.
  rewrite join_app. simpl. rewrite Z.eqb_refl, !join_other by set_solver.
  eapply content_perm; [apply Permutation_middle|]. exact Hp'.
Qed.

(** ... which is made behind [b] when there is none. *)
Lemma wp_join_new B1 b B2 x d k f p (Q : unit → policy → Prop) :
  content p (B1 ++ b :: B2) [(d, k)] x → linked p (B1 ++ b :: B2) → small p →
  dn_frequency <$> dataNodes p !! d = Some f → f ∉ bk_freq <$> B1 ++ b :: B2 →
  (∀ p' n, bk_freq n = f → let Y := B1 ++ b :: freq_insert n B2 in
     content p' (join f (d, k) Y) [] x → linked p' Y → rest p p' →
     dataNodeMap (lfu_list p') = dataNodeMap (lfu_list p) →
     (∀ q, data_payload <$> dataNodes p' !! q = data_payload <$> dataNodes p !! q) → Q tt p') →
  wp (newFreqNode ← new_freq (newFrequencyNode f);
      _ ← addFrequency f newFreqNode (bk_ptr b);
      _ ← on_list (λ l, ll_set_freqMap (<[f := newFreqNode]> (freqNodeMap l)) l);
      dl_push newFreqNode d) Q p.
Proof.
  intros H Hl Hsm Hfr Hnf HQ. apply wp_bind. set (q := fresh_ptr (freqNodes p)). unfold wp at 1, new_freq.
  set (p1 := lfu_set_freqNodes _ p).
  assert (H1 : content p1 (B1 ++ b :: B2) [(d, k)] x) by (by apply content_new_freq).
  assert (Hl1 : linked p1 (B1 ++ b :: B2)) by (by apply linked_new_freq).
  assert (Hq1 : freqNodes p1 !! q = Some (newFrequencyNode f)) by (simpl; by rewrite lookup_insert_eq).
  assert (Hqn : q ∉ bk_ptr <$> B1 ++ b :: B2).
  { intros (c & Hqc & Hc)%list_elem_of_fmap. destruct (ct_bucket _ _ _ _ H c Hc) as (fn & Hfn & _).
    rewrite <-Hqc in Hfn. unfold q in Hfn. by rewrite fresh_ptr_lookup in Hfn. }
  set (n := mkBucket q f []). apply wp_bind.
  eapply (wp_addFrequency (Some b) n (newFrequencyNode f) B1 b B2); [exact Hl1|done|done|done|done|apply fresh_ptr_nil| |].
  { intros c Hc. destruct (ct_bucket _ _ _ _ H1 c ltac:(set_solver)) as (fn & -> & Hfn & _). simpl. by rewrite Hfn. }
  intros p2 Hop2 Hl2 Hfm2. assert (H2 : content p2 (B1 ++ b :: freq_insert n B2) [(d, k)] x).
  { eapply (content_add_freq p1); [exact H1|done|exact Hq1|apply fresh_ptr_nil|done|done|done|].
    rewrite freq_insert_perm, (Permutation_swap n b). symmetry. apply Permutation_middle. }
  destruct Hop2 as (Hr2 & Hd2 & Hm2 & _). apply wp_bind, wp_on_list. set (p3 := lfu_set_list _ p2).
  assert (H3 : content p3 (B1 ++ b :: freq_insert n B2) [(d, k)] x).
  { eapply content_refreq; [exact H2|done..|apply H2|apply H2|apply H2|apply H2|done|].
    intros f0 q0. rewrite <-(ct_fmap _ _ _ _ H2). simpl. by rewrite Hfm2, insert_insert_eq. }
  eapply wp_push_join; [exact H3|unfold small in *; simpl; rewrite Hm2; simpl; lia|by simpl; rewrite Hd2|by simpl; rewrite lookup_insert_eq|].
  intros p4 H4 Hop4. pose proof (linked_data_op _ _ _ Hop4 Hl2) as Hl4.
  destruct Hop4 as (Hr4 & _ & _ & Hdm4 & _ & _ & Hpay4). apply (HQ p4 n); try done.
  - etransitivity; [exact Hr2|]. etransitivity; [|exact Hr4]. by apply rest_on_list.
  - rewrite Hdm4. exact Hm2.
  - intros y. rewrite Hpay4. simpl. by rewrite Hd2.
Qed.

(** The end of promote: the old bucket goes when it is empty. *)
Lemma wp_promote_end B1 b Y x d k f p (Q : unit → policy → Prop) :
  content p (join f (d, k) (B1 ++ b :: Y)) [] x → linked p (B1 ++ b :: Y) →
  (∀ c, c ∈ B1 ++ Y → bk_nodes c ≠ [] ∨ bk_freq c = f) →
  (∀ p' B', listed p' B' x → (ordered (B1 ++ b :: Y) → ordered B') → rest p p' → dataNodes p' = dataNodes p →
     dataNodeMap (lfu_list p') = dataNodeMap (lfu_list p) → Q tt p') →
  wp (pf ← load_freq (bk_ptr b);
      if dl_size (fn_list pf) =? 0 then
        _ ← deleteFrequency (fn_frequency pf); on_list (λ l, ll_set_size (u64 (ll_size l - 1)) l)
      else mret tt) Q p.
Proof.
  intros H Hl HY HQ. rewrite <-(linked_join p f (d, k)) in Hl. rewrite join_app, join_cons in H, Hl.
  set (b' := if bk_freq b =? f then _ else b) in *.
  assert (Hb' : bk_ptr b' = bk_ptr b ∧ bk_freq b' = bk_freq b) by (unfold b'; by destruct (_ =? _)).
  destruct Hb' as [Hbp Hbf]. destruct (ct_bucket _ _ _ _ H b' ltac:(set_solver)) as (fn & Hfn & Hff & _). rewrite Hbp in Hfn.
  apply wp_bind. eapply wp_load_freq; [done|]. eapply wp_drop_empty; [exact H|exact Hl| |by rewrite Hbp|by rewrite Hff|].
  - intros c. rewrite <-join_app. intros (c0 & -> & Hc0)%list_elem_of_fmap. destruct (Z.eqb_spec (bk_freq c0) f).
    + simpl. by destruct (bk_nodes c0).
    + by destruct (HY c0 Hc0).
  - intros p' B' H' HB' Hr' Hd' Hm'. eapply HQ; [exact H'| |done..].
    intros Ho. eapply ordered_sublist; [|exact Ho]. rewrite <-(join_freqs f (d, k) (B1 ++ b :: Y)), join_app, join_cons. fold b'.
    destruct HB' as [[-> _]|[-> _]]; [done|]. rewrite !fmap_app. simpl. apply sublist_app; [done|]. by constructor.
Qed.

Lemma wp_promote B1 b B2 x l1 d k l2 p (Q : unit → policy → Prop) :
  let f := u64 (bk_freq b + u64 (1 + cacheAge (lfu_list p))) in
  listed p (B1 ++ b :: B2) x → bk_nodes b = l1 ++ (d, k) :: l2 → small p →
  (∀ p' B', listed p' B' x → (ordered (B1 ++ b :: B2) → bk_freq b < f → ordered B') → rest p p' →
     dataNodeMap (lfu_list p') = dataNodeMap (lfu_list p) →
     (∀ q, q ≠ d → data_payload <$> dataNodes p' !! q = data_payload <$> dataNodes p !! q) →
     dn_frequency <$> dataNodes p' !! d = Some f → Q tt p') →
  wp (promote d) Q p.
Proof.
  intros f (H & Hl & Hne) Hb Hsm HQ. destruct (ct_node _ _ _ _ H b d k) as (n & Hn & Hk & Hfr); [set_solver|rewrite Hb; set_solver|].
  unfold promote. apply wp_bind. eapply wp_load_data; [done|]. rewrite Hfr. apply wp_bind, wp_the_list.
  assert (Hfm : freqNodeMap (lfu_list p) !! bk_freq b = Some (bk_ptr b)) by (apply (ct_fmap _ _ _ _ H); exists b; set_solver).
  unfold freq_node. rewrite Hfm. simpl. apply wp_bind.
  eapply wp_remove_node; [eapply content_perm; [symmetry; apply Permutation_middle|exact H]|exact Hb|].
  intros p1 H1 Hop1. pose proof (linked_data_op _ _ _ Hop1 Hl) as Hl1. destruct Hop1 as (Hr1 & _ & _ & Hdm1 & Hfm1 & _ & Hpay1).
  assert (∃ n1, dataNodes p1 !! d = Some n1) as [n1 Hn1].
  { specialize (Hpay1 d). rewrite Hn in Hpay1. destruct (dataNodes p1 !! d); [eauto|done]. }
  fold f. set (b0 := mkBucket (bk_ptr b) (bk_freq b) (l1 ++ l2)) in *.
  apply wp_bind. eapply wp_upd_data; [done|]. set (p2 := lfu_set_dataNodes _ p1).
  assert (H2 : content p2 (B1 ++ b0 :: B2) [(d, k)] x).
  { eapply content_perm; [apply Permutation_middle|]. eapply content_upd_detached; [exact H1|by left|done..]. }
  assert (Hl2 : linked p2 (B1 ++ b0 :: B2)) by (unfold linked in *; rewrite fmap_app in *; exact Hl1).
  assert (Hsm2 : small p2) by (unfold small in *; simpl; by rewrite Hdm1).
  assert (Hfr2 : dn_frequency <$> dataNodes p2 !! d = Some f) by (simpl; by rewrite lookup_insert_eq).
  assert (Hfreqs : bk_freq <$> B1 ++ b0 :: B2 = bk_freq <$> B1 ++ b :: B2) by (by rewrite !fmap_app).
  assert (Hend : ∀ p3 B', listed p3 B' x → (ordered (B1 ++ b :: B2) → bk_freq b < f → ordered B') → rest p2 p3 →
    dataNodeMap (lfu_list p3) = dataNodeMap (lfu_list p2) →
    (∀ q, data_payload <$> dataNodes p3 !! q = data_payload <$> dataNodes p2 !! q) → Q tt p3).
  { intros p3 B' H3 Hord Hr3 Hdm3 Hpay3. eapply HQ; [exact H3|done| | | |].
    - etransitivity; [exact Hr1|exact Hr3].
    - rewrite Hdm3. exact Hdm1.
    - intros q Hq. rewrite Hpay3. simpl. by rewrite lookup_insert_ne.
    - specialize (Hpay3 d). simpl in Hpay3. rewrite lookup_insert_eq in Hpay3.
      destruct (dataNodes p3 !! d) as [m3|]; [|done]. injection Hpay3 as _ Hf3 _. simpl. by rewrite Hf3. }
  apply wp_bind, wp_the_list, wp_bind. destruct (freqNodeMap (lfu_list p2) !! f) as [q|] eqn:Hq.
  - eapply wp_push_join; [exact H2|unfold small in *; lia|done|done|]. intros p3 H3 Hop3. pose proof (linked_data_op _ _ _ Hop3 Hl2) as Hl3.
    destruct Hop3 as (Hr3 & _ & _ & Hdm3 & _ & _ & Hpay3). change (bk_ptr b) with (bk_ptr b0).
    eapply (wp_promote_end B1 b0 B2); [exact H3|done|left; apply Hne; set_solver|].
    intros p4 B' H4 Ho4 Hr4 Hd4 Hm4. eapply (Hend p4 B'); [done| | |by rewrite Hm4|intros; by rewrite Hd4].
    + intros Ho _. apply Ho4. unfold ordered. by rewrite Hfreqs.
    + by etransitivity.
  - assert (Hnf : f ∉ bk_freq <$> B1 ++ b0 :: B2).
    { intros (c & -> & Hc)%list_elem_of_fmap.
      assert (freqNodeMap (lfu_list p2) !! bk_freq c = Some (bk_ptr c)) by (apply (ct_fmap _ _ _ _ H2); eauto). congruence. }
    change (bk_ptr b) with (bk_ptr b0). eapply (wp_join_new B1 b0 B2); [exact H2|done|done|done|done|].
    intros p3 m Hm Y H3 Hl3 Hr3 Hdm3 Hpay3. eapply (wp_promote_end B1 b0 (freq_insert m B2)); [exact H3|done| |].
    + intros c. rewrite freq_insert_perm. intros [?|[->|?]%elem_of_cons]%elem_of_app; [left; apply Hne; set_solver|by right|left; apply Hne; set_solver].
    + intros p4 B' H4 Ho4 Hr4 Hd4 Hm4. eapply (Hend p4 B'); [done| |by etransitivity|by rewrite Hm4|intros; by rewrite Hd4].
      intros Ho Hlt. apply Ho4, ordered_insert; [unfold ordered; by rewrite Hfreqs|by rewrite Hm|by rewrite Hm].
Qed.

End spec.
