(* ===== verification/LfuPolicySpec.v ===== *)
(** * The LFU policy of the file cache

    Every operation keeps the lists of LfuPolicy.v well formed, in every
    interleaving with the goroutine that removes files and with the timers, and
    none of them panics; the frequencies count the uses; evictions follow the
    order of the buckets, which are sorted except for the first.  Module Runs
    shows what the exception, the bounded channel and the timers lead to. *)
From S2P Require Import Prelude GoLib Chain LockMap LruPolicy LruPolicySpec LfuPolicy LfuLists.
From Stdlib Require Import QArith.
Open Scope Z_scope.

(** The readings of the disk usage return. *)
Class UsageLaws (FS : Type) `{!FileSystem FS} := {
  GetUsage_returns path f : ∃ r f', GetUsage path f = Ret (r, f');
  GetDiskUsage_returns path f : ∃ r f', GetDiskUsageFromStatfs path f = Ret (r, f')
}.

Section spec.
Context {FS : Type} `{!FileSystem FS} `{!FileSystemLaws FS} `{!UsageLaws FS}.
Abbreviation policy := (lfuPolicy FS).
Implicit Types (p : policy) (b : bucket) (B : list bucket) (D : list (ptr * string)) (x : option string).
(** *** The channel and the goroutine *)

(** Everything but the channel, the goroutine, the locks and the files. *)
Definition same_lists p p' : Prop :=
  lfu_config p' = lfu_config p ∧ lfu_list p' = lfu_list p ∧ dataNodes p' = dataNodes p ∧ freqNodes p' = freqNodes p ∧
  timers p' = timers p ∧ fired p' = fired p.
#[global] Instance same_lists_preorder : PreOrder same_lists.
Proof. split; [done|]. unfold same_lists. intros p1 p2 p3 H1 H2. naive_solver congruence. Qed.
Lemma listed_same_lists p p' B x : same_lists p p' → listed p B x → listed p' B x.
Proof.
  intros (_ & Hl & Hd & Hf & _) ([] & Hk & Hne). split_and!; [|unfold linked; by rewrite Hl, Hf|done].
  split; rewrite ?Hl, ?Hd, ?Hf; done.
Qed.

(** While the goroutine waits for the mutex it does nothing else. *)
Definition waits p p' : Prop := ∀ w h, receiver p = Waiting w h →
  receiver p' = Waiting w h ∧ lfu_fileLocks p' = lfu_fileLocks p.
#[global] Instance waits_preorder : PreOrder waits.
Proof. split; [done|]. intros p1 p2 p3 H1 H2 w h Hw. destruct (H1 _ _ Hw) as [Hw2 Hl]. destruct (H2 _ _ Hw2). by rewrite <-Hl. Qed.
Lemma waits_rest p p' : rest p p' → waits p p'.
Proof. intros (_ & _ & _ & _ & Hr & _ & Hl & _) w h Hw. by rewrite Hr, Hl. Qed.

(** The name of the file is what remains of its path. *)
Definition az_of p (path : string) : string :=
  let az := strings_TrimPrefix path (tmpPath (lfu_config p)) in
  if strings_HasPrefix az "/" then sdrop 1 az else az.
Definition path_ok p (path : string) : Prop := strings_TrimPrefix path (tmpPath (lfu_config p)) ≠ "".
(** A lock that the goroutine holds is taken. *)
Definition holds (l : LockMap) (held : option ptr) : Prop :=
  match held with Some q => mtx <$> items l !! q = Some true | None => True end.

Record chan_ok p : Prop := mkChanOk {
  ck_locks : locks_ok (lfu_fileLocks p);
  ck_paths : Forall (path_ok p) (removeFiles p);
  ck_keys k d : dataNodeMap (lfu_list p) !! k = Some d → path_ok p k;
  ck_wait path held : receiver p = Waiting path held → path_ok p path ∧ holds (lfu_fileLocks p) held
}.

Lemma wp_clearItem path p :
  path_ok p path → locks_ok (lfu_fileLocks p) →
  wp (clearItem path) (λ r p', same_lists p p' ∧ removeFiles p' = removeFiles p ∧ receiver p' = receiver p ∧
    locks_ok (lfu_fileLocks p') ∧ match r with Some held => holds (lfu_fileLocks p') held | None => True end ∧
    (lm_busy (lfu_fileLocks p) (az_of p path) = true → lfu_fs p' = lfu_fs p ∧ r ≠ None)) p.
Proof.
  intros Hpath Hlocks. unfold clearItem. apply wp_bind. unfold go_gets, wp at 1. unfold path_ok in Hpath.
  rewrite bool_decide_false by done. fold (az_of p path).
  destruct (lm_Get_run (az_of p path) _ Hlocks) as (q & l1 & i & Hget & Hq & Hi & Hl1 & Hbusy).
  rewrite <-Hbusy. clear Hbusy. apply wp_bind, wp_zoom. unfold wp at 1. rewrite Hget.
  apply wp_bind, wp_zoom. unfold wp at 1, lm_Locked, load_item, mbind, go_bind. simpl. rewrite Hq. simpl. rewrite Hi. simpl.
  destruct (Hl1 _ _ Hq) as (i' & Hi' & Hm). rewrite Hi in Hi'. injection Hi' as <-.
  assert (Hb : lm_busy l1 (az_of p path) = exLocked i || (0 <? handleCount i)).
  { unfold lm_busy. rewrite Hq. by rewrite Hi. }
  rewrite Hb. destruct (exLocked i) eqn:Hex; [apply wp_ret; by split_and!|].
  destruct (lm_lock_roundtrip q l1 i Hi Hex Hm) as (l2 & Hlock & Hcount & Hunlock).
  assert (H2 : locks_ok l2 ∧ holds l2 (Some q)).
  { unfold lm_Lock, mutex_lock, set_exLocked, load_item, store_item, mbind, go_bind in Hlock. rewrite Hi in Hlock. simpl in Hlock.
    rewrite Hm in Hlock. simpl in Hlock. rewrite lookup_insert_eq in Hlock. simpl in Hlock.
    injection Hlock as <-. split; [|simpl; by rewrite lookup_insert_eq]. intros nm y Hy. simpl in *.
    destruct (decide (q = y)) as [<-|]; [rewrite lookup_insert_eq; eauto|]. rewrite !lookup_insert_ne by done. by apply (Hl1 nm). }
  destruct H2 as [H2 Hheld]. apply wp_bind, wp_zoom. unfold wp at 1. simpl. rewrite Hlock. apply wp_bind, wp_zoom. unfold wp at 1. simpl. rewrite Hcount. simpl.
  destruct (0 <? handleCount i); [apply wp_ret; by split_and!|].
  apply wp_bind, wp_zoom. eapply wp_mono; [apply wp_deleteFile|]. intros e f' _.
  apply wp_bind, wp_zoom. unfold wp at 1. simpl. rewrite Hunlock. apply wp_ret. by split_and!.
Qed.

Lemma chan_ok_channel p c r :
  chan_ok p → Forall (path_ok p) c →
  match r with Waiting path held => path_ok p path ∧ holds (lfu_fileLocks p) held | _ => True end →
  chan_ok (lfu_set_channel c r p).
Proof. intros [H1 H2 H3 H4] Hc Hr. split; try done. simpl. intros w held ->. done. Qed.

(** A round of the goroutine makes room for one path, or does nothing. *)
Lemma wp_receiver_round p :
  chan_ok p → wp receiver_round (λ _ p', same_lists p p' ∧ chan_ok p' ∧ waits p p' ∧
    (length (removeFiles p') ≤ length (removeFiles p))%nat) p.
Proof.
  intros H. unfold receiver_round. apply wp_bind. unfold go_get, wp at 1.
  destruct (receiver p) as [|w held|] eqn:Hr, (removeFiles p) as [|path rest_] eqn:Hf; try (apply wp_ret; split_and!; [done..|by rewrite Hf]).
  assert (Hw : ∀ p', waits p p') by (by intros p' w h; rewrite Hr).
  pose proof (ck_paths _ H) as Hpaths. rewrite Hf in Hpaths. apply Forall_cons in Hpaths as [Hp Hpaths].
  apply wp_bind. unfold go_modify, wp at 1.
  assert (H1 : chan_ok (lfu_set_channel rest_ Receiving p)) by (by apply chan_ok_channel).
  apply wp_bind. eapply wp_mono; [apply wp_clearItem; [exact Hp|apply H1]|].
  intros r p2 (Hs & Hf2 & Hr2 & Hl2 & Hh & _). pose proof Hs as (Hc & Hl & _).
  assert (H2 : chan_ok p2).
  { split; [done|rewrite Hf2|rewrite Hl|rewrite Hr2; done]; unfold path_ok; rewrite Hc; [done|apply H]. }
  assert (Hlen : (length (removeFiles p2) ≤ S (length rest_))%nat) by (rewrite Hf2; simpl; lia).
  destruct r as [held|]; [|apply wp_ret; by split_and!]. unfold go_modify, wp.
  split_and!; [exact Hs| |done|done]. apply chan_ok_channel; [done|apply H2|]. split; [|done]. unfold path_ok. by rewrite Hc.
Qed.

Lemma wp_receiver_rounds n p :
  chan_ok p → wp (receiver_rounds n) (λ _ p', same_lists p p' ∧ chan_ok p' ∧ waits p p') p.
Proof.
  revert p. induction n as [|n IH]; intros p H; simpl; [by apply wp_ret|]. apply wp_bind.
  eapply wp_mono; [by apply wp_receiver_round|]. intros [] p1 (H1 & H2 & Hw & _). eapply wp_mono; [by apply IH|].
  intros [] p2 (H3 & H4 & Hw2). split_and!; [by etransitivity|done|by etransitivity].
Qed.

(** A send blocks or leaves the lists alone. *)
Lemma safe_send_remove path p (Q : unit → policy → Prop) :
  chan_ok p → path_ok p path → (∀ p', same_lists p p' → chan_ok p' → waits p p' → Q tt p') → safe (send_remove path) Q p.
Proof.
  intros H Hp HQ. unfold send_remove. apply safe_step. unfold go_get, wp. apply safe_step. unfold go_modify, wp.
  assert (H0 : chan_ok (lfu_set_schedule (tail (schedule p)) p)) by by destruct H.
  apply safe_step. eapply wp_mono; [by apply wp_receiver_rounds|]. intros [] p1 (Hs1 & H1 & Hw1).
  apply safe_step. unfold go_get, wp at 1. apply safe_step.
  assert (Hround : wp (if Z.of_nat (length (removeFiles p1)) <? 10 then mret tt else receiver_round)
    (λ _ p', same_lists p p' ∧ chan_ok p' ∧ waits p p') p1).
  { destruct (_ <? _); [apply wp_ret; by split_and!|]. eapply wp_mono; [by apply wp_receiver_round|].
    intros [] p2 (H2 & ? & Hw2 & _). split_and!; [by etransitivity|done|]. etransitivity; [exact Hw1|exact Hw2]. }
  eapply wp_mono; [exact Hround|]. clear Hround. intros [] p2 (Hs2 & H2 & Hw2). apply safe_step. unfold go_get, wp at 1.
  destruct (_ <? _); [|exact I]. unfold go_modify, safe. pose proof Hs2 as (Hc & _). apply HQ; [done| |exact Hw2].
  apply chan_ok_channel; [done| |].
  - apply Forall_app. split; [apply H2|]. constructor; [|done]. unfold path_ok. by rewrite Hc.
  - destruct (receiver p2) eqn:Hr; [done| |done]. by apply (ck_wait _ H2).
Qed.

(** *** The operations *)
Definition freq_of p (k : string) : option Z :=
  d ← dataNodeMap (lfu_list p) !! k; dn_frequency <$> dataNodes p !! d.

Lemma content_find p B x k d :
  content p B [] x → dataNodeMap (lfu_list p) !! k = Some d →
  ∃ B1 b B2 l1 l2, B = B1 ++ b :: B2 ∧ bk_nodes b = l1 ++ (d, k) :: l2 ∧ freq_of p k = Some (bk_freq b) ∧ d ≠ nil_ptr.
Proof.
  intros H Hk. pose proof Hk as Hk'. apply (ct_map _ _ _ _ H) in Hk' as [?%not_elem_of_nil|(b & Hb & Hin)]; [done|].
  destruct (ct_bucket _ _ _ _ H b Hb) as (fn & _ & _ & _ & _ & _ & _ & _ & _ & Hnil).
  destruct (ct_node _ _ _ _ H b d k Hb Hin) as (n & Hn & _ & Hf).
  assert (Hd : d ≠ nil_ptr) by (intros ->; apply Hnil, elem_of_fst; eauto).
  apply list_elem_of_split in Hb as (B1 & B2 & ->). apply list_elem_of_split in Hin as (l1 & l2 & Hl).
  exists B1, b, B2, l1, l2. split_and!; try done. unfold freq_of. rewrite Hk. simpl. by rewrite Hn, <-Hf.
Qed.

Lemma freq_of_other p p' d k :
  dataNodeMap (lfu_list p) !! k = Some d → (∀ k', dataNodeMap (lfu_list p) !! k' = Some d → k' = k) →
  (∀ k', k' ≠ k → dataNodeMap (lfu_list p') !! k' = dataNodeMap (lfu_list p) !! k') →
  (∀ q, q ≠ d → data_payload <$> dataNodes p' !! q = data_payload <$> dataNodes p !! q) →
  ∀ k', k' ≠ k → freq_of p' k' = freq_of p k'.
Proof.
  intros Hd Hinj Hm Hpay k' Hk. unfold freq_of. rewrite Hm by done. destruct (dataNodeMap (lfu_list p) !! k') as [d'|] eqn:E; [|done].
  simpl. assert (d' ≠ d) by (intros ->; by apply Hk, Hinj). specialize (Hpay d' ltac:(done)).
  destruct (dataNodes p' !! d'), (dataNodes p !! d'); try done. injection Hpay as _ Hf _. simpl. by rewrite Hf.
Qed.
(** A node belongs to one file. *)
Lemma content_inj p B D x k k' d :
  content p B D x → dataNodeMap (lfu_list p) !! k = Some d → dataNodeMap (lfu_list p) !! k' = Some d → k' = k.
Proof.
  intros H Hk Hk'. assert (Hkey : ∀ k, dataNodeMap (lfu_list p) !! k = Some d → dn_key <$> dataNodes p !! d = Some k).
  { intros k0 [Hin|(b & Hb & Hin)]%(ct_map _ _ _ _ H).
    - destruct (ct_detached _ _ _ _ H _ _ Hin) as (_ & n & -> & <- & _). done.
    - destruct (ct_node _ _ _ _ H _ _ _ Hb Hin) as (n & -> & <- & _). done. }
  apply Hkey in Hk, Hk'. congruence.
Qed.

Lemma wp_stop_timer B D k d p (Q : unit → policy → Prop) :
  content p B D None → dataNodeMap (lfu_list p) !! k = Some d → is_Some (dataNodes p !! d) →
  (∀ t, Q tt (lfu_set_timers t (fired p) p)) → wp (stop_timer d) Q p.
Proof.
  intros H Hk [n Hn] HQ. unfold stop_timer. apply wp_bind, wp_the_list.
  destruct (Z.ltb_spec 0 (ll_cacheTimeout (lfu_list p))).
  - apply wp_bind. eapply wp_load_data; [done|]. destruct (ct_timer _ _ _ _ H _ _ _ Hk Hn ltac:(done) ltac:(done)) as [t Ht].
    rewrite Ht. apply HQ.
  - apply wp_ret. replace p with (lfu_set_timers (timers p) (fired p) p) by (by destruct p). apply HQ.
Qed.

(** After it every node has its timer. *)
Lemma wp_setTimerIfValid B x k d n p (Q : unit → policy → Prop) :
  listed p B x → x = None ∨ x = Some k → dataNodeMap (lfu_list p) !! k = Some d → dataNodes p !! d = Some n →
  (∀ p', listed p' B None → rest p p' → dataNodeMap (lfu_list p') = dataNodeMap (lfu_list p) →
     (∀ q, dn_frequency <$> dataNodes p' !! q = dn_frequency <$> dataNodes p !! q) → Q tt p') →
  wp (setTimerIfValid d) Q p.
Proof.
  intros (H & Hl & Hne) Hx Hk Hn HQ. unfold setTimerIfValid. apply wp_bind, wp_the_list.
  destruct (Z.ltb_spec 0 (ll_cacheTimeout (lfu_list p))) as [Hto|Hto].
  - apply wp_bind. eapply wp_load_data; [done|]. apply wp_bind. unfold go_get, wp at 1. apply wp_bind. unfold go_modify, wp at 1.
    eapply wp_upd_data; [done|]. set (t := fresh_ptr _). simpl. apply HQ; [|done|done|].
    + split; [|done]. pose proof (content_set_timer p B [] x d n t H Hn) as [H1 H2 H3 H4 H5 H6 H7 H8 H9 H10]. split; try done.
      intros k0 d0 n0 Hk0 Hn0 _ _. destruct (decide (k0 = k)) as [->|Hne0].
      * simpl in Hk0, Hn0. rewrite Hk in Hk0. injection Hk0 as <-. rewrite lookup_insert_eq in Hn0. injection Hn0 as <-. eauto.
      * eapply H10; [done|done|done|]. destruct Hx as [->| ->]; [done|]. by intros [= ->].
    + intros q. simpl. destruct (decide (d = q)) as [<-|]; [by rewrite lookup_insert_eq, Hn|by rewrite lookup_insert_ne].
  - apply wp_ret. apply HQ; try done. split; [|done]. destruct H as [H1 H2 H3 H4 H5 H6 H7 H8 H9 H10]. split; try done. lia.
Qed.

(** A use of a known file: get and put. *)
Definition promoted p k : Z := u64 (default 0 (freq_of p k) + u64 (1 + cacheAge (lfu_list p))).
Lemma wp_touch_file B k d p (Q : unit → policy → Prop) :
  lfu_ok p B → dataNodeMap (lfu_list p) !! k = Some d → small p →
  (∀ p' B', lfu_ok p' B' → (ordered B → default 0 (freq_of p k) < promoted p k → ordered B') → rest p p' →
     dataNodeMap (lfu_list p') = dataNodeMap (lfu_list p) → freq_of p' k = Some (promoted p k) →
     (∀ k', k' ≠ k → freq_of p' k' = freq_of p k') → Q tt p') →
  wp (_ ← stop_timer d; _ ← promote d; setTimerIfValid d) Q p.
Proof.
  intros Hok Hk Hsm HQ. destruct Hok as (H & Hl & Hne).
  destruct (content_find _ _ _ _ _ H Hk) as (B1 & b & B2 & l1 & l2 & -> & Hb & Hfr & Hd).
  destruct (ct_node _ _ _ _ H b d k) as (n & Hn & Hkey & Hf); [set_solver|rewrite Hb; set_solver|].
  apply wp_bind. eapply wp_stop_timer; [exact H|exact Hk|by eauto|]. intros t. set (p0 := lfu_set_timers t (fired p) p).
  assert (H0 : listed p0 (B1 ++ b :: B2) None) by (split; [by destruct H|done]).
  apply wp_bind. eapply (wp_promote B1 b B2 None l1 d k l2); [exact H0|exact Hb|exact Hsm|].
  intros p1 B' H1 Hord Hr1 Hm1 Hpay1 Hf1. destruct (dataNodes p1 !! d) as [n1|] eqn:Hn1; [|done].
  eapply wp_setTimerIfValid; [exact H1|by left|by rewrite Hm1|done|]. intros p2 H2 Hr2 Hm2 Hf2.
  unfold promoted in HQ. rewrite Hfr in HQ. simpl in HQ. eapply HQ; [exact H2|exact Hord| |by rewrite Hm2, Hm1| |].
  - etransitivity; [|exact Hr2]. exact Hr1.
  - unfold freq_of. rewrite Hm2, Hm1. simpl. rewrite Hk. simpl. by rewrite Hf2, Hn1.
  - intros k' Hk'. assert (Hinj : ∀ k0, dataNodeMap (lfu_list p) !! k0 = Some d → k0 = k) by (intros; by eapply content_inj).
    transitivity (freq_of p1 k'); [|eapply (freq_of_other p p1 d k); try done; intros; by rewrite Hm1].
    unfold freq_of. rewrite Hm2. destruct (dataNodeMap (lfu_list p1) !! k') as [d'|]; [|done]. apply Hf2.
Qed.

(** A node that left its bucket is forgotten. *)
Lemma content_forget p B x d k :
  content p B [(d, k)] x →
  content (lfu_set_list (ll_set_dataMap (delete k (dataNodeMap (lfu_list p))) (lfu_list p)) p) B [] x.
Proof.
  intros H. pose proof H as [H1 H2 H3 H4 H5 H6 H7 H8 H9 H10].
  assert (Hd : dataNodeMap (lfu_list p) !! k = Some d) by (apply H8; left; by left).
  split; try done; simpl.
  - by intros ? ? ?%not_elem_of_nil.
  - by intros ? ? ? ? ?%not_elem_of_nil.
  - intros k' d'. rewrite lookup_delete_Some, H8. split.
    + intros [Hne [[= -> ->]%list_elem_of_singleton|Hin]]; [done|by right].
    + intros [?%not_elem_of_nil|(b & Hb & Hin)]; [done|]. split; [|eauto]. intros <-.
      assert (dataNodeMap (lfu_list p) !! k = Some d') by (apply H8; eauto). assert (d' = d) as -> by congruence.
      apply (H7 b d k Hb ltac:(by left)), elem_of_fst. eauto.
  - intros k' d' n [_ Hk']%lookup_delete_Some. by apply H10.
Qed.

(** Taking a file out of the lists: the common part of delete and of a round of
    the eviction, up to the bucket that lost it. *)
Lemma wp_unlist B1 b B2 l1 d k l2 p (Q : unit → policy → Prop) :
  lfu_ok p (B1 ++ b :: B2) → bk_nodes b = l1 ++ (d, k) :: l2 →
  (∀ p' fn, let b0 := mkBucket (bk_ptr b) (bk_freq b) (l1 ++ l2) in
     content p' (B1 ++ b0 :: B2) [] None → linked p' (B1 ++ b0 :: B2) → freqNodes p' !! bk_ptr b = Some fn →
     fn_frequency fn = bk_freq b → dl_size (fn_list fn) = Z.of_nat (length (l1 ++ l2)) → rest p p' →
     dataNodeMap (lfu_list p') = delete k (dataNodeMap (lfu_list p)) →
     (∀ q, data_payload <$> dataNodes p' !! q = data_payload <$> dataNodes p !! q) → Q tt p') →
  wp (_ ← dl_remove (bk_ptr b) d; on_list (λ l, ll_set_dataMap (delete k (dataNodeMap l)) l)) Q p.
Proof.
  intros (H & Hl & Hne) Hb HQ. apply wp_bind.
  eapply wp_remove_node; [eapply content_perm; [symmetry; apply Permutation_middle|exact H]|exact Hb|].
  intros p1 H1 Hop1. pose proof (linked_data_op _ _ _ Hop1 Hl) as Hl1. destruct Hop1 as (Hr1 & _ & _ & Hdm1 & _ & _ & Hpay1).
  apply wp_on_list. pose proof (content_forget _ _ _ _ _ H1) as H2.
  destruct (ct_bucket _ _ _ _ H2 _ ltac:(left)) as (fn & Hfn & Hff & _ & Hsz & _).
  eapply HQ; [eapply content_perm; [apply Permutation_middle|exact H2]| |exact Hfn|done|done| |by simpl; rewrite Hdm1|done].
  - unfold linked in *. rewrite fmap_app in *. exact Hl1.
  - etransitivity; [exact Hr1|]. by apply rest_on_list.
Qed.

Lemma freq_of_deleted p p' k :
  dataNodeMap (lfu_list p') = delete k (dataNodeMap (lfu_list p)) →
  (∀ q, data_payload <$> dataNodes p' !! q = data_payload <$> dataNodes p !! q) →
  freq_of p' k = None ∧ ∀ k', k' ≠ k → freq_of p' k' = freq_of p k'.
Proof.
  intros Hm Hpay. unfold freq_of. rewrite Hm. split; [by rewrite lookup_delete_eq|]. intros k' Hk'. rewrite lookup_delete_ne by done.
  destruct (dataNodeMap (lfu_list p) !! k') as [d|]; [|done]. simpl. specialize (Hpay d).
  destruct (dataNodes p' !! d), (dataNodes p !! d); try done. injection Hpay as _ Hf _. simpl. by rewrite Hf.
Qed.

Lemma chan_ok_rest p p' :
  rest p p' → (∀ k d, dataNodeMap (lfu_list p') !! k = Some d → is_Some (dataNodeMap (lfu_list p) !! k) ∨ path_ok p k) →
  chan_ok p → chan_ok p'.
Proof.
  intros (Hc & _ & Hf & _ & Hr & _ & Hl & _) Hm [H1 H2 H3 H4]. split; unfold path_ok in *.
  - by rewrite Hl.
  - by rewrite Hf, Hc.
  - intros k d Hk. rewrite Hc. destruct (Hm k d Hk) as [[d' Hd']|?]; [eauto|done].
  - rewrite Hr, Hc, Hl. done.
Qed.
Lemma path_ok_rest p p' k : rest p p' → path_ok p k → path_ok p' k.
Proof. intros (Hc & _). unfold path_ok. by rewrite Hc. Qed.

(** delete of a file, known or not. *)
Lemma safe_lfu_delete B k p (Q : unit → policy → Prop) :
  lfu_ok p B → chan_ok p →
  (∀ p' B', lfu_ok p' B' → chan_ok p' → (ordered B → ordered B') → lfu_config p' = lfu_config p →
     freq_of p' k = None → (∀ k', k' ≠ k → freq_of p' k' = freq_of p k') →
     cacheAge (lfu_list p') = default (cacheAge (lfu_list p)) (freq_of p k) →
     ll_cacheTimeout (lfu_list p') = ll_cacheTimeout (lfu_list p) → Q tt p') →
  safe (lfu_delete k) Q p.
Proof.
  intros Hok Hch HQ. unfold lfu_delete. apply safe_step, wp_the_list. destruct (dataNodeMap (lfu_list p) !! k) as [d|] eqn:Hk.
  2: { apply wp_safe, wp_ret. assert (Hf : freq_of p k = None) by (unfold freq_of; by rewrite Hk).
       rewrite Hf in HQ. by eapply HQ. }
  pose proof Hok as (H & Hl & Hne). destruct (content_find _ _ _ _ _ H Hk) as (B1 & b & B2 & l1 & l2 & -> & Hb & Hfr & Hd).
  destruct (ct_node _ _ _ _ H b d k) as (n & Hn & Hkey & Hf); [set_solver|rewrite Hb; set_solver|].
  assert (Hfm : freqNodeMap (lfu_list p) !! bk_freq b = Some (bk_ptr b)) by (apply (ct_fmap _ _ _ _ H); exists b; set_solver).
  apply safe_step. eapply wp_stop_timer; [exact H|exact Hk|by eauto|]. intros t. set (p0 := lfu_set_timers t (fired p) p).
  assert (H0 : lfu_ok p0 (B1 ++ b :: B2)) by (split; [by destruct H|done]).
  apply safe_step. eapply wp_load_data; [exact Hn|]. rewrite Hf, Hkey. unfold freq_node. rewrite Hfm. simpl.
  apply safe_step_assoc. eapply (wp_unlist B1 b B2 l1 d k l2); [exact H0|exact Hb|].
  intros p1 fn b0 H1 Hl1 Hfn Hff Hsz Hr1 Hm1 Hpay1. apply safe_step. eapply wp_load_freq; [exact Hfn|]. apply safe_step.
  eapply (wp_drop_empty B1 b0 B2); [exact H1|exact Hl1|intros c Hc; apply Hne; set_solver|exact Hfn|done|].
  intros p2 B' H2 HB' Hr2 Hd2 Hm2. assert (Hr : rest p p2) by (etransitivity; [exact Hr1|exact Hr2]).
  assert (Hch2 : chan_ok p2).
  { eapply chan_ok_rest; [exact Hr| |done]. rewrite Hm2, Hm1. intros k' d' [_ Hk']%lookup_delete_Some. left. eauto. }
  destruct (freq_of_deleted p p2 k) as [Hfk Hfo]; [by rewrite Hm2|by intros; rewrite Hd2|].
  apply safe_bind. apply safe_send_remove; [done| |].
  { eapply path_ok_rest; [exact Hr|]. by eapply ck_keys. }
  intros p3 Hs3 Hch3 Hw3. apply wp_safe, wp_on_list. pose proof (listed_same_lists _ _ _ _ Hs3 H2) as H3.
  pose proof Hs3 as (Hc3 & Hl3 & Hd3 & _). rewrite Hfr in HQ. simpl in HQ.
  eapply (HQ _ B'); simpl.
  - split_and!; [destruct H3 as [[] _]; by split|apply H3..].
  - destruct Hch3; by split.
  - intros Ho. eapply ordered_sublist; [|exact Ho]. destruct HB' as [[-> _]|[-> _]]; rewrite !fmap_app; [done|].
    apply sublist_app; [done|]. by constructor.
  - rewrite Hc3. apply Hr.
  - unfold freq_of in *. simpl. by rewrite Hl3, Hd3.
  - intros k' Hk'. rewrite <-(Hfo k' Hk'). unfold freq_of. simpl. by rewrite Hl3, Hd3.
  - done.
  - rewrite Hl3. apply Hr.
Qed.

(** *** Eviction *)
Lemma wp_usage path size_ p (Q : Q → policy → Prop) :
  (∀ u f, Q u (lfu_set_fs f p)) → wp (lfu_on_fs (getUsagePercentage path size_)) Q p.
Proof.
  intros HQ. apply wp_zoom. unfold getUsagePercentage. destruct (Qeq_bool size_ 0); apply wp_bind; unfold wp at 1.
  - destruct (GetDiskUsage_returns path (lfu_fs p)) as ([[a u] e] & f & ->). apply wp_ret, HQ.
  - destruct (GetUsage_returns path (lfu_fs p)) as (r & f & ->). apply wp_ret, HQ.
Qed.
Lemma same_lists_fs f p : same_lists p (lfu_set_fs f p).
Proof. done. Qed.
Lemma chan_ok_fs f p : chan_ok p → chan_ok (lfu_set_fs f p).
Proof. by intros []. Qed.
Lemma freq_of_same_lists p p' k : same_lists p p' → freq_of p' k = freq_of p k.
Proof. intros (_ & Hl & Hd & _). unfold freq_of. by rewrite Hl, Hd. Qed.

(** What an eviction of [V] does. *)
Record evicted p B (V : list string) p' B' : Prop := mkEvicted {
  ev_order : evict_order B = V ++ evict_order B';
  ev_ok : lfu_ok p' B';
  ev_chan : chan_ok p';
  ev_ordered : ordered B → ordered B';
  ev_config : lfu_config p' = lfu_config p;
  ev_age : cacheAge (lfu_list p') = cacheAge (lfu_list p);
  ev_timeout : ll_cacheTimeout (lfu_list p') = ll_cacheTimeout (lfu_list p);
  ev_map k : dataNodeMap (lfu_list p') !! k = if bool_decide (k ∈ V) then None else dataNodeMap (lfu_list p) !! k;
  ev_freq k : freq_of p' k = if bool_decide (k ∈ V) then None else freq_of p k;
  ev_waits : waits p p'
}.
Lemma evicted_nil p B : lfu_ok p B → chan_ok p → evicted p B [] p B.
Proof. intros H Hc. by split. Qed.
Lemma evicted_trans p B k V p1 B1 p2 B2 :
  evicted p B [k] p1 B1 → evicted p1 B1 V p2 B2 → evicted p B (k :: V) p2 B2.
Proof.
  intros [O1 _ _ S1 C1 A1 T1 M1 F1 W1] [O2 K2 H2 S2 C2 A2 T2 M2 F2 W2].
  split; [by rewrite O1, O2|done|done|auto|congruence|congruence|congruence| | |by etransitivity].
  - intros k'. rewrite M2, M1. repeat case_bool_decide; try done; set_solver.
  - intros k'. rewrite F2, F1. repeat case_bool_decide; try done; set_solver.
Qed.

(** One round: the first file of the first bucket. *)
Lemma safe_evict_one b B2 d k l2 usage p (Q : Q → policy → Prop) :
  lfu_ok p (b :: B2) → chan_ok p → bk_nodes b = (d, k) :: l2 →
  (∀ p' B' u, evicted p (b :: B2) [k] p' B' → Q u p') →
  safe (evict_one usage) Q p.
Proof.
  intros Hok Hch Hb HQ. pose proof Hok as (H & Hl & Hne). unfold evict_one. apply safe_step, wp_the_list.
  assert (Hfirst : ll_first (lfu_list p) = bk_ptr b) by apply Hl. rewrite Hfirst.
  destruct (ct_bucket _ _ _ _ H b ltac:(left)) as (fn & Hfn & _ & _ & Hsz & Hdl). rewrite Hb in Hsz, Hdl. simpl in Hdl.
  destruct (ct_node _ _ _ _ H b d k ltac:(left)) as (n & Hn & Hkey & _); [rewrite Hb; by left|].
  assert (Hdf : dl_first (fn_list fn) = d) by apply Hdl.
  apply safe_step. eapply wp_load_freq; [exact Hfn|]. rewrite Hdf. apply safe_step. eapply wp_load_data; [exact Hn|]. rewrite Hkey.
  assert (Hpop : dl_pop (bk_ptr b) p = dl_remove (bk_ptr b) d p).
  { unfold dl_pop, load_freq, mbind, go_bind. rewrite Hfn. simpl.
    rewrite (proj2 (Z.eqb_neq _ 0)) by (rewrite Hsz; simpl; lia). by rewrite Hdf. }
  apply safe_step_assoc. unfold wp, mbind, go_bind. rewrite Hpop.
  change (wp (_ ← dl_remove (bk_ptr b) d; on_list (λ l, ll_set_dataMap (delete k (dataNodeMap l)) l)) (λ _ p1,
    safe (fn ← load_freq (bk_ptr b);
        usage ← (if dl_size (fn_list fn) =? 0 then
                   _ ← deleteFrequency (fn_frequency fn);
                   _ ← on_list (λ l, ll_set_size (u64 (ll_size l - 1)) l);
                   lfu_on_fs (getUsagePercentage (ll_cachePath (lfu_list p)) (ll_maxSizeMB (lfu_list p)))
                 else mret usage);
        _ ← send_remove k;
        mret usage) Q p1) p).
  eapply (wp_unlist [] b B2 [] d k l2); [exact Hok|exact Hb|]. clear Hpop Hsz fn Hfn Hdl Hdf.
  intros p1 fn b0 H1 Hl1 Hfn Hff Hsz Hr1 Hm1 Hpay1. apply safe_step. eapply wp_load_freq; [exact Hfn|]. rewrite Hff.
  destruct (freq_of_deleted p p1 k Hm1 Hpay1) as [Hfk Hfo].
  (* the send, after the bucket was dropped or not *)
  assert (Hsend : ∀ p2 B' u, listed p2 B' None → rest p1 p2 → dataNodes p2 = dataNodes p1 →
    dataNodeMap (lfu_list p2) = dataNodeMap (lfu_list p1) → k :: evict_order B' = evict_order (b :: B2) →
    sublist (bk_freq <$> B') (bk_freq <$> b :: B2) →
    ∀ f, safe (_ ← send_remove k; mret u) Q (lfu_set_fs f p2)).
  { intros p2 B' u H2 Hr2 Hd2 Hm2 Ho2 Hs2 f. assert (Hr : rest p p2) by (by etransitivity).
    assert (Hch2 : chan_ok p2).
    { eapply chan_ok_rest; [exact Hr| |done]. rewrite Hm2, Hm1. intros k' d' [_ Hk']%lookup_delete_Some. left. eauto. }
    apply safe_bind, safe_send_remove; [by apply chan_ok_fs| |].
    { apply (path_ok_rest p p2 k Hr). eapply ck_keys; [done|]. apply (ct_map _ _ _ _ H). right. exists b. split; [by left|]. rewrite Hb. by left. }
    intros p3 Hs3 Hch3 Hw3. apply wp_safe, wp_ret, (HQ p3 B').
    assert (Hs3' : same_lists p2 p3) by exact Hs3. pose proof Hs3' as (Hc3 & Hl3 & _). split.
    - done.
    - by eapply listed_same_lists.
    - done.
    - intros Ho. by eapply ordered_sublist.
    - rewrite Hc3. apply Hr.
    - rewrite Hl3. apply Hr.
    - rewrite Hl3. apply Hr.
    - intros k'. rewrite Hl3, Hm2, Hm1. case_bool_decide as Hin; [apply list_elem_of_singleton in Hin as ->; by rewrite lookup_delete_eq|].
      rewrite lookup_delete_ne; [done|]. set_solver.
    - intros k'. rewrite (freq_of_same_lists p2 p3) by done. transitivity (freq_of p1 k'); [unfold freq_of; by rewrite Hm2, Hd2|].
      case_bool_decide as Hin; [by apply list_elem_of_singleton in Hin as ->|]. apply Hfo. set_solver.
    - etransitivity; [by apply waits_rest|exact Hw3]. }
  rewrite Hsz. destruct l2 as [|e l2]; simpl.
  - apply safe_step, wp_bind. change (bk_freq b) with (bk_freq b0).
    eapply (wp_deleteFrequency [] b0 B2); [exact H1|exact Hl1|done|]. intros p2 H2 Hl2 Hr2 Hd2 Hm2.
    apply wp_bind, wp_on_list, wp_usage. intros u f. apply (Hsend (lfu_set_list _ p2) B2); try done.
    + split_and!; [by apply content_set_size|done|intros c Hc; apply Hne; by right].
    + unfold evict_order. rewrite bind_cons, Hb. done.
    + simpl. by constructor.
  - apply safe_step, wp_ret. replace p1 with (lfu_set_fs (lfu_fs p1) p1) by (by destruct p1).
    apply (Hsend p1 (b0 :: B2)); try done.
    + split_and!; [exact H1|exact Hl1|]. intros c [->|Hc]%elem_of_cons; [done|]. apply Hne. by right.
    + unfold evict_order. rewrite !bind_cons, Hb. done.
Qed.

Lemma safe_evict_files fuel usage B p :
  lfu_ok p B → chan_ok p → (length (evict_order B) ≤ fuel)%nat →
  safe (evict_files fuel usage) (λ _ p', ∃ V B', evicted p B V p' B') p.
Proof.
  revert usage B p. induction fuel as [|fuel IH]; intros usage B p Hok Hch Hlen.
  - simpl. apply safe_step, wp_the_list. assert (B = []) as ->.
    { destruct B as [|b B]; [done|]. exfalso. destruct Hok as (_ & _ & Hne). apply (Hne b ltac:(by left)).
      unfold evict_order in Hlen. rewrite bind_cons, length_app, length_fmap in Hlen. apply nil_length_inv. lia. }
    rewrite (bool_decide_true (ll_first _ = _)), orb_true_r by apply Hok. apply wp_safe, wp_ret. exists [], []. by apply evicted_nil.
  - simpl. apply safe_step, wp_the_list. destruct (_ || _) eqn:Hstop; [apply wp_safe, wp_ret; exists [], B; by apply evicted_nil|].
    apply orb_false_iff in Hstop as [_ Hfirst%bool_decide_eq_false].
    destruct B as [|b B2]; [destruct Hok as (_ & Hl & _); exfalso; apply Hfirst, Hl|].
    assert (∃ d k l2, bk_nodes b = (d, k) :: l2) as (d & k & l2 & Hb).
    { destruct Hok as (_ & _ & Hne). specialize (Hne b ltac:(by left)). destruct (bk_nodes b) as [|[d k] l2]; [done|eauto]. }
    apply safe_bind, (safe_evict_one b B2 d k l2); [done..|]. intros p1 B' u He.
    eapply safe_mono; [eapply (IH u B' p1); [apply He|apply He|]|].
    + pose proof (ev_order _ _ _ _ _ He) as Ho. rewrite Ho in Hlen. simpl in Hlen. lia.
    + intros [] p2 (V & B2' & He2). exists (k :: V), B2'. by eapply evicted_trans.
Qed.

(** *** put of a new file *)
Lemma content_new_data p B k :
  content p B [] None → dataNodeMap (lfu_list p) !! k = None →
  let d := fresh_ptr (dataNodes p) in
  content (lfu_set_list (ll_set_dataMap (<[k:=d]> (dataNodeMap (lfu_list p))) (lfu_list p))
    (lfu_set_dataNodes (<[d:=newDataNode k]> (dataNodes p)) p)) B [(d, k)] (Some k).
Proof.
  intros [H1 H2 H3 H4 H5 H6 H7 H8 H9 H10] Hk d. assert (Hd : dataNodes p !! d = None) by apply fresh_ptr_lookup.
  assert (Hne : ∀ b d', b ∈ B → d' ∈ (bk_nodes b).*1 → d' ≠ d).
  { intros b d' Hb [k' Hin]%elem_of_fst ->. destruct (H5 _ _ _ Hb Hin) as (n & Hn & _). congruence. }
  split; try done; simpl.
  - intros b Hb. destruct (H4 b Hb) as (fn & Hfn & Hf & Hlen & Hsz & Hl). exists fn. split; [done|]. split_and!; try done.
    apply dlist_insert_ne; [|done]. intros Hin. by apply (Hne b d Hb).
  - intros b d' k' Hb Hin. rewrite lookup_insert_ne; [by eapply H5|]. symmetry. eapply Hne; [done|]. apply elem_of_fst. eauto.
  - intros d' k' [= -> ->]%list_elem_of_singleton. split; [apply fresh_ptr_nil|]. exists (newDataNode k).
    by rewrite lookup_insert_eq.
  - intros b d' k' Hb [= -> ->]%list_elem_of_singleton Hin. by apply (Hne b d Hb).
  - intros k' d'. rewrite lookup_insert_Some, H8. split.
    + intros [[<- <-]|[_ [?%not_elem_of_nil|Hin]]]; [left; by left|done|by right].
    + intros [[= -> ->]%list_elem_of_singleton|(b & Hb & Hin)]; [by left|]. right. split; [|eauto].
      intros <-. assert (dataNodeMap (lfu_list p) !! k = Some d') by (apply H8; eauto). congruence.
  - intros k' d' n [[<- <-]|[_ Hk']]%lookup_insert_Some Hn Hto Hx; [done|]. rewrite lookup_insert_ne in Hn; [by eapply H10|].
    intros <-. apply H8 in Hk' as [?%not_elem_of_nil|(b & Hb & Hin)]; [done|]. eapply Hne; [done|apply elem_of_fst; eauto|done].
Qed.

(** The bucket of frequency 1 is made with the new file in it and linked behind
    the first bucket. *)
Lemma wp_addFrequency_first n B D x p (Q : unit → policy → Prop) :
  content p (n :: B) D x → linked p B → (∃ fq, freqNodes p !! bk_ptr n = Some fq ∧ freq_links fq = (nil_ptr, nil_ptr)) →
  (∀ p' B', content p' B' D x → linked p' B' → B' ≡ₚ n :: B → (ordered B → ordered B') →
     freq_op p p' → Q tt p') →
  wp (addFrequency (bk_freq n) (bk_ptr n) nil_ptr) Q p.
Proof.
  intros H Hl (fq & Hfq & Hlk) HQ. pose proof (ct_ptrs _ _ _ _ H) as [Hnp _]%NoDup_cons. pose proof (ct_freqs _ _ _ _ H) as [Hnf _]%NoDup_cons.
  assert (Hnil : bk_ptr n ≠ nil_ptr) by (pose proof (ct_nil _ _ _ _ H); set_solver).
  assert (Hkeep : ∀ p' B', freq_op p p' → B' ≡ₚ n :: B →
    freqNodeMap (lfu_list p') = <[bk_freq n := bk_ptr n]> (freqNodeMap (lfu_list p)) → content p' B' D x).
  { intros p' B' Hop HP Hfm. eapply content_perm; [symmetry; exact HP|]. pose proof Hop as (Hr & Hd & Hm & _).
    eapply content_refreq; [exact H|done|done|apply Hr|apply H|apply H|apply H|intros c Hc; by eapply bucket_ok_freq_op|done|].
    intros f q. rewrite <-(ct_fmap _ _ _ _ H), Hfm, insert_id; [done|]. apply (ct_fmap _ _ _ _ H). exists n. set_solver. }
  destruct B as [|b B].
  - unfold addFrequency. apply wp_bind, wp_the_list.
    assert (Hend : ll_first (lfu_list p) = nil_ptr ∧ ll_last (lfu_list p) = nil_ptr) by (by destruct Hl as (_ & ? & ? & _)).
    rewrite decide_True by done. apply wp_bind, wp_on_list, wp_on_list. apply (HQ _ [n]); try done.
    + by apply Hkeep.
    + unfold linked. simpl. injection Hlk as H1 H2. by eapply dlist_single.
  - eapply (wp_addFrequency None n fq [] b B); [exact Hl|done|done|done|done|done| |].
    + intros c Hc. destruct (ct_bucket _ _ _ _ H c ltac:(set_solver)) as (fn & -> & Hfn & _). simpl. by rewrite Hfn.
    + intros p' Hop Hl' Hfm. assert (HP : b :: freq_insert n B ≡ₚ n :: b :: B) by (rewrite freq_insert_perm; apply Permutation_swap).
      apply (HQ p' (b :: freq_insert n B)); try done; [by apply Hkeep|]. intros Ho. by apply (ordered_insert []).
Qed.

Lemma wp_enter_new B d k x p (Q : unit → policy → Prop) :
  content p B [(d, k)] x → linked p B → freqNodeMap (lfu_list p) !! 1 = None → dn_frequency <$> dataNodes p !! d = Some 1 →
  (∀ p' n B', content p' B' [] x → linked p' B' → B' ≡ₚ n :: B → bk_nodes n = [(d, k)] → (ordered B → ordered B') →
     rest p p' → dataNodeMap (lfu_list p') = dataNodeMap (lfu_list p) →
     (∀ q, data_payload <$> dataNodes p' !! q = data_payload <$> dataNodes p !! q) → Q tt p') →
  wp (freqNode ← new_freq (newFrequencyNode 1);
      _ ← on_list (λ l, ll_set_freqMap (<[1 := freqNode]> (freqNodeMap l)) l);
      _ ← dl_push freqNode d;
      addFrequency 1 freqNode nil_ptr) Q p.
Proof.
  intros H Hl Hq Hfr HQ. apply wp_bind. set (q := fresh_ptr (freqNodes p)). unfold wp at 1, new_freq. set (p1 := lfu_set_freqNodes _ p).
  assert (H1 : content p1 B [(d, k)] x) by (by apply content_new_freq).
  assert (Hl1 : linked p1 B) by (by apply linked_new_freq).
  assert (Hq1 : freqNodes p1 !! q = Some (newFrequencyNode 1)) by (simpl; by rewrite lookup_insert_eq).
  assert (Hqn : q ∉ bk_ptr <$> B).
  { intros (c & Hqc & Hc)%list_elem_of_fmap. destruct (ct_bucket _ _ _ _ H c Hc) as (fn & Hfn & _).
    rewrite <-Hqc in Hfn. unfold q in Hfn. by rewrite fresh_ptr_lookup in Hfn. }
  assert (Hnf : 1 ∉ bk_freq <$> B).
  { intros (c & Heq & Hc)%list_elem_of_fmap.
    assert (freqNodeMap (lfu_list p) !! 1 = Some (bk_ptr c)) by (apply (ct_fmap _ _ _ _ H); eauto). congruence. }
  apply wp_bind, wp_on_list. set (p2 := lfu_set_list _ p1). set (n := mkBucket q 1 []).
  assert (H2 : content p2 (n :: B) [(d, k)] x).
  { eapply (content_add_freq p1); [exact H1|by split_and!|exact Hq1|apply fresh_ptr_nil|done|done|done|done]. }
  assert (Hr2 : rest p p2) by (by split_and!).
  apply wp_bind. change (fresh_ptr (freqNodes p)) with (bk_ptr n).
  eapply wp_push_data; [exact H2|apply not_elem_of_nil|exact Hfr|simpl; lia|].
  intros p3 H3 Hop3. pose proof (linked_data_op _ _ _ Hop3 (Hl1 : linked p2 B)) as Hl3.
  destruct Hop3 as (Hr3 & _ & _ & Hm3 & _ & Hlk3 & Hpay3). set (n' := mkBucket _ _ _) in H3.
  change (wp (addFrequency (bk_freq n') (bk_ptr n') nil_ptr) Q p3).
  eapply wp_addFrequency_first; [exact H3|exact Hl3| |].
  { specialize (Hlk3 q). simpl in Hlk3. rewrite lookup_insert_eq in Hlk3. simpl in *. destruct (freqNodes p3 !! q) as [fq|]; [|done].
    injection Hlk3 as Hx Hp. exists fq. split; [done|]. unfold freq_links. by rewrite Hx, Hp. }
  intros p4 B' H4 Hl4 HP Ho (Hr4 & Hd4 & Hm4 & _). apply (HQ p4 n' B'); try done.
  - etransitivity; [exact Hr2|]. by etransitivity.
  - by rewrite Hm4, Hm3.
  - intros y. by rewrite Hd4, Hpay3.
Qed.

(** The new file enters the bucket of frequency 1, made behind the first. *)
Lemma wp_enter B k p (Q : unit → policy → Prop) :
  lfu_ok p B → dataNodeMap (lfu_list p) !! k = None → small p →
  (∀ p' B', lfu_ok p' B' → (ordered B → ordered B') → rest p p' → is_Some (dataNodeMap (lfu_list p') !! k) →
     freq_of p' k = Some 1 → (∀ k', k' ≠ k → dataNodeMap (lfu_list p') !! k' = dataNodeMap (lfu_list p) !! k') →
     (∀ k', k' ≠ k → freq_of p' k' = freq_of p k') → Q tt p') →
  wp (newNode ← new_data (newDataNode k);
      _ ← on_list (λ l, ll_set_dataMap (<[k := newNode]> (dataNodeMap l)) l);
      l ← the_list;
      _ ← match freqNodeMap l !! 1 with
          | Some freqNode => dl_push freqNode newNode
          | None =>
              freqNode ← new_freq (newFrequencyNode 1);
              _ ← on_list (λ l, ll_set_freqMap (<[1 := freqNode]> (freqNodeMap l)) l);
              _ ← dl_push freqNode newNode;
              addFrequency 1 freqNode nil_ptr
          end;
      setTimerIfValid newNode) Q p.
Proof.
  intros (H & Hl & Hne) Hk Hsm HQ. apply wp_bind. unfold wp at 1, new_data. set (d := fresh_ptr (dataNodes p)).
  apply wp_bind, wp_on_list. set (p1 := lfu_set_list _ _). pose proof (content_new_data p B k H Hk) as H1. fold d in H1. fold p1 in H1.
  assert (Hl1 : linked p1 B) by exact Hl. assert (Hr1 : rest p p1) by (split_and!; done).
  assert (Hsm1 : Z.of_nat (size (dataNodeMap (lfu_list p1))) + 1 < 2 ^ 64).
  { unfold small in Hsm. simpl. rewrite map_size_insert_None by done. lia. }
  assert (Hk1 : dataNodeMap (lfu_list p1) !! k = Some d) by (simpl; by rewrite lookup_insert_eq).
  assert (Hd1 : dataNodes p1 !! d = Some (newDataNode k)) by (simpl; by rewrite lookup_insert_eq).
  assert (Hfin : ∀ p2 B', listed p2 B' (Some k) → (ordered B → ordered B') → rest p1 p2 →
    dataNodeMap (lfu_list p2) = dataNodeMap (lfu_list p1) →
    (∀ q, data_payload <$> dataNodes p2 !! q = data_payload <$> dataNodes p1 !! q) → wp (setTimerIfValid d) Q p2).
  { intros p2 B' H2 Ho2 Hr2 Hm2 Hpay2. assert (∃ n2, dataNodes p2 !! d = Some n2 ∧ dn_frequency n2 = 1) as (n2 & Hn2 & Hf2).
    { specialize (Hpay2 d). rewrite Hd1 in Hpay2. destruct (dataNodes p2 !! d) as [n2|]; [|done]. injection Hpay2 as _ Hf _. eauto. }
    eapply wp_setTimerIfValid; [exact H2|by right|by rewrite Hm2|exact Hn2|]. intros p3 H3 Hr3 Hm3 Hf3.
    assert (Hmap : ∀ k', k' ≠ k → dataNodeMap (lfu_list p3) !! k' = dataNodeMap (lfu_list p) !! k').
    { intros k' Hk'. rewrite Hm3, Hm2. simpl. by rewrite lookup_insert_ne. }
    eapply HQ; [exact H3|exact Ho2| |by rewrite Hm3, Hm2, Hk1| |exact Hmap|].
    - etransitivity; [exact Hr1|]. by etransitivity.
    - unfold freq_of. rewrite Hm3, Hm2, Hk1. simpl. by rewrite Hf3, Hn2, <-Hf2.
    - intros k' Hk'. unfold freq_of. rewrite Hmap by done. destruct (dataNodeMap (lfu_list p) !! k') as [d'|] eqn:E; [|done]. simpl.
      rewrite Hf3. assert (Hne' : d' ≠ d).
      { intros ->. apply (ct_map _ _ _ _ H) in E as [?%not_elem_of_nil|(b & Hb & Hin)]; [done|].
        destruct (ct_node _ _ _ _ H _ _ _ Hb Hin) as (n & Hn & _). unfold d in Hn. by rewrite fresh_ptr_lookup in Hn. }
      specialize (Hpay2 d'). simpl in Hpay2. rewrite lookup_insert_ne in Hpay2 by done.
      destruct (dataNodes p2 !! d'), (dataNodes p !! d'); try done. injection Hpay2 as _ Hf _. simpl. by rewrite Hf. }
  apply wp_bind, wp_the_list, wp_bind. destruct (freqNodeMap (lfu_list p1) !! 1) as [q|] eqn:Hq.
  { eapply wp_push_join; [exact H1|done|by rewrite Hd1|exact Hq|]. intros p2 H2 Hop2.
    pose proof (linked_data_op _ _ _ Hop2 Hl1) as Hl2. destruct Hop2 as (Hr2 & _ & _ & Hm2 & _ & _ & Hpay2).
    apply (Hfin p2 (join 1 (d, k) B)); try done.
    - split_and!; [done|by rewrite linked_join|]. intros c (c0 & -> & Hc0)%list_elem_of_fmap.
      destruct (_ =? _); [simpl; by destruct (bk_nodes c0)|by apply Hne].
    - unfold ordered. by rewrite join_freqs. }
  eapply wp_enter_new; [exact H1|exact Hl1|exact Hq|by rewrite Hd1|]. intros p2 n B' H2 Hl2 HP Hn Ho Hr2 Hm2 Hpay2.
  apply (Hfin p2 B'); try done. split_and!; [done..|]. intros c. rewrite HP. intros [->|Hc]%elem_of_cons; [by rewrite Hn|by apply Hne].
Qed.

(** *** The operations of the policy *)

(** What put does: a known file is counted; a new one enters with frequency 1,
    after the files [V] were evicted. *)
Record put_post p B k p' B' (V : list string) : Prop := mkPutPost {
  pp_ok : lfu_ok p' B';
  pp_chan : chan_ok p';
  pp_ordered : ordered B → (is_Some (freq_of p k) → default 0 (freq_of p k) < promoted p k) → ordered B';
  pp_order : V `prefix_of` evict_order B;
  pp_known : is_Some (freq_of p k) → V = [];
  pp_freq : freq_of p' k = Some (if freq_of p k is Some _ then promoted p k else 1);
  pp_other k' : k' ≠ k → freq_of p' k' = if bool_decide (k' ∈ V) then None else freq_of p k';
  pp_config : lfu_config p' = lfu_config p;
  pp_timeout : ll_cacheTimeout (lfu_list p') = ll_cacheTimeout (lfu_list p);
  pp_waits : waits p p'
}.

Lemma freq_of_known p B x k : content p B [] x → is_Some (freq_of p k) ↔ is_Some (dataNodeMap (lfu_list p) !! k).
Proof.
  intros H. split.
  - intros [f Hf]. unfold freq_of in Hf. destruct (dataNodeMap (lfu_list p) !! k); [eauto|done].
  - intros [d Hd]. destruct (content_find _ _ _ _ _ H Hd) as (? & ? & ? & ? & ? & _ & _ & -> & _). eauto.
Qed.

Lemma safe_lfu_put B k p :
  lfu_ok p B → chan_ok p → path_ok p k → small p →
  safe (lfu_put k) (λ _ p', ∃ B' V, put_post p B k p' B' V) p.
Proof.
  intros Hok Hch Hpath Hsm. unfold lfu_put. apply safe_step, wp_the_list.
  pose proof (freq_of_known p B None k (proj1 Hok)) as Hkn.
  destruct (dataNodeMap (lfu_list p) !! k) as [d|] eqn:Hk.
  - apply wp_safe. eapply wp_touch_file; [exact Hok|exact Hk|exact Hsm|]. intros p' B' Hok' Ho Hr Hm Hf Hother.
    destruct (proj2 Hkn ltac:(eauto)) as [f Hfk]. exists B', []. split; try done.
    + eapply chan_ok_rest; [exact Hr| |done]. rewrite Hm. eauto.
    + intros Hord Hlt. apply Ho; [done|]. apply Hlt. rewrite Hfk. eauto.
    + apply prefix_nil.
    + by rewrite Hf, Hfk.
    + apply Hr.
    + apply Hr.
    + by apply waits_rest.
  - assert (Hnone : freq_of p k = None) by (unfold freq_of; by rewrite Hk).
    apply safe_step, wp_usage. intros u f. set (p0 := lfu_set_fs f p).
    assert (H0 : lfu_ok p0 B) by (by eapply listed_same_lists; [apply same_lists_fs|]).
    assert (Hev : safe (if Qlt_bool (ll_upperThresh (lfu_list p)) u then evict_files (size (dataNodeMap (lfu_list p))) u else mret tt)
      (λ _ p1, ∃ V B1, evicted p0 B V p1 B1) p0).
    { destruct (Qlt_bool _ _).
      - apply safe_evict_files; [done|by apply chan_ok_fs|]. eapply content_size. apply Hok.
      - apply wp_safe, wp_ret. exists [], B. apply evicted_nil; [done|by apply chan_ok_fs]. }
    apply safe_bind. eapply safe_mono; [exact Hev|]. clear Hev. intros [] p1 (V & B1 & He). apply wp_safe.
    assert (Hk1 : dataNodeMap (lfu_list p1) !! k = None).
    { rewrite (ev_map _ _ _ _ _ He). case_bool_decide; done. }
    assert (Hsm1 : small p1).
    { unfold small in *. assert (dataNodeMap (lfu_list p1) ⊆ dataNodeMap (lfu_list p)) as Hsub%map_subseteq_size; [|lia].
      apply map_subseteq_spec. intros k' d'. rewrite (ev_map _ _ _ _ _ He). by case_bool_decide. }
    eapply wp_enter; [apply He|exact Hk1|exact Hsm1|]. intros p2 B2 Hok2 Ho2 Hr2 _ Hf2 Hm2 Hfo2. exists B2, V. split.
    + done.
    + eapply chan_ok_rest; [exact Hr2| |apply He]. intros k' d' Hk'. destruct (decide (k' = k)) as [->|Hne].
      * right. unfold path_ok. rewrite (ev_config _ _ _ _ _ He). exact Hpath.
      * left. rewrite Hm2 in Hk' by done. eauto.
    + intros Ho _. by apply Ho2, He.
    + eexists. apply He.
    + rewrite Hnone. by intros [? ?].
    + by rewrite Hf2, Hnone.
    + intros k' Hk'. rewrite Hfo2 by done. apply (ev_freq _ _ _ _ _ He).
    + transitivity (lfu_config p1); [apply Hr2|apply He].
    + transitivity (ll_cacheTimeout (lfu_list p1)); [apply Hr2|apply He].
    + etransitivity; [apply (ev_waits _ _ _ _ _ He)|by apply waits_rest].
Qed.

(** IsCached answers whether the file is known, and counts as a use of it. *)
Lemma wp_lfu_IsCached B k p :
  lfu_ok p B → chan_ok p → small p →
  wp (lfu_IsCached k) (λ r p', r = bool_decide (is_Some (freq_of p k)) ∧
    ∃ B', lfu_ok p' B' ∧ chan_ok p' ∧ (ordered B → (is_Some (freq_of p k) → default 0 (freq_of p k) < promoted p k) → ordered B') ∧
      freq_of p' k = (if freq_of p k is Some _ then Some (promoted p k) else None) ∧
      ∀ k', k' ≠ k → freq_of p' k' = freq_of p k') p.
Proof.
  intros Hok Hch Hsm. pose proof (freq_of_known p B None k (proj1 Hok)) as Hkn.
  unfold lfu_IsCached, lfu_get. apply wp_bind, wp_bind, wp_the_list. destruct (dataNodeMap (lfu_list p) !! k) as [d|] eqn:Hk.
  - destruct (content_find _ _ _ _ _ (proj1 Hok) Hk) as (_ & b & _ & _ & _ & _ & _ & Hfk & Hd).
    set (m := (_ ← stop_timer d; _ ← promote d; setTimerIfValid d) : go policy unit).
    assert (Heq : (_ ← stop_timer d; _ ← promote d; _ ← setTimerIfValid d; mret d) p = (_ ← m; mret d) p).
    { unfold m, mbind, go_bind. destruct (stop_timer d p) as [[[] p1]| |]; [|done..]. by destruct (promote d p1) as [[[] p2]| |]. }
    unfold wp. rewrite Heq. clear Heq. change (wp (_ ← m; mret d) (λ r, wp (mret (bool_decide (r ≠ nil_ptr))) (λ r p', r = bool_decide (is_Some (freq_of p k)) ∧
      ∃ B', lfu_ok p' B' ∧ chan_ok p' ∧ (ordered B → (is_Some (freq_of p k) → default 0 (freq_of p k) < promoted p k) → ordered B') ∧
      freq_of p' k = (if freq_of p k is Some _ then Some (promoted p k) else None) ∧ ∀ k', k' ≠ k → freq_of p' k' = freq_of p k')) p).
    apply wp_bind. unfold m. eapply wp_touch_file; [exact Hok|exact Hk|exact Hsm|]. intros p' B' Hok' Ho Hr Hm Hf Hother.
    apply wp_ret, wp_ret. rewrite Hfk in *. split; [rewrite !bool_decide_true; [done|eauto|done]|].
    exists B'. split_and!; try done; [eapply chan_ok_rest; [exact Hr| |done]; rewrite Hm; eauto|].
    intros Hord Hlt. apply Ho; [done|]. apply Hlt. eauto.
  - assert (Hnone : freq_of p k = None) by (unfold freq_of; by rewrite Hk). apply wp_ret, wp_ret. rewrite Hnone.
    split; [done|]. by exists B.
Qed.

(** An operation of a caller, a step of the goroutine or of a timer. *)
Inductive lfu_op :=
  | OpCacheValid (nm : string) | OpIsCached (nm : string) | OpCachePurge (nm : string) | OpCacheInvalidate (nm : string)
  | OpReceive | OpResume | OpClose | OpExpire (t : nat) | OpTimer
  | OpStart | OpShutdown | OpUpdateConfig (c : cachePolicyConfig).
Definition lfu_run (op : lfu_op) : go policy unit :=
  match op with
  | OpCacheValid nm => lfu_CacheValid nm
  | OpIsCached nm => _ ← lfu_IsCached nm; mret tt
  | OpCachePurge nm => lfu_CachePurge nm
  | OpCacheInvalidate nm => lfu_CacheInvalidate nm
  | OpReceive => clearCache_receive
  | OpResume => receiver_resume
  | OpClose => clearCache_close
  | OpExpire t => timer_expires t
  | OpTimer => timer_runs
  | OpStart => _ ← lfu_StartPolicy; mret tt
  | OpShutdown => _ ← lfu_ShutdownPolicy; mret tt
  | OpUpdateConfig c => _ ← lfu_UpdateConfig c; mret tt
  end.
(** Names are those of files below the cache directory; the policy is started
    while the goroutine does not run; an UpdateConfig that switches the timeout on
    is excluded: it makes the next use of a known file panic
    (timeout_switched_on_panics below). *)
Definition lfu_allowed (op : lfu_op) p : Prop :=
  match op with
  | OpCacheValid nm | OpIsCached nm | OpCachePurge nm | OpCacheInvalidate nm => path_ok p nm ∧ small p
  | OpResume => small p
  | OpStart => receiver p = Stopped
  | OpUpdateConfig c => 0 < cacheTimeout c → 0 < ll_cacheTimeout (lfu_list p)
  | _ => True
  end.
(** No frequency wraps around in the next use. *)
Definition bounded p : Prop :=
  0 ≤ cacheAge (lfu_list p) ∧ ∀ k f, freq_of p k = Some f → 0 ≤ f ∧ f + 1 + cacheAge (lfu_list p) < 2 ^ 64.
Lemma bounded_promoted p k : bounded p → is_Some (freq_of p k) → default 0 (freq_of p k) < promoted p k.
Proof.
  intros [Ha Hb] [f Hf]. unfold promoted. rewrite Hf. change (default 0 (Some f)) with f. destruct (Hb _ _ Hf).
  rewrite (u64_small (1 + _)) by lia. rewrite u64_small by lia. lia.
Qed.

Definition inv_next p B p' : Prop := ∃ B', lfu_ok p' B' ∧ chan_ok p' ∧ (ordered B → bounded p → ordered B').
Lemma inv_next_same p B p' : lfu_ok p B → same_lists p p' → chan_ok p' → inv_next p B p'.
Proof. intros Hok Hs Hc. exists B. split; [by eapply listed_same_lists|done]. Qed.

Lemma safe_purge B k p : lfu_ok p B → chan_ok p → path_ok p k → safe (lfu_CachePurge k) (λ _, inv_next p B) p.
Proof.
  intros Hok Hch Hp. unfold lfu_CachePurge. apply safe_bind. eapply safe_lfu_delete; [done..|].
  intros p1 B1 H1 Hc1 Ho1 Hcf _ _ _ _. apply safe_send_remove; [done|unfold path_ok; by rewrite Hcf|].
  intros p2 Hs2 Hc2 _. exists B1. split; [by eapply listed_same_lists|]. auto.
Qed.

Lemma safe_put_inv B k p : lfu_ok p B → chan_ok p → path_ok p k → small p → safe (lfu_put k) (λ _, inv_next p B) p.
Proof.
  intros Hok Hch Hp Hsm. eapply safe_mono; [by apply safe_lfu_put|]. intros [] p' (B' & V & H). exists B'. split; [apply H|].
  split; [apply H|]. intros Ho Hb. apply H; [done|]. intros Hk. by apply bounded_promoted.
Qed.

Lemma wp_unlock_held l q : locks_ok l → holds l (Some q) → wp (lm_Unlock q) (λ _ l', locks_ok l') l.
Proof.
  intros Hl Hh. unfold lm_Unlock, set_exLocked, mutex_unlock, load_item, store_item, wp, mbind, go_bind. simpl in Hh.
  destruct (items l !! q) as [i|] eqn:Hi; [|done]. injection Hh as Hm. simpl. rewrite lookup_insert_eq. simpl. rewrite Hm. simpl.
  intros nm y Hy. simpl in *. destruct (decide (q = y)) as [<-|].
  - rewrite lookup_insert_eq. by eexists.
  - rewrite !lookup_insert_ne by done. by eapply Hl.
Qed.
Lemma listed_timers p B x t f : listed p B x → listed (lfu_set_timers t f p) B x.
Proof. intros ([] & Hl & Hne). by split_and!. Qed.

Lemma safe_lfu_run op B p :
  lfu_ok p B → chan_ok p → lfu_allowed op p → safe (lfu_run op) (λ _, inv_next p B) p.
Proof.
  intros Hok Hch Hal. destruct op as [nm|nm|nm|nm| | | |t| | | |c]; simpl in *.
  - destruct Hal. by apply safe_put_inv.
  - destruct Hal as [Hp Hsm]. apply safe_step. eapply wp_mono; [by apply wp_lfu_IsCached|].
    intros r p' (_ & B' & H1 & H2 & Ho & _). apply wp_safe, wp_ret. exists B'. split_and!; [done..|]. intros Hord Hb.
    apply Ho; [done|]. intros Hk. by apply bounded_promoted.
  - destruct Hal. by apply safe_purge.
  - destruct Hal. unfold lfu_CacheInvalidate. apply safe_step. unfold go_gets, wp. destruct (_ =? _); [by apply safe_purge|].
    apply wp_safe, wp_ret. by apply inv_next_same.
  - unfold clearCache_receive. apply safe_step. unfold go_get, wp. destruct (receiver p), (removeFiles p); try exact I.
    apply wp_safe. eapply wp_mono; [by apply wp_receiver_round|]. intros [] p' (Hs & Hc & _). by apply inv_next_same.
  - unfold receiver_resume. apply safe_step. unfold go_get, wp. destruct (receiver p) as [|path held|] eqn:Hr; try exact I.
    destruct (ck_wait _ Hch _ _ Hr) as [Hp Hh]. apply safe_bind.
    eapply safe_mono; [by apply safe_lfu_put|]. intros [] p1 (B1 & V & H1). destruct (pp_waits _ _ _ _ _ _ H1 _ _ Hr) as [Hr1 Hl1].
    assert (Hun : wp (match held with Some flock => lfu_on_locks (lm_Unlock flock) | None => mret tt end)
      (λ _ p2, same_lists p1 p2 ∧ removeFiles p2 = removeFiles p1 ∧ locks_ok (lfu_fileLocks p2)) p1).
    { destruct held as [q|]; [|apply wp_ret; split_and!; [done..|apply H1]]. apply wp_zoom. rewrite Hl1.
      eapply wp_mono; [apply wp_unlock_held; [apply Hch|exact Hh]|]. by intros [] l2 Hl2. }
    apply safe_step. eapply wp_mono; [exact Hun|]. clear Hun. intros [] p2 (Hs2 & Hf2 & Hl2). apply wp_safe.
    unfold go_modify, wp. exists B1. assert (Hs : same_lists p1 (lfu_set_channel (removeFiles p2) Receiving p2)) by exact Hs2.
    split_and!; [eapply listed_same_lists; [exact Hs|apply H1]| |].
    + destruct Hs2 as (Hc & Hl & _). pose proof (pp_chan _ _ _ _ _ _ H1) as [_ Hp1 Hk1 _].
      split; simpl; [done|rewrite Hf2|rewrite Hl|done]; unfold path_ok in *; simpl; by rewrite Hc.
    + intros Ho Hb. apply H1; [done|]. intros Hk. by apply bounded_promoted.
  - unfold clearCache_close. apply safe_step. unfold go_get, wp. destruct (receiver p), (closeChan p); try exact I.
    apply wp_safe. unfold go_modify, wp. apply inv_next_same; [done|done|]. destruct Hch. by split.
  - unfold timer_expires. apply safe_step. unfold go_get, wp. destruct (timers p !! t) as [key|]; [|exact I].
    apply wp_safe. unfold go_modify, wp. exists B. split_and!; [by apply listed_timers|by destruct Hch|done].
  - unfold timer_runs. apply safe_step. unfold go_get, wp. destruct (fired p) as [|key rest_]; [exact I|].
    apply safe_step. unfold go_modify, wp. eapply safe_lfu_delete; [by apply listed_timers|by destruct Hch|].
    intros p1 B1 H1 Hc1 Ho1 _ _ _ _ _. exists B1. auto.
  - apply safe_step. apply wp_bind. unfold go_modify, wp at 1. apply wp_ret, wp_safe, wp_ret.
    apply inv_next_same; [done|done|]. apply chan_ok_channel; [done|apply Hch|done].
  - apply safe_bind. unfold lfu_ShutdownPolicy. apply safe_step. unfold go_get, wp. destruct (_ <? _)%nat; [|exact I].
    apply wp_safe, wp_bind. unfold go_modify, wp at 1. apply wp_ret, wp_safe, wp_ret. apply inv_next_same; [done|done|by destruct Hch].
  - apply safe_step. unfold lfu_UpdateConfig. apply wp_bind. unfold go_modify, wp at 1. apply wp_bind, wp_on_list, wp_ret.
    apply wp_safe, wp_ret. destruct Hok as ([H1 H2 H3 H4 H5 H6 H7 H8 H9 H10] & Hl & Hne). exists B. split_and!.
    + split_and!; [|exact Hl|exact Hne]. split; try done. simpl. intros k d n Hk Hn Hto. by eapply H10, Hal.
    + by destruct Hch.
    + done.
Qed.

(** ** Reachable states

    Operations of any callers, the steps of the goroutine and of the timers, and
    changes to files and locks by other components, which do not release a lock
    that the goroutine holds.  The flag says that no frequency has wrapped
    around. *)
Inductive lfu_reach : bool → policy → Prop :=
  | reach_new cfg locks sch f : locks_ok locks → lfu_reach true (NewLFUPolicy cfg locks sch f)
  | reach_op w w' p op p' :
      lfu_reach w p → lfu_allowed op p → lfu_run op p = Ret (tt, p') → (w' = true → w = true ∧ bounded p) → lfu_reach w' p'
  | reach_env w p l f :
      lfu_reach w p → locks_ok l → (∀ path held, receiver p = Waiting path held → holds l held) →
      lfu_reach w (lfu_set_locks l (lfu_set_fs f p)).

Lemma reach_inv w p : lfu_reach w p → ∃ B, lfu_ok p B ∧ chan_ok p ∧ (w = true → ordered B).
Proof.
  induction 1 as [cfg locks sch f Hl|w w' p op p' _ (B & Hok & Hch & Ho) Hal Hrun Hw|w p l f _ (B & Hok & Hch & Ho) Hl Hh].
  - exists []. split_and!; [|by split|constructor]. split_and!; [|by apply dlist_nil|by intros ? ?%not_elem_of_nil].
    split; simpl; try by (constructor || intros; set_solver).
  - pose proof (safe_lfu_run op B p Hok Hch Hal) as Hs. unfold safe in Hs. rewrite Hrun in Hs.
    destruct Hs as (B' & H1 & H2 & H3). exists B'. split_and!; [done..|]. intros Hw'. destruct (Hw Hw'). auto.
  - exists B. split_and!; [eapply (listed_same_lists p); [by split_and!|exact Hok]|split; [exact Hl|apply Hch|apply Hch|]|done].
    intros path held Hr. destruct (ck_wait _ Hch _ _ Hr). split; [done|]. by eapply Hh.
Qed.

(** C16: the LFU policy in every reachable state, whatever the interleaving of
    callers, the removing goroutine and the timers ([lfu_allowed]: names are those
    of files below the cache directory, and no change of the configuration switches
    a timeout on that was off, which makes later calls panic): the two levels of
    linked lists represent a list of buckets, one per frequency, that hold every
    known file exactly once and agree with both maps; as long as no frequency has
    wrapped around, all buckets but the first are in the order of their frequencies;
    and no such operation panics. *)
Theorem lfu_well_formed w p :
  lfu_reach w p →
  (∃ B, lfu_ok p B ∧ (w = true → ordered B)) ∧ ∀ op, lfu_allowed op p → lfu_run op p ≠ Panic.
Proof.
  intros (B & Hok & Hch & Ho)%reach_inv. split; [eauto|]. intros op Hal Hp.
  pose proof (safe_lfu_run op B p Hok Hch Hal) as Hs. unfold safe in Hs. by rewrite Hp in Hs.
Qed.

(** The frequency of the first bucket. *)
Definition head_freq p : option Z := fn_frequency <$> freqNodes p !! ll_first (lfu_list p).

(** A file before another one in the order of eviction is in an earlier bucket
    or in the same. *)
Lemma evict_order_split B V R v k :
  evict_order B = V ++ R → v ∈ V → k ∈ R →
  ∃ bv bk, v ∈ (bk_nodes bv).*2 ∧ k ∈ (bk_nodes bk).*2 ∧ bv ∈ B ∧ bk ∈ B ∧ (bv = bk ∨ ∃ X Y Z, B = X ++ bv :: Y ++ bk :: Z).
Proof.
  revert V. induction B as [|b B IH]; intros V Heq Hv Hk.
  { symmetry in Heq. apply app_nil in Heq as [-> _]. by apply not_elem_of_nil in Hv. }
  assert (Hlater : v ∈ (bk_nodes b).*2 → k ∈ evict_order B → ∃ bv bk, v ∈ (bk_nodes bv).*2 ∧ k ∈ (bk_nodes bk).*2 ∧
    bv ∈ b :: B ∧ bk ∈ b :: B ∧ (bv = bk ∨ ∃ X Y Z, b :: B = X ++ bv :: Y ++ bk :: Z)).
  { intros Hvb (c & Hkc & Hc)%list_elem_of_bind. exists b, c. split_and!; [done|done|by left|by right|].
    apply list_elem_of_split in Hc as (Y & Z & ->). right. by exists [], Y, Z. }
  unfold evict_order in Heq. rewrite bind_cons in Heq. fold (evict_order B) in Heq.
  apply app_eq_inv in Heq as [(T & Hb & HR)|(T & HV & HB)]; [|subst V].
  - subst R. apply elem_of_app in Hk as [Hk|Hk]; [|apply Hlater; [rewrite Hb; set_solver|done]].
    exists b, b. rewrite Hb. split_and!; [set_solver|set_solver|by left|by left|by left].
  - apply elem_of_app in Hv as [Hv|Hv]; [apply Hlater; [done|]; rewrite HB; set_solver|].
    destruct (IH T HB Hv Hk) as (bv & bk & H1 & H2 & H3 & H4 & H5). exists bv, bk. split_and!; [done|done|by right|by right|].
    destruct H5 as [->|(X & Y & Z & ->)]; [by left|]. right. by exists (b :: X), Y, Z.
Qed.

Lemma freq_of_bucket p B x b k : content p B [] x → b ∈ B → k ∈ (bk_nodes b).*2 → freq_of p k = Some (bk_freq b).
Proof.
  intros H Hb ([d k'] & -> & Hin)%list_elem_of_fmap. unfold freq_of.
  assert (Hd : dataNodeMap (lfu_list p) !! k' = Some d) by (apply (ct_map _ _ _ _ H); eauto). simpl. rewrite Hd. simpl.
  destruct (ct_node _ _ _ _ H _ _ _ Hb Hin) as (n & -> & _ & <-). done.
Qed.
Lemma freq_of_listed p B x k : content p B [] x → is_Some (freq_of p k) → k ∈ evict_order B.
Proof.
  intros H [d Hd]%(freq_of_known _ _ _ _ H). apply (ct_map _ _ _ _ H) in Hd as [?%not_elem_of_nil|(b & Hb & Hin)]; [done|].
  apply list_elem_of_bind. exists b. split; [|done]. apply list_elem_of_fmap. by exists (d, k).
Qed.

(** Victims outside the first bucket are used at most as often as what stays. *)
Lemma evict_least p B V R v k fv fk :
  lfu_ok p B → ordered B → evict_order B = V ++ R → v ∈ V → k ∈ R →
  freq_of p v = Some fv → freq_of p k = Some fk → head_freq p ≠ Some fv → fv ≤ fk.
Proof.
  intros (H & Hl & _) Ho Heq Hv Hk Hfv Hfk Hhead. destruct (evict_order_split _ _ _ _ _ Heq Hv Hk) as (bv & bk & Hvb & Hkb & Hbv & Hbk & Hpos).
  rewrite (freq_of_bucket _ _ _ _ _ H Hbv Hvb) in Hfv. rewrite (freq_of_bucket _ _ _ _ _ H Hbk Hkb) in Hfk.
  injection Hfv as <-. injection Hfk as <-. destruct Hpos as [->|(X & Y & Z & ->)]; [done|].
  destruct X as [|b X].
  - exfalso. apply Hhead. unfold head_freq. assert (ll_first (lfu_list p) = bk_ptr bv) as -> by apply Hl.
    destruct (ct_bucket _ _ _ _ H bv Hbv) as (fn & -> & Hf & _). simpl. by rewrite Hf.
  - unfold ordered in Ho. simpl in Ho. rewrite fmap_app in Ho. simpl in Ho. apply StronglySorted_app_1_r in Ho.
    apply StronglySorted_inv in Ho as [_ Hall]. rewrite Forall_forall in Hall. apply Z.lt_le_incl, Hall. set_solver.
Qed.

(** CacheValid counts the uses.  A known file's frequency grows by one plus
    the age of the cache and every other file keeps its own.  A new file enters
    with frequency 1; for it the files [V] may be evicted, each once, and every
    file that stays keeps its frequency.  Unless a frequency wrapped around, no
    victim was used more often than a file that stays, except for those of the
    first bucket. *)
Theorem lfu_CacheValid_spec w p nm p' :
  lfu_reach w p → path_ok p nm → small p → lfu_CacheValid nm p = Ret (tt, p') →
  match freq_of p nm with
  | Some f => freq_of p' nm = Some (u64 (f + u64 (1 + cacheAge (lfu_list p)))) ∧ ∀ k, k ≠ nm → freq_of p' k = freq_of p k
  | None =>
      freq_of p' nm = Some 1 ∧ ∃ V, NoDup V ∧ (∀ v, v ∈ V → is_Some (freq_of p v)) ∧
        (∀ k, k ≠ nm → freq_of p' k = if bool_decide (k ∈ V) then None else freq_of p k) ∧
        (w = true → ∀ v k fv fk, v ∈ V → k ∉ V → freq_of p v = Some fv → freq_of p k = Some fk →
           head_freq p ≠ Some fv → fv ≤ fk)
  end.
Proof.
  intros (B & Hok & Hch & Ho)%reach_inv Hp Hsm Hrun. pose proof (safe_lfu_put B nm p Hok Hch Hp Hsm) as Hs. unfold safe in Hs.
  change (lfu_put nm p) with (lfu_CacheValid nm p) in Hs. rewrite Hrun in Hs. destruct Hs as (B' & V & [_ _ _ [R HV] Hkn Hf Hoth _ _ _]).
  pose proof Hok as (H & _). destruct (content_keys _ _ _ _ H) as [Hnd Hin].
  destruct (freq_of p nm) as [f|] eqn:Hfn.
  - specialize (Hkn ltac:(eauto)). subst V. split; [rewrite Hf; unfold promoted; by rewrite Hfn|]. intros k Hk. rewrite Hoth by done.
    by rewrite bool_decide_false by apply not_elem_of_nil.
  - split; [done|]. exists V. rewrite HV in Hnd. split_and!; [by apply NoDup_app in Hnd as [? _]| |done|].
    + intros v Hv. apply (freq_of_known _ _ _ _ H), Hin. rewrite HV. set_solver.
    + intros Hw v k fv fk Hv Hk Hfv Hfk Hh. eapply (evict_least p B V R v k); try done; [by apply Ho|].
      assert (Hke : k ∈ evict_order B) by (eapply freq_of_listed; [exact H|rewrite Hfk; eauto]). rewrite HV in Hke. set_solver.
Qed.

(** The goroutine never removes a file that is open or locked: it leaves the
    files alone and puts the file back. *)
Theorem lfu_in_use_stays w p path rest_ r p' :
  lfu_reach w p → removeFiles p = path :: rest_ → lm_busy (lfu_fileLocks p) (az_of p path) = true →
  clearItem path p = Ret (r, p') → lfu_fs p' = lfu_fs p ∧ ∃ held, r = Some held.
Proof.
  intros (B & Hok & Hch & _)%reach_inv Hrf Hb Hrun. pose proof (ck_paths _ Hch) as Hps. rewrite Hrf in Hps.
  apply Forall_cons in Hps as [Hp _]. pose proof (wp_clearItem path p Hp (ck_locks _ Hch)) as Hw. unfold wp in Hw. rewrite Hrun in Hw.
  destruct Hw as (_ & _ & _ & _ & _ & Hbusy). destruct (Hbusy Hb) as [Hfs Hr]. destruct r as [held|]; [eauto|done].
Qed.
End spec.

(** ** Runs *)
Module Runs.
(** Files in memory; [readings] are the successive answers about the usage, and
    [0] when they are used up. *)
Record mem := mkMem { files : gset string; readings : list Q }.
Definition next_reading (m : mem) : Q * mem :=
  match readings m with [] => (0%Q, m) | u :: r => (u, mkMem (files m) r) end.
#[export] Instance mem_FileSystem : FileSystem mem := {
  os_Remove nm := λ m, if bool_decide (nm ∈ files m) then Ret (None, mkMem (files m ∖ {[nm]}) (readings m))
                       else Ret (Some (PathError ENOENT), m);
  os_Chmod nm mode := λ m, Ret (None, m);
  GetUsage path := λ m, let '(u, m) := next_reading m in Ret (Some u, m);
  GetDiskUsageFromStatfs path := λ m, let '(u, m) := next_reading m in Ret ((0%Q, u, None), m)
}.
#[export] Instance mem_FileSystemLaws : FileSystemLaws mem.
Proof. split; intros; simpl; [case_bool_decide|]; eauto. Qed.
#[export] Instance mem_UsageLaws : UsageLaws mem.
Proof. split; intros; simpl; destruct (next_reading f); eauto. Qed.

Definition cfg (timeout : Z) : cachePolicyConfig := mkPolicyConfig "/t" timeout 5000 0%Q 80%Q 60%Q false.
Definition fresh (timeout : Z) (locks : LockMap) : lfuPolicy mem := NewLFUPolicy (cfg timeout) locks [] (mkMem ∅ []).
Definition a_open : LockMap := mkLockMap {["a" := 1%nat]} {[1%nat := mkLockMapItem 1 false false 0]}.
Definition set_readings (l : list Q) : go (lfuPolicy mem) unit :=
  go_modify (λ p, lfu_set_fs (mkMem (files (lfu_fs p)) l) p).
Definition value_of {A} (o : outcome (A * lfuPolicy mem)) : outcome A :=
  match o with Ret (a, _) => Ret a | Panic => Panic | Blocked => Blocked end.
Definition put_all (l : list string) : go (lfuPolicy mem) unit := go_range (λ nm, lfu_CacheValid nm) l.
Definition known (k : string) : go (lfuPolicy mem) (option Z) := go_gets (λ p, freq_of p k).

(** The least used file is not evicted first.  A bucket is never linked
    before the first one, so the first bucket stays in front whatever its
    frequency: of a file used three times and one used once, the former is
    evicted. *)
Example lfu_evicts_most_used :
  value_of ((_ ← lfu_CacheValid "/t/a"; _ ← lfu_CacheValid "/t/a"; _ ← lfu_CacheValid "/t/a"; _ ← lfu_CacheValid "/t/b";
             fa ← known "/t/a"; fb ← known "/t/b"; _ ← set_readings [90%Q; 50%Q]; _ ← lfu_CacheValid "/t/c";
             fa' ← known "/t/a"; fb' ← known "/t/b"; mret (fa, fb, fa', fb')) (fresh 0 NewLockMap)) =
  Ret (Some 3, Some 1, None, Some 1).
Proof. vm_compute. reflexivity. Qed.

(** The policy can block for ever.  CacheValid holds the mutex of the list
    while it sends the paths of the evicted files; when one of them is open, the
    goroutine that receives waits for the mutex to put it back, and with more
    victims than the channel takes the sender waits for the goroutine. *)
Example lfu_eviction_deadlocks :
  value_of ((_ ← lfu_StartPolicy;
             _ ← put_all ["/t/a"; "/t/b"; "/t/c"; "/t/d"; "/t/e"; "/t/f"; "/t/g"; "/t/h"; "/t/i"; "/t/j"; "/t/k"; "/t/l"];
             _ ← set_readings (replicate 12 90%Q); lfu_CacheValid "/t/m") (fresh 0 a_open)) = Blocked.
Proof. vm_compute. reflexivity. Qed.

(** The timer of an evicted file keeps running: when the file is used again it
    is dropped when the old timer runs out. *)
Example old_timer_drops_file :
  value_of ((_ ← lfu_CacheValid "/t/a"; _ ← set_readings [90%Q]; _ ← lfu_CacheValid "/t/b"; _ ← lfu_CacheValid "/t/a";
             fa ← known "/t/a"; _ ← timer_expires 1; _ ← timer_runs; fa' ← known "/t/a"; mret (fa, fa')) (fresh 120 NewLockMap)) =
  Ret (Some 1, None).
Proof. vm_compute. reflexivity. Qed.

(** A configuration that switches the timeout on makes the next use of a known
    file panic: the file has no timer to stop. *)
Example timeout_switched_on_panics :
  value_of ((_ ← lfu_CacheValid "/t/a"; _ ← lfu_UpdateConfig (cfg 120); lfu_CacheValid "/t/a") (fresh 0 NewLockMap)) = Panic.
Proof. vm_compute. reflexivity. Qed.

(** CachePurge sends the path twice. *)
Example purge_sends_twice :
  value_of ((_ ← lfu_CacheValid "/t/a"; _ ← lfu_CachePurge "/t/a"; go_gets removeFiles) (fresh 0 NewLockMap)) = Ret ["/t/a"; "/t/a"].
Proof. vm_compute. reflexivity. Qed.
End Runs.

(** ** Witnesses *)
Module Witness.
Import Runs.
(** Decided on a given state. *)
Definition boundedb (p : lfuPolicy mem) : bool :=
  (0 <=? cacheAge (lfu_list p)) &&
  forallb (λ kd, from_option (λ n, (0 <=? dn_frequency n) && (dn_frequency n + 1 + cacheAge (lfu_list p) <? 2 ^ 64)) true
                   (dataNodes p !! kd.2)) (map_to_list (dataNodeMap (lfu_list p))).
Lemma boundedb_ok p : boundedb p = true → bounded p.
Proof.
  intros [Ha%Z.leb_le Hb]%andb_true_iff. split; [done|]. intros k f Hf. unfold freq_of in Hf.
  destruct (dataNodeMap (lfu_list p) !! k) as [d|] eqn:Hd; [|done]. simpl in Hf.
  apply elem_of_map_to_list in Hd. rewrite forallb_forall in Hb. specialize (Hb (k, d)).
  rewrite <-list_elem_of_In in Hb. specialize (Hb Hd). simpl in Hb. destruct (dataNodes p !! d) as [n|]; [|done].
  injection Hf as <-. apply andb_true_iff in Hb as [?%Z.leb_le ?%Z.ltb_lt]. done.
Qed.

Fixpoint run_all (l : list lfu_op) (p : lfuPolicy mem) : lfuPolicy mem :=
  match l with
  | [] => p
  | op :: l => match lfu_run op p with Ret (_, p') => run_all l p' | _ => p end
  end.
Definition allowedb (op : lfu_op) (p : lfuPolicy mem) : bool :=
  match op with
  | OpCacheValid nm | OpIsCached nm | OpCachePurge nm | OpCacheInvalidate nm =>
      bool_decide (strings_TrimPrefix nm (tmpPath (lfu_config p)) ≠ "") &&
      (Z.of_nat (size (dataNodeMap (lfu_list p))) + 2 <? 2 ^ 64)
  | OpStart => match receiver p with Stopped => true | _ => false end
  | _ => false
  end.
Lemma allowedb_ok op p : allowedb op p = true → lfu_allowed op p.
Proof.
  destruct op; simpl; try done;
    try (intros [Hp%bool_decide_eq_true Hs%Z.ltb_lt]%andb_true_iff; by split). by destruct (receiver p).
Qed.
Fixpoint runnable (l : list lfu_op) (p : lfuPolicy mem) : bool :=
  match l with
  | [] => true
  | op :: l => allowedb op p && boundedb p && match lfu_run op p with Ret (_, p') => runnable l p' | _ => false end
  end.
Lemma run_all_reach l p : lfu_reach true p → runnable l p = true → lfu_reach true (run_all l p).
Proof.
  revert p. induction l as [|op l IH]; intros p Hp; [done|]. simpl.
  intros [[Hal%allowedb_ok Hb%boundedb_ok]%andb_true_iff Hr]%andb_true_iff.
  destruct (lfu_run op p) as [[[] p']| |] eqn:E; [|done..]. apply IH; [|done]. by eapply reach_op.
Qed.

(** Two files, one used twice; the usage will be read as high, then low. *)
Definition two_files : lfuPolicy mem :=
  run_all [OpStart; OpCacheValid "/t/a"; OpIsCached "/t/a"; OpCacheValid "/t/b"]
    (NewLFUPolicy (cfg 120) a_open [] (mkMem {["/t/a"; "/t/b"]} [0%Q; 0%Q; 90%Q; 50%Q])).
Lemma a_open_ok : locks_ok a_open.
Proof.
  intros nm q Hq. simpl in Hq. apply lookup_singleton_Some in Hq as [<- <-].
  by exists (mkLockMapItem 1 false false 0).
Qed.
Lemma two_files_reach : lfu_reach true two_files.
Proof. apply run_all_reach; [constructor; apply a_open_ok|by vm_compute]. Qed.

Lemma lfu_well_formed_witness :
  (∃ B, lfu_ok two_files B ∧ (true = true → ordered B)) ∧ ∀ op, lfu_allowed op two_files → lfu_run op two_files ≠ Panic.
Proof. exact (lfu_well_formed true two_files two_files_reach). Defined.

Definition after_c : lfuPolicy mem := run_all [OpCacheValid "/t/c"] two_files.
Lemma lfu_CacheValid_spec_witness :
  freq_of after_c "/t/c" = Some 1 ∧ ∃ V, NoDup V ∧ (∀ v, v ∈ V → is_Some (freq_of two_files v)) ∧
    (∀ k, k ≠ "/t/c" → freq_of after_c k = if bool_decide (k ∈ V) then None else freq_of two_files k) ∧
    (true = true → ∀ v k fv fk, v ∈ V → k ∉ V → freq_of two_files v = Some fv → freq_of two_files k = Some fk →
       head_freq two_files ≠ Some fv → fv ≤ fk).
Proof.
  refine (lfu_CacheValid_spec true two_files "/t/c" after_c two_files_reach _ _ _).
  - by vm_compute.
  - by vm_compute.
  - by vm_compute.
Defined.

(** A file that is open is purged. *)
Definition purged : lfuPolicy mem := run_all [OpCachePurge "/t/a"] two_files.
Lemma purged_reach : lfu_reach true purged.
Proof. apply run_all_reach; [apply two_files_reach|by vm_compute]. Qed.
Definition purged' : option (option ptr) * lfuPolicy mem :=
  match clearItem "/t/a" purged with Ret x => x | _ => (None, purged) end.
Lemma lfu_in_use_stays_witness : lfu_fs purged'.2 = lfu_fs purged ∧ ∃ held, purged'.1 = Some held.
Proof.
  refine (lfu_in_use_stays true purged "/t/a" ["/t/a"] purged'.1 purged'.2 purged_reach _ _ _); by vm_compute.
Defined.
End Witness.
