(* ===== verification/Base64.v ===== *)
(** * Standard base64 (Go's encoding/base64.StdEncoding)

    Block ids are base64 of random bytes (src/common/types.go,
    src/component/azstorage/block_blob.go), and datalake properties carry
    base64 values (src/component/azstorage/utils.go). *)
From S2P Require Import Prelude GoLib.
From Stdlib Require Import Ascii.
From Stdlib Require Strings.String Strings.Byte.

Definition z_of_byte (b : byte) : Z := Z.of_N (Byte.to_N b).
Definition byte_of_z (z : Z) : byte := default zero_byte (Byte.of_N (Z.to_N z)).

(** The alphabet: the character of a 6-bit value. *)
Definition alphabet : list ascii :=
  String.list_ascii_of_string
    "ABCDEFGHIJKLMNOPQRSTUVWXYZabcdefghijklmnopqrstuvwxyz0123456789+/".
Definition enc_char (v : Z) : ascii := nth (Z.to_nat v) alphabet "="%char.
Fixpoint find_char (l : list ascii) (c : ascii) (i : Z) : option Z :=
  match l with
  | [] => None
  | c' :: l => if Ascii.eqb c' c then Some i else find_char l c (i + 1)
  end.
Definition dec_char (c : ascii) : option Z := find_char alphabet c 0.

Definition pad : ascii := "="%char.

(** Three bytes become four characters; the end is padded. *)
Fixpoint encode (l : list byte) : list ascii :=
  match l with
  | b1 :: b2 :: b3 :: l =>
      let x := z_of_byte b1 in let y := z_of_byte b2 in let z := z_of_byte b3 in
      enc_char (x / 4) :: enc_char ((x mod 4) * 16 + y / 16) ::
      enc_char ((y mod 16) * 4 + z / 64) :: enc_char (z mod 64) :: encode l
  | [b1; b2] =>
      let x := z_of_byte b1 in let y := z_of_byte b2 in
      [enc_char (x / 4); enc_char ((x mod 4) * 16 + y / 16); enc_char ((y mod 16) * 4); pad]
  | [b1] =>
      let x := z_of_byte b1 in [enc_char (x / 4); enc_char ((x mod 4) * 16); pad; pad]
  | [] => []
  end.
Definition base64_EncodeToString (l : list byte) : string :=
  String.string_of_list_ascii (encode l).

(** The decoded bytes, up to the group in error, and whether all was well.
    Padding must complete the last group; bytes decoded from a padded group
    are kept even when something follows it. *)
Fixpoint decode (l : list ascii) : list byte * bool :=
  match l with
  | [] => ([], true)
  | c1 :: c2 :: c3 :: c4 :: l =>
      match dec_char c1, dec_char c2 with
      | Some v1, Some v2 =>
          if Ascii.eqb c3 pad then
            if Ascii.eqb c4 pad
            then ([byte_of_z (v1 * 4 + v2 / 16)], bool_decide (l = []))
            else ([], false)
          else
            match dec_char c3 with
            | None => ([], false)
            | Some v3 =>
                if Ascii.eqb c4 pad
                then ([byte_of_z (v1 * 4 + v2 / 16); byte_of_z ((v2 mod 16) * 16 + v3 / 4)],
                      bool_decide (l = []))
                else
                  match dec_char c4 with
                  | None => ([], false)
                  | Some v4 =>
                      let '(r, ok) := decode l in
                      (byte_of_z (v1 * 4 + v2 / 16) :: byte_of_z ((v2 mod 16) * 16 + v3 / 4) ::
                       byte_of_z ((v3 mod 4) * 64 + v4) :: r, ok)
                  end
            end
      | _, _ => ([], false)
      end
  | _ => ([], false)
  end.
Definition newline_char (c : ascii) : Prop := c = "010"%char ∨ c = "013"%char.
#[export] Instance newline_char_dec c : Decision (newline_char c).
Proof. unfold newline_char. apply _. Defined.
Definition base64_DecodeString (s : string) : list byte * bool :=
  decode (filter (λ c, ¬ newline_char c) (String.list_ascii_of_string s)).

(** ** Round trip *)
Lemma z_of_byte_range b : 0 ≤ z_of_byte b < 256.
Proof. unfold z_of_byte. pose proof (Byte.to_N_bounded b). lia. Qed.

Lemma byte_of_z_of_byte b : byte_of_z (z_of_byte b) = b.
Proof. unfold byte_of_z, z_of_byte. rewrite N2Z.id, Byte.of_to_N. done. Qed.

Lemma alphabet_ok :
  Forall (λ i, dec_char (enc_char (Z.of_nat i)) = Some (Z.of_nat i) ∧
               Ascii.eqb (enc_char (Z.of_nat i)) pad = false ∧
               ¬ newline_char (enc_char (Z.of_nat i))) (seq 0 64).
Proof.
  apply Forall_forall. intros i Hi%elem_of_seq. unfold newline_char.
  do 64 (destruct i as [|i]; [vm_compute; split_and!; [done|done|by intros [?|?]]|]). lia.
Qed.

Lemma enc_char_ok v :
  0 ≤ v < 64 → dec_char (enc_char v) = Some v ∧ Ascii.eqb (enc_char v) pad = false ∧
               ¬ newline_char (enc_char v).
Proof.
  intros Hv. pose proof alphabet_ok as H. rewrite Forall_forall in H.
  specialize (H (Z.to_nat v)). rewrite Z2Nat.id in H by lia. apply H. apply elem_of_seq. lia.
Qed.

Lemma list_ind3 {A} (P : list A → Prop) :
  P [] → (∀ a, P [a]) → (∀ a b, P [a; b]) → (∀ a b c l, P l → P (a :: b :: c :: l)) → ∀ l, P l.
Proof.
  intros H0 H1 H2 H3 l. remember (length l) as n eqn:Hn. revert l Hn.
  induction (lt_wf n) as [n _ IH]. intros l Hn.
  destruct l as [|a [|b [|c l]]]; [done|done|done|]. apply H3. eapply IH; [|done]. simpl in Hn. lia.
Qed.

Ltac enc v := let H := fresh in
  assert (H : 0 ≤ v < 64) by (Z.div_mod_to_equations; lia);
  let D := fresh "D" in let P := fresh "P" in
  destruct (enc_char_ok v H) as (D & P & _); rewrite ?D, ?P; clear H D P.

Lemma decode_encode l : decode (encode l) = (l, true).
Proof.
  induction l as [|a|a b|a b c l IH] using list_ind3; [done|..].
  - pose proof (z_of_byte_range a). cbn [encode decode]. set (x := z_of_byte a) in *.
    enc (x / 4). enc (x mod 4 * 16). rewrite Ascii.eqb_refl. rewrite bool_decide_true by done.
    replace (x / 4 * 4 + x mod 4 * 16 / 16) with x by (Z.div_mod_to_equations; lia).
    unfold x. by rewrite byte_of_z_of_byte.
  - pose proof (z_of_byte_range a). pose proof (z_of_byte_range b). cbn [encode decode].
    set (x := z_of_byte a) in *. set (y := z_of_byte b) in *.
    enc (x / 4). enc (x mod 4 * 16 + y / 16). enc (y mod 16 * 4).
    rewrite Ascii.eqb_refl. rewrite bool_decide_true by done.
    replace (x / 4 * 4 + (x mod 4 * 16 + y / 16) / 16) with x by (Z.div_mod_to_equations; lia).
    replace ((x mod 4 * 16 + y / 16) mod 16 * 16 + y mod 16 * 4 / 4) with y by (Z.div_mod_to_equations; lia).
    unfold x, y. by rewrite !byte_of_z_of_byte.
  - pose proof (z_of_byte_range a). pose proof (z_of_byte_range b). pose proof (z_of_byte_range c).
    cbn [encode decode].
    set (x := z_of_byte a) in *. set (y := z_of_byte b) in *. set (z := z_of_byte c) in *.
    enc (x / 4). enc (x mod 4 * 16 + y / 16). enc (y mod 16 * 4 + z / 64). enc (z mod 64). rewrite IH.
    replace (x / 4 * 4 + (x mod 4 * 16 + y / 16) / 16) with x by (Z.div_mod_to_equations; lia).
    replace ((x mod 4 * 16 + y / 16) mod 16 * 16 + (y mod 16 * 4 + z / 64) / 4) with y by (Z.div_mod_to_equations; lia).
    replace ((y mod 16 * 4 + z / 64) mod 4 * 64 + z mod 64) with z by (Z.div_mod_to_equations; lia).
    unfold x, y, z. by rewrite !byte_of_z_of_byte.
Qed.

Lemma encode_no_newline l : Forall (λ c, ¬ newline_char c) (encode l).
Proof.
  assert (Hpad : ¬ newline_char pad) by by intros [?|?].
  assert (Henc : ∀ v, 0 ≤ v < 64 → ¬ newline_char (enc_char v)) by (intros v Hv; apply enc_char_ok; lia).
  induction l as [|a|a b|a b c l IH] using list_ind3; [constructor|..]; cbn [encode].
  - pose proof (z_of_byte_range a). repeat constructor; try done; apply Henc; Z.div_mod_to_equations; lia.
  - pose proof (z_of_byte_range a). pose proof (z_of_byte_range b).
    repeat constructor; try done; apply Henc; Z.div_mod_to_equations; lia.
  - pose proof (z_of_byte_range a). pose proof (z_of_byte_range b). pose proof (z_of_byte_range c).
    do 4 (constructor; [apply Henc; Z.div_mod_to_equations; lia|]). done.
Qed.

Lemma base64_roundtrip l : base64_DecodeString (base64_EncodeToString l) = (l, true).
Proof.
  unfold base64_DecodeString, base64_EncodeToString.
  rewrite String.list_ascii_of_string_of_list_ascii.
  assert (Hf : filter (λ c, ¬ newline_char c) (encode l) = encode l).
  { pose proof (encode_no_newline l) as H. induction (encode l) as [|c r IH]; [done|].
    apply Forall_cons in H as [Hc Hr]. rewrite filter_cons_True by done. by rewrite IH. }
  rewrite Hf. apply decode_encode.
Qed.
