(* ===== verification/AzUtils.v ===== *)
(** * Helpers of the storage component (src/component/azstorage/utils.go)

    Error codes, metadata, content types, permission strings and path
    prefixes; and the block ids of src/common/types.go. *)
From S2P Require Import Prelude GoLib Common HandleMap Internal Base64.
From Stdlib Require Import Ascii.
From Stdlib Require Strings.String Strings.Byte.
#[local] Arguments String.append _ _ : simpl nomatch.

(** ** Store errors *)
Inductive StoreErr :=
  | ErrNoErr | ErrUnknown | ErrFileNotFound | ErrFileAlreadyExists | InvalidRange
  | BlobIsUnderLease | InvalidPermission.
#[export] Instance StoreErr_eq_dec : EqDecision StoreErr.
Proof. solve_decision. Defined.

Definition storeBlobErrToErr (err : error) : StoreErr :=
  match err with
  | BlobError code =>
      match code with
      | ServiceCodeBlobAlreadyExists => ErrFileAlreadyExists
      | ServiceCodeBlobNotFound => ErrFileNotFound
      | ServiceCodeInvalidRange => InvalidRange
      | ServiceCodeLeaseIDMissing => BlobIsUnderLease
      | ServiceCodeInsufficientAccountPermissions => InvalidPermission
      | AuthorizationPermissionMismatch => InvalidPermission
      | _ => ErrUnknown
      end
  | _ => ErrNoErr
  end.

Definition storeDatalakeErrToErr (err : error) : StoreErr :=
  match err with
  | BfsError code =>
      match code with
      | ServiceCodePathAlreadyExists => ErrFileAlreadyExists
      | ServiceCodePathNotFound => ErrFileNotFound
      | ServiceCodeSourcePathNotFound => ErrFileNotFound
      | ServiceCodeLeaseIDMissing => BlobIsUnderLease
      | AuthorizationPermissionMismatch => InvalidPermission
      | _ => ErrUnknown
      end
  | _ => ErrNoErr
  end.

(** ** Metadata *)
Definition folderKey : string := "hdi_isfolder".
Definition symlinkKey : string := "is_symlink".

Definition string_of_bytes (l : list byte) : string :=
  String.string_of_list_ascii (Ascii.ascii_of_byte <$> l).
Definition bytes_of_string (s : string) : list byte :=
  Ascii.byte_of_ascii <$> String.list_ascii_of_string s.

(** One [key=value] pair; [components[1]] panics when there is no "=". *)
Definition property_pair (p : string) : outcome (option (string * string)) :=
  match String.index 0 "=" p with
  | None => Panic
  | Some n =>
      let '(value, ok) := base64_DecodeString (sdrop (n + 1) p) in
      Ret (if ok : bool then Some (stake n p, string_of_bytes value) else None)
  end.

Fixpoint newMetadata_loop (pairs : list string) (m : gmap string string)
    : outcome (gmap string string) :=
  match pairs with
  | [] => Ret m
  | p :: pairs =>
      match property_pair p with
      | Ret (Some (k, v)) => newMetadata_loop pairs (<[k:=v]> m)
      | Ret None => newMetadata_loop pairs m
      | Panic => Panic
      | Blocked => Blocked
      end
  end.
Definition newMetadata (properties : string) : outcome (gmap string string) :=
  if bool_decide (properties = "") then Ret ∅
  else newMetadata_loop (strings_Split properties ",") ∅.

Definition ModeDir : Z := 2 ^ 31.
Definition ModeSymlink : Z := 2 ^ 27.

Definition with_flags_mode (f : BitMap16) (m : FileMode) (a : ObjAttr) : ObjAttr :=
  mkObjAttr (Mtime a) (Atime a) (Ctime a) (Crtime a) (Size a) m f (Path a) (Name a)
    (MD5 a) (Metadata a).
Definition with_metadata (md : gmap string string) (a : ObjAttr) : ObjAttr :=
  mkObjAttr (Mtime a) (Atime a) (Ctime a) (Crtime a) (Size a) (Mode a) (Flags a) (Path a)
    (Name a) (MD5 a) md.

(** The body of the loop of parseMetadata. *)
Definition parseMetadata_step (a : ObjAttr) (kv : string * string) : ObjAttr :=
  if bool_decide (strings_ToLower kv.1 = folderKey) && bool_decide (kv.2 = "true") then
    with_flags_mode NewDirBitMap (Z.lor (Mode a) ModeDir) a
  else if bool_decide (strings_ToLower kv.1 = symlinkKey) && bool_decide (kv.2 = "true") then
    with_flags_mode NewSymlinkBitMap (Z.lor (Mode a) ModeSymlink) a
  else a.

(** A [range] over a map visits its pairs in some order: [order] is one. *)
Definition parseMetadata_in (order : list (string * string)) (md : gmap string string)
    (a : ObjAttr) : ObjAttr :=
  foldl parseMetadata_step (with_metadata md a) order.
Definition parseMetadata (md : gmap string string) (a : ObjAttr) : ObjAttr :=
  parseMetadata_in (map_to_list md) md a.

Definition parseProperties (properties : string) (a : ObjAttr) : outcome ObjAttr :=
  match newMetadata properties with
  | Ret md => Ret (parseMetadata md a)
  | Panic => Panic
  | Blocked => Blocked
  end.

(** ** Content types *)
Definition ContentTypes : gmap string string := list_to_map
  [(".css", "text/css"); (".pdf", "application/pdf"); (".xml", "text/xml"); (".csv", "text/csv");
   (".json", "application/json"); (".rtf", "application/rtf"); (".txt", "text/plain");
   (".java", "text/plain"); (".dat", "text/plain"); (".htm", "text/html"); (".html", "text/html");
   (".gif", "image/gif"); (".jpeg", "image/jpeg"); (".jpg", "image/jpeg"); (".png", "image/png");
   (".bmp", "image/bmp"); (".js", "application/javascript"); (".mjs", "application/javascript");
   (".svg", "image/svg+xml"); (".wasm", "application/wasm"); (".webp", "image/webp");
   (".wav", "audio/wav"); (".mp3", "audio/mpeg"); (".mpeg", "video/mpeg"); (".aac", "audio/aac");
   (".avi", "video/x-msvideo"); (".m3u8", "application/x-mpegURL"); (".ts", "video/MP2T");
   (".mid", "audio/midiaudio/x-midi"); (".3gp", "video/3gpp"); (".mp4", "video/mp4");
   (".doc", "application/msword");
   (".docx", "application/vnd.openxmlformats-officedocument.wordprocessingml.document");
   (".ppt", "application/vnd.ms-powerpoint");
   (".pptx", "application/vnd.openxmlformats-officedocument.presentationml.presentation");
   (".xls", "application/vnd.ms-excel");
   (".xlsx", "application/vnd.openxmlformats-officedocument.spreadsheetml.sheet");
   (".gz", "application/x-gzip"); (".jar", "application/java-archive");
   (".rar", "application/vnd.rar"); (".tar", "application/x-tar");
   (".zip", "application/x-zip-compressed"); (".7z", "application/x-7z-compressed");
   (".3g2", "video/3gpp2"); (".usdz", "application/zip"); (".sh", "application/x-sh");
   (".exe", "application/x-msdownload"); (".dll", "application/x-msdownload")].

Definition getContentType (key : string) : string :=
  default "application/octet-stream" (ContentTypes !! strings_ToLower (filepath_Ext key)).

(** ** Permissions *)
Definition writePermission (permitted : bool) (permission : ascii) : ascii :=
  if permitted then permission else "-"%char.

Definition mode_bit (mode : FileMode) (i : Z) : bool := negb (Z.land mode (Z.shiftl 1 i) =? 0).

Definition getACLPermissions (mode : FileMode) : string :=
  String.string_of_list_ascii
    [writePermission (mode_bit mode 8) "r"; writePermission (mode_bit mode 7) "w";
     writePermission (mode_bit mode 6) "x"; writePermission (mode_bit mode 5) "r";
     writePermission (mode_bit mode 4) "w"; writePermission (mode_bit mode 3) "x";
     writePermission (mode_bit mode 2) "r"; writePermission (mode_bit mode 1) "w";
     writePermission (mode_bit mode 0) "x"]%char.

(** The loop over "rwxrwxrwx": [i] is the position. *)
Fixpoint getFileMode_loop (rwx perms : list ascii) (i mode : Z) : Z :=
  match rwx, perms with
  | c :: rwx, p :: perms =>
      getFileMode_loop rwx perms (i + 1)
        (if Ascii.eqb p c then Z.lor mode (Z.shiftl 1 (9 - 1 - i)) else mode)
  | _, _ => mode
  end.

Definition getFileMode (permissions : string) : FileMode * option error :=
  if bool_decide (permissions = "") then (0, None)
  else if (String.length permissions <? 9)%nat
  then (0, Some (Msg "unexpected length of permissions from the service"))
  else (getFileMode_loop (String.list_ascii_of_string "rwxrwxrwx")
          (String.list_ascii_of_string permissions) 0 0, None).

(** [acl[idx : idx+3]] panics when it runs past the end. *)
Definition slice3 (s : string) (idx : Z) : outcome string :=
  if (0 <=? idx) && (idx + 3 <=? Z.of_nat (String.length s))
  then Ret (stake 3 (sdrop (Z.to_nat idx) s)) else Panic.

Definition extractPermission (acl key : string) : outcome string :=
  slice3 acl (strings_Index acl key + Z.of_nat (String.length key)).

(** The characters of the first string that the mask allows. *)
Fixpoint apply_mask (perm mask : list ascii) : list ascii :=
  match perm, mask with
  | p :: perm, m :: mask => (if Ascii.eqb p m then p else "-"%char) :: apply_mask perm mask
  | _, _ => []
  end.

(** The test of [idx] against -1 comes after the length of the key was added. *)
Definition extractNamedUserACL (acl objid : string) : outcome string :=
  let key := "user:" +:+ objid +:+ ":" in
  let idx := strings_Index acl key + Z.of_nat (String.length key) in
  if idx =? -1 then Ret "---"
  else
    match slice3 acl idx with
    | Ret userACL =>
        match extractPermission acl "mask::" with
        | Ret mask => Ret (String.string_of_list_ascii
            (apply_mask (String.list_ascii_of_string userACL) (String.list_ascii_of_string mask)))
        | Panic => Panic | Blocked => Blocked
        end
    | Panic => Panic | Blocked => Blocked
    end.

Definition getFileModeFromACL (objid acl owner : string)
    : outcome (FileMode * option error) :=
  if bool_decide (acl = "") then Ret (0, Some (Msg "empty permissions from the service"))
  else
    match (if bool_decide (owner = objid) then extractPermission acl "user::"
           else extractNamedUserACL acl objid),
          extractPermission acl "group::", extractPermission acl "other::" with
    | Ret u, Ret g, Ret o => Ret (getFileMode (u +:+ g +:+ o))
    | _, _, _ => Panic
    end.

(** ** Path prefixes *)

(** [paths[0][0]] panics on an empty first part. *)
Definition split (prefixPath path : string) : outcome string :=
  if bool_decide (prefixPath = "") then Ret path
  else
    let paths := strings_Split path prefixPath in
    let paths := match paths with "" :: rest => rest | _ => paths end in
    match paths with
    | String c s :: rest =>
        Ret (filepath_Join ((if Ascii.eqb c slash then s else String c s) :: rest))
    | _ => Panic
    end.

Definition sanitizeSASKey (key : string) : string :=
  match key with
  | EmptyString => key
  | String c _ => if negb (Ascii.eqb c "?"%char) then "?" +:+ key else key
  end.

Record AuthOptions := mkAuthOptions {
  ApplicationID : string; ResourceID : string; ObjectID : string; AccountKey : string;
  SaSKey : string; ClientID : string; ClientSecret : string; TenantID : string
}.
Definition autoDetectAuthMode (opt : AuthOptions) : string :=
  let set (s : string) := negb (bool_decide (s = "")) in
  if set (ApplicationID opt) || set (ResourceID opt) || set (ObjectID opt) then "msi"
  else if set (AccountKey opt) then "key"
  else if set (SaSKey opt) then "sas"
  else if set (ClientID opt) || set (ClientSecret opt) || set (TenantID opt) then "spn"
  else "msi".

(** TrimLeft removes all leading slashes at once. *)
Fixpoint removeLeadingSlashes (s : string) : string :=
  match s with
  | String c s' => if Ascii.eqb c slash then removeLeadingSlashes s' else s
  | EmptyString => s
  end.

(** ** Block ids (src/common/types.go) *)
Definition or_byte (b : byte) (m : Z) : byte := byte_of_z (Z.lor (z_of_byte b) m).
Definition and_byte (b : byte) (m : Z) : byte := byte_of_z (Z.land (z_of_byte b) m).

(** NewUUIDWithLength: [random] is what crypto/rand.Read filled in, [None] when
    it failed.  Positions 8 and 6 are written without a length check. *)
Definition NewUUIDWithLength (length : Z) (random : option (list byte)) : outcome (list byte) :=
  match random with
  | None => Ret (make_bytes length)
  | Some u =>
      match u !! 8%nat with
      | None => Panic
      | Some b8 =>
          let u := <[8%nat := and_byte (or_byte b8 64) 127]> u in
          match u !! 6%nat with
          | None => Panic
          | Some b6 => Ret (<[6%nat := or_byte (and_byte b6 15) 64]> u)
          end
      end
  end.

Definition GetIdLength (id : string) : Z := Z.of_nat (length (base64_DecodeString id).1).

(** ** Permissions: round trip *)
Lemma getFileMode_roundtrip_small :
  Forall (λ n, getFileMode (getACLPermissions (Z.of_nat n)) = (Z.of_nat n, None)) (seq 0 512).
Proof. apply Forall_forall. intros n Hn%elem_of_seq.
  assert (H : forallb (λ n, bool_decide (getFileMode (getACLPermissions (Z.of_nat n)) = (Z.of_nat n, None)))
    (seq 0 512) = true) by (vm_compute; reflexivity).
  rewrite forallb_forall in H. specialize (H n). apply (bool_decide_eq_true_1 _), H. apply in_seq. lia.
Qed.

Lemma mode_bit_land mode i : 0 ≤ i < 9 → mode_bit (Z.land mode 511) i = mode_bit mode i.
Proof.
  intros Hi. unfold mode_bit. rewrite <-Z.land_assoc.
  replace (Z.land 511 (Z.shiftl 1 i)) with (Z.shiftl 1 i); [done|].
  assert (Hc : i = 0 ∨ i = 1 ∨ i = 2 ∨ i = 3 ∨ i = 4 ∨ i = 5 ∨ i = 6 ∨ i = 7 ∨ i = 8) by lia.
  repeat destruct Hc as [->|Hc]; [done..|]. by rewrite Hc.
Qed.

(** The permission string sent to the service and the mode read back agree:
    getFileMode inverts getACLPermissions on the nine permission bits, with no
    error, whatever other bits the mode has. *)
Theorem permissions_roundtrip mode :
  getFileMode (getACLPermissions mode) = (Z.land mode 511, None).
Proof.
  assert (Hr : 0 ≤ Z.land mode 511 < 512).
  { change 511 with (Z.ones 9). rewrite Z.land_ones by lia. apply Z.mod_pos_bound. lia. }
  replace (getACLPermissions mode) with (getACLPermissions (Z.land mode 511)).
  - pose proof getFileMode_roundtrip_small as H. rewrite Forall_forall in H.
    specialize (H (Z.to_nat (Z.land mode 511))). rewrite Z2Nat.id in H by lia.
    apply H. apply elem_of_seq. lia.
  - unfold getACLPermissions. by rewrite !mode_bit_land by lia.
Qed.

(** A user the ACL does not name is not given "---".  The test for a missing
    entry comes after the length of the key was added to the index, so it
    never holds.  For an object id of the usual form and an ACL without named
    users the slice runs past the end of the ACL and the call panics; for a
    short id it returns the permissions of the owner. *)
Theorem missing_user_not_denied :
  let acl := "user::rwx,group::r-x,mask::rwx,other::r--" in
  let objid := "5b2ee3a4-7c1c-4b6c-9b0e-2f1d6a0c9e11" in
  strings_Contains acl ("user:" +:+ objid +:+ ":") = false ∧
  getFileModeFromACL objid acl "owner" = Panic ∧
  strings_Contains acl "user:x:" = false ∧
  extractNamedUserACL acl "x" = extractPermission acl "user::".
Proof. vm_compute. split_and!; reflexivity. Qed.

(** Split corrupts names that contain the prefix again.  It splits at every
    occurrence of the mounted sub-directory, not only at the leading one: with
    prefix "data", the blob "data/mydata" is listed as "my". *)
Theorem split_drops_inner_prefix :
  split "data" "data/mydata" = Ret "my" ∧ split "a" "a/b/a/c" = Ret "b/c".
Proof. vm_compute. split; reflexivity. Qed.

(** Splitting at a prefix that does not occur again. *)
Lemma index_prefix p s : p ≠ "" → String.index 0 p (p +:+ s) = Some 0%nat.
Proof.
  intros Hp. destruct p as [|c p]; [done|]. simpl.
  pose proof (prefix_app (String c p) s) as H. simpl in H. by rewrite H.
Qed.

(** Split strips the mounted sub-directory.  For a prefix that does not occur
    in the rest of the path, split of prefix/rest is rest, for every clean
    relative path. *)
Theorem split_strips p rest :
  p ≠ "" → rest ≠ "" → String.index 0 p ("/" +:+ rest) = None → filepath_Clean rest = rest →
  split p (p +:+ "/" +:+ rest) = Ret rest.
Proof.
  intros Hp Hr Hidx Hclean. unfold split. rewrite bool_decide_false by done.
  assert (Hs : strings_Split (p +:+ "/" +:+ rest) p = [""; "/" +:+ rest]).
  { unfold strings_Split. cbn [split_fuel]. rewrite index_prefix by done. simpl stake.
    rewrite Nat.add_0_l, sdrop_app. f_equal. destruct (String.length _) eqn:E.
    - rewrite string_app_length in E. destruct p; done.
    - cbn [split_fuel]. by rewrite Hidx. }
  rewrite Hs. simpl. rewrite bool_decide_false by done. by rewrite Hclean.
Qed.
Lemma split_strips_witness : split "data" ("data" +:+ "/" +:+ "dir/file") = Ret "dir/file".
Proof. apply (split_strips "data" "dir/file"); [discriminate|discriminate|reflexivity|vm_compute; reflexivity]. Defined.

(** Below the mounted sub-directory split does not panic, whether the prefix occurs again
    or not. *)
Lemma split_returns p x :
  p ≠ "" → strings_HasPrefix p "/" = false → ∃ r, split p (p +:+ "/" +:+ x) = Ret r.
Proof.
  intros Hp Hs. unfold split. rewrite bool_decide_false by done.
  assert (Hspl : ∃ y l, strings_Split (p +:+ "/" +:+ x) p = "" :: String slash y :: l).
  { unfold strings_Split. cbn [split_fuel]. rewrite index_prefix by done. simpl stake.
    rewrite Nat.add_0_l, sdrop_app. destruct (String.length _) eqn:E; [rewrite string_app_length in E; by destruct p|].
    cbn [split_fuel]. destruct (String.index 0 p ("/" +:+ x)) as [[|i]|] eqn:Ei.
    - apply index_split in Ei as ([|? ?] & b & Heq & Hl); [|done]. destruct p as [|c p]; [done|].
      injection Heq as <- _. unfold strings_HasPrefix in Hs. simpl in Hs. by destruct p.
    - simpl. eauto.
    - simpl. eauto. }
  destruct Hspl as (y & l & ->). simpl. eauto.
Qed.

(** ** Block ids: the length is kept *)
Lemma NewUUIDWithLength_length n u id :
  NewUUIDWithLength n (Some u) = Ret id → length id = length u.
Proof.
  unfold NewUUIDWithLength. destruct (u !! 8%nat); [|done]. destruct (_ !! 6%nat); [|done].
  intros [= <-]. by rewrite !length_insert.
Qed.

Lemma NewUUIDWithLength_Ret n u :
  9 ≤ n → Z.of_nat (length u) = n →
  ∃ id, NewUUIDWithLength n (Some u) = Ret id ∧ GetIdLength (base64_EncodeToString id) = n.
Proof.
  intros Hn Hu. destruct (NewUUIDWithLength n (Some u)) as [id| |] eqn:E.
  - exists id. split; [done|]. unfold GetIdLength. rewrite base64_roundtrip. simpl.
    apply NewUUIDWithLength_length in E. lia.
  - unfold NewUUIDWithLength in E. destruct (lookup_lt_is_Some_2 u 8) as [b Hb]; [lia|].
    rewrite Hb in E. destruct (_ !! 6%nat) eqn:E6; [done|]. apply lookup_ge_None in E6.
    rewrite length_insert in E6. lia.
  - unfold NewUUIDWithLength in E. destruct (u !! 8%nat); [|done]. by destruct (_ !! 6%nat).
Qed.

(** A new block id has the length of the existing ids.  For a length of at
    least nine bytes, generating an id of that length never panics, and
    GetIdLength of its base64 form is the length again, as the service
    requires of the ids of one blob. *)
Theorem new_id_length n u :
  9 ≤ n → Z.of_nat (length u) = n →
  ∃ id, NewUUIDWithLength n (Some u) = Ret id ∧ GetIdLength (base64_EncodeToString id) = n.
Proof. apply NewUUIDWithLength_Ret. Qed.
Lemma new_id_length_witness :
  ∃ id, NewUUIDWithLength 16 (Some (replicate 16 Byte.xff)) = Ret id ∧
        GetIdLength (base64_EncodeToString id) = 16.
Proof. apply (new_id_length 16 (replicate 16 Byte.xff)); [lia|reflexivity]. Defined.

(** A blob whose ids are shorter cannot be extended: index 8 is out of range. *)
Example short_id_panics : NewUUIDWithLength 8 (Some (replicate 8 Byte.xff)) = Panic.
Proof. reflexivity. Qed.

(** ** Metadata: the order of iteration does not matter *)
Definition is_folder_kv (kv : string * string) : bool :=
  bool_decide (strings_ToLower kv.1 = folderKey) && bool_decide (kv.2 = "true").
Definition is_symlink_kv (kv : string * string) : bool :=
  bool_decide (strings_ToLower kv.1 = symlinkKey) && bool_decide (kv.2 = "true").

Lemma parseMetadata_fold (order : list (string * string)) a :
  existsb is_folder_kv order && existsb is_symlink_kv order = false →
  foldl parseMetadata_step a order =
  if existsb is_folder_kv order
  then with_flags_mode NewDirBitMap (Z.lor (Mode a) ModeDir) a
  else if existsb is_symlink_kv order
  then with_flags_mode NewSymlinkBitMap (Z.lor (Mode a) ModeSymlink) a
  else a.
Proof.
  revert a. induction order as [|kv order IH]; intros a H; [done|]. simpl in *.
  unfold parseMetadata_step at 2. fold (is_folder_kv kv). fold (is_symlink_kv kv).
  destruct (is_folder_kv kv) eqn:Hf; simpl in *.
  - assert (Hs : existsb is_symlink_kv order = false) by (by destruct (is_symlink_kv kv)).
    rewrite IH by (rewrite Hs; apply andb_false_r). rewrite Hs.
    destruct (existsb is_folder_kv order); [|done].
    unfold with_flags_mode; simpl. by rewrite <-Z.lor_assoc, Z.lor_diag.
  - destruct (is_symlink_kv kv) eqn:Hs; simpl in *.
    + rewrite andb_true_r in H. rewrite IH by (by rewrite H). rewrite H.
      destruct (existsb is_symlink_kv order); [|done].
      unfold with_flags_mode; simpl. by rewrite <-Z.lor_assoc, Z.lor_diag.
    + by rewrite IH.
Qed.

Lemma existsb_perm {A} (f : A → bool) l l' : l ≡ₚ l' → existsb f l = existsb f l'.
Proof.
  induction 1; simpl; [done|by f_equal| |by etransitivity].
  destruct (f x), (f y); done.
Qed.

(** ParseMetadata does not depend on the order in which Go visits the map,
    unless the metadata marks the blob both as a folder and as a symlink: for
    every order the result is that of the reference order. *)
Theorem parseMetadata_order order md a :
  order ≡ₚ map_to_list md →
  existsb is_folder_kv order && existsb is_symlink_kv order = false →
  parseMetadata_in order md a = parseMetadata md a.
Proof.
  intros Hp Hx. unfold parseMetadata, parseMetadata_in.
  rewrite (existsb_perm is_folder_kv _ _ Hp), (existsb_perm is_symlink_kv _ _ Hp) in Hx.
  rewrite !parseMetadata_fold; rewrite ?(existsb_perm is_folder_kv _ _ Hp), ?(existsb_perm is_symlink_kv _ _ Hp); done.
Qed.
Lemma parseMetadata_order_witness :
  parseMetadata_in [("k", "v"); ("hdi_isfolder", "true")]
    {["hdi_isfolder" := "true"; "k" := "v"]} zero_ObjAttr =
  parseMetadata {["hdi_isfolder" := "true"; "k" := "v"]} zero_ObjAttr.
Proof.
  apply (parseMetadata_order [("k", "v"); ("hdi_isfolder", "true")]); [|reflexivity].
  apply NoDup_Permutation.
  - refine (bool_decide_unpack _ _). vm_compute. done.
  - apply NoDup_map_to_list.
  - intros [k v]. rewrite elem_of_map_to_list, lookup_insert_Some, lookup_singleton_Some.
    rewrite !elem_of_cons. split.
    + intros [[= -> ->]|[[= -> ->]|[]%not_elem_of_nil]]; [right; done|by left].
    + intros [[<- <-]|[_ [<- <-]]]; auto.
Defined.
