(* ===== verification/BlockBlob.v ===== *)
(** * Block blobs (src/component/azstorage/block_blob.go)

    The operations on blobs, over the azblob SDK.  The SDK is not part of the
    repository: its calls are the operations of the class [BlobSDK] on a state
    [N], and what the code relies on is stated as laws in BlockBlobSpec. *)
From S2P Require Import Prelude GoLib Common HandleMap Internal Base64 AzUtils.
From Stdlib Require Import Ascii.

(** ** The SDK *)
Inductive CopyStatusType :=
  | CopyStatusNone | CopyStatusPending | CopyStatusSuccess | CopyStatusAborted | CopyStatusFailed.
#[export] Instance CopyStatusType_eq_dec : EqDecision CopyStatusType.
Proof. solve_decision. Defined.

#[local] Instance byte_eq_dec : EqDecision byte := Byte.byte_eq_dec.

(** A nil ContentMD5 is an empty list. *)
Record BlobProperties := mkBlobProperties {
  bp_ContentLength : Z;
  bp_LastModified : Time;
  bp_LastAccessedOn : option Time;
  bp_CreationTime : option Time;
  bp_ContentMD5 : list byte;
  bp_Metadata : gmap string string;
  bp_CopyStatus : CopyStatusType
}.
(** A segment of a hierarchical listing. *)
Record Segment := mkSegment {
  BlobItems : list (string * BlobProperties);
  BlobPrefixes : list string;
  NextMarker : option string
}.

Class BlobSDK (N : Type) := {
  BlockBlobMaxStageBlockBytes : Z;
  BlockBlobMaxBlocks : Z;
  BlockBlobMaxUploadBlobBytes : Z;
  BlobDefaultDownloadBlockSize : Z;
  sdk_GetBlockList : string → go N (list (string * Z) + error);
  sdk_StageBlock : string → string → list byte → go N (option error);
  sdk_CommitBlockList : string → list string → string → go N (option error);
  sdk_UploadBuffer : string → gmap string string → string → Z → list byte → go N (option error);
  sdk_Download : string → Z → Z → list byte → go N (list byte * option error);
  sdk_GetProperties : string → go N (BlobProperties + error);
  sdk_Delete : string → go N (option error);
  sdk_ListHierarchy : option string → string → Z → go N (Segment + error);
  (** The names of a segment of a flat listing and the next marker. *)
  sdk_ListFlat : option string → string → Z → go N ((list string * option string) + error);
  (** Target, source, metadata. *)
  sdk_StartCopyFromURL : string → string → gmap string string → go N (CopyStatusType + error);
  sdk_DownloadToFile : string → Z → Z → ptr → go N (option error);
  (** File, blob, metadata, content type, MD5, block size. *)
  sdk_UploadFile : ptr → string → gmap string string → string → list byte → Z → go N (option error);
  (** Size and MD5 of an open local file. *)
  file_Size : ptr → go N (Z + error);
  getMD5 : ptr → go N (list byte + error);
  rand_Read : Z → go N (option (list byte))
}.

(** The fields of AzStorageConfig that block blobs use. *)
Record BlobConfig := mkBlobConfig {
  prefixPath : string;
  blockSize : Z;
  virtualDirectory : bool;
  maxResultsForList : Z;
  ignoreAccessModifiers : bool;
  validateMD5 : bool;
  updateMD5 : bool
}.
Definition MaxDirListCount : Z := 5000.

(** Division rounded up: math.Ceil of a float64 quotient.  The quotients here are
    below 2^16 and the divisors below 2^33, where float64 rounds no
    non-integer quotient to an integer. *)
Definition ceil_div (a b : Z) : Z := - ((- a) / b).

Section block_blob.
Context {N : Type} `{!Runtime N} `{!BlobSDK N} (cfg : BlobConfig).

Definition MaxBlocksSize : Z := BlockBlobMaxStageBlockBytes * BlockBlobMaxBlocks.

Definition blob_name (name : string) : string := filepath_Join [prefixPath cfg; name].

(** [make([]byte, n)] and [s[lo:hi]] panic out of range. *)
Definition make_slice (n : Z) : go N (list byte) :=
  if n <? 0 then go_panic else mret (make_bytes n).
Definition slice_go (l : list byte) (lo hi : Z) : go N (list byte) :=
  if (0 <=? lo) && (lo <=? hi) && (hi <=? Z.of_nat (length l)) then mret (slice l lo hi)
  else go_panic.
Definition index_go {A} (l : list A) (i : Z) : go N A :=
  if 0 <=? i then go_deref (l !! Z.to_nat i) else go_panic.

Definition calculateBlockSize (name : string) (fileSize : Z) : Z + error :=
  if MaxBlocksSize <? fileSize
  then inr (Msg "buffer is too large to upload to a block blob")
  else if fileSize <=? BlockBlobMaxUploadBlobBytes then inl BlockBlobMaxUploadBlobBytes
  else
    let bs := ceil_div fileSize BlockBlobMaxBlocks in
    if bs <? BlobDefaultDownloadBlockSize then inl BlobDefaultDownloadBlockSize
    else
      let bs := if negb (Z.land bs (-8) =? 0) then Z.land (bs + 7) (-8) else bs in
      if BlockBlobMaxStageBlockBytes <? bs
      then inr (Msg "block-size is too large to upload to a block blob")
      else inl bs.

Definition WriteFromBuffer (name : string) (metadata : gmap string string) (data : list byte)
    : go N (option error) :=
  sdk_UploadBuffer (blob_name name) metadata (getContentType name) (blockSize cfg) data.

Definition CreateFile (name : string) (mode : FileMode) : go N (option error) :=
  WriteFromBuffer name ∅ [].
Definition CreateDirectory (name : string) : go N (option error) :=
  WriteFromBuffer name {[folderKey := "true"]} [].
Definition CreateLink (source target : string) : go N (option error) :=
  WriteFromBuffer source {[symlinkKey := "true"]} (bytes_of_string target).

Definition DeleteFile (name : string) : go N (option error) :=
  err ← sdk_Delete (blob_name name);
  match err with
  | None => mret None
  | Some e =>
      match storeBlobErrToErr e with
      | ErrFileNotFound => mret (Some (Errno ENOENT))
      | BlobIsUnderLease => mret (Some (Errno EIO))
      | _ => mret (Some e)
      end
  end.

(** A value of the language's own computations. *)
Definition go_of {A} (o : outcome A) : go N A := λ n,
  match o with Ret a => Ret (a, n) | Panic => Panic | Blocked => Blocked end.

(** [marker.NotDone()]: the first request has no marker. *)
Definition NotDone (marker : option string) : bool :=
  match marker with None => true | Some m => bool_decide (m ≠ "") end.
Definition dir_prefix (name : string) : string := (blob_name name +:+ "/")%string.

(** The blobs of one segment: an error of one is logged only. *)
Fixpoint delete_blobs (names : list string) : go N unit :=
  match names with
  | [] => mret tt
  | bname :: names =>
      path ← go_of (split (prefixPath cfg) bname);
      _ ← DeleteFile path;
      delete_blobs names
  end.
(** One unit of fuel is one listing request. *)
Fixpoint DeleteDirectory_loop (fuel : nat) (name : string) (marker : option string)
    : go N (option error) :=
  if NotDone marker then
    match fuel with
    | O => go_block
    | S fuel =>
        r ← sdk_ListFlat marker (dir_prefix name) MaxDirListCount;
        match r with
        | inr e => mret (Some e)
        | inl (names, next) =>
            _ ← delete_blobs names;
            DeleteDirectory_loop fuel name next
        end
    end
  else DeleteFile name.
Definition DeleteDirectory (fuel : nat) (name : string) : go N (option error) :=
  DeleteDirectory_loop fuel name None.

(** The wait for the end of the copy, a request per second.  When GetProperties
    fails, [prop] is nil and reading its status panics.  Any other status than
    pending ends the wait. *)
Fixpoint wait_copy (fuel : nat) (target : string) (status : CopyStatusType) : go N unit :=
  if bool_decide (status = CopyStatusPending) then
    match fuel with
    | O => go_block
    | S fuel =>
        prop ← sdk_GetProperties (blob_name target);
        match prop with
        | inr _ => go_panic
        | inl prop => wait_copy fuel target (bp_CopyStatus prop)
        end
    end
  else mret tt.
(** [retries] more deletions while the answer is ENOENT. *)
Fixpoint delete_retry (retries : nat) (source : string) (err : option error) : go N (option error) :=
  match retries with
  | O => mret err
  | S retries =>
      if bool_decide (err = Some (Errno ENOENT)) then
        err ← DeleteFile source;
        delete_retry retries source err
      else mret err
  end.
Definition RenameFile (fuel : nat) (source target : string) : go N (option error) :=
  prop ← sdk_GetProperties (blob_name source);
  match prop with
  | inr e =>
      match storeBlobErrToErr e with
      | ErrFileNotFound => mret (Some (Errno ENOENT))
      | _ => mret (Some e)
      end
  | inl prop =>
      startCopy ← sdk_StartCopyFromURL (blob_name target) (blob_name source) (bp_Metadata prop);
      match startCopy with
      | inr e => mret (Some e)
      | inl copyStatus =>
          _ ← wait_copy fuel target copyStatus;
          err ← DeleteFile source;
          err ← delete_retry 3 source err;
          if bool_decide (err = Some (Errno ENOENT)) then mret None else mret err
      end
  end.

Fixpoint rename_blobs (fuel : nat) (source target : string) (names : list string) : go N unit :=
  match names with
  | [] => mret tt
  | bname :: names =>
      srcPath ← go_of (split (prefixPath cfg) bname);
      _ ← RenameFile fuel srcPath (strings_Replace1 srcPath source target);
      rename_blobs fuel source target names
  end.
(** [polls] is the fuel of each wait for a copy. *)
Fixpoint RenameDirectory_loop (fuel polls : nat) (source target : string) (srcDirPresent : bool)
    (marker : option string) : go N (option error) :=
  if NotDone marker then
    match fuel with
    | O => go_block
    | S fuel =>
        r ← sdk_ListFlat marker (dir_prefix source) MaxDirListCount;
        match r with
        | inr e => mret (Some e)
        | inl (names, next) =>
            _ ← rename_blobs polls source target names;
            RenameDirectory_loop fuel polls source target
              (srcDirPresent || bool_decide (names ≠ [])) next
        end
    end
  else
    err ← RenameFile polls source target;
    if bool_decide (err = Some (Errno ENOENT)) && srcDirPresent then mret None else mret err.
Definition RenameDirectory (fuel polls : nat) (source target : string) : go N (option error) :=
  RenameDirectory_loop fuel polls source target false None.

(** ** Attributes *)
Definition retrieved (a : ObjAttr) : ObjAttr :=
  with_flags_mode
    (Set_ (Set_ (Flags a) PropFlagMetadataRetrieved) PropFlagModeDefault) (Mode a) a.

Definition getAttrUsingRest (name : string) : go N (ptr * option error) :=
  prop ← sdk_GetProperties (blob_name name);
  match prop with
  | inr e =>
      match storeBlobErrToErr e with
      | ErrFileNotFound => mret (nil_ptr, Some (Errno ENOENT))
      | InvalidPermission => mret (nil_ptr, Some (Errno EACCES))
      | _ => mret (nil_ptr, Some e)
      end
  | inl prop =>
      let lm := bp_LastModified prop in
      let attr := mkObjAttr lm lm lm (default 0 (bp_CreationTime prop)) (bp_ContentLength prop)
        0 NewFileBitMap name (filepath_Base name) (bp_ContentMD5 prop) ∅ in
      p ← new_obj (retrieved (parseMetadata (bp_Metadata prop) attr));
      mret (p, None)
  end.

Definition with_size (sz : Z) (a : ObjAttr) : ObjAttr :=
  mkObjAttr (Mtime a) (Atime a) (Ctime a) (Crtime a) sz (Mode a) (Flags a) (Path a) (Name a)
    (MD5 a) (Metadata a).

(** One item of a listing. *)
Definition list_item (item : string * BlobProperties) : outcome ObjAttr :=
  let '(bname, prop) := item in
  match split (prefixPath cfg) bname with
  | Ret path =>
      let lm := bp_LastModified prop in
      let attr := mkObjAttr lm (default lm (bp_LastAccessedOn prop)) lm
        (default lm (bp_CreationTime prop)) (bp_ContentLength prop) 0 NewFileBitMap path
        (filepath_Base bname) (bp_ContentMD5 prop) ∅ in
      let attr := retrieved (parseMetadata (bp_Metadata prop) attr) in
      Ret (if IsDir attr then with_size 4096 attr else attr)
  | Panic => Panic
  | Blocked => Blocked
  end.

(** The loop over the items: their attributes and the directories seen. *)
Fixpoint list_items (items : list (string * BlobProperties))
    : go N (list ptr * gset string) :=
  match items with
  | [] => mret ([], ∅)
  | item :: items =>
      match list_item item with
      | Ret attr =>
          p ← new_obj attr;
          '(l, dirs) ← list_items items;
          mret (p :: l, if IsDir attr then {[item.1 +:+ "/"]} ∪ dirs else dirs)
      | Panic => go_panic
      | Blocked => go_block
      end
  end.

(** The loop over the prefixes: directories without a marker blob. *)
Fixpoint list_prefixes (dirList : gset string) (prefixes : list string) : go N (list ptr) :=
  match prefixes with
  | [] => mret []
  | pname :: prefixes =>
      if decide (pname ∈ dirList) then list_prefixes dirList prefixes
      else
        r ← getAttrUsingRest pname;
        if err_is r.2 (Errno ENOENT) then
          let name := strings_TrimSuffix pname "/" in
          match split (prefixPath cfg) name with
          | Ret path =>
              now ← rt_now;
              let attr := mkObjAttr now now now now 4096 ModeDir NewDirBitMap path
                            (filepath_Base name) [] ∅ in
              p ← new_obj (retrieved attr);
              l ← list_prefixes dirList prefixes;
              mret (p :: l)
          | Panic => go_panic
          | Blocked => go_block
          end
        else list_prefixes dirList prefixes
  end.

Definition listPath (prefix : string) : string :=
  let p := blob_name prefix in
  if (negb (bool_decide (prefix = "")) && strings_HasSuffix prefix "/")
     || (bool_decide (prefix = "") && negb (bool_decide (prefixPath cfg = "")))
  then p +:+ "/" else p.

Definition List_ (prefix : string) (marker : option string) (count : Z)
    : go N (list ptr * option string * option error) :=
  let count := if count =? 0 then MaxDirListCount else count in
  listBlob ← sdk_ListHierarchy marker (listPath prefix) count;
  match listBlob with
  | inr e => mret ([], None, Some e)
  | inl seg =>
      '(l1, dirs) ← list_items (BlobItems seg);
      l2 ← list_prefixes dirs (BlobPrefixes seg);
      mret (l1 ++ l2, NextMarker seg, None)
  end.

(** The first listed object whose path is the name. *)
Fixpoint find_path (name : string) (blobs : list ptr) : go N (option ptr) :=
  match blobs with
  | [] => mret None
  | p :: blobs =>
      a ← load_obj p;
      if bool_decide (Path a = name) then mret (Some p) else find_path name blobs
  end.

(** The loop of getAttrUsingList.  The [err] that the loop assigns shadows the
    function's result, which stays nil: when the loop ends, the answer is
    ENOENT.  One unit of fuel is one listing request. *)
Fixpoint getAttrUsingList_loop (fuel : nat) (name : string) (marker : option string)
    (failCount : Z) : go N (ptr * option error) :=
  if negb (failCount <? 20) then mret (nil_ptr, Some (Errno ENOENT))
  else
    match fuel with
    | O => go_block
    | S fuel =>
        '(blobs, new_marker, err) ← List_ name marker (maxResultsForList cfg);
        match err with
        | Some e =>
            match storeBlobErrToErr e with
            | ErrFileNotFound => mret (nil_ptr, Some (Errno ENOENT))
            | InvalidPermission => mret (nil_ptr, Some (Errno EACCES))
            | _ => getAttrUsingList_loop fuel name marker (failCount + 1)
            end
        | None =>
            found ← find_path name blobs;
            match found with
            | Some p => mret (p, None)
            | None =>
                match new_marker with
                | None | Some "" => mret (nil_ptr, Some (Errno ENOENT))
                | Some m => getAttrUsingList_loop fuel name (Some m) 0
                end
            end
        end
    end.

Definition getAttrUsingList (fuel : nat) (name : string) : go N (ptr * option error) :=
  getAttrUsingList_loop fuel name None 0.

Definition GetAttr (fuel : nat) (name : string) : go N (ptr * option error) :=
  if virtualDirectory cfg then getAttrUsingList fuel name else getAttrUsingRest name.

(** ** Reading *)
Definition read_error (e : error) : error :=
  match storeBlobErrToErr e with
  | ErrFileNotFound => Errno ENOENT
  | InvalidRange => Errno ERANGE
  | _ => e
  end.

(** The buffer after the call, and the error. *)
Definition ReadInBuffer (name : string) (offset len : Z) (data : list byte)
    : go N (list byte * option error) :=
  '(data', err) ← sdk_Download (blob_name name) offset len data;
  mret (data', read_error <$> err).

Definition ReadBuffer (fuel : nat) (name : string) (offset len : Z)
    : go N (list byte * option error) :=
  l ← (if len =? 0 then
         '(p, err) ← GetAttr fuel name;
         match err with
         | Some e => mret (inr e)
         | None => a ← load_obj p; mret (inl (i64 (Size a - offset)))
         end
       else mret (inl len));
  match l with
  | inr e => mret ([], Some e)
  | inl len =>
      buff ← make_slice len;
      '(buff', err) ← sdk_Download (blob_name name) offset len buff;
      mret (buff', read_error <$> err)
  end.

(** ** Local files *)
Definition ReadToFile (name : string) (offset count : Z) (fi : ptr) : go N (option error) :=
  err ← sdk_DownloadToFile (blob_name name) offset count fi;
  match err with
  | Some e =>
      match storeBlobErrToErr e with
      | ErrFileNotFound => mret (Some (Errno ENOENT))
      | _ => mret (Some e)
      end
  | None =>
      if validateMD5 cfg then
        fileMD5 ← getMD5 fi;
        match fileMD5 with
        | inr _ => mret None
        | inl fileMD5 =>
            prop ← sdk_GetProperties (blob_name name);
            match prop with
            | inr _ => mret None
            | inl prop =>
                if bool_decide (bp_ContentMD5 prop = []) then mret None
                else if negb (bool_decide (fileMD5 = bp_ContentMD5 prop))
                then mret (Some (Msg "md5 sum mismatch on download"))
                else mret None
            end
        end
      else mret None
  end.

Definition upload_error (e : error) : error :=
  match storeBlobErrToErr e with
  | BlobIsUnderLease => Errno EIO
  | InvalidPermission => Errno EACCES
  | _ => e
  end.
Definition WriteFromFile (name : string) (metadata : gmap string string) (fi : ptr)
    : go N (option error) :=
  stat ← file_Size fi;
  match stat with
  | inr e => mret (Some e)
  | inl size =>
      match (if blockSize cfg =? 0 then calculateBlockSize name size else inl (blockSize cfg)) with
      | inr e => mret (Some e)
      | inl bs =>
          md5sum ← (if updateMD5 cfg && (BlockBlobMaxUploadBlobBytes <=? size) then
                      m ← getMD5 fi;
                      mret (match m with inl m => m | inr _ => [zero_byte] end)
                    else mret []);
          err ← sdk_UploadFile fi (blob_name name) metadata (getContentType name) md5sum bs;
          mret (upload_error <$> err)
      end
  end.

(** ** Block lists *)
Fixpoint blocks_of (l : list (string * Z)) (blockOffset : Z) : list Block :=
  match l with
  | [] => []
  | (id, sz) :: l =>
      mkBlock blockOffset (i64 (blockOffset + sz)) 0 id [] :: blocks_of l (i64 (blockOffset + sz))
  end.

Definition GetFileBlockOffsets (name : string) : go N (BlockOffsetList * option error) :=
  r ← sdk_GetBlockList (blob_name name);
  match r with
  | inr e => mret (empty_bol, Some e)
  | inl [] => mret (mkBOL [] (Set_ 0 SmallFileFlag) 0 0 0, None)
  | inl ((id, sz) :: l) =>
      mret (mkBOL (blocks_of ((id, sz) :: l) 0) 0 (GetIdLength id) 0 0, None)
  end.

Fixpoint committed_of (l : list (string * Z)) (startOffset : Z) : CommittedBlockList :=
  match l with
  | [] => []
  | (id, sz) :: l =>
      mkCommittedBlock id startOffset (u64 sz) :: committed_of l (i64 (startOffset + sz))
  end.
Definition GetCommittedBlockList (name : string)
    : go N (option CommittedBlockList * option error) :=
  r ← sdk_GetBlockList (blob_name name);
  match r with
  | inr e => mret (None, Some e)
  | inl [] => mret (None, None)
  | inl l => mret (Some (committed_of l 0), None)
  end.

Definition new_id (idLength : Z) : go N string :=
  u ← rand_Read idLength;
  match NewUUIDWithLength idLength u with
  | Ret id => mret (base64_EncodeToString id)
  | Panic => go_panic
  | Blocked => go_block
  end.

Definition createBlock (blockIdLength startIndex size : Z) : go N Block :=
  id ← new_id blockIdLength;
  mret (block_set DirtyBlock (block_set TruncatedBlock
          (mkBlock startIndex (i64 (startIndex + size)) 0 id []))).

(** The loop of createNewBlocks: the new blocks and their total size. *)
Fixpoint createNewBlocks_loop (fuel : nat) (idLength bs stop i : Z) : go N (list Block * Z) :=
  if i <? stop then
    match fuel with
    | O => go_block
    | S fuel =>
        let blkSize := Z.min bs (stop - i) in
        b ← createBlock idLength i blkSize;
        '(r, total) ← createNewBlocks_loop fuel idLength bs stop (i + bs);
        mret (b :: r, blkSize + total)
    end
  else mret ([], 0).

(** The block size of the new blocks; a division by zero (no block left) has no
    specified result. *)
Definition new_block_size (numOfBlocks len : Z) : go N (Z + error) :=
  if blockSize cfg =? 0 then
    let bs := 16 * 1024 * 1024 in
    if BlockBlobMaxBlocks <? numOfBlocks + ceil_div len bs then
      if BlockBlobMaxBlocks - numOfBlocks =? 0 then go_block
      else
        let bs := ceil_div len (BlockBlobMaxBlocks - numOfBlocks) in
        if BlockBlobMaxStageBlockBytes <? bs
        then mret (inr (Msg "Cannot accommodate data within the block limit"))
        else mret (inl bs)
    else mret (inl bs)
  else if BlockBlobMaxBlocks <? numOfBlocks + ceil_div len (blockSize cfg)
  then mret (inr (Msg "Cannot accommodate data within the block limit with configured block-size"))
  else mret (inl (blockSize cfg)).

(** The blocks are appended one after the other: at least one byte each, so the
    distance is enough fuel. *)
Definition createNewBlocks (bol : BlockOffsetList) (offset len : Z)
    : go N (BlockOffsetList * Z * option error) :=
  lastBlock ← go_deref (last (BlockList bol));
  let prevIndex := EndIndex lastBlock in
  bs ← new_block_size (Z.of_nat (length (BlockList bol))) len;
  match bs with
  | inr e => mret (bol, 0, Some e)
  | inl bs =>
      '(r, total) ← createNewBlocks_loop (Z.to_nat (offset + len - prevIndex))
                      (BlockIdLength bol) bs (offset + len) prevIndex;
      mret (bol_with_blocks (BlockList bol ++ r) bol, total, None)
  end.

(** The block at [index] is cut to the new size, and what follows is dropped. *)
Definition removeBlocks (bol : BlockOffsetList) (size : Z) (name : string)
    : go N BlockOffsetList :=
  let '(_, index) := BinarySearch bol size in
  b ← index_go (BlockList bol) index;
  let index := if StartIndex b =? size then index - 1 else index in
  b ← index_go (BlockList bol) index;
  b ← (if size <? EndIndex b then
         let b := block_with_end size b in
         data ← make_slice (block_size b);
         '(data', _) ← ReadInBuffer name (StartIndex b) (block_size b) data;
         mret (block_set DirtyBlock (block_with_data data' b))
       else mret b);
  mret (bol_with_blocks
          (take (Z.to_nat index) (BlockList bol) ++ [block_set RemovedBlocks b]) bol).

(** ** Staging and committing *)
Fixpoint stage_modified (name : string) (blks : list Block) (data : list byte)
    (blockOffset : Z) : go N (option error) :=
  match blks with
  | [] => mret None
  | blk :: blks =>
      if Dirty blk then
        d ← slice_go data blockOffset (block_size blk + blockOffset);
        err ← sdk_StageBlock (blob_name name) (Id blk) d;
        match err with
        | Some e => mret (Some e)
        | None => stage_modified name blks data (block_size blk + blockOffset)
        end
      else stage_modified name blks data blockOffset
  end.

Definition stageAndCommitModifiedBlocks (name : string) (data : list byte)
    (offsetList : BlockOffsetList) : go N (option error) :=
  err ← stage_modified name (BlockList offsetList) data 0;
  match err with
  | Some e => mret (Some e)
  | None => sdk_CommitBlockList (blob_name name) (Id <$> BlockList offsetList) (getContentType name)
  end.

(** The loop of StageAndCommit: the blocks with their flags cleared, whether
    anything was staged, the error.  The blob's mutex is held throughout. *)
Fixpoint stage_loop (name : string) (blks : list Block) : go N (list Block * bool * option error) :=
  match blks with
  | [] => mret ([], false, None)
  | blk :: rest =>
      data ← (if Truncated blk then make_slice (block_size blk) else mret (Data blk));
      let blk1 := if Truncated blk then block_clear TruncatedBlock blk else blk in
      if Dirty blk1 then
        err ← sdk_StageBlock (blob_name name) (Id blk1) data;
        match err with
        | Some e => mret (blk1 :: rest, true, Some e)
        | None =>
            '(r, _, e) ← stage_loop name rest;
            mret (block_clear DirtyBlock blk1 :: r, true, e)
        end
      else
        '(r, staged, e) ← stage_loop name rest;
        mret (blk1 :: r, Removed blk1 || staged, e)
  end.

Definition StageAndCommit (name : string) (bol : BlockOffsetList)
    : go N (BlockOffsetList * option error) :=
  '(blks, staged, err) ← stage_loop name (BlockList bol);
  let bol' := bol_with_blocks blks bol in
  match err with
  | Some e => mret (bol', Some e)
  | None =>
      if staged : bool then
        err ← sdk_CommitBlockList (blob_name name) (Id <$> blks) (getContentType name);
        mret (bol', err)
      else mret (bol', None)
  end.

Definition StageBlock (name : string) (data : list byte) (id : string) : go N (option error) :=
  sdk_StageBlock (blob_name name) id data.
Definition CommitBlocks (name : string) (blockList : list string) : go N (option error) :=
  sdk_CommitBlockList (blob_name name) blockList (getContentType name).

(** ** Writing *)

(** Case 1 of Write: the new contents of a file without blocks. *)
Definition small_file_data (oldData : list byte) (offset : Z) (data : list byte)
    : go N (list byte) :=
  let len := Z.of_nat (length data) in
  if offset + len <=? Z.of_nat (length oldData) then
    if offset <? 0 then go_panic else mret (copy_at oldData (Z.to_nat offset) data).1
  else if 0 <? Z.of_nat (length oldData) then
    buf ← make_slice (offset + len);
    let buf := if negb (offset =? 0) then (copy_at buf 0 oldData).1 else buf in
    if offset <? 0 then go_panic else mret (copy_at buf (Z.to_nat offset) data).1
  else mret data.

(** Write on the handle's path.  The errors of the two reads are dropped, as in
    the code. *)
Definition Write_at (fuel : nat) (name : string) (offset : Z) (data : list byte)
    (metadata : gmap string string) : go N (option error) :=
  '(bol, err) ← GetFileBlockOffsets name;
  match err with
  | Some e => mret (Some e)
  | None =>
      let len := Z.of_nat (length data) in
      if SmallFile bol then
        '(oldData, _) ← ReadBuffer fuel name 0 0;
        buf ← small_file_data oldData offset data;
        WriteFromBuffer name metadata buf
      else
        let '(bol, (index, oldDataSize, exceedsFileBlocks, appendOnly)) :=
          FindBlocksToModify bol offset len in
        '(bol, newBufferSize, err) ←
          (if exceedsFileBlocks : bool then createNewBlocks bol offset len else mret (bol, 0, None));
        match err with
        | Some e => mret (Some e)
        | None =>
            buf ← make_slice (oldDataSize + newBufferSize);
            buf ← (if appendOnly : bool then mret buf
                   else
                     b ← index_go (BlockList bol) index;
                     '(buf', _) ← ReadInBuffer name (StartIndex b) oldDataSize buf;
                     mret buf');
            b ← index_go (BlockList bol) index;
            let blockOffset := i64 (offset - StartIndex b) in
            if (blockOffset <? 0) || (Z.of_nat (length buf) <? blockOffset) then go_panic
            else stageAndCommitModifiedBlocks name (copy_at buf (Z.to_nat blockOffset) data).1 bol
        end
  end.

Definition Write (fuel : nat) (options : WriteFileOptions) : go N (option error) :=
  h ← load_handle (WriteFile_Handle options);
  Write_at fuel (hPath h) (WriteFile_Offset options) (WriteFile_Data options)
    (WriteFile_Metadata options).

(** ** Truncation *)
Definition HandleSmallFile (name : string) (size originalSize : Z)
    : go N (list byte * option error) :=
  data ← make_slice size;
  if originalSize <? size then ReadInBuffer name 0 0 data
  else ReadInBuffer name 0 size data.

Definition GbToBytes : Z := 1024 * 1024 * 1024.
Definition MbToBytes : Z := 1024 * 1024.

(** The loop that stages zero blocks: the first one and a shorter last one; the
    ids to commit.  [first] is [i == 0]. *)
Fixpoint zero_blocks (fuel : nat) (name id : string) (blkSize size : Z) (first : bool)
    : go N (list string + error) :=
  if 0 <? size then
    match fuel with
    | O => go_block
    | S fuel =>
        let short := size <? blkSize in
        let blkSize' := if short then size else blkSize in
        id' ← (if short : bool then new_id 16 else mret id);
        err ← (if first || short then
                 data ← make_slice blkSize'; sdk_StageBlock (blob_name name) id' data
               else mret None);
        match err with
        | Some e => mret (inr e)
        | None =>
            r ← zero_blocks fuel name id' blkSize' (size - blkSize') false;
            match r with
            | inl l => mret (inl (id' :: l))
            | inr e => mret (inr e)
            end
        end
    end
  else mret (inl []).

(** The empty old or new file.  In the last branch the [err] of the upload is a
    new variable: the function returns the earlier one. *)
Definition truncate_empty (name : string) (size : Z) (err0 : option error)
    : go N (option error) :=
  if GbToBytes <? size then
    id ← new_id 16;
    r ← zero_blocks (Z.to_nat (ceil_div size (16 * MbToBytes))) name id (16 * MbToBytes) size true;
    match r with
    | inr e => mret (Some e)
    | inl blkList =>
        err ← CommitBlocks (blob_name name) blkList;
        match err with
        | Some e => mret (Some e)
        | None => mret None
        end
    end
  else
    data ← make_slice size;
    _ ← WriteFromBuffer name ∅ data;
    mret err0.

Definition truncate_small (name : string) (size oldSize : Z) : go N (option error) :=
  '(data, err) ← HandleSmallFile name size oldSize;
  match err with
  | Some e => mret (Some e)
  | None => WriteFromBuffer name ∅ data
  end.

Definition truncate_blocks (name : string) (size oldSize : Z) (bol : BlockOffsetList)
    : go N (option error) :=
  r ← (if size <? oldSize then bol' ← removeBlocks bol size name; mret (bol', None)
       else if oldSize <? size then
         lastBlock ← go_deref (last (BlockList bol));
         '(bol', _, err) ← createNewBlocks bol (EndIndex lastBlock) (i64 (size - oldSize));
         mret (bol', err)
       else mret (bol, None));
  match r.2 with
  | Some e => mret (Some e)
  | None => '(_, err) ← StageAndCommit name r.1; mret err
  end.

Definition TruncateFile (fuel : nat) (name : string) (size : Z) : go N (option error) :=
  '(attr, err) ← GetAttr fuel name;
  if err_is err (Errno ENOENT) then mret err
  else
    empty ← (if size =? 0 then mret true else a ← load_obj attr; mret (Size a =? 0));
    if empty : bool then truncate_empty name size err
    else
      a ← load_obj attr;
      if size <? BlockBlobMaxUploadBlobBytes then truncate_small name size (Size a)
      else
        '(bol, err) ← GetFileBlockOffsets name;
        match err with
        | Some e => mret (Some e)
        | None =>
            if SmallFile bol then truncate_small name size (Size a)
            else truncate_blocks name size (Size a) bol
        end.

(** ** Modes *)
Definition ChangeMod (name : string) (mode : FileMode) : option error :=
  if ignoreAccessModifiers cfg then None else Some (Errno ENOTSUP).
Definition ChangeOwner (name : string) (uid gid : Z) : option error :=
  if ignoreAccessModifiers cfg then None else Some (Errno ENOTSUP).
End block_blob.
