(* ===== verification/BlockBlobSpec.v ===== *)
(** * Block blobs: contract of the service and correctness of the operations

    [BlobService] states what the code relies on of the blob service: a blob is
    a flat content or a list of committed blocks; staged blocks become visible
    when a block list that names them is committed.  Against it, Write is a
    splice of the content, TruncateFile a resize, and both leave the content
    alone when they fail. *)
From S2P Require Import Prelude GoLib Common HandleMap Internal Base64 AzUtils BlockBlob.

(** ** The service *)
Inductive Blob :=
  | Flat (data : list byte)
  | Blocks (bs : list (string * list byte)).
Definition content (b : Blob) : list byte :=
  match b with Flat d => d | Blocks bs => concat bs.*2 end.

(** CommitBlockList looks an id up among the staged blocks first, then among
    the committed ones. *)
Definition committed (b : option Blob) (id : string) : option (list byte) :=
  match b with
  | Some (Blocks bs) => snd <$> (list_find (λ x, x.1 = id) bs ≫= λ '(_, x), Some x)
  | _ => None
  end.
Definition latest (b : option Blob) (st : gmap string (list byte)) (id : string)
    : option (string * list byte) :=
  (λ d, (id, d)) <$> (match st !! id with Some d => Some d | None => committed b id end).

(** The number of bytes a download of [len] bytes asks for: 0 is "to the end". *)
Definition download_count (c : list byte) (offset len : Z) : Z :=
  if len =? 0 then (Z.of_nat (length c) - offset) else len.

Class BlobService (N : Type) `{!Runtime N} `{!BlobSDK N} := {
  blob : N → gmap string Blob;
  staged : N → string → gmap string (list byte);
  (** The block ids drawn or received so far, the last one first. *)
  issued : N → list string;
  svc_max_blocks : 0 < BlockBlobMaxBlocks;
  svc_max_stage : 0 < BlockBlobMaxStageBlockBytes;
  svc_max_upload : 0 < BlockBlobMaxUploadBlobBytes;
  svc_set_objs m n : blob (rt_set_objs m n) = blob n ∧ staged (rt_set_objs m n) = staged n
    ∧ issued (rt_set_objs m n) = issued n;
  svc_GetBlockList name n : wp (sdk_GetBlockList name) (λ r n',
    blob n' = blob n ∧ staged n' = staged n ∧ issued n' = issued n ∧
    ∀ l, r = inl l →
      match blob n !! name with
      | Some (Blocks bs) => l = (λ x, (x.1, Z.of_nat (length x.2))) <$> bs
      | _ => l = []
      end) n;
  svc_StageBlock name id data n : wp (sdk_StageBlock name id data) (λ e n',
    blob n' = blob n ∧ issued n' = issued n ∧
    (e = None → staged n' name = <[id := data]> (staged n name))) n;
  svc_CommitBlockList name ids ct n : wp (sdk_CommitBlockList name ids ct) (λ e n',
    issued n' = issued n ∧
    match e with
    | None => staged n' name = ∅ ∧ ∃ bs, mapM (latest (blob n !! name) (staged n name)) ids = Some bs
              ∧ blob n' = <[name := Blocks bs]> (blob n)
    | Some _ => blob n' = blob n
    end) n;
  svc_UploadBuffer name md ct bs data n : wp (sdk_UploadBuffer name md ct bs data) (λ e n',
    match e with
    | None => ∃ b, content b = data ∧ blob n' = <[name := b]> (blob n)
    | Some _ => blob n' = blob n
    end) n;
  svc_Download name offset len buf n : wp (sdk_Download name offset len buf) (λ r n',
    blob n' = blob n ∧ staged n' = staged n ∧ issued n' = issued n ∧
    length r.1 = length buf ∧
    (r.2 = None → ∀ b, blob n !! name = Some b → 0 ≤ offset →
       0 ≤ download_count (content b) offset len →
       offset + download_count (content b) offset len ≤ Z.of_nat (length (content b)) →
       download_count (content b) offset len ≤ Z.of_nat (length buf) →
       r.1 = slice (content b) offset (offset + download_count (content b) offset len)
             ++ drop (Z.to_nat (download_count (content b) offset len)) buf)) n;
  svc_GetProperties name n : wp (sdk_GetProperties name) (λ r n',
    blob n' = blob n ∧ staged n' = staged n ∧ issued n' = issued n ∧
    ∀ p, r = inl p → ∃ b, blob n !! name = Some b ∧
      bp_ContentLength p = Z.of_nat (length (content b))) n;
  svc_Delete name n : wp (sdk_Delete name) (λ e n',
    match e with
    | None => blob n' = delete name (blob n)
    | Some e => blob n' = blob n ∧
        (storeBlobErrToErr e = ErrFileNotFound ∨ e = Errno ENOENT → blob n !! name = None)
    end) n;
  (** A copy that did not succeed leaves no promise on its target. *)
  svc_StartCopyFromURL target source md n : wp (sdk_StartCopyFromURL target source md) (λ r n',
    match r with
    | inl CopyStatusSuccess => ∃ b, blob n !! source = Some b ∧ blob n' = <[target := b]> (blob n)
    | inl _ => ∀ x, x ≠ target → blob n' !! x = blob n !! x
    | inr _ => blob n' = blob n
    end) n;
  svc_rand k n : 0 ≤ k → wp (rand_Read k) (λ u n',
    blob n' = blob n ∧ staged n' = staged n ∧
    ∃ bytes, u = Some bytes ∧ Z.of_nat (length bytes) = k ∧
      ∀ id, NewUUIDWithLength k u = Ret id →
        issued n' = (base64_EncodeToString id) :: issued n) n
}.

(** The metadata that make a blob a directory marker. *)
Definition folder_marker (md : gmap string string) : Prop :=
  ∃ k, strings_ToLower k = folderKey ∧ md !! k = Some "true".

(** A listing with the delimiter "/": the names come in lexicographic order, so that the
    first item of the listing with the name of a blob as its prefix is that blob.
    [regular]: the names that no directory marker has. *)
Class BlobListing (N : Type) `{!Runtime N} `{!BlobSDK N} `{!BlobService N} := {
  regular : string → bool;
  ls_now n t n' : rt_now n = Ret (t, n') →
    blob n' = blob n ∧ staged n' = staged n ∧ issued n' = issued n;
  ls_properties name n r n' : sdk_GetProperties name n = Ret (r, n') → rt_objs n' = rt_objs n;
  ls_list name count n : wp (sdk_ListHierarchy None name count) (λ r n',
    blob n' = blob n ∧ staged n' = staged n ∧ issued n' = issued n ∧ rt_objs n' = rt_objs n ∧
    ∀ seg, r = inl seg →
      Forall (λ it, ∃ x, it.1 = name +:+ x) (BlobItems seg) ∧
      Forall (λ p, ∃ x, p = name +:+ x +:+ "/") (BlobPrefixes seg) ∧
      ∀ b, blob n !! name = Some b → ∃ prop items, BlobItems seg = (name, prop) :: items ∧
        bp_ContentLength prop = Z.of_nat (length (content b)) ∧
        (regular name = true → ¬ folder_marker (bp_Metadata prop))) n
}.

(** ** The abstract operations on the content *)

Lemma splice_middle (A B C data : list byte) off z :
  (length A ≤ off)%nat → (off + length data ≤ length A + length B + z)%nat →
  z = 0%nat ∨ (C = [] ∧ (off + length data = length A + length B + z)%nat) →
  A ++ (copy_at (B ++ replicate z zero_byte) (off - length A) data).1 ++ C
  = splice (A ++ B ++ C) off data.
Proof.
  intros HA Hfit Hz. unfold splice. rewrite copy_at_full by (rewrite length_app, length_replicate; lia).
  cbn [fst]. rewrite !take_app, !drop_app, !take_replicate, !drop_replicate, !length_app.
  rewrite (take_ge A), (drop_ge A) by lia. rewrite <-!(assoc_L (++)). f_equal.
  destruct Hz as [->|[-> Heq]].
  - rewrite !Nat.min_0_r. simpl.
    replace (off - length A - length B)%nat with 0%nat by lia.
    replace (off - (length A + (length B + length C)))%nat with 0%nat by lia.
    replace (off - length A + length data - length B)%nat with 0%nat by lia.
    replace (off + length data - length A - length B)%nat with 0%nat by lia.
    rewrite take_0, drop_0. simpl.
    by replace (off - length A + length data)%nat with (off + length data - length A)%nat by lia.
  - simpl. rewrite take_nil, drop_nil, !app_nil_r.
    rewrite !(drop_ge B) by lia. simpl. f_equal.
    replace (z - _)%nat with 0%nat by lia. simpl. rewrite app_nil_r.
    f_equal. f_equal. lia.
Qed.

Lemma slice_middle {A} (l1 l2 l3 : list A) :
  slice (l1 ++ l2 ++ l3) (Z.of_nat (length l1)) (Z.of_nat (length l1 + length l2)) = l2.
Proof.
  unfold slice. rewrite Nat2Z.id, drop_app_length, take_app.
  replace (Z.to_nat _) with (length l2) by lia.
  by rewrite Nat.sub_diag, take_0, app_nil_r, take_ge by lia.
Qed.

(** ** Blocks and the bytes they stand for *)
Definition describes_bytes (b : Block) (x : string * list byte) : Prop :=
  Id b = x.1 ∧ EndIndex b - StartIndex b = Z.of_nat (length x.2).

Definition sizes_of (bs : list (string * list byte)) : list (string * Z) :=
  (λ x, (x.1, Z.of_nat (length x.2))) <$> bs.

Lemma describes_end start l bs :
  contiguous start l → Forall2 describes_bytes l bs →
  end_of start l = start + Z.of_nat (length (concat bs.*2)).
Proof.
  intros Hc HF. revert start Hc. induction HF as [|b x l bs [Hid Hlen] HF IH]; intros start.
  { unfold end_of. simpl. lia. }
  intros (H1 & H2 & H3). rewrite end_of_cons, (IH _ H3). csimpl. rewrite length_app. lia.
Qed.

Lemma describes_ids l bs : Forall2 describes_bytes l bs → Id <$> l = bs.*1.
Proof. induction 1 as [|b x l bs [Hid _] _ IH]; [done|]. csimpl. by rewrite Hid, IH. Qed.

Lemma blocks_of_spec start bs :
  0 ≤ start → Forall (λ x, x.2 ≠ []) bs → start + Z.of_nat (length (concat bs.*2)) < 2 ^ 63 →
  contiguous start (blocks_of (sizes_of bs) start) ∧
  Forall2 describes_bytes (blocks_of (sizes_of bs) start) bs ∧
  Forall (λ b, bFlags b = 0) (blocks_of (sizes_of bs) start).
Proof.
  revert start. induction bs as [|[id d] bs IH]; intros start Hs Hne Hlt; [done|].
  apply Forall_cons in Hne as [Hd Hne]. csimpl in *. rewrite length_app in Hlt.
  rewrite i64_small by (unfold is_i64; lia).
  destruct (IH (start + Z.of_nat (length d))) as (H1 & H2 & H3); [lia|done|lia|].
  assert (length d ≠ 0%nat) by (by destruct d).
  split; [split; [done|]; split; [simpl; lia|done]|].
  split; [constructor; [split; simpl; lia || done|done]|by constructor].
Qed.

(** The bytes staged for the dirty blocks, cut out of one buffer. *)
Fixpoint chunks (D : list Block) (data : list byte) (off : Z) : list (string * list byte) :=
  match D with
  | [] => []
  | b :: D =>
      (Id b, slice data off (block_size b + off)) :: chunks D data (block_size b + off)
  end.

Lemma chunks_ids D data off : (chunks D data off).*1 = Id <$> D.
Proof. revert off. induction D as [|b D IH]; intros off; [done|]. csimpl. by rewrite IH. Qed.

Lemma chunks_concat start D data off :
  contiguous start D → 0 ≤ start → end_of start D < 2 ^ 63 → 0 ≤ off →
  concat (chunks D data off).*2 = slice data off (off + (end_of start D - start)).
Proof.
  revert start off. induction D as [|b D IH]; intros start off.
  { intros. unfold end_of, slice. simpl. by replace (Z.to_nat _) with 0%nat by lia. }
  intros (H1 & H2 & H3) Hs. rewrite end_of_cons. intros He Ho. csimpl.
  pose proof (contiguous_le _ _ H3). rewrite block_size_small by lia.
  rewrite (IH (EndIndex b)) by (done || lia).
  rewrite slice_app by lia. f_equal. lia.
Qed.

Lemma chunks_describe start D data off :
  contiguous start D → 0 ≤ start → end_of start D < 2 ^ 63 → 0 ≤ off →
  off + (end_of start D - start) ≤ Z.of_nat (length data) →
  Forall2 describes_bytes D (chunks D data off).
Proof.
  revert start off. induction D as [|b D IH]; intros start off; [done|].
  intros (H1 & H2 & H3) Hs. rewrite end_of_cons. intros He Ho Hl. csimpl.
  pose proof (contiguous_le _ _ H3). rewrite block_size_small by lia. constructor.
  - split; [done|]. simpl. rewrite slice_length by lia. lia.
  - apply (IH (EndIndex b)); done || lia.
Qed.

Lemma describes_nonempty start l bs :
  contiguous start l → Forall2 describes_bytes l bs → Forall (λ x, x.2 ≠ []) bs.
Proof.
  intros Hc HF. revert start Hc. induction HF as [|b x l bs [Hid Hlen] HF IH]; intros start; [done|].
  intros (H1 & H2 & H3). constructor; [|eauto]. intros E. rewrite E in Hlen. simpl in Hlen. lia.
Qed.

(** ** Committing *)
Lemma committed_lookup bs id d :
  NoDup bs.*1 → (id, d) ∈ bs → committed (Some (Blocks bs)) id = Some d.
Proof.
  intros Hnd Hin. unfold committed.
  destruct (list_find (λ x, x.1 = id) bs) as [[i [id' d']]|] eqn:E; simpl.
  - apply list_find_Some in E as (Hi & Hid & _). simpl in Hid. subst id'.
    apply list_elem_of_lookup_2 in Hi.
    f_equal. apply list_elem_of_lookup in Hin as [j Hj]. apply list_elem_of_lookup in Hi as [k Hk].
    assert (j = k); [|by simplify_eq].
    apply (NoDup_lookup bs.*1 j k id); [done|rewrite list_lookup_fmap..]; [by rewrite Hj|by rewrite Hk].
  - apply list_find_None in E. rewrite Forall_forall in E. by destruct (E _ Hin).
Qed.

Lemma latest_resolves (c1 cD d2 : list (string * list byte)) new :
  NoDup (c1 ++ cD ++ d2).*1 → NoDup (c1 ++ new ++ d2).*1 →
  mapM (latest (Some (Blocks (c1 ++ cD ++ d2))) (list_to_map new)) (c1 ++ new ++ d2).*1
  = Some (c1 ++ new ++ d2).
Proof.
  intros Hold Hnew. apply mapM_Some. apply Forall2_fmap_l, Forall_Forall2_diag, Forall_forall.
  intros [id d] Hin. unfold latest. simpl.
  destruct (decide (id ∈ new.*1)) as [Hn|Hn].
  - assert (Hd : (id, d) ∈ new).
    { apply list_elem_of_fmap in Hn as ([id' d'] & -> & Hn). simpl in *.
      assert (Hin' : (id', d') ∈ c1 ++ new ++ d2) by set_solver.
      pose proof (committed_lookup _ _ _ Hnew Hin) as H1.
      pose proof (committed_lookup _ _ _ Hnew Hin') as H2. congruence. }
    rewrite (elem_of_list_to_map_1 new id d); [done| |done].
    rewrite !fmap_app in Hnew. apply NoDup_app in Hnew as (_ & _ & Hnew).
    by apply NoDup_app in Hnew as (Hnew & _).
  - rewrite not_elem_of_list_to_map_1 by done. simpl.
    pose proof (committed_lookup (c1 ++ cD ++ d2) id d) as Hl. simpl in Hl. rewrite Hl; [done|done|].
    assert ((id, d) ∉ new) by (intros H; apply Hn, list_elem_of_fmap; by exists (id, d)).
    set_solver.
Qed.

(** ** Total correctness of the operations *)
Section spec.
Context {N : Type} `{!Runtime N} `{!RuntimeLaws N} `{!BlobSDK N} `{!BlobService N}.
Context (cfg : BlobConfig).
Local Abbreviation bn := (blob_name cfg).

Definition content_of (n : N) (name : string) : option (list byte) := content <$> blob n !! name.

(** Nothing of the service changed, apart from the random source. *)
Definition same (n n' : N) : Prop := blob n' = blob n ∧ staged n' = staged n.

Lemma wp_new_id k n :
  9 ≤ k → wp (new_id k) (λ id n',
    same n n' ∧ issued n' = id :: issued n ∧ GetIdLength id = k) n.
Proof.
  intros Hk. unfold new_id. apply wp_bind. eapply wp_mono; [apply svc_rand; lia|].
  intros u n1 (Hb & Hs & bytes & -> & Hlen & Hi).
  destruct (NewUUIDWithLength_Ret k bytes) as (id & E & Hid); [done|done|].
  rewrite E. apply wp_ret. split; [done|]. by rewrite (Hi _ E).
Qed.

(** A block made by createBlock: to be staged as zeros. *)
Definition new_block (b : Block) : Prop :=
  Dirty b = true ∧ Truncated b = true ∧ Removed b = false.

Lemma wp_createNewBlocks_loop fuel k bs stop i n :
  9 ≤ k → 0 < bs → 0 ≤ i → stop < 2 ^ 63 → (Z.to_nat (stop - i) ≤ fuel)%nat →
  wp (createNewBlocks_loop fuel k bs stop i) (λ '(r, total) n',
    same n n' ∧ issued n' = reverse (Id <$> r) ++ issued n ∧
    contiguous i r ∧ Forall new_block r ∧
    end_of i r = Z.max i stop ∧ total = Z.max i stop - i ∧ (i < stop → r ≠ [])) n.
Proof.
  intros Hk Hbs. revert i n. induction fuel as [|fuel IH]; intros i n Hi Hst Hf; simpl.
  { destruct (Z.ltb_spec i stop); [lia|]. apply wp_ret. unfold end_of. simpl.
    repeat split; lia || constructor. }
  destruct (Z.ltb_spec i stop) as [Hlt|]; cycle 1.
  { apply wp_ret. unfold end_of. simpl. repeat split; lia || constructor. }
  unfold createBlock. apply wp_bind. apply wp_bind. eapply wp_mono; [by apply wp_new_id|].
  intros id n1 (Hs1 & Hi1 & _). apply wp_ret. apply wp_bind.
  eapply wp_mono; [apply IH; lia|].
  intros [r total] n2 (Hs2 & Hi2 & Hc & Hn & He & Ht & Hr). apply wp_ret.
  rewrite i64_small by (unfold is_i64; lia).
  split; [by destruct Hs1, Hs2; split; congruence|].
  split. { csimpl. rewrite reverse_cons, <-(assoc_L (++)). simpl. congruence. }
  split. { simpl. split; [done|]. split; [lia|].
    destruct (decide (i + bs ≤ stop)) as [Hle|Hgt].
    - by replace (i + Z.min bs (stop - i)) with (i + bs) by lia.
    - destruct r as [|b r]; [done|]. destruct Hc as (H1 & H2 & H3).
      exfalso. pose proof (contiguous_le _ _ H3). rewrite end_of_cons in He. lia. }
  split. { constructor; [|done]. unfold new_block, Dirty, Truncated, Removed. simpl.
    autorewrite with bitmap. done. }
  rewrite end_of_cons. simpl. split; [|split; [lia|done]].
  destruct (decide (i + bs ≤ stop)) as [Hle|Hgt].
  - replace (i + Z.min bs (stop - i)) with (i + bs) by lia. lia.
  - destruct r as [|b r]; [unfold end_of; simpl; lia|]. destruct Hc as (H1 & H2 & H3).
    pose proof (contiguous_le _ _ H3). rewrite end_of_cons in He. lia.
Qed.

Lemma ceil_div_pos a b : 0 < a → 0 < b → 0 < ceil_div a b.
Proof.
  intros. unfold ceil_div. pose proof (Z.div_lt_upper_bound (- a) b 0). lia.
Qed.

(** The block size chosen for the new blocks is positive, unless the blob has
    the maximal number of blocks already and no size is configured. *)
Definition room_for (num : Z) : Prop :=
  0 < blockSize cfg ∨ (blockSize cfg = 0 ∧ num < BlockBlobMaxBlocks).

Lemma wp_new_block_size num len n :
  room_for num → 0 ≤ len →
  wp (new_block_size cfg num len) (λ r n', n' = n ∧ ∀ bs, r = inl bs → 0 < bs) n.
Proof.
  intros Hroom Hlen. unfold new_block_size.
  destruct (Z.eqb_spec (blockSize cfg) 0) as [H0|H0]; cycle 1.
  { destruct (_ <? _); apply wp_ret; split; [done|done|done|]. intros bs [= <-].
    unfold room_for in Hroom. lia. }
  destruct (Z.ltb_spec BlockBlobMaxBlocks (num + ceil_div len (16 * 1024 * 1024))) as [Hlt|].
  - destruct (Z.eqb_spec (BlockBlobMaxBlocks - num) 0); [unfold room_for in Hroom; lia|].
    destruct (_ <? _); apply wp_ret; split; [done|done|done|]. intros bs [= <-].
    apply ceil_div_pos; [|unfold room_for in Hroom; lia].
    destruct (decide (len = 0)) as [->|]; [|lia].
    unfold room_for in Hroom. change (ceil_div 0 _) with 0 in Hlt. lia.
  - apply wp_ret. split; [done|]. intros bs [= <-]. lia.
Qed.

Lemma wp_createNewBlocks bol offset len n start :
  contiguous start (BlockList bol) → BlockList bol ≠ [] → 0 ≤ start →
  9 ≤ BlockIdLength bol → room_for (Z.of_nat (length (BlockList bol))) → 0 ≤ len →
  offset + len < 2 ^ 63 →
  wp (createNewBlocks cfg bol offset len) (λ '(bol', total, err) n',
    same n n' ∧
    match err with
    | Some _ => True
    | None => ∃ r, bol' = bol_with_blocks (BlockList bol ++ r) bol ∧
        let stop := Z.max (end_of start (BlockList bol)) (offset + len) in
        issued n' = reverse (Id <$> r) ++ issued n ∧
        contiguous (end_of start (BlockList bol)) r ∧ Forall new_block r ∧
        end_of (end_of start (BlockList bol)) r = stop ∧
        total = stop - end_of start (BlockList bol) ∧
        (end_of start (BlockList bol) < stop → r ≠ [])
    end) n.
Proof.
  intros Hc Hne Hs Hk Hroom Hlen Hlt. unfold createNewBlocks.
  destruct (last (BlockList bol)) as [b|] eqn:El; [|by apply last_None in El].
  assert (He : end_of start (BlockList bol) = EndIndex b) by (unfold end_of; by rewrite El).
  pose proof (contiguous_le _ _ Hc).
  apply wp_bind. apply wp_ret. apply wp_bind. eapply wp_mono; [by apply wp_new_block_size|].
  intros [bs|e] n1 [-> Hbs]; [|by apply wp_ret].
  apply wp_bind. eapply wp_mono.
  { apply wp_createNewBlocks_loop; [done|by apply Hbs|lia|lia|lia]. }
  intros [r total] n2 (Hs2 & Hi2 & Hcr & Hn & Her & Ht & Hr). apply wp_ret. split; [done|].
  exists r. rewrite He. split; [done|]. split; [done|]. split; [done|]. split; [done|].
  split; [done|]. split; [done|]. intros. apply Hr. lia.
Qed.

(** *** Staging *)
Lemma stage_modified_clean name l rest data off :
  Forall (λ b, Dirty b = false) l →
  stage_modified cfg name (l ++ rest) data off = stage_modified cfg name rest data off.
Proof. induction 1 as [|b l Hb _ IH]; [done|]. simpl. by rewrite Hb. Qed.

Lemma wp_stage_modified name start D rest data off n :
  contiguous start D → 0 ≤ start → end_of start D < 2 ^ 63 → 0 ≤ off →
  off + (end_of start D - start) ≤ Z.of_nat (length data) →
  Forall (λ b, Dirty b = true) D → Forall (λ b, Dirty b = false) rest →
  wp (stage_modified cfg name (D ++ rest) data off) (λ e n',
    blob n' = blob n ∧ issued n' = issued n ∧
    (e = None → NoDup (Id <$> D) →
       staged n' (bn name) = list_to_map (chunks D data off) ∪ staged n (bn name))) n.
Proof.
  intros Hc Hs He Ho Hl HD Hrest. revert start off n Hc Hs He Ho Hl.
  induction HD as [|b D Hb HD IH]; intros start off n Hc Hs He Ho Hl; simpl.
  { rewrite <-(app_nil_r rest), stage_modified_clean by done. apply wp_ret.
    do 2 (split; [done|]). intros _ _. by rewrite (left_id_L ∅ (∪)). }
  destruct Hc as (H1 & H2 & H3). rewrite end_of_cons in He, Hl.
  pose proof (contiguous_le _ _ H3). rewrite Hb, block_size_small by lia.
  apply wp_bind. unfold slice_go.
  destruct ((0 <=? off) && _ && _) eqn:Hb3; [|lia]. apply wp_ret.
  apply wp_bind. eapply wp_mono; [apply svc_StageBlock|].
  intros [e|] n1 (Hb1 & Hi1 & Hst); [by apply wp_ret|].
  eapply wp_mono; [apply (IH (EndIndex b)); done || lia|].
  intros e n2 (Hb2 & Hi2 & Hst2). split; [congruence|]. split; [congruence|].
  intros -> Hnd. apply NoDup_cons in Hnd as [Hni Hnd]. rewrite Hst2, Hst by done.
  rewrite <-insert_union_r, insert_union_l; [done|].
  apply not_elem_of_list_to_map_1. by rewrite chunks_ids.
Qed.

Lemma wp_stageAndCommit name data bol l1 D m2 c1 cD d2 start n :
  BlockList bol = l1 ++ D ++ m2 →
  (Id <$> l1) = c1.*1 → (Id <$> m2) = d2.*1 →
  Forall (λ b, Dirty b = false) l1 → Forall (λ b, Dirty b = false) m2 →
  Forall (λ b, Dirty b = true) D →
  contiguous start D → 0 ≤ start → end_of start D < 2 ^ 63 →
  Z.of_nat (length data) = end_of start D - start →
  blob n !! bn name = Some (Blocks (c1 ++ cD ++ d2)) → NoDup (c1 ++ cD ++ d2).*1 →
  staged n (bn name) = ∅ →
  wp (stageAndCommitModifiedBlocks cfg name data bol) (λ e n',
    issued n' = issued n ∧
    match e with
    | Some _ => blob n' = blob n
    | None => NoDup (Id <$> BlockList bol) →
        staged n' (bn name) = ∅ ∧
        blob n' = <[bn name := Blocks (c1 ++ chunks D data 0 ++ d2)]> (blob n)
    end) n.
Proof.
  intros Heq Hid1 Hid2 Hl1 Hm2 HD Hc Hs He Hlen Hb Hnd Hst.
  unfold stageAndCommitModifiedBlocks. rewrite Heq, stage_modified_clean by done.
  apply wp_bind. eapply wp_mono; [apply (wp_stage_modified _ start); done || lia|].
  intros [e|] n1 (Hb1 & Hi1 & Hst1); [by apply wp_ret|].
  eapply wp_mono; [apply svc_CommitBlockList|].
  intros [e|] n2 (Hi2 & Hpost); [split; congruence|]. split; [congruence|].
  intros Hnd'. destruct Hpost as (Hst2 & bs & Hm & Hb2). split; [done|].
  rewrite !fmap_app in Hnd'. pose proof Hnd' as (_ & _ & HndD)%NoDup_app.
  apply NoDup_app in HndD as (HndD & _). specialize (Hst1 eq_refl HndD).
  rewrite Hst, (right_id_L ∅ (∪)) in Hst1.
  assert (Hids : Id <$> l1 ++ D ++ m2 = (c1 ++ chunks D data 0 ++ d2).*1).
  { by rewrite !fmap_app, chunks_ids, Hid1, Hid2. }
  rewrite Hb2, Hb1. do 2 f_equal. rewrite Hids, Hb1, Hb, Hst1, latest_resolves in Hm.
  - congruence.
  - done.
  - by rewrite <-Hids, !fmap_app.
Qed.

(** *** Writing *)
Lemma wp_index_go {A} (l : list A) i x (Q : A → N → Prop) n :
  l !! i = Some x → Q x n → wp (index_go l (Z.of_nat i)) Q n.
Proof.
  intros Hl HQ. unfold index_go. destruct (Z.leb_spec 0 (Z.of_nat i)); [|lia].
  rewrite Nat2Z.id, Hl. by apply wp_ret.
Qed.

Lemma wp_make_slice (k : nat) (Q : list byte → N → Prop) n :
  Q (replicate k zero_byte) n → wp (make_slice (Z.of_nat k)) Q n.
Proof.
  intros HQ. unfold make_slice. destruct (Z.ltb_spec (Z.of_nat k) 0); [lia|].
  unfold make_bytes. by rewrite Nat2Z.id.
Qed.

(** A blob whose blocks can be rewritten in place: its ids are distinct, each
    is known to the random source, no staged block is left over. *)
Definition writable (n : N) (name : string) (bs : list (string * list byte)) : Prop :=
  blob n !! name = Some (Blocks bs) ∧ bs ≠ [] ∧ Forall (λ x, x.2 ≠ []) bs ∧
  NoDup bs.*1 ∧ bs.*1 ⊆ issued n ∧ staged n name = ∅ ∧
  (∀ x, head bs = Some x → 9 ≤ GetIdLength x.1).

Lemma wp_GetFileBlockOffsets name n bs :
  writable n (bn name) bs → Z.of_nat (length (concat bs.*2)) < 2 ^ 63 →
  wp (GetFileBlockOffsets cfg name) (λ '(bol, err) n',
    same n n' ∧ issued n' = issued n ∧
    (err = None →
      contiguous 0 (BlockList bol) ∧ Forall2 describes_bytes (BlockList bol) bs ∧
      Forall (λ b, bFlags b = 0) (BlockList bol) ∧ SmallFile bol = false ∧
      9 ≤ BlockIdLength bol)) n.
Proof.
  intros (Hb & Hne & Hnz & _ & _ & _ & Hid) Hlt. unfold GetFileBlockOffsets. apply wp_bind.
  eapply wp_mono; [apply svc_GetBlockList|]. intros [l|e] n1 (H1 & H2 & H3 & Hl); [|by apply wp_ret].
  specialize (Hl _ eq_refl). rewrite Hb in Hl. subst l. destruct bs as [|x bs]; [done|].
  csimpl. apply wp_ret. split; [done|]. split; [done|]. intros _.
  pose proof (blocks_of_spec 0 (x :: bs) ltac:(lia) Hnz Hlt) as (Hc & HF & Hfl).
  split; [done|]. split; [done|]. split; [done|]. split; [done|]. simpl. by apply Hid.
Qed.

(** What a change of one blob's content promises: on an error no committed
    content changed; on success, unless two random ids collided, the blob has
    the new content, in the shape that the next operation needs, and the other
    blobs are as before. *)
Definition changed (n n' : N) (name : string) (c : list byte) (e : option error) : Prop :=
  match e with
  | Some _ => blob n' = blob n
  | None => NoDup (issued n') →
      (∃ bs, writable n' name bs ∧ concat bs.*2 = c) ∧
      ∀ k, k ≠ name → blob n' !! k = blob n !! k
  end.

(** A block list to commit for a writable blob: [D] is replaced, the rest kept. *)
Record rewrites (n : N) (name : string) (l1 D m2 : list Block)
    (c1 cD d2 : list (string * list byte)) : Prop := {
  rw_writable : writable n name (c1 ++ cD ++ d2);
  rw_nonempty : D ≠ [];
  rw_ids1 : Id <$> l1 = c1.*1;
  rw_ids2 : Id <$> m2 = d2.*1;
  rw_head : head (Id <$> l1 ++ D ++ m2) = head (c1 ++ cD ++ d2).*1;
  rw_contiguous : contiguous (Z.of_nat (length (concat c1.*2))) D;
  rw_end : end_of (Z.of_nat (length (concat c1.*2))) D < 2 ^ 63;
  rw_issued : Id <$> l1 ++ D ++ m2 ⊆ issued n;
  rw_nodup : NoDup (issued n) → NoDup (Id <$> l1 ++ D ++ m2)
}.

Lemma rewrites_writable n n' name l1 D m2 c1 cD d2 new :
  rewrites n name l1 D m2 c1 cD d2 → Forall2 describes_bytes D new →
  blob n' !! name = Some (Blocks (c1 ++ new ++ d2)) → staged n' name = ∅ →
  issued n' = issued n → NoDup (issued n) → writable n' name (c1 ++ new ++ d2).
Proof.
  intros [(_ & _ & Hnz & _ & _ & _ & Hid) Hne Hi1 Hi2 Hh Hc He Hiss Hnd] HF Hb Hst Hi Hn.
  assert (Hids : (c1 ++ new ++ d2).*1 = Id <$> l1 ++ D ++ m2).
  { by rewrite !fmap_app, Hi1, Hi2, (describes_ids D new). }
  split; [done|]. split. { destruct D; [done|]. inversion HF; subst. by destruct c1. }
  split. { rewrite !Forall_app in Hnz |- *. destruct Hnz as (? & _ & ?). split; [done|].
    split; [|done]. by eapply describes_nonempty. }
  rewrite Hids, Hi. split; [by apply Hnd|]. split; [done|]. split; [done|].
  intros x Hx. rewrite <-Hids in Hh.
  assert (Hx' : head (c1 ++ new ++ d2).*1 = Some x.1)
    by (destruct (c1 ++ new ++ d2); simplify_eq/=; done).
  rewrite Hh in Hx'. destruct (c1 ++ cD ++ d2) as [|y l]; simplify_eq/=.
  rewrite <-Hx'. by apply Hid.
Qed.

Lemma wp_write_tail name data offset bol l1 D m2 c1 cD d2 z n :
  rewrites n (bn name) l1 D m2 c1 cD d2 →
  BlockList bol = l1 ++ D ++ m2 →
  Forall (λ b, Dirty b = false) l1 → Forall (λ b, Dirty b = false) m2 →
  Forall (λ b, Dirty b = true) D →
  let start := length (concat c1.*2) in
  end_of (Z.of_nat start) D = Z.of_nat (start + length (concat cD.*2) + z) →
  (start ≤ offset)%nat → (offset + length data ≤ start + length (concat cD.*2) + z)%nat →
  z = 0%nat ∨ (d2 = [] ∧ (offset + length data = start + length (concat cD.*2) + z)%nat) →
  wp (b ← index_go (BlockList bol) (Z.of_nat (length l1));
      let blockOffset := i64 (Z.of_nat offset - StartIndex b) in
      let buf := concat cD.*2 ++ replicate z zero_byte in
      if (blockOffset <? 0) || (Z.of_nat (length buf) <? blockOffset) then go_panic
      else stageAndCommitModifiedBlocks cfg name (copy_at buf (Z.to_nat blockOffset) data).1 bol)
   (λ e n', changed n n' (bn name) (splice (concat (c1 ++ cD ++ d2).*2) offset data) e) n.
Proof.
  intros Hrw Heq Hl1 Hm2 HD start Hend Hs Hfit Hz. pose proof Hrw as [Hw Hne ? ? ? Hc He ? Hnd'].
  destruct D as [|b D]; [done|]. pose proof Hc as (HSb & _ & _).
  apply wp_bind. eapply wp_index_go; [by rewrite Heq; apply list_lookup_middle|].
  cbn zeta. fold start in HSb, Hc, He. rewrite HSb, i64_small by (unfold is_i64; lia).
  assert (Hbuf : length (concat cD.*2 ++ replicate z zero_byte) = (length (concat cD.*2) + z)%nat).
  { by rewrite length_app, length_replicate. }
  rewrite Hbuf. destruct ((_ <? 0) || _) eqn:Eg; [apply orb_true_iff in Eg as [Eg%Z.ltb_lt|Eg%Z.ltb_lt]; exfalso; lia|].
  replace (Z.to_nat (Z.of_nat offset - Z.of_nat start)) with (offset - start)%nat by lia.
  assert (Hlen : length (copy_at (concat cD.*2 ++ replicate z zero_byte) (offset - start) data).1
                 = (length (concat cD.*2) + z)%nat) by (rewrite copy_at_length; lia).
  pose proof Hw as (Hb & _ & _ & Hnd & _ & Hst & _).
  eapply wp_mono; [eapply (wp_stageAndCommit _ _ _ l1 (b :: D) m2 c1 cD d2 (Z.of_nat start)); done || lia|].
  intros [e|] n1 [Hi Hpost]; [done|]. intros Hni. rewrite Hi in Hni.
  destruct Hpost as [Hst1 Hb1]; [rewrite Heq; by apply Hnd'|].
  split; [|intros k Hk; by rewrite Hb1, lookup_insert_ne by done].
  set (buf := (copy_at _ _ _).1) in *. exists (c1 ++ chunks (b :: D) buf 0 ++ d2). split.
  - eapply rewrites_writable; [exact Hrw| |by rewrite Hb1, lookup_insert_eq|done..].
    eapply chunks_describe; [exact Hc|lia..].
  - rewrite !fmap_app, !concat_app. rewrite (chunks_concat (Z.of_nat start)) by (done || lia).
    rewrite Hend, Z.add_0_l. rewrite <-(splice_middle _ _ _ _ _ z).
    + fold start buf. do 2 f_equal. rewrite <-(slice_full buf) at 2. f_equal. lia.
    + done.
    + done.
    + destruct Hz as [|[-> ?]]; auto.
Qed.

Lemma clean_of_flags l : Forall (λ b, bFlags b = 0) l → Forall (λ b, Dirty b = false) l.
Proof. intros H. eapply Forall_impl; [exact H|]. intros b Hb. unfold Dirty. by rewrite Hb. Qed.

Lemma dirty_set l : Forall (λ b, Dirty b = true) (block_set DirtyBlock <$> l).
Proof.
  apply Forall_fmap, Forall_forall. intros b _.
  change (IsSet (Set_ (bFlags b) DirtyBlock) DirtyBlock = true). by rewrite IsSet_Set by (unfold is_bit, DirtyBlock; lia).
Qed.

Lemma ids_set (l : list Block) : Id <$> (block_set DirtyBlock <$> l) = Id <$> l.
Proof. rewrite <-list_fmap_compose. by apply list_fmap_ext. Qed.

Lemma contiguous_set start l :
  contiguous start (block_set DirtyBlock <$> l) ↔ contiguous start l.
Proof. revert start. induction l as [|b l IH]; intros start; simpl; [done|]. by rewrite IH. Qed.

Lemma end_of_set start l : end_of start (block_set DirtyBlock <$> l) = end_of start l.
Proof. unfold end_of. rewrite fmap_last. by destruct (last l). Qed.

Lemma same_writable n n' name bs ids :
  same n n' → issued n' = ids ++ issued n → writable n name bs → writable n' name bs.
Proof.
  intros [Hb Hs] Hi (H1 & H2 & H3 & H4 & H5 & H6 & H7). unfold writable.
  rewrite Hb, Hs, Hi. do 4 (split; [done|]). split; [set_solver|]. done.
Qed.

(** The ids of a list whose new blocks were just drawn. *)
Lemma nodup_drawn (old new : list string) (iss : list string) :
  NoDup old → old ⊆ iss → NoDup (reverse new ++ iss) → NoDup (old ++ new).
Proof.
  intros Ho Hsub Hnd. apply NoDup_app in Hnd as (Hr & Hd & _).
  rewrite reverse_Permutation in Hr. apply NoDup_app. split; [done|]. split; [|done].
  intros x Hx Hn. apply (Hd x); [by rewrite elem_of_reverse|by apply Hsub].
Qed.

Lemma same_rewrites n n' name l1 D m2 c1 cD d2 :
  same n n' → issued n' = issued n →
  rewrites n name l1 D m2 c1 cD d2 → rewrites n' name l1 D m2 c1 cD d2.
Proof.
  intros Hs Hi [H1 ? ? ? ? ? ? H8 H9]. split; try done; rewrite ?Hi; [|done..].
  by eapply (same_writable n n' _ _ []).
Qed.

(** No read of the service fails: Write drops the errors of its reads. *)
Definition reads_reliable : Prop := ∀ name offset len buf n r n',
  sdk_Download (N := N) name offset len buf n = Ret (r, n') → r.2 = None.

(** The attributes of an existing blob can be read: TruncateFile dereferences
    them after an error other than ENOENT. *)
Definition attributes_reliable : Prop := ∀ name n, is_Some (blob n !! name) →
  (∀ r n', sdk_GetProperties (N := N) name n = Ret (r, n') → ∃ p, r = inl p) ∧
  (∀ count r n', sdk_ListHierarchy (N := N) None name count n = Ret (r, n') → ∃ seg, r = inl seg).

Section reads.
Context (reads_succeed : reads_reliable).

Lemma wp_ReadInBuffer name (A B C buf : list byte) b n :
  blob n !! bn name = Some b → content b = A ++ B ++ C → B ≠ [] →
  (length B ≤ length buf)%nat →
  wp (ReadInBuffer cfg name (Z.of_nat (length A)) (Z.of_nat (length B)) buf) (λ r n',
    same n n' ∧ issued n' = issued n ∧ r = (B ++ drop (length B) buf, None)) n.
Proof.
  intros Hb Hc HB Hlen. unfold ReadInBuffer. apply wp_bind.
  apply wp_Ret. pose proof (svc_Download (bn name) (Z.of_nat (length A)) (Z.of_nat (length B)) buf n) as Hd.
  apply wp_Ret in Hd as ([d err] & n1 & E & H1 & H2 & H3 & _ & H5).
  exists (d, err), n1. split; [done|]. apply wp_ret. split; [done|]. split; [done|].
  specialize (reads_succeed _ _ _ _ _ _ _ E). simpl in *. subst err.
  assert (Hcount : download_count (content b) (Z.of_nat (length A)) (Z.of_nat (length B))
                   = Z.of_nat (length B)).
  { unfold download_count. destruct (Z.eqb_spec (Z.of_nat (length B)) 0); [by destruct B|done]. }
  rewrite (H5 eq_refl b Hb) by (rewrite ?Hcount, ?Hc, ?length_app; lia).
  rewrite Hcount, Hc, Nat2Z.id. simpl. f_equal. f_equal.
  rewrite <-Nat2Z.inj_add. by rewrite slice_middle.
Qed.

(** The state after the block list was read. *)
Record opened (n : N) (name : string) (bol : BlockOffsetList) (bs : list (string * list byte))
    : Prop := {
  op_writable : writable n name bs;
  op_contiguous : contiguous 0 (BlockList bol);
  op_bytes : Forall2 describes_bytes (BlockList bol) bs;
  op_flags : Forall (λ b, bFlags b = 0) (BlockList bol);
  op_idlen : 9 ≤ BlockIdLength bol;
  op_room : room_for (Z.of_nat (length (BlockList bol)))
}.

Lemma opened_nonempty n name bol bs : opened n name bol bs → BlockList bol ≠ [].
Proof. intros [(_ & Hne & _) _ HF _ _ _]. by inversion HF; subst. Qed.

Lemma opened_end n name bol bs :
  opened n name bol bs → end_of 0 (BlockList bol) = Z.of_nat (length (concat bs.*2)).
Proof. intros [_ Hc HF _ _ _]. by rewrite (describes_end 0 _ bs). Qed.

(** The appended blocks only. *)
Lemma opened_append n n' name bol bs r ids :
  opened n name bol bs → same n n' → ids = reverse (Id <$> r) →
  issued n' = ids ++ issued n → r ≠ [] →
  contiguous (end_of 0 (BlockList bol)) r → end_of (end_of 0 (BlockList bol)) r < 2 ^ 63 →
  rewrites n' name (BlockList bol) r [] bs [] [].
Proof.
  intros Ho Hs -> Hi Hr Hc He. pose proof Ho as [Hw Hc0 HF _ _ _].
  pose proof (opened_nonempty _ _ _ _ Ho) as Hne. rewrite (opened_end _ _ _ _ Ho) in Hc, He.
  pose proof (describes_ids _ _ HF) as Hids. pose proof Hw as (_ & _ & _ & Hnd & Hsub & _).
  split.
  - rewrite !app_nil_r. by eapply same_writable.
  - done.
  - done.
  - done.
  - rewrite !app_nil_r, fmap_app, Hids. inversion HF; subst; [by rewrite <-Hids in *|done].
  - done.
  - done.
  - rewrite app_nil_r, fmap_app, Hids, Hi. set_solver.
  - intros Hnd'. rewrite app_nil_r, fmap_app, Hids. apply (nodup_drawn _ _ (issued n)); [done..|].
    by rewrite <-Hi.
Qed.

(** A run of blocks in the middle, with the blocks appended when it reaches the
    end of the file. *)
Lemma opened_inside n n' name bol bs l1 D m2 r :
  opened n name bol bs → BlockList bol = l1 ++ D ++ m2 → D ≠ [] → r = [] ∨ m2 = [] →
  same n n' → issued n' = reverse (Id <$> r) ++ issued n →
  contiguous (end_of 0 (BlockList bol)) r → end_of (end_of 0 (BlockList bol)) r < 2 ^ 63 →
  ∃ c1 cD d2, bs = c1 ++ cD ++ d2 ∧ Forall2 describes_bytes l1 c1 ∧
    Forall2 describes_bytes D cD ∧ Forall2 describes_bytes m2 d2 ∧
    rewrites n' name l1 ((block_set DirtyBlock <$> D) ++ r) m2 c1 cD d2.
Proof.
  intros Ho Heq HD Hor Hs Hi Hc He. pose proof Ho as [Hw Hc0 HF _ _ _].
  rewrite Heq in HF, Hc0. apply Forall2_app_inv_l in HF as (c1 & c2 & HF1 & HF & ->).
  apply Forall2_app_inv_l in HF as (cD & d2 & HFD & HF2 & ->).
  exists c1, cD, d2. do 4 (split; [done|]).
  apply contiguous_app in Hc0 as [Hc1 Hc0]. apply contiguous_app in Hc0 as [HcD Hc2].
  pose proof (contiguous_le _ _ Hc2) as Hle. pose proof (contiguous_le _ _ Hc) as Hle'.
  rewrite Heq, !end_of_app in Hc, He, Hle'.
  rewrite (describes_end 0 l1 c1), Z.add_0_l in HcD, Hle, Hle', Hc, He by done.
  pose proof (describes_ids _ _ HF1) as E1. pose proof (describes_ids _ _ HFD) as ED.
  pose proof (describes_ids _ _ HF2) as E2. pose proof Hw as (_ & _ & _ & Hnd & Hsub & _).
  rewrite !fmap_app in Hnd, Hsub.
  assert (Hids : Id <$> l1 ++ ((block_set DirtyBlock <$> D) ++ r) ++ m2
                 = c1.*1 ++ cD.*1 ++ (Id <$> r) ++ d2.*1).
  { by rewrite !fmap_app, ids_set, E1, ED, E2, <-!(assoc_L (++)). }
  split.
  - by eapply same_writable.
  - destruct D; [done|done].
  - done.
  - done.
  - rewrite Hids, !fmap_app. rewrite <-ED. destruct (c1.*1); [|done]. by destruct D.
  - apply contiguous_app. rewrite contiguous_set, end_of_set. split; [done|].
    destruct Hor as [->| ->]; [done|]. done.
  - rewrite end_of_app, end_of_set. destruct Hor as [->| ->]; [|done].
    change (end_of (Z.of_nat (length (concat c1.*2))) D < 2 ^ 63).
    change (end_of (end_of (end_of (Z.of_nat (length (concat c1.*2))) D) m2) [])
      with (end_of (end_of (Z.of_nat (length (concat c1.*2))) D) m2) in He. lia.
  - rewrite Hids, Hi. set_solver.
  - rewrite Hids. intros Hn. destruct Hor as [->| ->]; [done|].
    inversion HF2; subst. simpl in Hnd, Hsub |- *. rewrite app_nil_r in Hnd, Hsub |- *.
    rewrite (assoc_L (++)). apply (nodup_drawn _ _ (issued n)); [done..|]. by rewrite <-Hi.
Qed.

(** The blocks after the modified run lie wholly behind the write. *)
Lemma reached_fits start D m2 m1 stop :
  contiguous start (D ++ m2) → reached stop m1 m2 → stop < end_of start (D ++ m2) → stop ≤ end_of start D.
Proof.
  intros Hc [_ Hr] Hlt. apply contiguous_app in Hc as [_ Hc].
  destruct m2 as [|c m2]; [rewrite app_nil_r in Hlt; lia|]. destruct Hc as (H1 & _). lia.
Qed.

Lemma reached_all start l1 D m1 m2 stop :
  contiguous start (l1 ++ D ++ m2) → reached stop m1 m2 →
  end_of start (l1 ++ D ++ m2) ≤ stop → m2 = [].
Proof.
  intros Hc [_ Hr] Hle. destruct m2 as [|c m2]; [done|].
  rewrite (assoc_L (++)) in Hc, Hle. apply contiguous_app in Hc as [_ (H1 & H2 & H3)].
  rewrite end_of_app, end_of_cons in Hle. apply contiguous_le in H3. lia.
Qed.

Lemma changed_same n n1 n' name c e : same n n1 → changed n1 n' name c e → changed n n' name c e.
Proof. intros [Hb _]. unfold changed. by rewrite Hb. Qed.

(** The new blocks of a write that starts inside the file. *)
Lemma wp_write_extend n name bol bs l1 D m1 m2 offset (data : list byte) :
  opened n name bol bs → BlockList bol = l1 ++ D ++ m2 →
  reached (Z.of_nat offset + Z.of_nat (length data)) m1 m2 →
  Z.of_nat (offset + length data) < 2 ^ 62 →
  let size := length (concat bs.*2) in
  let bol' := bol_with_blocks (l1 ++ (block_set DirtyBlock <$> D) ++ m2) bol in
  wp (if Z.of_nat size <=? Z.of_nat offset + Z.of_nat (length data)
      then createNewBlocks cfg bol' (Z.of_nat offset) (Z.of_nat (length data))
      else mret (bol', 0, None))
   (λ '(bol1, total, err) n1, same n n1 ∧ (err = None → ∃ r,
      BlockList bol1 = l1 ++ ((block_set DirtyBlock <$> D) ++ r) ++ m2 ∧
      Forall (λ b, Dirty b = true) r ∧
      issued n1 = reverse (Id <$> r) ++ issued n ∧
      contiguous (Z.of_nat size) r ∧
      end_of (Z.of_nat size) r = Z.of_nat (size + (offset + length data - size)) ∧
      total = Z.of_nat (offset + length data - size) ∧
      ((r = [] ∧ offset + length data < size)%nat ∨ (m2 = [] ∧ size ≤ offset + length data)%nat))) n.
Proof.
  intros Ho Heq Hr Hlt size bol'. pose proof Ho as [_ Hc HF _ Hk Hroom].
  pose proof (opened_end _ _ _ _ Ho) as Hend.
  destruct (Z.leb_spec (Z.of_nat size) (Z.of_nat offset + Z.of_nat (length data))) as [Hle|Hgt]; cycle 1.
  { apply wp_ret. split; [done|]. intros _. exists []. simpl. unfold end_of. simpl.
    rewrite app_nil_r. do 4 (split; [done|]). split; [lia|]. split; [lia|]. left. split; [done|lia]. }
  assert (m2 = []) as ->.
  { rewrite Heq in Hc, Hend. eapply reached_all; [exact Hc|exact Hr|lia]. }
  assert (Hend' : end_of 0 (BlockList bol') = Z.of_nat size).
  { unfold size, bol'. rewrite <-Hend, Heq. simpl. by rewrite !end_of_app, end_of_set. }
  eapply wp_mono.
  { apply (wp_createNewBlocks _ _ _ _ 0); [| | | | | |lia].
    - unfold bol'. simpl. rewrite Heq in Hc. apply contiguous_app in Hc as [H1 H2].
      apply contiguous_app. rewrite app_nil_r in H2 |- *. by rewrite contiguous_set.
    - pose proof (opened_nonempty _ _ _ _ Ho) as Hne. unfold bol'. simpl. rewrite Heq in Hne.
      destruct l1; [|done]. by destruct D.
    - lia.
    - done.
    - unfold bol'. simpl. rewrite Heq in Hroom. rewrite !length_app, length_fmap in *. done.
    - lia. }
  intros [[bol1 total] [e|]] n1 [Hs Hpost]; [done|]. split; [done|]. intros _.
  destruct Hpost as (r & -> & Hpost). rewrite Hend' in Hpost.
  destruct Hpost as (Hi & Hcr & Hn & Her & Ht & _). exists r. rewrite app_nil_r.
  split; [unfold bol'; simpl; by rewrite app_nil_r, <-!(assoc_L (++))|].
  split; [eapply Forall_impl; [exact Hn|]; by intros b (? & _)|].
  split; [done|]. split; [done|]. split; [lia|]. split; [lia|]. right. split; [done|lia].
Qed.

(** Write after FindBlocksToModify. *)
Definition write_rest (name : string) (offset : Z) (data : list byte) (bol : BlockOffsetList)
    (index oldDataSize : Z) (exceeds appendOnly : bool) : go N (option error) :=
  '(bol, newBufferSize, err) ←
    (if exceeds then createNewBlocks cfg bol offset (Z.of_nat (length data)) else mret (bol, 0, None));
  match err with
  | Some e => mret (Some e)
  | None =>
      buf ← make_slice (oldDataSize + newBufferSize);
      buf ← (if appendOnly : bool then mret buf
             else
               b ← index_go (BlockList bol) index;
               '(buf', _) ← ReadInBuffer cfg name (StartIndex b) oldDataSize buf;
               mret buf');
      b ← index_go (BlockList bol) index;
      let blockOffset := i64 (offset - StartIndex b) in
      if (blockOffset <? 0) || (Z.of_nat (length buf) <? blockOffset) then go_panic
      else stageAndCommitModifiedBlocks cfg name (copy_at buf (Z.to_nat blockOffset) data).1 bol
  end.

Lemma wp_write_inside n name bol bs offset data :
  opened n (bn name) bol bs → (offset < length (concat bs.*2))%nat →
  Z.of_nat (length (concat bs.*2)) < 2 ^ 62 → Z.of_nat (offset + length data) < 2 ^ 62 →
  wp (let '(bol, (index, oldDataSize, exceeds, appendOnly)) :=
        FindBlocksToModify bol (Z.of_nat offset) (Z.of_nat (length data)) in
      write_rest name (Z.of_nat offset) data bol index oldDataSize exceeds appendOnly)
   (λ e n', changed n n' (bn name) (splice (concat bs.*2) offset data) e) n.
Proof.
  intros Ho Hin Hsz Hlt. pose proof Ho as [Hw Hc HF Hfl _ _].
  pose proof (opened_end _ _ _ _ Ho) as Hend.
  destruct (contiguous_split 0 (BlockList bol) (Z.of_nat offset) Hc) as (l1 & b & l2 & Heq & Hh); [lia|].
  pose proof Hc as Hc'. rewrite Heq in Hc'. apply contiguous_app in Hc' as [Hc1 (HSb & Hb2 & Hc2)].
  destruct (reached_exists _ _ (Z.of_nat offset + Z.of_nat (length data)) Hc2) as (m1 & m2 & -> & Hr).
  rewrite (FindBlocksToModify_inside 0 bol l1 b m1 m2) by (done || lia || (unfold is_i64; lia)).
  rewrite Hend. unfold write_rest. apply wp_bind.
  eapply wp_mono; [by eapply (wp_write_extend _ _ _ _ l1 (b :: m1) m1 m2)|].
  intros [[bol1 total] [e|]] n1 [Hs Hpost]; [by apply wp_ret; destruct Hs|].
  destruct (Hpost eq_refl) as (r & Hbol & Hdr & Hi & Hcr & Her & -> & Hor). clear Hpost.
  destruct (opened_inside n n1 (bn name) bol bs l1 (b :: m1) m2 r) as (c1 & cD & d2 & -> & HF1 & HFD & HF2 & Hrw).
  1: done. 1: done. 1: done. 1: (destruct Hor as [[? _]|[? _]]; auto). 1: done. 1: done.
  1: by rewrite Hend. 1: (rewrite Hend; lia).
  set (z := (offset + length data - length (concat (c1 ++ cD ++ d2).*2))%nat) in *.
  assert (HcD : contiguous (Z.of_nat (length (concat c1.*2))) (b :: m1)).
  { rewrite (describes_end 0 l1 c1), Z.add_0_l in HSb by done. split; [done|]. split; [done|].
    by apply contiguous_app in Hc2 as [? _]. }
  pose proof (describes_end _ _ _ HcD HFD) as HeD.
  assert (HSb' : StartIndex b = Z.of_nat (length (concat c1.*2))) by apply HcD. rewrite HSb', HeD.
  assert (HcDne : concat cD.*2 ≠ []).
  { intros E. rewrite E in HeD. pose proof (contiguous_le _ _ (proj2 (proj2 HcD))) as Hle.
    rewrite end_of_cons in HeD. simpl in HeD. lia. }
  assert (Hall : m2 = [] →
    length (concat (c1 ++ cD ++ d2).*2) = (length (concat c1.*2) + length (concat cD.*2))%nat).
  { intros ->. inversion HF2; subst. by rewrite app_nil_r, fmap_app, concat_app, length_app. }
  match goal with |- wp (make_slice ?x ≫= _) _ _ =>
    replace x with (Z.of_nat (length (concat cD.*2) + z)) by lia end.
  apply wp_bind, wp_make_slice. apply wp_bind.
  pose proof Hrw as [Hw1 _ _ _ _ _ He1 _ _].
  apply wp_bind. eapply wp_index_go; [by rewrite Hbol; apply list_lookup_middle|].
  apply wp_bind. cbn [StartIndex block_set]. rewrite HSb'.
  match goal with |- wp (ReadInBuffer _ _ _ ?x _) _ _ =>
    replace x with (Z.of_nat (length (concat cD.*2))) by lia end.
  eapply wp_mono.
  { eapply wp_ReadInBuffer; [apply Hw1|simpl; by rewrite !fmap_app, !concat_app|done|].
    rewrite length_replicate. lia. }
  intros ? n2 (Hs2 & Hi2 & ->). apply wp_ret. rewrite drop_replicate.
  replace (length (concat cD.*2) + z - length (concat cD.*2))%nat with z by lia.
  eapply wp_mono.
  { eapply (wp_write_tail name data offset bol1 l1 ((block_set DirtyBlock <$> b :: m1) ++ r) m2 c1 cD d2 z).
    - eapply same_rewrites; done.
    - done.
    - apply clean_of_flags. rewrite Heq in Hfl. by apply Forall_app in Hfl as [? _].
    - apply clean_of_flags. rewrite Heq in Hfl. rewrite Forall_app, Forall_cons, Forall_app in Hfl. tauto.
    - apply Forall_app. split; [apply dirty_set|done].
    - rewrite end_of_app, end_of_set, HeD. destruct Hor as [[-> ?]|[Hm ?]]; [unfold end_of; simpl; lia|].
      rewrite <-Nat2Z.inj_add, <-(Hall Hm). lia.
    - unfold holds in Hh. lia.
    - destruct Hor as [[-> ?]|[Hm ?]]; [|specialize (Hall Hm); lia].
      enough (Z.of_nat (offset + length data) ≤ end_of (Z.of_nat (length (concat c1.*2))) (b :: m1)) by lia.
      rewrite Nat2Z.inj_add. eapply reached_fits; [split; [done|]; split; [done|exact Hc2]|done|].
      rewrite Heq, end_of_app, (describes_end 0 l1 c1), Z.add_0_l in Hend by done.
      change ((b :: m1) ++ m2) with (b :: m1 ++ m2). lia.
    - destruct Hor as [[-> ?]|[Hm ?]]; [left; lia|right].
      split; [rewrite Hm in HF2; by inversion HF2|]. specialize (Hall Hm). lia. }
  intros e n' H'. eapply changed_same; [|exact H']. destruct Hs, Hs2; split; congruence.
Qed.

Lemma wp_write_beyond n name bol bs offset data :
  opened n (bn name) bol bs → (length (concat bs.*2) ≤ offset)%nat →
  (length (concat bs.*2) < offset + length data)%nat → Z.of_nat (offset + length data) < 2 ^ 62 →
  wp (let '(bol, (index, oldDataSize, exceeds, appendOnly)) :=
        FindBlocksToModify bol (Z.of_nat offset) (Z.of_nat (length data)) in
      write_rest name (Z.of_nat offset) data bol index oldDataSize exceeds appendOnly)
   (λ e n', changed n n' (bn name) (splice (concat bs.*2) offset data) e) n.
Proof.
  intros Ho Hge Hgt Hlt. pose proof Ho as [Hw Hc HF Hfl Hk Hroom].
  pose proof (opened_end _ _ _ _ Ho) as Hend.
  rewrite (FindBlocksToModify_beyond 0) by (done || lia).
  unfold write_rest. apply wp_bind. eapply wp_mono.
  { apply (wp_createNewBlocks _ _ _ _ 0); [done|by eapply opened_nonempty|done..|lia|lia]. }
  intros [[bol1 total] [e|]] n1 [Hs Hpost]; [by apply wp_ret; destruct Hs|].
  destruct Hpost as (r & -> & Hi & Hcr & Hn & Her & -> & Hr). rewrite Hend in Hr, Her, Hcr |- *.
  set (z := (offset + length data - length (concat bs.*2))%nat).
  match goal with |- wp (make_slice ?x ≫= _) _ _ => replace x with (Z.of_nat z) by lia end.
  apply wp_bind, wp_make_slice. apply wp_bind, wp_ret.
  eapply wp_mono; [|intros e n' H'; eapply (changed_same _ n1); [done|exact H']].
  assert (Hcat : concat bs.*2 = concat (bs ++ [] ++ []).*2) by (by rewrite !app_nil_r).
  rewrite Hcat.
  apply (wp_write_tail name data offset _ (BlockList bol) r [] bs [] [] z).
  - eapply opened_append; [done..|apply Hr; lia|by rewrite Hend|rewrite Hend; lia].
  - simpl. by rewrite app_nil_r.
  - by apply clean_of_flags.
  - done.
  - eapply Forall_impl; [exact Hn|]. by intros b (? & _).
  - simpl. lia.
  - done.
  - simpl. lia.
  - right. simpl. split; [done|lia].
Qed.

Lemma wp_Write_at_blocks fuel name offset data md n bs :
  writable n (bn name) bs → room_for (Z.of_nat (length bs)) →
  Z.of_nat (length (concat bs.*2)) < 2 ^ 62 → Z.of_nat (offset + length data) < 2 ^ 62 →
  ¬ (data = [] ∧ offset = length (concat bs.*2)) →
  wp (Write_at cfg fuel name (Z.of_nat offset) data md)
   (λ e n', changed n n' (bn name) (splice (concat bs.*2) offset data) e) n.
Proof.
  intros Hw Hroom Hsz Hlt Hne. unfold Write_at. apply wp_bind.
  eapply wp_mono; [eapply wp_GetFileBlockOffsets; [done|lia]|].
  intros [bol [e|]] n1 (Hs & Hi & Hpost); [by apply wp_ret; destruct Hs|].
  destruct (Hpost eq_refl) as (Hc & HF & Hfl & Hsm & Hk). rewrite Hsm.
  assert (Ho : opened n1 (bn name) bol bs).
  { split; [by eapply (same_writable n n1 _ _ [])|done..|]. by rewrite (Forall2_length _ _ _ HF). }
  eapply wp_mono; [|intros e n' H'; eapply (changed_same _ n1); [done|exact H']].
  destruct (decide (offset < length (concat bs.*2))%nat).
  - by apply wp_write_inside.
  - apply wp_write_beyond; [done|lia| |done]. destruct data; simpl; [|lia].
    destruct (decide (offset = length (concat bs.*2))); [naive_solver|lia].
Qed.

(** *** Truncation *)
Lemma resize_shrink c size : (size ≤ length c)%nat → resize c size = take size c.
Proof. intros. unfold resize. by rewrite take_app_le. Qed.
Lemma resize_extend c size :
  (length c ≤ size)%nat → resize c size = c ++ replicate (size - length c) zero_byte.
Proof. intros. unfold resize. rewrite take_ge; [done|]. rewrite length_app, length_replicate. lia. Qed.

(** What a resize of one blob promises. *)
Definition resized (n n' : N) (name : string) (c : list byte) (e : option error) : Prop :=
  match e with
  | Some _ => blob n' = blob n
  | None => NoDup (issued n') →
      content_of n' name = Some c ∧ ∀ k, k ≠ name → blob n' !! k = blob n !! k
  end.

Lemma resized_same n n1 n' name c e : same n n1 → resized n1 n' name c e → resized n n' name c e.
Proof. intros [Hb _]. unfold resized. by rewrite Hb. Qed.

(** The bytes StageAndCommit stages for a block. *)
Definition block_bytes (b : Block) : string * list byte :=
  (Id b, if Truncated b then replicate (Z.to_nat (block_size b)) zero_byte else Data b).

Lemma wp_stage_loop name l1 D n :
  Forall (λ b, Dirty b = false ∧ Truncated b = false) l1 →
  Forall (λ b, Dirty b = true ∧ 0 ≤ block_size b) D →
  wp (stage_loop cfg name (l1 ++ D)) (λ '(r, st, e) n',
    blob n' = blob n ∧ issued n' = issued n ∧ Id <$> r = Id <$> l1 ++ D ∧
    (e = None → st = bool_decide (D ≠ []) || existsb Removed l1) ∧
    (e = None → NoDup (Id <$> D) →
       staged n' (bn name) = list_to_map (block_bytes <$> D) ∪ staged n (bn name))) n.
Proof.
  intros Hl HD. induction Hl as [|b l1 [Hd Ht] Hl IH]; cycle 1.
  { simpl. rewrite Ht. apply wp_bind, wp_ret. cbn zeta. rewrite Hd. apply wp_bind.
    eapply wp_mono; [exact IH|]. intros [[r st] e] n1 (Hb & Hi & Hr & Hst & Hs). apply wp_ret.
    do 2 (split; [done|]). split; [csimpl; by rewrite Hr|]. split; [|done].
    intros He. rewrite (Hst He), orb_assoc, (orb_comm (Removed b)), <-orb_assoc. done. }
  simpl. revert n. induction HD as [|b D [Hd Hsz] HD IH]; intros n; simpl.
  { apply wp_ret. do 4 (split; [done|]). intros _ _. by rewrite (left_id_L ∅ (∪)). }
  apply wp_bind.
  assert (Hdata : wp (if Truncated b then make_slice (block_size b) else mret (Data b))
    (λ d n', n' = n ∧ d = (block_bytes b).2) n).
  { unfold block_bytes. simpl. destruct (Truncated b); [|by apply wp_ret].
    rewrite <-(Z2Nat.id (block_size b)) at 1 by done. by apply wp_make_slice. }
  eapply wp_mono; [exact Hdata|]. intros d ? [-> ->]. cbn zeta.
  assert (Hd1 : Dirty (if Truncated b then block_clear TruncatedBlock b else b) = true).
  { destruct (Truncated b); [|done]. unfold Dirty, block_clear in *. cbn [bFlags].
    rewrite IsSet_Clear by (unfold is_bit, TruncatedBlock, DirtyBlock; lia). by rewrite Hd. }
  rewrite Hd1. assert (Hid : Id (if Truncated b then block_clear TruncatedBlock b else b) = Id b)
    by (by destruct (Truncated b)).
  apply wp_bind. rewrite Hid. eapply wp_mono; [apply svc_StageBlock|].
  intros [e|] n1 (Hb1 & Hi1 & Hst1).
  { apply wp_ret. do 2 (split; [done|]). split; [csimpl; by rewrite Hid|]. done. }
  apply wp_bind. eapply wp_mono; [apply IH|].
  intros [[r st] e] n2 (Hb2 & Hi2 & Hr & Hs2 & Hst2). apply wp_ret.
  split; [congruence|]. split; [congruence|]. split; [csimpl; by rewrite Hid, Hr|].
  split; [done|]. intros -> Hnd. apply NoDup_cons in Hnd as [Hni Hnd].
  rewrite Hst2, Hst1 by done. rewrite <-insert_union_r, insert_union_l; [done|].
  apply not_elem_of_list_to_map_1. by rewrite <-list_fmap_compose.
Qed.

Lemma wp_StageAndCommit name bol l1 D c1 cD n :
  BlockList bol = l1 ++ D → Id <$> l1 = c1.*1 →
  Forall (λ b, Dirty b = false ∧ Truncated b = false) l1 →
  Forall (λ b, Dirty b = true ∧ 0 ≤ block_size b) D →
  bool_decide (D ≠ []) || existsb Removed l1 = true →
  blob n !! bn name = Some (Blocks (c1 ++ cD)) → NoDup (c1 ++ cD).*1 →
  staged n (bn name) = ∅ →
  wp (StageAndCommit cfg name bol) (λ '(_, e) n',
    issued n' = issued n ∧
    match e with
    | Some _ => blob n' = blob n
    | None => NoDup (Id <$> l1 ++ D) →
        blob n' = <[bn name := Blocks (c1 ++ (block_bytes <$> D))]> (blob n)
    end) n.
Proof.
  intros Heq Hid Hl1 HD Hst Hb Hnd Hs. unfold StageAndCommit. rewrite Heq. apply wp_bind.
  eapply wp_mono; [by apply wp_stage_loop|].
  intros [[r st] e] n1 (Hb1 & Hi1 & Hr & Hst1 & Hs1). destruct e as [e|]; [by apply wp_ret|].
  rewrite (Hst1 eq_refl), Hst. apply wp_bind. eapply wp_mono; [apply svc_CommitBlockList|].
  intros [e|] n2 (Hi2 & Hpost); apply wp_ret; [split; congruence|]. split; [congruence|].
  intros Hnd'. destruct Hpost as (_ & bs & Hm & Hb2). rewrite Hb2, Hb1. do 2 f_equal.
  rewrite fmap_app in Hnd'. pose proof Hnd' as (_ & _ & HndD)%NoDup_app.
  rewrite Hs1, Hs, (right_id_L ∅ (∪)), Hb1, Hb, Hr in Hm by done.
  assert (Hids : Id <$> l1 ++ D = (c1 ++ (block_bytes <$> D)).*1).
  { by rewrite !fmap_app, Hid, <-list_fmap_compose. }
  pose proof (latest_resolves c1 cD [] (block_bytes <$> D)) as Hl. rewrite !app_nil_r in Hl.
  rewrite Hids, Hl in Hm; [congruence|done|]. by rewrite <-Hids, fmap_app.
Qed.

Lemma clean_both l :
  Forall (λ b, bFlags b = 0) l → Forall (λ b, Dirty b = false ∧ Truncated b = false) l.
Proof.
  intros H. eapply Forall_impl; [exact H|]. intros b Hb. unfold Dirty, Truncated. by rewrite Hb.
Qed.

(** New blocks are staged as zeros. *)
Lemma new_blocks_bytes start r :
  contiguous start r → 0 ≤ start → end_of start r < 2 ^ 63 → Forall new_block r →
  Forall (λ b, Dirty b = true ∧ 0 ≤ block_size b) r ∧
  concat (block_bytes <$> r).*2 = replicate (Z.to_nat (end_of start r - start)) zero_byte.
Proof.
  intros Hc Hs He HF. revert start Hc Hs He.
  induction HF as [|b r (Hd & Ht & _) HF IH]; intros start Hc Hs He.
  { unfold end_of. simpl. by rewrite Z.sub_diag. }
  destruct Hc as (H1 & H2 & H3). rewrite end_of_cons in *. pose proof (contiguous_le _ _ H3).
  destruct (IH _ H3) as [IH1 IH2]; [lia|lia|]. csimpl. rewrite IH2, Ht, block_size_small by lia.
  split; [constructor; [|done]; rewrite block_size_small by lia; split; [done|lia]|].
  rewrite <-replicate_add. f_equal. lia.
Qed.

Lemma wp_truncate_extend name size bol bs n :
  opened n (bn name) bol bs → (length (concat bs.*2) < size)%nat → Z.of_nat size < 2 ^ 62 →
  wp (truncate_blocks cfg name (Z.of_nat size) (Z.of_nat (length (concat bs.*2))) bol)
     (λ e n', resized n n' (bn name) (resize (concat bs.*2) size) e) n.
Proof.
  intros Ho Hlt Hsz. pose proof Ho as [Hw Hc HF Hfl Hk Hroom].
  pose proof (opened_end _ _ _ _ Ho) as Hend. pose proof (opened_nonempty _ _ _ _ Ho) as Hne.
  pose proof (describes_ids _ _ HF) as Hids. pose proof Hw as (Hb & _ & _ & Hnd & Hsub & Hst & _).
  unfold truncate_blocks. destruct (Z.ltb_spec (Z.of_nat size) (Z.of_nat (length (concat bs.*2)))); [lia|].
  destruct (Z.ltb_spec (Z.of_nat (length (concat bs.*2))) (Z.of_nat size)); [|lia].
  destruct (last (BlockList bol)) as [b|] eqn:El; [|by apply last_None in El].
  assert (He : EndIndex b = Z.of_nat (length (concat bs.*2))).
  { rewrite <-Hend. unfold end_of. by rewrite El. }
  apply wp_bind, wp_bind, wp_ret. rewrite He, i64_small by (unfold is_i64; lia). apply wp_bind.
  eapply wp_mono; [apply (wp_createNewBlocks _ _ _ _ 0); done || lia|].
  intros [[bol1 total] err] n1 [Hs Hpost]. apply wp_ret. cbn [snd fst].
  destruct err as [e|]; [by apply wp_ret; destruct Hs|].
  destruct Hpost as (r & -> & Hi & Hcr & Hn & Her & _ & Hr). rewrite Hend in Hr, Her, Hcr.
  replace (Z.max _ _) with (Z.of_nat size) in * by lia.
  destruct (new_blocks_bytes _ _ Hcr) as [HD Hbytes]; [lia|lia|done|].
  destruct Hs as [Hs1 Hs2]. apply wp_bind. eapply wp_mono.
  { apply (wp_StageAndCommit name _ (BlockList bol) r bs []); [done|done|by apply clean_both|done| | | |].
    - by rewrite bool_decide_true by (apply Hr; lia).
    - by rewrite app_nil_r, Hs1.
    - by rewrite app_nil_r.
    - by rewrite Hs2. }
  intros [bol2 [e|]] n2 [Hi2 Hb2]; apply wp_ret; [by simpl; congruence|].
  intros Hni. rewrite Hi2, Hi in Hni. rewrite Hb2, Hs1; cycle 1.
  { rewrite fmap_app, Hids. by apply (nodup_drawn _ _ (issued n)). }
  split; [|intros k Hk'; by rewrite lookup_insert_ne].
  unfold content_of. rewrite Hb2, lookup_insert_eq by (rewrite fmap_app, Hids; by apply (nodup_drawn _ _ (issued n))).
  simpl. rewrite fmap_app, concat_app, Hbytes, Her, resize_extend by lia. do 3 f_equal. lia.
Qed.

(** The list that removeBlocks leaves: whole blocks that end at the new size, or
    whole blocks and one that is cut. *)
Definition shrunk (bol' : BlockOffsetList) (bs : list (string * list byte)) (size : nat) : Prop :=
  ∃ l1 D c1 cD, BlockList bol' = l1 ++ D ∧ bs = c1 ++ cD ∧ Id <$> l1 = c1.*1 ∧
    Forall (λ b, Dirty b = false ∧ Truncated b = false) l1 ∧
    Forall (λ b, Dirty b = true ∧ 0 ≤ block_size b) D ∧
    bool_decide (D ≠ []) || existsb Removed l1 = true ∧
    (Id <$> D) `prefix_of` cD.*1 ∧
    concat c1.*2 ++ concat (block_bytes <$> D).*2 = take size (concat bs.*2).

Lemma shrunk_whole bol l1 a bs1 bs2 size :
  Forall2 describes_bytes (l1 ++ [a]) bs1 → Forall (λ b, bFlags b = 0) (l1 ++ [a]) →
  length (concat bs1.*2) = size →
  shrunk (bol_with_blocks (l1 ++ [block_set RemovedBlocks a]) bol) (bs1 ++ bs2) size.
Proof.
  intros HF Hfl Hlen. exists (l1 ++ [block_set RemovedBlocks a]), [], bs1, bs2.
  apply describes_ids in HF. rewrite fmap_app in HF. apply Forall_app in Hfl as [Hfl1 Ha].
  apply Forall_cons in Ha as [Ha _].
  split; [by rewrite app_nil_r|]. split; [done|]. split; [by rewrite fmap_app|].
  split. { apply Forall_app. split; [by apply clean_both|]. constructor; [|done].
    unfold Dirty, Truncated. simpl. rewrite Ha. by vm_compute. }
  split; [done|]. split. { rewrite existsb_app. simpl. unfold Removed. simpl. rewrite Ha. apply orb_true_r. }
  split; [apply prefix_nil|]. simpl. rewrite app_nil_r, fmap_app, concat_app, <-Hlen.
  by rewrite take_app_length.
Qed.

Lemma shrunk_cut bol l1 b d id rest bs1 size :
  Forall2 describes_bytes l1 bs1 → Forall (λ b, bFlags b = 0) l1 → bFlags b = 0 → Id b = id →
  (length (concat bs1.*2) < size ≤ length (concat bs1.*2) + length d)%nat →
  StartIndex b = Z.of_nat (length (concat bs1.*2)) → Z.of_nat size < 2 ^ 62 →
  shrunk (bol_with_blocks (l1 ++ [block_set RemovedBlocks (block_set DirtyBlock
            (block_with_data (take (size - length (concat bs1.*2)) d)
              (block_with_end (Z.of_nat size) b)))]) bol)
    (bs1 ++ (id, d) :: rest) size.
Proof.
  intros HF Hfl Hb Hid Hin HS Hsz. eexists l1, [_], bs1, ((id, d) :: rest).
  split; [done|]. split; [done|]. split; [by apply describes_ids|]. split; [by apply clean_both|].
  split. { constructor; [|done]. unfold Dirty, block_size. simpl. rewrite Hb, HS.
    rewrite i64_small by (unfold is_i64; lia). split; [by vm_compute|lia]. }
  split; [done|]. split; [csimpl; rewrite Hid; by apply prefix_cons, prefix_nil|].
  csimpl. unfold Truncated. simpl. rewrite Hb.
  replace (IsSet _ _) with false by (by vm_compute). rewrite app_nil_r, fmap_app, concat_app. csimpl.
  rewrite take_app, (take_ge (concat bs1.*2)) by lia. f_equal. rewrite take_app_le by lia. done.
Qed.

Lemma wp_removeBlocks name size bol bs n :
  opened n (bn name) bol bs → (0 < size < length (concat bs.*2))%nat →
  Z.of_nat (length (concat bs.*2)) < 2 ^ 62 →
  wp (removeBlocks cfg bol (Z.of_nat size) name) (λ bol' n',
    same n n' ∧ issued n' = issued n ∧ shrunk bol' bs size) n.
Proof.
  intros Ho Hin Hsz. pose proof Ho as [Hw Hc HF Hfl _ _]. pose proof (opened_end _ _ _ _ Ho) as Hend.
  destruct (contiguous_split 0 (BlockList bol) (Z.of_nat size) Hc) as (l1 & b & l2 & Heq & Hh); [lia|].
  unfold removeBlocks. rewrite (BinarySearch_split 0 bol l1 b l2) by done.
  apply wp_bind. eapply wp_index_go; [by rewrite Heq; apply list_lookup_middle|].
  rewrite Heq in HF, Hc, Hfl |- *. apply Forall2_app_inv_l in HF as (c1 & c2 & HF1 & HF & ->).
  inversion HF as [|? [id d] ? d2 [Hidb Hlenb] HF2]; subst. clear HF. simpl in Hidb, Hlenb.
  apply contiguous_app in Hc as [Hc1 (HSb & Hb2 & Hc2)].
  pose proof (describes_end 0 l1 c1 Hc1 HF1) as He1. rewrite Z.add_0_l in He1. rewrite He1 in HSb.
  apply Forall_app in Hfl as [Hfl1 Hflb]. apply Forall_cons in Hflb as [Hflb _].
  unfold holds in Hh. destruct (Z.eqb_spec (StartIndex b) (Z.of_nat size)) as [Heqs|Hnes].
  - destruct l1 as [|a l1 _] using rev_ind; [inversion HF1; subst; simpl in HSb; lia|].
    replace (Z.of_nat (length (l1 ++ [a])) - 1) with (Z.of_nat (length l1)) by (rewrite length_app; simpl; lia).
    rewrite <-(assoc_L (++)). apply wp_bind. eapply wp_index_go; [by apply list_lookup_middle|].
    unfold end_of in He1. rewrite last_snoc in He1. simpl in He1.
    destruct (Z.ltb_spec (Z.of_nat size) (EndIndex a)); [lia|].
    apply wp_bind, wp_ret, wp_ret. split; [done|]. split; [done|].
    rewrite Nat2Z.id, take_app_length. apply shrunk_whole; [done|done|lia].
  - apply wp_bind. eapply wp_index_go; [by apply list_lookup_middle|].
    destruct (Z.ltb_spec (Z.of_nat size) (EndIndex b)); [|lia].
    set (k := (size - length (concat c1.*2))%nat).
    assert (Hk : block_size (block_with_end (Z.of_nat size) b) = Z.of_nat k).
    { rewrite block_size_small; simpl; lia. }
    cbn zeta. rewrite Hk. apply wp_bind, wp_bind, wp_make_slice, wp_bind.
    assert (Htk : length (take k d) = k) by (rewrite length_take; lia).
    cbn [StartIndex block_with_end]. rewrite HSb. rewrite <-Htk at 1. eapply wp_mono.
    { eapply (wp_ReadInBuffer name _ (take k d) (drop k d ++ concat d2.*2)); [apply Hw| | |].
      - simpl. rewrite fmap_app, concat_app. csimpl. by rewrite (assoc_L (++) (take k d)), take_drop.
      - intros E. rewrite E in Htk. simpl in Htk. lia.
      - rewrite length_replicate. lia. }
    intros ? n1 (Hs & Hi & ->). apply wp_ret, wp_ret. split; [done|]. split; [done|].
    rewrite Htk, drop_replicate, Nat.sub_diag, app_nil_r, Nat2Z.id, take_app_length.
    apply shrunk_cut; done || lia.
Qed.

Lemma wp_truncate_shrink name size bol bs n :
  opened n (bn name) bol bs → (0 < size < length (concat bs.*2))%nat →
  Z.of_nat (length (concat bs.*2)) < 2 ^ 62 →
  wp (truncate_blocks cfg name (Z.of_nat size) (Z.of_nat (length (concat bs.*2))) bol)
     (λ e n', resized n n' (bn name) (resize (concat bs.*2) size) e) n.
Proof.
  intros Ho Hin Hsz. unfold truncate_blocks.
  destruct (Z.ltb_spec (Z.of_nat size) (Z.of_nat (length (concat bs.*2)))); [|lia].
  apply wp_bind, wp_bind. eapply wp_mono; [by apply wp_removeBlocks|].
  intros bol' n1 ([Hs1 Hs2] & Hi & l1 & D & c1 & cD & Heq & -> & Hid & Hl1 & HD & Hor & Hpre & Hbytes).
  apply wp_ret. cbn [fst snd]. pose proof Ho as [(Hb & _ & _ & Hnd & _ & Hst & _) _ _ _ _ _].
  apply wp_bind. eapply wp_mono.
  { apply (wp_StageAndCommit name bol' l1 D c1 cD); [done..|by rewrite Hs1|done|by rewrite Hs2]. }
  intros [bol2 [e|]] n2 [Hi2 Hb2]; apply wp_ret; [simpl; congruence|].
  assert (Hnd2 : NoDup (Id <$> l1 ++ D)).
  { rewrite fmap_app, Hid. destruct Hpre as [suf Hsuf]. rewrite fmap_app, Hsuf, (assoc_L (++)) in Hnd.
    by apply NoDup_app in Hnd as (? & _). }
  intros _. unfold content_of. rewrite Hb2, Hs1 by done.
  split; [|intros k Hk; by rewrite lookup_insert_ne].
  rewrite lookup_insert_eq. simpl. by rewrite fmap_app, concat_app, Hbytes, resize_shrink by lia.
Qed.

Lemma wp_truncate_same name bol bs n :
  opened n (bn name) bol bs → (length (concat bs.*2) ≠ 0)%nat →
  wp (truncate_blocks cfg name (Z.of_nat (length (concat bs.*2)))
       (Z.of_nat (length (concat bs.*2))) bol)
     (λ e n', resized n n' (bn name) (resize (concat bs.*2) (length (concat bs.*2))) e) n.
Proof.
  intros Ho _. pose proof Ho as [(Hb & _) _ _ Hfl _ _]. unfold truncate_blocks.
  rewrite Z.ltb_irrefl. apply wp_bind, wp_ret. cbn [fst snd]. apply wp_bind.
  unfold StageAndCommit. apply wp_bind. rewrite <-(app_nil_r (BlockList bol)).
  eapply wp_mono; [apply wp_stage_loop; [by apply clean_both|done]|].
  intros [[r st] [e|]] n1 (Hb1 & _ & _ & Hst & _); [by apply wp_ret, wp_ret|].
  assert (Hno : st = false).
  { rewrite (Hst eq_refl). simpl. clear -Hfl. induction Hfl as [|b l Hb _ IH]; [done|].
    simpl. rewrite IH. unfold Removed. by rewrite Hb. }
  rewrite Hno. apply wp_ret, wp_ret. intros _. unfold content_of. rewrite Hb1, Hb. split; [|done].
  simpl. by rewrite resize_shrink, take_ge by lia.
Qed.

(** The whole content is read, cut or padded, and uploaded. *)
Lemma wp_truncate_small name size b n :
  blob n !! bn name = Some b → content b ≠ [] → (0 < size)%nat →
  wp (truncate_small cfg name (Z.of_nat size) (Z.of_nat (length (content b))))
     (λ e n', resized n n' (bn name) (resize (content b) size) e) n.
Proof.
  intros Hb Hne Hsz. set (c := content b) in *. unfold truncate_small, HandleSmallFile.
  set (off := if Z.of_nat (length c) <? Z.of_nat size then 0 else Z.of_nat size).
  assert (Hread : wp (data ← make_slice (Z.of_nat size);
      if Z.of_nat (length c) <? Z.of_nat size then ReadInBuffer cfg name 0 0 data
      else ReadInBuffer cfg name 0 (Z.of_nat size) data)
    (λ '(d, e) n', blob n' = blob n ∧ (e = None → d = resize c size)) n).
  { apply wp_bind, wp_make_slice.
    assert (Hd : download_count c 0 off = Z.of_nat (Nat.min size (length c))).
    { unfold download_count, off. destruct (Z.ltb_spec (Z.of_nat (length c)) (Z.of_nat size)); simpl; [lia|].
      destruct (Z.eqb_spec (Z.of_nat size) 0); lia. }
    replace (if _ <? _ then _ else _) with (ReadInBuffer cfg name 0 off (replicate size zero_byte))
      by (unfold off; by destruct (_ <? _)).
    unfold ReadInBuffer. apply wp_bind. eapply wp_mono; [apply svc_Download|].
    intros [d e] n1 (H1 & _ & _ & _ & H5). apply wp_ret. split; [done|]. simpl.
    destruct e as [e|]; [done|]. intros _. simpl in H5.
    rewrite (H5 eq_refl b Hb) by (fold c; rewrite ?Hd, ?length_replicate; lia). fold c. rewrite Hd.
    unfold slice. rewrite Z.add_0_l, Z.sub_0_r, !Nat2Z.id, drop_replicate, drop_0.
    destruct (Nat.le_gt_cases size (length c)).
    - rewrite Nat.min_l, Nat.sub_diag, resize_shrink by lia. apply app_nil_r.
    - rewrite Nat.min_r, take_ge, resize_extend by lia. done. }
  apply wp_bind. eapply wp_mono; [exact Hread|]. intros [d [e|]] n1 [Hb1 Hd]; [by apply wp_ret|].
  rewrite (Hd eq_refl). eapply wp_mono; [apply svc_UploadBuffer|].
  intros [e|] n2 H2; simpl in *; [congruence|]. intros _. destruct H2 as (b' & Hc' & Hb2).
  unfold content_of. rewrite Hb2, Hb1. rewrite lookup_insert_eq. simpl. split; [by rewrite Hc'|].
  intros k Hk. by rewrite lookup_insert_ne.
Qed.

(** *** Attributes *)
Lemma parseMetadata_Size md a : Size (parseMetadata md a) = Size a.
Proof.
  unfold parseMetadata, parseMetadata_in. generalize (map_to_list md) as l. intros l.
  replace (Size a) with (Size (with_metadata md a)) by done. generalize (with_metadata md a) as b.
  induction l as [|kv l IH]; intros b; [done|]. simpl. rewrite IH. unfold parseMetadata_step.
  by destruct (_ && _); [|destruct (_ && _)].
Qed.

Lemma parseMetadata_Path md a : Path (parseMetadata md a) = Path a.
Proof.
  unfold parseMetadata, parseMetadata_in. generalize (map_to_list md) as l. intros l.
  replace (Path a) with (Path (with_metadata md a)) by done. generalize (with_metadata md a) as b.
  induction l as [|kv l IH]; intros b; [done|]. simpl. rewrite IH. unfold parseMetadata_step.
  by destruct (_ && _); [|destruct (_ && _)].
Qed.

(** A clean relative name, below the mounted sub-directory if there is one and without
    that prefix in it: the name that split gives back. *)
Definition listable (name : string) : Prop :=
  name ≠ "" ∧ strings_HasSuffix name "/" = false ∧
  if bool_decide (prefixPath cfg = "") then bn name = name
  else bn name = prefixPath cfg +:+ "/" +:+ name ∧ strings_HasPrefix (prefixPath cfg) "/" = false ∧
       split (prefixPath cfg) (bn name) = Ret name.

Lemma listable_path name : listable name → listPath cfg name = bn name.
Proof. intros (Hne & Hs & _). unfold listPath. rewrite Hs, (bool_decide_false (name = "")) by done. done. Qed.
Lemma listable_split name : listable name → split (prefixPath cfg) (bn name) = Ret name.
Proof. intros (_ & _ & H). case_bool_decide as Hp; [|apply H]. unfold split. rewrite bool_decide_true by done. by rewrite H. Qed.
Lemma listable_below name x : listable name → ∃ r, split (prefixPath cfg) (bn name +:+ x) = Ret r.
Proof.
  intros (_ & _ & H). case_bool_decide as Hp; [unfold split; rewrite bool_decide_true by done; eauto|].
  destruct H as (-> & Hs & _). rewrite !string_app_assoc. by apply split_returns.
Qed.
Lemma TrimSuffix_slash a : strings_TrimSuffix (a +:+ "/") "/" = a.
Proof.
  unfold strings_TrimSuffix, strings_HasSuffix. rewrite string_app_length.
  change (String.length "/") with 1%nat. rewrite (proj2 (Nat.leb_le _ _)) by lia.
  rewrite Nat.add_sub, sdrop_app, bool_decide_true by done. apply stake_app.
Qed.

(** A blob that is not a directory marker is not a directory. *)
Lemma parseMetadata_file md a :
  ¬ folder_marker md → IsDir a = false → IsDir (retrieved (parseMetadata md a)) = false.
Proof.
  intros Hm Ha. assert (Hd : IsDir (parseMetadata md a) = false).
  { unfold parseMetadata, parseMetadata_in.
    assert (Hl : Forall (λ kv : string * string, ¬ (strings_ToLower kv.1 = folderKey ∧ kv.2 = "true")) (map_to_list md)).
    { apply Forall_forall. intros [k v] Hkv%elem_of_map_to_list [Hk Hv]. simpl in *. subst v. apply Hm. by exists k. }
    assert (Hb : IsDir (with_metadata md a) = false) by done. clear Ha. revert Hb. generalize (with_metadata md a).
    induction Hl as [|[k v] l Hkv _ IH]; intros b Hb; [done|]. simpl. apply IH. unfold parseMetadata_step. simpl in *.
    destruct (_ && _) eqn:E.
    - apply andb_prop in E as [E1 E2]. apply bool_decide_eq_true in E1, E2. by destruct Hkv.
    - clear E. destruct (_ && _); [reflexivity|exact Hb]. }
  unfold IsDir, retrieved, with_flags_mode, IsSet, Set_ in *. cbn [Flags].
  rewrite !Z.land_lor_distr_l. change (Z.land (u16 _) (u16 (Z.shiftl 1 PropFlagIsDir))) with 0.
  change (Z.land (u16 (Z.shiftl 1 PropFlagModeDefault)) (u16 (Z.shiftl 1 PropFlagIsDir))) with 0.
  by rewrite !Z.lor_0_r.
Qed.

(** *** The attributes of a file, by its properties or by a listing

    [R] is what the requests keep. *)
Section lookup.
Context `{!BlobListing N}.
Context (R : N → N → Prop) `{!PreOrder R}.
Context (R_objs : ∀ m n, R n (rt_set_objs m n)).
Context (R_now : ∀ n t n', rt_now n = Ret (t, n') → R n n').
Context (R_properties : ∀ name n r n', sdk_GetProperties name n = Ret (r, n') → R n n').
Context (R_list : ∀ name count n r n', sdk_ListHierarchy None name count n = Ret (r, n') → R n n').

(** Objects stay. *)
Definition grows (n n' : N) : Prop := R n n' ∧ ∀ p a, rt_objs n !! p = Some a → rt_objs n' !! p = Some a.
Lemma grows_trans n1 n2 n3 : grows n1 n2 → grows n2 n3 → grows n1 n3.
Proof. intros [H1 H2] [H3 H4]. split; [by etrans|auto]. Qed.

Lemma wp_new_attr a n : wp (new_obj a) (λ p n', grows n n' ∧ rt_objs n' !! p = Some a) n.
Proof.
  unfold new_obj, wp. rewrite rt_objs_set, lookup_insert_eq. split; [|done]. split; [done|].
  intros q b Hq. rewrite rt_objs_set, lookup_insert_ne; [done|]. intros <-. by rewrite fresh_ptr_lookup in Hq.
Qed.

Lemma wp_getAttrUsingRest name n :
  wp (getAttrUsingRest cfg name) (λ '(p, err) n', grows n n' ∧
    (attributes_reliable → ∀ b, blob n !! bn name = Some b → err = None ∧
       ∃ a, rt_objs n' !! p = Some a ∧ Size a = Z.of_nat (length (content b)))) n.
Proof.
  unfold getAttrUsingRest. apply wp_bind, wp_Ret. pose proof (svc_GetProperties (bn name) n) as Hp.
  apply wp_Ret in Hp as (r & n1 & E & H1 & H2 & H3 & Hr). exists r, n1. split; [done|].
  assert (Hg : grows n n1) by (split; [by eapply R_properties|by rewrite (ls_properties _ _ _ _ E)]).
  destruct r as [prop|e].
  - apply wp_bind. eapply wp_mono; [apply wp_new_attr|]. intros p n2 [Hg2 Hp2]. apply wp_ret.
    split; [by eapply grows_trans|]. intros _ b Hb. split; [done|]. eexists. split; [done|].
    destruct (Hr _ eq_refl) as (b' & Hb' & Hlen). rewrite Hb in Hb'. injection Hb' as <-.
    unfold retrieved, with_flags_mode. cbn [Size]. by rewrite parseMetadata_Size.
  - assert (Hfail : ∀ (q : ptr) (e' : error), wp (mret (q, Some e')) (λ '(p, err) n', grows n n' ∧
      (attributes_reliable → ∀ b, blob n !! bn name = Some b → err = None ∧
         ∃ a, rt_objs n' !! p = Some a ∧ Size a = Z.of_nat (length (content b)))) n1).
    { intros q e'. apply wp_ret. split; [done|]. intros Hrel b Hb. exfalso.
      destruct (proj1 (Hrel (bn name) n ltac:(rewrite Hb; eauto)) _ _ E). done. }
    destruct (storeBlobErrToErr e); apply Hfail.
Qed.

Lemma wp_list_items items n :
  Forall (λ it, ∃ r, split (prefixPath cfg) it.1 = Ret r) items →
  wp (list_items cfg items) (λ _ n', grows n n') n.
Proof.
  intros Hit. revert n. induction Hit as [|[nm prop] items [r Hr] _ IH]; intros n; cbn [list_items].
  { apply wp_ret. by split. }
  unfold list_item. simpl in Hr. rewrite Hr. apply wp_bind. eapply wp_mono; [apply wp_new_attr|].
  intros p n1 [H1 _]. apply wp_bind. eapply wp_mono; [apply IH|]. intros [l dirs] n2 H2. apply wp_ret.
  by eapply grows_trans.
Qed.
Lemma wp_list_prefixes dirs prefixes n :
  Forall (λ p, ∃ r, split (prefixPath cfg) (strings_TrimSuffix p "/") = Ret r) prefixes →
  wp (list_prefixes cfg dirs prefixes) (λ _ n', grows n n') n.
Proof.
  intros Hpf. revert n. induction Hpf as [|nm prefixes [r Hr] _ IH]; intros n; cbn [list_prefixes].
  { apply wp_ret. by split. }
  destruct (decide (nm ∈ dirs)); [apply IH|]. apply wp_bind. eapply wp_mono; [apply wp_getAttrUsingRest|].
  intros [q e] n1 [H1 _]. destruct (err_is _ _).
  - rewrite Hr. apply wp_bind. destruct (rt_now_returns n1) as (t & n2 & E).
    apply wp_Ret. exists t, n2. split; [done|].
    assert (H2 : grows n1 n2) by (split; [by eapply R_now|by rewrite (rt_now_objs _ _ _ E)]).
    apply wp_bind. eapply wp_mono; [apply wp_new_attr|]. intros p n3 [H3 _].
    apply wp_bind. eapply wp_mono; [apply IH|]. intros l n4 H4. apply wp_ret.
    eauto using grows_trans.
  - eapply wp_mono; [apply IH|]. intros l n4 H4. eauto using grows_trans.
Qed.

Lemma wp_getAttrUsingList fuel name b n :
  attributes_reliable → (0 < fuel)%nat → listable name → regular (bn name) = true → blob n !! bn name = Some b →
  wp (getAttrUsingList cfg fuel name) (λ '(p, err) n', grows n n' ∧ err = None ∧
    ∃ a, rt_objs n' !! p = Some a ∧ Size a = Z.of_nat (length (content b))) n.
Proof.
  intros Hrel Hf Hl Hreg Hb. destruct fuel as [|fuel]; [lia|]. unfold getAttrUsingList. cbn [getAttrUsingList_loop].
  change (negb (0 <? 20)) with false. cbn iota. apply wp_bind. unfold List_. rewrite listable_path by done.
  set (count := if _ =? 0 then _ else _). apply wp_bind, wp_Ret. pose proof (ls_list (bn name) count n) as Hls.
  apply wp_Ret in Hls as (r & n1 & E & H1 & H2 & H3 & H4 & Hseg). exists r, n1. split; [done|].
  destruct (proj2 (Hrel (bn name) n ltac:(rewrite Hb; eauto)) _ _ _ E) as [seg ->].
  destruct (Hseg _ eq_refl) as (Hi & Hp & Hfirst). destruct (Hfirst b Hb) as (prop & items & Heq & Hlen & Hmark).
  assert (G1 : grows n n1) by (split; [by eapply R_list|by rewrite H4]).
  rewrite Heq in *. apply Forall_cons in Hi as [_ Hi]. cbn [list_items list_item].
  rewrite listable_split by done. set (a := retrieved _).
  assert (Hdir : IsDir a = false) by (by apply parseMetadata_file; [apply Hmark|]).
  assert (Hsz : Size a = Z.of_nat (length (content b))).
  { unfold a, retrieved, with_flags_mode. cbn [Size]. by rewrite parseMetadata_Size. }
  assert (Hpath : Path a = name).
  { unfold a, retrieved, with_flags_mode. cbn [Path]. by rewrite parseMetadata_Path. }
  rewrite Hdir. apply wp_bind, wp_bind. eapply wp_mono; [apply wp_new_attr|]. intros p n2 [G2 Hpa].
  apply wp_bind. eapply wp_mono; [apply wp_list_items|].
  { eapply Forall_impl; [exact Hi|]. intros it [x ->]. by apply listable_below. }
  intros [l1 dirs] n3 G3. apply wp_ret. rewrite Hdir. apply wp_bind. eapply wp_mono; [apply wp_list_prefixes|].
  { eapply Forall_impl; [exact Hp|]. intros q [x ->]. rewrite <-string_app_assoc, TrimSuffix_slash. by apply listable_below. }
  intros l2 n4 G4. apply wp_ret. cbn iota. apply wp_bind. cbn [app find_path].
  assert (Hp4 : rt_objs n4 !! p = Some a) by (apply G4, G3, Hpa).
  apply wp_bind. eapply wp_load_obj; [done|]. rewrite bool_decide_true by done. apply wp_ret, wp_ret.
  split; [eauto using grows_trans|]. split; [done|]. by exists a.
Qed.

(** GetAttr can find the file: by its properties, or by a listing. *)
Definition readable (fuel : nat) (name : string) : Prop :=
  virtualDirectory cfg = true → (0 < fuel)%nat ∧ listable name ∧ regular (bn name) = true.

#[export] Instance listable_dec name : Decision (listable name).
Proof. unfold listable. destruct (bool_decide _); apply _. Defined.
#[export] Instance readable_dec fuel name : Decision (readable fuel name).
Proof. unfold readable. apply _. Defined.

Lemma wp_GetAttr_file fuel name b n :
  attributes_reliable → readable fuel name → blob n !! bn name = Some b →
  wp (GetAttr cfg fuel name) (λ '(p, err) n', grows n n' ∧ err = None ∧
    ∃ a, rt_objs n' !! p = Some a ∧ Size a = Z.of_nat (length (content b))) n.
Proof.
  intros Hrel Hread Hb. unfold GetAttr. destruct (virtualDirectory cfg) eqn:Ev.
  - destruct (Hread Ev) as (? & ? & ?). by apply wp_getAttrUsingList.
  - eapply wp_mono; [apply wp_getAttrUsingRest|]. intros [p err] n' [Hg H]. split; [done|]. by apply H.
Qed.
End lookup.

Section attributes.
Context `{!BlobListing N}.
Context (attributes_succeed : attributes_reliable).

Lemma wp_blob_GetAttr fuel name b n :
  readable fuel name → blob n !! bn name = Some b →
  wp (GetAttr cfg fuel name) (λ '(p, err) n',
    same n n' ∧ issued n' = issued n ∧ err = None ∧
    ∃ a, rt_objs n' !! p = Some a ∧ Size a = Z.of_nat (length (content b))) n.
Proof.
  intros Hread Hb. set (R n1 n2 := same n1 n2 ∧ issued n2 = issued n1).
  assert (PreOrder R).
  { split; [by intros ?|]. intros x y z [[? ?] ?] [[? ?] ?]. split; [split|]; congruence. }
  eapply wp_mono; [apply (wp_GetAttr_file R); try done|].
  - intros m n0. destruct (svc_set_objs m n0) as (? & ? & ?). done.
  - intros n0 t n' E. destruct (ls_now _ _ _ E) as (? & ? & ?). done.
  - intros nm n0 r n' E. pose proof (svc_GetProperties nm n0) as (? & ? & E' & ? & ? & ? & _)%wp_Ret.
    rewrite E in E'. by injection E' as <- <-.
  - intros nm count n0 r n' E. pose proof (ls_list nm count n0) as (? & ? & E' & ? & ? & ? & _)%wp_Ret.
    rewrite E in E'. by injection E' as <- <-.
  - intros [p err] n' ([[H1 H2] _] & H3). done.
Qed.

Lemma wp_GetFileBlockOffsets_flat name n d :
  blob n !! bn name = Some (Flat d) →
  wp (GetFileBlockOffsets cfg name) (λ '(bol, err) n',
    same n n' ∧ issued n' = issued n ∧ (err = None → SmallFile bol = true)) n.
Proof.
  intros Hb. unfold GetFileBlockOffsets. apply wp_bind. eapply wp_mono; [apply svc_GetBlockList|].
  intros [l|e] n1 (H1 & H2 & H3 & Hl); [|by apply wp_ret].
  specialize (Hl _ eq_refl). rewrite Hb in Hl. subst l. by apply wp_ret.
Qed.

Lemma wp_TruncateFile fuel name size b n :
  readable fuel name → blob n !! bn name = Some b → content b ≠ [] → (0 < size)%nat →
  Z.of_nat size < 2 ^ 62 → Z.of_nat (length (content b)) < 2 ^ 62 →
  (∀ bs, b = Blocks bs → BlockBlobMaxUploadBlobBytes ≤ Z.of_nat size →
     writable n (bn name) bs ∧ room_for (Z.of_nat (length bs))) →
  wp (TruncateFile cfg fuel name (Z.of_nat size))
     (λ e n', resized n n' (bn name) (resize (content b) size) e) n.
Proof.
  intros Hread Hb Hne Hs Hsz Hlen Hwr. unfold TruncateFile. apply wp_bind.
  eapply wp_mono; [by apply wp_blob_GetAttr|]. intros [p err] n1 (Hs1 & Hi1 & -> & a & Ha & HSa).
  simpl. apply wp_bind. destruct (Z.eqb_spec (Z.of_nat size) 0) as [|_]; [lia|].
  assert (length (content b) ≠ 0%nat) by (by destruct (content b)).
  apply wp_bind. eapply wp_load_obj; [done|]. apply wp_ret. rewrite HSa.
  destruct (Z.eqb_spec (Z.of_nat (length (content b))) 0) as [|_]; [lia|].
  apply wp_bind. eapply wp_load_obj; [done|]. rewrite HSa.
  eapply wp_mono; [|intros e n' H'; eapply (resized_same _ n1); [done|exact H']].
  assert (Hb1 : blob n1 !! bn name = Some b) by (destruct Hs1 as [-> _]; done).
  destruct (Z.ltb_spec (Z.of_nat size) BlockBlobMaxUploadBlobBytes) as [|Hbig].
  { by apply wp_truncate_small. }
  apply wp_bind. destruct b as [d|bs].
  - eapply wp_mono; [by eapply wp_GetFileBlockOffsets_flat|].
    intros [bol [e|]] n2 (Hs2 & Hi2 & Hsm); [by apply wp_ret; destruct Hs2|]. rewrite (Hsm eq_refl).
    eapply wp_mono; [|intros e n' H'; eapply (resized_same _ n2); [done|exact H']].
    apply wp_truncate_small; [destruct Hs2 as [-> _]; done|done|done].
  - destruct (Hwr bs eq_refl Hbig) as [Hw Hroom].
    assert (Hw1 : writable n1 (bn name) bs) by (by eapply (same_writable n n1 _ _ [])).
    eapply wp_mono; [eapply wp_GetFileBlockOffsets; [done|simpl in *; lia]|].
    intros [bol [e|]] n2 (Hs2 & Hi2 & Hpost); [by apply wp_ret; destruct Hs2|].
    destruct (Hpost eq_refl) as (Hc & HF & Hfl & Hsm & Hk). rewrite Hsm.
    eapply wp_mono; [|intros e n' H'; eapply (resized_same _ n2); [done|exact H']].
    assert (Ho : opened n2 (bn name) bol bs).
    { split; [by eapply (same_writable n1 n2 _ _ [])|done..|]. by rewrite (Forall2_length _ _ _ HF). }
    simpl in *. destruct (Nat.lt_trichotomy size (length (concat bs.*2))) as [|[->|]].
    + by apply wp_truncate_shrink.
    + by apply wp_truncate_same.
    + by apply wp_truncate_extend.
Qed.

(** *** Writing a blob without blocks *)
Lemma wp_ReadBuffer_all fuel name b n :
  readable fuel name → blob n !! bn name = Some b → Z.of_nat (length (content b)) < 2 ^ 62 →
  wp (ReadBuffer cfg fuel name 0 0) (λ r n',
    same n n' ∧ issued n' = issued n ∧ r = (content b, None)) n.
Proof.
  intros Hread Hb Hlen. unfold ReadBuffer. simpl. apply wp_bind, wp_bind.
  eapply wp_mono; [by apply wp_blob_GetAttr|]. intros [p err] n1 (Hs1 & Hi1 & -> & a & Ha & HSa).
  apply wp_bind. eapply wp_load_obj; [done|]. apply wp_ret.
  rewrite HSa, Z.sub_0_r, i64_small by (unfold is_i64; lia).
  apply wp_bind, wp_make_slice, wp_bind, wp_Ret.
  pose proof (svc_Download (bn name) 0 (Z.of_nat (length (content b)))
    (replicate (length (content b)) zero_byte) n1) as Hd.
  apply wp_Ret in Hd as ([d err] & n2 & E & H1 & H2 & H3 & _ & H5).
  exists (d, err), n2. split; [done|]. apply wp_ret.
  split; [destruct Hs1; split; congruence|]. split; [congruence|].
  specialize (reads_succeed _ _ _ _ _ _ _ E). simpl in *. subst err.
  assert (Hc : download_count (content b) 0 (Z.of_nat (length (content b)))
               = Z.of_nat (length (content b))).
  { unfold download_count. destruct (Z.eqb_spec (Z.of_nat (length (content b))) 0); lia. }
  destruct Hs1 as [Hsb _]. rewrite <-Hsb in Hb.
  rewrite (H5 eq_refl b Hb) by (rewrite ?Hc, ?length_replicate; lia).
  by rewrite Hc, Z.add_0_l, slice_full, Nat2Z.id, drop_replicate, Nat.sub_diag, app_nil_r.
Qed.

Lemma wp_small_file_data old offset data n :
  old ≠ [] ∨ offset = 0%nat →
  wp (small_file_data (N := N) old (Z.of_nat offset) data) (λ buf n',
    n' = n ∧ buf = splice old offset data) n.
Proof.
  intros Hor. unfold small_file_data.
  destruct (Z.leb_spec (Z.of_nat offset + Z.of_nat (length data)) (Z.of_nat (length old))).
  { destruct (Z.ltb_spec (Z.of_nat offset) 0); [lia|]. apply wp_ret. split; [done|].
    rewrite Nat2Z.id. pose proof (splice_middle [] old [] data offset 0) as Hsp. simpl in Hsp.
    rewrite !app_nil_r, Nat.sub_0_r in Hsp. apply Hsp; lia. }
  destruct (Z.ltb_spec 0 (Z.of_nat (length old))) as [Hpos|Hz]; cycle 1.
  { assert (old = []) as -> by (destruct old; simpl in Hz; [done|lia]).
    destruct Hor as [?| ->]; [done|]. apply wp_ret. split; [done|]. unfold splice. simpl.
    by rewrite drop_nil, app_nil_r. }
  rewrite <-Nat2Z.inj_add. apply wp_bind, wp_make_slice.
  destruct (Z.ltb_spec (Z.of_nat offset) 0); [lia|]. apply wp_ret. split; [done|].
  rewrite Nat2Z.id. destruct (Z.eqb_spec (Z.of_nat offset) 0) as [Ho|Ho]; cbn [negb].
  - assert (offset = 0%nat) as -> by lia.
    rewrite copy_at_full by (rewrite length_replicate; lia). unfold splice. simpl.
    rewrite drop_replicate, Nat.sub_diag, drop_ge by lia. done.
  - set (z := (offset + length data - length old)%nat).
    assert (Hbuf : (copy_at (replicate (offset + length data) zero_byte) 0 old).1
                   = old ++ replicate z zero_byte).
    { rewrite copy_at_full by (rewrite length_replicate; lia). simpl.
      by rewrite drop_replicate. }
    rewrite Hbuf. pose proof (splice_middle [] old [] data offset z) as Hsp. simpl in Hsp.
    rewrite !app_nil_r, Nat.sub_0_r in Hsp. apply Hsp; [lia|lia|]. right. split; [done|lia].
Qed.

Lemma wp_Write_at_small fuel name offset data md n d :
  readable fuel name → blob n !! bn name = Some (Flat d) → d ≠ [] ∨ offset = 0%nat →
  Z.of_nat (length d) < 2 ^ 62 →
  wp (Write_at cfg fuel name (Z.of_nat offset) data md)
    (λ e n', resized n n' (bn name) (splice d offset data) e) n.
Proof.
  intros Hread Hb Hor Hlen. unfold Write_at. apply wp_bind.
  eapply wp_mono; [by eapply wp_GetFileBlockOffsets_flat|].
  intros [bol [e|]] n1 (Hs1 & Hi1 & Hsm); [by apply wp_ret; destruct Hs1|]. rewrite (Hsm eq_refl).
  apply wp_bind. eapply wp_mono.
  { apply (wp_ReadBuffer_all _ _ (Flat d)); [done|destruct Hs1 as [-> _]|]; done. }
  intros ? n2 (Hs2 & _ & ->). apply wp_bind. eapply wp_mono; [by apply wp_small_file_data|].
  intros buf ? [-> ->]. eapply wp_mono; [apply svc_UploadBuffer|].
  destruct Hs1 as [Hb1 _], Hs2 as [Hb2 _].
  intros [e|] n3 H3; simpl in *; [congruence|]. intros _. destruct H3 as (b' & Hc' & Hb3).
  unfold content_of. rewrite Hb3, Hb2, Hb1, lookup_insert_eq. simpl. split; [by rewrite Hc'|].
  intros k Hk. by rewrite lookup_insert_ne.
Qed.
End attributes.
End reads.

(** *** Zero blocks *)
Lemma ceil_div_step a b : 0 < b → ceil_div (a - b) b = ceil_div a b - 1.
Proof.
  intros. unfold ceil_div. replace (- (a - b)) with (- a + 1 * b) by lia.
  rewrite Z.div_add by lia. lia.
Qed.
Lemma div_step a b : 0 < b → (a - b) / b = a / b - 1.
Proof. intros. replace (a - b) with (a + -1 * b) by lia. rewrite Z.div_add by lia. lia. Qed.

Lemma wp_zero_blocks fuel name id blkSize size first n :
  0 < blkSize → (Z.to_nat (ceil_div size blkSize) ≤ fuel)%nat → 0 ≤ size →
  wp (zero_blocks cfg fuel name id blkSize size first) (λ r n',
    blob n' = blob n ∧
    ∀ l, r = inl l → take (Z.to_nat (size / blkSize)) l = replicate (Z.to_nat (size / blkSize)) id) n.
Proof.
  intros Hbs. revert size first n. induction fuel as [|fuel IH]; intros size first n Hf Hsz; simpl.
  all: destruct (Z.ltb_spec 0 size) as [Hpos|Hz].
  all: try (assert (size = 0) as -> by lia; apply wp_ret; split; [done|]; by intros l [= <-]).
  { pose proof (ceil_div_pos size blkSize Hpos Hbs). lia. }
  destruct (Z.ltb_spec size blkSize) as [Hshort|Hfull]; rewrite ?orb_true_r, ?orb_false_r.
  - apply wp_bind. eapply wp_mono; [apply wp_new_id; lia|]. intros id' n1 ([Hb1 _] & _).
    apply wp_bind, wp_bind. rewrite <-(Z2Nat.id size) at 1 by lia. apply wp_make_slice.
    eapply wp_mono; [apply svc_StageBlock|]. intros [e|] n2 (Hb2 & _); [apply wp_ret; split; [congruence|done]|].
    rewrite Z.sub_diag. destruct fuel; simpl; apply wp_bind, wp_ret, wp_ret;
      (split; [congruence|]); intros l [= <-]; by rewrite Z.div_small by lia.
  - apply wp_bind, wp_ret.
    assert (Hrec : ∀ n1, blob n1 = blob n →
      wp (r ← zero_blocks cfg fuel name id blkSize (size - blkSize) false;
          match r with inl l => mret (inl (id :: l)) | inr e => mret (inr e) end)
       (λ r n', blob n' = blob n ∧ ∀ l, r = inl l →
          take (Z.to_nat (size / blkSize)) l = replicate (Z.to_nat (size / blkSize)) id) n1).
    { intros n1 Hn1. apply wp_bind. eapply wp_mono; [apply IH; [rewrite ceil_div_step by lia; lia|lia]|].
      intros [l|e] n2 [Hb2 Hl]; apply wp_ret; (split; [congruence|]); [|done]. intros ? [= <-].
      specialize (Hl _ eq_refl). rewrite div_step in Hl by lia.
      pose proof (Z.div_le_lower_bound size blkSize 1 ltac:(lia) ltac:(lia)).
      replace (Z.to_nat (size / blkSize)) with (S (Z.to_nat (size / blkSize - 1))) by lia.
      simpl. by rewrite Hl. }
    apply wp_bind. destruct first; [|apply wp_ret; by apply Hrec].
    apply wp_bind. rewrite <-(Z2Nat.id blkSize) at 1 by lia. apply wp_make_slice.
    eapply wp_mono; [apply svc_StageBlock|].
    intros [e|] n2 (Hb2 & _); [apply wp_ret; split; [congruence|done]|]. by apply Hrec.
Qed.

(** ** Claims *)




(** The ids of the zero blocks that TruncateFile commits for an empty file
    grown past 1GB: every full block has the same id, drawn once. *)
Theorem zero_blocks_repeat_id fuel name id blkSize size first n :
  0 < blkSize → (Z.to_nat (ceil_div size blkSize) ≤ fuel)%nat → 0 ≤ size →
  wp (zero_blocks cfg fuel name id blkSize size first) (λ r n',
    blob n' = blob n ∧
    ∀ l, r = inl l → take (Z.to_nat (size / blkSize)) l = replicate (Z.to_nat (size / blkSize)) id) n.
Proof. intros. by apply wp_zero_blocks. Qed.
End spec.

(** ** Block sizes and listings *)
Section sizes.
Context {N : Type} `{!Runtime N} `{!BlobSDK N}.

Lemma ceil_div_le a b c : 0 < b → a ≤ c * b → ceil_div a b ≤ c.
Proof.
  intros Hb Hle. unfold ceil_div. pose proof (Z.div_le_lower_bound (- a) b (- c) Hb). lia.
Qed.
Lemma ceil_div_ge a b : 0 < b → a ≤ ceil_div a b * b.
Proof. intros Hb. unfold ceil_div. pose proof (Z.mul_div_le (- a) b Hb). lia. Qed.

Lemma land_minus8 x : Z.land x (-8) = x / 8 * 8.
Proof.
  change (-8) with (Z.lnot (Z.ones 3)). rewrite <-Z.ldiff_land, Z.ldiff_ones_r by lia.
  by rewrite Z.shiftr_div_pow2, Z.shiftl_mul_pow2 by lia.
Qed.
Lemma round8 x : x ≤ Z.land (x + 7) (-8) ∧ Z.land (x + 7) (-8) ≤ x + 7.
Proof.
  rewrite land_minus8. pose proof (Z.mul_div_le (x + 7) 8 ltac:(lia)).
  pose proof (Z.mod_pos_bound (x + 7) 8 ltac:(lia)). pose proof (Z.div_mod (x + 7) 8 ltac:(lia)). lia.
Qed.
Lemma round8_le x m : x ≤ m → m mod 8 = 0 → Z.land (x + 7) (-8) ≤ m.
Proof.
  intros Hx Hm. rewrite land_minus8. pose proof (Z.div_mod m 8 ltac:(lia)).
  assert ((x + 7) / 8 ≤ m / 8); [|lia].
  apply Z.lt_succ_r, Z.div_lt_upper_bound; lia.
Qed.

(** C32: the block size chosen for an upload.  For the SDK's limits, it is found
    exactly for the files that fit into the maximal number of maximal blocks;
    blocks of that size hold the whole file and none is larger than a block
    that can be staged. *)
Theorem calculateBlockSize_fits name fileSize :
  0 < BlockBlobMaxBlocks → BlockBlobMaxStageBlockBytes mod 8 = 0 →
  0 < BlockBlobMaxUploadBlobBytes ≤ BlockBlobMaxStageBlockBytes →
  0 < BlobDefaultDownloadBlockSize ≤ BlockBlobMaxStageBlockBytes →
  match calculateBlockSize name fileSize with
  | inl bs => fileSize ≤ MaxBlocksSize ∧ fileSize ≤ bs * BlockBlobMaxBlocks ∧
              0 < bs ≤ BlockBlobMaxStageBlockBytes
  | inr _ => MaxBlocksSize < fileSize
  end.
Proof.
  intros Hb Hs Hu Hd. unfold calculateBlockSize, MaxBlocksSize in *.
  destruct (Z.ltb_spec (BlockBlobMaxStageBlockBytes * BlockBlobMaxBlocks) fileSize); [done|].
  destruct (Z.leb_spec fileSize BlockBlobMaxUploadBlobBytes).
  { split; [done|]. split; [nia|lia]. }
  assert (Hle : ceil_div fileSize BlockBlobMaxBlocks ≤ BlockBlobMaxStageBlockBytes)
    by (by apply ceil_div_le).
  pose proof (ceil_div_ge fileSize BlockBlobMaxBlocks Hb) as Hge.
  set (bs := ceil_div fileSize BlockBlobMaxBlocks) in *.
  destruct (Z.ltb_spec bs BlobDefaultDownloadBlockSize).
  { split; [done|]. split; [nia|lia]. }
  pose proof (round8 bs) as [Hr1 Hr2]. pose proof (round8_le bs _ Hle Hs) as Hr3.
  set (r := if negb _ then _ else _). assert (Hr : bs ≤ r ≤ BlockBlobMaxStageBlockBytes).
  { unfold r. destruct (negb _); lia. }
  clearbody r bs. clear Hr1 Hr2 Hr3. destruct (Z.ltb_spec BlockBlobMaxStageBlockBytes r); [lia|].
  split; [done|]. split; [nia|lia].
Qed.

(** GetAttrUsingList under a service that keeps failing: whatever the error
    of the listings is, other than "not found" and "no permission", twenty
    failed requests make it answer that the file does not exist. *)
Theorem getAttrUsingList_hides_errors cfg name e n :
  (∀ marker path count, sdk_ListHierarchy marker path count n = Ret (inr e, n)) →
  storeBlobErrToErr e ≠ ErrFileNotFound → storeBlobErrToErr e ≠ InvalidPermission →
  getAttrUsingList cfg 20 name n = Ret ((nil_ptr, Some (Errno ENOENT)), n).
Proof.
  intros Hl H1 H2. unfold getAttrUsingList.
  assert (Hloop : ∀ k : nat, (k ≤ 20)%nat →
    getAttrUsingList_loop cfg k name None (20 - Z.of_nat k) n = Ret ((nil_ptr, Some (Errno ENOENT)), n));
    [|apply (Hloop 20%nat); lia].
  induction k as [|k IH]; intros Hk; simpl.
  { done. }
  destruct (Z.ltb_spec (20 - Z.of_nat (S k)) 20); [|lia]. cbn [negb].
  assert (HL : List_ cfg name None (maxResultsForList cfg) n = Ret ([], None, Some e, n)).
  { unfold List_, mbind, go_bind. by rewrite Hl. }
  unfold mbind, go_bind. rewrite HL. destruct (storeBlobErrToErr e); try done.
  all: replace (20 - Z.of_nat (S k) + 1) with (20 - Z.of_nat k) by lia; apply IH; lia.
Qed.
End sizes.

(** ** A service in memory

    [Faults] are the requests that fail: uploads, downloads, copies and listings. *)
Module BlobMemory.
Record bmem := mkBmem {
  b_objs : gmap ptr ObjAttr;
  b_handles : gmap ptr Handle;
  b_blobs : gmap string Blob;
  b_staged : gmap string (gmap string (list byte));
  b_issued : list string
}.
#[export] Instance Runtime_bmem : Runtime bmem := {
  rt_now n := Ret (0, n);
  rt_objs := b_objs;
  rt_set_objs o n := mkBmem o (b_handles n) (b_blobs n) (b_staged n) (b_issued n);
  rt_handles := b_handles;
  rt_set_handles h n := mkBmem (b_objs n) h (b_blobs n) (b_staged n) (b_issued n)
}.
#[export] Instance RuntimeLaws_bmem : RuntimeLaws bmem.
Proof. split; try done; intros n *; simpl; intros; simplify_eq; eauto. Qed.

Record Faults := mkFaults { upload_fails : bool; download_fails : bool; copy_fails : bool; list_fails : bool }.
Definition failure : error := BlobError (OtherServiceCode "ServerBusy").
Definition st_of (n : bmem) (name : string) : gmap string (list byte) :=
  default ∅ (b_staged n !! name).
Definition with_blobs (m : gmap string Blob) (s : gmap string (gmap string (list byte)))
    (n : bmem) : bmem := mkBmem (b_objs n) (b_handles n) m s (b_issued n).
(** The bytes drawn: the number of ids drawn so far, then zeros. *)
Definition draw (n : bmem) (k : Z) : list byte :=
  take (Z.to_nat k) (byte_of_z (Z.of_nat (length (b_issued n))) :: make_bytes k).

Definition properties (b : Blob) : BlobProperties :=
  mkBlobProperties (Z.of_nat (length (content b))) 0 None None [] ∅ CopyStatusNone.
(** The blobs of the directory [path]. *)
Definition below (path : string) (m : gmap string Blob) : gmap string Blob :=
  filter (λ x, strings_HasPrefix x.1 (path +:+ "/") = true) m.

(** A listing by a name gives the blob of that name and the directory of that name. *)
Definition sdk (f : Faults) : BlobSDK bmem := {|
  BlockBlobMaxStageBlockBytes := 64;
  BlockBlobMaxBlocks := 100;
  BlockBlobMaxUploadBlobBytes := 8;
  BlobDefaultDownloadBlockSize := 4;
  sdk_GetBlockList name n := Ret (match b_blobs n !! name with
    | Some (Blocks bs) => inl (sizes_of bs)
    | Some (Flat _) => inl []
    | None => inr (BlobError ServiceCodeBlobNotFound)
    end, n);
  sdk_StageBlock name id data n := Ret (None,
    with_blobs (b_blobs n) (<[name := <[id := data]> (st_of n name)]> (b_staged n)) n);
  sdk_CommitBlockList name ids ct n :=
    match mapM (latest (b_blobs n !! name) (st_of n name)) ids with
    | Some bs => Ret (None, with_blobs (<[name := Blocks bs]> (b_blobs n)) (delete name (b_staged n)) n)
    | None => Ret (Some (BlobError (OtherServiceCode "InvalidBlockList")), n)
    end;
  sdk_UploadBuffer name md ct bs data n :=
    if upload_fails f then Ret (Some failure, n)
    else Ret (None, with_blobs (<[name := Flat data]> (b_blobs n)) (delete name (b_staged n)) n);
  sdk_Download name offset len buf n :=
    if download_fails f then Ret ((buf, Some failure), n)
    else match b_blobs n !! name with
    | Some b =>
        let k := download_count (content b) offset len in
        let d := slice (content b) offset (offset + k) in
        Ret ((take (length buf) (d ++ drop (Z.to_nat k) buf ++ buf), None), n)
    | None => Ret ((buf, None), n)
    end;
  sdk_GetProperties name n := Ret (match b_blobs n !! name with
    | Some b => inl (properties b)
    | None => inr (BlobError ServiceCodeBlobNotFound)
    end, n);
  sdk_Delete name n := Ret (None, with_blobs (delete name (b_blobs n)) (delete name (b_staged n)) n);
  sdk_ListHierarchy marker path count n := Ret (if list_fails f then inr failure else inl (mkSegment
    match b_blobs n !! path with Some b => [(path, properties b)] | None => [] end
    (if bool_decide (map_to_list (below path (b_blobs n)) = []) then [] else [path +:+ "/"]) None), n);
  sdk_ListFlat marker prefix count n :=
    Ret (inl (filter (λ x, strings_HasPrefix x prefix = true) (map_to_list (b_blobs n)).*1, Some ""), n);
  sdk_StartCopyFromURL target source md n := Ret (match b_blobs n !! source with
    | Some b => if copy_fails f
        then (inl CopyStatusFailed, with_blobs (<[target := Flat []]> (b_blobs n)) (b_staged n) n)
        else (inl CopyStatusSuccess, with_blobs (<[target := b]> (b_blobs n)) (b_staged n) n)
    | None => (inr (BlobError ServiceCodeBlobNotFound), n)
    end);
  sdk_DownloadToFile name offset count fi n := Ret (Some failure, n);
  sdk_UploadFile fi name md ct md5 bs n := Ret (Some failure, n);
  file_Size fi n := Ret (inr failure, n);
  getMD5 fi n := Ret (inr failure, n);
  rand_Read k n := Ret (Some (draw n k),
    mkBmem (b_objs n) (b_handles n) (b_blobs n) (b_staged n)
      (match NewUUIDWithLength k (Some (draw n k)) with
       | Ret id => base64_EncodeToString id :: b_issued n
       | _ => b_issued n
       end))
|}.

Lemma draw_length n k : 0 ≤ k → Z.of_nat (length (draw n k)) = k.
Proof. intros Hk. unfold draw. rewrite length_take. simpl. rewrite make_bytes_length. lia. Qed.

#[export] Instance service (f : Faults) : @BlobService bmem Runtime_bmem (sdk f).
Proof.
  refine {| blob := b_blobs : bmem → _; staged := st_of; issued := b_issued |}.
  - done.
  - done.
  - done.
  - done.
  - intros name n. unfold wp. simpl. split; [done|]. split; [done|]. split; [done|]. intros l.
    destruct (b_blobs n !! name) as [[d|bs]|]; by intros [= <-].
  - intros name id data n. unfold wp. simpl. split; [done|]. split; [done|]. intros _.
    unfold st_of at 1. simpl. by rewrite lookup_insert_eq.
  - intros name ids ct n. unfold wp. simpl.
    destruct (mapM _ ids) as [bs|] eqn:E; [|done]. split; [done|]. split; [|by exists bs].
    unfold st_of. simpl. by rewrite lookup_delete_eq.
  - intros name md ct bs data n. unfold wp. simpl. destruct (upload_fails f); [done|]. by exists (Flat data).
  - intros name offset len buf n. unfold wp. simpl. destruct (download_fails f); [done|].
    destruct (b_blobs n !! name) as [b|] eqn:Hb; [|done]. do 3 (split; [done|]). simpl.
    split; [rewrite length_take, !length_app; lia|]. intros _ b' [= <-] H1 H2 H3 H4.
    rewrite (assoc_L (++)), take_app_length'; [done|].
    rewrite length_app, slice_length, length_drop by lia. lia.
  - intros name n. unfold wp. simpl. do 3 (split; [done|]). intros p.
    destruct (b_blobs n !! name) as [b|]; [|done]. intros [= <-]. by exists b.
  - intros name n. unfold wp. simpl. done.
  - intros target source md n. unfold wp. simpl. destruct (b_blobs n !! source) as [b|]; [|done].
    destruct (copy_fails f); [|by exists b]. intros x Hx. by apply lookup_insert_ne.
  - intros k n Hk. unfold wp. simpl. split; [done|]. split; [done|]. exists (draw n k).
    split; [done|]. split; [by apply draw_length|]. intros id ->. done.
Defined.
#[export] Instance listing (f : Faults) : @BlobListing bmem Runtime_bmem (sdk f) (service f).
Proof.
  refine {| regular := λ _, true |}.
  - by intros n t n' [= <- <-].
  - by intros name n r n' [= <- <-].
  - intros name count n. unfold wp. simpl. do 4 (split; [done|]). intros seg. destruct (list_fails f); [done|].
    intros [= <-]. simpl. split_and!.
    + destruct (b_blobs n !! name); repeat constructor. exists "". by rewrite string_app_nil_r.
    + case_bool_decide; repeat constructor. by exists "".
    + intros b ->. eexists _, []. split; [done|]. split; [done|]. intros _ (k & _ & Hk). simpl in Hk.
      by rewrite lookup_empty in Hk.
Defined.
End BlobMemory.

(** ** Witnesses *)
Module Witness.
Import BlobMemory.
Definition fine : Faults := mkFaults false false false false.
Definition cfg0 : BlobConfig := mkBlobConfig "" 4 false 100 false false false.
Definition no_list : Faults := mkFaults false false false true.
(** The default: attributes by listing. *)
Definition cfg_list : BlobConfig := mkBlobConfig "" 4 true 100 false false false.
Definition id1 : string := base64_EncodeToString (replicate 9 Byte.x01).
Definition id2 : string := base64_EncodeToString (replicate 9 Byte.x02).
Definition two : list (string * list byte) :=
  [(id1, bytes_of_string "abcd"); (id2, bytes_of_string "efgh")].
Definition start : bmem :=
  mkBmem ∅ {[1%nat := NewHandle "f"; 2%nat := NewHandle "g"]}
    {["f" := Blocks two; "g" := Flat (bytes_of_string "hello")]} ∅ [id2; id1].
Definition at_f (offset : Z) (s : string) : WriteFileOptions :=
  mkWriteFileOptions 1%nat offset (bytes_of_string s) ∅.

Lemma fine_reads : @reads_reliable bmem (sdk fine).
Proof. intros name offset len buf n r n'. simpl. by destruct (b_blobs n !! name); intros [= <- <-]. Qed.
Lemma fine_attributes : @attributes_reliable bmem _ (sdk fine) (service fine).
Proof.
  intros name n [b Hb]. simpl in *. split; [intros r n'|intros count r n']; intros [= <- <-]; rewrite ?Hb; eauto.
Qed.
Lemma start_writable : @writable bmem _ (sdk fine) (service fine) start "f" two.
Proof.
  split; [reflexivity|]. split; [done|]. split; [by repeat constructor|].
  split; [refine (bool_decide_unpack _ _); vm_compute; done|]. split; [set_solver|].
  split; [reflexivity|]. intros x [= <-]. vm_compute. done.
Qed.


Lemma names_readable fuel name :
  (0 < fuel)%nat → @listable cfg_list name → @readable bmem _ (sdk fine) (service fine) cfg_list (listing fine) fuel name.
Proof. by intros Hf Hn _. Qed.
Lemma f_listable : listable cfg_list "f".
Proof. by vm_compute. Qed.
Lemma g_listable : listable cfg_list "g".
Proof. by vm_compute. Qed.



(** The results of these runs. *)
Example write_past_end :
  match @Write bmem _ (sdk fine) cfg0 0 (at_f 10 "XY") start with
  | Ret (e, n') => e = None ∧ @content_of bmem _ (sdk fine) (service fine) n' "f" =
      Some (bytes_of_string "abcdefgh" ++ [zero_byte; zero_byte] ++ bytes_of_string "XY")
  | _ => False
  end.
Proof. vm_compute. done. Qed.
Example truncate_then_read :
  match @TruncateFile bmem _ (sdk fine) cfg0 0 "f" 6 start with
  | Ret (e, n') => e = None ∧ @content_of bmem _ (sdk fine) (service fine) n' "f" =
      Some (bytes_of_string "abcdef")
  | _ => False
  end.
Proof. vm_compute. done. Qed.

Lemma zero_blocks_repeat_id_witness :
  wp (@zero_blocks bmem (sdk fine) cfg0 3 "f" id1 4 10 true) (λ r n',
    b_blobs n' = b_blobs start ∧
    ∀ l, r = inl l → take (Z.to_nat (10 / 4)) l = replicate (Z.to_nat (10 / 4)) id1) start.
Proof.
  refine (@zero_blocks_repeat_id bmem _ (sdk fine) (service fine) cfg0 3%nat "f" id1 4 10 true start _ _ _).
  - reflexivity.
  - vm_compute. lia.
  - discriminate.
Defined.

Lemma calculateBlockSize_fits_witness :
  match @calculateBlockSize bmem (sdk fine) "f" 1000 with
  | inl bs => 1000 ≤ 6400 ∧ 1000 ≤ bs * 100 ∧ 0 < bs ≤ 64
  | inr _ => 6400 < 1000
  end.
Proof.
  refine (@calculateBlockSize_fits bmem (sdk fine) "f" 1000 _ _ _ _).
  all: vm_compute; intuition discriminate.
Defined.

Lemma getAttrUsingList_hides_errors_witness :
  @getAttrUsingList bmem _ (sdk no_list) cfg0 20 "f" start = Ret ((nil_ptr, Some (Errno ENOENT)), start).
Proof.
  refine (@getAttrUsingList_hides_errors bmem _ (sdk no_list) cfg0 "f" failure start _ _ _).
  - reflexivity.
  - discriminate.
  - discriminate.
Defined.

(** A blob whose blocks share one id, as TruncateFile commits them for an
    empty file grown past 1GB: a write to its first block, which returns no
    error, changes the second block as well. *)
Theorem shared_id_write_corrupts :
  let n := mkBmem ∅ {[1%nat := NewHandle "f"]}
             {["f" := Blocks [(id1, bytes_of_string "abcd"); (id1, bytes_of_string "abcd")]]} ∅ [id1] in
  match @Write bmem _ (sdk fine) cfg0 0 (at_f 0 "X") n with
  | Ret (e, n') => e = None ∧ content <$> b_blobs n' !! "f" = Some (bytes_of_string "XbcdXbcd")
  | _ => False
  end.
Proof. vm_compute. done. Qed.

(** TruncateFile of a file to size 0 whose upload fails returns no error,
    and the content is the old one. *)
Theorem truncate_hides_upload_error :
  match @TruncateFile bmem _ (sdk (mkFaults true false false false)) cfg0 0 "g" 0 start with
  | Ret (e, n') => e = None ∧ content <$> b_blobs n' !! "g" = Some (bytes_of_string "hello")
  | _ => False
  end.
Proof. vm_compute. done. Qed.

(** Write when the download of the old data fails: it returns no error and
    replaces the bytes around the written ones by zeros. *)
Theorem write_hides_read_error :
  match @Write bmem _ (sdk (mkFaults false true false false)) cfg0 0 (at_f 1 "X") start with
  | Ret (e, n') => e = None ∧ content <$> b_blobs n' !! "f" =
      Some ([zero_byte] ++ bytes_of_string "X" ++ [zero_byte; zero_byte] ++ bytes_of_string "efgh")
  | _ => False
  end.
Proof. vm_compute. done. Qed.

(** A write past the start of an empty file ignores the offset: the data
    becomes the whole content. *)
Theorem write_empty_ignores_offset :
  let n := mkBmem ∅ {[1%nat := NewHandle "f"]} {["f" := Flat []]} ∅ [] in
  match @Write bmem _ (sdk fine) cfg0 0 (at_f 3 "X") n with
  | Ret (e, n') => e = None ∧ content <$> b_blobs n' !! "f" = Some (bytes_of_string "X")
  | _ => False
  end.
Proof. vm_compute. done. Qed.
End Witness.
