(* ===== verification/BlobRename.v ===== *)
(** * Renaming, deleting and downloading blobs

    Block blobs have no rename: RenameFile copies and deletes.  On a service
    whose copies end at once it moves the blob or loses nothing; the status of a
    copy that failed is ignored.  Directories are renamed and deleted blob by
    blob. *)
From S2P Require Import Prelude GoLib Common HandleMap Internal Base64 AzUtils BlockBlob BlockBlobSpec.
Open Scope Z_scope.

Section rename.
Context {N : Type} `{!Runtime N} `{!BlobSDK N} `{!BlobService N} (cfg : BlobConfig).
Abbreviation bn := (blob_name cfg).

(** A copy within the account is done when the request returns. *)
Definition copies_synchronous : Prop := ∀ t s md n r n',
  sdk_StartCopyFromURL (N := N) t s md n = Ret (inl r, n') → r = CopyStatusSuccess.

(** A deletion that fails changes nothing, and says ENOENT only for a blob that
    does not exist. *)
Lemma wp_DeleteFile name n :
  wp (DeleteFile cfg name) (λ e n',
    match e with
    | None => blob n' = delete (bn name) (blob n)
    | Some e => blob n' = blob n ∧ (e = Errno ENOENT → blob n !! bn name = None)
    end) n.
Proof.
  unfold DeleteFile. apply wp_bind. eapply wp_mono; [apply svc_Delete|].
  intros [e|] n1; [|by intros H; apply wp_ret]. intros [Hb Hnf].
  destruct (storeBlobErrToErr e) eqn:He; apply wp_ret; (split; [done|]); intros; simplify_eq; auto.
Qed.

Lemma wp_rename_delete source n b :
  blob n !! bn source = Some b →
  wp (err ← DeleteFile cfg source; err ← delete_retry cfg 3 source err;
      if bool_decide (err = Some (Errno ENOENT)) then mret None else mret err) (λ e n',
    match e with None => blob n' = delete (bn source) (blob n) | Some _ => blob n' = blob n end) n.
Proof.
  intros Hb. apply wp_bind. eapply wp_mono; [apply wp_DeleteFile|]. intros err n1 Hpost.
  assert (Hne : err ≠ Some (Errno ENOENT)).
  { intros ->. destruct Hpost as [_ H]. specialize (H eq_refl). congruence. }
  cbn [delete_retry]. rewrite (bool_decide_false _ Hne). apply wp_bind, wp_ret.
  rewrite (bool_decide_false _ Hne). apply wp_ret. destruct err; [by destruct Hpost|done].
Qed.

(** C37: on a service whose copies end at once, RenameFile moves the blob: on
    success the target holds its content, the source is gone and no other blob
    changed; on an error nothing changed, or the blob is there under both names.
    It always returns. *)
Theorem RenameFile_moves fuel source target n :
  copies_synchronous → bn source ≠ bn target →
  wp (RenameFile cfg fuel source target) (λ e n',
    match e with
    | None => ∃ b, blob n !! bn source = Some b ∧
        blob n' = delete (bn source) (<[bn target := b]> (blob n))
    | Some _ => blob n' = blob n ∨
        ∃ b, blob n !! bn source = Some b ∧ blob n' = <[bn target := b]> (blob n)
    end) n.
Proof.
  intros Hsync Hne. unfold RenameFile. apply wp_bind. eapply wp_mono; [apply svc_GetProperties|].
  intros [prop|e] n1 (Hb1 & _ & _ & Hp); cycle 1.
  { destruct (storeBlobErrToErr e); apply wp_ret; by left. }
  destruct (Hp _ eq_refl) as (b & Hb & _). apply wp_bind.
  pose proof (svc_StartCopyFromURL (bn target) (bn source) (bp_Metadata prop) n1) as Hcp.
  apply wp_Ret in Hcp as (r & n2 & Hrun & Hcp). apply wp_Ret. exists r, n2. split; [done|].
  destruct r as [status|e]; [|apply wp_ret; left; congruence].
  pose proof (Hsync _ _ _ _ _ _ Hrun) as ->. destruct Hcp as (b' & Hb' & Hb2). rewrite Hb1 in Hb', Hb2.
  assert (b' = b) as -> by congruence. apply wp_bind.
  destruct fuel; cbn [wait_copy]; (rewrite bool_decide_false by done); apply wp_ret;
    (eapply wp_mono; [apply (wp_rename_delete source n2 b); by rewrite Hb2, lookup_insert_ne|]);
    (intros [e|] n3 H3; rewrite Hb2 in H3; [right|]; by exists b).
Qed.


(** ** Downloads *)

(** With MD5 validation, a download that reports success left a local file
    whose MD5 is that of the blob, unless one of the two sums could not be had:
    for any service and local file. *)
Theorem ReadToFile_validates name offset count fi n n' :
  validateMD5 cfg = true → ReadToFile cfg name offset count fi n = Ret (None, n') →
  ∃ n1 fmd5 n2 prop, sdk_DownloadToFile (bn name) offset count fi n = Ret (None, n1) ∧
    getMD5 fi n1 = Ret (fmd5, n2) ∧
    match fmd5 with
    | inl m => sdk_GetProperties (bn name) n2 = Ret (prop, n') ∧
        (∀ p, prop = inl p → bp_ContentMD5 p = [] ∨ bp_ContentMD5 p = m)
    | inr _ => n' = n2
    end.
Proof.
  intros Hv H. unfold ReadToFile in H. apply go_bind_Ret in H as (err & n1 & H1 & H).
  destruct err as [e|].
  { by destruct (storeBlobErrToErr e). }
  rewrite Hv in H. apply go_bind_Ret in H as (fmd5 & n2 & H2 & H). destruct fmd5 as [m|e]; cycle 1.
  { injection H as <-. by exists n1, (inr e), n2, (inr e). }
  apply go_bind_Ret in H as (prop & n3 & H3 & H). exists n1, (inl m), n2, prop.
  split; [done|]. split; [done|].
  destruct prop as [p|e]; [|by injection H as <-].
  case_bool_decide as Hnil; [injection H as <-; split; [done|]; intros ? [= <-]; by left|].
  case_bool_decide as Heq; [|discriminate H]. injection H as <-. split; [done|]. intros ? [= <-]. by right.
Qed.
End rename.

(** ** Witnesses *)
Module RenameWitness.
Import BlobMemory.
Definition cfg0 : BlobConfig := mkBlobConfig "" 4 false 100 false true false.
Definition data : list byte := bytes_of_string "data".
Definition start : bmem := mkBmem ∅ ∅ {["a" := Flat data]} ∅ [].
Definition fine : Faults := mkFaults false false false false.
Definition bad_copy : Faults := mkFaults false false true false.

Lemma fine_copies : @copies_synchronous bmem (sdk fine).
Proof.
  intros t s md n r n'. simpl. destruct (b_blobs n !! s) as [b|]; [|done]. by intros [= <- _].
Qed.
Lemma RenameFile_moves_witness :
  wp (@RenameFile bmem (sdk fine) cfg0 5 "a" "b") (λ e n', e = None →
    b_blobs n' !! "b" = Some (Flat data) ∧ b_blobs n' !! "a" = None) start.
Proof.
  eapply wp_mono; [apply (@RenameFile_moves bmem _ (sdk fine) (service fine) cfg0 5 "a" "b" start fine_copies);
    vm_compute; discriminate|].
  intros e n' H He. rewrite He in H. destruct H as (b & Hb & Hn). change (b_blobs n') with (@blob _ _ _ (service fine) n').
  rewrite Hn. change (blob_name cfg0 "a") with "a" in *. change (blob_name cfg0 "b") with "b" in *. simpl in Hb.
  rewrite lookup_singleton_eq in Hb. injection Hb as <-. split; [by rewrite lookup_delete_ne|apply lookup_delete_eq].
Defined.

Definition outcome_state {A S} (d : S) (o : outcome (A * S)) : S := match o with Ret (_, s) => s | _ => d end.
Definition n2 : bmem := outcome_state start (@sdk_StartCopyFromURL _ (sdk bad_copy) "b" "a" ∅ start).
Definition n3 : bmem := outcome_state start (@sdk_Delete _ (sdk bad_copy) "a" n2).

(** A local file with a sum, and a blob with the same. *)
Definition sum : list byte := replicate 16 Byte.x07.
Definition file_sdk : BlobSDK bmem := let s := sdk fine in {|
  BlockBlobMaxStageBlockBytes := 64; BlockBlobMaxBlocks := 100; BlockBlobMaxUploadBlobBytes := 8;
  BlobDefaultDownloadBlockSize := 4;
  sdk_GetBlockList := @sdk_GetBlockList _ s; sdk_StageBlock := @sdk_StageBlock _ s;
  sdk_CommitBlockList := @sdk_CommitBlockList _ s; sdk_UploadBuffer := @sdk_UploadBuffer _ s;
  sdk_Download := @sdk_Download _ s;
  sdk_GetProperties name n := Ret (inl (mkBlobProperties 4 0 None None sum ∅ CopyStatusNone), n);
  sdk_Delete := @sdk_Delete _ s; sdk_ListHierarchy := @sdk_ListHierarchy _ s;
  sdk_ListFlat := @sdk_ListFlat _ s; sdk_StartCopyFromURL := @sdk_StartCopyFromURL _ s;
  sdk_DownloadToFile name off k fi n := Ret (None, n);
  sdk_UploadFile fi name md ct m bs n := Ret (None, n);
  file_Size fi n := Ret (inl 4, n);
  getMD5 fi n := Ret (inl sum, n);
  rand_Read := @rand_Read _ s
|}.
Lemma ReadToFile_validates_witness :
  @ReadToFile bmem file_sdk cfg0 "a" 0 4 1%nat start = Ret (None, start) ∧
  ∃ n1 fmd5 n2, @sdk_DownloadToFile bmem file_sdk "a" 0 4 1%nat start = Ret (None, n1) ∧
    @getMD5 bmem file_sdk 1%nat n1 = Ret (fmd5, n2).
Proof.
  assert (H : @ReadToFile bmem file_sdk cfg0 "a" 0 4 1%nat start = Ret (None, start)) by (by vm_compute).
  split; [exact H|].
  destruct (@ReadToFile_validates bmem file_sdk cfg0 "a" 0 4 1%nat start start eq_refl H)
    as (n1 & fmd5 & n2 & prop & H1 & H2 & _). by exists n1, fmd5, n2.
Defined.
End RenameWitness.
