(* ===== verification/CacheObj.v ===== *)
(** * The stream cache of a handle (src/internal/handlemap/handle_map.go, Cache)

    A [Cache] is an LRU cache of blocks with the block offset list of the file.
    It hangs off a handle ([CacheObj]) and several handles of one file may
    share it; its blocks are shared between the LRU cache and the block list.
    Storage reads the block list when the handle is flushed.  So caches and
    blocks live in the state of the next component, like handles. *)
From S2P Require Import Prelude GoLib Common HandleMap Internal LRUCache AzUtils.

(** [cache_list], [cache_flags], [cache_idlen], [cache_size] and [cache_mtime]
    are the fields of the embedded *BlockOffsetList, whose blocks are addresses. *)
Record Cache := mkCache {
  cache_lru : LRUCache;
  cache_list : list ptr;
  cache_flags : BitMap16;
  cache_idlen : Z;
  cache_size : Z;
  cache_mtime : Time;
  StreamOnly : bool;
  HandleCount : Z
}.

(** Field stores of the struct. *)
Definition cache_with_lru (l : LRUCache) (c : Cache) : Cache :=
  mkCache l (cache_list c) (cache_flags c) (cache_idlen c) (cache_size c) (cache_mtime c)
    (StreamOnly c) (HandleCount c).
Definition cache_with_bol (l : list ptr) (fl : BitMap16) (idlen size : Z) (mtime : Time) (c : Cache) : Cache :=
  mkCache (cache_lru c) l fl idlen size mtime (StreamOnly c) (HandleCount c).
Definition cache_with_list (l : list ptr) (c : Cache) : Cache :=
  cache_with_bol l (cache_flags c) (cache_idlen c) (cache_size c) (cache_mtime c) c.
Definition cache_with_size (size : Z) (mtime : Time) (c : Cache) : Cache :=
  cache_with_bol (cache_list c) (cache_flags c) (cache_idlen c) size mtime c.
Definition cache_stream_only (c : Cache) : Cache :=
  mkCache (cache_lru c) (cache_list c) (cache_flags c) (cache_idlen c) (cache_size c)
    (cache_mtime c) true (HandleCount c).
Definition cache_add_handles (k : Z) (c : Cache) : Cache :=
  mkCache (cache_lru c) (cache_list c) (cache_flags c) (cache_idlen c) (cache_size c)
    (cache_mtime c) (StreamOnly c) (i64 (HandleCount c + k)).
Definition block_with_id (id : string) (b : Block) : Block :=
  mkBlock (StartIndex b) (EndIndex b) (bFlags b) id (Data b).

(** [Cache] with a new LRU cache and an empty BlockOffsetList. *)
Definition NewCache (capacity : Z) : Cache :=
  mkCache (NewLRUCache capacity) [] 0 0 0 0 false 0.

Class CacheHeap (N : Type) := {
  ch_heap : N → gmap ptr Cache * gmap ptr Block;
  ch_set_heap : gmap ptr Cache * gmap ptr Block → N → N
}.
Definition caches {N : Type} `{!CacheHeap N} (n : N) : gmap ptr Cache := (ch_heap n).1.
Definition blocks {N : Type} `{!CacheHeap N} (n : N) : gmap ptr Block := (ch_heap n).2.

(** Handles, caches and blocks are different parts of the state. *)
Class CacheHeapLaws (N : Type) `{!Runtime N, !CacheHeap N} := {
  ch_get_set h n : ch_heap (ch_set_heap h n) = h;
  ch_handles_set h n : rt_handles (ch_set_heap h n) = rt_handles n;
  ch_get_set_handles m n : ch_heap (rt_set_handles m n) = ch_heap n;
  rt_get_set_handles m n : rt_handles (rt_set_handles m n) = m
}.

Section heap.
Context {N : Type} `{!Runtime N, !CacheHeap N}.

Definition set_caches (m : gmap ptr Cache) (n : N) : N := ch_set_heap (m, blocks n) n.
Definition set_blocks (m : gmap ptr Block) (n : N) : N := ch_set_heap (caches n, m) n.

Definition upd_handle (hp : ptr) (f : Handle → Handle) : go N unit := λ n,
  match rt_handles n !! hp with
  | Some h => Ret (tt, rt_set_handles (<[hp:=f h]> (rt_handles n)) n)
  | None => Panic
  end.
Definition new_handle (h : Handle) : go N ptr := λ n,
  let p := fresh_ptr (rt_handles n) in
  Ret (p, rt_set_handles (<[p:=h]> (rt_handles n)) n).

Definition load_cache (cp : ptr) : go N Cache := λ n, go_deref (caches n !! cp) n.
Definition upd_cache (cp : ptr) (f : Cache → Cache) : go N unit := λ n,
  match caches n !! cp with
  | Some c => Ret (tt, set_caches (<[cp:=f c]> (caches n)) n)
  | None => Panic
  end.
Definition load_blk (p : ptr) : go N Block := λ n, go_deref (blocks n !! p) n.
Definition upd_blk (p : ptr) (f : Block → Block) : go N unit := λ n,
  match blocks n !! p with
  | Some b => Ret (tt, set_blocks (<[p:=f b]> (blocks n)) n)
  | None => Panic
  end.
Definition new_blk (b : Block) : go N ptr := λ n,
  let p := fresh_ptr (blocks n) in
  Ret (p, set_blocks (<[p:=b]> (blocks n)) n).
Fixpoint new_blks (l : list Block) : go N (list ptr) :=
  match l with
  | [] => mret []
  | b :: l => p ← new_blk b; ps ← new_blks l; mret (p :: ps)
  end.

(** An operation of the embedded LRU cache. *)
Definition on_lru {A} (cp : ptr) (m : go lru_state A) : go N A := λ n,
  match caches n !! cp with
  | None => Panic
  | Some c =>
      match m (cache_lru c, blocks n) with
      | Ret (a, (l, bs)) => Ret (a, ch_set_heap (<[cp:=cache_with_lru l c]> (caches n), bs) n)
      | Panic => Panic
      | Blocked => Blocked
      end
  end.

(** The block offset list as a value: its blocks are loaded. *)
Definition bol_value (c : Cache) (n : N) : option BlockOffsetList :=
  bs ← mapM (λ p, blocks n !! p) (cache_list c);
  Some (mkBOL bs (cache_flags c) (cache_idlen c) (cache_size c) (cache_mtime c)).
(** A block offset list that another component allocated. *)
Definition set_bol (cp : ptr) (bol : BlockOffsetList) : go N unit :=
  ps ← new_blks (BlockList bol);
  upd_cache cp (cache_with_bol ps (bolFlags bol) (BlockIdLength bol) (bolSize bol) (bolMtime bol)).

Definition handle_with_cache (c : ptr) (h : Handle) : Handle :=
  mkHandle (FObj h) c (Buffers h) (hID h) (hSize h) (hMtime h) (UnixFD h) (OptCnt h)
    (hFlags h) (hPath h) (values h).

Definition CreateCacheObject (capacity : Z) (hp : ptr) : go N unit :=
  cp ← (λ n, let p := fresh_ptr (caches n) in
             Ret (p, set_caches (<[p:=NewCache capacity]> (caches n)) n));
  upd_handle hp (handle_with_cache cp).
End heap.
