(* ===== verification/AzStorage.v ===== *)
(** * The azstorage component (src/component/azstorage/azstorage.go, connection.go)

    The last component of the pipeline.  Its operations call an [AzConnection],
    the interface that block blobs and data lake implement; it allocates the
    handles, blocks listings for a while after the mount and flushes the block
    list of a handle's stream cache. *)
From S2P Require Import Prelude GoLib Common HandleMap Internal LRUCache AzUtils CacheObj BlockBlob.
Open Scope Z_scope.

(** ** The connection (connection.go, AzConnection)

    [StageAndCommit] gives back the blocks, whose flags it changes. *)
Record AzConnection (N : Type) := mkAzConnection {
  az_CreateFile : string → FileMode → go N (option error);
  az_CreateDirectory : string → go N (option error);
  az_CreateLink : string → string → go N (option error);
  az_DeleteFile : string → go N (option error);
  az_DeleteDirectory : string → go N (option error);
  az_RenameFile : string → string → go N (option error);
  az_RenameDirectory : string → string → go N (option error);
  az_GetAttr : string → go N (ptr * option error);
  az_List : string → option string → Z → go N (list ptr * option string * option error);
  az_ReadToFile : string → Z → Z → ptr → go N (option error);
  az_ReadBuffer : string → Z → Z → go N (list byte * option error);
  az_ReadInBuffer : string → Z → Z → list byte → go N (list byte * option error);
  az_WriteFromFile : string → gmap string string → ptr → go N (option error);
  az_WriteFromBuffer : string → gmap string string → list byte → go N (option error);
  az_Write : WriteFileOptions → go N (option error);
  az_GetFileBlockOffsets : string → go N (BlockOffsetList * option error);
  az_ChangeMod : string → FileMode → go N (option error);
  az_ChangeOwner : string → Z → Z → go N (option error);
  az_TruncateFile : string → Z → go N (option error);
  az_StageAndCommit : string → BlockOffsetList → go N (BlockOffsetList * option error);
  az_GetCommittedBlockList : string → go N (option CommittedBlockList * option error);
  az_StageBlock : string → list byte → string → go N (option error);
  az_CommitBlocks : string → list string → go N (option error)
}.
Arguments az_CreateFile {N}. Arguments az_CreateDirectory {N}. Arguments az_CreateLink {N}.
Arguments az_DeleteFile {N}. Arguments az_DeleteDirectory {N}. Arguments az_RenameFile {N}.
Arguments az_RenameDirectory {N}. Arguments az_GetAttr {N}. Arguments az_List {N}.
Arguments az_ReadToFile {N}. Arguments az_ReadBuffer {N}. Arguments az_ReadInBuffer {N}.
Arguments az_WriteFromFile {N}. Arguments az_WriteFromBuffer {N}. Arguments az_Write {N}.
Arguments az_GetFileBlockOffsets {N}. Arguments az_ChangeMod {N}. Arguments az_ChangeOwner {N}.
Arguments az_TruncateFile {N}. Arguments az_StageAndCommit {N}.
Arguments az_GetCommittedBlockList {N}. Arguments az_StageBlock {N}. Arguments az_CommitBlocks {N}.

(** Block blobs behind the interface.  [fuel] bounds the pages of a listing and
    the polls of a copy. *)
Definition BlockBlob_connection {N} `{!Runtime N} `{!BlobSDK N} (cfg : BlobConfig) (fuel : nat)
    : AzConnection N :=
  mkAzConnection N (BlockBlob.CreateFile cfg) (CreateDirectory cfg) (CreateLink cfg)
    (DeleteFile cfg) (DeleteDirectory cfg fuel) (RenameFile cfg fuel) (RenameDirectory cfg fuel fuel)
    (GetAttr cfg fuel) (List_ cfg) (ReadToFile cfg) (ReadBuffer cfg fuel) (ReadInBuffer cfg)
    (WriteFromFile cfg) (WriteFromBuffer cfg) (Write cfg fuel) (GetFileBlockOffsets cfg)
    (λ name mode, mret (ChangeMod cfg name mode)) (λ name uid gid, mret (ChangeOwner cfg name uid gid))
    (TruncateFile cfg fuel) (StageAndCommit cfg) (GetCommittedBlockList cfg)
    (StageBlock cfg) (CommitBlocks cfg).

(** ** The component *)
Record AzState := mkAzState {
  startTime : Time;
  listBlocked : bool
}.

(** The caches and blocks of stream handles, below the state of a component. *)
#[export] Instance CacheHeap_prod (C N : Type) `{!CacheHeap N} : CacheHeap (C * N) := {
  ch_heap s := ch_heap s.2;
  ch_set_heap h s := (s.1, ch_set_heap h s.2)
}.

Definition formatListDirName (path : string) : string :=
  if bool_decide (path = "/") then ""
  else if negb (bool_decide (path = "")) then ExtendDirName path
  else path.

Section azstorage.
Context {N : Type} `{!Runtime N, !CacheHeap N}.
Abbreviation st := (AzState * N)%type.
Context (cancelListForSeconds : Z) (storage : AzConnection N).

Definition az_Start : go st unit :=
  now ← rt_now;
  go_modify (λ s : st, (mkAzState now true, s.2)).

Definition CreateDir (options : CreateDirOptions) : go st (option error) :=
  go_snd (az_CreateDirectory storage (TruncateDirName (CreateDir_Name options))).
Definition DeleteDir (options : DeleteDirOptions) : go st (option error) :=
  go_snd (az_DeleteDirectory storage (TruncateDirName (DeleteDir_Name options))).

Definition IsDirEmpty (options : IsDirEmptyOptions) : go st bool :=
  '(l, _, err) ← go_snd (az_List storage (formatListDirName (IsDirEmpty_Name options)) None 1);
  match err with
  | Some _ => mret false
  | None => mret (bool_decide (l = []))
  end.

(** Whether a listing is still refused: [time.Since(az.startTime)] has not passed
    the configured number of seconds.  The first listing after that unblocks. *)
Definition list_refused : go st bool :=
  blocked ← go_gets (λ s : st, listBlocked s.1);
  if blocked : bool then
    now ← rt_now;
    start ← go_gets (λ s : st, startTime s.1);
    if cancelListForSeconds * 10 ^ 9 <? now - start then
      _ ← go_modify (λ s : st, (mkAzState (startTime s.1) false, s.2));
      mret false
    else mret true
  else mret false.

(** One unit of fuel is one listing request. *)
Fixpoint ReadDir_loop (fuel : nat) (path : string) (marker : option string) (blobList : list ptr)
    : go st (list ptr * option error) :=
  match fuel with
  | O => go_block
  | S fuel =>
      '(new_list, new_marker, err) ← go_snd (az_List storage path marker MaxDirListCount);
      match err with
      | Some e => mret (blobList, Some e)
      | None =>
          match new_marker with
          | None | Some "" => mret (blobList ++ new_list, None)
          | Some m => ReadDir_loop fuel path (Some m) (blobList ++ new_list)
          end
      end
  end.
Definition ReadDir (fuel : nat) (options : ReadDirOptions) : go st (list ptr * option error) :=
  refused ← list_refused;
  if refused : bool then mret ([], None)
  else ReadDir_loop fuel (formatListDirName (ReadDir_Name options)) None [].

(** An empty page with a marker is fetched again from the marker on. *)
Fixpoint StreamDir (fuel : nat) (options : StreamDirOptions) : go st (list ptr * string * option error) :=
  match fuel with
  | O => go_block
  | S fuel =>
      refused ← list_refused;
      if refused : bool then mret ([], "", None)
      else
        '(new_list, new_marker, err) ←
          go_snd (az_List storage (formatListDirName (StreamDir_Name options))
                    (Some (StreamDir_Token options)) (StreamDir_Count options));
        match err with
        | Some e => mret (new_list, "", Some e)
        | None =>
            match new_marker with
            | None => go_panic
            | Some m =>
                if bool_decide (m ≠ "") && bool_decide (new_list = []) then
                  StreamDir fuel (mkStreamDirOptions (StreamDir_Name options)
                    (StreamDir_Offset options) m (StreamDir_Count options))
                else mret (new_list, m, None)
            end
        end
  end.

Definition RenameDir (options : RenameDirOptions) : go st (option error) :=
  go_snd (az_RenameDirectory storage (TruncateDirName (RenameDir_Src options))
            (TruncateDirName (RenameDir_Dst options))).

(** ** Files *)
Definition az_CreateFile_op (options : CreateFileOptions) : go st (ptr * option error) :=
  handle ← new_handle (NewHandle (CreateFile_Name options));
  err ← go_snd (az_CreateFile storage (CreateFile_Name options) (CreateFile_Mode options));
  match err with
  | Some e => mret (nil_ptr, Some e)
  | None =>
      now ← rt_now;
      _ ← upd_handle handle (handle_with_mtime now);
      mret (handle, None)
  end.

Definition az_OpenFile (options : OpenFileOptions) : go st (ptr * option error) :=
  '(attr, err) ← go_snd (az_GetAttr storage (OpenFile_Name options));
  match err with
  | Some e => mret (nil_ptr, Some e)
  | None =>
      handle ← new_handle (NewHandle (OpenFile_Name options));
      a ← load_obj attr;
      _ ← upd_handle handle (handle_with_size (Size a));
      _ ← upd_handle handle (handle_with_mtime (Mtime a));
      mret (handle, None)
  end.

(** Only statistics. *)
Definition az_CloseFile (options : CloseFileOptions) : go st (option error) :=
  _ ← load_handle (CloseFile_Handle options);
  mret None.

Definition az_DeleteFile_op (options : DeleteFileOptions) : go st (option error) :=
  go_snd (az_DeleteFile storage (DeleteFile_Name options)).
Definition az_RenameFile_op (options : RenameFileOptions) : go st (option error) :=
  go_snd (az_RenameFile storage (RenameFile_Src options) (RenameFile_Dst options)).

Definition az_ReadFile (options : ReadFileOptions) : go st (list byte * option error) :=
  h ← load_handle (ReadFile_Handle options);
  go_snd (az_ReadBuffer storage (hPath h) 0 0).

(** The buffer after the call, the number of bytes and the error. *)
Definition az_ReadInBuffer_op (options : ReadInBufferOptions) : go st (list byte * Z * option error) :=
  let data := ReadInBuffer_Data options in
  let offset := ReadInBuffer_Offset options in
  h ← load_handle (ReadInBuffer_Handle options);
  if hSize h <? offset then mret (data, 0, Some (Errno ERANGE))
  else
    let len := Z.of_nat (length data) in
    let dataLen := if hSize h <? i64 (offset + len) then i64 (hSize h - offset) else len in
    if dataLen =? 0 then mret (data, 0, None)
    else
      '(data', err) ← go_snd (az_ReadInBuffer storage (hPath h) offset dataLen data);
      mret (data', dataLen, err).

Definition az_WriteFile (options : WriteFileOptions) : go st (Z * option error) :=
  err ← go_snd (az_Write storage options);
  mret (Z.of_nat (length (WriteFile_Data options)), err).

Definition az_GetFileBlockOffsets_op (options : GetFileBlockOffsetsOptions)
    : go st (option BlockOffsetList * option error) :=
  '(bol, err) ← go_snd (az_GetFileBlockOffsets storage (GetFileBlockOffsets_Name options));
  mret (Some bol, err).

Definition az_TruncateFile_op (options : TruncateFileOptions) : go st (option error) :=
  go_snd (az_TruncateFile storage (TruncateFile_Name options) (TruncateFile_Size options)).

Definition az_CopyToFile (options : CopyToFileOptions) : go st (option error) :=
  go_snd (az_ReadToFile storage (CopyToFile_Name options) (CopyToFile_Offset options)
            (CopyToFile_Count options) (CopyToFile_File options)).
Definition az_CopyFromFile (options : CopyFromFileOptions) : go st (option error) :=
  go_snd (az_WriteFromFile storage (CopyFromFile_Name options) (CopyFromFile_Metadata options)
            (CopyFromFile_File options)).

Definition az_CreateLink_op (options : CreateLinkOptions) : go st (option error) :=
  go_snd (az_CreateLink storage (CreateLink_Name options) (CreateLink_Target options)).
Definition az_ReadLink (options : ReadLinkOptions) : go st (string * option error) :=
  '(data, err) ← go_snd (az_ReadBuffer storage (ReadLink_Name options) 0 0);
  mret (string_of_bytes data, err).

Definition az_GetAttr_op (options : GetAttrOptions) : go st (ptr * option error) :=
  go_snd (az_GetAttr storage (GetAttr_Name options)).
Definition Chmod (options : ChmodOptions) : go st (option error) :=
  go_snd (az_ChangeMod storage (Chmod_Name options) (Chmod_Mode options)).
Definition Chown (options : ChownOptions) : go st (option error) :=
  go_snd (az_ChangeOwner storage (Chown_Name options) (Chown_Owner options) (Chown_Group options)).

(** The blocks of the cached list, and the stores into them. *)
Definition load_blks (ps : list ptr) : go st (list Block) := λ s,
  go_deref (mapM (λ p, blocks s !! p) ps) s.
Fixpoint store_blks (ps : list ptr) (bs : list Block) : go st unit :=
  match ps, bs with
  | p :: ps, b :: bs => _ ← upd_blk p (λ _, b); store_blks ps bs
  | _, _ => mret tt
  end.
Definition az_FlushFile (options : FlushFileOptions) : go st (option error) :=
  h ← load_handle (FlushFile_Handle options);
  cc ← load_cache (CacheObj h);
  bs ← load_blks (cache_list cc);
  '(bol, err) ← go_snd (az_StageAndCommit storage (hPath h)
                  (mkBOL bs (cache_flags cc) (cache_idlen cc) (cache_size cc) (cache_mtime cc)));
  _ ← store_blks (cache_list cc) (BlockList bol);
  mret err.

Definition az_GetCommittedBlockList_op (name : string)
    : go st (option CommittedBlockList * option error) :=
  go_snd (az_GetCommittedBlockList storage name).
Definition StageData (opt : StageDataOptions) : go st (option error) :=
  go_snd (az_StageBlock storage (StageData_Name opt) (StageData_Data opt) (StageData_Id opt)).
Definition CommitData (opt : CommitDataOptions) : go st (option error) :=
  go_snd (az_CommitBlocks storage (CommitData_Name opt) (CommitData_List opt)).

(** The operations that AzStorage does not override are those of BaseComponent
    without a next component. *)
Definition AzStorage_component (fuel : nat) : Component st :=
  mkComponent CreateDir DeleteDir IsDirEmpty (Base_OpenDir None) (ReadDir fuel) (StreamDir fuel)
    (Base_CloseDir None) RenameDir az_CreateFile_op az_DeleteFile_op az_OpenFile az_CloseFile
    az_RenameFile_op az_ReadFile az_ReadInBuffer_op az_WriteFile az_TruncateFile_op az_CopyToFile
    az_CopyFromFile (Base_SyncFile None) (Base_SyncDir None) az_FlushFile (Base_ReleaseFile None)
    (Base_UnlinkFile None) az_CreateLink_op az_ReadLink az_GetAttr_op az_GetFileBlockOffsets_op
    (Base_SetAttr None) Chmod Chown (Base_FileUsed None) (Base_StatFs None)
    az_GetCommittedBlockList_op StageData CommitData.
End azstorage.
