(* ===== verification/AzConfig.v ===== *)
(** * Settings of the storage component (src/component/azstorage/config.go)

    The options of the configuration file, the settings derived from them, and the
    parsing and validation of both, at mount and on a change of the file.  The parser
    of the configuration file and the parser of enumeration names are parameters. *)
From Stdlib Require Import Ascii.
From S2P Require Import Prelude GoLib AzUtils BlockBlob.
Open Scope Z_scope.

(** ** Data *)

(** Both types are integers: the last constructor is a value without a name. *)
Inductive AuthType := INVALID_AUTH | KEY | SAS | SPN | MSI | AuthOther (n : Z).
Inductive AccountType := INVALID_ACC | BLOCK | ADLS | AccountOther (n : Z).
#[export] Instance AuthType_eq_dec : EqDecision AuthType.
Proof. solve_decision. Defined.
#[export] Instance AccountType_eq_dec : EqDecision AccountType.
Proof. solve_decision. Defined.

Record AzStorageOptions := mkAzStorageOptions {
  ao_AccountType : string;
  ao_UseHTTP : bool;
  ao_AccountName : string;
  ao_AccountKey : string;
  ao_SaSKey : string;
  ao_ApplicationID : string;
  ao_ResourceID : string;
  ao_ObjectID : string;
  ao_TenantID : string;
  ao_ClientID : string;
  ao_ClientSecret : string;
  ao_OAuthTokenFilePath : string;
  ao_ActiveDirectoryEndpoint : string;
  ao_Endpoint : string;
  ao_AuthMode : string;
  ao_Container : string;
  ao_PrefixPath : string;
  ao_BlockSize : Z;
  ao_MaxConcurrency : Z;
  ao_DefaultTier : string;
  ao_CancelListForSeconds : Z;
  ao_MaxRetries : Z;
  ao_MaxTimeout : Z;
  ao_BackoffTime : Z;
  ao_MaxRetryDelay : Z;
  ao_HttpProxyAddress : string;
  ao_HttpsProxyAddress : string;
  ao_SdkTrace : bool;
  ao_FailUnsupportedOp : bool;
  ao_AuthResourceString : string;
  ao_UpdateMD5 : bool;
  ao_ValidateMD5 : bool;
  ao_VirtualDirectory : bool;
  ao_MaxResultsForList : Z;
  ao_DisableCompression : bool;
  ao_Telemetry : string;
  ao_HonourACL : bool;
  ao_CPKEnabled : bool;
  ao_CPKEncryptionKey : string;
  ao_CPKEncryptionKeySha256 : string;
  ao_UseAdls : bool;
  ao_UseHTTPS : bool
}.

Record azAuthConfig := mkAzAuthConfig {
  au_AccountName : string;
  au_UseHTTP : bool;
  au_AccountType : AccountType;
  au_AuthMode : AuthType;
  au_AccountKey : string;
  au_SASKey : string;
  au_ApplicationID : string;
  au_ResourceID : string;
  au_ObjectID : string;
  au_TenantID : string;
  au_ClientID : string;
  au_ClientSecret : string;
  au_OAuthTokenFilePath : string;
  au_ActiveDirectoryEndpoint : string;
  au_Endpoint : string;
  au_AuthResource : string
}.

Inductive AccessTierType :=
  | AccessTierNone | AccessTierHot | AccessTierCool | AccessTierArchive
  | AccessTierP4 | AccessTierP6 | AccessTierP10 | AccessTierP15 | AccessTierP20 | AccessTierP30
  | AccessTierP40 | AccessTierP50 | AccessTierP60 | AccessTierP70 | AccessTierP80.
Definition AccessTiers : list (string * AccessTierType) :=
  [("none", AccessTierNone); ("hot", AccessTierHot); ("cool", AccessTierCool); ("archive", AccessTierArchive);
   ("p4", AccessTierP4); ("p6", AccessTierP6); ("p10", AccessTierP10); ("p15", AccessTierP15);
   ("p20", AccessTierP20); ("p30", AccessTierP30); ("p40", AccessTierP40); ("p50", AccessTierP50);
   ("p60", AccessTierP60); ("p70", AccessTierP70); ("p80", AccessTierP80)].
Definition getAccessTierType (name : string) : AccessTierType :=
  if bool_decide (name = "") then AccessTierNone
  else match list_find (λ kv : string * AccessTierType, kv.1 = strings_ToLower name) AccessTiers with
       | Some (_, (_, value)) => value
       | None => AccessTierNone
       end.

Record AzStorageConfig := mkAzStorageConfig {
  sc_authConfig : azAuthConfig;
  sc_container : string;
  sc_prefixPath : string;
  sc_blockSize : Z;
  sc_maxConcurrency : Z;
  sc_defaultTier : AccessTierType;
  sc_cancelListForSeconds : Z;
  sc_maxRetries : Z;
  sc_maxTimeout : Z;
  sc_backoffTime : Z;
  sc_maxRetryDelay : Z;
  sc_proxyAddress : string;
  sc_sdkTrace : bool;
  sc_ignoreAccessModifiers : bool;
  sc_mountAllContainers : bool;
  sc_updateMD5 : bool;
  sc_validateMD5 : bool;
  sc_virtualDirectory : bool;
  sc_maxResultsForList : Z;
  sc_disableCompression : bool;
  sc_telemetry : string;
  sc_honourACL : bool;
  sc_disableSymlink : bool;
  sc_cpkEnabled : bool;
  sc_cpkEncryptionKey : string;
  sc_cpkEncryptionKeySha256 : string
}.

(** The settings the model of block blobs reads. *)
Definition blob_config (c : AzStorageConfig) : BlobConfig :=
  mkBlobConfig (sc_prefixPath c) (sc_blockSize c) (sc_virtualDirectory c) (sc_maxResultsForList c)
    (sc_ignoreAccessModifiers c) (sc_validateMD5 c) (sc_updateMD5 c).

(** *** Assignments to fields *)
Definition set_SASKey (key : string) (a : azAuthConfig) : azAuthConfig :=
  mkAzAuthConfig (au_AccountName a) (au_UseHTTP a) (au_AccountType a) (au_AuthMode a) (au_AccountKey a) key
    (au_ApplicationID a) (au_ResourceID a) (au_ObjectID a) (au_TenantID a) (au_ClientID a) (au_ClientSecret a)
    (au_OAuthTokenFilePath a) (au_ActiveDirectoryEndpoint a) (au_Endpoint a) (au_AuthResource a).
Definition set_AuthMode (mode : AuthType) (a : azAuthConfig) : azAuthConfig :=
  mkAzAuthConfig (au_AccountName a) (au_UseHTTP a) (au_AccountType a) mode (au_AccountKey a) (au_SASKey a)
    (au_ApplicationID a) (au_ResourceID a) (au_ObjectID a) (au_TenantID a) (au_ClientID a) (au_ClientSecret a)
    (au_OAuthTokenFilePath a) (au_ActiveDirectoryEndpoint a) (au_Endpoint a) (au_AuthResource a).
Definition set_AccountType_Endpoint (t : AccountType) (endpoint : string) (a : azAuthConfig) : azAuthConfig :=
  mkAzAuthConfig (au_AccountName a) (au_UseHTTP a) t (au_AuthMode a) (au_AccountKey a) (au_SASKey a)
    (au_ApplicationID a) (au_ResourceID a) (au_ObjectID a) (au_TenantID a) (au_ClientID a) (au_ClientSecret a)
    (au_OAuthTokenFilePath a) (au_ActiveDirectoryEndpoint a) endpoint (au_AuthResource a).
Definition set_authConfig (a : azAuthConfig) (c : AzStorageConfig) : AzStorageConfig :=
  mkAzStorageConfig a (sc_container c) (sc_prefixPath c) (sc_blockSize c) (sc_maxConcurrency c) (sc_defaultTier c)
    (sc_cancelListForSeconds c) (sc_maxRetries c) (sc_maxTimeout c) (sc_backoffTime c) (sc_maxRetryDelay c)
    (sc_proxyAddress c) (sc_sdkTrace c) (sc_ignoreAccessModifiers c) (sc_mountAllContainers c) (sc_updateMD5 c)
    (sc_validateMD5 c) (sc_virtualDirectory c) (sc_maxResultsForList c) (sc_disableCompression c) (sc_telemetry c)
    (sc_honourACL c) (sc_disableSymlink c) (sc_cpkEnabled c) (sc_cpkEncryptionKey c) (sc_cpkEncryptionKeySha256 c).

(** ** Endpoints *)
Definition formatEndpointProtocol (endpoint : string) (http : bool) : string :=
  if bool_decide (endpoint = "") then endpoint
  else
    let correctedEndpoint :=
      if negb (strings_HasPrefix endpoint "https://" || strings_HasPrefix endpoint "http://")
      then (if http then "http://" else "https://") +:+ endpoint
      else endpoint in
    if bool_decide (last_char correctedEndpoint = Some slash) then correctedEndpoint else correctedEndpoint +:+ "/".

Definition formatEndpointAccountType (endpoint : string) (account : AccountType) : string :=
  if strings_Contains endpoint ".blob." then
    if bool_decide (account = ADLS) then strings_Replace1 endpoint ".blob." ".dfs." else endpoint
  else if strings_Contains endpoint ".dfs." then
    if bool_decide (account = BLOCK) then strings_Replace1 endpoint ".dfs." ".blob." else endpoint
  else endpoint.

(** The keys of the map [v]. *)
Definition validateMsiConfig (opt : AzStorageOptions) : option error :=
  let v := list_to_set (filter (λ s, s ≠ "") [ao_ApplicationID opt; ao_ObjectID opt; ao_ResourceID opt]) : gset string in
  if (1 <? size v)%nat
  then Some (Msg "client ID, object ID and MSI resource ID are mutually exclusive and zero or one of the inputs need to be provided")
  else None.

(** ** Parsing *)

(** The configuration file and flags at the moment they are read: which keys are
    set, and boolean values of keys. *)
Class ConfigFile := {
  config_IsSet : string → bool;
  config_UnmarshalBool : string → bool + error
}.

Definition DefaultMaxResultsForList : Z := 2.
Definition DisableCompression : bool := false.

(** The component's settings and its connection [C]. *)
Record AzStorage (C : Type) := mkAzStorage {
  az_stConfig : AzStorageConfig;
  az_storage : C
}.
Arguments mkAzStorage {C}.
Arguments az_stConfig {C}.
Arguments az_storage {C}.
Definition set_stConfig {C} (f : AzStorageConfig → AzStorageConfig) (az : AzStorage C) : AzStorage C :=
  mkAzStorage (f (az_stConfig az)) (az_storage az).
Definition set_storage {C} (f : C → C) (az : AzStorage C) : AzStorage C :=
  mkAzStorage (az_stConfig az) (f (az_storage az)).

Section parsing.
Context `{!ConfigFile} {C : Type}.
(** AuthType.Parse, AccountType.Parse; the largest block in bytes; the call of the
    connection for a new key. *)
Context (auth_Parse : string → AuthType + error) (account_Parse : string → AccountType + error).
Context (maxStageBlockBytes : Z) (NewCredentialKey : string → string → go C (option error)).
Abbreviation M := (go (AzStorage C)).

(** The settings that are read again on a change, except the key. *)
Definition dynamic_settings (opt : AzStorageOptions) (c : AzStorageConfig) : AzStorageConfig :=
  mkAzStorageConfig (sc_authConfig c) (sc_container c) (sc_prefixPath c)
    (if negb (ao_BlockSize opt =? 0) then i64 (ao_BlockSize opt * 1024 * 1024) else sc_blockSize c)
    (if negb (ao_MaxConcurrency opt =? 0) then ao_MaxConcurrency opt else sc_maxConcurrency c)
    (if bool_decide (ao_DefaultTier opt ≠ "") then getAccessTierType (ao_DefaultTier opt) else sc_defaultTier c)
    (sc_cancelListForSeconds c) (sc_maxRetries c) (sc_maxTimeout c) (sc_backoffTime c) (sc_maxRetryDelay c)
    (sc_proxyAddress c) (sc_sdkTrace c) (negb (ao_FailUnsupportedOp opt)) (sc_mountAllContainers c)
    (ao_UpdateMD5 opt) (ao_ValidateMD5 opt)
    (if config_IsSet "azstorage.virtual-directory" then ao_VirtualDirectory opt else true)
    (if config_IsSet "azstorage.max-results-for-list" && (0 <? ao_MaxResultsForList opt)
     then ao_MaxResultsForList opt else DefaultMaxResultsForList)
    (if config_IsSet "azstorage.disable-compression" then ao_DisableCompression opt else DisableCompression)
    (sc_telemetry c)
    (if config_IsSet "azstorage.honour-acl" then ao_HonourACL opt else false)
    (if config_IsSet "attr_cache.no-symlinks"
     then match config_UnmarshalBool "attr_cache.no-symlinks" with inl b => b | inr _ => true end
     else true)
    (sc_cpkEnabled c) (sc_cpkEncryptionKey c) (sc_cpkEncryptionKeySha256 c).

Definition upd_auth (f : azAuthConfig → azAuthConfig) : M unit :=
  go_modify (set_stConfig (λ c, set_authConfig (f (sc_authConfig c)) c)).
Definition new_key : M (option error) :=
  az ← go_get;
  go_zoom az_storage (λ s, set_storage (λ _, s)) (NewCredentialKey "saskey" (au_SASKey (sc_authConfig (az_stConfig az)))).

Definition ParseAndReadDynamicConfig (opt : AzStorageOptions) (reload : bool) : M (option error) :=
  _ ← go_modify (set_stConfig (dynamic_settings opt));
  if bool_decide (ao_AuthMode opt = "sas") then
    _ ← upd_auth (set_AuthMode SAS);
    if bool_decide (ao_SaSKey opt = "") then mret (Some (Msg "SAS key not provided"))
    else
      oldSas ← go_gets (λ az, au_SASKey (sc_authConfig (az_stConfig az)));
      _ ← upd_auth (set_SASKey (sanitizeSASKey (ao_SaSKey opt)));
      if reload then
        err ← new_key;
        if bool_decide (err ≠ None) then
          _ ← upd_auth (set_SASKey oldSas);
          _ ← new_key;
          mret (Some (Msg "SAS key update failure"))
        else mret None
      else mret None
  else mret None.

(** The steps of validation, in the order of the source; each returns its value or
    the error that ends the configuration. *)
Definition account_type_name (opt : AzStorageOptions) : string :=
  if bool_decide (ao_AccountType opt = "") then "block" else ao_AccountType opt.
Definition parse_account_type (opt : AzStorageOptions) : AccountType + error :=
  if config_IsSet "azstorage.use-adls" then inl (if ao_UseAdls opt then ADLS else BLOCK)
  else match account_Parse (account_type_name opt) with
       | inr _ => inr (Msg "invalid account type")
       | inl accountType =>
           if bool_decide (accountType = INVALID_ACC) then inr (Msg "invalid account type") else inl accountType
       end.

Definition parse_block_size (opt : AzStorageOptions) (old : Z) : Z + error :=
  if negb (ao_BlockSize opt =? 0) then
    if maxStageBlockBytes <? ao_BlockSize opt then inr (Msg "block size is too large")
    else inl (i64 (ao_BlockSize opt * 1024 * 1024))
  else inl old.

Definition parse_container (opt : AzStorageOptions) (old : bool) : bool + error :=
  let mountAllContainers := match config_UnmarshalBool "mount-all-containers" with inl b => b | inr _ => old end in
  if negb mountAllContainers && bool_decide (ao_Container opt = "") then inr (Msg "container name not provided")
  else inl mountAllContainers.

(** The key settings: enabled, key and its hash. *)
Definition parse_cpk (opt : AzStorageOptions) (c : AzStorageConfig) : (bool * string * string) + error :=
  if ao_CPKEnabled opt then
    if bool_decide (ao_CPKEncryptionKey opt = "") || bool_decide (ao_CPKEncryptionKeySha256 opt = "")
    then inr (Msg "CPK key or key sha256 not provided")
    else inl (ao_CPKEnabled opt, ao_CPKEncryptionKey opt, ao_CPKEncryptionKeySha256 opt)
  else inl (sc_cpkEnabled c, sc_cpkEncryptionKey c, sc_cpkEncryptionKeySha256 c).

Definition use_http (opt : AzStorageOptions) : bool :=
  if config_IsSet "azstorage.use-https" then negb (ao_UseHTTPS opt) else ao_UseHTTP opt.

Definition parse_endpoint (opt : AzStorageOptions) (t : AccountType) : string :=
  let endpoint :=
    if bool_decide (ao_Endpoint opt = "") then
      if bool_decide (t = BLOCK) then ao_AccountName opt +:+ ".blob.core.windows.net"
      else if bool_decide (t = ADLS) then ao_AccountName opt +:+ ".dfs.core.windows.net"
      else ao_Endpoint opt
    else ao_Endpoint opt in
  formatEndpointAccountType (formatEndpointProtocol endpoint (use_http opt)) t.

Definition parse_proxy (opt : AzStorageOptions) (old : string) : string + error :=
  let httpProxyProvided := bool_decide (ao_HttpProxyAddress opt ≠ "") in
  let httpsProxyProvided := bool_decide (ao_HttpsProxyAddress opt ≠ "") in
  if use_http opt then
    inl (if httpProxyProvided then ao_HttpProxyAddress opt
         else if httpsProxyProvided then ao_HttpsProxyAddress opt else old)
  else if httpsProxyProvided then inl (ao_HttpsProxyAddress opt)
  else if httpProxyProvided then inr (Msg "`http-proxy` Invalid : must set `use-http: true` in your config file")
  else inl old.

(** The settings before the dynamic ones: the first half of ParseAndValidateConfig. *)
Definition static_settings (opt : AzStorageOptions) (c : AzStorageConfig) : AzStorageConfig + error :=
  let a := sc_authConfig c in
  if bool_decide (ao_AccountName opt = "") then inr (Msg "account name not provided") else
  match parse_account_type opt with inr e => inr e | inl t =>
  match parse_block_size opt (sc_blockSize c) with inr e => inr e | inl blockSize =>
  match parse_container opt (sc_mountAllContainers c) with inr e => inr e | inl mountAll =>
  match parse_cpk opt c with inr e => inr e | inl (cpk, cpkKey, cpkSha) =>
  match parse_proxy opt (sc_proxyAddress c) with inr e => inr e | inl proxy =>
  let a' := mkAzAuthConfig (ao_AccountName opt) (use_http opt || au_UseHTTP a) t (au_AuthMode a) (au_AccountKey a)
    (au_SASKey a) (au_ApplicationID a) (au_ResourceID a) (au_ObjectID a) (au_TenantID a) (au_ClientID a)
    (au_ClientSecret a) (au_OAuthTokenFilePath a)
    (formatEndpointProtocol (ao_ActiveDirectoryEndpoint opt) false) (parse_endpoint opt t) (au_AuthResource a) in
  inl (mkAzStorageConfig a' (ao_Container opt) (removeLeadingSlashes (ao_PrefixPath opt)) blockSize
    (sc_maxConcurrency c) (sc_defaultTier c) (ao_CancelListForSeconds opt) (sc_maxRetries c) (sc_maxTimeout c)
    (sc_backoffTime c) (sc_maxRetryDelay c) proxy (ao_SdkTrace opt) (sc_ignoreAccessModifiers c) mountAll
    (sc_updateMD5 c) (sc_validateMD5 c) (sc_virtualDirectory c) (sc_maxResultsForList c) (sc_disableCompression c)
    (ao_Telemetry opt) (sc_honourACL c) (sc_disableSymlink c) cpk cpkKey cpkSha)
  end end end end end.

Definition auth_options (opt : AzStorageOptions) : AuthOptions :=
  mkAuthOptions (ao_ApplicationID opt) (ao_ResourceID opt) (ao_ObjectID opt) (ao_AccountKey opt) (ao_SaSKey opt)
    (ao_ClientID opt) (ao_ClientSecret opt) (ao_TenantID opt).

(** The credentials of the mode. *)
Definition auth_settings (opt : AzStorageOptions) (a : azAuthConfig) : azAuthConfig + error :=
  let mode := if bool_decide (ao_AuthMode opt = "") then autoDetectAuthMode (auth_options opt) else ao_AuthMode opt in
  let result authType accountKey sasKey appId resId tenant client secret tokenFile :=
    mkAzAuthConfig (au_AccountName a) (au_UseHTTP a) (au_AccountType a) authType accountKey sasKey appId resId
      (ao_ObjectID opt) tenant client secret tokenFile (au_ActiveDirectoryEndpoint a) (au_Endpoint a)
      (ao_AuthResourceString opt) in
  match auth_Parse mode with
  | inr _ => inr (Msg "invalid auth type")
  | inl KEY =>
      if bool_decide (ao_AccountKey opt = "") then inr (Msg "storage key not provided")
      else inl (result KEY (ao_AccountKey opt) (au_SASKey a) (au_ApplicationID a) (au_ResourceID a) (au_TenantID a)
                  (au_ClientID a) (au_ClientSecret a) (au_OAuthTokenFilePath a))
  | inl SAS =>
      if bool_decide (ao_SaSKey opt = "") then inr (Msg "SAS key not provided")
      else inl (result SAS (au_AccountKey a) (sanitizeSASKey (ao_SaSKey opt)) (au_ApplicationID a) (au_ResourceID a)
                  (au_TenantID a) (au_ClientID a) (au_ClientSecret a) (au_OAuthTokenFilePath a))
  | inl MSI =>
      match validateMsiConfig opt with
      | Some err => inr err
      | None => inl (result MSI (au_AccountKey a) (au_SASKey a) (ao_ApplicationID opt) (ao_ResourceID opt)
                       (au_TenantID a) (au_ClientID a) (au_ClientSecret a) (au_OAuthTokenFilePath a))
      end
  | inl SPN =>
      if bool_decide (ao_ClientID opt = "")
         || (bool_decide (ao_ClientSecret opt = "") && bool_decide (ao_OAuthTokenFilePath opt = ""))
         || bool_decide (ao_TenantID opt = "")
      then inr (Msg "Client ID, Tenant ID or Client Secret not provided")
      else inl (result SPN (au_AccountKey a) (au_SASKey a) (au_ApplicationID a) (au_ResourceID a) (ao_TenantID opt)
                  (ao_ClientID opt) (ao_ClientSecret opt) (ao_OAuthTokenFilePath opt))
  | inl _ => inr (Msg "invalid auth mode")
  end.

(** The retry policy: zero stands for the default. *)
Definition retry_settings (opt : AzStorageOptions) (c : AzStorageConfig) : AzStorageConfig :=
  let or_default v d := if negb (v =? 0) then v else d in
  mkAzStorageConfig (sc_authConfig c) (sc_container c) (sc_prefixPath c) (sc_blockSize c) (sc_maxConcurrency c)
    (sc_defaultTier c) (sc_cancelListForSeconds c)
    (or_default (ao_MaxRetries opt) 5) (or_default (ao_MaxTimeout opt) 900)
    (or_default (ao_BackoffTime opt) 4) (or_default (ao_MaxRetryDelay opt) 60)
    (sc_proxyAddress c) (sc_sdkTrace c) (sc_ignoreAccessModifiers c) (sc_mountAllContainers c) (sc_updateMD5 c)
    (sc_validateMD5 c) (sc_virtualDirectory c) (sc_maxResultsForList c) (sc_disableCompression c) (sc_telemetry c)
    (sc_honourACL c) (sc_disableSymlink c) (sc_cpkEnabled c) (sc_cpkEncryptionKey c) (sc_cpkEncryptionKeySha256 c).

(** After an error nothing reads the fields that were assigned before it: the mount
    ends.  The model keeps the old ones. *)
Definition ParseAndValidateConfig (opt : AzStorageOptions) : M (option error) :=
  az ← go_get;
  match static_settings opt (az_stConfig az) with
  | inr e => mret (Some e)
  | inl c =>
      _ ← go_modify (set_stConfig (λ _, c));
      err ← ParseAndReadDynamicConfig opt false;
      if bool_decide (err ≠ None) then mret err
      else
        az ← go_get;
        match auth_settings opt (sc_authConfig (az_stConfig az)) with
        | inr e => mret (Some e)
        | inl a =>
            _ ← go_modify (set_stConfig (λ c, retry_settings opt (set_authConfig a c)));
            mret None
        end
  end.
End parsing.

(** ** Properties *)

(** *** Endpoints *)
Lemma index_app a old b : String.index 0 old (a +:+ old +:+ b) ≠ None.
Proof.
  induction a as [|c a IH].
  - change ("" +:+ old +:+ b) with (old +:+ b). destruct (old +:+ b) eqn:E; [by destruct old|]. cbn [String.index].
    pose proof (prefix_app old b) as Hp. rewrite E in Hp. by rewrite Hp.
  - change (String c a +:+ old +:+ b) with (String c (a +:+ old +:+ b)). cbn [String.index].
    destruct (String.prefix old _); [done|]. by destruct (String.index 0 old _).
Qed.
Lemma Contains_app a old b : strings_Contains (a +:+ old +:+ b) old = true.
Proof.
  unfold strings_Contains, strings_Index. destruct (String.index 0 old _) eqn:E; [|by apply index_app in E].
  apply Z.leb_le. lia.
Qed.
Lemma Replace1_split s old new :
  strings_Contains s old = true →
  ∃ a b, s = a +:+ old +:+ b ∧ strings_Replace1 s old new = a +:+ new +:+ b.
Proof.
  unfold strings_Contains, strings_Index, strings_Replace1.
  destruct (String.index 0 old s) as [n|] eqn:E; [|done]. intros _.
  destruct (index_split _ _ _ E) as (a & b & -> & <-). exists a, b. split; [done|].
  by rewrite stake_app, <-string_app_length, <-(string_app_assoc a old b), sdrop_app.
Qed.
Lemma Replace1_cons c s old new :
  String.prefix old (String c s) = false →
  strings_Replace1 (String c s) old new = String c (strings_Replace1 s old new).
Proof.
  intros Hp. unfold strings_Replace1. cbn [String.index]. rewrite Hp.
  by destruct (String.index 0 old s) as [n|].
Qed.
Lemma Replace1_app p s old new :
  "."%char ∉ String.list_ascii_of_string p →
  strings_Replace1 (p +:+ s) (String "." old) new = p +:+ strings_Replace1 s (String "." old) new.
Proof.
  induction p as [|c p IH]; [done|]. simpl String.list_ascii_of_string. intros Hc%not_elem_of_cons.
  change (String c p +:+ s) with (String c (p +:+ s)). rewrite Replace1_cons.
  - rewrite IH by apply Hc. done.
  - cbn [String.prefix]. case_match; [by destruct Hc|done].
Qed.
Lemma last_char_app_ne a b : b ≠ "" → last_char (a +:+ b) = last_char b.
Proof.
  intros Hb. induction a as [|c a IH]; [done|]. simpl. rewrite IH.
  destruct (a +:+ b) eqn:E; [by destruct a, b|done].
Qed.

(** An address that can be parsed as a URL and extended by a container. *)
Definition has_protocol (s : string) : bool :=
  strings_HasPrefix s "https://" || strings_HasPrefix s "http://".
Definition endpoint_ok (s : string) : Prop := has_protocol s = true ∧ last_char s = Some slash.

Lemma formatEndpointProtocol_ok s http : s ≠ "" → endpoint_ok (formatEndpointProtocol s http).
Proof.
  intros Hs. unfold formatEndpointProtocol. rewrite bool_decide_false by done.
  set (t := if negb _ then _ else _).
  assert (Ht : has_protocol t = true).
  { subst t. fold (has_protocol s). destruct (has_protocol s) eqn:E; [done|].
    unfold has_protocol, strings_HasPrefix. cbn [negb]. destruct http; rewrite prefix_app; [apply orb_true_r|done]. }
  clearbody t. case_bool_decide; [done|]. split; [|apply last_char_app].
  revert Ht. unfold has_protocol. rewrite !orb_true_iff, !HasPrefix_spec.
  intros [[r ->]|[r ->]]; [left|right]; exists (r +:+ "/"); by rewrite string_app_assoc.
Qed.

(** Replacing the name of the service keeps protocol and final slash. *)
Lemma Replace1_endpoint_ok s old new :
  strings_Contains s (String "." old) = true → last_char (String "." old) = Some "."%char → new ≠ "" →
  endpoint_ok s → endpoint_ok (strings_Replace1 s (String "." old) new).
Proof.
  intros Hc Hold Hnew [Hp Hl]. split.
  - revert Hp. unfold has_protocol. rewrite !orb_true_iff, !HasPrefix_spec.
    intros [[r ->]|[r ->]]; [left|right]; exists (strings_Replace1 r (String "." old) new);
      apply Replace1_app; by apply (bool_decide_unpack _).
  - destruct (Replace1_split s _ new Hc) as (a & b & -> & ->).
    destruct (decide (b = "")) as [->|Hb].
    + exfalso. rewrite last_char_app_ne in Hl by done. by rewrite string_app_nil_r, Hold in Hl.
    + revert Hl. rewrite <-!string_app_assoc, !last_char_app_ne by done. done.
Qed.
Lemma formatEndpointAccountType_ok s t : endpoint_ok s → endpoint_ok (formatEndpointAccountType s t).
Proof.
  intros Hs. unfold formatEndpointAccountType. repeat case_match; [|done| |done..]; by apply Replace1_endpoint_ok.
Qed.
(** The address is one of the service of the account type, or names neither. *)
Definition service_matches (s : string) (t : AccountType) : Prop :=
  match t with
  | BLOCK => strings_Contains s ".dfs." = true → strings_Contains s ".blob." = true
  | ADLS => strings_Contains s ".blob." = true → strings_Contains s ".dfs." = true
  | _ => True
  end.
Lemma formatEndpointAccountType_matches s t : service_matches (formatEndpointAccountType s t) t.
Proof.
  unfold formatEndpointAccountType, service_matches.
  destruct t; [done| | |done]; destruct (strings_Contains s ".blob.") eqn:Eb; simpl.
  - by rewrite Eb.
  - destruct (strings_Contains s ".dfs.") eqn:Ed; [|by rewrite Ed].
    intros _. destruct (Replace1_split s _ ".blob." Ed) as (a & b & _ & ->). apply Contains_app.
  - intros _. destruct (Replace1_split s _ ".dfs." Eb) as (a & b & _ & ->). apply Contains_app.
  - destruct (strings_Contains s ".dfs.") eqn:Ed; by rewrite Eb.
Qed.

Lemma removeLeadingSlashes_ok s : strings_HasPrefix (removeLeadingSlashes s) "/" = false.
Proof.
  induction s as [|c s IH]; [done|]. simpl. destruct (Ascii.eqb c slash) eqn:E; [done|].
  unfold strings_HasPrefix. cbn [String.prefix]. case_match; [|done]. subst. by rewrite Ascii.eqb_refl in E.
Qed.

(** *** Settings that were accepted *)
Definition at_most_one (l : list string) : Prop := ∀ x y, x ∈ l → y ∈ l → x ≠ "" → y ≠ "" → x = y.
Definition credentials_ok (a : azAuthConfig) : Prop :=
  match au_AuthMode a with
  | KEY => au_AccountKey a ≠ ""
  | SAS => strings_HasPrefix (au_SASKey a) "?" = true
  | SPN => au_ClientID a ≠ "" ∧ au_TenantID a ≠ "" ∧ (au_ClientSecret a ≠ "" ∨ au_OAuthTokenFilePath a ≠ "")
  | MSI => at_most_one [au_ApplicationID a; au_ObjectID a; au_ResourceID a]
  | INVALID_AUTH | AuthOther _ => False
  end.
Definition cpk_ok (c : AzStorageConfig) : Prop :=
  sc_cpkEnabled c = true → sc_cpkEncryptionKey c ≠ "" ∧ sc_cpkEncryptionKeySha256 c ≠ "".
Definition account_ok (c : AzStorageConfig) : Prop :=
  au_AccountName (sc_authConfig c) ≠ "" ∧
  (au_AccountType (sc_authConfig c) = BLOCK ∨ au_AccountType (sc_authConfig c) = ADLS) ∧
  endpoint_ok (au_Endpoint (sc_authConfig c)) ∧
  service_matches (au_Endpoint (sc_authConfig c)) (au_AccountType (sc_authConfig c)).
Definition target_ok (c : AzStorageConfig) : Prop :=
  (sc_mountAllContainers c = false → sc_container c ≠ "") ∧
  strings_HasPrefix (sc_prefixPath c) "/" = false.
Definition retry_ok (c : AzStorageConfig) : Prop :=
  sc_maxRetries c ≠ 0 ∧ sc_maxTimeout c ≠ 0 ∧ sc_backoffTime c ≠ 0 ∧ sc_maxRetryDelay c ≠ 0.
Definition settings_ok (c : AzStorageConfig) : Prop :=
  account_ok c ∧ target_ok c ∧ cpk_ok c ∧ retry_ok c ∧ 0 < sc_maxResultsForList c ∧ credentials_ok (sc_authConfig c).

Lemma sanitizeSASKey_ok key : key ≠ "" → strings_HasPrefix (sanitizeSASKey key) "?" = true.
Proof.
  destruct key as [|c key]; [done|]. intros _. unfold sanitizeSASKey.
  destruct (Ascii.eqb c "?") eqn:E; simpl; [|done].
  apply Ascii.eqb_eq in E as ->. apply (prefix_app "?" key).
Qed.
Lemma validateMsiConfig_ok opt :
  validateMsiConfig opt = None → at_most_one [ao_ApplicationID opt; ao_ObjectID opt; ao_ResourceID opt].
Proof.
  unfold validateMsiConfig. set (l := [_; _; _]). set (v := list_to_set _).
  destruct (1 <? size v)%nat eqn:E; [done|]. intros _ x y Hx Hy Hx' Hy'. apply Nat.ltb_ge in E.
  assert (x ∈ v) by (apply elem_of_list_to_set, list_elem_of_filter; done).
  assert (y ∈ v) by (apply elem_of_list_to_set, list_elem_of_filter; done).
  apply (size_singleton_inv v); [|done..].
  assert (size v ≠ 0%nat); [|lia]. intros Hz%size_empty_inv. set_solver.
Qed.

Section accepted.
Context `{!ConfigFile} {C : Type}.
Context (auth_Parse : string → AuthType + error) (account_Parse : string → AccountType + error).
Context (maxStageBlockBytes : Z) (NewCredentialKey : string → string → go C (option error)).
Context (opt : AzStorageOptions).
(** The type of the options is a name. *)
Context (Hname : ∀ n, account_Parse (account_type_name opt) ≠ inl (AccountOther n)).

Lemma parse_account_type_ok t : parse_account_type account_Parse opt = inl t → t = BLOCK ∨ t = ADLS.
Proof.
  unfold parse_account_type. case_match; [intros [= <-]; destruct (ao_UseAdls opt); auto|].
  destruct (account_Parse _) as [t'|] eqn:E; [|done]. case_bool_decide; [done|]. intros [= ->].
  destruct t as [| | |n]; [done|auto..|by destruct (Hname n)].
Qed.
Lemma parse_endpoint_ok t : ao_AccountName opt ≠ "" → t = BLOCK ∨ t = ADLS →
  endpoint_ok (parse_endpoint opt t) ∧ service_matches (parse_endpoint opt t) t.
Proof.
  intros Ha Ht. split; [|apply formatEndpointAccountType_matches].
  apply formatEndpointAccountType_ok, formatEndpointProtocol_ok.
  case_bool_decide as He; [|done]. destruct (ao_AccountName opt); [done|]. by destruct Ht as [-> | ->].
Qed.

(** What the first half establishes. *)
Lemma static_settings_ok c c' :
  cpk_ok c → static_settings account_Parse maxStageBlockBytes opt c = inl c' → account_ok c' ∧ target_ok c' ∧ cpk_ok c'.
Proof.
  intros Hcpk. unfold static_settings. case_bool_decide as Ha; [done|].
  destruct (parse_account_type _ _) as [t|] eqn:Et; [|done]. apply parse_account_type_ok in Et.
  destruct (parse_block_size _ _ _); [|done].
  destruct (parse_container _ _) as [m|] eqn:Em; [|done].
  destruct (parse_cpk _ _) as [[[e k] h]|] eqn:Ek; [|done].
  destruct (parse_proxy _ _); [|done]. intros [= <-].
  destruct (parse_endpoint_ok t Ha Et) as [He Hm]. split_and!; simpl; try done.
  - split; simpl; [|apply removeLeadingSlashes_ok]. intros ->. unfold parse_container in Em. case_match eqn:E; [done|]. injection Em as Em. rewrite Em in E.
    simpl in E. by apply bool_decide_eq_false in E.
  - unfold cpk_ok. simpl. unfold parse_cpk in Ek. case_match; simplify_eq/=; [|by apply Hcpk].
    case_match eqn:E; simplify_eq. apply orb_false_iff in E as [?%bool_decide_eq_false ?%bool_decide_eq_false]. done.
Qed.
Lemma auth_settings_ok a a' :
  auth_settings auth_Parse opt a = inl a' →
  credentials_ok a' ∧ au_AccountName a' = au_AccountName a ∧ au_AccountType a' = au_AccountType a ∧
  au_Endpoint a' = au_Endpoint a.
Proof.
  unfold auth_settings. destruct (auth_Parse _) as [[]|]; try done.
  - case_bool_decide; [done|]. by intros [= <-].
  - case_bool_decide; [done|]. intros [= <-]. by split; [apply sanitizeSASKey_ok|].
  - case_match eqn:E; [done|]. intros [= <-]. split; [|done].
    rewrite !orb_false_iff, andb_false_iff in E.
    destruct E as [[?%bool_decide_eq_false Hs] ?%bool_decide_eq_false]. split_and!; [done..|].
    by destruct Hs as [?%bool_decide_eq_false|?%bool_decide_eq_false]; [left|right].
  - destruct (validateMsiConfig opt) eqn:E; [done|]. intros [= <-]. split; [|done]. by apply validateMsiConfig_ok.
Qed.
Lemma dynamic_list_count c : 0 < sc_maxResultsForList (dynamic_settings opt c).
Proof. simpl. case_match eqn:E; [|done]. apply andb_true_iff in E as [_ ?%Z.ltb_lt]. done. Qed.

(** Without a reload the connection is not used. *)
Lemma ParseAndReadDynamicConfig_mount (az : AzStorage C) :
  wp (ParseAndReadDynamicConfig NewCredentialKey opt false) (λ err az',
    az_storage az' = az_storage az ∧
    ∃ key mode, az_stConfig az' = set_authConfig (set_SASKey key (set_AuthMode mode (sc_authConfig (az_stConfig az))))
      (dynamic_settings opt (az_stConfig az))) az.
Proof.
  unfold wp, ParseAndReadDynamicConfig. destruct az as [[[] ] st]. repeat case_bool_decide; simpl;
    (split; [done|]; eexists _, _; unfold set_authConfig, set_SASKey, set_AuthMode; simpl; reflexivity).
Qed.

(** A configuration that is accepted is well formed. *)
Lemma ParseAndValidateConfig_ok (az : AzStorage C) :
  cpk_ok (az_stConfig az) →
  wp (ParseAndValidateConfig auth_Parse account_Parse maxStageBlockBytes NewCredentialKey opt) (λ err az',
    az_storage az' = az_storage az ∧ (err = None → settings_ok (az_stConfig az'))) az.
Proof.
  intros Hcpk. unfold ParseAndValidateConfig. apply wp_bind. unfold wp at 1, go_get.
  destruct (static_settings _ _ opt (az_stConfig az)) as [c|e] eqn:Ec; [|by apply wp_ret].
  apply static_settings_ok in Ec as (Hacc & Htgt & Hck); [|done]. apply wp_bind. unfold wp at 1, go_modify.
  apply wp_bind. eapply wp_mono; [apply ParseAndReadDynamicConfig_mount|].
  intros err az1 [Hst (key & mode & Hc1)]. case_bool_decide as Herr; [by apply wp_ret|].
  apply wp_bind. unfold wp at 1, go_get. simpl in Hc1, Hst.
  destruct (auth_settings _ opt _) as [a|e] eqn:Ea; [|by apply wp_ret].
  apply auth_settings_ok in Ea as (Hcred & Hn & Ht & He). rewrite Hc1 in Hn, Ht, He. simpl in Hn, Ht, He.
  apply wp_bind. unfold wp at 1, go_modify. apply wp_ret. simpl. split; [done|]. intros _. rewrite Hc1.
  unfold settings_ok, account_ok, retry_ok. simpl. rewrite Hn, Ht, He.
  split_and!; try apply Hacc; try done; try (by apply (dynamic_list_count c)); by case_match eqn:E; [apply negb_true_iff, Z.eqb_neq in E|].
Qed.
End accepted.
