(* ===== verification/AzAuth.v ===== *)
(** * Credentials and the connection of block blobs
      (src/component/azstorage/azauth.go, azauthkey.go, azauthsas.go, azauthmsi.go,
      azauthspn.go and the set-up of block_blob.go)

    The credential objects, how they get their tokens, and the part of BlockBlob that
    configures the connection.  Requests of tokens and the parser of URLs are
    parameters; the callbacks that refresh tokens later are not modelled. *)
From S2P Require Import Prelude GoLib AzUtils BlockBlob AzConfig.
Open Scope Z_scope.

(** ** Credentials *)

(** A token is its access token.  [adal_OAuthConfig] is the result of
    adal.NewOAuthConfig. *)
Class AuthSDK (N : Type) := {
  (** url.Parse and azblob.NewSharedKeyCredential: the error, if any. *)
  url_Parse : string → option error;
  NewSharedKeyCredential : string → string → option error;
  os_Getenv : string → string;
  (** Run a command with /bin/sh and decode the token it prints. *)
  run_cli : string → go N (string + error);
  (** Client, object and resource id, endpoint. *)
  GetNewTokenFromMSI : string → string → string → string → go N (string + error);
  PublicCloud_ActiveDirectoryEndpoint : string;
  adal_OAuthConfig : Type;
  NewOAuthConfig : string → string → adal_OAuthConfig + error;
  (** Configuration, client, secret or file of the token, resource. *)
  NewServicePrincipalToken : adal_OAuthConfig → string → string → string → go N (string + error);
  NewServicePrincipalTokenFromFederatedTokenCallback :
    adal_OAuthConfig → string → string → string → go N (string + error);
  (** Whether the SDK returned a pipeline. *)
  NewPipeline_ok : AzStorageConfig → bool
}.

(** A credential object: its class is fixed by account type and mode of the settings
    it was made from, which no operation changes. *)
Record azAuth := mkAzAuth { aa_config : azAuthConfig }.

Inductive secret := SharedKey (account key : string) | Anonymous | Token (access : string) (norefresh : bool).
(** Credentials of azblob and of azbfs. *)
Inductive credential := BlobCredential (s : secret) | BfsCredential (s : secret).

Definition is_mode (t : AuthType) : bool := bool_decide (t ∈ [KEY; SAS; MSI; SPN]).
Definition getAzAuth (config : azAuthConfig) : option azAuth :=
  if bool_decide (BLOCK = au_AccountType config) || bool_decide (ADLS = au_AccountType config)
  then if is_mode (au_AuthMode config) then Some (mkAzAuth config) else None
  else None.

Definition getEndpoint (a : azAuth) : string :=
  match au_AuthMode (aa_config a) with
  | SAS => au_Endpoint (aa_config a) +:+ au_SASKey (aa_config a)
  | _ => au_Endpoint (aa_config a)
  end.
Definition setOption (key value : string) (a : azAuth) : azAuth :=
  match au_AuthMode (aa_config a) with
  | SAS => if bool_decide (key = "saskey") then mkAzAuth (set_SASKey value (aa_config a)) else a
  | _ => a
  end.

Section auth.
Context {N : Type} `{!AuthSDK N}.

Definition cli_command (c : azAuthConfig) : string :=
  let resource := if bool_decide (au_AuthResource c = "") then "https://storage.azure.com" else au_AuthResource c in
  "az account get-access-token -o json --resource " +:+ resource +:+
  (if bool_decide (au_TenantID c = "") then "" else " --tenant " +:+ au_TenantID c).
Definition fetchTokenFromCLI (c : azAuthConfig) : go N (string + error) := run_cli (cli_command c).
Definition msi_fetchToken (c : azAuthConfig) (endpoint : string) : go N (string + error) :=
  GetNewTokenFromMSI (au_ApplicationID c) (au_ObjectID c) (au_ResourceID c) endpoint.

(** The token of a managed identity, and whether it came from the command line. *)
Definition msi_getCredential (c : azAuthConfig) : go N (option secret) :=
  let msi_endpoint := os_Getenv "MSI_ENDPOINT" in
  token ← (if strings_Contains msi_endpoint "127.0.0.1:" || strings_Contains msi_endpoint "localhost:"
              || strings_Contains (au_ActiveDirectoryEndpoint c) "127.0.0.1:"
           then r ← fetchTokenFromCLI c; mret (match r with inl t => Some t | inr _ => None end)
           else mret None);
  match token with
  | Some t => mret (Some (Token t true))
  | None =>
      r ← msi_fetchToken c msi_endpoint;
      r ← match r with inl _ => mret r | inr _ => msi_fetchToken c "" end;
      mret (match r with inl t => Some (Token t false) | inr _ => None end)
  end.

Definition getAADEndpoint (c : azAuthConfig) : string :=
  if bool_decide (au_ActiveDirectoryEndpoint c ≠ "") then au_ActiveDirectoryEndpoint c
  else PublicCloud_ActiveDirectoryEndpoint.
Definition spn_fetchToken (c : azAuthConfig) : go N (string + error) :=
  match NewOAuthConfig (getAADEndpoint c) (au_TenantID c) with
  | inr e => mret (inr e)
  | inl config =>
      let resourceURL := if bool_decide (au_AuthResource c = "") then getEndpoint (mkAzAuth c) else au_AuthResource c in
      if bool_decide (au_OAuthTokenFilePath c ≠ "")
      then NewServicePrincipalTokenFromFederatedTokenCallback config (au_ClientID c) (au_OAuthTokenFilePath c) resourceURL
      else NewServicePrincipalToken config (au_ClientID c) (au_ClientSecret c) resourceURL
  end.

(** The getCredential methods of the eight classes. *)
Definition auth_getCredential (a : azAuth) : go N (option credential) :=
  let c := aa_config a in
  let wrap s := if bool_decide (au_AccountType c = BLOCK) then BlobCredential s else BfsCredential s in
  match au_AuthMode c with
  | KEY =>
      mret (if bool_decide (au_AccountKey c = "") then None
            else if bool_decide (au_AccountType c = BLOCK)
                    && bool_decide (NewSharedKeyCredential (au_AccountName c) (au_AccountKey c) ≠ None)
                 then None
                 else Some (wrap (SharedKey (au_AccountName c) (au_AccountKey c))))
  | SAS => mret (if bool_decide (au_SASKey c = "") then None else Some (wrap Anonymous))
  | MSI => s ← msi_getCredential c; mret (wrap <$> s)
  | SPN => r ← spn_fetchToken c;
           mret (match r with inl t => Some (wrap (Token t false)) | inr _ => None end)
  | INVALID_AUTH | AuthOther _ => go_panic
  end.
End auth.

(** ** The connection of block blobs *)

(** [bc_Service] is the address that requests go to and [bc_Container] the container
    named in it; [bc_Endpoint] is the field Endpoint, nil after a failed parse. *)
Record BlobConn := mkBlobConn {
  bc_Config : AzStorageConfig;
  bc_Auth : option azAuth;
  bc_Endpoint : option string;
  bc_Service : option string;
  bc_Container : option string;
  bc_CPK : option (string * string);
  (** BlockSize and Parallelism of downloadOptions. *)
  bc_downloadOptions : Z * Z
}.
Definition set_bc_Config (f : AzStorageConfig → AzStorageConfig) (b : BlobConn) : BlobConn :=
  mkBlobConn (f (bc_Config b)) (bc_Auth b) (bc_Endpoint b) (bc_Service b) (bc_Container b) (bc_CPK b)
    (bc_downloadOptions b).
Definition set_bc_Auth (a : option azAuth) (b : BlobConn) : BlobConn :=
  mkBlobConn (bc_Config b) a (bc_Endpoint b) (bc_Service b) (bc_Container b) (bc_CPK b) (bc_downloadOptions b).
Definition set_bc_Endpoint (e : option string) (b : BlobConn) : BlobConn :=
  mkBlobConn (bc_Config b) (bc_Auth b) e (bc_Service b) (bc_Container b) (bc_CPK b) (bc_downloadOptions b).
Definition set_bc_URLs (service container : option string) (b : BlobConn) : BlobConn :=
  mkBlobConn (bc_Config b) (bc_Auth b) (bc_Endpoint b) service container (bc_CPK b) (bc_downloadOptions b).

(** The fields UpdateConfig copies, and the prefix. *)
Definition update_settings (cfg c : AzStorageConfig) : AzStorageConfig :=
  mkAzStorageConfig (sc_authConfig c) (sc_container c) (sc_prefixPath c) (sc_blockSize cfg) (sc_maxConcurrency cfg)
    (sc_defaultTier cfg) (sc_cancelListForSeconds c) (sc_maxRetries c) (sc_maxTimeout c) (sc_backoffTime c)
    (sc_maxRetryDelay c) (sc_proxyAddress c) (sc_sdkTrace c) (sc_ignoreAccessModifiers cfg)
    (sc_mountAllContainers c) (sc_updateMD5 c) (sc_validateMD5 c) (sc_virtualDirectory c) (sc_maxResultsForList c)
    (sc_disableCompression c) (sc_telemetry c) (sc_honourACL c) (sc_disableSymlink c) (sc_cpkEnabled c)
    (sc_cpkEncryptionKey c) (sc_cpkEncryptionKeySha256 c).
Definition set_prefixPath (path : string) (c : AzStorageConfig) : AzStorageConfig :=
  mkAzStorageConfig (sc_authConfig c) (sc_container c) path (sc_blockSize c) (sc_maxConcurrency c)
    (sc_defaultTier c) (sc_cancelListForSeconds c) (sc_maxRetries c) (sc_maxTimeout c) (sc_backoffTime c)
    (sc_maxRetryDelay c) (sc_proxyAddress c) (sc_sdkTrace c) (sc_ignoreAccessModifiers c)
    (sc_mountAllContainers c) (sc_updateMD5 c) (sc_validateMD5 c) (sc_virtualDirectory c) (sc_maxResultsForList c)
    (sc_disableCompression c) (sc_telemetry c) (sc_honourACL c) (sc_disableSymlink c) (sc_cpkEnabled c)
    (sc_cpkEncryptionKey c) (sc_cpkEncryptionKeySha256 c).

Definition bb_Configure (cfg : AzStorageConfig) : BlobConn :=
  mkBlobConn cfg None None None None
    (if sc_cpkEnabled cfg then Some (sc_cpkEncryptionKey cfg, sc_cpkEncryptionKeySha256 cfg) else None)
    (sc_blockSize cfg, sc_maxConcurrency cfg).
Definition bb_UpdateConfig (cfg : AzStorageConfig) (b : BlobConn) : BlobConn := set_bc_Config (update_settings cfg) b.
Definition bb_SetPrefixPath (path : string) (b : BlobConn) : BlobConn := set_bc_Config (set_prefixPath path) b.

Section block_blob_setup.
Context {N : Type} `{!AuthSDK N}.

(** Parse the endpoint of the credential and build service and container from it;
    [msg] is the error when it does not parse. *)
Definition bb_build_urls (auth : azAuth) (msg : string) : go BlobConn (option error) :=
  match url_Parse (getEndpoint auth) with
  | Some _ => _ ← go_modify (set_bc_Endpoint None); mret (Some (Msg msg))
  | None =>
      _ ← go_modify (set_bc_Endpoint (Some (getEndpoint auth)));
      _ ← go_modify (λ b, set_bc_URLs (Some (getEndpoint auth)) (Some (sc_container (bc_Config b))) b);
      mret None
  end.

Definition bb_NewCredentialKey (key value : string) : go BlobConn (option error) :=
  if bool_decide (key = "saskey") then
    b ← go_get;
    auth ← go_deref (bc_Auth b);
    let auth := setOption key value auth in
    _ ← go_modify (set_bc_Auth (Some auth));
    bb_build_urls auth "failed to form base endpoint url"
  else mret None.

(** [cred.(azblob.Credential)] panics on a credential of the other SDK. *)
Definition bb_getCredential : go (BlobConn * N) (option secret) :=
  '(b, _) ← go_get;
  let auth := getAzAuth (sc_authConfig (bc_Config b)) in
  _ ← go_modify (λ '(b, n), (set_bc_Auth auth b, n));
  match auth with
  | None => mret None
  | Some auth =>
      cred ← go_snd (auth_getCredential auth);
      match cred with
      | None => mret None
      | Some (BlobCredential s) => mret (Some s)
      | Some (BfsCredential _) => go_panic
      end
  end.

Definition bb_SetupPipeline : go (BlobConn * N) (option error) :=
  cred ← bb_getCredential;
  match cred with
  | None => mret (Some (Msg "failed to get credential"))
  | Some _ =>
      '(b, _) ← go_get;
      if negb (NewPipeline_ok (bc_Config b)) then mret (Some (Msg "failed to create pipeline object"))
      else
        auth ← go_deref (bc_Auth b);
        go_zoom fst (λ b s, (b, s.2)) (bb_build_urls auth "failed to form base end point url")
  end.

Definition bb_TestPipeline `{!BlobSDK N} : go (BlobConn * N) (option error) :=
  '(b, _) ← go_get;
  if sc_mountAllContainers (bc_Config b) then mret None
  else if bool_decide (bc_Container b = None) then mret None
  else
    r ← go_snd (sdk_ListHierarchy None (sc_prefixPath (bc_Config b)) 2);
    mret (match r with inr e => Some e | inl _ => None end).

(** [segment] is ListContainersSegment with the marker; [None] for the first.  A
    marker that is the empty string ends the loop.  [fuel] bounds the segments. *)
Fixpoint bb_ListContainers (segment : option string → go N ((list string * option string) + error)) (fuel : nat)
    (marker : option string) : go N (list string * option error) :=
  match fuel with
  | O => go_block
  | S fuel =>
      if bool_decide (marker = Some "") then mret ([], None)
      else
        r ← segment marker;
        match r with
        | inr e => mret ([], Some e)
        | inl (names, next) =>
            '(l, err) ← bb_ListContainers segment fuel next;
            mret (names ++ l, err)
        end
  end.
End block_blob_setup.

(** The segments of a service that has finitely many, from a marker. *)
Inductive container_pages {N} (segment : option string → go N ((list string * option string) + error)) :
    option string → list (list string) → Prop :=
  | cp_end : container_pages segment (Some "") []
  | cp_page m names next pages :
      m ≠ Some "" → (∀ n, ∃ n', segment m n = Ret (inl (names, next), n')) →
      container_pages segment next pages → container_pages segment m (names :: pages).
(** One unit of fuel per segment and one more lists all containers. *)
Lemma bb_ListContainers_all {N} (segment : option string → go N ((list string * option string) + error)) fuel m pages n :
  container_pages segment m pages → (length pages < fuel)%nat →
  wp (bb_ListContainers segment fuel m) (λ r _, r = (concat pages, None)) n.
Proof.
  intros Hp. revert fuel n. induction Hp as [|m names next pages Hm Hseg _ IH]; intros fuel n Hf;
    (destruct fuel as [|fuel]; [simpl in Hf; lia|]); cbn [bb_ListContainers]; [by apply wp_ret|].
  rewrite bool_decide_false by done. apply wp_bind. destruct (Hseg n) as [n' Hrun]. unfold wp at 1. rewrite Hrun.
  apply wp_bind. eapply wp_mono; [apply IH; simpl in Hf; lia|]. intros [l err] n2 [= -> ->]. by apply wp_ret.
Qed.
