(* ===== verification/Datalake.v ===== *)
(** * Data lake connections (src/component/azstorage/datalake.go)

    The second implementation of AzConnection, for accounts with a hierarchical name
    space: directories, renames, attributes, listings and permissions go to the
    azbfs SDK (class [BfsSDK]); the data of files goes to block blobs. *)
From Stdlib Require Import Ascii.
From S2P Require Import Prelude GoLib Common HandleMap Internal LRUCache AzUtils CacheObj BlockBlob AzStorage AzConfig AzAuth.
Open Scope Z_scope.

(** ** net/url

    [url.PathEscape]: letters, digits and a few marks stay, every other byte becomes
    a percent sign and two hexadecimal digits. *)
Definition path_unreserved (c : ascii) : bool :=
  let n := nat_of_ascii c in
  ((48 <=? n) && (n <=? 57))%nat || ((65 <=? n) && (n <=? 90))%nat || ((97 <=? n) && (n <=? 122))%nat ||
  bool_decide (c ∈ ["-"; "_"; "."; "~"; "$"; "&"; "+"; ":"; "="; "@"]%char).
Definition upper_hex (n : nat) : ascii :=
  ascii_of_nat (if (n <? 10)%nat then 48 + n else 55 + n).
Fixpoint url_PathEscape (s : string) : string :=
  match s with
  | EmptyString => ""
  | String c s =>
      if path_unreserved c then String c (url_PathEscape s)
      else String "%" (String (upper_hex (nat_of_ascii c / 16)%nat)
             (String (upper_hex (nat_of_ascii c mod 16)%nat) (url_PathEscape s)))
  end.

(** ** The SDK

    The answers of azbfs with the fields the code reads; a path is what the URL was
    built from.  The time of a property is the result of parsing its header. *)
Record PathProperties := mkPathProperties {
  pp_LastModified : Time + error;
  pp_XMsPermissions : string;
  pp_ContentLength : Z;
  pp_XMsProperties : string;
  pp_XMsResourceType : string
}.
Record PathInfo := mkPathInfo {
  pi_Name : option string;
  pi_Permissions : option string;
  pi_ContentLength : option Z;
  pi_LastModifiedTime : Time;
  pi_IsDirectory : option bool
}.
Record PathList := mkPathList {
  Paths : list PathInfo;
  XMsContinuation : string
}.
Definition PathResourceDirectory : string := "directory".

Class BfsSDK (N : Type) := {
  bfs_CreateDirectory : string → bool → go N (option error);
  bfs_DeleteFile : string → go N (option error);
  bfs_DeleteDirectory : string → option string → bool → go N (option error);
  (** Source, as in the URL, and destination path. *)
  bfs_RenameFile : string → string → go N (option error);
  bfs_RenameDirectory : string → string → go N (option error);
  bfs_GetProperties : string → go N (PathProperties + error);
  (** ACL and owner. *)
  bfs_GetAccessControl : string → go N ((string * string) + error);
  bfs_SetAccessControl : string → string → go N (option error);
  (** Path, recursive, count, continuation token; a nil answer is [None]. *)
  bfs_ListPaths : string → bool → Z → option string → go N (option PathList + error)
}.

(** ** Configuration *)

(** strings.Replace(s, ".dfs.", ".blob.", -1) by splitting and joining. *)
Definition transformAccountEndpoint (potentialDfsEndpoint : string) : string :=
  if strings_Contains potentialDfsEndpoint ".dfs."
  then strings_Join (strings_Split potentialDfsEndpoint ".dfs.") ".blob."
  else potentialDfsEndpoint.

Definition transformConfig (dlConfig : AzStorageConfig) : AzStorageConfig :=
  set_authConfig (set_AccountType_Endpoint BLOCK
    (transformAccountEndpoint (au_Endpoint (sc_authConfig dlConfig))) (sc_authConfig dlConfig)) dlConfig.

(** As for block blobs, [dl_Service] is the address that requests go to and
    [dl_Filesystem] the container named in it. *)
Record Datalake := mkDatalake {
  dl_Config : AzStorageConfig;
  dl_Auth : option azAuth;
  dl_Endpoint : option string;
  dl_Service : option string;
  dl_Filesystem : option string;
  dl_BlockBlob : BlobConn
}.
Definition set_dl_Config (f : AzStorageConfig → AzStorageConfig) (d : Datalake) : Datalake :=
  mkDatalake (f (dl_Config d)) (dl_Auth d) (dl_Endpoint d) (dl_Service d) (dl_Filesystem d) (dl_BlockBlob d).
Definition set_dl_Auth (a : option azAuth) (d : Datalake) : Datalake :=
  mkDatalake (dl_Config d) a (dl_Endpoint d) (dl_Service d) (dl_Filesystem d) (dl_BlockBlob d).
Definition set_dl_Endpoint (e : option string) (d : Datalake) : Datalake :=
  mkDatalake (dl_Config d) (dl_Auth d) e (dl_Service d) (dl_Filesystem d) (dl_BlockBlob d).
Definition set_dl_URLs (service filesystem : option string) (d : Datalake) : Datalake :=
  mkDatalake (dl_Config d) (dl_Auth d) (dl_Endpoint d) service filesystem (dl_BlockBlob d).
Definition set_dl_BlockBlob (b : BlobConn) (d : Datalake) : Datalake :=
  mkDatalake (dl_Config d) (dl_Auth d) (dl_Endpoint d) (dl_Service d) (dl_Filesystem d) b.

Definition dl_Configure (cfg : AzStorageConfig) : Datalake :=
  mkDatalake cfg None None None None (bb_Configure (transformConfig cfg)).
Definition dl_UpdateConfig (cfg : AzStorageConfig) (d : Datalake) : Datalake :=
  set_dl_BlockBlob (bb_UpdateConfig cfg (dl_BlockBlob d)) (set_dl_Config (update_settings cfg) d).
Definition dl_SetPrefixPath (path : string) (d : Datalake) : Datalake :=
  set_dl_BlockBlob (bb_SetPrefixPath path (dl_BlockBlob d)) (set_dl_Config (set_prefixPath path) d).

Section datalake_setup.
Context {N : Type} `{!AuthSDK N}.

Definition dl_build_urls (auth : azAuth) (msg : string) : go Datalake (option error) :=
  match url_Parse (getEndpoint auth) with
  | Some _ => _ ← go_modify (set_dl_Endpoint None); mret (Some (Msg msg))
  | None =>
      _ ← go_modify (set_dl_Endpoint (Some (getEndpoint auth)));
      _ ← go_modify (λ d, set_dl_URLs (Some (getEndpoint auth)) (Some (sc_container (dl_Config d))) d);
      mret None
  end.

Definition dl_NewCredentialKey (key value : string) : go Datalake (option error) :=
  err ← (if bool_decide (key = "saskey") then
           d ← go_get;
           auth ← go_deref (dl_Auth d);
           let auth := setOption key value auth in
           _ ← go_modify (set_dl_Auth (Some auth));
           dl_build_urls auth "failed to form base endpoint url"
         else mret None);
  if bool_decide (err ≠ None) then mret err
  else go_zoom dl_BlockBlob set_dl_BlockBlob (bb_NewCredentialKey key value).

(** [cred.(azbfs.Credential)] panics on a credential of the other SDK. *)
Definition dl_getCredential : go (Datalake * N) (option secret) :=
  '(d, _) ← go_get;
  let auth := getAzAuth (sc_authConfig (dl_Config d)) in
  _ ← go_modify (λ '(d, n), (set_dl_Auth auth d, n));
  match auth with
  | None => mret None
  | Some auth =>
      cred ← go_snd (auth_getCredential auth);
      match cred with
      | None => mret None
      | Some (BfsCredential s) => mret (Some s)
      | Some (BlobCredential _) => go_panic
      end
  end.

Abbreviation in_blob := (go_zoom (λ s : Datalake * N, (dl_BlockBlob s.1, s.2))
  (λ b s, (set_dl_BlockBlob b.1 s.1, b.2))).

Definition dl_SetupPipeline : go (Datalake * N) (option error) :=
  cred ← dl_getCredential;
  match cred with
  | None => mret (Some (Msg "failed to get credential"))
  | Some _ =>
      '(d, _) ← go_get;
      if negb (NewPipeline_ok (dl_Config d)) then mret (Some (Msg "failed to create pipeline object"))
      else
        auth ← go_deref (dl_Auth d);
        err ← go_zoom fst (λ d s, (d, s.2)) (dl_build_urls auth "failed to form base end point url");
        if bool_decide (err ≠ None) then mret err else in_blob bb_SetupPipeline
  end.

Definition dl_TestPipeline `{!BlobSDK N, !BfsSDK N} : go (Datalake * N) (option error) :=
  '(d, _) ← go_get;
  if sc_mountAllContainers (dl_Config d) then mret None
  else if bool_decide (dl_Filesystem d = None) then mret None
  else
    r ← go_snd (bfs_ListPaths (sc_prefixPath (dl_Config d)) false 2 None);
    match r with
    | inr e => mret (Some e)
    | inl _ => in_blob bb_TestPipeline
    end.
End datalake_setup.

Section datalake.
Context {N : Type} `{!Runtime N} `{!BlobSDK N} `{!BfsSDK N} (dl : Datalake) (fuel : nat).
Definition bb : BlobConfig := blob_config (bc_Config (dl_BlockBlob dl)).
Definition dl_path (name : string) : string := filepath_Join [sc_prefixPath (dl_Config dl); name].

Definition dl_ChangeMod (name : string) (mode : FileMode) : go N (option error) :=
  err ← bfs_SetAccessControl (dl_path name) (getACLPermissions mode);
  match err with
  | None => mret None
  | Some e =>
      mret (Some (match storeDatalakeErrToErr e with
                  | ErrFileNotFound => Errno ENOENT
                  | InvalidPermission => Errno EACCES
                  | _ => e
                  end))
  end.

Definition dl_CreateFile (name : string) (mode : FileMode) : go N (option error) :=
  err ← BlockBlob.CreateFile bb name mode;
  match err with
  | Some e => mret (Some e)
  | None => dl_ChangeMod name mode
  end.

Definition dl_CreateDirectory (name : string) : go N (option error) :=
  err ← bfs_CreateDirectory (dl_path name) false;
  match err with
  | None => mret None
  | Some e =>
      mret (Some (match storeDatalakeErrToErr e with
                  | InvalidPermission => Errno EACCES
                  | ErrFileAlreadyExists => Errno EEXIST
                  | _ => e
                  end))
  end.

Definition dl_CreateLink (source target : string) : go N (option error) := CreateLink bb source target.

Definition dl_DeleteFile (name : string) : go N (option error) :=
  err ← bfs_DeleteFile (dl_path name);
  match err with
  | None => mret None
  | Some e =>
      mret (Some (match storeDatalakeErrToErr e with
                  | ErrFileNotFound => Errno ENOENT
                  | BlobIsUnderLease => Errno EIO
                  | InvalidPermission => Errno EACCES
                  | _ => e
                  end))
  end.

(** The errors of DeleteDirectory, RenameFile and RenameDirectory. *)
Definition noent_or (err : option error) : option error :=
  match err with
  | None => None
  | Some e => Some (match storeDatalakeErrToErr e with ErrFileNotFound => Errno ENOENT | _ => e end)
  end.

Definition dl_DeleteDirectory (name : string) : go N (option error) :=
  err ← bfs_DeleteDirectory (dl_path name) None true; mret (noent_or err).
Definition dl_RenameFile (source target : string) : go N (option error) :=
  err ← bfs_RenameFile (url_PathEscape (dl_path source)) (dl_path target); mret (noent_or err).
Definition dl_RenameDirectory (source target : string) : go N (option error) :=
  err ← bfs_RenameDirectory (url_PathEscape (dl_path source)) (dl_path target); mret (noent_or err).

(** *** Attributes *)

(** The attributes of a path from its properties. *)
Definition dl_attr (name : string) (lastModified : Time) (mode : FileMode) (prop : PathProperties)
    : outcome ObjAttr :=
  let attr := mkObjAttr lastModified lastModified lastModified lastModified (pp_ContentLength prop) mode
    NewFileBitMap name (filepath_Base name) [] ∅ in
  match parseProperties (pp_XMsProperties prop) attr with
  | Ret attr =>
      let attr := if bool_decide (pp_XMsResourceType prop = PathResourceDirectory)
                  then with_flags_mode NewDirBitMap (Z.lor (Mode attr) ModeDir) attr else attr in
      Ret (with_flags_mode (Set_ (Flags attr) PropFlagMetadataRetrieved) (Mode attr) attr)
  | Panic => Panic
  | Blocked => Blocked
  end.

(** The mode the access control list gives, when it is asked for and can be had. *)
Definition dl_acl_mode (path : string) (attr : ObjAttr) : go N ObjAttr :=
  if sc_honourACL (dl_Config dl) && negb (bool_decide (au_ObjectID (sc_authConfig (dl_Config dl)) = "")) then
    acl ← bfs_GetAccessControl path;
    match acl with
    | inr _ => mret attr
    | inl (acl, owner) =>
        '(mode, err) ← go_of (getFileModeFromACL (au_ObjectID (sc_authConfig (dl_Config dl))) acl owner);
        if bool_decide (err ≠ None) then mret attr else mret (with_flags_mode (Flags attr) mode attr)
    end
  else mret attr.

Definition dl_GetAttr (name : string) : go N (ptr * option error) :=
  prop ← bfs_GetProperties (dl_path name);
  match prop with
  | inr err =>
      match storeDatalakeErrToErr err with
      | ErrFileNotFound => mret (nil_ptr, Some (Errno ENOENT))
      | InvalidPermission => mret (nil_ptr, Some (Errno EACCES))
      | _ => mret (nil_ptr, Some err)
      end
  | inl prop =>
      match pp_LastModified prop with
      | inr err => mret (nil_ptr, Some err)
      | inl lastModified =>
          let '(mode, err) := getFileMode (pp_XMsPermissions prop) in
          if bool_decide (err ≠ None) then mret (nil_ptr, err)
          else
            attr ← go_of (dl_attr name lastModified mode prop);
            attr ← dl_acl_mode (dl_path name) attr;
            p ← new_obj attr;
            mret (p, None)
      end
  end.

(** *** Listings *)

(** The attributes of a listed path without a request of its own. *)
Definition dl_listed_attr (name : string) (pathInfo : PathInfo) : ObjAttr + error :=
  let '(mode, err) := match pi_Permissions pathInfo with
                      | Some perm => getFileMode perm
                      | None => (0, None)
                      end in
  match err with
  | Some e => inr e
  | None =>
      let t := pi_LastModifiedTime pathInfo in
      let attr := mkObjAttr t t t t (default 0 (pi_ContentLength pathInfo)) mode NewFileBitMap
        name (filepath_Base name) [] ∅ in
      inl (if default false (pi_IsDirectory pathInfo)
           then with_flags_mode NewDirBitMap (Z.lor (Mode attr) ModeDir) attr else attr)
  end.

(** The loop over the paths of a segment: the attributes so far are returned with an
    error. *)
Fixpoint dl_list_paths (paths : list PathInfo) : go N (list ptr * option error) :=
  match paths with
  | [] => mret ([], None)
  | pathInfo :: paths =>
      name ← go_deref (pi_Name pathInfo);
      '(attr, err) ← (if sc_disableSymlink (dl_Config dl) then
           match dl_listed_attr name pathInfo with
           | inr e => mret (nil_ptr, Some e)
           | inl a => p ← new_obj a; mret (p, None)
           end
         else dl_GetAttr name);
      if bool_decide (err ≠ None) then mret ([], err)
      else
        '(l, err) ← dl_list_paths paths;
        mret (attr :: l, err)
  end.

Definition dl_list_prefix (prefix : string) : string :=
  let p := dl_path prefix in
  match last_char prefix with
  | Some c => if Ascii.eqb c slash then (p +:+ "/")%string else p
  | None => p
  end.

Definition dl_List (prefix : string) (marker : option string) (count : Z)
    : go N (list ptr * option string * option error) :=
  let count := if count =? 0 then MaxDirListCount else count in
  r ← bfs_ListPaths (dl_list_prefix prefix) false count marker;
  match r with
  | inr err =>
      mret ([], Some "", Some (match storeDatalakeErrToErr err with
                               | ErrFileNotFound => Errno ENOENT
                               | InvalidPermission => Errno EACCES
                               | _ => err
                               end))
  | inl None => go_panic
  | inl (Some listPath) =>
      '(l, err) ← dl_list_paths (Paths listPath);
      if bool_decide (err ≠ None) then mret (l, Some "", err)
      else mret (l, Some (XMsContinuation listPath), None)
  end.

Definition dl_ChangeOwner (name : string) (uid gid : Z) : option error :=
  if sc_ignoreAccessModifiers (dl_Config dl) then None else Some (Errno ENOTSUP).

(** The operations on data are those of block blobs. *)
Definition Datalake_connection : AzConnection N :=
  mkAzConnection N dl_CreateFile dl_CreateDirectory dl_CreateLink
    dl_DeleteFile dl_DeleteDirectory dl_RenameFile dl_RenameDirectory
    dl_GetAttr dl_List (ReadToFile bb) (ReadBuffer bb fuel) (ReadInBuffer bb)
    (WriteFromFile bb) (WriteFromBuffer bb) (Write bb fuel) (GetFileBlockOffsets bb)
    dl_ChangeMod (λ name uid gid, mret (dl_ChangeOwner name uid gid))
    (TruncateFile bb fuel) (StageAndCommit bb) (GetCommittedBlockList bb)
    (StageBlock bb) (CommitBlocks bb).
End datalake.

(** ** Properties *)

(** *** Modes *)

(** A service that keeps the permissions of paths. *)
Class BfsModes (N : Type) `{!Runtime N} `{!BfsSDK N} := {
  bfs_perm : N → gmap string string;
  bm_Set path perm n : wp (bfs_SetAccessControl path perm) (λ e n',
    match e with None => bfs_perm n' = <[path := perm]> (bfs_perm n) | Some _ => bfs_perm n' = bfs_perm n end) n;
  bm_Get path n : wp (bfs_GetProperties path) (λ r n', bfs_perm n' = bfs_perm n ∧
    ∀ prop, r = inl prop → bfs_perm n !! path = Some (pp_XMsPermissions prop) ∧
      ∃ md, newMetadata (pp_XMsProperties prop) = Ret md) n
}.

Lemma land_lor_high m b : Z.land b 511 = 0 → Z.land (Z.lor m b) 511 = Z.land m 511.
Proof. intros H. by rewrite Z.land_lor_distr_l, H, Z.lor_0_r. Qed.
Lemma parseMetadata_perm md a : Z.land (Mode (parseMetadata md a)) 511 = Z.land (Mode a) 511.
Proof.
  unfold parseMetadata, parseMetadata_in. change (Mode a) with (Mode (with_metadata md a)).
  generalize (with_metadata md a). induction (map_to_list md) as [|kv l IH]; intros b; simpl; [done|].
  rewrite IH. unfold parseMetadata_step. repeat case_match; simpl; by rewrite ?land_lor_high.
Qed.
Lemma dl_attr_perm name t mode prop a :
  dl_attr name t mode prop = Ret a → Z.land (Mode a) 511 = Z.land mode 511.
Proof.
  unfold dl_attr, parseProperties. destruct (newMetadata _) as [md| |]; [|done..].
  set (b := parseMetadata _ _). intros [= <-]. simpl.
  assert (Hb : Z.land (Mode b) 511 = Z.land mode 511) by apply parseMetadata_perm.
  case_bool_decide; simpl; by rewrite ?land_lor_high.
Qed.

Section modes.
Context {N : Type} `{!Runtime N, !RuntimeLaws N, !BlobSDK N, !BfsSDK N, !BfsModes N} (dl : Datalake).

(** The access control list is consulted with honour-acl and an object id only. *)
Definition acl_ignored : Prop :=
  sc_honourACL (dl_Config dl) = false ∨ au_ObjectID (sc_authConfig (dl_Config dl)) = "".

(** GetAttr answers the permissions of the path. *)
Lemma dl_GetAttr_mode name n :
  acl_ignored →
  wp (dl_GetAttr dl name) (λ r n', r.2 = None → ∃ a perm,
    rt_objs n' !! r.1 = Some a ∧ bfs_perm n !! dl_path dl name = Some perm ∧
    Z.land (Mode a) 511 = Z.land (getFileMode perm).1 511) n.
Proof.
  intros Hacl. unfold dl_GetAttr. apply wp_bind. eapply wp_mono; [apply bm_Get|]. intros [prop|e] n1 [_ Hprop].
  2:{ destruct (storeDatalakeErrToErr e); by apply wp_ret. }
  destruct (Hprop prop eq_refl) as [Hperm [md Hmd]].
  destruct (pp_LastModified prop) as [t|e]; [|by apply wp_ret].
  destruct (getFileMode (pp_XMsPermissions prop)) as [mode err] eqn:Em.
  case_bool_decide; [by apply wp_ret|].
  apply wp_bind. unfold wp at 1, go_of.
  destruct (dl_attr name t mode prop) as [a| |] eqn:Ea;
    [|unfold dl_attr, parseProperties in Ea; by rewrite Hmd in Ea..].
  apply dl_attr_perm in Ea. apply wp_bind. unfold dl_acl_mode.
  assert (sc_honourACL (dl_Config dl) && negb (bool_decide (au_ObjectID (sc_authConfig (dl_Config dl)) = "")) = false) as ->
    by (destruct Hacl as [->| ->]; [done|apply andb_false_r]). apply wp_ret.
  apply wp_bind. destruct (new_obj_run a n1) as (p & n2 & Hrun & _ & Hobjs & _). unfold wp at 1. rewrite Hrun.
  apply wp_ret. intros _. exists a, (pp_XMsPermissions prop). simpl. rewrite Hobjs, lookup_insert_eq, Em.
  by split_and!.
Qed.

(** C19: on a mount that does not consult access control lists (honour-acl off, or no
    object id configured) the permissions set on a path of a data lake account are
    those read back: after a ChangeMod that succeeded, a GetAttr that succeeds answers
    attributes whose nine permission bits are those of the mode. *)
Theorem dl_chmod_stat name mode n :
  acl_ignored →
  wp (e ← dl_ChangeMod dl name mode; r ← dl_GetAttr dl name; mret (e, r)) (λ r n',
    r.1 = None → r.2.2 = None →
    ∃ a, rt_objs n' !! r.2.1 = Some a ∧ Z.land (Mode a) 511 = Z.land mode 511) n.
Proof.
  intros Hacl. unfold dl_ChangeMod. apply wp_bind, wp_bind. eapply wp_mono; [apply bm_Set|].
  intros e n1 Hset. destruct e as [e|]; apply wp_ret, wp_bind;
    (eapply wp_mono; [by apply dl_GetAttr_mode|]); intros r n2 Hr; apply wp_ret; [done|].
  intros _ Hg. destruct (Hr Hg) as (a & perm & Ha & Hperm & Hm). exists a. split; [done|].
  rewrite Hset, lookup_insert_eq in Hperm. injection Hperm as <-.
  rewrite permissions_roundtrip in Hm. rewrite Hm. simpl. by rewrite <-Z.land_assoc.
Qed.
End modes.

(** ** A service in memory *)
Module DlRuns.
Record dmem := mkDmem {
  d_objs : gmap ptr ObjAttr;
  d_handles : gmap ptr Handle;
  d_perm : gmap string string
}.
#[export] Instance dmem_Runtime : Runtime dmem := {
  rt_now n := Ret (0, n);
  rt_objs := d_objs;
  rt_set_objs m n := mkDmem m (d_handles n) (d_perm n);
  rt_handles := d_handles;
  rt_set_handles m n := mkDmem (d_objs n) m (d_perm n)
}.
#[export] Instance dmem_laws : RuntimeLaws dmem.
Proof. constructor; try done; intros; simpl in *; [by eexists _, _|by simplify_eq..]. Qed.

Definition not_found : error := BfsError ServiceCodePathNotFound.
#[export] Instance dmem_sdk : BfsSDK dmem := {|
  bfs_CreateDirectory p _ n := Ret (None, mkDmem (d_objs n) (d_handles n) (<[p := "rwxr-x---"]> (d_perm n)));
  bfs_DeleteFile p n := Ret (None, mkDmem (d_objs n) (d_handles n) (delete p (d_perm n)));
  bfs_DeleteDirectory p _ _ n := Ret (None, mkDmem (d_objs n) (d_handles n) (delete p (d_perm n)));
  bfs_RenameFile _ _ n := Ret (Some not_found, n);
  bfs_RenameDirectory _ _ n := Ret (Some not_found, n);
  bfs_GetProperties p n :=
    Ret (match d_perm n !! p with
         | Some perm => inl (mkPathProperties (inl 0) perm 3 "" "file")
         | None => inr not_found
         end, n);
  bfs_GetAccessControl _ n := Ret (inr not_found, n);
  bfs_SetAccessControl p perm n :=
    Ret (match d_perm n !! p with
         | Some _ => (None, mkDmem (d_objs n) (d_handles n) (<[p := perm]> (d_perm n)))
         | None => (Some not_found, n)
         end);
  bfs_ListPaths dir _ _ _ n :=
    Ret (inl (Some (mkPathList
      ((λ kv : string * string, mkPathInfo (Some kv.1) (Some kv.2) (Some 3) 0 (Some false)) <$>
         filter (λ kv : string * string, strings_HasPrefix kv.1 dir = true) (map_to_list (d_perm n))) "")), n)
|}.
#[export] Instance dmem_modes : BfsModes dmem.
Proof.
  refine {| bfs_perm := d_perm |}; intros; unfold wp; simpl.
  - by destruct (d_perm n !! path).
  - split; [done|]. intros prop. destruct (d_perm n !! path); [|done]. intros [= <-]. split; [done|]. by exists ∅.
Defined.

Definition sub_config : AzStorageConfig :=
  mkAzStorageConfig (mkAzAuthConfig "a" false ADLS KEY "key" "" "" "" "" "" "" "" "" "" "https://a.dfs.core.windows.net/" "")
    "container" "sub" 0 32 AccessTierNone 0 5 900 4 60 "" false false false false false false 100 false "" false false
    false "" "".
Definition one_file : dmem := mkDmem ∅ ∅ {["sub/f" := "rw-r--r--"]}.

Lemma dl_chmod_stat_witness :
  wp (e ← dl_ChangeMod (dl_Configure sub_config) "f" 448; r ← dl_GetAttr (dl_Configure sub_config) "f"; mret (e, r)) (λ r n',
    r.1 = None → r.2.2 = None →
    ∃ a, rt_objs n' !! r.2.1 = Some a ∧ Z.land (Mode a) 511 = Z.land 448 511) one_file ∧
  match (e ← dl_ChangeMod (dl_Configure sub_config) "f" 448; r ← dl_GetAttr (dl_Configure sub_config) "f"; mret (e, r)) one_file with
  | Ret (e, (_, e'), _) => e = None ∧ e' = None
  | _ => False
  end.
Proof.
  split; [|vm_compute; split; reflexivity].
  apply (dl_chmod_stat (dl_Configure sub_config) "f" 448 one_file). left. reflexivity.
Defined.

(** With a subdirectory mounted, List asks for the attributes of the listed names,
    which contain the subdirectory, and GetAttr puts it in front again: the listing
    of a directory that has a file fails with ENOENT. *)
Example dl_list_doubles_prefix :
  dl_List (dl_Configure sub_config) "" None 0 one_file = Ret ([], Some "", Some (Errno ENOENT), one_file).
Proof. vm_compute. reflexivity. Qed.
Example dl_GetAttr_finds_it :
  (match dl_GetAttr (dl_Configure sub_config) "f" one_file with Ret (_, e, _) => e | _ => None end) = None.
Proof. vm_compute. reflexivity. Qed.
Example endpoint_of_blobs :
  transformAccountEndpoint "https://a.dfs.core.windows.net" = "https://a.blob.core.windows.net" ∧
  url_PathEscape "a b/ü" = "a%20b%2F%C3%BC".
Proof. vm_compute. done. Qed.
End DlRuns.
