(* ===== verification/AzSetup.v ===== *)
(** * Configuring the storage component
      (Configure, OnConfigChange and configureAndTest of
      src/component/azstorage/azstorage.go, NewAzStorageConnection of connection.go)

    Puts the settings, the credentials and the two connections together: what a
    mount that starts has, and what a change of the configuration file does to it. *)
From S2P Require Import Prelude GoLib Common HandleMap Internal LRUCache AzUtils CacheObj BlockBlob AzStorage AzConfig AzAuth Datalake.
Open Scope Z_scope.

(** ** The connection of the component *)
Inductive Connection := ConnNil | ConnBlob (b : BlobConn) | ConnLake (d : Datalake).

Definition NewAzStorageConnection (cfg : AzStorageConfig) : Connection :=
  match au_AccountType (sc_authConfig cfg) with
  | INVALID_ACC => ConnNil
  | BLOCK => ConnBlob (bb_Configure cfg)
  | ADLS => ConnLake (dl_Configure cfg)
  | AccountOther _ => ConnNil
  end.

(** The file operations of a connection. *)
Definition file_operations {N} `{!Runtime N, !BlobSDK N, !BfsSDK N} (fuel : nat) (c : Connection) : option (AzConnection N) :=
  match c with
  | ConnNil => None
  | ConnBlob b => Some (BlockBlob_connection (blob_config (bc_Config b)) fuel)
  | ConnLake d => Some (Datalake_connection d fuel)
  end.

(** Calls of methods: a nil connection panics. *)
Definition conn_call {A} (fb : go BlobConn A) (fd : go Datalake A) : go Connection A := λ c,
  match c with
  | ConnNil => Panic
  | ConnBlob b => match fb b with Ret (r, b') => Ret (r, ConnBlob b') | Panic => Panic | Blocked => Blocked end
  | ConnLake d => match fd d with Ret (r, d') => Ret (r, ConnLake d') | Panic => Panic | Blocked => Blocked end
  end.
Definition conn_callN {N A} (fb : go (BlobConn * N) A) (fd : go (Datalake * N) A) : go (Connection * N) A := λ '(c, n),
  match c with
  | ConnNil => Panic
  | ConnBlob b => match fb (b, n) with Ret (r, (b', n')) => Ret (r, (ConnBlob b', n')) | Panic => Panic | Blocked => Blocked end
  | ConnLake d => match fd (d, n) with Ret (r, (d', n')) => Ret (r, (ConnLake d', n')) | Panic => Panic | Blocked => Blocked end
  end.

Definition NewazstorageComponent : AzStorage Connection :=
  mkAzStorage
    (mkAzStorageConfig
       (mkAzAuthConfig "" false INVALID_ACC KEY "" "" "" "" "" "" "" "" "" "" "" "")
       "" "" 0 32 (getAccessTierType "none") 0 0 0 0 0 "" false false false false false false 0 false "" false false
       false "" "")
    ConnNil.

Section setup.
Context {N : Type} `{!AuthSDK N, !BlobSDK N, !BfsSDK N}.
Context (auth_Parse : string → AuthType + error) (account_Parse : string → AccountType + error).

Definition conn_NewCredentialKey (key value : string) : go Connection (option error) :=
  conn_call (bb_NewCredentialKey key value) (dl_NewCredentialKey key value).
Definition conn_UpdateConfig (cfg : AzStorageConfig) : go Connection unit :=
  conn_call (go_modify (bb_UpdateConfig cfg)) (go_modify (dl_UpdateConfig cfg)).

Abbreviation on_storage := (go_zoom (λ s : AzStorage Connection * N, (az_storage s.1, s.2))
  (λ c s, (set_storage (λ _, c.1) s.1, c.2))).

Definition configureAndTest (isParent : bool) : go (AzStorage Connection * N) (option error) :=
  _ ← go_modify (λ '(az, n), (set_storage (λ _, NewAzStorageConnection (az_stConfig az)) az, n));
  err ← on_storage (conn_callN bb_SetupPipeline dl_SetupPipeline);
  if bool_decide (err ≠ None) then mret err
  else
    '(az, _) ← go_get;
    let path := sc_prefixPath (az_stConfig az) in
    _ ← on_storage (conn_callN (go_modify (λ '(b, n), (bb_SetPrefixPath path b, n)))
                      (go_modify (λ '(d, n), (dl_SetPrefixPath path d, n))));
    if isParent then
      err ← on_storage (conn_callN bb_TestPipeline dl_TestPipeline);
      mret (if bool_decide (err ≠ None) then Some (Msg "failed to authenticate credentials for azstorage") else None)
    else mret None.

(** [conf] is what the configuration file has for the component. *)
Definition Configure `{!ConfigFile} (conf : AzStorageOptions + error) (isParent : bool)
    : go (AzStorage Connection * N) (option error) :=
  match conf with
  | inr _ => mret (Some (Msg "config error in azstorage"))
  | inl conf =>
      err ← go_zoom fst (λ az s, (az, s.2))
        (ParseAndValidateConfig auth_Parse account_Parse (BlockBlobMaxStageBlockBytes (N := N)) conn_NewCredentialKey conf);
      if bool_decide (err ≠ None) then mret (Some (Msg "config error in azstorage"))
      else configureAndTest isParent
  end.

Definition OnConfigChange `{!ConfigFile} (conf : AzStorageOptions + error) : go (AzStorage Connection) unit :=
  match conf with
  | inr _ => mret tt
  | inl conf =>
      err ← ParseAndReadDynamicConfig conn_NewCredentialKey conf true;
      if bool_decide (err ≠ None) then mret tt
      else
        az ← go_get;
        go_zoom az_storage (λ s, set_storage (λ _, s)) (conn_UpdateConfig (az_stConfig az))
  end.
End setup.

(** ** Connections that are up to date *)
Section current.
Context {N : Type} `{!AuthSDK N}.

(** The credential settings of the mount, [m], with the key of a SAS mount replaced: the
    mode, the account and all that identifies it stay those of the mount. *)
Definition with_key (key : string) (m : azAuthConfig) : azAuthConfig :=
  match au_AuthMode m with SAS => set_SASKey key m | _ => m end.
(** The credential settings of the blob side of a data lake account. *)
Definition blob_side (m : azAuthConfig) : azAuthConfig :=
  set_AccountType_Endpoint BLOCK (transformAccountEndpoint (au_Endpoint m)) m.

(** A credential object has these settings, and its address parses. *)
Definition auth_ok (m : azAuthConfig) (key : string) (a : azAuth) : Prop :=
  aa_config a = with_key key m ∧ is_mode (au_AuthMode m) = true ∧ url_Parse (getEndpoint a) = None.
(** Requests go to the address of the credential and to the container. *)
Definition blob_ok (m : azAuthConfig) (key : string) (b : BlobConn) : Prop :=
  au_AccountType m = BLOCK ∧
  ∃ a, bc_Auth b = Some a ∧ auth_ok m key a ∧ bc_Endpoint b = Some (getEndpoint a) ∧
    bc_Service b = Some (getEndpoint a) ∧ bc_Container b = Some (sc_container (bc_Config b)).
Definition lake_ok (m : azAuthConfig) (key : string) (d : Datalake) : Prop :=
  (au_AccountType m = ADLS ∧
   ∃ a, dl_Auth d = Some a ∧ auth_ok m key a ∧ dl_Endpoint d = Some (getEndpoint a) ∧
     dl_Service d = Some (getEndpoint a) ∧ dl_Filesystem d = Some (sc_container (dl_Config d))) ∧
  blob_ok (blob_side m) key (dl_BlockBlob d).
Definition conn_ok (m : azAuthConfig) (key : string) (c : Connection) : Prop :=
  match c with ConnNil => False | ConnBlob b => blob_ok m key b | ConnLake d => lake_ok m key d end.

Lemma with_key_self m : with_key (au_SASKey m) m = m.
Proof. unfold with_key. destruct (au_AuthMode m); by destruct m. Qed.
Lemma setOption_with_key m key k a :
  aa_config a = with_key key m → setOption "saskey" k a = mkAzAuth (with_key k m).
Proof.
  destruct a as [c]. simpl. intros ->. unfold setOption, with_key. simpl.
  destruct (au_AuthMode m) eqn:Em; simpl; by rewrite Em.
Qed.
Lemma setOption_same m key a : auth_ok m key a → setOption "saskey" key a = a.
Proof. intros (Ha & _). rewrite (setOption_with_key m key) by done. rewrite <-Ha. by destruct a. Qed.
Lemma setOption_twice m key k a :
  auth_ok m key a → setOption "saskey" key (setOption "saskey" k a) = a.
Proof.
  intros Hok. rewrite (setOption_with_key m key k) by apply Hok.
  rewrite (setOption_with_key m k) by done. rewrite <-(proj1 Hok). by destruct a.
Qed.
Lemma setOption_ok m key k a :
  auth_ok m key a → url_Parse (getEndpoint (setOption "saskey" k a)) = None → auth_ok m k (setOption "saskey" k a).
Proof. intros (Ha & Hm & _) Hp. split; [|done]. by rewrite (setOption_with_key m key k). Qed.

(** The settings a connection holds. *)
Definition lake_configs (d : Datalake) : list AzStorageConfig := [dl_Config d; bc_Config (dl_BlockBlob d)].
Definition conn_configs (c : Connection) : list AzStorageConfig :=
  match c with ConnNil => [] | ConnBlob b => [bc_Config b] | ConnLake d => lake_configs d end.

(** The block size and concurrency of downloads. *)
Definition conn_downloads (c : Connection) : list (Z * Z) :=
  match c with
  | ConnNil => []
  | ConnBlob b => [bc_downloadOptions b]
  | ConnLake d => [bc_downloadOptions (dl_BlockBlob d)]
  end.
(** What a new key does not change. *)
Definition conn_kept (c : Connection) : list AzStorageConfig * list (Z * Z) := (conn_configs c, conn_downloads c).

(** A new key is in use afterwards or an error is returned, and the old key gives the
    old connection back; the settings stay. *)
Definition renews {S T} (ok : string → S → Prop) (kept : S → T) (f : string → go S (option error)) : Prop :=
  ∀ key k s, ok key s → ∃ e s', f k s = Ret (e, s') ∧ (e = None → ok k s') ∧ kept s' = kept s ∧
    f key s' = Ret (None, s).

Lemma bb_new_key_run k b a :
  bc_Auth b = Some a →
  bb_NewCredentialKey "saskey" k b =
    let a := setOption "saskey" k a in
    match url_Parse (getEndpoint a) with
    | Some _ => Ret (Some (Msg "failed to form base endpoint url"), set_bc_Endpoint None (set_bc_Auth (Some a) b))
    | None => Ret (None, set_bc_URLs (Some (getEndpoint a)) (Some (sc_container (bc_Config b)))
                           (set_bc_Endpoint (Some (getEndpoint a)) (set_bc_Auth (Some a) b)))
    end.
Proof.
  intros Ha. unfold bb_NewCredentialKey, bb_build_urls, go_get, go_deref. simpl. unfold mbind, go_bind. rewrite Ha. simpl.
  by destruct (url_Parse _).
Qed.
Lemma bb_same_key m key b : blob_ok m key b → bb_NewCredentialKey "saskey" key b = Ret (None, b).
Proof.
  intros (_ & a & Ha & Hok & He & Hs & Hc). rewrite (bb_new_key_run _ _ a Ha). cbv zeta.
  rewrite (setOption_same _ _ _ Hok), (proj2 (proj2 Hok)). destruct b; simplify_eq/=. done.
Qed.
Lemma bb_renews m : renews (blob_ok m) (λ b, conn_kept (ConnBlob b)) (bb_NewCredentialKey "saskey").
Proof.
  intros key k b (Ht & a & Ha & Hok & He & Hs & Hc). rewrite (bb_new_key_run k b a Ha). cbv zeta.
  assert (Hback : ∀ e sv cn, bb_NewCredentialKey "saskey" key
    (mkBlobConn (bc_Config b) (Some (setOption "saskey" k a)) e sv cn (bc_CPK b) (bc_downloadOptions b)) = Ret (None, b)).
  { intros e sv cn. rewrite (bb_new_key_run _ _ (setOption "saskey" k a)) by done. cbv zeta.
    rewrite (setOption_twice _ _ _ _ Hok), (proj2 (proj2 Hok)). destruct b; simplify_eq/=. done. }
  destruct (url_Parse (getEndpoint (setOption "saskey" k a))) eqn:Hpk;
    eexists _, _; (split; [done|]); (split; [|split; [done|apply Hback]]); [done|].
  intros _. split; [done|]. exists (setOption "saskey" k a). split_and!; try done. by eapply setOption_ok.
Qed.
Lemma dl_new_key_run k d a :
  dl_Auth d = Some a →
  dl_NewCredentialKey "saskey" k d =
    let a := setOption "saskey" k a in
    match url_Parse (getEndpoint a) with
    | Some _ => Ret (Some (Msg "failed to form base endpoint url"), set_dl_Endpoint None (set_dl_Auth (Some a) d))
    | None =>
        let d := set_dl_URLs (Some (getEndpoint a)) (Some (sc_container (dl_Config d)))
                   (set_dl_Endpoint (Some (getEndpoint a)) (set_dl_Auth (Some a) d)) in
        match bb_NewCredentialKey "saskey" k (dl_BlockBlob d) with
        | Ret (e, b) => Ret (e, set_dl_BlockBlob b d)
        | Panic => Panic
        | Blocked => Blocked
        end
    end.
Proof.
  intros Ha. unfold dl_NewCredentialKey, dl_build_urls, go_get, go_deref. simpl. unfold mbind, go_bind. rewrite Ha. simpl.
  by destruct (url_Parse _).
Qed.
Lemma dl_renews m : renews (lake_ok m) (λ d, conn_kept (ConnLake d)) (dl_NewCredentialKey "saskey").
Proof.
  intros key k d [(Ht & a & Ha & Hok & He & Hs & Hc) Hb]. rewrite (dl_new_key_run k d a Ha). cbv zeta.
  destruct (bb_renews _ key k (dl_BlockBlob d) Hb) as (eb & b' & Hrun & Hnew & [= Hcfg Hdown] & Hold).
  assert (Hback : ∀ e sv fs b1, bb_NewCredentialKey "saskey" key b1 = Ret (None, dl_BlockBlob d) →
    dl_NewCredentialKey "saskey" key (mkDatalake (dl_Config d) (Some (setOption "saskey" k a)) e sv fs b1) = Ret (None, d)).
  { intros e sv fs b1 Hb1. rewrite (dl_new_key_run _ _ (setOption "saskey" k a)) by done. cbv zeta.
    rewrite (setOption_twice _ _ _ _ Hok), (proj2 (proj2 Hok)). simpl. rewrite Hb1.
    destruct d; simplify_eq/=. done. }
  simpl dl_BlockBlob. rewrite Hrun.
  destruct (url_Parse (getEndpoint (setOption "saskey" k a))) eqn:Hpk;
    eexists _, _; (split; [done|]); (split; [|split; [unfold conn_kept, lake_configs; simpl; unfold lake_configs; simpl; by rewrite ?Hcfg, ?Hdown|apply Hback; simpl; by first [apply Hold|eapply bb_same_key]]]); [done|].
  intros ->. split; [|by apply Hnew]. split; [done|].
  exists (setOption "saskey" k a). split_and!; try done. by eapply setOption_ok.
Qed.
Lemma conn_renews m : renews (conn_ok m) conn_kept (conn_NewCredentialKey "saskey").
Proof.
  intros key k [|b|d] Hok; [done| |].
  - destruct (bb_renews m key k b Hok) as (e & b' & Hrun & Hnew & Hcfg & Hold). exists e, (ConnBlob b').
    unfold conn_NewCredentialKey, conn_call. by rewrite Hrun, Hold.
  - destruct (dl_renews m key k d Hok) as (e & d' & Hrun & Hnew & Hcfg & Hold). exists e, (ConnLake d').
    unfold conn_NewCredentialKey, conn_call. by rewrite Hrun, Hold.
Qed.

(** *** Changes of the file *)

(** Every settings record of the connection names the prefix and the container of the
    component, and all have the same settings for blobs. *)
Definition configs_ok (st : AzStorageConfig) (l : list AzStorageConfig) : Prop :=
  Forall (λ c, sc_prefixPath c = sc_prefixPath st ∧ sc_container c = sc_container st) l ∧
  ∀ c1 c2, c1 ∈ l → c2 ∈ l → blob_config c1 = blob_config c2.
Definition sas_key (az : AzStorage Connection) : string := au_SASKey (sc_authConfig (az_stConfig az)).
(** The credential settings of the component are those of the mount but for the mode and
    the SAS key, which a change of the file that says "sas" assigns. *)
Definition auth_current (m c : azAuthConfig) : Prop :=
  c = set_SASKey (au_SASKey c) (set_AuthMode (au_AuthMode c) m) ∧ au_AuthMode c ∈ [au_AuthMode m; SAS].
Definition az_ok (m : azAuthConfig) (az : AzStorage Connection) : Prop :=
  auth_current m (sc_authConfig (az_stConfig az)) ∧
  conn_ok m (sas_key az) (az_storage az) ∧ configs_ok (az_stConfig az) (conn_configs (az_storage az)).

Lemma auth_current_self m : auth_current m m.
Proof. split; [by destruct m|left]. Qed.
Lemma auth_current_sas m c : auth_current m c → auth_current m (set_AuthMode SAS c).
Proof. intros [-> _]. split; [done|right; left]. Qed.
Lemma auth_current_key m c k : auth_current m c → auth_current m (set_SASKey k c).
Proof. intros [Hc Hm]. split; [rewrite Hc; done|done]. Qed.

Lemma configs_ok_target st st' l :
  sc_prefixPath st' = sc_prefixPath st → sc_container st' = sc_container st → configs_ok st l → configs_ok st' l.
Proof. intros Hp Hc [Hl Hs]. split; [|done]. by rewrite Hp, Hc. Qed.
Lemma configs_ok_update st st' l : configs_ok st l → configs_ok st (update_settings st' <$> l).
Proof.
  intros [Hl Hs]. split.
  - apply Forall_fmap. eapply Forall_impl; [done|]. by intros c [Hp Hc].
  - intros c1 c2 (d1 & -> & H1)%list_elem_of_fmap (d2 & -> & H2)%list_elem_of_fmap.
    specialize (Hs _ _ H1 H2). unfold blob_config in *. simpl. injection Hs; intros; congruence.
Qed.

(** What reading the file again does to the key and the connection. *)
Definition key_after (opt : AzStorageOptions) (az : AzStorage Connection) : string :=
  if bool_decide (ao_AuthMode opt = "sas") then sanitizeSASKey (ao_SaSKey opt) else sas_key az.
Lemma reload_run `{!ConfigFile} m opt az :
  az_ok m az →
  wp (ParseAndReadDynamicConfig conn_NewCredentialKey opt true) (λ err az',
    az_ok m az' ∧ conn_kept (az_storage az') = conn_kept (az_storage az) ∧
    (∃ a, az_stConfig az' = set_authConfig a (dynamic_settings opt (az_stConfig az))) ∧
    match err with
    | None => sas_key az' = key_after opt az
    | Some _ => sas_key az' = sas_key az ∧ az_storage az' = az_storage az
    end) az.
Proof.
  intros (Hauth & Hconn & Hcfg). unfold ParseAndReadDynamicConfig, key_after. apply wp_bind. unfold wp at 1, go_modify.
  assert (Hcfg' : ∀ a, configs_ok (set_authConfig a (dynamic_settings opt (az_stConfig az))) (conn_configs (az_storage az)))
    by (intros a; by eapply configs_ok_target).
  pose proof (auth_current_sas _ _ Hauth) as Hsas. pose proof (λ k, auth_current_key _ _ k Hsas) as Hkey.
  case_bool_decide.
  2: { apply wp_ret. split_and!; [split_and!|..]; try done; try apply (Hcfg' (sc_authConfig (az_stConfig az))).
       exists (sc_authConfig (az_stConfig az)). by destruct az as [[] ?]. }
  apply wp_bind. unfold wp at 1, upd_auth, go_modify.
  case_bool_decide; [apply wp_ret; split_and!; [split_and!|..]; simpl; first [done|apply Hcfg'|by eexists]|].
  apply wp_bind. unfold wp at 1, go_gets. apply wp_bind. unfold wp at 1, upd_auth, go_modify.
  apply wp_bind. unfold new_key. apply wp_bind. unfold wp at 1, go_get. unfold wp at 1, go_zoom. simpl.
  destruct (conn_renews _ _ (sanitizeSASKey (ao_SaSKey opt)) _ Hconn) as (e & c' & Hrun & Hnew & Hcs & Hold).
  rewrite Hrun. destruct e as [e|]; simpl.
  - apply wp_bind. unfold wp at 1, upd_auth, go_modify. apply wp_bind. apply wp_bind. unfold wp at 1, go_get.
    unfold wp at 1, go_zoom. simpl. unfold sas_key in Hold. rewrite Hold. apply wp_ret.
    split_and!; [split_and!|..]; simpl; first [done|apply Hcfg'|by eexists|by apply auth_current_key].
  - apply wp_ret. specialize (Hnew eq_refl). pose proof Hcs as [= Hcs1 _].
    split_and!; [split_and!|..]; simpl; first [done|rewrite Hcs1; apply Hcfg'|by eexists].
Qed.

Lemma UpdateConfig_run cfg m key c :
  conn_ok m key c → ∃ c', conn_UpdateConfig cfg c = Ret (tt, c') ∧ conn_ok m key c' ∧
    conn_configs c' = update_settings cfg <$> conn_configs c ∧ conn_downloads c' = conn_downloads c.
Proof. destruct c as [|b|d]; [done| |]; intros Hok; by eexists. Qed.

Lemma OnConfigChange_run `{!ConfigFile} m opt az :
  az_ok m az → ∃ az', OnConfigChange (inl opt) az = Ret (tt, az') ∧ az_ok m az' ∧
    (∃ a, az_stConfig az' = set_authConfig a (dynamic_settings opt (az_stConfig az))) ∧
    conn_downloads (az_storage az') = conn_downloads (az_storage az) ∧
    ((sas_key az' = key_after opt az ∧
      conn_configs (az_storage az') = update_settings (az_stConfig az') <$> conn_configs (az_storage az)) ∨
     (sas_key az' = sas_key az ∧ az_storage az' = az_storage az)).
Proof.
  intros Hok. assert (Hr := reload_run m opt az Hok). unfold wp in Hr. unfold OnConfigChange, mbind, go_bind.
  destruct (ParseAndReadDynamicConfig conn_NewCredentialKey opt true az) as [[err az1]| |]; [|done..].
  destruct Hr as (Hok1 & [= Hcs Hds] & Hst & Hr). destruct err as [e|]; simpl.
  - exists az1. split; [done|]. auto.
  - unfold go_zoom. destruct Hok1 as (Ha1 & Hc1 & Hl1).
    destruct (UpdateConfig_run (az_stConfig az1) _ _ _ Hc1) as (c' & Hu & Hc & Hcs' & Hds').
    rewrite Hu. eexists. split; [done|]. split_and!; [split_and!; [done|done|]; simpl; rewrite Hcs'|done|simpl; congruence|left; simpl; by rewrite Hcs', Hcs].
    by apply configs_ok_update.
Qed.
Lemma OnConfigChange_ok `{!ConfigFile} m conf az :
  az_ok m az → ∃ az', OnConfigChange conf az = Ret (tt, az') ∧ az_ok m az'.
Proof.
  intros Hok. destruct conf as [opt|e]; [|by exists az].
  destruct (OnConfigChange_run m opt az Hok) as (az' & Hrun & Hok' & _). eauto.
Qed.
End current.

(** ** Mounting *)

(** The requests return. *)
Definition returns {N A} (m : go N A) : Prop := ∀ s, wp m (λ _ _, True) s.
Class AuthReturns (N : Type) `{!AuthSDK N, !BlobSDK N, !BfsSDK N} := {
  run_cli_returns cmd : returns (run_cli cmd);
  msi_returns c o r e : returns (GetNewTokenFromMSI c o r e);
  spn_returns f c s r : returns (NewServicePrincipalToken f c s r);
  federated_returns f c t r : returns (NewServicePrincipalTokenFromFederatedTokenCallback f c t r);
  list_blobs_returns m p c : returns (sdk_ListHierarchy m p c);
  list_paths_returns p r c m : returns (bfs_ListPaths p r c m)
}.

Section mounting.
Context {N : Type} `{!AuthSDK N, !BlobSDK N, !BfsSDK N, !AuthReturns N}.

Lemma wp_conn_blob {A} (fb : go (BlobConn * N) A) fd Q b n :
  wp fb (λ r s, Q r (ConnBlob s.1, s.2)) (b, n) → wp (conn_callN fb fd) Q (ConnBlob b, n).
Proof. unfold wp, conn_callN. by destruct (fb (b, n)) as [[r [b' n']]| |]. Qed.
Lemma wp_conn_lake {A} fb (fd : go (Datalake * N) A) Q d n :
  wp fd (λ r s, Q r (ConnLake s.1, s.2)) (d, n) → wp (conn_callN fb fd) Q (ConnLake d, n).
Proof. unfold wp, conn_callN. by destruct (fd (d, n)) as [[r [d' n']]| |]. Qed.
Lemma wp_returns {A} (m : go N A) (Q : A → N → Prop) n : returns m → (∀ a n', Q a n') → wp m Q n.
Proof. intros Hm HQ. eapply wp_mono; [apply Hm|]. auto. Qed.

Lemma msi_getCredential_returns c : returns (N := N) (msi_getCredential c).
Proof.
  intros n. unfold msi_getCredential. apply wp_bind.
  assert (Hf : ∀ n' : N, wp
    (r ← msi_fetchToken c (os_Getenv "MSI_ENDPOINT");
     r ← match r with inl _ => mret r | inr _ => msi_fetchToken c "" end;
     mret (match r with inl t => Some (Token t false) | inr _ => None end)) (λ _ _, True) n').
  { intros n'. apply wp_bind, wp_returns; [apply msi_returns|]. intros r n1. apply wp_bind.
    destruct r; [by apply wp_ret, wp_ret|]. apply wp_returns; [apply msi_returns|]. intros r2 n2. by apply wp_ret. }
  case_match.
  - apply wp_bind, wp_returns; [apply run_cli_returns|]. intros [t|e] n'; apply wp_ret; [by apply wp_ret|apply Hf].
  - apply wp_ret, Hf.
Qed.
Lemma spn_fetchToken_returns c : returns (N := N) (spn_fetchToken c).
Proof.
  intros n. unfold spn_fetchToken. destruct (NewOAuthConfig _ _); [|by apply wp_ret].
  case_bool_decide; [apply federated_returns|apply spn_returns].
Qed.

(** A credential is one of the SDK of its account type. *)
Definition cred_matches (t : AccountType) (cred : option credential) : Prop :=
  match cred with
  | Some (BlobCredential _) => t = BLOCK
  | Some (BfsCredential _) => t ≠ BLOCK
  | None => True
  end.
Lemma auth_getCredential_returns a (n : N) :
  is_mode (au_AuthMode (aa_config a)) = true →
  wp (auth_getCredential a) (λ cred _, cred_matches (au_AccountType (aa_config a)) cred) n.
Proof.
  intros Hm. unfold auth_getCredential.
  assert (Hw : ∀ s, cred_matches (au_AccountType (aa_config a))
    (Some (if bool_decide (au_AccountType (aa_config a) = BLOCK) then BlobCredential s else BfsCredential s))).
  { intros s. by case_bool_decide. }
  destruct (au_AuthMode (aa_config a)); try done.
  - apply wp_ret. destruct (bool_decide (au_AccountKey _ = "")); [done|]. destruct (_ && _); [done|apply Hw].
  - apply wp_ret. destruct (bool_decide (au_SASKey _ = "")); [done|apply Hw].
  - apply wp_bind, wp_returns; [apply spn_fetchToken_returns|]. intros [t|e] n'; apply wp_ret; [apply Hw|done].
  - apply wp_bind, wp_returns; [apply msi_getCredential_returns|]. intros [t|] n'; apply wp_ret; [apply Hw|done].
Qed.

(** Setting up a connection. *)
Lemma getAzAuth_ok c t :
  au_AccountType c = t → t = BLOCK ∨ t = ADLS → is_mode (au_AuthMode c) = true → getAzAuth c = Some (mkAzAuth c).
Proof. unfold getAzAuth. by intros -> [-> | ->] ->. Qed.

Lemma bb_SetupPipeline_ok b (n : N) :
  au_AccountType (sc_authConfig (bc_Config b)) = BLOCK → is_mode (au_AuthMode (sc_authConfig (bc_Config b))) = true →
  wp bb_SetupPipeline (λ err s, bc_Config s.1 = bc_Config b ∧
    (err = None → blob_ok (sc_authConfig (bc_Config b)) (au_SASKey (sc_authConfig (bc_Config b))) s.1)) (b, n).
Proof.
  intros Ht Hm. unfold bb_SetupPipeline, bb_getCredential. apply wp_bind, wp_bind. unfold wp at 1, go_get.
  apply wp_bind. unfold wp at 1, go_modify. rewrite (getAzAuth_ok _ BLOCK) by auto.
  apply wp_bind, wp_snd. eapply wp_mono; [by apply auth_getCredential_returns|].
  intros [[s|s]|] n1 Hc; [| |by apply wp_ret, wp_ret]; [|by simpl in Hc]. apply wp_ret.
  apply wp_bind. unfold wp at 1, go_get. case_match; [by apply wp_ret|].
  apply wp_bind, wp_ret, wp_zoom. unfold bb_build_urls. destruct (url_Parse _) eqn:Hp.
  - apply wp_bind. unfold wp at 1, go_modify. by apply wp_ret.
  - apply wp_bind. unfold wp at 1, go_modify. apply wp_bind. unfold wp at 1, go_modify. apply wp_ret. simpl.
    split; [done|]. intros _. split; [done|]. exists (mkAzAuth (sc_authConfig (bc_Config b))).
    unfold auth_ok. by rewrite with_key_self.
Qed.
Lemma dl_SetupPipeline_ok d (n : N) :
  au_AccountType (sc_authConfig (dl_Config d)) = ADLS → is_mode (au_AuthMode (sc_authConfig (dl_Config d))) = true →
  bc_Config (dl_BlockBlob d) = transformConfig (dl_Config d) →
  wp dl_SetupPipeline (λ err s, lake_configs s.1 = lake_configs d ∧
    (err = None → lake_ok (sc_authConfig (dl_Config d)) (au_SASKey (sc_authConfig (dl_Config d))) s.1)) (d, n).
Proof.
  intros Ht Hm Hb. unfold dl_SetupPipeline, dl_getCredential. apply wp_bind, wp_bind. unfold wp at 1, go_get.
  apply wp_bind. unfold wp at 1, go_modify. rewrite (getAzAuth_ok _ ADLS) by auto.
  apply wp_bind, wp_snd. eapply wp_mono; [by apply auth_getCredential_returns|].
  intros [[s|s]|] n1 Hc; [by simpl in Hc; rewrite Ht in Hc| |by apply wp_ret, wp_ret]. apply wp_ret.
  apply wp_bind. unfold wp at 1, go_get. case_match; [by apply wp_ret|].
  apply wp_bind, wp_ret, wp_bind, wp_zoom. unfold dl_build_urls. destruct (url_Parse _) eqn:Hp.
  - apply wp_bind. unfold wp at 1, go_modify. apply wp_ret. simpl. by apply wp_ret.
  - apply wp_bind. unfold wp at 1, go_modify. apply wp_bind. unfold wp at 1, go_modify. apply wp_ret. simpl.
    apply wp_zoom. simpl. eapply wp_mono; [apply bb_SetupPipeline_ok; by rewrite Hb|].
    intros err [b' n'] [Hcfg Hok]. unfold lake_configs. simpl in *. rewrite Hcfg. split; [done|]. intros He.
    split; [|rewrite Hb in Hok; by apply Hok]. split; [done|].
    exists (mkAzAuth (sc_authConfig (dl_Config d))). unfold auth_ok. by rewrite with_key_self.
Qed.
Lemma bb_TestPipeline_ok b (n : N) : wp bb_TestPipeline (λ _ s, s.1 = b) (b, n).
Proof.
  unfold bb_TestPipeline. apply wp_bind. unfold wp at 1, go_get. case_match; [by apply wp_ret|].
  case_bool_decide; [by apply wp_ret|]. apply wp_bind, wp_snd, wp_returns; [apply list_blobs_returns|].
  intros r n'. by apply wp_ret.
Qed.
Lemma dl_TestPipeline_ok d (n : N) : wp dl_TestPipeline (λ _ s, s.1 = d) (d, n).
Proof.
  unfold dl_TestPipeline. apply wp_bind. unfold wp at 1, go_get. case_match; [by apply wp_ret|].
  case_bool_decide; [by apply wp_ret|]. apply wp_bind, wp_snd, wp_returns; [apply list_paths_returns|].
  intros [r|e] n'; [|by apply wp_ret]. apply wp_zoom. simpl. eapply wp_mono; [apply bb_TestPipeline_ok|].
  intros err [b' n2]. simpl. intros ->. by destruct d.
Qed.

Lemma credentials_mode a : credentials_ok a → is_mode (au_AuthMode a) = true.
Proof. unfold credentials_ok. by destruct (au_AuthMode a). Qed.

(** Settings that were accepted give a connection. *)
Lemma SetupPipeline_ok st (n : N) :
  settings_ok st →
  wp (conn_callN bb_SetupPipeline dl_SetupPipeline) (λ err s,
    err = None → conn_ok (sc_authConfig st) (au_SASKey (sc_authConfig st)) s.1 ∧ configs_ok st (conn_configs s.1))
    (NewAzStorageConnection st, n).
Proof.
  intros ((_ & Ht & _) & _ & _ & _ & _ & Hm%credentials_mode). unfold NewAzStorageConnection.
  destruct Ht as [Ht|Ht]; rewrite Ht.
  - apply wp_conn_blob. eapply wp_mono; [by apply bb_SetupPipeline_ok|]. intros err [b n'] [Hc Hok] He. simpl in *.
    split; [auto|]. rewrite Hc. split; [by repeat constructor|]. by intros c1 c2 ->%list_elem_of_singleton ->%list_elem_of_singleton.
  - apply wp_conn_lake. eapply wp_mono; [by apply dl_SetupPipeline_ok|]. intros err [d n'] [Hc Hok] He. simpl in *.
    split; [auto|]. rewrite Hc. split; [by repeat constructor|]. unfold lake_configs. simpl.
    intros c1 c2. rewrite !elem_of_cons. intros [->|[->|[]%not_elem_of_nil]] [->|[->|[]%not_elem_of_nil]]; done.
Qed.
(** Setting the prefix the settings already have changes nothing that matters. *)
Lemma SetPrefixPath_ok st m key c (n : N) :
  conn_ok m key c → configs_ok st (conn_configs c) →
  wp (conn_callN (go_modify (λ '(b, n), (bb_SetPrefixPath (sc_prefixPath st) b, n)))
        (go_modify (λ '(d, n), (dl_SetPrefixPath (sc_prefixPath st) d, n)))) (λ _ s,
    conn_ok m key s.1 ∧ configs_ok st (conn_configs s.1)) (c, n).
Proof.
  intros Hok Hcs.
  assert (Hset : configs_ok st (set_prefixPath (sc_prefixPath st) <$> conn_configs c)).
  { destruct Hcs as [Hl Hs]. split.
    - apply Forall_fmap. eapply Forall_impl; [done|]. by intros x [_ Hc].
    - intros c1 c2 (d1 & -> & H1)%list_elem_of_fmap (d2 & -> & H2)%list_elem_of_fmap.
      specialize (Hs _ _ H1 H2). unfold blob_config in *. simpl. injection Hs; intros; congruence. }
  destruct c as [|b|d]; [done|apply wp_conn_blob|apply wp_conn_lake]; unfold wp, go_modify; by split.
Qed.
Lemma TestPipeline_ok c (n : N) :
  c ≠ ConnNil → wp (conn_callN bb_TestPipeline dl_TestPipeline) (λ _ s, s.1 = c) (c, n).
Proof.
  intros Hc. destruct c as [|b|d]; [done|apply wp_conn_blob|apply wp_conn_lake].
  - eapply wp_mono; [apply bb_TestPipeline_ok|]. intros err [b' n'] Hb. simpl in *. by rewrite Hb.
  - eapply wp_mono; [apply dl_TestPipeline_ok|]. intros err [d' n'] Hd. simpl in *. by rewrite Hd.
Qed.

Lemma configureAndTest_ok isParent az (n : N) :
  settings_ok (az_stConfig az) →
  wp (configureAndTest isParent) (λ err s, err = None →
    az_ok (sc_authConfig (az_stConfig az)) s.1 ∧ az_stConfig s.1 = az_stConfig az) (az, n).
Proof.
  intros Hst. unfold configureAndTest. apply wp_bind. unfold wp at 1, go_modify.
  apply wp_bind, wp_zoom. simpl. eapply wp_mono; [by apply SetupPipeline_ok|].
  intros err [c n1] Hc. simpl in Hc. case_bool_decide as He; [by apply wp_ret|].
  assert (err = None) as -> by (destruct (decide (err = None)); tauto). destruct (Hc eq_refl) as [Hok Hcs].
  apply wp_bind. unfold wp at 1, go_get. apply wp_bind, wp_zoom. simpl.
  eapply wp_mono; [by apply SetPrefixPath_ok|]. intros _ [c2 n2]. simpl. intros [Hok2 Hcs2].
  assert (Haz : az_ok (sc_authConfig (az_stConfig az)) (mkAzStorage (az_stConfig az) c2)).
  { split; [apply auth_current_self|by split]. }
  destruct isParent; [|by apply wp_ret]. apply wp_bind, wp_zoom. simpl.
  eapply wp_mono; [by apply TestPipeline_ok; intros ->|]. intros err [c3 n3] Hc3. simpl in Hc3. subst c3.
  by apply wp_ret.
Qed.

(** *** The theorems *)
Context (auth_Parse : string → AuthType + error) (account_Parse : string → AccountType + error).
(** The account type of the options is a name, not a number. *)
Definition type_named (opt : AzStorageOptions) : Prop :=
  ∀ k, account_Parse (account_type_name opt) ≠ inl (AccountOther k).

Lemma Configure_ok `{!ConfigFile} opt isParent (n : N) :
  type_named opt →
  wp (Configure auth_Parse account_Parse (inl opt) isParent) (λ err s,
    err = None → settings_ok (az_stConfig s.1) ∧ az_ok (sc_authConfig (az_stConfig s.1)) s.1)
    (NewazstorageComponent, n).
Proof.
  intros Hn. unfold Configure. apply wp_bind, wp_zoom.
  eapply wp_mono; [by apply ParseAndValidateConfig_ok|]. intros err az [_ Hok].
  case_bool_decide as He; [by apply wp_ret|].
  assert (err = None) as -> by (destruct (decide (err = None)); tauto).
  eapply wp_mono; [by apply configureAndTest_ok, Hok|]. intros err s Hs He'. destruct (Hs He') as [Haz Heq].
  simpl in *. rewrite Heq. auto.
Qed.

(** C20: Configuring the storage component with an account type given by name (a
    number is accepted by the parser of the type and makes the component panic)
    returns, whatever else the configuration file has and whatever the requests
    answer, and does not panic.  When it succeeds, the settings are well formed: an
    account name, an account type and an endpoint of that service with protocol and
    final slash, a container unless all are mounted, a prefix without a leading slash,
    complete credentials of the mode, keys for client-provided encryption when it is
    on, a retry policy and a positive list size.  The connection is of that account
    type; its credential object has exactly the credential settings (for the blob side
    of a data lake account: with the endpoint and type of the blob service), and the
    requests go to the address it gives, to the container and prefix of the settings. *)
Theorem configured_mount_is_well_formed `{!ConfigFile} opt isParent (n : N) :
  type_named opt →
  wp (Configure auth_Parse account_Parse (inl opt) isParent) (λ err s,
    err = None → settings_ok (az_stConfig s.1) ∧ az_ok (sc_authConfig (az_stConfig s.1)) s.1)
    (NewazstorageComponent, n).
Proof. apply Configure_ok. Qed.

(** The states of a component: a mount that was configured, with its credential
    settings, and changes of the file with any content. *)
Inductive az_reachable : azAuthConfig → AzStorage Connection → Prop :=
  | reach_configure (cf : ConfigFile) opt isParent (n n' : N) az :
      type_named opt →
      Configure auth_Parse account_Parse (inl opt) isParent (NewazstorageComponent, n) = Ret (None, (az, n')) →
      az_reachable (sc_authConfig (az_stConfig az)) az
  | reach_change (cf : ConfigFile) m conf az az' :
      az_reachable m az → OnConfigChange conf az = Ret (tt, az') → az_reachable m az'.
Lemma az_reachable_ok m az : az_reachable m az → az_ok m az.
Proof.
  induction 1 as [cf opt isParent n n' az Hn Hrun|cf m conf az az' _ IH Hrun].
  - assert (Hok := Configure_ok opt isParent n Hn). unfold wp in Hok. rewrite Hrun in Hok. by apply Hok.
  - destruct (OnConfigChange_ok m conf az IH) as (az2 & Hrun2 & Hok). rewrite Hrun in Hrun2. by injection Hrun2 as <-.
Qed.

(** C21: After a mount (with an account type given by name) and any changes of the
    configuration file, the connection is up to date: its credential object has the
    credential settings of the mount, in particular its mode, account name, account key
    and endpoint, and when that mode is SAS the key is the current one of the settings;
    the addresses of its requests are those this credential gives, with the container
    and prefix of the settings, and on a data lake account the requests through both
    APIs name the same paths.  The credential settings of the component differ from
    those of the mount in the SAS key and, after a change to "sas", in the mode only.
    A further change never makes the component panic. *)
Theorem connection_current m az :
  az_reachable m az →
  az_ok m az ∧
  (∀ d name, az_storage az = ConnLake d → dl_path d name = blob_name (bb d) name) ∧
  (∀ (cf : ConfigFile) conf, ∃ az', OnConfigChange conf az = Ret (tt, az')).
Proof.
  intros Hr%az_reachable_ok. split; [done|]. split.
  - intros d name Hd. destruct Hr as (_ & _ & _ & Hs). rewrite Hd in Hs. unfold dl_path, blob_name, bb.
    change (sc_prefixPath (dl_Config d)) with (prefixPath (blob_config (dl_Config d))).
    by rewrite (Hs (dl_Config d) (bc_Config (dl_BlockBlob d))) by (simpl; set_solver).
  - intros cf conf. destruct (OnConfigChange_ok m conf az Hr) as (az' & Hrun & _). eauto.
Qed.

(** C22: A change of the configuration file replaces the key and the four settings that
    UpdateConfig copies all together or not at all.  Either the SAS key is that of the
    file (when its mode is "sas"; else as before), a SAS connection uses it, and all
    settings records of the connection have the new block size, concurrency, tier and
    access modifiers and are otherwise as before; or key and connection are those before
    the change, also when the new key was already in use by one of the two APIs of a
    data lake account when it was refused.  In both cases the component's own settings
    take over the dynamic settings of the file, and the connection keeps the block size
    and concurrency it downloads with. *)
Theorem change_is_atomic `{!ConfigFile} m opt az :
  az_reachable m az →
  ∃ az', OnConfigChange (inl opt) az = Ret (tt, az') ∧ conn_ok m (sas_key az') (az_storage az') ∧
    (∃ a, az_stConfig az' = set_authConfig a (dynamic_settings opt (az_stConfig az))) ∧
    conn_downloads (az_storage az') = conn_downloads (az_storage az) ∧
    ((sas_key az' = key_after opt az ∧
      conn_configs (az_storage az') = update_settings (az_stConfig az') <$> conn_configs (az_storage az)) ∨
     (sas_key az' = sas_key az ∧ az_storage az' = az_storage az)).
Proof.
  intros Hr%az_reachable_ok.
  destruct (OnConfigChange_run m opt az Hr) as (az' & Hrun & (_ & Hok & _) & Hst & Hd & Hcase).
  exists az'. by split_and!.
Qed.
End mounting.

(** ** Concrete mounts *)
Module SetupRuns.
Definition refused {A} : go unit (A + error) := λ n, Ret (inr (Errno EIO), n).
Definition failed : go unit (option error) := λ n, Ret (Some (Errno EIO), n).
(** An address with a percent sign does not parse; tokens are refused. *)
#[export] Instance unit_auth : AuthSDK unit := {
  url_Parse s := if strings_Contains s "%" then Some (Msg "invalid URL escape") else None;
  NewSharedKeyCredential _ _ := None;
  os_Getenv _ := "";
  run_cli _ := refused;
  GetNewTokenFromMSI _ _ _ _ := refused;
  PublicCloud_ActiveDirectoryEndpoint := "https://login.microsoftonline.com/";
  adal_OAuthConfig := unit;
  NewOAuthConfig _ _ := inl tt;
  NewServicePrincipalToken _ _ _ _ := refused;
  NewServicePrincipalTokenFromFederatedTokenCallback _ _ _ _ := refused;
  NewPipeline_ok _ := true
}.
#[export] Instance unit_blobs : BlobSDK unit := {
  BlockBlobMaxStageBlockBytes := 4000 * 2 ^ 20; BlockBlobMaxBlocks := 50000;
  BlockBlobMaxUploadBlobBytes := 5000 * 2 ^ 20; BlobDefaultDownloadBlockSize := 4 * 2 ^ 20;
  sdk_GetBlockList _ := refused; sdk_StageBlock _ _ _ := failed; sdk_CommitBlockList _ _ _ := failed;
  sdk_UploadBuffer _ _ _ _ _ := failed; sdk_Download _ _ _ d := λ n, Ret (d, Some (Errno EIO), n);
  sdk_GetProperties _ := refused; sdk_Delete _ := failed;
  sdk_ListHierarchy _ _ _ := λ n, Ret (inl (mkSegment [] [] None), n);
  sdk_ListFlat _ _ _ := refused; sdk_StartCopyFromURL _ _ _ := refused; sdk_DownloadToFile _ _ _ _ := failed;
  sdk_UploadFile _ _ _ _ _ _ := failed; file_Size _ := refused; getMD5 _ := refused;
  rand_Read _ := λ n, Ret (None, n)
}.
#[export] Instance unit_lake : BfsSDK unit := {
  bfs_CreateDirectory _ _ := failed; bfs_DeleteFile _ := failed; bfs_DeleteDirectory _ _ _ := failed;
  bfs_RenameFile _ _ := failed; bfs_RenameDirectory _ _ := failed; bfs_GetProperties _ := refused;
  bfs_GetAccessControl _ := refused; bfs_SetAccessControl _ _ := failed;
  bfs_ListPaths _ _ _ _ := λ n, Ret (inl None, n)
}.
#[export] Instance unit_returns : AuthReturns unit.
Proof. by constructor. Qed.
#[export] Instance no_file : ConfigFile := {
  config_IsSet _ := false;
  config_UnmarshalBool _ := inl false
}.

(** The names of the two enumerations, without regard to case. *)
Definition auth_Parse (s : string) : AuthType + error :=
  let s := strings_ToLower s in
  if bool_decide (s = "key") then inl KEY else if bool_decide (s = "sas") then inl SAS
  else if bool_decide (s = "spn") then inl SPN else if bool_decide (s = "msi") then inl MSI else inr (Msg "parse").
Definition account_Parse (s : string) : AccountType + error :=
  let s := strings_ToLower s in
  if bool_decide (s = "block") then inl BLOCK else if bool_decide (s = "adls") then inl ADLS else inr (Msg "parse").

(** Options of an account [a] and container [c] with a mode, a key and a block size. *)
Definition options (type mode sas : string) (block : Z) : AzStorageOptions :=
  mkAzStorageOptions type false "a" "" sas "" "" "" "" "" "" "" "" "" mode "c" "/sub" block 0 "" 0 0 0 0 0 "" "" false
    false "" false false false 0 false "" false false "" "" false false.
Definition mounted (opt : AzStorageOptions) : AzStorage Connection :=
  match Configure auth_Parse account_Parse (inl opt) true (NewazstorageComponent, tt) with
  | Ret (_, (az, _)) => az
  | _ => NewazstorageComponent
  end.
Definition changed (opt : AzStorageOptions) (az : AzStorage Connection) : AzStorage Connection :=
  match OnConfigChange (inl opt) az with Ret (_, az) => az | _ => az end.
(** The addresses in use. *)
Definition addresses (az : AzStorage Connection) : list (option string) :=
  match az_storage az with
  | ConnNil => []
  | ConnBlob b => [bc_Service b]
  | ConnLake d => [dl_Service d; bc_Service (dl_BlockBlob d)]
  end.

Lemma options_named type mode sas block : type_named account_Parse (options type mode sas block).
Proof. intros k. unfold account_Parse. by repeat case_bool_decide. Qed.
Lemma mounted_reachable opt :
  type_named account_Parse opt →
  match Configure auth_Parse account_Parse (inl opt) true (NewazstorageComponent, tt) with
  | Ret (None, _) => True | _ => False end →
  az_reachable auth_Parse account_Parse (sc_authConfig (az_stConfig (mounted opt))) (mounted opt).
Proof.
  intros Hn Hr. unfold mounted. destruct (Configure _ _ _ _ _) as [[[e|] [az []]]| |] eqn:E; try done.
  by eapply (reach_configure _ _ no_file opt true tt tt).
Qed.

Lemma configured_mount_witness :
  wp (Configure auth_Parse account_Parse (inl (options "adls" "sas" "k1" 0)) true) (λ err s,
    err = None → settings_ok (az_stConfig s.1) ∧ az_ok (sc_authConfig (az_stConfig s.1)) s.1)
    (NewazstorageComponent, tt) ∧
  match Configure auth_Parse account_Parse (inl (options "adls" "sas" "k1" 0)) true (NewazstorageComponent, tt) with
  | Ret (err, _) => err = None | _ => False end.
Proof.
  split; [|vm_compute; reflexivity]. apply configured_mount_is_well_formed. apply options_named.
Defined.
Definition lake_mount := mounted (options "adls" "sas" "k1" 0).
Lemma connection_current_witness :
  addresses lake_mount = [Some "https://a.dfs.core.windows.net/?k1"; Some "https://a.blob.core.windows.net/?k1"] ∧
  az_ok (sc_authConfig (az_stConfig lake_mount)) lake_mount.
Proof.
  split; [vm_compute; reflexivity|].
  refine (proj1 (connection_current auth_Parse account_Parse _ _ (mounted_reachable _ _ _)));
    [apply options_named|vm_compute; exact I].
Defined.
(** A key that does not parse is given back. *)
Lemma change_is_atomic_witness :
  addresses (changed (options "adls" "sas" "k%" 0) lake_mount) =
    [Some "https://a.dfs.core.windows.net/?k1"; Some "https://a.blob.core.windows.net/?k1"] ∧
  ∃ lake_mount', OnConfigChange (inl (options "adls" "sas" "k2" 8)) lake_mount = Ret (tt, lake_mount') ∧
    conn_ok (sc_authConfig (az_stConfig lake_mount)) (sas_key lake_mount') (az_storage lake_mount').
Proof.
  split; [vm_compute; reflexivity|].
  destruct (change_is_atomic auth_Parse account_Parse _ (options "adls" "sas" "k2" 8) _
    (mounted_reachable (options "adls" "sas" "k1" 0) (options_named _ _ _ _) I)) as (lake_mount' & Hrun & Hok & _). by exists lake_mount'.
Defined.
Example new_key_in_use :
  addresses (changed (options "adls" "sas" "k2" 0) (mounted (options "adls" "sas" "k1" 0))) =
    [Some "https://a.dfs.core.windows.net/?k2"; Some "https://a.blob.core.windows.net/?k2"].
Proof. vm_compute. reflexivity. Qed.

(** The mode is parsed without regard to case, and found from the key when it is not
    given; a change of the file compares it with the lower-case name only, so that the
    new key of such a mount is ignored. *)
Example new_key_ignored :
  addresses (changed (options "block" "SAS" "k2" 0) (mounted (options "block" "SAS" "k1" 0))) =
    [Some "https://a.blob.core.windows.net/?k1"] ∧
  addresses (changed (options "block" "" "k2" 0) (mounted (options "block" "" "k1" 0))) =
    [Some "https://a.blob.core.windows.net/?k1"].
Proof. vm_compute. done. Qed.

(** The block size in megabytes is compared with a limit in bytes: a size above the
    limit is accepted. *)
Example too_large_block_accepted :
  let az := mounted (options "block" "sas" "k1" 5000) in
  az_storage az ≠ ConnNil ∧ BlockBlobMaxStageBlockBytes < sc_blockSize (az_stConfig az).
Proof. vm_compute. done. Qed.

(** A change of the mode to sas is assigned to the settings and does not reach a
    connection that was made with an account key. *)
Example mode_change_not_taken_over :
  let opt mode key sas := mkAzStorageOptions "block" false "a" key sas "" "" "" "" "" "" "" "" "" mode "c" "/sub" 0 0 ""
    0 0 0 0 0 "" "" false false "" false false false 0 false "" false false "" "" false false in
  let az := changed (opt "sas" "" "k2") (mounted (opt "key" "secret" "")) in
  au_AuthMode (sc_authConfig (az_stConfig az)) = SAS ∧ sas_key az = "?k2" ∧
  addresses az = [Some "https://a.blob.core.windows.net/"] ∧
  match az_storage az with ConnBlob b => (λ a, au_AuthMode (aa_config a)) <$> bc_Auth b = Some KEY | _ => False end.
Proof. vm_compute. done. Qed.

(** An account type given by a number is accepted; there is no connection for it, and
    the component panics. *)
Example numeric_type_panics :
  Configure (N := unit) auth_Parse (λ _, inl (AccountOther 7)) (inl (options "7" "sas" "k1" 0)) true (NewazstorageComponent, tt) = Panic.
Proof. vm_compute. reflexivity. Qed.

(** Settings for checks and listings that are read again do not reach the connection. *)
Example settings_not_taken_over :
  let az := mounted (options "block" "sas" "k1" 0) in
  let opt := mkAzStorageOptions "block" false "a" "" "k1" "" "" "" "" "" "" "" "" "" "sas" "c" "/sub" 0 0 "" 0 0 0 0 0 ""
    "" false false "" true true false 0 false "" false false "" "" false false in
  sc_validateMD5 (az_stConfig (changed opt az)) = true ∧
  (sc_validateMD5 <$> conn_configs (az_storage (changed opt az))) = [false].
Proof. vm_compute. done. Qed.
End SetupRuns.
