(* ===== verification/Stream.v ===== *)
(** * The stream component (src/component/stream)

    Files are read and written in blocks kept in memory, without a local
    copy.  Three connections implement it: [rc_] ReadCache (read.go), for
    read-only mounts, with a cache per handle whose blocks are aligned to the
    block size; [rw_] ReadWriteCache (read_write.go), with a cache per handle
    whose blocks are those of the blob; [rf_] ReadWriteFilenameCache
    (read_write_filename.go), with a cache per file name, shared by its handles.

    An operation holds the mutex of the cache it works on, so the operations on
    one cache are sequential here.  The mutex of a block is taken by getBlock
    of ReadCache and released before the operation returns (but for an OpenFile
    that fails, whose handle is not used). *)
From S2P Require Import Prelude GoLib Common HandleMap Internal LRUCache Base64 AzUtils CacheObj.
Open Scope Z_scope.

(** ** Configuration (stream.go)

    The values read by the configuration package, uint64s. *)
Record StreamOptions := mkStreamOptions {
  so_BlockSize : Z;
  so_BufferSize : Z;
  so_CachedObjLimit : Z;
  so_FileCaching : bool;
  so_readOnly : bool;
  so_StreamCacheMb : Z;
  so_MaxBlocksPerFile : Z
}.
Definition mb : Z := 1024 * 1024.

(** [parsed] and [readOnly] are what UnmarshalKey gives, [set_blocks] and
    [set_cache] whether the two version 1 options are set, [free] is
    memory.FreeMemory. *)
Definition Configure (parsed : StreamOptions + error) (readOnly : bool + error)
    (set_max_blocks set_cache_mb : bool) (free : Z) : StreamOptions + error :=
  match parsed with
  | inr e => inr (Msg "config error in stream")
  | inl conf =>
    match readOnly with
    | inr e => inr (Msg "config error in stream")
    | inl ro =>
      let buffer := if set_max_blocks then u64 (so_BlockSize conf * so_MaxBlocksPerFile conf)
                    else so_BufferSize conf in
      let limit :=
        if set_cache_mb && (0 <? buffer) then
          let q := so_StreamCacheMb conf / buffer in if q =? 0 then 1 else q
        else so_CachedObjLimit conf in
      if free <? u64 (u64 (buffer * limit) * mb)
      then inr (Msg "not enough free memory for provided stream configuration")
      else inl (mkStreamOptions (so_BlockSize conf) buffer limit (so_FileCaching conf) ro
                  (so_StreamCacheMb conf) (so_MaxBlocksPerFile conf))
    end
  end.

(** The fields of Stream that do not change after Configure, and those that do
    with the map of ReadWriteFilenameCache. *)
Record StreamConf := mkStreamConf {
  sc_StreamOnly : bool;
  sc_BlockSize : Z;
  sc_BufferSize : Z;
  sc_CachedObjLimit : Z
}.
Record Stream := mkStream {
  CachedObjects : Z;
  fileCache : gmap string ptr
}.

Definition stream_only_conf (conf : StreamOptions) : bool :=
  (so_BufferSize conf <=? 0) || (so_BlockSize conf <=? 0) || (so_CachedObjLimit conf <=? 0).
Definition rc_Configure (conf : StreamOptions) : StreamConf * Stream :=
  (mkStreamConf (stream_only_conf conf) (i64 (i64 (so_BlockSize conf) * mb))
     (u64 (so_BufferSize conf * mb)) (i32 (so_CachedObjLimit conf)), mkStream 0 ∅).
Definition rw_Configure (conf : StreamOptions) : StreamConf * Stream :=
  (mkStreamConf (stream_only_conf conf) (i64 (i64 (so_BlockSize conf) * mb))
     (u64 (so_BufferSize conf * mb)) (i32 (so_CachedObjLimit conf)), mkStream 0 ∅).
Definition rf_Configure (conf : StreamOptions) : StreamConf * Stream :=
  (mkStreamConf (stream_only_conf conf) (i64 (i64 (so_BlockSize conf) * mb))
     (u64 (so_BufferSize conf * mb)) (i32 (so_CachedObjLimit conf)), mkStream 0 ∅).

(** memory.FreeMemory and crypto/rand.Read. *)
Class StreamEnv (N : Type) := {
  memory_FreeMemory : go N Z;
  crypto_rand_Read : Z → go N (option (list byte))
}.

Section stream.
Context {N : Type} `{!Runtime N, !CacheHeap N, !StreamEnv N}.
Context (conf : StreamConf) (next : Component N).
Abbreviation st := (Stream * N)%type.

Definition get_h (hp : ptr) : go st Handle := go_snd (load_handle hp).
(** [handle.CacheObj.f]: the handle and its cache are dereferenced. *)
Definition get_c (hp : ptr) : go st Cache := h ← get_h hp; go_snd (load_cache (CacheObj h)).
Definition upd_c (hp : ptr) (f : Cache → Cache) : go st unit :=
  h ← get_h hp; go_snd (upd_cache (CacheObj h) f).
Definition lru {A} (hp : ptr) (m : go lru_state A) : go st A :=
  h ← get_h hp; go_snd (on_lru (CacheObj h) m).
Definition add_objects (k : Z) : go st unit :=
  go_modify (λ s : st, (mkStream (i32 (CachedObjects s.1 + k)) (fileCache s.1), s.2)).
Definition get_objects : go st Z := go_gets (λ s : st, CachedObjects s.1).
(** [make([]byte, n)] *)
Definition make_go (n : Z) : go st (list byte) :=
  if n <? 0 then go_panic else mret (make_bytes n).
(** [s[k:]] *)
Definition from_go (l : list byte) (k : Z) : go st (list byte) :=
  if (k <? 0) || (Z.of_nat (length l) <? k) then go_panic else mret (drop (Z.to_nat k) l).
Definition not_eof (err : option error) : bool :=
  match err with None | Some Eof => false | _ => true end.

(** A new block id of [len] random bytes. *)
Definition stream_id (len : Z) : go st string :=
  u ← go_snd (crypto_rand_Read len);
  match NewUUIDWithLength len u with
  | Ret id => mret (base64_EncodeToString id)
  | Panic => go_panic
  | Blocked => go_block
  end.

(** ** ReadCache (read.go) *)
Definition rc_unlockBlock (block : ptr) (exists_ : bool) : go st unit :=
  if bool_decide (block = nil_ptr) then go_panic else mret tt.

Definition rc_getBlock (hp : ptr) (offset : Z) : go st (ptr * bool * option error) :=
  '(block, found) ← lru hp (lru_Get offset);
  if negb found then
    h ← get_h hp;
    let blockSize := if hSize h <? i64 (offset + sc_BlockSize conf) then i64 (hSize h - offset)
                     else sc_BlockSize conf in
    data ← make_go blockSize;
    block ← go_snd (new_blk (mkBlock offset (i64 (offset + blockSize)) 0 "" data));
    _ ← lru hp (lru_Put offset block);
    '(data', _, err) ← go_snd (c_ReadInBuffer next (mkReadInBufferOptions hp offset data));
    _ ← go_snd (upd_blk block (block_with_data data'));
    if not_eof err then mret (nil_ptr, false, err) else mret (block, false, None)
  else mret (block, true, None).

Definition rc_OpenFile (options : OpenFileOptions) : go st (ptr * option error) :=
  '(hp, err) ← go_snd (c_OpenFile next options);
  if bool_decide (err ≠ None) then mret (hp, err)
  else
    hp ← (if bool_decide (hp = nil_ptr) then go_snd (new_handle (NewHandle (OpenFile_Name options)))
          else mret hp);
    if negb (sc_StreamOnly conf) then
      _ ← go_snd (CreateCacheObject (i64 (sc_BufferSize conf)) hp);
      objects ← get_objects;
      if sc_CachedObjLimit conf <=? objects then
        _ ← upd_c hp cache_stream_only;
        mret (hp, None)
      else
        _ ← add_objects 1;
        '(block, found, err) ← rc_getBlock hp 0;
        if bool_decide (err ≠ None) then mret (hp, err)
        else
          _ ← rc_unlockBlock block found;
          mret (hp, None)
    else mret (hp, None).

(** The loop of copyCachedBlock: [offset] is the position in the file,
    [dataRead] how much was copied into [data].  A round that copies nothing is
    repeated for ever. *)
Fixpoint rc_copy_loop (fuel : nat) (hp : ptr) (offset : Z) (dataRead : nat) (data : list byte)
    : go st (list byte * Z * option error) :=
  h ← get_h hp;
  if bool_decide (dataRead < length data)%nat && (offset <? hSize h) then
    match fuel with
    | O => go_block
    | S fuel =>
        if sc_BlockSize conf =? 0 then go_panic
        else
          let start := i64 (offset - Z.rem offset (sc_BlockSize conf)) in
          '(block, found, err) ← rc_getBlock hp start;
          if bool_decide (err ≠ None) then
            _ ← rc_unlockBlock block found;
            mret (data, Z.of_nat dataRead, err)
          else
            b ← go_snd (load_blk block);
            src ← from_go (Data b) (i64 (offset - start));
            let '(data', n) := copy_at data dataRead src in
            _ ← rc_unlockBlock block found;
            rc_copy_loop fuel hp (i64 (offset + Z.of_nat n)) (dataRead + n) data'
    end
  else mret (data, Z.of_nat dataRead, None).
Definition rc_copyCachedBlock (hp : ptr) (offset : Z) (data : list byte)
    : go st (list byte * Z * option error) :=
  rc_copy_loop (length data) hp offset 0 data.

Definition rc_ReadInBuffer (options : ReadInBufferOptions) : go st (list byte * Z * option error) :=
  let hp := ReadInBuffer_Handle options in
  only ← (if sc_StreamOnly conf then mret true else c ← get_c hp; mret (StreamOnly c));
  if only : bool then go_snd (c_ReadInBuffer next options)
  else rc_copyCachedBlock hp (ReadInBuffer_Offset options) (ReadInBuffer_Data options).

Definition rc_CloseFile (options : CloseFileOptions) : go st (option error) :=
  let hp := CloseFile_Handle options in
  _ ← go_snd (c_CloseFile next options);
  only ← (if sc_StreamOnly conf then mret true else c ← get_c hp; mret (StreamOnly c));
  if only : bool then mret None
  else
    _ ← lru hp lru_Purge;
    _ ← upd_c hp cache_stream_only;
    _ ← add_objects (-1);
    mret None.

Definition rc_GetAttr (options : GetAttrOptions) : go st (ptr * option error) :=
  go_snd (c_GetAttr next options).
Definition rc_WriteFile (options : WriteFileOptions) : go st (Z * option error) :=
  mret (0, Some (Errno ENOTSUP)).
Definition rc_FlushFile (options : FlushFileOptions) : go st (option error) := mret None.
Definition rc_TruncateFile (options : TruncateFileOptions) : go st (option error) :=
  mret (Some (Errno ENOTSUP)).
Definition rc_RenameFile (options : RenameFileOptions) : go st (option error) :=
  mret (Some (Errno ENOTSUP)).
Definition rc_DeleteFile (options : DeleteFileOptions) : go st (option error) :=
  mret (Some (Errno ENOTSUP)).
Definition rc_DeleteDirectory (options : DeleteDirOptions) : go st (option error) :=
  mret (Some (Errno ENOTSUP)).
Definition rc_RenameDirectory (options : RenameDirOptions) : go st (option error) :=
  mret (Some (Errno ENOTSUP)).
Definition rc_CreateFile (options : CreateFileOptions) : go st (ptr * option error) :=
  mret (nil_ptr, Some (Errno ENOTSUP)).
Definition rc_SyncFile (options : SyncFileOptions) : go st (option error) := mret None.

(** [open] are the handles of the handle map, in the order Range visits them. *)
Definition rc_Stop (open : list ptr) : go st (option error) :=
  _ ← go_range (λ hp,
        h ← get_h hp;
        if bool_decide (CacheObj h = nil_ptr) then mret tt else lru hp lru_Purge) open;
  mret None.

(** ** ReadWriteCache (read_write.go) *)
Definition rw_putBlock (hp block : ptr) : go st (option error) :=
  b ← go_snd (load_blk block);
  ok ← lru hp (lru_Put (StartIndex b) block);
  if ok : bool then mret None
  else
    err ← go_snd (c_FlushFile next (mkFlushFileOptions hp));
    if bool_decide (err ≠ None) then mret err
    else
      b ← go_snd (load_blk block);
      ok ← lru hp (lru_Put (StartIndex b) block);
      if ok : bool then mret None
      else mret (Some (Msg "flushed and still unable to put block in cache")).

Definition rw_getBlock (hp block : ptr) : go st (ptr * bool * option error) :=
  b ← go_snd (load_blk block);
  '(cached_block, found) ← lru hp (lru_Get (StartIndex b));
  if negb found then
    data ← make_go (i64 (EndIndex b - StartIndex b));
    _ ← go_snd (upd_blk block (block_with_data data));
    err ← rw_putBlock hp block;
    if bool_decide (err ≠ None) then mret (block, false, err)
    else
      b ← go_snd (load_blk block);
      if negb (Z.of_nat (length (Data b)) =? 0) then
        '(data', _, err) ← go_snd (c_ReadInBuffer next
                             (mkReadInBufferOptions hp (StartIndex b) (Data b)));
        _ ← go_snd (upd_blk block (block_with_data data'));
        if not_eof err then mret (nil_ptr, false, err) else mret (block, false, None)
      else mret (block, false, None)
  else mret (cached_block, true, None).

Definition rw_purge (hp : ptr) (size : Z) : go st (option error) :=
  _ ← lru hp lru_Purge;
  _ ← (if negb (size =? -1) then go_snd (upd_handle hp (handle_with_size size)) else mret tt);
  _ ← upd_c hp cache_stream_only;
  _ ← add_objects (-1);
  mret None.

(** The block list of a handle: that of an empty file is a small file's. *)
Definition rw_offsets (h : Handle) : go st (option BlockOffsetList * option error) :=
  if hSize h =? 0 then mret (Some (mkBOL [] (Set_ 0 SmallFileFlag) 0 0 0), None)
  else go_snd (c_GetFileBlockOffsets next (mkGetFileBlockOffsetsOptions (hPath h))).

Definition rw_createHandleCache (hp : ptr) : go st (option error) :=
  _ ← go_snd (CreateCacheObject (i64 (sc_BufferSize conf)) hp);
  objects ← get_objects;
  if sc_CachedObjLimit conf <=? objects then
    _ ← upd_c hp cache_stream_only;
    mret None
  else
    h ← get_h hp;
    '(offsets, err) ← rw_offsets h;
    if bool_decide (err ≠ None) then mret err
    else
      bol ← go_deref offsets;
      h ← get_h hp;
      _ ← go_snd (set_bol (CacheObj h) bol);
      if SmallFile bol then
        free ← go_snd memory_FreeMemory;
        if free <? u64 (hSize h) then
          _ ← upd_c hp cache_stream_only;
          mret None
        else
          block ← go_snd (new_blk (mkBlock 0 (hSize h) 0 "" []));
          '(block, _, err) ← rw_getBlock hp block;
          if bool_decide (err ≠ None) then mret err
          else
            id ← stream_id 16;
            _ ← go_snd (upd_blk block (block_with_id id));
            _ ← upd_c hp (λ c, cache_with_bol (cache_list c ++ [block])
                   (Clear (cache_flags c) SmallFileFlag) (GetIdLength id)
                   (cache_size c) (cache_mtime c) c);
            _ ← add_objects 1;
            mret None
      else
        _ ← add_objects 1;
        mret None.

(** [handle.CacheObj.FindBlocks]: the addresses of the blocks found. *)
Definition find_blocks (hp : ptr) (offset len : Z) : go st (list ptr * bool) :=
  c ← get_c hp;
  n ← go_gets snd;
  bol ← go_deref (bol_value c n);
  let '(positions, found) := FindBlocks bol offset len in
  ps ← go_deref (mapM (λ i, cache_list c !! i) positions);
  mret (ps, found).

(** The branch of readWriteBlocks that extends the last block; [len] is
    [dataLeft] and [rest] is [data[dataRead:]]. *)
Definition rw_append_last (hp lastp : ptr) (empty : Z) (rest : list byte) (dataRead : nat)
    : go st (Z * option error) :=
  '(_, _, err) ← rw_getBlock hp lastp;
  if bool_decide (err ≠ None) then mret (Z.of_nat dataRead, err)
  else
    lb ← go_snd (load_blk lastp);
    truncated ← (if 0 <? empty then make_go empty else mret []);
    _ ← go_snd (upd_blk lastp (block_with_data (Data lb ++ truncated ++ rest)));
    _ ← lru hp (lru_Resize (StartIndex lb)
                 (i64 (EndIndex lb + Z.of_nat (length rest) + empty)));
    _ ← go_snd (upd_blk lastp (block_set DirtyBlock));
    lb ← go_snd (load_blk lastp);
    _ ← go_snd (upd_handle hp (handle_with_size (EndIndex lb)));
    mret (Z.of_nat (dataRead + length rest), None).

(** The branch that adds a block after the last one. *)
Definition rw_append_block (hp : ptr) (lb : Block) (offset empty : Z) (rest : list byte)
    (dataRead : nat) : go st (Z * option error) :=
  c ← get_c hp;
  id ← stream_id (cache_idlen c);
  let start := EndIndex lb in
  let stop := i64 (EndIndex lb + Z.of_nat (length rest) + empty) in
  data ← make_go (i64 (stop - start));
  let k := i64 (offset - start) in
  _ ← from_go data k;
  let '(data', n) := copy_at data (Z.to_nat k) rest in
  blk ← go_snd (new_blk (block_set DirtyBlock (mkBlock start stop 0 id data')));
  _ ← upd_c hp (λ c, cache_with_list (cache_list c ++ [blk]) c);
  err ← rw_putBlock hp blk;
  if bool_decide (err ≠ None) then mret (Z.of_nat dataRead, err)
  else
    _ ← go_snd (upd_handle hp (handle_with_size stop));
    mret (Z.of_nat (dataRead + n), None).

(** The loop of readWriteBlocks: [blks] is [blocks[blk_index:]], past its end
    the index is out of range.  The buffer is returned with the bytes read. *)
Fixpoint rw_loop (hp lastp : ptr) (blks : list ptr) (offset : Z) (dataRead : nat)
    (data : list byte) (write : bool) : go st (list byte * Z * option error) :=
  let rest := drop dataRead data in
  if decide (0 < length rest)%nat then
    lb ← go_snd (load_blk lastp);
    if offset <? EndIndex lb then
      match blks with
      | [] => go_panic
      | bp :: blks =>
          '(block, _, err) ← rw_getBlock hp bp;
          if bool_decide (err ≠ None) then mret (data, Z.of_nat dataRead, err)
          else
            b ← go_snd (load_blk block);
            b0 ← go_snd (load_blk bp);
            let k := i64 (offset - StartIndex b0) in
            src ← from_go (Data b) k;
            if write then
              let '(bdata, n) := copy_at (Data b) (Z.to_nat k) rest in
              _ ← go_snd (upd_blk block (λ b, block_set DirtyBlock (block_with_data bdata b)));
              rw_loop hp lastp blks (i64 (offset + Z.of_nat n)) (dataRead + n) data write
            else
              let '(data', n) := copy_at data dataRead src in
              rw_loop hp lastp blks (i64 (offset + Z.of_nat n)) (dataRead + n) data' write
      end
    else if write then
      let empty := i64 (offset - EndIndex lb) in
      if (i64 (i64 (EndIndex lb - StartIndex lb) + i64 (empty + Z.of_nat (length rest)))
          <=? sc_BlockSize conf) || (EndIndex lb =? 0) then
        '(n, err) ← rw_append_last hp lastp empty rest dataRead;
        mret (data, n, err)
      else
        '(n, err) ← rw_append_block hp lb offset empty rest dataRead;
        mret (data, n, err)
    else mret (data, Z.of_nat dataRead, None)
  else mret (data, Z.of_nat dataRead, None).

Definition rw_readWriteBlocks (hp : ptr) (offset : Z) (data : list byte) (write : bool)
    : go st (list byte * Z * option error) :=
  '(blks, found) ← find_blocks hp offset (Z.of_nat (length data));
  if negb found && negb write then mret (data, 0, None)
  else
    c ← get_c hp;
    lastp ← go_deref (last (cache_list c));
    rw_loop hp lastp blks offset 0 data write.

Definition rw_CreateFile (options : CreateFileOptions) : go st (ptr * option error) :=
  '(hp, err) ← go_snd (c_CreateFile next options);
  if bool_decide (err ≠ None) then mret (hp, err)
  else if negb (sc_StreamOnly conf) then
    err ← rw_createHandleCache hp;
    mret (hp, err)
  else mret (hp, None).

Definition rw_OpenFile (options : OpenFileOptions) : go st (ptr * option error) :=
  '(hp, err) ← go_snd (c_OpenFile next options);
  if bool_decide (err ≠ None) then mret (hp, err)
  else
    _ ← (if negb (Z.land (OpenFile_Flags options) O_TRUNC =? 0)
         then go_snd (upd_handle hp (handle_with_size 0)) else mret tt);
    if negb (sc_StreamOnly conf) then
      err ← rw_createHandleCache hp;
      mret (hp, err)
    else mret (hp, None).

(** The cache of a handle that is stream only is created if there is room now. *)
Definition rw_retry_cache (hp : ptr) : go st (option error) :=
  if sc_StreamOnly conf then mret None
  else
    c ← get_c hp;
    if StreamOnly c then rw_createHandleCache hp else mret None.
Definition is_stream_only (hp : ptr) : go st bool :=
  if sc_StreamOnly conf then mret true else c ← get_c hp; mret (StreamOnly c).

Definition rw_ReadInBuffer (options : ReadInBufferOptions) : go st (list byte * Z * option error) :=
  let hp := ReadInBuffer_Handle options in
  let data := ReadInBuffer_Data options in
  err ← rw_retry_cache hp;
  if bool_decide (err ≠ None) then mret (data, 0, err)
  else
    only ← is_stream_only hp;
    if only : bool then go_snd (c_ReadInBuffer next options)
    else
      h ← get_h hp;
      if hSize h =? 0 then mret (data, 0, None)
      else rw_readWriteBlocks hp (ReadInBuffer_Offset options) data false.

Definition set_dirty (h : Handle) : Handle := handle_with_flags (Set_ (hFlags h) HandleFlagDirty) h.
Definition clear_dirty (h : Handle) : Handle := handle_with_flags (Clear (hFlags h) HandleFlagDirty) h.

Definition rw_WriteFile (options : WriteFileOptions) : go st (Z * option error) :=
  let hp := WriteFile_Handle options in
  err ← rw_retry_cache hp;
  if bool_decide (err ≠ None) then mret (0, err)
  else
    only ← is_stream_only hp;
    if only : bool then go_snd (c_WriteFile next options)
    else
      '(_, written, err) ← rw_readWriteBlocks hp (WriteFile_Offset options) (WriteFile_Data options) true;
      _ ← go_snd (upd_handle hp set_dirty);
      mret (written, err).

Definition rw_TruncateFile (options : TruncateFileOptions) : go st (option error) :=
  go_snd (c_TruncateFile next options).
Definition rw_RenameFile (options : RenameFileOptions) : go st (option error) :=
  go_snd (c_RenameFile next options).

Definition rw_FlushFile (options : FlushFileOptions) : go st (option error) :=
  let hp := FlushFile_Handle options in
  only ← is_stream_only hp;
  if only : bool then mret None
  else
    h ← get_h hp;
    if handle_Dirty h then
      err ← go_snd (c_FlushFile next options);
      if bool_decide (err ≠ None) then mret err
      else
        _ ← go_snd (upd_handle hp clear_dirty);
        mret None
    else mret None.

Definition rw_CloseFile (options : CloseFileOptions) : go st (option error) :=
  let hp := CloseFile_Handle options in
  err ← rw_FlushFile (mkFlushFileOptions hp);
  if bool_decide (err ≠ None) then mret err
  else
    only ← is_stream_only hp;
    _ ← (if only : bool then mret None else rw_purge hp (-1));
    go_snd (c_CloseFile next options).

Definition rw_DeleteFile (options : DeleteFileOptions) : go st (option error) :=
  go_snd (c_DeleteFile next options).
Definition rw_DeleteDirectory (options : DeleteDirOptions) : go st (option error) :=
  go_snd (c_DeleteDir next options).
Definition rw_RenameDirectory (options : RenameDirOptions) : go st (option error) :=
  go_snd (c_RenameDir next options).
Definition rw_GetAttr (options : GetAttrOptions) : go st (ptr * option error) :=
  go_snd (c_GetAttr next options).
Definition rw_SyncFile (options : SyncFileOptions) : go st (option error) :=
  rw_FlushFile (mkFlushFileOptions (SyncFile_Handle options)).

Definition rw_Stop (open : list ptr) : go st (option error) :=
  _ ← (if sc_StreamOnly conf then mret tt
       else go_range (λ hp,
         h ← get_h hp;
         if bool_decide (CacheObj h = nil_ptr) then mret tt
         else
           c ← get_c hp;
           if StreamOnly c then mret tt else _ ← rw_purge hp (-1); mret tt) open);
  mret None.

(** ** ReadWriteFilenameCache (read_write_filename.go) *)
Definition rf_putBlock (hp buffer block : ptr) : go st (option error) :=
  b ← go_snd (load_blk block);
  ok ← go_snd (on_lru buffer (lru_Put (StartIndex b) block));
  if ok : bool then mret None
  else
    err ← go_snd (c_FlushFile next (mkFlushFileOptions hp));
    if bool_decide (err ≠ None) then mret err
    else
      b ← go_snd (load_blk block);
      ok ← lru hp (lru_Put (StartIndex b) block);
      if ok : bool then mret None
      else mret (Some (Msg "flushed and still unable to put block in cache")).

Definition rf_getBlock (hp block : ptr) : go st (ptr * bool * option error) :=
  b ← go_snd (load_blk block);
  '(cached_block, found) ← lru hp (lru_Get (StartIndex b));
  if negb found then
    data ← make_go (i64 (EndIndex b - StartIndex b));
    _ ← go_snd (upd_blk block (block_with_data data));
    h ← get_h hp;
    err ← rf_putBlock hp (CacheObj h) block;
    if bool_decide (err ≠ None) then mret (block, false, err)
    else
      b ← go_snd (load_blk block);
      if negb (Z.of_nat (length (Data b)) =? 0) then
        '(data', _, err) ← go_snd (c_ReadInBuffer next
                             (mkReadInBufferOptions hp (StartIndex b) (Data b)));
        _ ← go_snd (upd_blk block (block_with_data data'));
        if not_eof err then mret (nil_ptr, false, err) else mret (block, false, None)
      else mret (block, false, None)
  else mret (cached_block, true, None).

Definition set_fileCache (f : gmap string ptr → gmap string ptr) : go st unit :=
  go_modify (λ s : st, (mkStream (CachedObjects s.1) (f (fileCache s.1)), s.2)).
Definition get_fileCache (name : string) : go st (option ptr) :=
  go_gets (λ s : st, fileCache s.1 !! name).

Definition rf_purge (fileName : string) (close : bool) : go st unit :=
  found ← get_fileCache fileName;
  match found with
  | None => mret tt
  | Some buffer =>
      _ ← (if close then go_snd (upd_cache buffer (cache_add_handles (-1))) else mret tt);
      c ← go_snd (load_cache buffer);
      if (HandleCount c <=? 0) || negb close then
        _ ← set_fileCache (delete fileName);
        _ ← go_snd (on_lru buffer lru_Purge);
        _ ← go_snd (upd_cache buffer cache_stream_only);
        add_objects (-1)
      else mret tt
  end.

(** createFileCache of a file that is not cached: the cache of the handle is
    filled in and registered under the name. *)
Definition rf_new_file_cache (hp : ptr) : go st (option error) :=
  _ ← go_snd (CreateCacheObject (i64 (sc_BufferSize conf)) hp);
  objects ← get_objects;
  if sc_CachedObjLimit conf <=? objects then
    _ ← upd_c hp cache_stream_only;
    mret None
  else
    h ← get_h hp;
    '(offsets, err) ← go_snd (c_GetFileBlockOffsets next (mkGetFileBlockOffsetsOptions (hPath h)));
    if bool_decide (err ≠ None) then mret err
    else
      bol ← go_deref offsets;
      h ← get_h hp;
      _ ← go_snd (set_bol (CacheObj h) bol);
      _ ← upd_c hp (cache_with_size (hSize h) (hMtime h));
      let register : go st (option error) :=
        h ← get_h hp;
        _ ← set_fileCache <[hPath h := CacheObj h]>;
        _ ← add_objects 1;
        _ ← upd_c hp (cache_add_handles 1);
        mret None in
      if SmallFile bol then
        free ← go_snd memory_FreeMemory;
        if free <? u64 (hSize h) then
          _ ← upd_c hp cache_stream_only;
          mret None
        else
          block ← go_snd (new_blk (mkBlock 0 (hSize h) 0 "" []));
          '(block, _, err) ← rf_getBlock hp block;
          if bool_decide (err ≠ None) then mret err
          else
            id ← stream_id 16;
            _ ← go_snd (upd_blk block (block_with_id id));
            _ ← upd_c hp (λ c, cache_with_bol (cache_list c ++ [block])
                   (Clear (cache_flags c) SmallFileFlag) (GetIdLength id)
                   (cache_size c) (cache_mtime c) c);
            register
      else register.

Definition rf_createFileCache (hp : ptr) : go st (option error) :=
  h ← get_h hp;
  found ← get_fileCache (hPath h);
  match found with
  | Some buffer =>
      c ← go_snd (load_cache buffer);
      if negb (StreamOnly c) then
        _ ← go_snd (upd_handle hp (handle_with_cache buffer));
        _ ← upd_c hp (cache_add_handles 1);
        mret None
      else rf_new_file_cache hp
  | None => rf_new_file_cache hp
  end.

Definition rf_append_last (hp lastp : ptr) (empty : Z) (rest : list byte) (dataRead : nat)
    : go st (Z * option error) :=
  '(_, _, err) ← rf_getBlock hp lastp;
  if bool_decide (err ≠ None) then mret (Z.of_nat dataRead, err)
  else
    lb ← go_snd (load_blk lastp);
    truncated ← (if 0 <? empty then make_go empty else mret []);
    _ ← go_snd (upd_blk lastp (block_with_data (Data lb ++ truncated ++ rest)));
    _ ← lru hp (lru_Resize (StartIndex lb)
                 (i64 (EndIndex lb + Z.of_nat (length rest) + empty)));
    _ ← go_snd (upd_blk lastp (block_set DirtyBlock));
    lb ← go_snd (load_blk lastp);
    _ ← go_snd (upd_handle hp (handle_with_size (EndIndex lb)));
    now ← go_snd rt_now;
    _ ← upd_c hp (cache_with_size (EndIndex lb) now);
    mret (Z.of_nat (dataRead + length rest), None).

Definition rf_append_block (hp : ptr) (lb : Block) (offset empty : Z) (rest : list byte)
    (dataRead : nat) : go st (Z * option error) :=
  c ← get_c hp;
  id ← stream_id (cache_idlen c);
  let start := EndIndex lb in
  let stop := i64 (EndIndex lb + Z.of_nat (length rest) + empty) in
  data ← make_go (i64 (stop - start));
  let k := i64 (offset - start) in
  _ ← from_go data k;
  let '(data', n) := copy_at data (Z.to_nat k) rest in
  blk ← go_snd (new_blk (block_set DirtyBlock (mkBlock start stop 0 id data')));
  _ ← upd_c hp (λ c, cache_with_list (cache_list c ++ [blk]) c);
  h ← get_h hp;
  err ← rf_putBlock hp (CacheObj h) blk;
  if bool_decide (err ≠ None) then mret (Z.of_nat dataRead, err)
  else
    _ ← go_snd (upd_handle hp (handle_with_size stop));
    now ← go_snd rt_now;
    _ ← upd_c hp (cache_with_size stop now);
    mret (Z.of_nat (dataRead + n), None).

Fixpoint rf_loop (hp lastp : ptr) (blks : list ptr) (offset : Z) (dataRead : nat)
    (data : list byte) (write : bool) : go st (list byte * Z * option error) :=
  let rest := drop dataRead data in
  if decide (0 < length rest)%nat then
    lb ← go_snd (load_blk lastp);
    if offset <? EndIndex lb then
      match blks with
      | [] => go_panic
      | bp :: blks =>
          '(block, _, err) ← rf_getBlock hp bp;
          if bool_decide (err ≠ None) then mret (data, Z.of_nat dataRead, err)
          else
            b ← go_snd (load_blk block);
            b0 ← go_snd (load_blk bp);
            let k := i64 (offset - StartIndex b0) in
            src ← from_go (Data b) k;
            if write then
              let '(bdata, n) := copy_at (Data b) (Z.to_nat k) rest in
              _ ← go_snd (upd_blk block (λ b, block_set DirtyBlock (block_with_data bdata b)));
              rf_loop hp lastp blks (i64 (offset + Z.of_nat n)) (dataRead + n) data write
            else
              let '(data', n) := copy_at data dataRead src in
              rf_loop hp lastp blks (i64 (offset + Z.of_nat n)) (dataRead + n) data' write
      end
    else if write then
      let empty := i64 (offset - EndIndex lb) in
      if (i64 (i64 (EndIndex lb - StartIndex lb) + i64 (empty + Z.of_nat (length rest)))
          <=? sc_BlockSize conf) || (EndIndex lb =? 0) then
        '(n, err) ← rf_append_last hp lastp empty rest dataRead;
        mret (data, n, err)
      else
        '(n, err) ← rf_append_block hp lb offset empty rest dataRead;
        mret (data, n, err)
    else mret (data, Z.of_nat dataRead, None)
  else mret (data, Z.of_nat dataRead, None).

Definition rf_readWriteBlocks (hp : ptr) (offset : Z) (data : list byte) (write : bool)
    : go st (list byte * Z * option error) :=
  '(blks, found) ← find_blocks hp offset (Z.of_nat (length data));
  if negb found && negb write then mret (data, 0, None)
  else
    c ← get_c hp;
    lastp ← go_deref (last (cache_list c));
    rf_loop hp lastp blks offset 0 data write.

(** An error of the next component is logged, then the cache is created for
    the handle it returned. *)
Definition rf_CreateFile (options : CreateFileOptions) : go st (ptr * option error) :=
  '(hp, err) ← go_snd (c_CreateFile next options);
  if negb (sc_StreamOnly conf) then
    err ← rf_createFileCache hp;
    mret (hp, err)
  else mret (hp, err).

Definition rf_OpenFile (options : OpenFileOptions) : go st (ptr * option error) :=
  '(hp, err) ← go_snd (c_OpenFile next options);
  if bool_decide (err ≠ None) then mret (hp, err)
  else if negb (sc_StreamOnly conf) then
    err ← rf_createFileCache hp;
    mret (hp, err)
  else mret (hp, None).

Definition rf_retry_cache (hp : ptr) : go st (option error) :=
  if sc_StreamOnly conf then mret None
  else
    c ← get_c hp;
    if StreamOnly c then rf_createFileCache hp else mret None.

Definition rf_ReadInBuffer (options : ReadInBufferOptions) : go st (list byte * Z * option error) :=
  let hp := ReadInBuffer_Handle options in
  let data := ReadInBuffer_Data options in
  err ← rf_retry_cache hp;
  if bool_decide (err ≠ None) then mret (data, 0, err)
  else
    only ← is_stream_only hp;
    if only : bool then go_snd (c_ReadInBuffer next options)
    else
      c ← get_c hp;
      if cache_size c =? 0 then mret (data, 0, None)
      else rf_readWriteBlocks hp (ReadInBuffer_Offset options) data false.

Definition rf_WriteFile (options : WriteFileOptions) : go st (Z * option error) :=
  let hp := WriteFile_Handle options in
  err ← rf_retry_cache hp;
  if bool_decide (err ≠ None) then mret (0, err)
  else
    only ← is_stream_only hp;
    if only : bool then go_snd (c_WriteFile next options)
    else
      '(_, written, err) ← rf_readWriteBlocks hp (WriteFile_Offset options) (WriteFile_Data options) true;
      _ ← go_snd (upd_handle hp set_dirty);
      mret (written, err).

(** After a successful call of the next component the cache of the file is
    dropped. *)
Definition rf_then_purge (err : option error) (name : string) : go st (option error) :=
  if bool_decide (err ≠ None) then mret err
  else
    _ ← (if negb (sc_StreamOnly conf) then rf_purge name false else mret tt);
    mret None.
Definition rf_TruncateFile (options : TruncateFileOptions) : go st (option error) :=
  err ← go_snd (c_TruncateFile next options);
  rf_then_purge err (TruncateFile_Name options).
Definition rf_RenameFile (options : RenameFileOptions) : go st (option error) :=
  err ← go_snd (c_RenameFile next options);
  rf_then_purge err (RenameFile_Src options).
Definition rf_DeleteFile (options : DeleteFileOptions) : go st (option error) :=
  err ← go_snd (c_DeleteFile next options);
  rf_then_purge err (DeleteFile_Name options).

Definition rf_FlushFile (options : FlushFileOptions) : go st (option error) :=
  let hp := FlushFile_Handle options in
  h ← get_h hp;
  if handle_Dirty h then
    err ← go_snd (c_FlushFile next options);
    if bool_decide (err ≠ None) then mret err
    else
      _ ← go_snd (upd_handle hp clear_dirty);
      mret None
  else mret None.

Definition rf_CloseFile (options : CloseFileOptions) : go st (option error) :=
  let hp := CloseFile_Handle options in
  err ← rf_FlushFile (mkFlushFileOptions hp);
  if bool_decide (err ≠ None) then mret err
  else
    _ ← (if negb (sc_StreamOnly conf) then h ← get_h hp; rf_purge (hPath h) true else mret tt);
    go_snd (c_CloseFile next options).

(** The caches of the files whose name starts with that of the directory. *)
Definition rf_purge_prefix (prefix : string) : go st unit :=
  m ← go_gets (λ s : st, fileCache s.1);
  go_range (λ fileName, if strings_HasPrefix fileName prefix then rf_purge fileName false else mret tt)
    (map_to_list m).*1.
Definition rf_DeleteDirectory (options : DeleteDirOptions) : go st (option error) :=
  _ ← rf_purge_prefix (DeleteDir_Name options);
  go_snd (c_DeleteDir next options).
Definition rf_RenameDirectory (options : RenameDirOptions) : go st (option error) :=
  _ ← rf_purge_prefix (RenameDir_Src options);
  go_snd (c_RenameDir next options).

Definition rf_Stop : go st (option error) :=
  m ← go_gets (λ s : st, fileCache s.1);
  _ ← (if sc_StreamOnly conf then mret tt
       else go_range (λ '(fileName, buffer),
         _ ← set_fileCache (delete fileName);
         _ ← go_snd (on_lru buffer lru_Purge);
         add_objects (-1)) (map_to_list m));
  mret None.

(** The attributes are those of the next component with the time and size of
    the cached file. *)
Definition rf_GetAttr (options : GetAttrOptions) : go st (ptr * option error) :=
  '(attrs, err) ← go_snd (c_GetAttr next options);
  if bool_decide (err ≠ None) then mret (nil_ptr, err)
  else
    found ← get_fileCache (GetAttr_Name options);
    match found with
    | None => mret (attrs, None)
    | Some buffer =>
        c ← go_snd (load_cache buffer);
        a ← go_snd (load_obj attrs);
        _ ← go_snd (store_obj attrs (attr_with_size (cache_mtime c) (cache_size c) a));
        mret (attrs, None)
    end.
Definition rf_SyncFile (options : SyncFileOptions) : go st (option error) :=
  rf_FlushFile (mkFlushFileOptions (SyncFile_Handle options)).
End stream.

(** ** The connection and the component (connection.go, stream.go) *)
Record StreamConnection (S : Type) := mkStreamConnection {
  k_RenameDirectory : RenameDirOptions → go S (option error);
  k_DeleteDirectory : DeleteDirOptions → go S (option error);
  k_RenameFile : RenameFileOptions → go S (option error);
  k_DeleteFile : DeleteFileOptions → go S (option error);
  k_CreateFile : CreateFileOptions → go S (ptr * option error);
  k_ReadInBuffer : ReadInBufferOptions → go S (list byte * Z * option error);
  k_OpenFile : OpenFileOptions → go S (ptr * option error);
  k_WriteFile : WriteFileOptions → go S (Z * option error);
  k_TruncateFile : TruncateFileOptions → go S (option error);
  k_FlushFile : FlushFileOptions → go S (option error);
  k_GetAttr : GetAttrOptions → go S (ptr * option error);
  k_CloseFile : CloseFileOptions → go S (option error);
  k_SyncFile : SyncFileOptions → go S (option error);
  k_Stop : list ptr → go S (option error)
}.
Arguments mkStreamConnection {S}.
Arguments k_RenameDirectory {S}.
Arguments k_DeleteDirectory {S}.
Arguments k_RenameFile {S}.
Arguments k_DeleteFile {S}.
Arguments k_CreateFile {S}.
Arguments k_ReadInBuffer {S}.
Arguments k_OpenFile {S}.
Arguments k_WriteFile {S}.
Arguments k_TruncateFile {S}.
Arguments k_FlushFile {S}.
Arguments k_GetAttr {S}.
Arguments k_CloseFile {S}.
Arguments k_SyncFile {S}.
Arguments k_Stop {S}.

Section component.
Context {N : Type} `{!Runtime N, !CacheHeap N, !StreamEnv N} (next : Component N).
Abbreviation st := (Stream * N)%type.

Definition ReadCache (conf : StreamConf) : StreamConnection st :=
  mkStreamConnection rc_RenameDirectory rc_DeleteDirectory rc_RenameFile rc_DeleteFile
    rc_CreateFile (rc_ReadInBuffer conf next) (rc_OpenFile conf next) rc_WriteFile
    rc_TruncateFile rc_FlushFile (rc_GetAttr next) (rc_CloseFile conf next) rc_SyncFile rc_Stop.
Definition ReadWriteCache (conf : StreamConf) : StreamConnection st :=
  mkStreamConnection (rw_RenameDirectory next) (rw_DeleteDirectory next) (rw_RenameFile next)
    (rw_DeleteFile next) (rw_CreateFile conf next) (rw_ReadInBuffer conf next)
    (rw_OpenFile conf next) (rw_WriteFile conf next) (rw_TruncateFile next)
    (rw_FlushFile conf next) (rw_GetAttr next) (rw_CloseFile conf next)
    (rw_SyncFile conf next) (rw_Stop conf).
Definition ReadWriteFilenameCache (conf : StreamConf) : StreamConnection st :=
  mkStreamConnection (rf_RenameDirectory next) (rf_DeleteDirectory next) (rf_RenameFile conf next)
    (rf_DeleteFile conf next) (rf_CreateFile conf next) (rf_ReadInBuffer conf next)
    (rf_OpenFile conf next) (rf_WriteFile conf next) (rf_TruncateFile conf next)
    (rf_FlushFile next) (rf_GetAttr next) (rf_CloseFile conf next)
    (rf_SyncFile next) (λ _, rf_Stop conf).

(** The connection and its initial state. *)
Definition NewStreamConnection (cfg : StreamOptions) : StreamConnection st * Stream :=
  if so_readOnly cfg then let '(conf, s) := rc_Configure cfg in (ReadCache conf, s)
  else if so_FileCaching cfg then let '(conf, s) := rf_Configure cfg in (ReadWriteFilenameCache conf, s)
  else let '(conf, s) := rw_Configure cfg in (ReadWriteCache conf, s).

(** The operations Stream overrides go to the connection, the others are those
    of BaseComponent. *)
Definition Stream_component (k : StreamConnection st) : Component st :=
  let base {A} (m : go N A) : go st A := go_snd m in
  mkComponent
    (λ o, base (Base_CreateDir (Some next) o)) (k_DeleteDirectory k)
    (λ o, base (Base_IsDirEmpty (Some next) o)) (λ o, base (Base_OpenDir (Some next) o))
    (λ o, base (Base_ReadDir (Some next) o)) (λ o, base (Base_StreamDir (Some next) o))
    (λ o, base (Base_CloseDir (Some next) o)) (k_RenameDirectory k)
    (k_CreateFile k) (k_DeleteFile k) (k_OpenFile k) (k_CloseFile k) (k_RenameFile k)
    (λ o, base (Base_ReadFile (Some next) o)) (k_ReadInBuffer k) (k_WriteFile k)
    (k_TruncateFile k)
    (λ o, base (Base_CopyToFile (Some next) o)) (λ o, base (Base_CopyFromFile (Some next) o))
    (k_SyncFile k) (λ o, base (Base_SyncDir (Some next) o)) (k_FlushFile k)
    (λ o, base (Base_ReleaseFile (Some next) o)) (λ o, base (Base_UnlinkFile (Some next) o))
    (λ o, base (Base_CreateLink (Some next) o)) (λ o, base (Base_ReadLink (Some next) o))
    (k_GetAttr k) (λ o, base (Base_GetFileBlockOffsets (Some next) o))
    (λ o, base (Base_SetAttr (Some next) o)) (λ o, base (Base_Chmod (Some next) o))
    (λ o, base (Base_Chown (Some next) o)) (λ o, base (Base_FileUsed (Some next) o))
    (λ o, base (Base_StatFs (Some next) o)) (λ o, base (Base_GetCommittedBlockList (Some next) o))
    (λ o, base (Base_StageData (Some next) o)) (λ o, base (Base_CommitData (Some next) o)).
End component.
