(* ===== verification/StreamSpec.v ===== *)
(** * What the stream component relies on, and its proof rules

    [StreamStore] and [StreamNext] state what the stream component needs of the next one: what
    its reads return and what a flush of a handle does.  The rules step
    through the accesses to handles, caches and blocks. *)
From S2P Require Import Prelude GoLib Common HandleMap Internal LRUCache AzUtils CacheObj Stream.
Open Scope Z_scope.

(** A file as storage keeps it: its committed blocks, with their ids.  Content
    that was uploaded without blocks, or a file with blocks that were staged and
    not committed, is one chunk with the id "". *)
Abbreviation chunk_list := (list (string * list byte)).
#[export] Instance lookup_fun {A} : Lookup string A (string → option A) := λ k f, f k.
Definition bytes_of (cs : chunk_list) : list byte := concat cs.*2.

(** How many bytes storage reads at [off] into a buffer of [len] bytes. *)
Definition read_count (size off len : Z) : Z := Z.min len (size - off).

(** The blocks that make up a file, as GetFileBlockOffsets gives them. *)
Fixpoint chunk_blocks (start : Z) (cs : chunk_list) : list Block :=
  match cs with
  | [] => []
  | (id, d) :: cs =>
      let stop := start + Z.of_nat (length d) in mkBlock start stop 0 id [] :: chunk_blocks stop cs
  end.

Section spec.
Context {N : Type} `{!Runtime N, !CacheHeap N}.

(** Nothing the stream component sees has changed. *)
Definition same_but (chunks : N → string → option chunk_list) (n n' : N) : Prop :=
  rt_handles n' = rt_handles n ∧ ch_heap n' = ch_heap n ∧ chunks n' = chunks n.

(** [flushed chunks path bs cs n n']: the dirty blocks among [bs] were staged and
    the list was committed (when there is one); [cs] was the file before.  The
    file has the data of the dirty blocks and the old data of the others. *)
Definition piece_of (cs : chunk_list) (b : Block) (p : string * list byte) : Prop :=
  p.1 = Id b ∧ if Dirty b then p.2 = Data b else p ∈ cs.
Definition flushed (chunks : N → string → option chunk_list) (path : string) (bs : list Block)
    (cs : chunk_list) (n' : N) : Prop :=
  if existsb Dirty bs then ∃ cs', chunks n' !! path = Some cs' ∧ Forall2 (piece_of cs) bs cs'
  else chunks n' !! path = Some cs.

(** A block after it was staged. *)
Definition staged_block (b : Block) : Block := if Dirty b then block_clear DirtyBlock b else b.

(** What the next component does with files that exist: opening gives a new handle with the
    size of the file, or fails. *)
Class StreamStore (next : Component N) := {
  chunks : N → string → option chunk_list;
  sn_set_heap h n : chunks (ch_set_heap h n) = chunks n;
  sn_set_handles m n : chunks (rt_set_handles m n) = chunks n;
  sn_open_file options cs n : chunks n !! OpenFile_Name options = Some cs →
    wp (c_OpenFile next options) (λ r n',
    if bool_decide (r.2 = None) then ∃ h, r.1 ≠ nil_ptr ∧ rt_handles n !! r.1 = None ∧
      rt_handles n' = <[r.1 := h]> (rt_handles n) ∧ ch_heap n' = ch_heap n ∧ chunks n' = chunks n ∧
      hPath h = OpenFile_Name options ∧ hSize h = Z.of_nat (length (bytes_of cs))
    else same_but chunks n n') n;
  sn_close hp n : is_Some (rt_handles n !! hp) →
    wp (c_CloseFile next (mkCloseFileOptions hp)) (λ _, same_but chunks n) n;
  (** A read inside the file fills the buffer up to the size of the handle. *)
  sn_read hp h cs off data n :
    rt_handles n !! hp = Some h → chunks n !! hPath h = Some cs → 0 ≤ off ≤ hSize h →
    off + read_count (hSize h) off (Z.of_nat (length data)) ≤ Z.of_nat (length (bytes_of cs)) →
    hSize h < 2 ^ 63 → off + Z.of_nat (length data) < 2 ^ 63 →
    wp (c_ReadInBuffer next (mkReadInBufferOptions hp off data)) (λ r n',
      let k := read_count (hSize h) off (Z.of_nat (length data)) in
      same_but chunks n n' ∧ r.1.2 = k ∧ not_eof r.2 = false ∧
      r.1.1 = slice (bytes_of cs) off (off + k) ++ drop (Z.to_nat k) data) n;
  sn_offsets path cs n :
    chunks n !! path = Some cs → cs ≠ [] → "" ∉ cs.*1 → Z.of_nat (length (bytes_of cs)) < 2 ^ 63 →
    wp (c_GetFileBlockOffsets next (mkGetFileBlockOffsetsOptions path)) (λ r n',
      same_but chunks n n' ∧ r.2 = None ∧ ∃ bol, r.1 = Some bol ∧
      BlockList bol = chunk_blocks 0 cs ∧ SmallFile bol = false ∧
      BlockIdLength bol = from_option (λ ch : string * list byte, GetIdLength ch.1) 0 (head cs)) n;
  (** A flush stages the dirty blocks and commits the block list: it needs data
      in every dirty block and the other blocks to be committed already. *)
  sn_flush hp h cc bs cs n :
    rt_handles n !! hp = Some h → caches n !! CacheObj h = Some cc →
    mapM (λ p, blocks n !! p) (cache_list cc) = Some bs → chunks n !! hPath h = Some cs →
    NoDup cs.*1 → Forall (λ b, Truncated b = false ∧ Removed b = false) bs →
    Forall (λ b, Dirty b = true → Data b ≠ []) bs →
    (existsb Dirty bs = true → Forall (λ b, Dirty b = false → Id b ∈ cs.*1) bs) →
    "" ∉ (Id <$> bs) → NoDup (Id <$> bs) → NoDup (cache_list cc) →
    wp (c_FlushFile next (mkFlushFileOptions hp)) (λ e n',
      e = None ∧ rt_handles n' = rt_handles n ∧ caches n' = caches n ∧
      blocks n' = foldr (λ p m, alter staged_block p m) (blocks n) (cache_list cc) ∧
      flushed chunks (hPath h) bs cs n') n
}.
(** Opening whatever name gives a new handle of an existing file, or fails. *)
Class StreamNext (next : Component N) := {
  sn_store :: StreamStore next;
  sn_open options n : wp (c_OpenFile next options) (λ r n',
    if bool_decide (r.2 = None) then ∃ h cs, r.1 ≠ nil_ptr ∧ rt_handles n !! r.1 = None ∧
      rt_handles n' = <[r.1 := h]> (rt_handles n) ∧ ch_heap n' = ch_heap n ∧ chunks n' = chunks n ∧
      hPath h = OpenFile_Name options ∧ chunks n !! hPath h = Some cs ∧
      hSize h = Z.of_nat (length (bytes_of cs))
    else same_but chunks n n') n
}.
End spec.

(** ** Rules for handles, caches and blocks *)
Section rules.
Context {N : Type} `{!Runtime N, !CacheHeap N, !CacheHeapLaws N}.
Abbreviation st := (Stream * N)%type.

Lemma wp_stream_h hp h s n (Q : Handle → st → Prop) :
  rt_handles n !! hp = Some h → Q h (s, n) → wp (get_h hp) Q (s, n).
Proof. intros Hh HQ. apply wp_snd. unfold wp, load_handle. by rewrite Hh. Qed.

Lemma wp_get_c hp h cc s n (Q : Cache → st → Prop) :
  rt_handles n !! hp = Some h → caches n !! CacheObj h = Some cc → Q cc (s, n) →
  wp (get_c hp) Q (s, n).
Proof.
  intros Hh Hc HQ. apply wp_bind. eapply wp_stream_h; [done|]. apply wp_snd.
  unfold wp, load_cache. by rewrite Hc.
Qed.

Lemma wp_upd_c hp h cc f s n (Q : unit → st → Prop) :
  rt_handles n !! hp = Some h → caches n !! CacheObj h = Some cc →
  Q tt (s, set_caches (<[CacheObj h := f cc]> (caches n)) n) → wp (upd_c hp f) Q (s, n).
Proof.
  intros Hh Hc HQ. apply wp_bind. eapply wp_stream_h; [done|]. apply wp_snd.
  unfold wp, upd_cache. by rewrite Hc.
Qed.

(** The state after an operation of the LRU cache at [cp]. *)
Definition with_lru (cp : ptr) (cc : Cache) (t : lru_state) (n : N) : N :=
  ch_set_heap (<[cp:=cache_with_lru t.1 cc]> (caches n), t.2) n.

Lemma wp_lru {A} hp h cc (m : go lru_state A) s n (Q : A → st → Prop) :
  rt_handles n !! hp = Some h → caches n !! CacheObj h = Some cc →
  wp m (λ a t, Q a (s, with_lru (CacheObj h) cc t n)) (cache_lru cc, blocks n) →
  wp (lru hp m) Q (s, n).
Proof.
  intros Hh Hc HQ. apply wp_bind. eapply wp_stream_h; [done|]. apply wp_snd.
  unfold wp, on_lru in *. rewrite Hc. by destruct (m _) as [[a [l bs]]| |].
Qed.

Lemma wp_load_blk p b s n (Q : Block → st → Prop) :
  blocks n !! p = Some b → Q b (s, n) → wp (go_snd (load_blk p)) Q (s, n).
Proof. intros Hb HQ. apply wp_snd. unfold wp, load_blk. by rewrite Hb. Qed.

Lemma wp_upd_blk p b f s n (Q : unit → st → Prop) :
  blocks n !! p = Some b → Q tt (s, set_blocks (<[p := f b]> (blocks n)) n) →
  wp (go_snd (upd_blk p f)) Q (s, n).
Proof. intros Hb HQ. apply wp_snd. unfold wp, upd_blk. by rewrite Hb. Qed.

Lemma wp_new_blk b s n (Q : ptr → st → Prop) :
  (∀ p, blocks n !! p = None → p ≠ nil_ptr → Q p (s, set_blocks (<[p := b]> (blocks n)) n)) →
  wp (go_snd (new_blk b)) Q (s, n).
Proof. intros HQ. apply wp_snd. apply HQ; [apply fresh_ptr_lookup|apply fresh_ptr_nil]. Qed.

Lemma wp_stream_upd_h hp h f s n (Q : unit → st → Prop) :
  rt_handles n !! hp = Some h → Q tt (s, rt_set_handles (<[hp := f h]> (rt_handles n)) n) →
  wp (go_snd (upd_handle hp f)) Q (s, n).
Proof. intros Hh HQ. apply wp_snd. unfold wp, upd_handle. by rewrite Hh. Qed.

Lemma wp_make_go k s n (Q : list byte → st → Prop) :
  0 ≤ k → Q (make_bytes k) (s, n) → wp (make_go k) Q (s, n).
Proof. intros Hk HQ. unfold make_go. by rewrite (proj2 (Z.ltb_ge _ _)) by lia. Qed.

Lemma wp_from_go l k s n (Q : list byte → st → Prop) :
  0 ≤ k ≤ Z.of_nat (length l) → Q (drop (Z.to_nat k) l) (s, n) → wp (from_go l k) Q (s, n).
Proof.
  intros Hk HQ. unfold from_go. by rewrite (proj2 (Z.ltb_ge k 0)), (proj2 (Z.ltb_ge _ k)) by lia.
Qed.

(** What the stores change. *)
Lemma caches_set_caches m n : caches (set_caches m n) = m.
Proof. unfold caches, set_caches. by rewrite ch_get_set. Qed.
Lemma blocks_set_caches m n : blocks (set_caches m n) = blocks n.
Proof. unfold blocks, set_caches. by rewrite ch_get_set. Qed.
Lemma caches_set_blocks m n : caches (set_blocks m n) = caches n.
Proof. unfold caches, set_blocks. by rewrite ch_get_set. Qed.
Lemma blocks_set_blocks m n : blocks (set_blocks m n) = m.
Proof. unfold blocks, set_blocks. by rewrite ch_get_set. Qed.
Lemma caches_with_lru cp cc t n : caches (with_lru cp cc t n) = <[cp:=cache_with_lru t.1 cc]> (caches n).
Proof. unfold caches at 1, with_lru. by rewrite ch_get_set. Qed.
Lemma blocks_with_lru cp cc t n : blocks (with_lru cp cc t n) = t.2.
Proof. unfold blocks, with_lru. by rewrite ch_get_set. Qed.
Lemma handles_with_lru cp cc t n : rt_handles (with_lru cp cc t n) = rt_handles n.
Proof. unfold with_lru. by rewrite ch_handles_set. Qed.
Lemma handles_set_caches m n : rt_handles (set_caches m n) = rt_handles n.
Proof. unfold set_caches. by rewrite ch_handles_set. Qed.
Lemma handles_set_blocks m n : rt_handles (set_blocks m n) = rt_handles n.
Proof. unfold set_blocks. by rewrite ch_handles_set. Qed.
Lemma caches_set_handles m n : caches (rt_set_handles m n) = caches n.
Proof. unfold caches. by rewrite ch_get_set_handles. Qed.
Lemma blocks_set_handles m n : blocks (rt_set_handles m n) = blocks n.
Proof. unfold blocks. by rewrite ch_get_set_handles. Qed.

Context {next : Component N} `{!StreamStore next}.
Lemma chunks_with_lru cp cc t n : chunks (with_lru cp cc t n) = chunks n.
Proof. apply sn_set_heap. Qed.
Lemma chunks_set_caches m n : chunks (set_caches m n) = chunks n.
Proof. apply sn_set_heap. Qed.
Lemma chunks_set_blocks m n : chunks (set_blocks m n) = chunks n.
Proof. apply sn_set_heap. Qed.
End rules.

(** Read back what was stored. *)
Ltac heap :=
  repeat (progress rewrite ?caches_with_lru, ?blocks_with_lru, ?handles_with_lru,
    ?caches_set_caches, ?blocks_set_caches, ?caches_set_blocks, ?blocks_set_blocks,
    ?handles_set_caches, ?handles_set_blocks,
    ?caches_set_handles, ?blocks_set_handles, ?rt_get_set_handles,
    ?chunks_with_lru, ?chunks_set_caches, ?chunks_set_blocks, ?sn_set_handles).

Section create.
Context {N : Type} `{!Runtime N, !CacheHeap N, !CacheHeapLaws N} {next : Component N} `{!StreamStore next}.
Abbreviation st := (Stream * N)%type.

(** The cache that CreateCacheObject makes. *)
Lemma wp_CreateCacheObject capacity hp h s n (Q : unit → st → Prop) :
  rt_handles n !! hp = Some h →
  (∀ cp n', caches n !! cp = None → rt_handles n' = <[hp:=handle_with_cache cp h]> (rt_handles n) →
     caches n' = <[cp:=NewCache capacity]> (caches n) → blocks n' = blocks n → chunks n' = chunks n →
     Q tt (s, n')) →
  wp (go_snd (CreateCacheObject capacity hp)) Q (s, n).
Proof.
  intros Hh HQ. apply wp_snd. unfold CreateCacheObject. apply wp_bind. unfold wp at 1.
  unfold wp, upd_handle. heap. rewrite Hh. simpl.
  eapply HQ; [apply fresh_ptr_lookup|by heap..].
Qed.

End create.

(** Copying in two steps: a prefix of the source first, then what is left. *)
Lemma copy_at_chain {A} (dst : list A) off src1 src :
  (off ≤ length dst)%nat → take (length src1) src = src1 →
  copy_at dst off src =
    let r1 := copy_at dst off src1 in
    let r2 := copy_at r1.1 (off + r1.2) (drop r1.2 src) in (r2.1, (r1.2 + r2.2)%nat).
Proof.
  intros Hoff Hpre. cbn zeta. unfold copy_at at 1.
  pose proof (copy_at_length dst off src1 Hoff) as Hlen1.
  assert (Hl1 : (length src1 ≤ length src)%nat) by (rewrite <-Hpre, length_take; lia).
  set (r1 := copy_at dst off src1) in *. unfold copy_at. cbn [fst snd].
  rewrite Hlen1, length_drop.
  assert (Hn1 : r1.2 = Nat.min (length dst - off) (length src1)) by done.
  assert (Hd1 : r1.1 = (take off dst ++ take r1.2 src) ++ drop (off + r1.2) dst).
  { unfold r1 at 1, copy_at. cbn [fst]. rewrite <-app_assoc. do 2 f_equal. fold r1.
    rewrite <-Hpre, take_take. f_equal. rewrite length_take. lia. }
  set (n1 := r1.2) in *. set (n2 := Nat.min (length dst - (off + n1)) (length src - n1)).
  assert (Hn : Nat.min (length dst - off) (length src) = (n1 + n2)%nat) by lia.
  rewrite Hn, Hd1. f_equal.
  assert (Hl : length (take off dst ++ take n1 src) = (off + n1)%nat)
    by (rewrite length_app, !length_take; lia).
  rewrite take_app_length' by done. rewrite drop_app_ge by lia. rewrite Hl, drop_drop.
  rewrite <-(take_take_drop src n1 n2), <-!app_assoc. do 3 f_equal. f_equal. lia.
Qed.

Lemma copy_at_nothing {A} (dst : list A) off src :
  (length dst ≤ off ∨ length src = 0)%nat → (off ≤ length dst)%nat → copy_at dst off src = (dst, 0%nat).
Proof.
  intros H Hoff. unfold copy_at. replace (Nat.min _ _) with 0%nat by lia.
  by rewrite take_0, app_nil_l, Nat.add_0_r, take_drop.
Qed.

Lemma cache_with_lru_id c : cache_with_lru (cache_lru c) c = c.
Proof. by destruct c. Qed.
Lemma cache_with_lru_twice l l' c : cache_with_lru l (cache_with_lru l' c) = cache_with_lru l c.
Proof. done. Qed.

Section frames.
Implicit Types (m : gmap ptr Block) (l : LRUCache).

(** ** Frames: the blocks a cache does not own keep their contents *)
Definition frame (own : list ptr) (m m' : gmap ptr Block) : Prop :=
  ∀ p b, m !! p = Some b → p ∉ own → m' !! p = Some b.

Lemma frame_refl own m : frame own m m.
Proof. by intros p b Hp _. Qed.
Lemma frame_insert_own own p b m : p ∈ own ∨ m !! p = None → frame own m (<[p:=b]> m).
Proof.
  intros Hp q c Hq Hn. rewrite lookup_insert_ne; [done|]. intros <-. destruct Hp; [done|congruence].
Qed.
Lemma stream_frame_trans own own' m1 m2 m3 :
  frame own m1 m2 → frame own' m2 m3 → (∀ p, p ∈ own' → p ∈ own ∨ m1 !! p = None) → frame own m1 m3.
Proof.
  intros H1 H2 Hsub p b Hp Hn. apply H2; [by apply H1|]. intros [Hin|Hin]%Hsub; [done|congruence].
Qed.

(** The invariant of an LRU cache only looks at the blocks it holds. *)
Lemma total_ext m m' (ps : list KeyPair) :
  (∀ p, p ∈ value <$> ps → m' !! p = m !! p) → total m' ps = total m ps.
Proof.
  induction ps as [|x ps IH]; intros Hm; simpl; [done|]. rewrite IH.
  - rewrite Hm; [done|]. simpl. apply list_elem_of_here.
  - intros p Hp. apply Hm. simpl. by apply list_elem_of_further.
Qed.
Lemma lru_inv_frame l m m' :
  lru_inv (l, m) → (∀ p, p ∈ value <$> pairs l → m' !! p = m !! p) → lru_inv (l, m').
Proof.
  intros [gl Hok] Hm. rewrite (lru_inv_pairs _ _ Hok : pairs l = _) in Hm. exists gl.
  destruct Hok as [Hl Hwf Hel Hv Ha Ho]. split; simpl in *; try done.
  - rewrite Forall_forall in Ha |- *. intros kp Hkp. rewrite Hm; [by apply Ha|].
    apply list_elem_of_fmap. eauto.
  - rewrite Ho. f_equal. symmetry. by apply total_ext.
Qed.
(** ... and at their sizes. *)
Lemma lru_inv_sizes l m m' :
  lru_inv (l, m) → (∀ p b, p ∈ value <$> pairs l → m !! p = Some b →
    ∃ b', m' !! p = Some b' ∧ block_size b' = block_size b) → lru_inv (l, m').
Proof.
  intros [gl Hok] Hm. rewrite (lru_inv_pairs _ _ Hok : pairs l = _) in Hm. exists gl.
  destruct Hok as [Hl Hwf Hel Hv Ha Ho]. split; simpl in *; try done.
  - rewrite Forall_forall in Ha |- *. intros kp Hkp. destruct (Ha kp Hkp) as [b Hb].
    destruct (Hm (value kp) b) as (b' & Hb' & _); [|done|eauto]. apply list_elem_of_fmap. eauto.
  - rewrite Ho. f_equal. clear -Ha Hm. induction ((GoList.elems gl).*2) as [|kp ps IH]; simpl in *; [done|].
    apply Forall_cons in Ha as [[b Hb] Ha]. rewrite IH; [|done|intros; by apply Hm; [right|]].
    destruct (Hm (value kp) b) as (b' & Hb' & Hsz); [left|done|]. rewrite Hb, Hb'. simpl. lia.
Qed.
(** Storing data, an id or flags in a cached block keeps the invariant. *)
Lemma lru_inv_store l m p b b' :
  lru_inv (l, m) → m !! p = Some b → block_size b' = block_size b → lru_inv (l, <[p:=b']> m).
Proof.
  intros [gl Hok] Hb Hsz. exists gl. destruct Hok as [Hl Hwf Hel Hv Ha Ho]. split; simpl in *; try done.
  - rewrite Forall_forall in Ha |- *. intros kp Hkp. specialize (Ha kp Hkp).
    destruct (decide (value kp = p)) as [->|]; [rewrite lookup_insert_eq; eauto|by rewrite lookup_insert_ne].
  - rewrite Ho. f_equal. clear -Hb Hsz. induction ((GoList.elems gl).*2) as [|kp ps IH]; simpl; [done|].
    rewrite IH. f_equal. destruct (decide (value kp = p)) as [->|]; [|by rewrite lookup_insert_ne].
    by rewrite lookup_insert_eq, Hb.
Qed.
(** A cache with a positive capacity has room or is not empty. *)
Lemma lru_room s : lru_inv s → 0 < Capacity s.1 → Occupied s.1 < Capacity s.1 ∨ pairs s.1 ≠ [].
Proof.
  intros [gl Hok] Hc. rewrite (lru_inv_pairs _ _ Hok). destruct ((GoList.elems gl).*2) eqn:E; [|by right].
  left. rewrite (ok_occupied _ _ Hok), E. done.
Qed.
Lemma pairs_alloc s kp : lru_inv s → kp ∈ pairs s.1 → is_Some (s.2 !! value kp).
Proof.
  intros [gl Hok]. rewrite (lru_inv_pairs _ _ Hok). intros Hin. pose proof (ok_alloc _ _ Hok) as Ha.
  rewrite Forall_forall in Ha. by apply Ha.
Qed.
Lemma pairs_key_inj s k p p' :
  lru_inv s → mkKeyPair k p ∈ pairs s.1 → mkKeyPair k p' ∈ pairs s.1 → p = p'.
Proof.
  intros [gl Hok]. rewrite (lru_inv_pairs _ _ Hok).
  intros ([e kp] & Heq & H1)%list_elem_of_fmap ([e' kp'] & Heq' & H2)%list_elem_of_fmap.
  simpl in *; subst kp kp'.
  assert (He : Elements s.1 !! k = Some e) by (apply (ok_elements _ _ Hok); eauto).
  assert (He' : Elements s.1 !! k = Some e') by (apply (ok_elements _ _ Hok); eauto).
  simplify_eq. apply GoListFacts.get_elem in H1, H2; [|apply Hok..]. congruence.
Qed.

Lemma wp_lru_Resize (s : lru_state) k p b e :
  lru_inv s → mkKeyPair k p ∈ pairs s.1 → s.2 !! p = Some b →
  wp (lru_Resize k e) (λ _ s', lru_inv s' ∧ pairs s'.1 = pairs s.1 ∧ Capacity s'.1 = Capacity s.1 ∧
    s'.2 = <[p := block_with_end e b]> s.2) s.
Proof.
  intros Hinv Hin Hb. pose proof (lru_inv_Resize s k e Hinv) as Hi. destruct Hinv as [l Hok].
  rewrite (lru_inv_pairs _ _ Hok) in Hin. apply list_elem_of_fmap in Hin as ([el kp] & Heq & Hel).
  simpl in Heq. subst kp.
  assert (He : Elements s.1 !! k = Some el) by (apply (ok_elements _ _ Hok); eauto).
  assert (Hg : GoList.get el l = Some (mkKeyPair k p)) by (apply GoListFacts.get_elem; [apply Hok|done]).
  revert Hi. unfold lru_Resize, wp, mbind, go_bind, getKeyPair, the_list, load_block; simpl. rewrite He.
  unfold mbind, go_bind; simpl. rewrite (ok_list _ _ Hok). simpl. rewrite Hg. simpl. rewrite Hb. simpl.
  intros Hi. by split_and!.
Qed.

(** Purge empties the blocks of the cache and touches no other. *)
Lemma wp_lru_Remove_frame own k (s : lru_state) :
  lru_inv s → (∀ p, p ∈ value <$> pairs s.1 → p ∈ own) →
  wp (lru_Remove k) (λ _ s', lru_inv s' ∧ (∀ p, p ∈ value <$> pairs s'.1 → p ∈ own) ∧
    frame own s.2 s'.2) s.
Proof.
  intros [l Hok] Hown. destruct (Elements s.1 !! k) as [e|] eqn:He; cycle 1.
  { unfold lru_Remove. apply wp_bind. unfold wp at 1; simpl. rewrite He. apply wp_ret.
    split_and!; [by exists l|done|apply frame_refl]. }
  destruct (ok_lookup _ _ _ _ Hok He) as (p & b & l1 & l2 & Hg & Hb & Heq).
  rewrite (lru_inv_pairs _ _ Hok), Heq in Hown.
  eapply wp_lru_Remove; [done..|]. intros s' l' Hok' Hel' _ Ht. split; [by exists l'|].
  rewrite (lru_inv_pairs _ _ Hok'), Hel', Ht. split.
  - intros q Hq. apply Hown. rewrite !fmap_app, !fmap_cons, ?elem_of_app, ?elem_of_cons in *. tauto.
  - apply frame_insert_own. left. apply Hown. rewrite !fmap_app, !fmap_cons, elem_of_app.
    right. left.
Qed.
Lemma wp_lru_Purge (s : lru_state) :
  lru_inv s → wp lru_Purge (λ _ s', frame (value <$> pairs s.1) s.2 s'.2) s.
Proof.
  intros Hinv. set (own := value <$> pairs s.1). unfold lru_Purge. apply wp_bind. unfold wp at 1. simpl.
  apply wp_bind. eapply wp_mono.
  - apply (wp_range (λ s', lru_inv s' ∧ (∀ p, p ∈ value <$> pairs s'.1 → p ∈ own) ∧ frame own s.2 s'.2)).
    + intros k s1 _ (Hinv1 & Hown1 & Hf1). eapply wp_mono; [by eapply wp_lru_Remove_frame|].
      intros _ s2 (Hinv2 & Hown2 & Hf2). split_and!; [done|done|].
      eapply stream_frame_trans; [done|done|]. by left.
    + split_and!; [done|done|apply frame_refl].
  - intros _ s' (_ & _ & Hf). done.
Qed.
End frames.
