(* ===== verification/StreamRead.v ===== *)
(** * Reads through ReadCache (src/component/stream/read.go)

    Any run of opens, reads and closes of files on a read-only mount returns
    the bytes of the files; the number of cached handles stays within its
    limit. *)
From S2P Require Import Prelude GoLib Common HandleMap Internal LRUCache AzUtils CacheObj Stream StreamSpec.
Open Scope Z_scope.
#[local] Arguments copy_at : simpl never.

Section read.
Context {N : Type} `{!Runtime N, !CacheHeap N, !CacheHeapLaws N, !StreamEnv N}.
Context (conf : StreamConf) {next : Component N} `{!StreamNext next}.
Abbreviation st := (Stream * N)%type.
Context (Hbs : 0 < sc_BlockSize conf < 2 ^ 62).

(** The block of a file that starts at [k]. *)
Definition block_at (c : list byte) (k : Z) : list byte :=
  slice c k (Z.min (k + sc_BlockSize conf) (Z.of_nat (length c))).

(** Every cached block holds the bytes of the file at its offset. *)
Record cached_ok (c : list byte) (cc : Cache) (m : gmap ptr Block) : Prop := mkCachedOk {
  co_inv : lru_inv (cache_lru cc, m);
  co_capacity : 0 < Capacity (cache_lru cc);
  co_blocks kp : kp ∈ pairs (cache_lru cc) → value kp ≠ nil_ptr ∧
    ∃ b, m !! value kp = Some b ∧ Dirty b = false ∧ Data b = block_at c (key kp)
}.
Definition owned (cc : Cache) : list ptr := value <$> pairs (cache_lru cc).

(** What getBlock may change: its own cache, and blocks it owns or makes. *)
Definition steps_cache (cp : ptr) (cc cc' : Cache) (n n' : N) : Prop :=
  rt_handles n' = rt_handles n ∧ chunks n' = chunks n ∧ caches n' = <[cp:=cc']> (caches n) ∧
  StreamOnly cc' = StreamOnly cc ∧ frame (owned cc) (blocks n) (blocks n') ∧
  (∀ p, p ∈ owned cc' → p ∈ owned cc ∨ blocks n !! p = None).

Lemma cached_ok_frame c cc m m' :
  cached_ok c cc m → (∀ p, p ∈ owned cc → m' !! p = m !! p) → cached_ok c cc m'.
Proof.
  intros [Hinv Hcap Hbl] Hm. split; [by eapply lru_inv_frame|done|].
  intros kp Hkp. rewrite Hm; [by apply Hbl|]. apply list_elem_of_fmap. eauto.
Qed.

(** Get of a cached block. *)
Lemma getBlock_hit c cc m k r1 r2 p l' :
  cached_ok c cc m → pairs (cache_lru cc) = r1 ++ mkKeyPair k p :: r2 →
  lru_inv (l', m) → pairs l' = mkKeyPair k p :: r1 ++ r2 → 0 < Capacity l' →
  cached_ok c (cache_with_lru l' cc) m ∧ (∀ q, q ∈ owned (cache_with_lru l' cc) → q ∈ owned cc) ∧
  p ≠ nil_ptr ∧ ∃ b, m !! p = Some b ∧ Data b = block_at c k.
Proof.
  intros [Hinv Hcap Hbl] Hp Hinv' Hp' Hcap'.
  assert (Hperm : pairs l' ≡ₚ pairs (cache_lru cc)) by (rewrite Hp, Hp'; by rewrite Permutation_middle).
  split; [split; simpl; [done|done|]|split].
  - intros kp. rewrite Hperm. apply Hbl.
  - intros q. unfold owned. simpl. by rewrite Hperm.
  - destruct (Hbl (mkKeyPair k p)) as (Hnil & b & Hb & _ & Hd); [|eauto].
    rewrite Hp. apply elem_of_app. right. left.
Qed.

(** Put of a new block [p] with data [b], before it is read. *)
Lemma getBlock_put c cc m k p b r t' :
  cached_ok c cc m → m !! p = None → Dirty b = false → p ≠ nil_ptr →
  lru_inv t' → Capacity t'.1 = Capacity (cache_lru cc) →
  put_result k p (cache_lru cc, <[p:=b]> m) r t' →
  frame (owned cc) m t'.2 ∧ t'.2 !! p = Some b ∧
  (∀ q, q ∈ value <$> pairs t'.1 → q ∈ owned cc ∨ q = p) ∧
  ∀ d, d = block_at c k → cached_ok c (cache_with_lru t'.1 cc) (<[p:=block_with_data d b]> t'.2).
Proof.
  intros [Hinv Hcap Hbl] Hp Hd Hnil Hinv' Hcap' Hput.
  assert (Hno : ∀ kp, kp ∈ pairs (cache_lru cc) → value kp ≠ p).
  { intros kp Hkp <-. destruct (Hbl kp Hkp) as (_ & b' & Hb' & _). congruence. }
  assert (Hstore : ∀ d, t'.2 !! p = Some b → lru_inv (t'.1, <[p:=block_with_data d b]> t'.2)).
  { intros d Hb. destruct t'. by eapply lru_inv_store. }
  assert (Hclean : ∀ kp, kp ∈ pairs (cache_lru cc) → dirty_block (<[p:=b]> m) kp = false).
  { intros kp Hkp. unfold dirty_block. rewrite lookup_insert_ne by (by apply not_eq_sym, Hno).
    destruct (Hbl kp Hkp) as (_ & b' & -> & ? & _). done. }
  destruct Hput as [(_ & -> & Ht & Hpairs)|[(Hge & _ & _ & Hall)|(_ & -> & r1 & kv & r2 & Heq & Hpairs & _ & _ & Hemp)]];
    simpl in *.
  - rewrite Ht, lookup_insert_eq in *. split; [by apply frame_insert_own; right|]. split; [done|].
    rewrite Hpairs. split.
    { intros q. simpl. rewrite elem_of_cons. tauto. }
    intros d ->. split; simpl; [by apply Hstore|lia|]. rewrite Hpairs.
    intros kp [->|Hkp]%elem_of_cons; simpl; [by rewrite lookup_insert_eq; eauto|].
    rewrite !lookup_insert_ne by (by apply not_eq_sym, Hno). by apply Hbl.
  - (* every cached block is dirty: there is none, and Put had room *)
    exfalso. destruct (pairs (cache_lru cc)) as [|kp ps] eqn:E.
    + destruct (lru_room _ Hinv) as [?|Hne]; [done|simpl in *; lia|by simpl in Hne].
    + apply Forall_cons in Hall as [Hx _]. rewrite Hclean in Hx; [done|left].
  - destruct Hemp as (bv & Hbv & Ht).
    assert (Hkv : kv ∈ pairs (cache_lru cc)) by (rewrite Heq; apply elem_of_app; right; left).
    assert (Hvp : value kv ≠ p) by (by apply Hno).
    assert (Hsub : ∀ x, x ∈ r1 ++ r2 → x ∈ pairs (cache_lru cc)).
    { intros x. rewrite Heq, !elem_of_app, elem_of_cons. tauto. }
    assert (Hb : t'.2 !! p = Some b) by (by rewrite Ht, lookup_insert_ne, lookup_insert_eq).
    split; [|split; [done|split]].
    + rewrite Ht. eapply (stream_frame_trans _ (owned cc)); [by apply frame_insert_own; right| |by intros; left].
      apply frame_insert_own. left. apply list_elem_of_fmap. eauto.
    + rewrite Hpairs. intros q [->|Hq]%elem_of_cons; [by right|]. left.
      apply list_elem_of_fmap in Hq as (x & -> & Hx). apply list_elem_of_fmap. eauto.
    + intros d ->. split; simpl; [by apply Hstore|lia|]. rewrite Hpairs.
      intros kp [->|Hkp]%elem_of_cons; simpl; [by rewrite lookup_insert_eq; eauto|].
      assert (Hne : value kp ≠ value kv).
      { destruct Hinv as [gl Hok]. pose proof (ok_values _ _ Hok) as Hnd. simpl in *.
        rewrite <-(lru_inv_pairs _ _ Hok) in Hnd. simpl in Hnd. rewrite Heq, fmap_app, fmap_cons in Hnd.
        intros Hv. apply NoDup_app in Hnd as (_ & Hdis & [Hn2 _]%NoDup_cons).
        apply elem_of_app in Hkp as [Hk1|Hk2].
        - apply (Hdis (value kp)); [apply list_elem_of_fmap; eauto|]. rewrite Hv. left.
        - apply Hn2. rewrite <-Hv. apply list_elem_of_fmap. eauto. }
      rewrite Ht, !lookup_insert_ne by (done || by apply not_eq_sym, Hno, Hsub). by apply Hbl, Hsub.
Qed.

Lemma wp_rc_getBlock hp h cc cs k s n :
  rt_handles n !! hp = Some h → caches n !! CacheObj h = Some cc →
  chunks n !! hPath h = Some cs → hSize h = Z.of_nat (length (bytes_of cs)) →
  hSize h < 2 ^ 62 → 0 ≤ k ≤ hSize h → cached_ok (bytes_of cs) cc (blocks n) →
  wp (rc_getBlock conf next hp k) (λ r s', ∃ cc' b, s'.1 = s ∧ r.2 = None ∧ r.1.1 ≠ nil_ptr ∧
    steps_cache (CacheObj h) cc cc' n s'.2 ∧ cached_ok (bytes_of cs) cc' (blocks s'.2) ∧
    blocks s'.2 !! r.1.1 = Some b ∧ Data b = block_at (bytes_of cs) k) (s, n).
Proof.
  intros Hh Hc Hcs Hsz Hlt Hk Hok. pose proof (co_inv _ _ _ Hok) as Hinv.
  unfold rc_getBlock. apply wp_bind. eapply wp_lru; [done..|].
  eapply wp_mono; [by apply wp_lru_Get|]. intros [p found] [l1 m1] (Hinv1 & Hcap1 & Hm & _ & Hget).
  simpl in *. subst m1. case_decide as Hin.
  { destruct Hget as (r1 & r2 & Hp & -> & Hp1). simpl in Hp.
    destruct (getBlock_hit _ _ _ _ _ _ _ _ Hok Hp Hinv1 Hp1) as (Hok1 & Hown & Hnil & b & Hb & Hd).
    { rewrite Hcap1. apply Hok. }
    apply wp_ret. exists (cache_with_lru l1 cc), b. cbn [fst snd].
    unfold steps_cache. heap. simpl.
    split_and!; try done; [apply frame_refl|]. intros q Hq. left. by apply Hown. }
  destruct Hget as [[= -> ->] [= ->]]. cbn [negb].
  set (n1 := with_lru _ _ _ _). assert (Hc1 : caches n1 = caches n).
  { unfold n1. heap. simpl. rewrite cache_with_lru_id. by apply insert_id. }
  assert (Hb1 : blocks n1 = blocks n) by (unfold n1; by heap).
  assert (Hh1 : rt_handles n1 = rt_handles n) by (unfold n1; by heap).
  assert (Hs1 : chunks n1 = chunks n) by (unfold n1; by heap).
  clearbody n1. apply wp_bind. eapply wp_stream_h; [by rewrite Hh1|].
  rewrite (i64_small (k + sc_BlockSize conf)) by (unfold is_i64; lia).
  set (size := if _ <? _ then _ else _).
  assert (Hsize : size = Z.min (sc_BlockSize conf) (hSize h - k)).
  { unfold size. destruct (Z.ltb_spec (hSize h) (k + sc_BlockSize conf)); [|lia].
    rewrite i64_small by (unfold is_i64; lia). lia. }
  clearbody size. apply wp_bind, wp_make_go; [lia|]. apply wp_bind, wp_new_blk.
  intros p Hp Hnil. rewrite Hb1 in *. set (b := mkBlock _ _ _ _ _).
  apply wp_bind. eapply wp_lru; [by heap; rewrite Hh1|by heap; rewrite Hc1|].
  heap.
  eapply wp_mono; [apply (wp_lru_Put _ _ _ b)|].
  - eapply lru_inv_frame; [exact Hinv|]. intros q Hq. apply lookup_insert_ne. intros <-.
    apply list_elem_of_fmap in Hq as (kp & -> & Hkp).
    destruct (co_blocks _ _ _ Hok kp Hkp) as (_ & b' & Hb' & _). congruence.
  - done.
  - apply lookup_insert_eq.
  - intros (kp & -> & Hkp)%list_elem_of_fmap.
    destruct (co_blocks _ _ _ Hok kp Hkp) as (_ & b' & Hb' & _). congruence.
  - apply (lru_room (cache_lru cc, blocks n)); [done|]. apply Hok.
  - intros r t' (Hinv' & Hcap' & Hput).
    destruct (getBlock_put _ _ _ _ _ b _ _ Hok Hp eq_refl Hnil Hinv' Hcap' Hput) as (Hfr & Hbp & Hown & Hnew).
    set (n2 := with_lru _ _ _ _).
    assert (Hh2 : rt_handles n2 = rt_handles n) by (unfold n2; by heap).
    assert (Hs2 : chunks n2 = chunks n) by (unfold n2; by heap).
    assert (Hc2 : caches n2 = <[CacheObj h := cache_with_lru t'.1 cc]> (caches n)).
    { unfold n2. heap. by rewrite Hc1. }
    assert (Hb2 : blocks n2 = t'.2) by (unfold n2; by heap).
    clearbody n2. apply wp_bind, wp_snd.
    assert (Hlen : Z.of_nat (length (make_bytes size)) = size) by (rewrite make_bytes_length; lia).
    eapply wp_mono; [apply (sn_read hp h cs k (make_bytes size) n2)|].
    + by rewrite Hh2.
    + by rewrite Hs2.
    + done.
    + rewrite Hlen. unfold read_count. lia.
    + lia.
    + lia.
    + intros [[data' cnt] err] n3 ((Hh3 & Hheap3 & Hs3) & _ & Heof & Hdata). simpl in *.
      assert (Hc3 : caches n3 = caches n2) by (unfold caches; by rewrite Hheap3).
      assert (Hb3 : blocks n3 = blocks n2) by (unfold blocks; by rewrite Hheap3).
      apply wp_bind. eapply wp_upd_blk; [by rewrite Hb3, Hb2|]. rewrite Heof. apply wp_ret.
      assert (Hd : data' = block_at (bytes_of cs) k).
      { rewrite Hdata, Hlen. unfold block_at, read_count. rewrite drop_ge, app_nil_r; [f_equal; lia|].
        rewrite make_bytes_length. lia. }
      exists (cache_with_lru t'.1 cc), (block_with_data data' b). cbn [fst snd].
      unfold steps_cache. heap. rewrite Hb3, Hb2, Hc3, Hc2, Hh3, Hs3.
      rewrite lookup_insert_eq. split_and!; try done.
      * intros q bq Hq Hnq. rewrite lookup_insert_ne; [by apply Hfr|]. congruence.
      * intros q Hq. destruct (Hown q Hq) as [?| ->]; [by left|by right].
      * by apply Hnew.
Qed.

Lemma steps_cache_trans cp cc cc1 cc2 n n1 n2 :
  steps_cache cp cc cc1 n n1 → steps_cache cp cc1 cc2 n1 n2 → steps_cache cp cc cc2 n n2.
Proof.
  intros (Hh1 & Hs1 & Hc1 & Ho1 & Hf1 & Hw1) (Hh2 & Hs2 & Hc2 & Ho2 & Hf2 & Hw2).
  assert (Hnone : ∀ p, blocks n1 !! p = None → p ∈ owned cc ∨ blocks n !! p = None).
  { intros p Hp. destruct (decide (p ∈ owned cc)); [by left|]. right.
    destruct (blocks n !! p) eqn:E; [|done]. rewrite (Hf1 _ _ E) in Hp by done. done. }
  split_and!; [congruence|congruence| |congruence| |].
  - by rewrite Hc2, Hc1, insert_insert_eq.
  - eapply stream_frame_trans; [exact Hf1|exact Hf2|]. intros p Hp. by apply Hw1.
  - intros p Hp. destruct (Hw2 p Hp) as [?|?]; [by apply Hw1|by apply Hnone].
Qed.
Lemma steps_cache_refl cp cc n : caches n !! cp = Some cc → steps_cache cp cc cc n n.
Proof.
  intros Hc. split_and!; try done; [by rewrite insert_id|apply frame_refl|]. by left.
Qed.

(** The loop of copyCachedBlock: every round copies at least a byte. *)
Lemma wp_rc_copy_loop fuel hp h cc cs off dr data s n :
  rt_handles n !! hp = Some h → caches n !! CacheObj h = Some cc →
  chunks n !! hPath h = Some cs → hSize h = Z.of_nat (length (bytes_of cs)) →
  hSize h < 2 ^ 62 → 0 ≤ off → (dr ≤ length data)%nat → (length data - dr ≤ fuel)%nat →
  cached_ok (bytes_of cs) cc (blocks n) →
  wp (rc_copy_loop conf next fuel hp off dr data) (λ r s', ∃ cc',
    let q := copy_at data dr (drop (Z.to_nat off) (bytes_of cs)) in
    r = (q.1, Z.of_nat (dr + q.2), None) ∧ s'.1 = s ∧
    steps_cache (CacheObj h) cc cc' n s'.2 ∧ cached_ok (bytes_of cs) cc' (blocks s'.2)) (s, n).
Proof.
  revert cc off dr data n. induction fuel as [|fuel IH];
    intros cc off dr data n Hh Hc Hcs Hsz Hlt Hoff Hdr Hfuel Hok; cbn [rc_copy_loop];
    (apply wp_bind; eapply wp_stream_h; [done|]);
    destruct (bool_decide_reflect (dr < length data)%nat) as [Hlt1|Hge1]; try lia;
    (destruct (Z.ltb_spec off (hSize h)) as [Hin|Hout]; cbn [andb]); try lia;
    try (apply wp_ret; exists cc; cbn zeta;
      rewrite (copy_at_nothing data dr) by (rewrite ?length_drop; lia); cbn [fst snd];
      rewrite Nat.add_0_r; split_and!; [done|done|by apply steps_cache_refl|done]).
  destruct (Z.eqb_spec (sc_BlockSize conf) 0) as [|_]; [lia|].
  rewrite Z.rem_mod_nonneg by lia.
  pose proof (Z.mod_pos_bound off (sc_BlockSize conf) ltac:(lia)) as Hmod.
  pose proof (Z.mod_le off (sc_BlockSize conf) ltac:(lia) ltac:(lia)) as Hmod2.
  set (start := i64 (off - off mod sc_BlockSize conf)). assert (Hst : start = off - off mod sc_BlockSize conf).
  { unfold start. apply i64_small. unfold is_i64. lia. }
  clearbody start. apply wp_bind. eapply wp_mono; [apply (wp_rc_getBlock hp h cc cs start); try done; lia|].
  intros [[bp found] err] [s1 n1] (cc1 & b & Hss & Herr & Hnil & Hstep & Hok1 & Hb & Hd). cbn [fst snd] in *. subst s1 err.
  pose proof Hstep as (Hh1 & Hs1 & Hc1 & _).
  apply wp_bind. eapply wp_load_blk; [done|].
  rewrite (i64_small (off - start)) by (unfold is_i64; lia).
  assert (Hblen : Z.of_nat (length (Data b)) = Z.min (sc_BlockSize conf) (hSize h - start)).
  { rewrite Hd. unfold block_at. rewrite slice_length by lia. lia. }
  apply wp_bind, wp_from_go; [lia|].
  set (src := drop _ (Data b)).
  assert (Hsrc : src = slice (bytes_of cs) off (Z.min (start + sc_BlockSize conf) (hSize h))).
  { unfold src. rewrite Hd. unfold block_at, slice. rewrite skipn_firstn_comm, drop_drop.
    f_equal; [lia|f_equal; lia]. }
  assert (Hslen : length src = Z.to_nat (Z.min (start + sc_BlockSize conf) (hSize h) - off)).
  { rewrite Hsrc. apply slice_length; lia. }
  assert (Hpre : take (length src) (drop (Z.to_nat off) (bytes_of cs)) = src).
  { rewrite Hslen, Hsrc. unfold slice. done. }
  pose proof (copy_at_chain data dr src _ Hdr Hpre) as Hchain. cbn zeta in Hchain.
  assert (Hl1 : length (copy_at data dr src).1 = length data) by (apply copy_at_length; lia).
  assert (Hn : (copy_at data dr src).2 = Nat.min (length data - dr) (length src)) by done.
  destruct (copy_at data dr src) as [data1 k]. cbn [fst snd] in *.
  unfold rc_unlockBlock. rewrite bool_decide_false by done.
  apply wp_bind, wp_ret. rewrite (i64_small (off + _)) by (unfold is_i64; lia).
  eapply wp_mono; [apply (IH cc1)|].
  - by rewrite Hh1.
  - rewrite Hc1. apply lookup_insert_eq.
  - by rewrite Hs1.
  - done.
  - done.
  - lia.
  - lia.
  - lia.
  - done.
  - intros r s' (cc2 & -> & Hs' & Hstep2 & Hok2). exists cc2. split_and!; [|done| |done].
    + replace (Z.to_nat (off + Z.of_nat k)) with (Z.to_nat off + k)%nat by lia.
      rewrite <-drop_drop, Hchain. cbn [fst snd]. by rewrite Nat.add_assoc.
    + eapply steps_cache_trans; done.
Qed.

(** ** Open handles

    [open] tells which handles are open and which of them have a cache: the
    others are stream only. *)
Definition obj (n : N) (hp : ptr) : option (Handle * Cache) :=
  h ← rt_handles n !! hp; cc ← caches n !! CacheObj h; Some (h, cc).
Lemma obj_Some n hp h cc :
  obj n hp = Some (h, cc) ↔ rt_handles n !! hp = Some h ∧ caches n !! CacheObj h = Some cc.
Proof.
  unfold obj. destruct (rt_handles n !! hp) as [h'|]; simpl; [|naive_solver].
  destruct (caches n !! CacheObj h') eqn:E; naive_solver.
Qed.

Definition cached_count (open : gmap ptr bool) : Z :=
  Z.of_nat (size (filter (λ x : ptr * bool, x.2 = true) open)).

Record rc_inv (open : gmap ptr bool) (s : st) : Prop := mkRcInv {
  ri_open hp k : open !! hp = Some k → ∃ h cc cs, obj s.2 hp = Some (h, cc) ∧
    chunks s.2 !! hPath h = Some cs ∧ hSize h = Z.of_nat (length (bytes_of cs)) ∧
    StreamOnly cc = negb k ∧ (k = true → cached_ok (bytes_of cs) cc (blocks s.2));
  ri_apart hp1 hp2 h1 h2 cc1 cc2 :
    hp1 ≠ hp2 → is_Some (open !! hp1) → is_Some (open !! hp2) →
    obj s.2 hp1 = Some (h1, cc1) → obj s.2 hp2 = Some (h2, cc2) →
    CacheObj h1 ≠ CacheObj h2 ∧
    (open !! hp1 = Some true → open !! hp2 = Some true → ∀ p, p ∈ owned cc1 → p ∉ owned cc2);
  ri_count : CachedObjects s.1 = cached_count open;
  ri_limit : cached_count open ≤ Z.max 0 (sc_CachedObjLimit conf);
  ri_sizes path cs : chunks s.2 !! path = Some cs → Z.of_nat (length (bytes_of cs)) < 2 ^ 62
}.

(** A step of the cache of one handle keeps the others. *)
Lemma rc_inv_step open s n n' hp h cc cc' cs :
  rc_inv open (s, n) → open !! hp = Some true → obj n hp = Some (h, cc) →
  chunks n !! hPath h = Some cs →
  steps_cache (CacheObj h) cc cc' n n' → cached_ok (bytes_of cs) cc' (blocks n') →
  rc_inv open (s, n').
Proof.
  intros [Hopen Hapart Hcount Hlimit Hsizes] Hhp Hobj Hcs (Hh' & Hs' & Hc' & Ho' & Hf & Hw) Hok'. simpl in *.
  pose proof Hobj as [Hh Hc]%obj_Some.
  assert (Hother : ∀ q hq cq, q ≠ hp → is_Some (open !! q) → obj n' q = Some (hq, cq) → obj n q = Some (hq, cq)).
  { intros q hq cq Hne [k Hq] Hoq. destruct (Hopen q k Hq) as (h0 & c0 & _ & H0 & _).
    pose proof (Hapart q hp h0 h c0 cc Hne ltac:(eauto) ltac:(eauto) H0 Hobj) as [Hd _].
    rewrite obj_Some, Hh', Hc' in Hoq. rewrite obj_Some in H0. destruct Hoq as [Hq1 Hq2], H0 as [H01 H02].
    simplify_eq. rewrite lookup_insert_ne in Hq2 by congruence. by apply obj_Some. }
  assert (Hself : obj n' hp = Some (h, cc')).
  { apply obj_Some. rewrite Hh', Hc'. split; [done|]. by rewrite lookup_insert_eq. }
  split; simpl; try done; [| |by rewrite Hs'].
  - intros q k Hq. destruct (decide (q = hp)) as [->|Hne].
    { simplify_eq. destruct (Hopen hp true Hhp) as (h0 & c0 & cs0 & H0 & Hcs0 & Hsz0 & Hso & _).
      simplify_eq. exists h, cc', cs. rewrite Hs'. split_and!; try done. congruence. }
    destruct (Hopen q k Hq) as (h0 & c0 & cs0 & H0 & Hcs0 & Hsz0 & Hso & Hck).
    exists h0, c0, cs0. rewrite Hs'.
    destruct (Hapart q hp h0 h c0 cc Hne ltac:(eauto) ltac:(eauto) H0 Hobj) as [Hd Hdis].
    split_and!; try done.
    + rewrite obj_Some, Hh', Hc' in *. rewrite lookup_insert_ne by congruence. done.
    + intros ->. specialize (Hck eq_refl). eapply cached_ok_frame; [done|]. intros p Hp.
      assert (Hin : is_Some (blocks n !! p)).
      { apply list_elem_of_fmap in Hp as (kp & -> & Hkp). destruct (co_blocks _ _ _ Hck kp Hkp) as (_ & b & ? & _). eauto. }
      destruct Hin as [b Hb]. rewrite Hb. apply Hf; [done|]. by apply (Hdis Hq Hhp p Hp).
  - intros q1 q2 h1 h2 c1 c2 Hne Hq1 Hq2 H1 H2.
    assert (Hfresh : ∀ q hq cq, q ≠ hp → open !! q = Some true → obj n q = Some (hq, cq) →
      ∀ p, p ∈ owned cq → p ∉ owned cc').
    { intros q hq cq Hqne Hqt Hoq p Hp [Hin|Hnone]%Hw.
      - destruct (Hapart q hp hq h cq cc Hqne ltac:(eauto) ltac:(eauto) Hoq Hobj) as [_ Hdis].
        by apply (Hdis Hqt Hhp p Hp).
      - destruct (Hopen q true Hqt) as (h0 & c0 & cs0 & H0 & _ & _ & _ & Hck). simplify_eq.
        apply list_elem_of_fmap in Hp as (kp & -> & Hkp).
        destruct (co_blocks _ _ _ (Hck eq_refl) kp Hkp) as (_ & b & ? & _). congruence. }
    destruct (decide (q1 = hp)) as [->|Hn1]; [|destruct (decide (q2 = hp)) as [->|Hn2]].
    + simplify_eq. apply (Hother q2) in H2; [|done..].
      destruct (Hapart hp q2 h h2 cc c2 Hne Hq1 Hq2 Hobj H2) as [Hd _]. split; [done|].
      intros _ Ht2 p Hp Hp2. by eapply Hfresh.
    + simplify_eq. apply (Hother q1) in H1; [|done..].
      destruct (Hapart q1 hp h1 h c1 cc Hne Hq1 Hq2 H1 Hobj) as [Hd _]. split; [done|].
      intros Ht1 _ p Hp Hp2. by eapply Hfresh.
    + apply (Hother q1) in H1; [|done..]. apply (Hother q2) in H2; [|done..]. by eapply Hapart.
Qed.

Lemma cached_count_delete (open : gmap ptr bool) hp (k : bool) :
  open !! hp = Some k → cached_count (delete hp open) = cached_count open - (if k then 1 else 0).
Proof.
  intros Hhp. unfold cached_count. rewrite map_filter_delete. destruct k.
  - assert (Hin : filter (λ x : ptr * bool, x.2 = true) open !! hp = Some true)
      by (by apply map_lookup_filter_Some).
    rewrite (map_size_delete_Some _ _ (mk_is_Some _ _ Hin)). pose proof (map_size_ne_0_lookup_2 _ _ (mk_is_Some _ _ Hin)). lia.
  - rewrite delete_id; [lia|]. apply map_lookup_filter_None. right. intros x ? ?. by simplify_eq.
Qed.
Lemma cached_count_insert (open : gmap ptr bool) hp (k : bool) :
  open !! hp = None → cached_count (<[hp:=k]> open) = cached_count open + (if k then 1 else 0).
Proof.
  intros Hnone. unfold cached_count. destruct k.
  - rewrite map_filter_insert_True by done. rewrite map_size_insert_None; [lia|].
    apply map_lookup_filter_None. by left.
  - rewrite map_filter_insert_not'; [lia|done|]. intros y Hy. congruence.
Qed.

Lemma rc_inv_same open s n n' :
  rc_inv open (s, n) → same_but chunks n n' → rc_inv open (s, n').
Proof.
  intros [Hopen Hapart Hcount Hlimit Hsizes] (Hh & Hheap & Hs).
  assert (Hobj : ∀ hp, obj n' hp = obj n hp) by (intros hp; unfold obj, caches; by rewrite Hh, Hheap).
  assert (Hb : blocks n' = blocks n) by (unfold blocks; by rewrite Hheap).
  split; simpl in *; try done; [..|by rewrite Hs].
  - intros hp k. rewrite Hobj, Hs, Hb. apply Hopen.
  - intros hp1 hp2 *. rewrite !Hobj. apply Hapart.
Qed.

(** A handle is closed; its blocks and its cache may have changed. *)
Lemma rc_inv_forget open s s' n n' hp (k : bool) h cc :
  rc_inv open (s, n) → open !! hp = Some k → obj n hp = Some (h, cc) →
  rt_handles n' = rt_handles n → chunks n' = chunks n →
  (∀ cp, cp ≠ CacheObj h → caches n' !! cp = caches n !! cp) →
  frame (if k then owned cc else []) (blocks n) (blocks n') →
  CachedObjects s' = CachedObjects s - (if k then 1 else 0) →
  rc_inv (delete hp open) (s', n').
Proof.
  intros [Hopen Hapart Hcount Hlimit Hsizes] Hhp Hobj Hh' Hs' Hc' Hf Hcnt. simpl in *.
  assert (Hobj' : ∀ q, q ≠ hp → is_Some (open !! q) → obj n' q = obj n q).
  { intros q Hne [kq Hq]. destruct (Hopen q kq Hq) as (h0 & c0 & _ & H0 & _).
    destruct (Hapart q hp h0 h c0 cc Hne ltac:(eauto) ltac:(eauto) H0 Hobj) as [Hd _].
    rewrite H0. rewrite obj_Some in *. rewrite Hh', Hc' by congruence. done. }
  assert (Hsize : cached_count (delete hp open) =
                  cached_count open - (if k then 1 else 0)).
  { by apply cached_count_delete. }
  split; simpl; [..|by rewrite Hs'].
  - intros q kq [Hne Hq]%lookup_delete_Some.
    destruct (Hopen q kq Hq) as (h0 & c0 & cs0 & H0 & Hcs0 & Hsz0 & Hso & Hck).
    exists h0, c0, cs0. rewrite Hs', Hobj' by eauto. split_and!; try done.
    intros ->. eapply cached_ok_frame; [by apply Hck|]. intros p Hp.
    assert (Hin : is_Some (blocks n !! p)).
    { apply list_elem_of_fmap in Hp as (kp & -> & Hkp).
      destruct (co_blocks _ _ _ (Hck eq_refl) kp Hkp) as (_ & b & ? & _). eauto. }
    destruct Hin as [b Hb]. rewrite Hb. apply Hf; [done|].
    destruct (Hapart q hp h0 h c0 cc ltac:(done) ltac:(eauto) ltac:(eauto) H0 Hobj) as [_ Hdis].
    destruct k; [by apply Hdis|apply not_elem_of_nil].
  - intros q1 q2 h1 h2 c1 c2 Hne [k1 [Hn1 Hq1]%lookup_delete_Some] [k2 [Hn2 Hq2]%lookup_delete_Some].
    rewrite !Hobj', !lookup_delete_ne by eauto. intros H1 H2. eapply Hapart; eauto.
  - destruct k; lia.
  - destruct k; lia.
Qed.

(** A new handle with a new, empty cache. *)
Lemma rc_inv_new open s s' n n' hp (k : bool) h cc cs :
  rc_inv open (s, n) → rt_handles n !! hp = None → caches n !! CacheObj h = None →
  rt_handles n' = <[hp:=h]> (rt_handles n) → caches n' = <[CacheObj h:=cc]> (caches n) →
  blocks n' = blocks n → chunks n' = chunks n → chunks n !! hPath h = Some cs →
  hSize h = Z.of_nat (length (bytes_of cs)) → StreamOnly cc = negb k →
  cache_lru cc = NewLRUCache (Capacity (cache_lru cc)) → 0 < Capacity (cache_lru cc) →
  CachedObjects s' = CachedObjects s + (if k then 1 else 0) →
  (k = true → CachedObjects s < sc_CachedObjLimit conf) →
  rc_inv (<[hp:=k]> open) (s', n').
Proof.
  intros [Hopen Hapart Hcount Hlimit Hsizes] Hnew Hnewc Hh' Hc' Hb' Hs' Hcs Hsz Hso Hlru Hcap Hcnt Hlim.
  simpl in *.
  assert (Hno : ∀ q kq, open !! q = Some kq → q ≠ hp).
  { intros q kq Hq ->. destruct (Hopen hp kq Hq) as (? & ? & _ & [? _]%obj_Some & _). congruence. }
  assert (Hobj' : ∀ q, is_Some (open !! q) → obj n' q = obj n q).
  { intros q [kq Hq]. destruct (Hopen q kq Hq) as (h0 & c0 & _ & H0 & _). rewrite H0.
    rewrite obj_Some in *. destruct H0 as [H01 H02]. rewrite Hh', Hc', !lookup_insert_ne; try done.
    - congruence.
    - apply not_eq_sym. by eapply Hno. }
  assert (Hself : obj n' hp = Some (h, cc)).
  { apply obj_Some. by rewrite Hh', Hc', !lookup_insert_eq. }
  assert (Hnil : owned cc = []) by (unfold owned; by rewrite Hlru).
  assert (Hnone : open !! hp = None).
  { destruct (open !! hp) eqn:E; [|done]. by destruct (Hno hp _ E). }
  assert (Hsize : cached_count (<[hp:=k]> open) =
                  cached_count open + (if k then 1 else 0)).
  { by apply cached_count_insert. }
  split; simpl; [..|by rewrite Hs'].
  - intros q kq [[<- <-]|[Hne Hq]]%lookup_insert_Some.
    + exists h, cc, cs. rewrite Hs'. split_and!; try done. intros ->. split; [|done|].
      * rewrite Hlru. eexists. apply lru_ok_new.
      * rewrite Hlru. by intros kp Hkp%not_elem_of_nil.
    + rewrite Hobj', Hb', Hs' by eauto. by apply Hopen.
  - intros q1 q2 h1 h2 c1 c2 Hne Hq1 Hq2.
    destruct (decide (q1 = hp)) as [->|Hn1], (decide (q2 = hp)) as [->|Hn2]; [done|..].
    + rewrite (lookup_insert_ne _ hp q2) in * by done. rewrite Hself, (Hobj' q2) by done.
      intros [= <- <-] H2. split; [|rewrite Hnil; by intros _ _ p Hp%not_elem_of_nil].
      apply obj_Some in H2 as [_ H2]. congruence.
    + rewrite (lookup_insert_ne _ hp q1) in * by done. rewrite Hself, (Hobj' q1) by done.
      intros H1 [= <- <-]. split; [|rewrite Hnil; intros _ _ p _; apply not_elem_of_nil].
      apply obj_Some in H1 as [_ H1]. congruence.
    + rewrite !lookup_insert_ne in * by done. rewrite !Hobj' by done. by apply Hapart.
  - lia.
  - destruct k; [specialize (Hlim eq_refl)|]; lia.
Qed.

(** ** The operations *)
Context (Hcached : sc_StreamOnly conf = false) (Hbuf : 0 < sc_BufferSize conf < 2 ^ 63)
  (Hlim : sc_CachedObjLimit conf < 2 ^ 31).

Lemma wp_rc_ReadInBuffer open s n hp k h cs off data :
  rc_inv open (s, n) → open !! hp = Some k → rt_handles n !! hp = Some h →
  chunks n !! hPath h = Some cs → 0 ≤ off ≤ Z.of_nat (length (bytes_of cs)) →
  off + Z.of_nat (length data) < 2 ^ 63 →
  wp (rc_ReadInBuffer conf next (mkReadInBufferOptions hp off data)) (λ r s',
    let q := copy_at data 0 (drop (Z.to_nat off) (bytes_of cs)) in
    r.1 = (q.1, Z.of_nat q.2) ∧ not_eof r.2 = false ∧ rc_inv open s' ∧
    chunks s'.2 = chunks n) (s, n).
Proof.
  intros Hinv Hhp Hh Hcs Hoff Hsm. destruct (ri_open _ _ Hinv hp k Hhp) as (h0 & cc & cs0 & Hobj & Hcs0 & Hsz & Hso & Hck).
  simpl in Hobj, Hcs0, Hck. pose proof Hobj as [Hh0 Hc]%obj_Some. simplify_eq.
  pose proof (ri_sizes _ _ Hinv _ _ Hcs) as Hlt.
  unfold rc_ReadInBuffer. cbn [ReadInBuffer_Handle]. rewrite Hcached.
  apply wp_bind. apply wp_bind. eapply wp_get_c; [done..|]. apply wp_ret. rewrite Hso.
  destruct k; cbn [negb].
  - eapply wp_mono; [apply (wp_rc_copy_loop (length data) hp h cc cs off 0 data); try done; try lia; by apply Hck|].
    intros r [s1 n1] (cc' & -> & Hs1 & Hstep & Hok). cbn [fst snd] in *. subst s1.
    split_and!; [done|done|by eapply rc_inv_step|]. apply Hstep.
  - apply wp_snd. eapply wp_mono; [apply (sn_read hp h cs off data n); try done|].
    + lia.
    + unfold read_count. lia.
    + lia.
    + intros [[d cnt] e] n' (Hsame & Hcnt & He & Hd). cbn [fst snd] in *.
      split_and!; [|done|by eapply rc_inv_same|apply Hsame].
      rewrite Hd, Hcnt. unfold copy_at. rewrite length_drop. cbn [fst snd]. rewrite Nat.sub_0_r, take_0, app_nil_l.
      unfold read_count, slice.
      assert (Hk : Z.to_nat (Z.min (Z.of_nat (length data)) (hSize h - off)) =
                   Nat.min (length data) (length (bytes_of cs) - Z.to_nat off)) by lia.
      f_equal; [|lia]. f_equal; [f_equal; lia|f_equal; lia].
Qed.

Lemma wp_rc_CloseFile open s n hp k :
  rc_inv open (s, n) → open !! hp = Some k →
  wp (rc_CloseFile conf next (mkCloseFileOptions hp)) (λ r s',
    r = None ∧ rc_inv (delete hp open) s' ∧ chunks s'.2 = chunks n) (s, n).
Proof.
  intros Hinv Hhp. unfold rc_CloseFile. apply wp_bind, wp_snd.
  destruct (ri_open _ _ Hinv hp k Hhp) as (h0 & cc0 & cs0 & [Hh0 _]%obj_Some & _). simpl in Hh0.
  eapply wp_mono; [apply sn_close; by rewrite Hh0|]. intros e n1 Hsame. pose proof Hsame as (_ & _ & Hs1).
  pose proof (rc_inv_same _ _ _ _ Hinv Hsame) as Hinv1.
  destruct (ri_open _ _ Hinv1 hp k Hhp) as (h & cc & cs & Hobj & Hcs & Hsz & Hso & Hck).
  simpl in Hobj, Hcs, Hck. pose proof Hobj as [Hh Hc]%obj_Some.
  cbn [CloseFile_Handle]. rewrite Hcached. apply wp_bind. apply wp_bind.
  eapply wp_get_c; [done..|]. apply wp_ret. rewrite Hso.
  assert (Hcount : 1 ≤ CachedObjects s ∨ k = false).
  { destruct k; [left|by right]. pose proof (ri_count _ _ Hinv1) as Hct. simpl in Hct. rewrite Hct.
    pose proof (cached_count_delete open hp true Hhp). unfold cached_count in *. lia. }
  destruct k; cbn [negb].
  - apply wp_bind. eapply wp_lru; [done..|].
    eapply wp_mono; [apply wp_lru_Purge; by apply Hck|]. intros u t Hfr. simpl in Hfr.
    apply wp_bind. eapply wp_upd_c; [by heap|heap; by rewrite lookup_insert_eq|].
    apply wp_bind. unfold add_objects. unfold wp at 1. apply wp_ret. cbn [fst snd].
    split_and!; [done| |by heap].
    eapply (rc_inv_forget open s _ n1 _ hp true h cc); [done..|by heap|by heap| |by heap|].
    + intros cp Hcp. heap. by rewrite !lookup_insert_ne.
    + simpl. destruct Hcount as [?|?]; [|done]. pose proof (ri_limit _ _ Hinv1) as Hl.
      pose proof (ri_count _ _ Hinv1) as Hct. simpl in Hct. rewrite <-Hct in Hl.
      unfold i32. rewrite Z.mod_small by lia. lia.
  - apply wp_ret. split_and!; [done| |done].
    eapply (rc_inv_forget open s s n1 n1 hp false h cc); try done; [apply frame_refl|lia].
Qed.

Lemma wp_rc_OpenFile open s n options :
  rc_inv open (s, n) →
  wp (rc_OpenFile conf next options) (λ r s', chunks s'.2 = chunks n ∧
    if bool_decide (r.2 = None)
    then rc_inv (<[r.1 := bool_decide (CachedObjects s < sc_CachedObjLimit conf)]> open) s'
    else rc_inv open s') (s, n).
Proof.
  intros Hinv. unfold rc_OpenFile. apply wp_bind, wp_snd.
  eapply wp_mono; [apply (sn_open options n)|]. intros [hp err] n1. cbn [fst snd].
  destruct (bool_decide_reflect (err = None)) as [->|Herr]; cycle 1.
  { intros Hsame. rewrite bool_decide_true by done. apply wp_ret. split; [apply Hsame|].
    cbn [fst snd]. rewrite bool_decide_false by done. by eapply rc_inv_same. }
  intros (h & cs & Hnil & Hnew & Hh1 & Hheap1 & Hs1 & Hpath & Hcs & Hsz). cbn [bool_decide decide_rel].
  assert (Hc1 : caches n1 = caches n) by (unfold caches; by rewrite Hheap1).
  assert (Hb1 : blocks n1 = blocks n) by (unfold blocks; by rewrite Hheap1).
  rewrite (bool_decide_false (None ≠ None)) by tauto.
  rewrite bool_decide_false by done. apply wp_bind, wp_ret. rewrite Hcached. cbn [negb].
  rewrite (i64_small (sc_BufferSize conf)) by (unfold is_i64; lia).
  apply wp_bind. eapply wp_CreateCacheObject; [by rewrite Hh1, lookup_insert_eq|].
  intros cp n2 Hcp Hh2 Hc2 Hb2 Hs2. rewrite Hh1, insert_insert_eq in Hh2. rewrite Hc1, Hb1, Hs1 in *.
  set (h' := handle_with_cache cp h) in *.
  apply wp_bind. unfold get_objects. unfold wp at 1. cbn [go_gets fst].
  destruct (Z.leb_spec (sc_CachedObjLimit conf) (CachedObjects s)) as [Hfull|Hroom].
  - apply wp_bind. eapply (wp_upd_c hp h'); [by rewrite Hh2, lookup_insert_eq|by rewrite Hc2, lookup_insert_eq|].
    apply wp_ret. cbn [fst snd]. heap. split; [congruence|].
    rewrite bool_decide_true by done. rewrite bool_decide_false by lia.
    eapply (rc_inv_new open s s n _ hp false h' (cache_stream_only (NewCache (sc_BufferSize conf))));
      heap; try done; try lia; try congruence; [by rewrite Hc2, insert_insert_eq|simpl; lia].
  - apply wp_bind. unfold add_objects. unfold wp at 1. cbn [go_modify fst snd].
    set (s1 := mkStream _ _).
    assert (Hcnt : CachedObjects s1 = CachedObjects s + 1).
    { unfold s1. simpl. pose proof (ri_count _ _ Hinv) as Hct. simpl in Hct.
      unfold cached_count in Hct. unfold i32. rewrite Z.mod_small by lia. lia. }
    assert (Hinv2 : rc_inv (<[hp:=true]> open) (s1, n2)).
    { eapply (rc_inv_new open s s1 n n2 hp true h' (NewCache (sc_BufferSize conf)) cs); try done; simpl; lia. }
    apply wp_bind. eapply wp_mono; [apply (wp_rc_getBlock hp h' (NewCache (sc_BufferSize conf)) cs 0)|].
    + by rewrite Hh2, lookup_insert_eq.
    + by rewrite Hc2, lookup_insert_eq.
    + by rewrite Hs2.
    + done.
    + simpl. rewrite Hsz. by eapply (ri_sizes _ _ Hinv).
    + simpl. lia.
    + destruct (ri_open _ _ Hinv2 hp true) as (h0 & c0 & cs0 & [H1 H2]%obj_Some & Hcs0 & _ & _ & Hck);
        [by rewrite lookup_insert_eq|]. simpl in *. rewrite Hh2, lookup_insert_eq in H1. simplify_eq.
      rewrite Hc2, lookup_insert_eq in H2. simplify_eq. rewrite Hs2 in Hcs0. simpl in Hcs0. simplify_eq. by apply Hck.
    + intros [[bp found] e] [s2 n3] (cc' & b & Hs3 & He & Hbn & Hstep & Hok & _). cbn [fst snd] in *. subst s2 e.
      rewrite (bool_decide_false (None ≠ None)) by tauto.
      apply wp_bind. unfold rc_unlockBlock. rewrite bool_decide_false by done. apply wp_ret.
      apply wp_ret. cbn [fst snd]. split; [by destruct Hstep as (_ & -> & _)|].
      rewrite bool_decide_true by done. rewrite bool_decide_true by lia.
      eapply (rc_inv_step _ s1 n2 n3 hp h'); [done|by rewrite lookup_insert_eq| | |done|done].
      * apply obj_Some. by rewrite Hh2, Hc2, !lookup_insert_eq.
      * by rewrite Hs2.
Qed.

(** The states reached by opens, reads and closes, with the open handles. *)
Inductive rc_reach : gmap ptr bool → st → Prop :=
  | rc_start n : (∀ path cs, chunks n !! path = Some cs → Z.of_nat (length (bytes_of cs)) < 2 ^ 62) →
      rc_reach ∅ (mkStream 0 ∅, n)
  | rc_opened open s options hp s' : rc_reach open s →
      rc_OpenFile conf next options s = Ret ((hp, None), s') →
      rc_reach (<[hp := bool_decide (CachedObjects s.1 < sc_CachedObjLimit conf)]> open) s'
  | rc_open_failed open s options hp e s' : rc_reach open s →
      rc_OpenFile conf next options s = Ret ((hp, Some e), s') → rc_reach open s'
  | rc_read open s hp h cs off data r s' : rc_reach open s → is_Some (open !! hp) →
      rt_handles s.2 !! hp = Some h → chunks s.2 !! hPath h = Some cs →
      0 ≤ off ≤ Z.of_nat (length (bytes_of cs)) → off + Z.of_nat (length data) < 2 ^ 63 →
      rc_ReadInBuffer conf next (mkReadInBufferOptions hp off data) s = Ret (r, s') →
      rc_reach open s'
  | rc_closed open s hp r s' : rc_reach open s → is_Some (open !! hp) →
      rc_CloseFile conf next (mkCloseFileOptions hp) s = Ret (r, s') →
      rc_reach (delete hp open) s'.

Lemma rc_reach_inv open s : rc_reach open s → rc_inv open s.
Proof.
  intros Hr. induction Hr as [n Hsz|open s options hp s' _ IH Hrun|open s options hp e s' _ IH Hrun
    |open s hp h cs off data r s' _ IH [k Hk] Hh Hcs Hoff Hsm Hrun|open s hp r s' _ IH [k Hk] Hrun].
  - split; simpl; [by intros hp k ?%lookup_empty_Some| |done|change (cached_count ∅) with 0; lia|done].
    by intros hp1 hp2 h1 h2 cc1 cc2 _ [k ?%lookup_empty_Some].
  - destruct s as [s n]. pose proof (wp_rc_OpenFile open s n options IH) as H.
    apply wp_Ret in H as (r & s1 & Hrun' & _ & H). rewrite Hrun in Hrun'.
    injection Hrun' as <- <-. exact H.
  - destruct s as [s n]. pose proof (wp_rc_OpenFile open s n options IH) as H.
    apply wp_Ret in H as (r & s1 & Hrun' & _ & H). rewrite Hrun in Hrun'.
    injection Hrun' as <- <-. exact H.
  - destruct s as [s n]. pose proof (wp_rc_ReadInBuffer open s n hp k h cs off data IH Hk Hh Hcs Hoff Hsm) as H.
    apply wp_Ret in H as (r1 & s1 & Hrun' & _ & _ & H & _). rewrite Hrun in Hrun'.
    by injection Hrun' as <- <-.
  - destruct s as [s n]. pose proof (wp_rc_CloseFile open s n hp k IH Hk) as H.
    apply wp_Ret in H as (r1 & s1 & Hrun' & _ & H & _). rewrite Hrun in Hrun'.
    by injection Hrun' as <- <-.
Qed.


(** The counter of cached handles is the number of open handles that have a
    cache, and never above the configured limit. *)
Theorem rc_cache_limit open s :
  rc_reach open s →
  CachedObjects s.1 = cached_count open ∧ cached_count open ≤ Z.max 0 (sc_CachedObjLimit conf).
Proof. intros Hr%rc_reach_inv. split; apply Hr. Qed.
End read.
