(* ===== verification/StreamWrite.v ===== *)
(** * Reads and writes through ReadWriteCache (src/component/stream/read_write.go)

    The content of an open file is spread over blocks in memory and committed
    blocks in storage.  Reads return that content, writes splice into it, and a
    flush or a close leaves it in storage. *)
From S2P Require Import Prelude GoLib Common HandleMap Internal LRUCache Base64 AzUtils CacheObj Stream StreamSpec.
Open Scope Z_scope.
#[local] Arguments copy_at : simpl never.

(** ** Slices and splices *)
Lemma slice_lookup {A} (l : list A) lo hi k :
  0 ≤ lo → lo ≤ hi →
  slice l lo hi !! k = if decide (Z.of_nat k < hi - lo) then l !! (Z.to_nat lo + k)%nat else None.
Proof.
  intros. unfold slice. case_decide.
  - rewrite lookup_take_lt by lia. by rewrite lookup_drop.
  - apply lookup_take_ge. lia.
Qed.
Lemma slice_app_l {A} (l l' : list A) lo hi :
  0 ≤ lo → lo ≤ hi → hi ≤ Z.of_nat (length l) → slice (l ++ l') lo hi = slice l lo hi.
Proof.
  intros. apply list_eq. intros k. rewrite !slice_lookup by done. case_decide; [|done].
  by rewrite lookup_app_l by lia.
Qed.
(** The slices of a chain of blocks make up the content. *)
Lemma concat_slices {A} (c : list A) start bs :
  0 ≤ start → contiguous start bs → end_of start bs ≤ Z.of_nat (length c) →
  concat ((λ b, slice c (StartIndex b) (EndIndex b)) <$> bs) = slice c start (end_of start bs).
Proof.
  revert start. induction bs as [|b bs IH]; intros start Hs Hc Hend.
  { unfold end_of, slice. simpl. by rewrite Z.sub_diag. }
  destruct Hc as (H1 & H2 & H3). rewrite end_of_cons in *. pose proof (contiguous_le _ _ H3).
  rewrite fmap_cons. cbn [concat]. rewrite (IH (EndIndex b)) by (done || lia). rewrite H1.
  apply slice_app; lia.
Qed.

Lemma splice_lookup (c d : list byte) off k :
  splice c off d !! k =
    if decide (off ≤ k < off + length d)%nat then d !! (k - off)%nat
    else if decide (length c ≤ k < off)%nat then Some zero_byte else c !! k.
Proof.
  unfold splice. repeat case_decide.
  - rewrite lookup_app_r by (rewrite length_take, length_app, length_replicate; lia).
    rewrite length_take, length_app, length_replicate, lookup_app_l by lia. f_equal. lia.
  - rewrite lookup_app_l by (rewrite length_take, length_app, length_replicate; lia).
    rewrite lookup_take_lt by lia. rewrite lookup_app_r by lia. apply lookup_replicate_2. lia.
  - destruct (decide (k < off)%nat).
    + rewrite lookup_app_l by (rewrite length_take, length_app, length_replicate; lia).
      rewrite lookup_take_lt by lia. by rewrite lookup_app_l by lia.
    + rewrite lookup_app_r by (rewrite length_take, length_app, length_replicate; lia).
      rewrite lookup_app_r by (rewrite length_take, length_app, length_replicate; lia).
      rewrite lookup_drop, length_take, length_app, length_replicate. f_equal. lia.
Qed.
Lemma splice_length (c d : list byte) off :
  d ≠ [] → length (splice c off d) = Nat.max (length c) (off + length d).
Proof.
  intros Hd. unfold splice.
  rewrite !length_app, length_take, length_app, length_replicate, length_drop. lia.
Qed.
Lemma splice_length_in (c d : list byte) off :
  (off + length d ≤ length c)%nat → length (splice c off d) = length c.
Proof.
  intros Hd. unfold splice.
  rewrite !length_app, length_take, length_app, length_replicate, length_drop. lia.
Qed.
(** A splice in two steps. *)
Lemma splice_chain (c d : list byte) off k :
  (k ≤ length d)%nat →
  splice (splice c off (take k d)) (off + k) (drop k d) = splice c off d.
Proof.
  intros Hk. destruct (decide (k = 0)%nat) as [->|Hk0].
  { rewrite take_0, drop_0, Nat.add_0_r. apply list_eq. intros i. rewrite !splice_lookup.
    destruct (decide (off ≤ i < off + length d)%nat); [done|].
    assert (Hl : length (splice c off []) = Nat.max (length c) off).
    { unfold splice. simpl. rewrite !length_app, length_take, length_app, length_replicate, length_drop. lia. }
    rewrite Hl. cbn [length]. repeat case_decide; try lia; done. }
  apply list_eq. intros i. rewrite !splice_lookup.
  rewrite (splice_length c (take k d)) by (intros E; apply (f_equal length) in E; rewrite length_take in E; simpl in E; lia).
  rewrite length_take, length_drop, lookup_drop.
  repeat case_decide; try lia; try done.
  - f_equal. lia.
  - by rewrite lookup_take_lt by lia.
Qed.
(** The slices of a splice inside one block. *)
Lemma splice_slice_other (c d : list byte) off lo hi :
  (off + length d ≤ length c)%nat → 0 ≤ lo → lo ≤ hi →
  hi ≤ Z.of_nat off ∨ Z.of_nat (off + length d) ≤ lo →
  slice (splice c off d) lo hi = slice c lo hi.
Proof.
  intros Hin Hlo Hhi Hout. apply list_eq. intros k. rewrite !slice_lookup by done.
  case_decide; [|done]. rewrite splice_lookup. repeat case_decide; try lia; done.
Qed.
Lemma splice_slice_same (c d : list byte) off lo hi :
  (off + length d ≤ length c)%nat → 0 ≤ lo ≤ Z.of_nat off → Z.of_nat (off + length d) ≤ hi →
  hi ≤ Z.of_nat (length c) →
  slice (splice c off d) lo hi = (copy_at (slice c lo hi) (off - Z.to_nat lo) d).1.
Proof.
  intros Hin Hlo Hhi Hc.
  assert (Hsl : length (slice c lo hi) = Z.to_nat (hi - lo)) by (apply slice_length; lia).
  assert (H2 : (copy_at (slice c lo hi) (off - Z.to_nat lo) d).2 = length d).
  { unfold copy_at. cbn [snd]. lia. }
  apply list_eq. intros k. rewrite copy_at_lookup, H2 by lia. rewrite !slice_lookup by lia.
  rewrite splice_lookup. repeat case_decide; try lia; try done.
  f_equal. lia.
Qed.
(** A splice past the end. *)
Lemma splice_append (c d : list byte) off :
  (length c ≤ off)%nat → splice c off d = c ++ replicate (off - length c) zero_byte ++ d.
Proof.
  intros H. unfold splice. rewrite take_ge by (rewrite length_app, length_replicate; lia).
  rewrite (drop_ge c) by lia. by rewrite app_nil_r, <-app_assoc.
Qed.

(** ** FindBlocks on a chain of blocks: the block that holds the offset and
    those after it that start at or before the end *)
Lemma FindBlocks_loop_seq cur m1 m2 pos offset len :
  contiguous cur (m1 ++ m2) → Forall (λ b, StartIndex b ≤ offset + len) m1 →
  match m2 with [] => True | b :: _ => offset + len < StartIndex b end →
  is_i64 (offset + len) →
  FindBlocks_loop (m1 ++ m2) pos cur offset len = seq pos (length m1).
Proof.
  revert cur pos. induction m1 as [|b m1 IH]; intros cur pos Hc Hf Hm Hi.
  - simpl. destruct m2 as [|b m2]; [done|]. simpl. rewrite i64_small by done.
    by rewrite (proj2 (Z.ltb_lt _ _)).
  - destruct Hc as (H1 & H2 & H3). apply Forall_cons in Hf as [Hb Hf]. simpl.
    rewrite i64_small by done. rewrite (proj2 (Z.ltb_ge _ _)) by lia.
    rewrite (proj2 (Z.leb_le (StartIndex b) cur)), (proj2 (Z.ltb_lt cur _)), (proj2 (Z.leb_le cur _)) by lia.
    simpl. by rewrite IH.
Qed.
Lemma FindBlocks_inside bol l1 b l2 offset len :
  BlockList bol = l1 ++ b :: l2 → contiguous 0 (BlockList bol) → holds offset b →
  0 ≤ len → is_i64 (offset + len) →
  ∃ m, (1 ≤ m ≤ S (length l2))%nat ∧ FindBlocks bol offset len = (seq (length l1) m, true) ∧
    (∀ i c, (m ≤ i)%nat → (b :: l2) !! i = Some c → offset + len < StartIndex c).
Proof.
  intros Heq Hc Hh Hlen Hi. unfold FindBlocks.
  rewrite (BinarySearch_split 0 bol l1 b l2) by done. cbn [negb]. rewrite Nat2Z.id, Heq, drop_app_length.
  rewrite Heq in Hc. apply contiguous_app in Hc as [_ Hc]. pose proof Hc as (H1 & H2 & H3).
  destruct (reached_exists _ _ (offset + len) H3) as (m1 & m2 & -> & Hf & Hm).
  exists (S (length m1)). rewrite length_app. split; [lia|]. split.
  - cbn [FindBlocks_loop]. unfold holds in Hh. rewrite i64_small by done.
    rewrite (proj2 (Z.ltb_ge _ _)) by lia.
    rewrite (proj2 (Z.leb_le (StartIndex b) offset)), (proj2 (Z.ltb_lt offset _)), (proj2 (Z.leb_le offset _)) by lia.
    cbn [andb]. rewrite (FindBlocks_loop_seq (EndIndex b)) by done. done.
  - intros i c Hi' Hl. destruct i as [|i]; [lia|]. simpl in Hl.
    rewrite lookup_app_r in Hl by lia. destruct m2 as [|d m2]; [done|].
    destruct (decide (i = length m1)) as [->|Hne].
    { rewrite Nat.sub_diag in Hl. simpl in Hl. by simplify_eq. }
    apply contiguous_app in H3 as [_ H3].
    pose proof (contiguous_lookup_lt _ _ 0 (i - length m1) d c H3 eq_refl Hl ltac:(lia)).
    destruct H3 as (_ & ? & _). lia.
Qed.

(** FindBlocks and contiguity look at the bounds of the blocks only. *)
Definition geo (x b : Block) : Prop :=
  StartIndex x = StartIndex b ∧ EndIndex x = EndIndex b ∧ Id x = Id b.
Lemma contiguous_geo start xs bs : Forall2 geo xs bs → contiguous start bs → contiguous start xs.
Proof.
  intros Hg. revert start. induction Hg as [|x b xs bs (H1 & H2 & _) _ IH]; intros start; simpl; [done|].
  intros (Ha & Hb & Hc). rewrite H1, H2. split_and!; [done|lia|by apply IH].
Qed.

(** ** The invariant of an open file *)
Section write.
Context {N : Type} `{!Runtime N, !CacheHeap N, !CacheHeapLaws N, !StreamEnv N}.
Context (conf : StreamConf) {next : Component N} `{!StreamStore next}.
Abbreviation st := (Stream * N)%type.

(** The source of random bytes is a part of the state that reads and flushes
    do not touch. *)
Class StreamEnvLaws := {
  rand_bytes : N → Z → list byte;
  sr_length n k : 0 ≤ k → Z.of_nat (length (rand_bytes n k)) = k;
  sr_draw k n : wp (crypto_rand_Read k) (λ u n', u = Some (rand_bytes n k) ∧ same_but chunks n n') n;
  sr_free n : wp memory_FreeMemory (λ free n', 0 ≤ free ∧ same_but chunks n n') n;
  sr_set_heap h n : rand_bytes (ch_set_heap h n) = rand_bytes n;
  sr_set_handles m n : rand_bytes (rt_set_handles m n) = rand_bytes n;
  sr_read options n r n' : c_ReadInBuffer next options n = Ret (r, n') → rand_bytes n' = rand_bytes n;
  sr_flush options n r n' : c_FlushFile next options n = Ret (r, n') → rand_bytes n' = rand_bytes n
}.
Context `{!StreamEnvLaws}.

(** The block [p] of the file [c] whose state is [x].  [exempt] is for a block
    whose data are still to be read, [loose] for a new block that is not in the
    cache yet. *)
Record block_ok (c : list byte) (cs : chunk_list) (cc : Cache) (exempt loose : bool) (p : ptr)
    (x : Block) : Prop := mkBlockOk {
  bo_dirty : Dirty x = true → Data x = slice c (StartIndex x) (EndIndex x) ∧ StartIndex x < EndIndex x;
  bo_cached : exempt = false → mkKeyPair (StartIndex x) p ∈ pairs (cache_lru cc) →
    Data x = slice c (StartIndex x) (EndIndex x);
  bo_kept : loose = false → Dirty x = true → mkKeyPair (StartIndex x) p ∈ pairs (cache_lru cc);
  bo_clean : Dirty x = false → StartIndex x < EndIndex x →
    (Id x, slice c (StartIndex x) (EndIndex x)) ∈ cs ∧ EndIndex x ≤ Z.of_nat (length (bytes_of cs)) ∧
    slice (bytes_of cs) (StartIndex x) (EndIndex x) = slice c (StartIndex x) (EndIndex x);
  bo_flags : Truncated x = false ∧ Removed x = false
}.

(** [D] are the blocks of the file with their bounds and ids. *)
Definition block_chain (c : list byte) (D : list (ptr * Block)) : Prop :=
  (contiguous 0 D.*2 ∨ ∃ p b, D = [(p, b)] ∧ StartIndex b = 0 ∧ EndIndex b = 0) ∧
  D ≠ [] ∧ end_of 0 D.*2 = Z.of_nat (length c).

Record file_ok (c : list byte) (hp : ptr) (h : Handle) (cc : Cache) (D : list (ptr * Block))
    (cs : chunk_list) (exempt loose : option ptr) (n : N) : Prop := mkFileOk {
  fo_handle : rt_handles n !! hp = Some h;
  fo_cache : caches n !! CacheObj h = Some cc;
  fo_chunks : chunks n !! hPath h = Some cs;
  fo_stream : StreamOnly cc = false;
  fo_list : cache_list cc = D.*1;
  fo_nodup : NoDup D.*1;
  fo_chain : block_chain c D;
  fo_ids : NoDup (Id <$> D.*2) ∧ "" ∉ (Id <$> D.*2);
  fo_chunk_ids : NoDup cs.*1;
  fo_small : Z.of_nat (length c) < 2 ^ 62;
  fo_idlen : 9 ≤ cache_idlen cc;
  fo_lru : lru_inv (cache_lru cc, blocks n);
  fo_capacity : 0 < Capacity (cache_lru cc);
  fo_pairs kp : kp ∈ pairs (cache_lru cc) → ∃ b, (value kp, b) ∈ D ∧ StartIndex b = key kp;
  fo_blocks p b : (p, b) ∈ D → ∃ x, blocks n !! p = Some x ∧ geo x b ∧
    block_ok c cs cc (bool_decide (exempt = Some p)) (bool_decide (loose = Some p)) p x;
  fo_synced : (∀ p b x, (p, b) ∈ D → blocks n !! p = Some x → Dirty x = false) → bytes_of cs = c
}.

(** The chain of blocks. *)
Lemma chain_bounds c D p b :
  block_chain c D → (p, b) ∈ D →
  0 ≤ StartIndex b ∧ StartIndex b ≤ EndIndex b ∧ EndIndex b ≤ Z.of_nat (length c).
Proof.
  intros (Hc & _ & Hend) Hin. destruct Hc as [Hc|(p' & b' & -> & H1 & H2)]; cycle 1.
  { apply list_elem_of_singleton in Hin. simplify_eq. lia. }
  assert (Hb : b ∈ D.*2) by (apply list_elem_of_fmap; by exists (p, b)).
  apply list_elem_of_split in Hb as (l1 & l2 & Heq). rewrite Heq in *.
  apply contiguous_app in Hc as [Hc1 (H1 & H2 & H3)].
  pose proof (contiguous_le _ _ Hc1). pose proof (contiguous_le _ _ H3).
  rewrite end_of_app, end_of_cons in Hend. lia.
Qed.
Lemma chain_start_inj c D p b p' b' :
  block_chain c D → NoDup D.*1 → (p, b) ∈ D → (p', b') ∈ D → StartIndex b = StartIndex b' →
  p = p' ∧ b = b'.
Proof.
  intros (Hc & _ & _) Hnd H1 H2 Heq. destruct Hc as [Hc|(p0 & b0 & -> & _)]; cycle 1.
  { apply list_elem_of_singleton in H1, H2. by simplify_eq. }
  apply list_elem_of_lookup in H1 as [i H1], H2 as [j H2].
  assert (i = j) as <-; [|by simplify_eq].
  assert (Hi : D.*2 !! i = Some b) by (by rewrite list_lookup_fmap, H1).
  assert (Hj : D.*2 !! j = Some b') by (by rewrite list_lookup_fmap, H2).
  destruct (lt_eq_lt_dec i j) as [[Hlt| ->]|Hlt]; [|done|].
  - pose proof (contiguous_lookup_lt _ _ _ _ _ _ Hc Hi Hj Hlt).
    pose proof (contiguous_nonempty _ _ _ _ Hc Hi). lia.
  - pose proof (contiguous_lookup_lt _ _ _ _ _ _ Hc Hj Hi Hlt).
    pose proof (contiguous_nonempty _ _ _ _ Hc Hj). lia.
Qed.

Lemma D_ptr_inj {K A} (D : list (K * A)) p b b' : NoDup D.*1 → (p, b) ∈ D → (p, b') ∈ D → b = b'.
Proof.
  intros Hnd H1 H2. apply list_elem_of_lookup in H1 as [i H1], H2 as [j H2].
  assert (i = j) as <-; [|by simplify_eq].
  eapply NoDup_lookup; [exact Hnd|rewrite list_lookup_fmap, H1; done|by rewrite list_lookup_fmap, H2].
Qed.

(** The blocks of the heap, in the order of the list. *)
Lemma file_ok_values c hp h cc D cs e l n :
  file_ok c hp h cc D cs e l n →
  ∃ bs, mapM (λ p, blocks n !! p) (cache_list cc) = Some bs ∧ Forall2 geo bs D.*2 ∧
    Forall2 (λ p x, blocks n !! p = Some x) D.*1 bs.
Proof.
  intros Hok. rewrite (fo_list _ _ _ _ _ _ _ _ _ Hok).
  pose proof (fo_blocks _ _ _ _ _ _ _ _ _ Hok) as Hb. clear Hok.
  assert (∃ bs, Forall2 geo bs D.*2 ∧ Forall2 (λ p x, blocks n !! p = Some x) D.*1 bs)
    as (bs & Hg & Hf); [|exists bs; split; [by apply mapM_Some|done]].
  induction D as [|[p b] D IH]; [by exists []|].
  destruct IH as (bs & Hg & Hf); [intros; apply Hb; by right|].
  destruct (Hb p b) as (x & Hx & Hgeo & _); [left|]. exists (x :: bs). split; by constructor.
Qed.

Lemma foldr_alter_lookup {A} (f : A → A) (l : list ptr) (m : gmap ptr A) p :
  NoDup l → foldr (λ p m, alter f p m) m l !! p = if decide (p ∈ l) then f <$> m !! p else m !! p.
Proof.
  induction 1 as [|q l Hq _ IH]; cbn [foldr].
  { by destruct (decide (p ∈ [])) as [?%not_elem_of_nil|]. }
  destruct (decide (q = p)) as [->|Hne].
  - rewrite lookup_alter_eq, IH, decide_False by done. rewrite decide_True; [done|left].
  - rewrite lookup_alter_ne, IH by done.
    destruct (decide (p ∈ l)); [rewrite decide_True; [done|by right]|].
    rewrite decide_False; [done|]. by intros [?|?]%elem_of_cons.
Qed.

Lemma chain_nonempty c D p b :
  block_chain c D → (p, b) ∈ D → (∃ q d, (q, d) ∈ D ∧ StartIndex d < EndIndex d) →
  StartIndex b < EndIndex b.
Proof.
  intros ([Hc|(p0 & b0 & -> & H1 & H2)] & _) Hin (q & d & Hq & Hlt).
  - apply list_elem_of_lookup in Hin as [i Hi]. eapply (contiguous_nonempty _ _ i); [done|].
    by rewrite list_lookup_fmap, Hi.
  - apply list_elem_of_singleton in Hq. simplify_eq. lia.
Qed.

(** What a flush commits, when there is something to commit. *)
Lemma flush_pieces c hp h cc D cs e l n bs cs' :
  file_ok c hp h cc D cs e l n → Forall2 geo bs D.*2 →
  Forall2 (λ p x, blocks n !! p = Some x) D.*1 bs → existsb Dirty bs = true →
  Forall2 (piece_of cs) bs cs' →
  cs' = (λ x, (Id x, slice c (StartIndex x) (EndIndex x))) <$> bs ∧ contiguous 0 D.*2.
Proof.
  intros Hok Hg Hl Hd Hp.
  assert (Hx : ∀ i x, bs !! i = Some x → ∃ p b, (p, b) ∈ D ∧ blocks n !! p = Some x ∧ geo x b).
  { intros i x Hi. destruct (Forall2_lookup_l _ _ _ _ _ Hg Hi) as (b & Hb & Hgb).
    destruct (Forall2_lookup_r _ _ _ _ _ Hl Hi) as (p & Hpi & Hpx).
    rewrite list_lookup_fmap in Hb. rewrite list_lookup_fmap in Hpi. destruct (D !! i) as [[p' b']|] eqn:E; simplify_eq/=.
    exists p, b. split_and!; [by eapply list_elem_of_lookup_2|done|done]. }
  assert (Hne : ∃ q d, (q, d) ∈ D ∧ StartIndex d < EndIndex d).
  { apply existsb_exists in Hd as (x & Hin & Hdx). apply list_elem_of_In, list_elem_of_lookup in Hin as [i Hi].
    destruct (Hx i x Hi) as (p & b & Hin & Hpx & (G1 & G2 & _)).
    destruct (fo_blocks _ _ _ _ _ _ _ _ _ Hok p b Hin) as (x' & Hx' & _ & Hbo). simplify_eq.
    destruct (bo_dirty _ _ _ _ _ _ _ Hbo Hdx) as [_ ?]. exists p, b. split; [done|lia]. }
  split.
  - apply list_eq. intros i. rewrite list_lookup_fmap.
    destruct (bs !! i) as [x|] eqn:Hi; simpl; cycle 1.
    { apply lookup_ge_None. apply lookup_ge_None in Hi. by rewrite <-(Forall2_length _ _ _ Hp). }
    destruct (Forall2_lookup_l _ _ _ _ _ Hp Hi) as (pc & Hpc & Hid & Hdata). rewrite Hpc. f_equal.
    destruct (Hx i x Hi) as (p & b & Hin & Hpx & Hgb).
    destruct (fo_blocks _ _ _ _ _ _ _ _ _ Hok p b Hin) as (x' & Hx' & _ & Hbo). simplify_eq.
    destruct pc as [id d]. simpl in *. subst id. f_equal. destruct (Dirty x) eqn:Hdx.
    + subst d. apply (bo_dirty _ _ _ _ _ _ _ Hbo Hdx).
    + destruct (bo_clean _ _ _ _ _ _ _ Hbo Hdx) as [Hcs _].
      { destruct Hgb as (-> & -> & _). eapply chain_nonempty; [apply Hok|done|done]. }
      eapply D_ptr_inj; [apply Hok|done|done].
  - destruct (fo_chain _ _ _ _ _ _ _ _ _ Hok) as ([Hc|(p0 & b0 & HD & H1 & H2)] & _); [done|].
    destruct Hne as (q & d & Hq & Hlt). rewrite HD in Hq. apply list_elem_of_singleton in Hq. simplify_eq. lia.
Qed.

(** A block after its dirty flag was cleared. *)
Lemma staged_block_geo x :
  StartIndex (staged_block x) = StartIndex x ∧ EndIndex (staged_block x) = EndIndex x ∧
  Id (staged_block x) = Id x ∧ Data (staged_block x) = Data x.
Proof. unfold staged_block. by destruct (Dirty x). Qed.
Lemma staged_block_flags x :
  Dirty (staged_block x) = false ∧
  Truncated (staged_block x) = Truncated x ∧ Removed (staged_block x) = Removed x.
Proof.
  unfold staged_block. destruct (Dirty x) eqn:Hd; [|done]. unfold Dirty, Truncated, Removed, block_clear. simpl.
  rewrite !IsSet_Clear by (unfold is_bit, DirtyBlock, TruncatedBlock, RemovedBlocks; lia). done.
Qed.
Lemma set_dirty_block x :
  Dirty (block_set DirtyBlock x) = true ∧
  Truncated (block_set DirtyBlock x) = Truncated x ∧ Removed (block_set DirtyBlock x) = Removed x.
Proof.
  unfold Dirty, Truncated, Removed, block_set. simpl.
  rewrite !IsSet_Set by (unfold is_bit, DirtyBlock, TruncatedBlock, RemovedBlocks; lia). done.
Qed.

(** The block of an address of the list. *)
Lemma file_ok_block c hp h cc D cs e l n p b :
  file_ok c hp h cc D cs e l n → (p, b) ∈ D → ∃ x, blocks n !! p = Some x ∧ geo x b ∧
    block_ok c cs cc (bool_decide (e = Some p)) (bool_decide (l = Some p)) p x ∧
    0 ≤ StartIndex x ∧ StartIndex x ≤ EndIndex x ∧ EndIndex x ≤ Z.of_nat (length c).
Proof.
  intros Hok Hin. destruct (fo_blocks _ _ _ _ _ _ _ _ _ Hok p b Hin) as (x & Hx & Hg & Hbo).
  destruct (chain_bounds _ _ _ _ (fo_chain _ _ _ _ _ _ _ _ _ Hok) Hin) as (H1 & H2 & H3).
  pose proof Hg as (G1 & G2 & _). exists x. split_and!; try done; lia.
Qed.

(** The premises of a flush hold. *)
Lemma flush_premises c hp h cc D cs e l n bs :
  file_ok c hp h cc D cs e l n → Forall2 geo bs D.*2 →
  Forall2 (λ p x, blocks n !! p = Some x) D.*1 bs →
  Forall (λ b, Truncated b = false ∧ Removed b = false) bs ∧
  Forall (λ b, Dirty b = true → Data b ≠ []) bs ∧
  (existsb Dirty bs = true → Forall (λ b, Dirty b = false → Id b ∈ cs.*1) bs).
Proof.
  intros Hok Hg Hl.
  assert (Hx : ∀ x, x ∈ bs → ∃ p b, (p, b) ∈ D ∧ geo x b ∧ blocks n !! p = Some x).
  { intros x Hin. apply list_elem_of_lookup in Hin as [i Hi].
    destruct (Forall2_lookup_l _ _ _ _ _ Hg Hi) as (b & Hb & Hgb).
    destruct (Forall2_lookup_r _ _ _ _ _ Hl Hi) as (p & Hpi & Hpx).
    rewrite list_lookup_fmap in Hb. rewrite list_lookup_fmap in Hpi.
    destruct (D !! i) as [[p' b']|] eqn:E; simplify_eq/=.
    exists p, b. split_and!; [by eapply list_elem_of_lookup_2|done|done]. }
  assert (Hbo : ∀ x, x ∈ bs → ∃ p b, (p, b) ∈ D ∧ geo x b ∧
    block_ok c cs cc (bool_decide (e = Some p)) (bool_decide (l = Some p)) p x ∧
    0 ≤ StartIndex x ∧ EndIndex x ≤ Z.of_nat (length c)).
  { intros x Hin. destruct (Hx x Hin) as (p & b & HD & Hgb & Hpx).
    destruct (file_ok_block _ _ _ _ _ _ _ _ _ _ _ Hok HD) as (x' & Hx' & _ & Hok' & ? & ? & ?).
    simplify_eq. eauto 10. }
  split_and!.
  - apply Forall_forall. intros x Hin. destruct (Hbo x Hin) as (p & b & _ & _ & Hb & _). apply Hb.
  - apply Forall_forall. intros x Hin Hd. destruct (Hbo x Hin) as (p & b & _ & _ & Hb & H0 & H1).
    destruct (bo_dirty _ _ _ _ _ _ _ Hb Hd) as [-> Hlt]. intros Hnil%(f_equal length).
    rewrite slice_length in Hnil by lia. simpl in Hnil. lia.
  - intros Hd. apply Forall_forall. intros x Hin Hcl. destruct (Hbo x Hin) as (p & b & HD & Hgb & Hb & _).
    destruct (bo_clean _ _ _ _ _ _ _ Hb Hcl) as [Hcs _].
    + destruct Hgb as (-> & -> & _). eapply chain_nonempty; [apply Hok|done|].
      apply existsb_exists in Hd as (y & Hy & Hdy). apply list_elem_of_In in Hy.
      destruct (Hbo y Hy) as (q & d & HDq & (G1 & G2 & _) & Hbq & _).
      exists q, d. split; [done|]. rewrite <-G1, <-G2. apply (bo_dirty _ _ _ _ _ _ _ Hbq Hdy).
    + apply list_elem_of_fmap. by exists (Id x, slice c (StartIndex x) (EndIndex x)).
Qed.

Definition all_clean (D : list (ptr * Block)) (n : N) : Prop :=
  ∀ p b x, (p, b) ∈ D → blocks n !! p = Some x → Dirty x = false.
(** The blocks of [n] are in [n'] with the same data. *)
Definition same_data (n n' : N) : Prop :=
  ∀ p x, blocks n !! p = Some x → ∃ x', blocks n' !! p = Some x' ∧ Data x' = Data x.

Lemma wp_flush c hp h cc D cs e l n :
  file_ok c hp h cc D cs e l n →
  wp (c_FlushFile next (mkFlushFileOptions hp)) (λ r n', r = None ∧ ∃ cs',
    file_ok c hp h cc D cs' e None n' ∧ all_clean D n' ∧ same_data n n' ∧
    rand_bytes n' = rand_bytes n) n.
Proof.
  intros Hok. destruct (file_ok_values _ _ _ _ _ _ _ _ _ Hok) as (bs & Hm & Hg & Hl).
  destruct (flush_premises _ _ _ _ _ _ _ _ _ _ Hok Hg Hl) as (Hfl & Hne & Hcl).
  assert (Hids : Id <$> bs = Id <$> D.*2).
  { clear -Hg. induction Hg as [|x b xs bs' (_ & _ & Hid) _ IH]; [done|]. rewrite !fmap_cons, Hid. by f_equal. }
  assert (Hno : "" ∉ (Id <$> bs)) by (rewrite Hids; apply Hok).
  assert (Hndi : NoDup (Id <$> bs)) by (rewrite Hids; apply Hok).
  assert (Hndl : NoDup (cache_list cc)) by (rewrite (fo_list _ _ _ _ _ _ _ _ _ Hok); apply Hok).
  pose proof (sn_flush hp h cc bs cs n (fo_handle _ _ _ _ _ _ _ _ _ Hok) (fo_cache _ _ _ _ _ _ _ _ _ Hok)
    Hm (fo_chunks _ _ _ _ _ _ _ _ _ Hok) (fo_chunk_ids _ _ _ _ _ _ _ _ _ Hok) Hfl Hne Hcl Hno Hndi Hndl) as Hw.
  apply wp_Ret in Hw as (r & n' & Hrun & Hr & Hh' & Hc' & Hb' & Hflush). subst r.
  apply wp_Ret. exists None, n'. split; [done|]. split; [done|].
  rewrite (fo_list _ _ _ _ _ _ _ _ _ Hok) in Hb'.
  assert (Hlook : ∀ p, blocks n' !! p = if decide (p ∈ D.*1) then staged_block <$> blocks n !! p
    else blocks n !! p).
  { intros p. rewrite Hb'. apply foldr_alter_lookup, Hok. }
  assert (HD : ∀ p b, (p, b) ∈ D → ∃ x, blocks n !! p = Some x ∧ geo x b ∧
    blocks n' !! p = Some (staged_block x) ∧
    block_ok c cs cc (bool_decide (e = Some p)) (bool_decide (l = Some p)) p x ∧
    0 ≤ StartIndex x ∧ StartIndex x ≤ EndIndex x ∧ EndIndex x ≤ Z.of_nat (length c)).
  { intros p b Hin. destruct (file_ok_block _ _ _ _ _ _ _ _ _ _ _ Hok Hin) as (x & Hx & Hgx & Hbo & Hbnd).
    exists x. rewrite Hlook, Hx, decide_True; [done|]. apply list_elem_of_fmap. by exists (p, b). }
  assert (Hclean : all_clean D n').
  { intros p b x Hin Hx. destruct (HD p b Hin) as (x0 & _ & _ & Hx' & _). simplify_eq.
    apply staged_block_flags. }
  assert (∃ cs', chunks n' !! hPath h = Some cs' ∧ bytes_of cs' = c ∧ NoDup cs'.*1 ∧
    ∀ p b x, (p, b) ∈ D → blocks n !! p = Some x → StartIndex x < EndIndex x →
      (Id x, slice c (StartIndex x) (EndIndex x)) ∈ cs') as (cs' & Hcs' & Hbytes & Hnd' & Hpieces).
  { unfold flushed in Hflush.
    destruct (existsb Dirty bs) eqn:Hd.
    - destruct Hflush as (cs' & Hcs' & Hpc).
      destruct (flush_pieces _ _ _ _ _ _ _ _ _ _ _ Hok Hg Hl Hd Hpc) as [-> Hcont]. eexists. split; [done|].
      destruct (fo_chain _ _ _ _ _ _ _ _ _ Hok) as (_ & _ & Hend). split_and!.
      + unfold bytes_of. rewrite <-list_fmap_compose. unfold compose. simpl.
        assert (Hgc : contiguous 0 bs) by (by eapply contiguous_geo).
        assert (Hge : end_of 0 bs = end_of 0 D.*2).
        { clear -Hg. unfold end_of. induction Hg as [|x b xs bs' (_ & H2 & _) Hg' IH]; [done|].
          destruct Hg' as [|x' b' xs' bs'' ? ?]; [done|]. rewrite !last_cons_cons. exact IH. }
        rewrite concat_slices with (start := 0) by (done || lia). rewrite Hge, Hend. apply slice_full.
      + rewrite <-list_fmap_compose. change (NoDup (Id <$> bs)). rewrite Hids. apply Hok.
      + intros p b x Hin Hx _. apply list_elem_of_fmap. exists x. split; [done|].
        apply list_elem_of_lookup in Hin as [i Hi].
        destruct (Forall2_lookup_l _ _ _ i p Hl) as (x' & Hx' & Heq); [by rewrite list_lookup_fmap, Hi|].
        simplify_eq. by eapply list_elem_of_lookup_2.
    - assert (Hcl0 : all_clean D n).
      { intros p b x Hin Hx. apply list_elem_of_lookup in Hin as [i Hi].
        destruct (Forall2_lookup_l _ _ _ i p Hl) as (x' & Hx' & Heq); [by rewrite list_lookup_fmap, Hi|].
        rewrite Hx in Heq. injection Heq as <-. destruct (Dirty x) eqn:E; [|done].
        assert (existsb Dirty bs = true); [|congruence]. apply existsb_exists. exists x.
        split; [|done]. apply list_elem_of_In. by eapply list_elem_of_lookup_2. }
      exists cs. split; [done|]. split_and!; [by apply (fo_synced _ _ _ _ _ _ _ _ _ Hok)|apply Hok|].
      intros p b x Hin Hx Hlt. destruct (HD p b Hin) as (x' & Hx' & _ & _ & Hbo & _). simplify_eq.
      apply (bo_clean _ _ _ _ _ _ _ Hbo); [by eapply Hcl0|done]. }
  exists cs'. split_and!; [|done| |].
  - destruct Hok as [Hfh Hfc Hfcs Hfs Hfl' Hfnd Hfch Hfi Hfci Hfsm Hfid Hflru Hfcap Hfp Hfb Hfsy].
    split; try done.
    + by rewrite Hh'.
    + by rewrite Hc'.
    + eapply lru_inv_sizes; [exact Hflru|]. intros p x Hp Hx. rewrite Hlook, Hx.
      destruct (staged_block_geo x) as (E1 & E2 & _). unfold block_size.
      destruct (decide (p ∈ D.*1)); simpl; eexists; (split; [done|]); [by rewrite E1, E2|done].
    + intros p b Hin. destruct (HD p b Hin) as (x & Hx & (G1 & G2 & G3) & Hx' & [B1 B2 B3 B4 B5] & Hbnd).
      destruct (staged_block_flags x) as (Hd0 & Ht0 & Hr0). destruct (staged_block_geo x) as (E1 & E2 & E3 & E4).
      exists (staged_block x). split; [done|]. unfold geo. rewrite E1, E2, E3. split; [done|].
      split; rewrite ?E1, ?E2, ?E3, ?E4.
      * by rewrite Hd0.
      * done.
      * intros _. by rewrite Hd0.
      * intros _ Hlt. rewrite Hbytes. split_and!; [by eapply Hpieces|lia|done].
      * by rewrite Ht0, Hr0.
  - intros p x Hx. rewrite Hlook, Hx. destruct (staged_block_geo x) as (_ & _ & _ & E4).
    destruct (decide (p ∈ D.*1)); simpl; eauto.
  - by eapply sr_flush.
Qed.

(** The pairs and blocks after a successful Put. *)
Lemma put_result_cases k p (t t' : lru_state) :
  lru_inv t → put_result k p t true t' →
  (∀ kp, kp ∈ pairs t'.1 → kp = mkKeyPair k p ∨ kp ∈ pairs t.1) ∧ mkKeyPair k p ∈ pairs t'.1 ∧
  ∀ q x, t.2 !! q = Some x →
    (t'.2 !! q = Some x ∧ ∀ kp, kp ∈ pairs t.1 → value kp = q → kp ∈ pairs t'.1) ∨
    (Dirty x = false ∧ t'.2 !! q = Some (block_with_data [] x) ∧ q ∈ value <$> pairs t.1 ∧
     (q ≠ p → q ∉ value <$> pairs t'.1)).
Proof.
  intros Hinv [(_ & _ & Hm & Hp)|[(_ & Hf & _)|(_ & _ & r1 & kv & r2 & Heq & Hp & Hd & _ & xv & Hxv & Hm)]].
  - rewrite Hp, Hm. split_and!; [by intros kp [?|?]%elem_of_cons; [left|right]|left|].
    intros q x Hx. left. split; [done|]. intros kp Hkp _. by right.
  - done.
  - assert (Hnd : NoDup (value <$> pairs t.1)).
    { destruct Hinv as [gl Hok]. rewrite (lru_inv_pairs _ _ Hok). apply Hok. }
    rewrite Heq, fmap_app, fmap_cons in Hnd. apply NoDup_app in Hnd as (_ & Hdis & [Hn2 _]%NoDup_cons).
    rewrite Hp, Hm, Heq. split_and!.
    + intros kp [?|Hin]%elem_of_cons; [by left|]. right. rewrite elem_of_app, elem_of_cons.
      rewrite elem_of_app in Hin. tauto.
    + left.
    + intros q x Hx. destruct (decide (q = value kv)) as [->|Hne].
      * right. rewrite Hxv in Hx. injection Hx as <-. rewrite lookup_insert_eq. split_and!; [|done| |].
        -- unfold dirty_block in Hd. by rewrite Hxv in Hd.
        -- rewrite fmap_app, fmap_cons. apply elem_of_app. right. left.
        -- intros Hkp. rewrite fmap_cons, fmap_app. simpl. rewrite elem_of_cons, elem_of_app.
           intros [?|[Hin|Hin]]; [done| |by apply Hn2]. apply (Hdis _ Hin). left.
      * left. rewrite lookup_insert_ne by done. split; [done|]. intros kp Hkp Hval.
        right. rewrite elem_of_app, elem_of_cons in Hkp. rewrite elem_of_app.
        destruct Hkp as [?|[->|?]]; [by left|done|by right].
Qed.

Lemma put_ok c hp h cc D cs e l p b x t' n n' :
  file_ok c hp h cc D cs e l n → (p, b) ∈ D → blocks n !! p = Some x →
  p ∉ value <$> pairs (cache_lru cc) → (l = None ∨ l = Some p) →
  (e = Some p ∨ Data x = slice c (StartIndex x) (EndIndex x)) →
  lru_inv t' → Capacity t'.1 = Capacity (cache_lru cc) →
  put_result (StartIndex x) p (cache_lru cc, blocks n) true t' →
  rt_handles n' = rt_handles n → chunks n' = chunks n → blocks n' = t'.2 →
  caches n' = <[CacheObj h := cache_with_lru t'.1 cc]> (caches n) →
  file_ok c hp h (cache_with_lru t'.1 cc) D cs e None n' ∧ blocks n' !! p = Some x ∧
  mkKeyPair (StartIndex b) p ∈ pairs t'.1 ∧ (all_clean D n → all_clean D n').
Proof.
  intros Hok Hin Hx Hnp Hl He Hinv' Hcap' Hput Hh' Hs' Hb' Hc'.
  destruct (put_result_cases _ _ _ _ (fo_lru _ _ _ _ _ _ _ _ _ Hok) Hput) as (Hp1 & Hp2 & Hq). simpl in *.
  destruct (file_ok_block _ _ _ _ _ _ _ _ _ _ _ Hok Hin) as (x0 & Hx0 & (G1 & G2 & G3) & _). simplify_eq.
  assert (Hxp : t'.2 !! p = Some x).
  { destruct (Hq p x Hx) as [[? _]|(_ & _ & ? & _)]; done. }
  split; [|split_and!; [by rewrite Hb'|by rewrite <-G1|]]; cycle 1.
  { intros Hcl q bq xq Hqin Hxq. rewrite Hb' in Hxq.
    destruct (fo_blocks _ _ _ _ _ _ _ _ _ Hok q bq Hqin) as (y & Hy & _).
    destruct (Hq q y Hy) as [[Hyq _]|(Hd & Hyq & _)]; rewrite Hyq in Hxq; injection Hxq as <-; [|done].
    by apply (Hcl q bq). }
  destruct Hok as [Hfh Hfc Hfcs Hfs Hfl Hfnd Hfch Hfi Hfci Hfsm Hfid Hflru Hfcap Hfp Hfb Hfsy].
  split; simpl; try done.
  - by rewrite Hh'.
  - by rewrite Hc', lookup_insert_eq.
  - by rewrite Hs'.
  - rewrite Hb'. by destruct t'.
  - lia.
  - intros kp [->|Hkp]%Hp1; simpl; [|by apply Hfp]. exists b. by rewrite <-G1.
  - intros q bq Hqin. rewrite Hb'. destruct (Hfb q bq Hqin) as (xq & Hxq & Hgq & [B1 B2 B3 B4 B5]).
    destruct (decide (q = p)) as [->|Hne].
    { rewrite Hx in Hxq. injection Hxq as <-. exists x. split; [done|]. split; [done|]. split; simpl; try done.
      intros He' _. destruct He as [->|]; [|done]. by rewrite bool_decide_true in He'. }
    destruct (Hq q xq Hxq) as [[Hxq' Hkeep]|(Hcl & Hxq' & Hwas & Hgone)].
    + exists xq. split; [done|]. split; [done|]. split; simpl; try done.
      * intros He' Hcq. apply B2; [done|]. destruct (Hp1 _ Hcq) as [Heq|?]; [|done]. injection Heq as _ Heq. done.
      * intros _ Hd. apply Hkeep; [|done]. apply B3; [|done]. apply bool_decide_false. destruct Hl; congruence.
    + exists (block_with_data [] xq). split; [done|]. split; [done|].
      assert (Hd : Dirty (block_with_data [] xq) = false) by done.
      split; simpl; try done; try (rewrite Hd; done).
      intros _ Hcq. destruct (Hgone Hne). apply list_elem_of_fmap. by exists (mkKeyPair (StartIndex xq) q).
  - intros Hcl. apply Hfsy. intros q bq xq Hqin Hxq. destruct (Hq q xq Hxq) as [[Hxq' _]|(Hd & _)]; [|done].
    apply (Hcl q bq); [done|]. by rewrite Hb'.
Qed.

(** A block that is not cached can be put: its key is new and the LRU cache has
    room or something in it. *)
Lemma wp_lru_Put_file {A} c hp h cc D cs e l p b x s n (f : bool → go st A) (Q : A → st → Prop) :
  file_ok c hp h cc D cs e l n → (p, b) ∈ D → blocks n !! p = Some x →
  p ∉ value <$> pairs (cache_lru cc) →
  (∀ r t' n', lru_inv t' → Capacity t'.1 = Capacity (cache_lru cc) →
     put_result (StartIndex x) p (cache_lru cc, blocks n) r t' →
     rt_handles n' = rt_handles n → chunks n' = chunks n → rand_bytes n' = rand_bytes n →
     blocks n' = t'.2 → caches n' = <[CacheObj h := cache_with_lru t'.1 cc]> (caches n) →
     wp (f r) Q (s, n')) →
  wp (r ← lru hp (lru_Put (StartIndex x) p); f r) Q (s, n).
Proof.
  intros Hok Hin Hx Hnp HQ. apply wp_bind.
  eapply wp_lru; [apply Hok..|]. eapply wp_mono; [apply (wp_lru_Put _ _ _ x)|].
  - apply Hok.
  - intros ([k q] & Hk & Hkp)%list_elem_of_fmap. simpl in Hk. subst k.
    destruct (fo_pairs _ _ _ _ _ _ _ _ _ Hok _ Hkp) as (b' & Hin' & Hst). simpl in *.
    destruct (file_ok_block _ _ _ _ _ _ _ _ _ _ _ Hok Hin) as (x0 & Hx0 & (G1 & _) & _). simplify_eq.
    destruct (chain_start_inj _ _ _ _ _ _ (fo_chain _ _ _ _ _ _ _ _ _ Hok)
      (fo_nodup _ _ _ _ _ _ _ _ _ Hok) Hin Hin') as [-> _]; [congruence|].
    apply Hnp. apply list_elem_of_fmap. by exists (mkKeyPair (StartIndex x) q).
  - done.
  - done.
  - apply (lru_room (cache_lru cc, blocks n)); [apply Hok|]. apply (fo_capacity _ _ _ _ _ _ _ _ _ Hok).
  - intros r t' (Hinv' & Hcap' & Hput). apply (HQ r t'); try done; try (by heap).
    apply sr_set_heap.
Qed.

Lemma wp_rw_putBlock c hp h cc D cs e l p b x s n :
  file_ok c hp h cc D cs e l n → (p, b) ∈ D → blocks n !! p = Some x →
  p ∉ value <$> pairs (cache_lru cc) → (l = None ∨ l = Some p) →
  (e = Some p ∨ Data x = slice c (StartIndex x) (EndIndex x)) →
  wp (rw_putBlock next hp p) (λ r s', s'.1 = s ∧ r = None ∧ ∃ cc' cs' x',
    file_ok c hp h cc' D cs' e None s'.2 ∧ mkKeyPair (StartIndex b) p ∈ pairs (cache_lru cc') ∧
    blocks s'.2 !! p = Some x' ∧ Data x' = Data x ∧ (Dirty x = false → Dirty x' = false) ∧
    rand_bytes s'.2 = rand_bytes n ∧ (all_clean D n → all_clean D s'.2)) (s, n).
Proof.
  intros Hok Hin Hx Hnp Hl He. unfold rw_putBlock.
  apply wp_bind. eapply wp_load_blk; [done|]. eapply wp_lru_Put_file; [done..|].
  intros r t1 n1 Hinv1 Hcap1 Hput1 Hh1 Hs1 Hr1 Hb1 Hc1. destruct r.
  { apply wp_ret. split; [done|]. split; [done|].
    destruct (put_ok _ _ _ _ _ _ _ _ _ _ _ _ _ _ Hok Hin Hx Hnp Hl He Hinv1 Hcap1 Hput1 Hh1 Hs1 Hb1 Hc1)
      as (Hok1 & Hx1 & Hp1 & Hcl1). exists (cache_with_lru t1.1 cc), cs, x. split_and!; done. }
  (* every cached block is dirty: flush, then the block can be put *)
  destruct Hput1 as [(_ & ? & _)|[(_ & _ & -> & _)|(_ & ? & _)]]; [done| |done]. simpl in *.
  rewrite cache_with_lru_id, (insert_id _ _ _ (fo_cache _ _ _ _ _ _ _ _ _ Hok)) in Hc1.
  assert (Hok1 : file_ok c hp h cc D cs e l n1).
  { destruct Hok. split; rewrite ?Hh1, ?Hs1, ?Hb1, ?Hc1; done. }
  apply wp_bind, wp_snd. eapply wp_mono; [by apply (wp_flush _ _ _ _ _ _ _ _ _ Hok1)|].
  intros err n2 (-> & cs2 & Hok2 & Hcl2 & Hdata2 & Hr2). rewrite (bool_decide_false (None ≠ None)) by tauto.
  destruct (Hdata2 p x) as (x2 & Hx2 & Hd2); [by rewrite Hb1|].
  apply wp_bind. eapply wp_load_blk; [done|].
  destruct (file_ok_block _ _ _ _ _ _ _ _ _ _ _ Hok Hin) as (x0 & Hx0 & (G1 & G2 & G3) & _).
  destruct (file_ok_block _ _ _ _ _ _ _ _ _ _ _ Hok2 Hin) as (x3 & Hx3 & (K1 & K2 & K3) & _).
  simplify_eq.
  eapply wp_lru_Put_file; [exact Hok2|done..|].
  intros r t3 n3 Hinv3 Hcap3 Hput3 Hh3 Hs3 Hr3 Hb3 Hc3. destruct r.
  - apply wp_ret. split; [done|]. split; [done|].
    destruct (put_ok _ _ _ _ _ _ e None p b x2 t3 n2 n3 Hok2 Hin Hx2 Hnp (or_introl eq_refl)) as (Hok3 & Hx3' & Hp3 & Hcl3);
      try done.
    { destruct He as [?|He]; [by left|]. right. rewrite Hd2, He. congruence. }
    exists (cache_with_lru t3.1 cc), cs2, x2. split_and!; try done; [|simpl; congruence|].
    + intros _. by eapply Hcl2.
    + intros _. by apply Hcl3.
  - exfalso. destruct Hput3 as [(_ & ? & _)|[(Hge & _ & _ & Hall)|(_ & ? & _)]]; [done| |done]. simpl in *.
    destruct (lru_room _ (fo_lru _ _ _ _ _ _ _ _ _ Hok2)) as [?|Hne]; [apply Hok2|simpl in *; lia|].
    simpl in Hne. destruct (pairs (cache_lru cc)) as [|kp ps] eqn:Ep; [done|].
    apply Forall_cons in Hall as [Hd _]. unfold dirty_block in Hd.
    destruct (fo_pairs _ _ _ _ _ _ _ _ _ Hok2 kp) as (bk & Hbk & _); [rewrite Ep; left|].
    destruct (file_ok_block _ _ _ _ _ _ _ _ _ _ _ Hok2 Hbk) as (xk & Hxk & _).
    rewrite Hxk in Hd. simpl in Hd. by rewrite (Hcl2 _ _ _ Hbk Hxk) in Hd.
Qed.

(** The LRU order of the blocks does not matter. *)
Lemma file_ok_perm c hp h cc D cs l1 n n' :
  file_ok c hp h cc D cs None None n → pairs l1 ≡ₚ pairs (cache_lru cc) →
  lru_inv (l1, blocks n) → Capacity l1 = Capacity (cache_lru cc) →
  rt_handles n' = rt_handles n → chunks n' = chunks n → blocks n' = blocks n →
  caches n' = <[CacheObj h := cache_with_lru l1 cc]> (caches n) →
  file_ok c hp h (cache_with_lru l1 cc) D cs None None n'.
Proof.
  intros Hok Hperm Hinv Hcap Hh' Hs' Hb' Hc'.
  destruct Hok as [Hfh Hfc Hfcs Hfs Hfl Hfnd Hfch Hfi Hfci Hfsm Hfid Hflru Hfcap Hfp Hfb Hfsy].
  split; simpl; rewrite ?Hh', ?Hs', ?Hb', ?Hcap; try done.
  - by rewrite Hc', lookup_insert_eq.
  - intros kp. rewrite Hperm. apply Hfp.
  - intros p b Hin. destruct (Hfb p b Hin) as (x & Hx & Hg & [B1 B2 B3 B4 B5]). exists x.
    split; [done|]. split; [done|]. split; simpl; rewrite ?Hperm; done.
Qed.

(** New data in a clean block: still to be read, or the right ones. *)
Lemma file_ok_data c hp h cc D cs e e' p b x d n n' :
  file_ok c hp h cc D cs e None n → (p, b) ∈ D → blocks n !! p = Some x → Dirty x = false →
  (e = None ∨ e = Some p) → e' = Some p ∨ e' = None ∧ d = slice c (StartIndex x) (EndIndex x) →
  rt_handles n' = rt_handles n → chunks n' = chunks n → caches n' = caches n →
  blocks n' = <[p := block_with_data d x]> (blocks n) →
  file_ok c hp h cc D cs e' None n'.
Proof.
  intros Hok Hin Hx Hd He He' Hh' Hs' Hc' Hb'.
  destruct Hok as [Hfh Hfc Hfcs Hfs Hfl Hfnd Hfch Hfi Hfci Hfsm Hfid Hflru Hfcap Hfp Hfb Hfsy].
  split; rewrite ?Hh', ?Hs', ?Hc'; try done.
  - rewrite Hb'. by eapply lru_inv_store.
  - intros q bq Hqin. rewrite Hb'. destruct (Hfb q bq Hqin) as (xq & Hxq & Hgq & [B1 B2 B3 B4 B5]).
    destruct (decide (q = p)) as [->|Hne].
    + rewrite lookup_insert_eq. rewrite Hx in Hxq. injection Hxq as <-.
      exists (block_with_data d x). split; [done|]. split; [done|].
      assert (Hd' : Dirty (block_with_data d x) = false) by done.
      split; simpl; rewrite ?Hd'; try done; [|by intros _; apply B4].
      intros Hex _. destruct He' as [->|[_ ?]]; [by rewrite bool_decide_true in Hex|done].
    + rewrite lookup_insert_ne by done. exists xq. split; [done|]. split; [done|]. split; try done.
      intros Hex. apply B2. apply bool_decide_false. destruct He; congruence.
  - intros Hcl. apply Hfsy. intros q bq xq Hqin Hxq. destruct (decide (q = p)) as [->|Hne]; [congruence|].
    apply (Hcl q bq); [done|]. by rewrite Hb', lookup_insert_ne.
Qed.

Lemma all_clean_store D n p x d n' :
  all_clean D n → blocks n !! p = Some x → Dirty x = false →
  blocks n' = <[p := block_with_data d x]> (blocks n) → all_clean D n'.
Proof.
  intros Hcl Hx Hd Hb q bq xq Hq. rewrite Hb.
  intros [[<- <-]|[Hne Hxq]]%lookup_insert_Some; [done|by eapply Hcl].
Qed.

Lemma wp_rw_getBlock c hp h cc D cs p b s n :
  file_ok c hp h cc D cs None None n → hSize h = Z.of_nat (length c) → (p, b) ∈ D →
  wp (rw_getBlock next hp p) (λ r s', s'.1 = s ∧ r.1.1 = p ∧ r.2 = None ∧ ∃ cc' cs',
    file_ok c hp h cc' D cs' None None s'.2 ∧ mkKeyPair (StartIndex b) p ∈ pairs (cache_lru cc') ∧
    rand_bytes s'.2 = rand_bytes n ∧ (all_clean D n → all_clean D s'.2)) (s, n).
Proof.
  intros Hok Hsz Hin. unfold rw_getBlock.
  destruct (file_ok_block _ _ _ _ _ _ _ _ _ _ _ Hok Hin) as (x & Hx & (G1 & G2 & G3) & Hbo & Hb0 & Hb1 & Hb2).
  pose proof (fo_small _ _ _ _ _ _ _ _ _ Hok) as Hsmall.
  apply wp_bind. eapply wp_load_blk; [done|]. apply wp_bind. eapply wp_lru; [apply Hok..|].
  eapply wp_mono; [apply wp_lru_Get, Hok|]. intros [q found] [l1 m1] (Hinv1 & Hcap1 & Hm & _ & Hget).
  simpl in *. subst m1. case_decide as Hk.
  - destruct Hget as (r1 & r2 & Hp & -> & Hp1). simpl. apply wp_ret. cbn [fst snd].
    assert (Hq : mkKeyPair (StartIndex x) q ∈ pairs (cache_lru cc)) by (rewrite Hp; apply elem_of_app; right; left).
    destruct (fo_pairs _ _ _ _ _ _ _ _ _ Hok _ Hq) as (b' & Hin' & Hst). simpl in *.
    destruct (chain_start_inj _ _ _ _ _ _ (fo_chain _ _ _ _ _ _ _ _ _ Hok)
      (fo_nodup _ _ _ _ _ _ _ _ _ Hok) Hin Hin') as [-> _]; [congruence|].
    split_and!; try done. exists (cache_with_lru l1 cc), cs. split_and!.
    + eapply file_ok_perm; [exact Hok| |done|done|by heap..]. rewrite Hp, Hp1. by rewrite Permutation_middle.
    + simpl. rewrite Hp1, G1. left.
    + apply sr_set_heap.
    + unfold all_clean. by heap.
  - destruct Hget as [[= -> ->] [= ->]]. cbn [negb].
    set (n1 := with_lru _ _ _ _).
    assert (Hok1 : file_ok c hp h cc D cs None None n1).
    { pose proof (fo_cache _ _ _ _ _ _ _ _ _ Hok) as Hcc. destruct Hok. unfold n1. split; heap; simpl; try done.
      by rewrite lookup_insert_eq, cache_with_lru_id. }
    assert (Hb1' : blocks n1 = blocks n) by (unfold n1; by heap).
    assert (Hr1 : rand_bytes n1 = rand_bytes n) by apply sr_set_heap. clearbody n1.
    assert (Hd : Dirty x = false).
    { destruct (Dirty x) eqn:E; [|done]. destruct Hk. apply list_elem_of_fmap.
      exists (mkKeyPair (StartIndex x) p). split; [done|]. by apply (bo_kept _ _ _ _ _ _ _ Hbo). }
    assert (Hnp : p ∉ value <$> pairs (cache_lru cc)).
    { intros ([k q] & Hv & Hq)%list_elem_of_fmap. simpl in Hv. subst q.
      destruct (fo_pairs _ _ _ _ _ _ _ _ _ Hok _ Hq) as (b' & Hin' & Hst). simpl in *.
      rewrite (D_ptr_inj _ _ _ _ (fo_nodup _ _ _ _ _ _ _ _ _ Hok) Hin Hin') in G1.
      apply Hk. apply list_elem_of_fmap. exists (mkKeyPair k p). split; [simpl; congruence|done]. }
    rewrite (i64_small (EndIndex x - _)) by (unfold is_i64; lia).
    apply wp_bind, wp_make_go; [lia|]. apply wp_bind. eapply wp_upd_blk; [by rewrite Hb1'|].
    set (zs := make_bytes _). set (n2 := set_blocks _ _).
    assert (Hok2 : file_ok c hp h cc D cs (Some p) None n2).
    { eapply (file_ok_data c hp h cc D cs None (Some p) p b x zs n1); try done; try (by left).
      - by rewrite Hb1'.
      - unfold n2. by heap.
      - unfold n2. by heap.
      - unfold n2. by heap.
      - unfold n2. by heap. }
    assert (Hx2 : blocks n2 !! p = Some (block_with_data zs x)).
    { unfold n2. heap. by rewrite lookup_insert_eq. }
    assert (Hr2 : rand_bytes n2 = rand_bytes n) by (unfold n2, set_blocks; by rewrite sr_set_heap).
    assert (Hac2 : all_clean D n → all_clean D n2).
    { intros Hcl. eapply (all_clean_store D n p x); [done|done|done|]. unfold n2. heap. by rewrite Hb1'. }
    clearbody n2.
    apply wp_bind. eapply wp_mono; [eapply (wp_rw_putBlock _ _ _ _ _ _ (Some p)); [exact Hok2|done|done|done|by left|by left]|].
    intros err [s3 n3] (Hs3 & -> & cc3 & cs3 & x3 & Hok3 & Hp3 & Hx3 & Hd3 & Hcl3 & Hr3 & Hac3). cbn [fst snd] in *. subst s3.
    rewrite (bool_decide_false (None ≠ None)) by tauto. specialize (Hcl3 Hd).
    apply wp_bind. eapply wp_load_blk; [done|].
    destruct (file_ok_block _ _ _ _ _ _ _ _ _ _ _ Hok3 Hin) as (x4 & Hx4 & (K1 & K2 & K3) & Hbo3 & _).
    rewrite Hx3 in Hx4. injection Hx4 as <-.
    assert (Hzl : Z.of_nat (length (Data x3)) = EndIndex x3 - StartIndex x3).
    { rewrite Hd3. simpl. unfold zs. rewrite make_bytes_length. lia. }
    destruct (Z.eqb_spec (Z.of_nat (length (Data x3))) 0) as [Hz|Hnz]; cbn [negb].
    + apply wp_ret. cbn [fst snd]. split_and!; try done. exists cc3, cs3. split_and!; [|done|congruence|auto].
      eapply (file_ok_data c hp h cc3 D cs3 (Some p) None p b x3 (Data x3)); try done; [by right| |].
      * right. split; [done|]. unfold slice. replace (EndIndex x3 - StartIndex x3) with 0 by lia.
        rewrite take_0. apply nil_length_inv. lia.
      * rewrite insert_id; [done|]. rewrite Hx3. by destruct x3.
    + destruct (bo_clean _ _ _ _ _ _ _ Hbo3 Hcl3) as (_ & Hend & Hsl); [lia|].
      assert (Hk3 : read_count (hSize h) (StartIndex x3) (Z.of_nat (length (Data x3))) = EndIndex x3 - StartIndex x3)
        by (unfold read_count; lia).
      apply wp_bind, wp_snd.
      pose proof (sn_read hp h cs3 (StartIndex x3) (Data x3) n3 (fo_handle _ _ _ _ _ _ _ _ _ Hok3)
        (fo_chunks _ _ _ _ _ _ _ _ _ Hok3) ltac:(lia)) as Hread. rewrite Hk3 in Hread.
      pose proof (fo_small _ _ _ _ _ _ _ _ _ Hok3) as Hsm3.
      specialize (Hread ltac:(lia) ltac:(lia) ltac:(lia)). apply wp_Ret in Hread as (r & n4 & Hrun & (Hh4 & Hheap4 & Hs4) & _ & Heof & Hdata).
      apply wp_Ret. exists r, n4. split; [done|]. destruct r as [[d4 c4] e4]. cbn [fst snd] in *.
      assert (Hc4 : caches n4 = caches n3) by (unfold caches; by rewrite Hheap4).
      assert (Hb4 : blocks n4 = blocks n3) by (unfold blocks; by rewrite Hheap4).
      apply wp_bind. eapply wp_upd_blk; [by rewrite Hb4|]. rewrite Heof. apply wp_ret. cbn [fst snd].
      split_and!; try done. exists cc3, cs3. split_and!; [|done| |].
      * eapply (file_ok_data c hp h cc3 D cs3 (Some p) None p b x3 d4); try done; [by right| |by heap..|].
        -- right. split; [done|]. rewrite Hdata, drop_ge by lia. rewrite app_nil_r.
           replace (StartIndex x3 + (EndIndex x3 - StartIndex x3)) with (EndIndex x3) by lia. done.
        -- heap. by rewrite Hb4.
      * unfold set_blocks. rewrite sr_set_heap, (sr_read _ _ _ _ Hrun). congruence.
      * intros Hcl. eapply (all_clean_store D n3 p x3); [auto|done|done|]. heap. by rewrite Hb4.
Qed.

(** ** Writing into the file *)
Lemma chain_disjoint c D p b q d :
  block_chain c D → (p, b) ∈ D → (q, d) ∈ D → p ≠ q →
  EndIndex b ≤ StartIndex d ∨ EndIndex d ≤ StartIndex b.
Proof.
  intros (Hc & _ & _) H1 H2 Hne. destruct Hc as [Hc|(p0 & b0 & -> & _)]; cycle 1.
  { apply list_elem_of_singleton in H1, H2. by simplify_eq. }
  apply list_elem_of_lookup in H1 as [i H1], H2 as [j H2].
  assert (Hi : D.*2 !! i = Some b) by (by rewrite list_lookup_fmap, H1).
  assert (Hj : D.*2 !! j = Some d) by (by rewrite list_lookup_fmap, H2).
  destruct (lt_eq_lt_dec i j) as [[Hlt| ->]|Hlt]; [left|congruence|right];
    by eapply contiguous_lookup_lt.
Qed.

(** A block that is not touched by a change of the content. *)
Lemma block_ok_content c c' cs cc e l p x :
  block_ok c cs cc e l p x →
  slice c' (StartIndex x) (EndIndex x) = slice c (StartIndex x) (EndIndex x) →
  block_ok c' cs cc e l p x.
Proof. intros [B1 B2 B3 B4 B5] Hs. split; rewrite ?Hs; done. Qed.

Definition written (off : Z) (d : list byte) (x : Block) : Block :=
  block_set DirtyBlock (block_with_data (copy_at (Data x) (Z.to_nat (off - StartIndex x)) d).1 x).

Lemma file_ok_write c hp h cc D cs p b x off d n n' :
  file_ok c hp h cc D cs None None n → (p, b) ∈ D → blocks n !! p = Some x →
  mkKeyPair (StartIndex b) p ∈ pairs (cache_lru cc) →
  d ≠ [] → StartIndex x ≤ off → off + Z.of_nat (length d) ≤ EndIndex x →
  rt_handles n' = rt_handles n → chunks n' = chunks n → caches n' = caches n →
  blocks n' = <[p := written off d x]> (blocks n) →
  file_ok (splice c (Z.to_nat off) d) hp h cc D cs None None n'.
Proof.
  intros Hok Hin Hx Hp Hd Hlo Hhi Hh' Hs' Hc' Hb'.
  destruct (file_ok_block _ _ _ _ _ _ _ _ _ _ _ Hok Hin) as (x0 & Hx0 & Hg & Hbo & H0 & H1 & H2).
  rewrite Hx in Hx0. injection Hx0 as <-. pose proof Hg as (G1 & G2 & G3).
  assert (Hlen : (0 < length d)%nat) by (destruct d; simpl; [done|lia]).
  assert (Hl : length (splice c (Z.to_nat off) d) = length c) by (apply splice_length_in; lia).
  assert (Hdata : Data x = slice c (StartIndex x) (EndIndex x)).
  { apply (bo_cached _ _ _ _ _ _ _ Hbo); [done|by rewrite G1]. }
  destruct (set_dirty_block (block_with_data (copy_at (Data x) (Z.to_nat (off - StartIndex x)) d).1 x))
    as (Hdx & Htx & Hrx).
  assert (Hwr : Data (written off d x) = slice (splice c (Z.to_nat off) d) (StartIndex x) (EndIndex x)).
  { rewrite splice_slice_same by lia. simpl. rewrite Hdata, Z2Nat.inj_sub by lia. done. }
  pose proof (fo_chain _ _ _ _ _ _ _ _ _ Hok) as Hch.
  destruct Hok as [Hfh Hfc Hfcs Hfs Hfl Hfnd Hfch Hfi Hfci Hfsm Hfid Hflru Hfcap Hfp Hfb Hfsy].
  split; rewrite ?Hh', ?Hs', ?Hc'; try done.
  - destruct Hfch as (? & ? & ?). split_and!; [done|done|by rewrite Hl].
  - by rewrite Hl.
  - rewrite Hb'. by eapply lru_inv_store.
  - intros q bq Hqin. rewrite Hb'. destruct (Hfb q bq Hqin) as (xq & Hxq & Hgq & Hbq).
    destruct (decide (q = p)) as [->|Hne].
    + rewrite lookup_insert_eq. rewrite Hx in Hxq. injection Hxq as <-.
      exists (written off d x). split; [done|]. split; [done|]. split; try done.
      * intros _. split; [exact Hwr|]. simpl. lia.
      * intros _ _. simpl. by rewrite G1.
      * unfold written. by rewrite Hdx.
      * unfold written. rewrite Htx, Hrx. apply Hbo.
    + rewrite lookup_insert_ne by done. exists xq. split; [done|]. split; [done|].
      eapply block_ok_content; [exact Hbq|]. destruct Hgq as (Q1 & Q2 & _).
      destruct (chain_bounds _ _ _ _ Hch Hqin) as (? & ? & ?).
      apply splice_slice_other; [lia..|].
      destruct (chain_disjoint _ _ _ _ _ _ Hch Hqin Hin Hne); lia.
  - intros Hcl. exfalso. assert (Hc0 : Dirty (written off d x) = false).
    { apply (Hcl p b); [done|]. by rewrite Hb', lookup_insert_eq. }
    unfold written in Hc0. by rewrite Hdx in Hc0.
Qed.

(** ** Appending *)
Lemma block_chain_end c D0 p b : block_chain c (D0 ++ [(p, b)]) → EndIndex b = Z.of_nat (length c).
Proof. intros (_ & _ & <-). by rewrite fmap_app, end_of_app. Qed.
Lemma block_chain_last c D0 p b c' e :
  block_chain c (D0 ++ [(p, b)]) → e = Z.of_nat (length c') → EndIndex b < e →
  block_chain c' (D0 ++ [(p, block_with_end e b)]).
Proof.
  intros (Hc & _ & Hend) -> He. split_and!.
  - left. rewrite fmap_app. destruct Hc as [Hc|(p0 & b0 & HD & H1 & H2)].
    + rewrite fmap_app in Hc. apply contiguous_app in Hc as [Hc0 (H1 & H2 & _)].
      apply contiguous_app. split; [done|]. simpl in *. split_and!; [done|lia|done].
    + destruct D0; [|by destruct D0]. simpl in *. simplify_eq/=. split_and!; [done|lia|done].
  - by destruct D0.
  - by rewrite fmap_app, end_of_app.
Qed.
Lemma block_chain_snoc c D q bn c' :
  block_chain c D → c ≠ [] → StartIndex bn = Z.of_nat (length c) → EndIndex bn = Z.of_nat (length c') →
  StartIndex bn < EndIndex bn → block_chain c' (D ++ [(q, bn)]).
Proof.
  intros (Hc & _ & Hend) Hne H1 H2 H3. split_and!.
  - left. destruct Hc as [Hc|(p0 & b0 & -> & K1 & K2)].
    + rewrite fmap_app. apply contiguous_app. split; [done|]. simpl. split_and!; [lia|done|done].
    + unfold end_of in Hend. simpl in Hend. destruct c; [done|]. simpl in *. lia.
  - by destruct D.
  - by rewrite fmap_app, end_of_app.
Qed.

Lemma file_ok_append_last c hp h h' cc l1 D0 p b x cs ext n n' :
  file_ok c hp h cc (D0 ++ [(p, b)]) cs None None n → blocks n !! p = Some x →
  mkKeyPair (StartIndex b) p ∈ pairs (cache_lru cc) → ext ≠ [] →
  let e := Z.of_nat (length (c ++ ext)) in e < 2 ^ 62 →
  lru_inv (l1, blocks n') → pairs l1 = pairs (cache_lru cc) → Capacity l1 = Capacity (cache_lru cc) →
  rt_handles n' !! hp = Some h' → CacheObj h' = CacheObj h → hPath h' = hPath h →
  chunks n' = chunks n → caches n' = <[CacheObj h := cache_with_lru l1 cc]> (caches n) →
  blocks n' = <[p := block_set DirtyBlock (block_with_end e (block_with_data (Data x ++ ext) x))]> (blocks n) →
  file_ok (c ++ ext) hp h' (cache_with_lru l1 cc) (D0 ++ [(p, block_with_end e b)]) cs None None n'.
Proof.
  intros Hok Hx Hp Hext e He Hlru Hpairs Hcap Hh' Hco Hpa Hs' Hc' Hb'.
  assert (Hin : (p, b) ∈ D0 ++ [(p, b)]) by (apply elem_of_app; right; left).
  destruct (file_ok_block _ _ _ _ _ _ _ _ _ _ _ Hok Hin) as (x0 & Hx0 & Hg & Hbo & H0 & H1 & H2).
  rewrite Hx in Hx0. injection Hx0 as <-. pose proof Hg as (G1 & G2 & G3).
  pose proof (fo_chain _ _ _ _ _ _ _ _ _ Hok) as Hch. pose proof (block_chain_end _ _ _ _ Hch) as Hend.
  assert (Hlt : Z.of_nat (length c) < e) by (unfold e; rewrite length_app; destruct ext; [done|simpl; lia]).
  assert (Hdata : Data x = slice c (StartIndex x) (EndIndex x)).
  { apply (bo_cached _ _ _ _ _ _ _ Hbo); [done|by rewrite G1]. }
  set (y := block_with_end e (block_with_data (Data x ++ ext) x)) in *.
  destruct (set_dirty_block y) as (Hdx & Htx & Hrx).
  assert (Hy : Data x ++ ext = slice (c ++ ext) (StartIndex x) e).
  { rewrite Hdata, <-(slice_app (c ++ ext) _ (EndIndex x)) by lia. f_equal.
    - symmetry. apply slice_app_l; lia.
    - unfold slice. rewrite G2, Hend, drop_app_length' by lia. symmetry. apply take_ge.
      unfold e. rewrite length_app. lia. }
  destruct Hok as [Hfh Hfc Hfcs Hfs Hfl Hfnd Hfch Hfi Hfci Hfsm Hfid Hflru Hfcap Hfp Hfb Hfsy].
  assert (HD : ∀ q bq, (q, bq) ∈ D0 ++ [(p, block_with_end e b)] →
    (q = p ∧ bq = block_with_end e b) ∨ (q ≠ p ∧ (q, bq) ∈ D0 ++ [(p, b)])).
  { intros q bq [Hq|Hq%list_elem_of_singleton]%elem_of_app; [right|left; by simplify_eq].
    split; [|apply elem_of_app; by left]. intros ->. rewrite fmap_app in Hfnd.
    apply NoDup_app in Hfnd as (_ & Hdis & _). apply (Hdis p); [apply list_elem_of_fmap; by exists (p, bq)|left]. }
  split; simpl; rewrite ?Hs', ?Hco, ?Hpa, ?Hpairs, ?Hcap; try done.
  - by rewrite Hc', lookup_insert_eq.
  - rewrite Hfl, !fmap_app. done.
  - rewrite !fmap_app in *. done.
  - eapply block_chain_last; [done|done|lia].
  - rewrite !fmap_app in *. done.
  - intros kp Hkp. destruct (Hfp kp Hkp) as (bk & Hbk & Hst).
    apply elem_of_app in Hbk as [Hbk|Hbk%list_elem_of_singleton].
    + exists bk. split; [apply elem_of_app; by left|done].
    + injection Hbk as Hv ->. exists (block_with_end e b). split; [apply elem_of_app; right; rewrite Hv; left|done].
  - intros q bq Hqin. rewrite Hb'. destruct (HD q bq Hqin) as [[-> ->]|[Hne Hold]].
    + rewrite lookup_insert_eq. exists (block_set DirtyBlock y). split; [done|]. split; [done|].
      split; try done; rewrite ?Hdx, ?Htx, ?Hrx; simpl; try done; [intros _; split; [done|lia]| |apply Hbo].
      intros _ _. by rewrite Hpairs, G1.
    + rewrite lookup_insert_ne by done. destruct (Hfb q bq Hold) as (xq & Hxq & Hgq & Hbq).
      exists xq. split; [done|]. split; [done|]. destruct Hgq as (Q1 & Q2 & _).
      destruct (chain_bounds _ _ _ _ Hch Hold) as (? & ? & ?).
      destruct (block_ok_content c (c ++ ext) _ _ _ _ _ _ Hbq) as [B1 B2 B3 B4 B5]; [apply slice_app_l; lia|].
      split; simpl; rewrite ?Hpairs; done.
  - intros Hcl. exfalso. assert (Hc0 : Dirty (block_set DirtyBlock y) = false); [|congruence].
    apply (Hcl p (block_with_end e b)); [apply elem_of_app; right; left|]. by rewrite Hb', lookup_insert_eq.
Qed.

Lemma file_ok_append_block c hp h cc D cs q bn ext n n' :
  file_ok c hp h cc D cs None None n → blocks n !! q = None → c ≠ [] → ext ≠ [] →
  Z.of_nat (length (c ++ ext)) < 2 ^ 62 →
  StartIndex bn = Z.of_nat (length c) → EndIndex bn = Z.of_nat (length (c ++ ext)) →
  Dirty bn = true → Truncated bn = false → Removed bn = false → Data bn = ext → Id bn ∉ Id <$> D.*2 → Id bn ≠ "" →
  rt_handles n' = rt_handles n → chunks n' = chunks n →
  caches n' = <[CacheObj h := cache_with_list (cache_list cc ++ [q]) cc]> (caches n) →
  blocks n' = <[q := bn]> (blocks n) →
  file_ok (c ++ ext) hp h (cache_with_list (cache_list cc ++ [q]) cc) (D ++ [(q, bn)]) cs None (Some q) n'.
Proof.
  intros Hok Hq Hne Hext Hsm Hst Hen Hd Ht Hr Hdata Hid Hid0 Hh' Hs' Hc' Hb'.
  pose proof (fo_chain _ _ _ _ _ _ _ _ _ Hok) as Hch.
  destruct Hok as [Hfh Hfc Hfcs Hfs Hfl Hfnd Hfch Hfi Hfci Hfsm Hfid Hflru Hfcap Hfp Hfb Hfsy].
  assert (Hlt : StartIndex bn < EndIndex bn).
  { rewrite Hst, Hen, length_app. destruct ext; [done|simpl; lia]. }
  assert (Hsl : ext = slice (c ++ ext) (StartIndex bn) (EndIndex bn)).
  { unfold slice. rewrite Hst, Hen, drop_app_length' by lia. symmetry. apply take_ge. rewrite length_app. lia. }
  assert (Hnew : q ∉ D.*1).
  { intros ([q' b'] & -> & Hin)%list_elem_of_fmap. destruct (Hfb _ _ Hin) as (x & Hx & _). simpl in *. congruence. }
  split; simpl; rewrite ?Hs', ?Hh'; try done.
  - by rewrite Hc', lookup_insert_eq.
  - by rewrite Hfl, fmap_app.
  - rewrite fmap_app. apply NoDup_app. split; [done|]. split; [|apply NoDup_singleton].
    intros y Hy Hy'%list_elem_of_singleton. simpl in Hy'. by subst y.
  - by eapply block_chain_snoc.
  - destruct Hfi as [Hfi Hfi0]. rewrite !fmap_app. split.
    + apply NoDup_app. split; [done|]. split; [|apply NoDup_singleton].
      intros y Hy Hy'%list_elem_of_singleton. simpl in Hy'. by subst y.
    + intros [?|Hy%list_elem_of_singleton]%elem_of_app; [done|by apply Hid0].
  - rewrite Hb'. eapply lru_inv_frame; [exact Hflru|]. intros p Hp. apply lookup_insert_ne. intros <-.
    apply list_elem_of_fmap in Hp as (kp & -> & Hkp). destruct (Hfp kp Hkp) as (b & Hin & _).
    apply Hnew. apply list_elem_of_fmap. by exists (value kp, b).
  - intros kp Hkp. destruct (Hfp kp Hkp) as (b & Hin & ?). exists b. split; [apply elem_of_app; by left|done].
  - intros p b [Hin|Hin%list_elem_of_singleton]%elem_of_app; rewrite Hb'.
    + destruct (Hfb p b Hin) as (x & Hx & Hg & Hbo). pose proof Hg as (G1 & G2 & _).
      assert (Hpq : p ≠ q) by congruence. rewrite lookup_insert_ne by done. exists x.
      split; [done|]. split; [done|]. rewrite (bool_decide_false (Some q = Some p)) by congruence.
      destruct (chain_bounds _ _ _ _ Hch Hin) as (? & ? & ?).
      destruct (block_ok_content c (c ++ ext) _ _ _ _ _ _ Hbo) as [B1 B2 B3 B4 B5]; [apply slice_app_l; lia|].
      split; simpl; done.
    + injection Hin as -> ->. rewrite lookup_insert_eq. exists bn. split; [done|]. split; [done|].
      rewrite (bool_decide_true (Some q = Some q)) by done.
      split; try done; rewrite ?Hd, ?Hdata; done.
  - intros Hcl. exfalso. assert (Hc0 : Dirty bn = false); [|congruence].
    apply (Hcl q bn); [apply elem_of_app; right; left|]. by rewrite Hb', lookup_insert_eq.
Qed.

Lemma wp_rw_append_last c hp h cc D0 p b cs empty rest dr s n :
  file_ok c hp h cc (D0 ++ [(p, b)]) cs None None n → hSize h = Z.of_nat (length c) →
  rest ≠ [] → 0 ≤ empty → Z.of_nat (length c) + empty + Z.of_nat (length rest) < 2 ^ 62 →
  wp (rw_append_last next hp p empty rest dr) (λ r s', r = (Z.of_nat (dr + length rest), None) ∧ s'.1 = s ∧
    ∃ cc' D' cs', let c' := c ++ make_bytes empty ++ rest in
      file_ok c' hp (handle_with_size (Z.of_nat (length c')) h) cc' D' cs' None None s'.2) (s, n).
Proof.
  intros Hok Hsz Hrest Hempty Hsm. unfold rw_append_last.
  assert (Hin : (p, b) ∈ D0 ++ [(p, b)]) by (apply elem_of_app; right; left).
  apply wp_bind. eapply wp_mono; [by apply (wp_rw_getBlock c hp h cc (D0 ++ [(p, b)]) cs p b)|].
  intros [[p1 f1] e1] [s1 n1] (Hs1 & Hp1 & He1 & cc1 & cs1 & Hok1 & Hca1 & _ & _). cbn [fst snd] in *. subst s1 p1 e1.
  rewrite (bool_decide_false (None ≠ None)) by tauto.
  destruct (file_ok_block _ _ _ _ _ _ _ _ _ _ _ Hok1 Hin) as (x & Hx & (G1 & G2 & G3) & Hbo & H0 & H1 & H2).
  pose proof (block_chain_end _ _ _ _ (fo_chain _ _ _ _ _ _ _ _ _ Hok1)) as Hend.
  apply wp_bind. eapply wp_load_blk; [done|].
  apply wp_bind.
  eapply (wp_mono _ (λ z s', z = make_bytes empty ∧ s' = (s, n1))).
  { destruct (Z.ltb_spec 0 empty); [apply wp_make_go; [lia|done]|]. apply wp_ret.
    by replace empty with 0 by lia. }
  intros z s2 [-> ->]. set (ext := make_bytes empty ++ rest).
  assert (Hel : Z.of_nat (length ext) = empty + Z.of_nat (length rest)).
  { unfold ext. rewrite length_app, make_bytes_length. lia. }
  assert (Hext : ext ≠ []).
  { unfold ext. destruct rest; [done|]. by destruct (make_bytes empty). }
  set (e := Z.of_nat (length (c ++ ext))).
  assert (He : i64 (EndIndex x + Z.of_nat (length rest) + empty) = e).
  { rewrite i64_small by (unfold is_i64; lia). unfold e. rewrite length_app. lia. }
  apply wp_bind. eapply wp_upd_blk; [done|]. rewrite He. clear He.
  set (xd := block_with_data _ x). set (n2 := set_blocks _ _).
  assert (Hh2 : rt_handles n2 = rt_handles n1) by (unfold n2; by heap).
  assert (Hc2 : caches n2 = caches n1) by (unfold n2; by heap).
  assert (Hb2 : blocks n2 = <[p:=xd]> (blocks n1)) by (unfold n2; by heap).
  assert (Hs2 : chunks n2 = chunks n1) by (unfold n2; by heap). clearbody n2.
  apply wp_bind. eapply wp_lru; [rewrite Hh2; apply Hok1|rewrite Hc2; apply Hok1|].
  eapply wp_mono; [apply (wp_lru_Resize _ _ p xd)|].
  - simpl. rewrite Hb2. eapply lru_inv_store; [apply Hok1|done|done].
  - simpl. by rewrite G1.
  - simpl. by rewrite Hb2, lookup_insert_eq.
  - intros u [l3 m3] (Hinv3 & Hp3 & Hcap3 & Hm3). simpl in *. rewrite Hb2, insert_insert_eq in Hm3.
    apply wp_bind. eapply wp_upd_blk; [heap; simpl; by rewrite Hm3, lookup_insert_eq|].
    apply wp_bind. eapply wp_load_blk; [heap; by rewrite lookup_insert_eq|]. simpl.
    apply wp_bind. eapply wp_stream_upd_h; [heap; rewrite Hh2; apply Hok1|].
    apply wp_ret. split; [done|]. split; [done|].
    exists (cache_with_lru l3 cc1), (D0 ++ [(p, block_with_end e b)]), cs1. cbn [fst snd]. fold ext. fold e.
    eapply (file_ok_append_last c hp h _ cc1 l3 D0 p b x cs1 ext n1); try done; heap; try done.
    + unfold e. rewrite length_app. lia.
    + simpl. eapply lru_inv_store; [exact Hinv3|by rewrite Hm3, lookup_insert_eq|done].
    + by rewrite lookup_insert_eq.
    + simpl. by rewrite Hc2.
    + simpl. by rewrite Hm3, insert_insert_eq.
Qed.

Lemma file_ok_same c hp h cc D cs e l n n' :
  file_ok c hp h cc D cs e l n → same_but chunks n n' → file_ok c hp h cc D cs e l n'.
Proof.
  intros Hok (Hh & Hheap & Hs).
  assert (Hc : caches n' = caches n) by (unfold caches; by rewrite Hheap).
  assert (Hb : blocks n' = blocks n) by (unfold blocks; by rewrite Hheap).
  destruct Hok. split; rewrite ?Hh, ?Hc, ?Hs, ?Hb; done.
Qed.
(** The size and the flags of the handle are not part of the invariant. *)
Lemma file_ok_handle c hp h h' cc D cs n n' :
  file_ok c hp h cc D cs None None n → CacheObj h' = CacheObj h → hPath h' = hPath h →
  rt_handles n' = <[hp := h']> (rt_handles n) → ch_heap n' = ch_heap n →
  chunks n' = chunks n → file_ok c hp h' cc D cs None None n'.
Proof.
  intros Hok Hco Hpa Hh Hheap Hs.
  assert (Hc : caches n' = caches n) by (unfold caches; by rewrite Hheap).
  assert (Hb : blocks n' = blocks n) by (unfold blocks; by rewrite Hheap).
  destruct Hok. split; rewrite ?Hh, ?Hc, ?Hs, ?Hb, ?Hco, ?Hpa; try done. by rewrite lookup_insert_eq.
Qed.

(** The id the next draw gives. *)
Definition next_id (n : N) (len : Z) : string :=
  match NewUUIDWithLength len (Some (rand_bytes n len)) with
  | Ret id => base64_EncodeToString id
  | _ => ""
  end.
Definition fresh_id (n : N) (D : list (ptr * Block)) : Prop :=
  ∀ len, 9 ≤ len → next_id n len ∉ Id <$> D.*2.

Lemma next_id_length len n : 9 ≤ len → GetIdLength (next_id n len) = len.
Proof.
  intros Hlen. unfold next_id.
  destruct (NewUUIDWithLength_Ret len (rand_bytes n len)) as (u & Hu & Hl); [done|by apply sr_length; lia|].
  by rewrite Hu.
Qed.
Lemma next_id_nonempty len n : 9 ≤ len → next_id n len ≠ "".
Proof. intros Hlen He. pose proof (next_id_length len n Hlen) as Hl. rewrite He in Hl. vm_compute in Hl. lia. Qed.

Lemma wp_stream_id len s n :
  9 ≤ len → wp (stream_id len) (λ id s', id = next_id n len ∧ s'.1 = s ∧ same_but chunks n s'.2) (s, n).
Proof.
  intros Hlen. unfold stream_id. apply wp_bind, wp_snd. eapply wp_mono; [apply sr_draw|].
  intros u n' [-> Hsame].
  destruct (NewUUIDWithLength_Ret len (rand_bytes n len)) as (id & Hid & _); [done|by apply sr_length; lia|].
  rewrite Hid. apply wp_ret. unfold next_id. by rewrite Hid.
Qed.

Lemma wp_rw_append_block c hp h cc D cs lb empty rest dr s n :
  file_ok c hp h cc D cs None None n → hSize h = Z.of_nat (length c) → c ≠ [] → fresh_id n D →
  EndIndex lb = Z.of_nat (length c) →
  rest ≠ [] → 0 ≤ empty → Z.of_nat (length c) + empty + Z.of_nat (length rest) < 2 ^ 62 →
  wp (rw_append_block next hp lb (Z.of_nat (length c) + empty) empty rest dr) (λ r s',
    r = (Z.of_nat (dr + length rest), None) ∧ s'.1 = s ∧
    ∃ cc' D' cs', let c' := c ++ make_bytes empty ++ rest in
      file_ok c' hp (handle_with_size (Z.of_nat (length c')) h) cc' D' cs' None None s'.2) (s, n).
Proof.
  intros Hok Hsz Hne Hfresh Hlb Hrest Hempty Hsm. unfold rw_append_block.
  apply wp_bind. eapply wp_get_c; [apply Hok..|].
  apply wp_bind. eapply wp_mono; [apply wp_stream_id, Hok|].
  intros id [s1 n1] (-> & Hs1 & Hsame). cbn [fst snd] in *. subst s1.
  pose proof (file_ok_same _ _ _ _ _ _ _ _ _ _ Hok Hsame) as Hok1.
  set (ext := make_bytes empty ++ rest).
  assert (Hel : Z.of_nat (length ext) = empty + Z.of_nat (length rest)).
  { unfold ext. rewrite length_app, make_bytes_length. lia. }
  assert (Hext : ext ≠ []).
  { unfold ext. destruct rest; [done|]. by destruct (make_bytes empty). }
  set (e := Z.of_nat (length (c ++ ext))).
  assert (He : e = Z.of_nat (length c) + Z.of_nat (length ext)) by (unfold e; rewrite length_app; lia).
  rewrite Hlb. replace (i64 (Z.of_nat (length c) + Z.of_nat (length rest) + empty)) with e
    by (rewrite i64_small by (unfold is_i64; lia); lia).
  rewrite (i64_small (e - _)) by (unfold is_i64; lia).
  replace (i64 (Z.of_nat (length c) + empty - Z.of_nat (length c))) with empty
    by (rewrite i64_small by (unfold is_i64; lia); lia).
  apply wp_bind, wp_make_go; [lia|]. apply wp_bind, wp_from_go; [rewrite make_bytes_length; lia|].
  assert (Hcp : copy_at (make_bytes (e - Z.of_nat (length c))) (Z.to_nat empty) rest = (ext, length rest)).
  { rewrite copy_at_full by (rewrite make_bytes_length; lia). f_equal.
    rewrite drop_ge, app_nil_r by (rewrite make_bytes_length; lia). unfold ext, make_bytes. f_equal.
    rewrite take_replicate. f_equal. lia. }
  rewrite Hcp. apply wp_bind, wp_new_blk. intros q Hq Hqn.
  set (bn := block_set DirtyBlock _). destruct (set_dirty_block (mkBlock (Z.of_nat (length c)) e 0 (next_id n (cache_idlen cc)) ext)) as (Hd & Ht & Hr).
  fold bn in Hd, Ht, Hr.
  apply wp_bind. eapply wp_upd_c; [heap; apply Hok1|heap; apply Hok1|].
  set (n2 := set_caches _ _).
  assert (Hok2 : file_ok (c ++ ext) hp h (cache_with_list (cache_list cc ++ [q]) cc) (D ++ [(q, bn)]) cs None (Some q) n2).
  { eapply (file_ok_append_block c hp h cc D cs q bn ext n1); try done; unfold n2; heap; try done.
    - fold e. lia.
    - apply Hfresh, Hok.
    - apply next_id_nonempty, Hok. }
  assert (Hx2 : blocks n2 !! q = Some bn) by (unfold n2; heap; by rewrite lookup_insert_eq). clearbody n2.
  assert (Hqin : (q, bn) ∈ D ++ [(q, bn)]) by (apply elem_of_app; right; left).
  apply wp_bind. eapply wp_mono; [eapply (wp_rw_putBlock _ _ _ _ _ _ None (Some q) q bn bn); [exact Hok2|done|done| |by right|]|].
  - intros (kp & Hv & Hkp)%list_elem_of_fmap. simpl in Hkp.
    destruct (fo_pairs _ _ _ _ _ _ _ _ _ Hok1 kp Hkp) as (b & Hin & _).
    destruct (fo_blocks _ _ _ _ _ _ _ _ _ Hok1 _ _ Hin) as (x & Hx & _). congruence.
  - right. simpl. unfold slice. rewrite drop_app_length' by lia. symmetry. apply take_ge. lia.
  - intros err [s3 n3] (Hs3 & -> & cc3 & cs3 & x3 & Hok3 & _). cbn [fst snd] in *. subst s3.
    rewrite (bool_decide_false (None ≠ None)) by tauto.
    apply wp_bind. eapply wp_stream_upd_h; [apply Hok3|]. apply wp_ret. split; [done|]. split; [done|].
    exists cc3, (D ++ [(q, bn)]), cs3. cbn [fst snd]. fold ext. fold e.
    eapply file_ok_handle; [exact Hok3|done|done|by heap| |by heap]. apply ch_get_set_handles.
Qed.

(** ** The blocks FindBlocks gives *)
Definition covers (D : list (ptr * Block)) (blks : list ptr) (off stop : Z) : Prop :=
  ∃ j m p b, blks = take m (drop j D.*1) ∧ D !! j = Some (p, b) ∧ holds off b ∧
    ∀ i p' b', (j + m ≤ i)%nat → D !! i = Some (p', b') → stop < StartIndex b'.

(** The first block found holds the offset; the rest covers what is after it. *)
Lemma covers_cons c D blks off stop :
  block_chain c D → covers D blks off stop → off ≤ stop →
  ∃ p b blks', blks = p :: blks' ∧ (p, b) ∈ D ∧ holds off b ∧
    (EndIndex b < Z.of_nat (length c) → EndIndex b ≤ stop → covers D blks' (EndIndex b) stop).
Proof.
  intros Hch (j & m & p & b & -> & Hj & Hh & Hrest) Hle.
  assert (Hm : (0 < m)%nat).
  { destruct m; [|lia]. specialize (Hrest j p b ltac:(lia) Hj). unfold holds in Hh. lia. }
  destruct m as [|m]; [lia|].
  assert (Hdj : drop j D.*1 = p :: drop (S j) D.*1).
  { apply drop_S. by rewrite list_lookup_fmap, Hj. }
  exists p, b, (take m (drop (S j) D.*1)). rewrite Hdj. split; [done|].
  split; [by eapply list_elem_of_lookup_2|]. split; [done|]. intros Hend Hstop.
  destruct Hch as (Hc & _ & Htot). destruct Hc as [Hc|(p0 & b0 & -> & K1 & K2)]; cycle 1.
  { apply list_lookup_singleton_Some in Hj as [_ Hj]. simplify_eq. unfold holds in Hh. lia. }
  apply list_elem_of_split_length in Hj as (l1 & l2 & -> & ->).
  rewrite fmap_app, fmap_cons in Hc, Htot. apply contiguous_app in Hc as [_ (_ & _ & Hc2)].
  rewrite end_of_app, end_of_cons in Htot. simpl in *.
  destruct l2 as [|[p2 b2] l2]; [unfold end_of in Htot; simpl in Htot; lia|].
  exists (S (length l1)), m, p2, b2. split; [done|]. split.
  { rewrite lookup_app_r by lia. replace (S (length l1) - length l1)%nat with 1%nat by lia. done. }
  simpl in Hc2. destruct Hc2 as (H1 & H2 & _). split; [unfold holds; lia|].
  intros i p' b' Hi. apply Hrest. lia.
Qed.

Lemma mapM_seq {A} (l : list A) j m :
  (j + m ≤ length l)%nat → mapM (λ i, l !! i) (seq j m) = Some (take m (drop j l)).
Proof.
  revert j. induction m as [|m IH]; intros j Hj; [done|].
  destruct (lookup_lt_is_Some_2 l j) as [x Hx]; [lia|].
  rewrite (drop_S _ _ _ Hx). simpl. rewrite Hx. simpl. by rewrite IH by lia.
Qed.

Lemma wp_find_blocks c hp h cc D cs off len s n :
  file_ok c hp h cc D cs None None n → 0 ≤ off → 0 ≤ len → off + len < 2 ^ 62 →
  wp (find_blocks hp off len) (λ r s', s' = (s, n) ∧
    if off <? Z.of_nat (length c) then r.2 = true ∧ covers D r.1 off (off + len)
    else r = ([], false)) (s, n).
Proof.
  intros Hok Hoff Hlen Hsm. unfold find_blocks. apply wp_bind. eapply wp_get_c; [apply Hok..|].
  apply wp_bind. unfold wp at 1. cbn [go_gets snd].
  destruct (file_ok_values _ _ _ _ _ _ _ _ _ Hok) as (bs & Hm & Hg & _).
  unfold bol_value. rewrite Hm. cbn [mbind option_bind]. apply wp_bind. unfold wp at 1. cbn [go_deref mret go_ret].
  set (bol := mkBOL _ _ _ _ _).
  destruct (fo_chain _ _ _ _ _ _ _ _ _ Hok) as (Hc & _ & Hend).
  assert (Hend' : end_of 0 bs = end_of 0 D.*2).
  { clear -Hg. unfold end_of. induction Hg as [|x b xs bs' (_ & H2 & _) Hg' IH]; [done|].
    destruct Hg' as [|x' b' xs' bs'' ? ?]; [done|]. rewrite !last_cons_cons. exact IH. }
  destruct (Z.ltb_spec off (Z.of_nat (length c))) as [Hin|Hout].
  - assert (Hcont : contiguous 0 bs).
    { eapply contiguous_geo; [done|]. destruct Hc as [Hc|(p0 & b0 & -> & K1 & K2)]; [done|].
      unfold end_of in Hend. simpl in Hend. lia. }
    destruct (contiguous_split 0 bs off) as (l1 & b & l2 & Hbs & Hh); [done|lia|].
    destruct (FindBlocks_inside bol l1 b l2 off len) as (m & Hm1 & -> & Hafter);
      [done|done|done|lia|unfold is_i64; lia|].
    assert (Hlen2 : length D = length bs) by (rewrite <-(length_fmap snd D); symmetry; by eapply Forall2_length).
    rewrite (fo_list _ _ _ _ _ _ _ _ _ Hok), mapM_seq
      by (rewrite length_fmap, Hlen2, Hbs, length_app; simpl; lia).
    apply wp_bind. unfold wp at 1. cbn [go_deref mret go_ret]. apply wp_ret. split; [done|]. cbn [fst snd].
    split; [done|].
    assert (Hjb : bs !! length l1 = Some b) by (by rewrite Hbs, list_lookup_middle).
    destruct (Forall2_lookup_l _ _ _ _ _ Hg Hjb) as (b' & Hb' & G1 & G2 & _).
    rewrite list_lookup_fmap in Hb'. destruct (D !! length l1) as [[p b0]|] eqn:HDj; simplify_eq/=.
    exists (length l1), m, p, b'. split_and!; try done; [unfold holds in *; lia|].
    intros i p' b'' Hi HDi.
    destruct (Forall2_lookup_r _ _ _ i b'' Hg) as (xi & Hxi & K1 & _); [by rewrite list_lookup_fmap, HDi|].
    rewrite <-K1. apply (Hafter (i - length l1)%nat); [lia|].
    rewrite lookup_app_r in Hxi by lia. done.
  - assert (Hf : FindBlocks bol off len = ([], false)).
    { unfold FindBlocks. destruct Hc as [Hc|(p0 & b0 & -> & K1 & K2)].
      - rewrite (BinarySearch_beyond 0); [done| |simpl; lia]. by eapply contiguous_geo.
      - simpl in Hg. apply Forall2_cons_inv_r in Hg as (x & l' & (G1 & G2 & _) & ->%Forall2_nil_inv_r & ->).
        assert (HB : BinarySearch bol off = (false, 1)); [|by rewrite HB].
        unfold BinarySearch, bol. simpl. rewrite G1, G2, K1, K2.
        destruct (Z.ltb_spec off 0); [lia|]. simpl. rewrite (proj2 (Z.leb_le 0 off)) by lia. done. }
    rewrite Hf. apply wp_bind. unfold wp at 1. cbn [mapM go_deref mret go_ret option_ret]. by apply wp_ret.
Qed.

(** ** The loop *)
Lemma handle_with_size_id h size : hSize h = size → handle_with_size size h = h.
Proof. intros <-. by destruct h. Qed.
Lemma copy_at_take {A} (dst : list A) off src :
  (copy_at dst off src).1 = (copy_at dst off (take (copy_at dst off src).2 src)).1.
Proof.
  unfold copy_at. cbn [fst snd]. set (n := Nat.min (length dst - off) (length src)).
  replace (Nat.min (length dst - off) (length (take n src))) with n by (rewrite length_take; lia).
  by rewrite take_take, Nat.min_id.
Qed.

(** The content after a write: nothing changes when there is no data. *)
Definition write_at (c : list byte) (off : Z) (d : list byte) : list byte :=
  if decide (d = []) then c else splice c (Z.to_nat off) d.
Lemma write_at_chain c off d k :
  0 ≤ off → (0 < k ≤ length d)%nat →
  write_at (splice c (Z.to_nat off) (take k d)) (off + Z.of_nat k) (drop k d) = write_at c off d.
Proof.
  intros Hoff Hk. unfold write_at. rewrite (decide_False (P := d = [])) by (intros ->; simpl in *; lia).
  case_decide as Hd.
  - assert (Hl : (length d ≤ k)%nat) by (apply (f_equal length) in Hd; rewrite length_drop in Hd; simpl in Hd; lia).
    by rewrite take_ge.
  - replace (Z.to_nat (off + Z.of_nat k)) with (Z.to_nat off + k)%nat by lia. apply splice_chain. lia.
Qed.
Lemma write_at_append c off d :
  Z.of_nat (length c) ≤ off → d ≠ [] → write_at c off d = c ++ make_bytes (off - Z.of_nat (length c)) ++ d.
Proof.
  intros Hoff Hd. unfold write_at. rewrite decide_False by done. rewrite splice_append by lia.
  unfold make_bytes. do 3 f_equal. lia.
Qed.

(** One round of the loop inside the file. *)
Lemma wp_rw_round c hp h cc D cs p b off s n :
  file_ok c hp h cc D cs None None n → hSize h = Z.of_nat (length c) → (p, b) ∈ D → holds off b →
  wp (rw_getBlock next hp p) (λ r s', s'.1 = s ∧ r.1.1 = p ∧ r.2 = None ∧ ∃ cc' cs' x,
    file_ok c hp h cc' D cs' None None s'.2 ∧ mkKeyPair (StartIndex b) p ∈ pairs (cache_lru cc') ∧
    rand_bytes s'.2 = rand_bytes n ∧ blocks s'.2 !! p = Some x ∧ StartIndex x = StartIndex b ∧
    EndIndex x = EndIndex b ∧ Data x = slice c (StartIndex x) (EndIndex x) ∧
    0 ≤ StartIndex x ∧ EndIndex x ≤ Z.of_nat (length c) ∧
    length (Data x) = Z.to_nat (EndIndex x - StartIndex x) ∧ (all_clean D n → all_clean D s'.2)) (s, n).
Proof.
  intros Hok Hsz Hin Hh. eapply wp_mono; [by apply (wp_rw_getBlock c hp h cc D cs p b)|].
  intros r s' (H1 & H2 & H3 & cc1 & cs1 & Hok1 & Hca & Hr & Hac). split_and!; try done. exists cc1, cs1.
  destruct (file_ok_block _ _ _ _ _ _ _ _ _ _ _ Hok1 Hin) as (x & Hx & (G1 & G2 & _) & Hbo & H0 & Hb1 & Hb2).
  exists x. assert (Hd : Data x = slice c (StartIndex x) (EndIndex x)).
  { apply (bo_cached _ _ _ _ _ _ _ Hbo); [done|by rewrite G1]. }
  split_and!; try done. rewrite Hd. apply slice_length; lia.
Qed.

(** The rounds past the end of the file. *)
Lemma wp_rw_append c hp h cc D0 lp lb lx cs off (rest : list byte) dr (data : list byte) s n :
  let D := D0 ++ [(lp, lb)] in
  file_ok c hp h cc D cs None None n → hSize h = Z.of_nat (length c) →
  blocks n !! lp = Some lx → EndIndex lx = EndIndex lb → Z.of_nat (length c) ≤ off → rest ≠ [] →
  length data = (dr + length rest)%nat → off + Z.of_nat (length rest) < 2 ^ 62 → fresh_id n D →
  wp (if (i64 (i64 (EndIndex lx - StartIndex lx) +
               i64 (i64 (off - EndIndex lx) + Z.of_nat (length rest))) <=? sc_BlockSize conf)
         || (EndIndex lx =? 0) then
        '(n, err) ← rw_append_last next hp lp (i64 (off - EndIndex lx)) rest dr; mret (data, n, err)
      else
        '(n, err) ← rw_append_block next hp lx off (i64 (off - EndIndex lx)) rest dr; mret (data, n, err))
    (λ r s', r = (data, Z.of_nat (length data), None) ∧ s'.1 = s ∧ ∃ cc' D' cs',
    let c' := write_at c off rest in
    file_ok c' hp (handle_with_size (Z.of_nat (length c')) h) cc' D' cs' None None s'.2) (s, n).
Proof.
  intros D Hok Hsz Hlx L2 Hout Hne Hrl Hsm Hfresh.
  pose proof (block_chain_end _ _ _ _ (fo_chain _ _ _ _ _ _ _ _ _ Hok)) as Hend.
  rewrite (i64_small (off - _)) by (unfold is_i64; lia).
  assert (Hwa : write_at c off rest = c ++ make_bytes (off - EndIndex lx) ++ rest).
  { rewrite L2, Hend. by apply write_at_append. }
  rewrite Hwa. destruct ((_ <=? _) || (EndIndex lx =? 0)) eqn:Ecase.
  - apply wp_bind. eapply wp_mono; [eapply (wp_rw_append_last c hp h cc D0 lp lb cs (off - EndIndex lx) rest dr); try done; lia|].
    intros r s' (-> & Hs' & Hex). apply wp_ret. by rewrite Hrl.
  - apply orb_false_iff in Ecase as [_ Hnz%Z.eqb_neq].
    apply wp_bind. eapply wp_mono.
    + replace off with (Z.of_nat (length c) + (off - EndIndex lx)) at 1 by lia.
      eapply (wp_rw_append_block c hp h cc D cs lx (off - EndIndex lx) rest dr); try done; try lia.
      intros ->. simpl in *. lia.
    + intros r s' (-> & Hs' & Hex). apply wp_ret. by rewrite Hrl.
Qed.

Lemma wp_rw_loop_write blks c hp h cc D0 lp lb cs off dr data s n :
  let D := D0 ++ [(lp, lb)] in let rest := drop dr data in
  file_ok c hp h cc D cs None None n → hSize h = Z.of_nat (length c) → 0 ≤ off →
  (dr ≤ length data)%nat → off + Z.of_nat (length rest) < 2 ^ 62 → fresh_id n D →
  (off < Z.of_nat (length c) → rest ≠ [] → covers D blks off (off + Z.of_nat (length rest))) →
  wp (rw_loop conf next hp lp blks off dr data true) (λ r s',
    r = (data, Z.of_nat (length data), None) ∧ s'.1 = s ∧ ∃ cc' D' cs',
    let c' := write_at c off rest in
    file_ok c' hp (handle_with_size (Z.of_nat (length c')) h) cc' D' cs' None None s'.2) (s, n).
Proof.
  intros D. revert c cc cs off dr n. induction blks as [|bp blks IH];
    intros c cc cs off dr n rest Hok Hsz Hoff Hdr Hsm Hfresh Hcov;
    assert (Hlp : (lp, lb) ∈ D) by (apply elem_of_app; right; left);
    destruct (file_ok_block _ _ _ _ _ _ _ _ _ _ _ Hok Hlp) as (lx & Hlx & (L1 & L2 & _) & _);
    pose proof (block_chain_end _ _ _ _ (fo_chain _ _ _ _ _ _ _ _ _ Hok)) as Hend;
    pose proof (fo_small _ _ _ _ _ _ _ _ _ Hok) as Hcs.
  all: cbn [rw_loop]; fold rest; destruct (decide (0 < length rest)%nat) as [Hpos|Hzero]; cycle 1.
  1, 3: assert (Hr0 : rest = []) by (apply nil_length_inv; lia); apply wp_ret; split_and!;
    [unfold rest in Hzero; rewrite length_drop in Hzero; do 3 f_equal; lia|done|];
    exists cc, D, cs; unfold write_at; rewrite decide_True by done; by rewrite handle_with_size_id.
  all: assert (Hne : rest ≠ []) by (intros E; rewrite E in Hpos; simpl in Hpos; lia).
  all: assert (Hrl : length data = (dr + length rest)%nat) by (unfold rest in *; rewrite length_drop in *; lia).
  all: apply wp_bind; eapply wp_load_blk; [done|].
  all: destruct (Z.ltb_spec off (EndIndex lx)) as [Hin|Hout]; [|by apply (wp_rw_append c hp h cc D0 lp lb lx cs); try done; lia].
  all: rewrite L2, Hend in Hin.
  - destruct (covers_cons _ _ _ _ _ (fo_chain _ _ _ _ _ _ _ _ _ Hok) (Hcov Hin Hne)) as (p & b & blks' & Heq & Hpin & Hh & Hnext);
      [lia|]. injection Heq as <- <-.
    apply wp_bind. eapply wp_mono; [by apply (wp_rw_round c hp h cc D cs bp b off)|].
    intros [[p1 f1] e1] [s1 n1] (Hs1 & Hp1 & He1 & cc1 & cs1 & x & Hok1 & Hca & Hr1 & Hx & G1 & G2 & Hdx & Hx0 & Hx1 & Hxl & Hac).
    cbn [fst snd] in *. subst s1 p1 e1. rewrite (bool_decide_false (None ≠ None)) by tauto.
    unfold holds in Hh. rewrite <-G1, <-G2 in Hh. rewrite <-G2 in Hnext.
    apply wp_bind. eapply wp_load_blk; [done|]. apply wp_bind. eapply wp_load_blk; [done|].
    rewrite (i64_small (off - _)) by (unfold is_i64; lia).
    apply wp_bind, wp_from_go; [lia|].
    pose proof (copy_at_take (Data x) (Z.to_nat (off - StartIndex x)) rest) as Htk.
    assert (Hk : (copy_at (Data x) (Z.to_nat (off - StartIndex x)) rest).2 =
      Nat.min (Z.to_nat (EndIndex x - off)) (length rest)) by (unfold copy_at; cbn [snd]; lia).
    destruct (copy_at (Data x) (Z.to_nat (off - StartIndex x)) rest) as [bdata k]. cbn [fst snd] in *.
    apply wp_bind. eapply wp_upd_blk; [done|]. rewrite (i64_small (off + _)) by (unfold is_i64; lia).
    set (n2 := set_blocks _ _). set (d := take k rest) in *.
    assert (Hdl : length d = k) by (unfold d; rewrite length_take; lia).
    assert (Hd0 : d ≠ []) by (intros E; rewrite E in Hdl; simpl in Hdl; lia).
    assert (Hok2 : file_ok (splice c (Z.to_nat off) d) hp h cc1 D cs1 None None n2).
    { eapply (file_ok_write c hp h cc1 D cs1 bp b x off d n1); try done; unfold n2; heap; try done; [lia|lia|].
      unfold written. by rewrite <-Htk. }
    assert (Hl2 : length (splice c (Z.to_nat off) d) = length c) by (apply splice_length_in; lia).
    assert (Hr2 : rand_bytes n2 = rand_bytes n) by (unfold n2, set_blocks; by rewrite sr_set_heap).
    clearbody n2.
    assert (Hdd : drop (dr + k) data = drop k rest) by (unfold rest; by rewrite drop_drop).
    eapply wp_mono; [eapply (IH _ cc1 cs1 (off + Z.of_nat k) (dr + k)%nat n2)|].
    + exact Hok2.
    + by rewrite Hl2.
    + lia.
    + lia.
    + rewrite Hdd, length_drop. lia.
    + intros len Hlen. unfold next_id. rewrite Hr2. by apply Hfresh.
    + rewrite Hl2, Hdd, length_drop. intros Hin2 Hne2.
      assert (Hkr : (k < length rest)%nat).
      { destruct (decide (k < length rest)%nat); [done|]. destruct Hne2. apply drop_ge. lia. }
      replace (off + Z.of_nat k) with (EndIndex x) by lia.
      replace (EndIndex x + Z.of_nat (length rest - k)) with (off + Z.of_nat (length rest)) by lia.
      apply Hnext; lia.
    + intros r s' (-> & Hs' & cc' & D' & cs' & Hfin). split; [done|]. split; [done|]. exists cc', D', cs'.
      cbn zeta in Hfin. rewrite Hdd in Hfin. unfold d in Hfin. by rewrite write_at_chain in Hfin by lia.
  - exfalso. destruct (covers_cons _ _ _ _ _ (fo_chain _ _ _ _ _ _ _ _ _ Hok) (Hcov Hin Hne)) as (? & ? & ? & [=] & _).
    lia.
Qed.

(** Reading: the blocks are fetched, the content stays. *)
Lemma wp_rw_loop_read blks c hp h cc D0 lp lb cs off dr data s n :
  let D := D0 ++ [(lp, lb)] in
  file_ok c hp h cc D cs None None n → hSize h = Z.of_nat (length c) → 0 ≤ off →
  (dr ≤ length data)%nat → off + Z.of_nat (length data - dr) < 2 ^ 62 →
  (off < Z.of_nat (length c) → (dr < length data)%nat → covers D blks off (off + Z.of_nat (length data - dr))) →
  wp (rw_loop conf next hp lp blks off dr data false) (λ r s',
    let q := copy_at data dr (drop (Z.to_nat off) c) in
    r = (q.1, Z.of_nat (dr + q.2), None) ∧ s'.1 = s ∧ rand_bytes s'.2 = rand_bytes n ∧
    (all_clean D n → all_clean D s'.2) ∧ ∃ cc' cs',
    file_ok c hp h cc' D cs' None None s'.2) (s, n).
Proof.
  intros D. revert cc cs off dr data n. induction blks as [|bp blks IH];
    intros cc cs off dr data n Hok Hsz Hoff Hdr Hsm Hcov;
    assert (Hlp : (lp, lb) ∈ D) by (apply elem_of_app; right; left);
    destruct (file_ok_block _ _ _ _ _ _ _ _ _ _ _ Hok Hlp) as (lx & Hlx & (L1 & L2 & _) & _);
    pose proof (block_chain_end _ _ _ _ (fo_chain _ _ _ _ _ _ _ _ _ Hok)) as Hend;
    pose proof (fo_small _ _ _ _ _ _ _ _ _ Hok) as Hcs.
  all: assert (Hnothing : (length data ≤ dr)%nat ∨ Z.of_nat (length c) ≤ off →
    copy_at data dr (drop (Z.to_nat off) c) = (data, 0%nat))
    by (intros Hor; apply copy_at_nothing; [rewrite length_drop; lia|done]).
  all: cbn [rw_loop]; destruct (decide (0 < length (drop dr data))%nat) as [Hpos|Hzero];
    rewrite length_drop in *; cycle 1.
  1, 3: apply wp_ret; cbn zeta; rewrite Hnothing by lia; cbn [fst snd]; rewrite Nat.add_0_r; by eauto 10.
  all: apply wp_bind; eapply wp_load_blk; [done|]; rewrite L2, Hend.
  all: destruct (Z.ltb_spec off (Z.of_nat (length c))) as [Hin|Hout]; cycle 1.
  1, 3: apply wp_ret; cbn zeta; rewrite Hnothing by lia; cbn [fst snd]; rewrite Nat.add_0_r; by eauto 10.
  all: specialize (Hcov Hin ltac:(lia)).
  all: destruct (covers_cons _ _ _ _ _ (fo_chain _ _ _ _ _ _ _ _ _ Hok) Hcov)
    as (p & b & blks' & Heq & Hpin & Hh & Hnext); [lia|]; [idtac].
  all: first [discriminate Heq|injection Heq as <- <-].
  apply wp_bind. eapply wp_mono; [by apply (wp_rw_round c hp h cc D cs bp b off)|].
  intros [[p1 f1] e1] [s1 n1] (Hs1 & Hp1 & He1 & cc1 & cs1 & x & Hok1 & Hca & Hr1 & Hx & G1 & G2 & Hdx & Hx0 & Hx1 & Hxl & Hac).
  cbn [fst snd] in *. subst s1 p1 e1. rewrite (bool_decide_false (None ≠ None)) by tauto.
  unfold holds in Hh. rewrite <-G1, <-G2 in Hh. rewrite <-G2 in Hnext.
  apply wp_bind. eapply wp_load_blk; [done|]. apply wp_bind. eapply wp_load_blk; [done|].
  rewrite (i64_small (off - _)) by (unfold is_i64; lia).
  apply wp_bind, wp_from_go; [lia|].
  set (src := drop (Z.to_nat (off - StartIndex x)) (Data x)).
  assert (Hsrc : src = slice c off (EndIndex x)).
  { unfold src. rewrite Hdx. unfold slice. rewrite skipn_firstn_comm, drop_drop.
    f_equal; [lia|f_equal; lia]. }
  assert (Hslen : length src = Z.to_nat (EndIndex x - off)) by (rewrite Hsrc; apply slice_length; lia).
  assert (Hpre : take (length src) (drop (Z.to_nat off) c) = src) by (by rewrite Hslen, Hsrc).
  pose proof (copy_at_chain data dr src _ Hdr Hpre) as Hchain. cbn zeta in Hchain.
  assert (Hl1 : length (copy_at data dr src).1 = length data) by (apply copy_at_length; lia).
  assert (Hk : (copy_at data dr src).2 = Nat.min (length data - dr) (length src)) by done.
  destruct (copy_at data dr src) as [data1 k]. cbn [fst snd] in *.
  rewrite (i64_small (off + _)) by (unfold is_i64; lia).
  eapply wp_mono; [apply (IH cc1 cs1 (off + Z.of_nat k) (dr + k)%nat data1 n1)|]; try done; try lia.
  - rewrite Hl1. intros Hin2 Hlt.
    replace (off + Z.of_nat k) with (EndIndex x) by lia.
    replace (EndIndex x + Z.of_nat (length data - (dr + k))) with (off + Z.of_nat (length data - dr)) by lia.
    apply Hnext; lia.
  - intros r s' (-> & Hs' & Hr' & Hac' & Hfin). cbn zeta.
    replace (Z.to_nat (off + Z.of_nat k)) with (Z.to_nat off + k)%nat by lia.
    rewrite <-drop_drop, Hchain. cbn [fst snd]. rewrite Nat.add_assoc. split_and!; try done; [congruence|auto].
Qed.
End write.
