(* ===== verification/StreamRefine.v ===== *)
(** * A file open through ReadWriteCache is a file

    Open, read, write, flush and close of ReadWriteCache against the
    operations of a sequence of bytes: reads return it, writes splice into it,
    and after a flush or a close it is what storage holds. *)
From S2P Require Import Prelude GoLib Common HandleMap Internal LRUCache Base64 AzUtils CacheObj Stream StreamSpec StreamWrite.
Open Scope Z_scope.
#[local] Arguments copy_at : simpl never.

Section refine.
Context {N : Type} `{!Runtime N, !CacheHeap N, !CacheHeapLaws N, !StreamEnv N}.
Context (conf : StreamConf) {next : Component N} `{!StreamStore next} `{!StreamEnvLaws (next:=next)}.
Abbreviation st := (Stream * N)%type.
Context (Hcached : sc_StreamOnly conf = false).

(** The handle [hp] is open on the file [path], whose content is [c]. *)
Definition rw_file (c : list byte) (path : string) (hp : ptr) (s : st) : Prop :=
  ∃ h cc D cs, file_ok c hp h cc D cs None None s.2 ∧ hSize h = Z.of_nat (length c) ∧ hPath h = path ∧
    (handle_Dirty h = false → all_clean D s.2).
(** The next random id is not the id of a block of the file. *)
Definition rw_fresh (hp : ptr) (s : st) : Prop :=
  ∀ len h cc p b, 9 ≤ len → rt_handles s.2 !! hp = Some h → caches s.2 !! CacheObj h = Some cc →
    p ∈ cache_list cc → blocks s.2 !! p = Some b → next_id s.2 len ≠ Id b.

Lemma rw_fresh_id c hp h cc D cs s n :
  file_ok c hp h cc D cs None None n → rw_fresh hp (s, n) → fresh_id n D.
Proof.
  intros Hok Hf len Hlen (b & Hid & Hb)%list_elem_of_fmap.
  apply list_elem_of_fmap in Hb as ([p b'] & -> & Hin). simpl in *.
  destruct (fo_blocks _ _ _ _ _ _ _ _ _ Hok p b' Hin) as (x & Hx & (_ & _ & G) & _).
  apply (Hf len h cc p x Hlen); [apply Hok|apply Hok| |done|simpl; congruence].
  rewrite (fo_list _ _ _ _ _ _ _ _ _ Hok). apply list_elem_of_fmap. by exists (p, b').
Qed.

(** A handle with a cache is served from it. *)
Lemma wp_use_cache {A} c hp h cc D cs s n (m : bool → go st A) (Q : A → st → Prop) (dflt : option error → go st A) :
  file_ok c hp h cc D cs None None n → wp (m false) Q (s, n) →
  wp (err ← rw_retry_cache conf next hp; if bool_decide (err ≠ None) then dflt err
      else only ← is_stream_only conf hp; m only) Q (s, n).
Proof.
  intros Hok Hm. unfold rw_retry_cache, is_stream_only. rewrite Hcached.
  apply wp_bind. apply wp_bind. eapply wp_get_c; [apply Hok..|]. rewrite (fo_stream _ _ _ _ _ _ _ _ _ Hok).
  apply wp_ret. rewrite (bool_decide_false (None ≠ None)) by tauto.
  apply wp_bind. apply wp_bind. eapply wp_get_c; [apply Hok..|]. rewrite (fo_stream _ _ _ _ _ _ _ _ _ Hok).
  by apply wp_ret.
Qed.

Lemma last_snoc_cases {A} (D : list (ptr * A)) :
  D ≠ [] → ∃ D0 lp lb, D = D0 ++ [(lp, lb)] ∧ last D.*1 = Some lp.
Proof.
  destruct (last D) as [[lp lb]|] eqn:E; [|by apply last_None in E]. intros _.
  apply last_Some in E as [D0 ->]. exists D0, lp, lb. split; [done|].
  rewrite fmap_app, last_app. done.
Qed.

(** The first part of readWriteBlocks. *)
Lemma wp_rw_ReadInBuffer c path hp off data s :
  rw_file c path hp s → 0 ≤ off → off + Z.of_nat (length data) < 2 ^ 62 →
  wp (rw_ReadInBuffer conf next (mkReadInBufferOptions hp off data)) (λ r s',
    let q := copy_at data 0 (drop (Z.to_nat off) c) in
    r = (q.1, Z.of_nat q.2, None) ∧ rw_file c path hp s') s.
Proof.
  intros (h & cc & D & cs & Hok & Hsz & Hpath & Hdirty) Hoff Hsm. destruct s as [s n]. cbn [fst snd] in *.
  unfold rw_ReadInBuffer. cbn [ReadInBuffer_Handle ReadInBuffer_Data ReadInBuffer_Offset].
  eapply wp_use_cache; [done|]. apply wp_bind. eapply wp_stream_h; [apply Hok|].
  assert (Hnothing : Z.of_nat (length c) ≤ off → copy_at data 0 (drop (Z.to_nat off) c) = (data, 0%nat)).
  { intros Hle. apply copy_at_nothing; [rewrite length_drop|]; lia. }
  assert (Hstay : rw_file c path hp (s, n)) by (by exists h, cc, D, cs).
  destruct (Z.eqb_spec (hSize h) 0) as [Hz|Hz].
  { apply wp_ret. cbv beta zeta. rewrite Hnothing by lia. done. }
  unfold rw_readWriteBlocks. apply wp_bind. eapply wp_mono; [apply (wp_find_blocks c hp h cc D cs); [done|lia..]|].
  intros [blks found] s1 [-> Hfind].
  destruct (Z.ltb_spec off (Z.of_nat (length c))) as [Hin|Hout]; cycle 1.
  { injection Hfind as -> ->. apply wp_ret. cbv beta zeta. rewrite Hnothing by lia. done. }
  destruct Hfind as [Hf Hcov]. cbn [fst snd] in *. subst found. cbn [negb andb].
  apply wp_bind. eapply wp_get_c; [apply Hok..|]. rewrite (fo_list _ _ _ _ _ _ _ _ _ Hok).
  destruct (last_snoc_cases D) as (D0 & lp & lb & -> & Hlast); [apply Hok|]. rewrite Hlast.
  apply wp_bind. unfold wp at 1. cbn [go_deref mret go_ret].
  eapply wp_mono; [apply (wp_rw_loop_read conf blks c hp h cc D0 lp lb cs off 0 data)|]; try done; try lia.
  - intros _ _. by rewrite Nat.sub_0_r.
  - intros r [s1 n1] (-> & _ & _ & Hac & cc' & cs' & Hok'). split; [done|].
    exists h, cc', (D0 ++ [(lp, lb)]), cs'. split_and!; try done. intros Hd. by apply Hac, Hdirty.
Qed.

Lemma wp_rw_WriteFile c path hp off data md s :
  rw_file c path hp s → rw_fresh hp s → 0 ≤ off → off + Z.of_nat (length data) < 2 ^ 62 →
  wp (rw_WriteFile conf next (mkWriteFileOptions hp off data md)) (λ r s',
    r = (Z.of_nat (length data), None) ∧ rw_file (write_at c off data) path hp s') s.
Proof.
  intros (h & cc & D & cs & Hok & Hsz & Hpath & Hdirty) Hfresh Hoff Hsm. destruct s as [s n]. cbn [fst snd] in *.
  pose proof (rw_fresh_id _ _ _ _ _ _ _ _ Hok Hfresh) as Hfr.
  unfold rw_WriteFile. cbn [WriteFile_Handle WriteFile_Data WriteFile_Offset].
  eapply wp_use_cache; [done|]. unfold rw_readWriteBlocks. apply wp_bind.
  apply wp_bind. eapply wp_mono; [apply (wp_find_blocks c hp h cc D cs); [done|lia..]|].
  intros [blks found] s1 [-> Hfind]. rewrite andb_false_r.
  apply wp_bind. eapply wp_get_c; [apply Hok..|]. rewrite (fo_list _ _ _ _ _ _ _ _ _ Hok).
  destruct (last_snoc_cases D) as (D0 & lp & lb & -> & Hlast); [apply Hok|]. rewrite Hlast.
  apply wp_bind. unfold wp at 1. cbn [go_deref mret go_ret].
  eapply wp_mono; [apply (wp_rw_loop_write conf blks c hp h cc D0 lp lb cs off 0 data)|]; try done; try lia.
  - intros Hin _. rewrite (proj2 (Z.ltb_lt _ _) Hin) in Hfind. apply Hfind.
  - intros r [s1 n1] (-> & _ & cc' & D' & cs' & Hok'). cbn [fst snd] in Hok'. rewrite drop_0 in Hok'.
    apply wp_bind. eapply wp_stream_upd_h; [apply Hok'|]. apply wp_ret. split; [done|].
    set (h' := set_dirty _). exists h', cc', D', cs'. cbn [snd]. split_and!; try done.
    + eapply file_ok_handle; [exact Hok'|done|done|by heap| |by heap]. apply ch_get_set_handles.
    + unfold h', handle_Dirty, set_dirty. simpl. rewrite IsSet_Set by (unfold is_bit, HandleFlagDirty; lia).
      by rewrite bool_decide_true by done.
Qed.

(** Storage holds the content. *)
Definition stored (c : list byte) (path : string) (n : N) : Prop :=
  ∃ cs, chunks n !! path = Some cs ∧ bytes_of cs = c.

Lemma wp_rw_FlushFile c path hp s :
  rw_file c path hp s →
  wp (rw_FlushFile conf next (mkFlushFileOptions hp)) (λ r s',
    r = None ∧ s'.1 = s.1 ∧ rw_file c path hp s' ∧ stored c path s'.2) s.
Proof.
  intros (h & cc & D & cs & Hok & Hsz & Hpath & Hdirty). destruct s as [s n]. cbn [fst snd] in *.
  unfold rw_FlushFile, is_stream_only. cbn [FlushFile_Handle]. rewrite Hcached.
  apply wp_bind. apply wp_bind. eapply wp_get_c; [apply Hok..|]. rewrite (fo_stream _ _ _ _ _ _ _ _ _ Hok).
  apply wp_ret. apply wp_bind. eapply wp_stream_h; [apply Hok|]. destruct (handle_Dirty h) eqn:Hd; cycle 1.
  { apply wp_ret. specialize (Hdirty eq_refl). split; [done|]. split; [done|]. split; [by exists h, cc, D, cs|].
    exists cs. split; [rewrite <-Hpath; apply Hok|]. by apply (fo_synced _ _ _ _ _ _ _ _ _ Hok). }
  apply wp_bind, wp_snd. eapply wp_mono; [by apply (wp_flush c hp h cc D cs None None n)|].
  intros e n1 (-> & cs1 & Hok1 & Hcl & _). rewrite (bool_decide_false (None ≠ None)) by tauto.
  apply wp_bind. eapply wp_stream_upd_h; [apply Hok1|]. apply wp_ret. cbn [snd].
  split; [done|]. split; [done|]. split.
  - exists (clear_dirty h), cc, D, cs1. cbn [snd]. split_and!; try done.
    + eapply file_ok_handle; [exact Hok1|done|done|by heap| |by heap]. apply ch_get_set_handles.
    + intros _ p b x. heap. apply Hcl.
  - exists cs1. heap. split; [rewrite <-Hpath; apply Hok1|]. by apply (fo_synced _ _ _ _ _ _ _ _ _ Hok1).
Qed.

Lemma wp_rw_CloseFile c path hp s :
  rw_file c path hp s →
  wp (rw_CloseFile conf next (mkCloseFileOptions hp)) (λ _ s',
    stored c path s'.2 ∧ CachedObjects s'.1 = i32 (CachedObjects s.1 - 1)) s.
Proof.
  intros Hf. unfold rw_CloseFile. cbn [CloseFile_Handle]. apply wp_bind.
  pose proof (wp_rw_FlushFile _ _ _ _ Hf) as Hfl. apply wp_Ret in Hfl as (r & [s1 n1] & Hrun & -> & Hobj & Hf1 & cs0 & Hcs0 & Hbytes).
  apply wp_Ret. exists None, (s1, n1). split; [done|].
  cbn [fst] in Hobj. subst s1.
  rewrite (bool_decide_false (None ≠ None)) by tauto. cbn [snd] in *.
  destruct Hf1 as (h & cc & D & cs & Hok & _). cbn [snd] in Hok. unfold is_stream_only. rewrite Hcached.
  apply wp_bind. apply wp_bind. eapply wp_get_c; [apply Hok..|]. rewrite (fo_stream _ _ _ _ _ _ _ _ _ Hok).
  apply wp_ret. unfold rw_purge. apply wp_bind.
  apply wp_bind. eapply wp_lru; [apply Hok..|]. eapply wp_mono; [apply wp_lru_Purge, Hok|]. intros u t _.
  cbn [Z.eqb negb]. apply wp_bind, wp_ret.
  apply wp_bind. eapply wp_upd_c; [heap; apply Hok|heap; by rewrite lookup_insert_eq|].
  apply wp_bind. unfold add_objects. unfold wp at 1. cbn [go_modify fst snd]. apply wp_ret. apply wp_snd.
  eapply wp_mono; [apply sn_close; heap; rewrite (fo_handle _ _ _ _ _ _ _ _ _ Hok); eauto|]. intros e n2 (_ & _ & Hs2). cbn [fst snd]. split; [|done].
  exists cs0. rewrite Hs2. by heap.
Qed.

(** ** Opening *)
Lemma chunk_blocks_ok start cs :
  0 ≤ start → Forall (λ ch : string * list byte, ch.2 ≠ []) cs →
  contiguous start (chunk_blocks start cs) ∧
  end_of start (chunk_blocks start cs) = start + Z.of_nat (length (bytes_of cs)) ∧
  Id <$> chunk_blocks start cs = cs.*1 ∧
  Forall (λ b, bFlags b = 0 ∧ Data b = []) (chunk_blocks start cs).
Proof.
  revert start. induction cs as [|[id d] cs IH]; intros start Hs Hne; cbn [chunk_blocks].
  { unfold end_of. simpl. split_and!; [done|lia|done|done]. }
  apply Forall_cons in Hne as [Hd Hne]. simpl in Hd.
  assert (Hl : (0 < length d)%nat) by (destruct d; simpl; [done|lia]).
  destruct (IH (start + Z.of_nat (length d)) ltac:(lia) Hne) as (H1 & H2 & H3 & H4).
  split_and!; cbn [contiguous StartIndex EndIndex fmap list_fmap Id]; [split_and!; [done|lia|done]| |by rewrite <-H3|by constructor].
  rewrite end_of_cons. simpl. rewrite H2. change (bytes_of ((id, d) :: cs)) with (d ++ bytes_of cs).
  rewrite length_app. lia.
Qed.
(** Each block is a chunk of the file. *)
Lemma chunk_blocks_slice pre cs b :
  Forall (λ ch : string * list byte, ch.2 ≠ []) cs → b ∈ chunk_blocks (Z.of_nat (length pre)) cs →
  (Id b, slice (pre ++ bytes_of cs) (StartIndex b) (EndIndex b)) ∈ cs.
Proof.
  revert pre. induction cs as [|[id d] cs IH]; intros pre Hne; cbn [chunk_blocks].
  { by intros ?%not_elem_of_nil. }
  apply Forall_cons in Hne as [Hd Hne]. change (bytes_of ((id, d) :: cs)) with (d ++ bytes_of cs).
  intros [->|Hb]%elem_of_cons.
  - simpl. apply elem_of_cons. left. f_equal. unfold slice. rewrite drop_app_length' by lia.
    rewrite take_app_length'; [done|lia].
  - right. rewrite app_assoc. apply IH; [done|]. rewrite length_app, Nat2Z.inj_add. done.
Qed.

Lemma wp_new_blks (l : list Block) (n : N) :
  wp (new_blks l) (λ ps n', rt_handles n' = rt_handles n ∧ caches n' = caches n ∧ chunks n' = chunks n ∧
    rand_bytes n' = rand_bytes n ∧
    Forall2 (λ p b, blocks n' !! p = Some b) ps l ∧ NoDup ps ∧ (∀ p, p ∈ ps → blocks n !! p = None) ∧
    (∀ p b, blocks n !! p = Some b → blocks n' !! p = Some b)) n.
Proof.
  revert n. induction l as [|b l IH]; intros n; cbn [new_blks].
  { apply wp_ret. split_and!; try done; [constructor|]. by intros p ?%not_elem_of_nil. }
  apply wp_bind. unfold new_blk. unfold wp at 1. set (p := fresh_ptr _). set (n1 := set_blocks _ _).
  pose proof (fresh_ptr_lookup (blocks n)) as Hp. fold p in Hp.
  assert (Hb1 : blocks n1 = <[p:=b]> (blocks n)) by (unfold n1; by heap).
  apply wp_bind. eapply wp_mono; [apply IH|].
  intros ps n2 (H1 & H2 & H3 & H4 & H5 & H6 & H7 & H8). apply wp_ret.
  rewrite H1, H2, H3, H4. unfold n1 at 1 2 3 4. heap. unfold set_blocks. rewrite sr_set_heap.
  assert (Hps : ∀ q, q ∈ ps → q ≠ p).
  { intros q Hq ->. apply H7 in Hq. by rewrite Hb1, lookup_insert_eq in Hq. }
  split_and!; try done.
  - constructor; [|done]. apply H8. by rewrite Hb1, lookup_insert_eq.
  - constructor; [|done]. intros Hin. by apply (Hps p).
  - intros q [->|Hq]%elem_of_cons; [done|]. pose proof (H7 q Hq) as Hn. rewrite Hb1 in Hn.
    by rewrite lookup_insert_ne in Hn by (by apply not_eq_sym, Hps).
  - intros q x Hq. apply H8. rewrite Hb1. rewrite lookup_insert_ne; [done|]. congruence.
Qed.

Context (Hbuf : 0 < sc_BufferSize conf < 2 ^ 63) (Hlim : sc_CachedObjLimit conf < 2 ^ 31).

(** A file made of committed blocks, or an empty file. *)
Definition block_file (cs : chunk_list) : Prop :=
  NoDup cs.*1 ∧ ("" ∉ cs.*1) ∧ Forall (λ ch : string * list byte, ch.2 ≠ []) cs ∧
  Z.of_nat (length (bytes_of cs)) < 2 ^ 62 ∧
  match head cs with Some ch => 9 ≤ GetIdLength ch.1 | None => True end.

(** The state after a block offset list was stored in a new cache. *)
Lemma file_ok_fresh hp h cc cs ps n :
  block_file cs → cs ≠ [] → rt_handles n !! hp = Some h → caches n !! CacheObj h = Some cc →
  chunks n !! hPath h = Some cs → StreamOnly cc = false → cache_list cc = ps → 9 ≤ cache_idlen cc →
  cache_lru cc = NewLRUCache (Capacity (cache_lru cc)) → 0 < Capacity (cache_lru cc) →
  NoDup ps → Forall2 (λ p b, blocks n !! p = Some b) ps (chunk_blocks 0 cs) →
  ∃ D, file_ok (bytes_of cs) hp h cc D cs None None n ∧ all_clean D n.
Proof.
  intros (Hnd & Hempty & Hne & Hsm & _) Hcs Hh Hc Hs Hso Hl Hid Hlru Hcap Hps Hf.
  destruct (chunk_blocks_ok 0 cs ltac:(lia) Hne) as (Hcont & Hend & Hids & Hflags).
  set (bs := chunk_blocks 0 cs) in *. pose proof (Forall2_length _ _ _ Hf) as Hlen.
  assert (H1 : (zip ps bs).*1 = ps) by (apply fst_zip; lia).
  assert (H2 : (zip ps bs).*2 = bs) by (apply snd_zip; lia).
  assert (HD : ∀ p b, (p, b) ∈ zip ps bs → blocks n !! p = Some b ∧ b ∈ bs).
  { intros p b Hin. apply list_elem_of_lookup in Hin as [i Hi]. apply lookup_zip_Some in Hi as [Hp Hb].
    split; [exact (Forall2_lookup_lr _ _ _ _ _ _ Hf Hp Hb)|by eapply list_elem_of_lookup_2]. }
  rewrite Forall_forall in Hflags.
  assert (Hclean : ∀ b, b ∈ bs → Dirty b = false).
  { intros b Hb. destruct (Hflags b Hb) as [Hfl _]. unfold Dirty. by rewrite Hfl. }
  assert (Hpn : pairs (cache_lru cc) = []) by (by rewrite Hlru).
  exists (zip ps bs). split; cycle 1.
  { intros p b x Hin Hx. destruct (HD p b Hin) as [Hx' Hb]. simplify_eq. by apply Hclean. }
  split; rewrite ?H1, ?H2, ?Hpn; try done.
  - split_and!; [left; by rewrite H2| |by rewrite H2, Hend].
    intros Hz. rewrite Hz in H2. destruct cs as [|[id d] cs']; [done|]. discriminate H2.
  - by rewrite Hids.
  - rewrite Hlru. eexists. apply lru_ok_new.
  - by intros kp ?%not_elem_of_nil.
  - intros p b Hin. destruct (HD p b Hin) as [Hx Hb]. exists b. split; [done|]. split; [done|].
    destruct (Hflags b Hb) as [Hfl _]. assert (Hd : Dirty b = false) by (by apply Hclean).
    split; rewrite ?Hpn, ?Hd; try done.
    + by intros _ ?%not_elem_of_nil.
    + intros _ Hlt. split; [by apply (chunk_blocks_slice [] cs b)|]. split; [|done].
      apply list_elem_of_split in Hb as (l1 & l2 & Hb). rewrite Hb in Hcont, Hend.
      apply contiguous_app in Hcont as [_ (_ & _ & Hc2)]. apply contiguous_le in Hc2.
      rewrite end_of_app, end_of_cons in Hend. lia.
    + unfold Truncated, Removed. by rewrite Hfl.
Qed.

(** The one block of an empty file. *)
Lemma file_ok_empty hp h cc p id n :
  rt_handles n !! hp = Some h → caches n !! CacheObj h = Some cc →
  chunks n !! hPath h = Some [] → StreamOnly cc = false → cache_list cc = [p] → 9 ≤ cache_idlen cc → id ≠ "" →
  lru_inv (cache_lru cc, blocks n) → 0 < Capacity (cache_lru cc) →
  pairs (cache_lru cc) = [mkKeyPair 0 p] → blocks n !! p = Some (mkBlock 0 0 0 id []) →
  let D := [(p, mkBlock 0 0 0 id [])] in file_ok [] hp h cc D [] None None n ∧ all_clean D n.
Proof.
  intros Hh Hc Hs Hso Hl Hid Hid0 Hinv Hcap Hp Hx D.
  assert (HD : ∀ q b, (q, b) ∈ D → q = p ∧ b = mkBlock 0 0 0 id []).
  { intros q b Hin%list_elem_of_singleton. by simplify_eq. }
  split; cycle 1.
  { intros q b x [-> ->]%HD Hq. simplify_eq. done. }
  split; try done.
  - apply NoDup_singleton.
  - split_and!; [right; by exists p, (mkBlock 0 0 0 id [])|done|done].
  - split; [apply NoDup_singleton|]. intros He%list_elem_of_singleton. by apply Hid0.
  - constructor.
  - rewrite Hp. intros kp ->%list_elem_of_singleton. eexists. split; [apply list_elem_of_singleton; done|done].
  - intros q b [-> ->]%HD. eexists. split; [done|]. split; [done|]. split; simpl; try done; lia.
Qed.

Lemma wp_rw_getBlock_new hp h cc p s n :
  rt_handles n !! hp = Some h → caches n !! CacheObj h = Some cc →
  cache_lru cc = NewLRUCache (Capacity (cache_lru cc)) → 0 < Capacity (cache_lru cc) →
  blocks n !! p = Some (mkBlock 0 0 0 "" []) →
  wp (rw_getBlock next hp p) (λ r s', ∃ l, r = (p, false, None) ∧ s'.1 = s ∧
    rt_handles s'.2 = rt_handles n ∧ chunks s'.2 = chunks n ∧
    caches s'.2 = <[CacheObj h := cache_with_lru l cc]> (caches n) ∧
    blocks s'.2 !! p = Some (mkBlock 0 0 0 "" []) ∧ lru_inv (l, blocks s'.2) ∧
    Capacity l = Capacity (cache_lru cc) ∧ pairs l = [mkKeyPair 0 p]) (s, n).
Proof.
  intros Hh Hc Hlru Hcap Hx. unfold rw_getBlock.
  assert (Hinv : ∀ m, lru_inv (cache_lru cc, m)) by (intros m; rewrite Hlru; eexists; apply lru_ok_new).
  assert (Hpn : pairs (cache_lru cc) = []) by (by rewrite Hlru).
  apply wp_bind. eapply wp_load_blk; [done|]. apply wp_bind. eapply wp_lru; [done..|].
  eapply wp_mono; [apply wp_lru_Get, Hinv|]. intros [q found] [l1 m1] (_ & _ & _ & _ & Hget).
  cbn [fst snd] in Hget. rewrite Hpn in Hget. case_decide as Hk; [by apply not_elem_of_nil in Hk|].
  destruct Hget as [[= -> ->] [= -> ->]]. cbn [negb StartIndex EndIndex].
  change (i64 (0 - 0)) with 0. apply wp_bind, wp_make_go; [lia|]. change (make_bytes 0) with (@nil byte).
  apply wp_bind. eapply wp_upd_blk; [by heap|]. cbn [block_with_data].
  set (n2 := set_blocks _ _). set (b := mkBlock _ _ _ _ _).
  assert (Hh2 : rt_handles n2 = rt_handles n) by (unfold n2; by heap).
  assert (Hs2 : chunks n2 = chunks n) by (unfold n2; by heap).
  assert (Hb2 : blocks n2 = blocks n) by (unfold n2; heap; by apply insert_id).
  assert (Hc2 : caches n2 = caches n).
  { unfold n2. heap. simpl. rewrite cache_with_lru_id. by apply insert_id. }
  clearbody n2. apply wp_bind. unfold rw_putBlock. apply wp_bind. eapply wp_load_blk; [by rewrite Hb2|].
  apply wp_bind. eapply wp_lru; [by rewrite Hh2|by rewrite Hc2|].
  eapply wp_mono; [apply (wp_lru_Put _ _ _ b)|].
  - apply Hinv.
  - simpl. rewrite Hpn. apply not_elem_of_nil.
  - simpl. by rewrite Hb2.
  - simpl. rewrite Hpn. apply not_elem_of_nil.
  - left. rewrite Hlru. simpl. lia.
  - intros r t (Hinv3 & Hcap3 & Hput). cbn [fst snd] in *.
    destruct Hput as [(_ & -> & Hm & Hp)|[(Hge & _)|(Hge & _)]]; cbn [fst snd] in *;
      [|rewrite Hlru in Hge; simpl in Hge; lia..].
    apply wp_ret. rewrite (bool_decide_false (None ≠ None)) by tauto.
    apply wp_bind. eapply wp_load_blk; [heap; by rewrite Hm, Hb2|]. cbn [Data length negb Z.eqb Z.of_nat].
    apply wp_ret. exists t.1. cbn [fst snd]. heap. rewrite Hm, Hb2, Hc2. split_and!; try done.
    + rewrite <-Hb2, <-Hm. by destruct t.
    + by rewrite Hp, Hpn.
Qed.

Lemma wp_add_objects k s n (Q : unit → st → Prop) :
  - 2 ^ 31 ≤ CachedObjects s + k < 2 ^ 31 →
  Q tt (mkStream (CachedObjects s + k) (fileCache s), n) → wp (add_objects k) Q (s, n).
Proof. intros Hk HQ. unfold add_objects, wp. simpl. unfold i32. by rewrite Z.mod_small, Z.add_simpl_r by lia. Qed.

Lemma wp_rw_createHandleCache hp h cs s n :
  rt_handles n !! hp = Some h → chunks n !! hPath h = Some cs → block_file cs →
  hSize h = Z.of_nat (length (bytes_of cs)) → 0 ≤ CachedObjects s < sc_CachedObjLimit conf →
  wp (rw_createHandleCache conf next hp) (λ r s',
    r = None ∧ CachedObjects s'.1 = CachedObjects s + 1 ∧ rw_file (bytes_of cs) (hPath h) hp s') (s, n).
Proof.
  intros Hh Hcs Hbf Hsz Hobj. unfold rw_createHandleCache.
  rewrite (i64_small (sc_BufferSize conf)) by (unfold is_i64; lia).
  apply wp_bind. eapply wp_CreateCacheObject; [done|]. intros cp n1 Hcp Hh1 Hc1 Hb1 Hs1.
  set (h' := handle_with_cache cp h) in *. set (cc := NewCache (sc_BufferSize conf)) in *.
  assert (Hh1' : rt_handles n1 !! hp = Some h') by (by rewrite Hh1, lookup_insert_eq).
  assert (Hc1' : caches n1 !! CacheObj h' = Some cc) by (by rewrite Hc1, lookup_insert_eq).
  apply wp_bind. unfold get_objects. unfold wp at 1. cbn [go_gets fst].
  rewrite (proj2 (Z.leb_gt _ _)) by lia. apply wp_bind. eapply wp_stream_h; [done|].
  unfold rw_offsets. change (hSize h') with (hSize h). change (hPath h') with (hPath h).
  destruct (Z.eqb_spec (hSize h) 0) as [Hz|Hnz].
  - (* an empty file *)
    assert (cs = []) as ->.
    { destruct cs as [|[id d] cs]; [done|]. destruct Hbf as (_ & _ & Hne & _).
      apply Forall_cons in Hne as [Hd _]. simpl in Hd. rewrite Hsz in Hz.
      change (bytes_of ((id, d) :: cs)) with (d ++ bytes_of cs) in Hz. rewrite length_app in Hz.
      destruct d; [done|simpl in Hz; lia]. }
    apply wp_bind, wp_ret. rewrite (bool_decide_false (None ≠ None)) by tauto.
    apply wp_bind. unfold wp at 1. cbn [go_deref mret go_ret].
    apply wp_bind. eapply wp_stream_h; [done|]. apply wp_bind, wp_snd. unfold set_bol. cbn [BlockList new_blks].
    apply wp_bind, wp_ret. unfold wp at 1, upd_cache. rewrite Hc1'. cbn [bolFlags BlockIdLength bolSize bolMtime].
    set (cc2 := cache_with_bol _ _ _ _ _ cc). set (n2 := set_caches _ _).
    replace (SmallFile _) with true by (vm_compute; reflexivity).
    apply wp_bind, wp_snd. eapply wp_mono; [apply sr_free|]. intros free n3 [Hfree (Hh3 & Hheap3 & Hs3)].
    change (hSize h') with (hSize h). rewrite Hz. change (u64 0) with 0. rewrite (proj2 (Z.ltb_ge free 0)) by lia.
    assert (Hc3 : caches n3 = <[cp := cc2]> (caches n1)).
    { unfold caches at 1. rewrite Hheap3. fold (caches n2). unfold n2. by heap. }
    assert (Hh3' : rt_handles n3 = rt_handles n1) by (rewrite Hh3; unfold n2; by heap).
    assert (Hs3' : chunks n3 = chunks n) by (rewrite Hs3; unfold n2; heap; done).
    clear Hh3 Hheap3 Hs3. clearbody n2.
    apply wp_bind, wp_new_blk. intros p Hp Hpn.
    apply wp_bind. eapply wp_mono; [apply (wp_rw_getBlock_new hp h' cc2 p)|].
    + heap. by rewrite Hh3'.
    + heap. by rewrite Hc3, lookup_insert_eq.
    + done.
    + simpl. lia.
    + heap. by rewrite lookup_insert_eq.
    + intros r [s4 n4] (l & -> & Hs4 & Hh4 & Hch4 & Hc4 & Hb4 & Hinv4 & Hcap4 & Hp4). cbn [fst snd] in *. subst s4.
      revert Hh4 Hch4 Hc4. heap. intros Hh4 Hch4 Hc4.
      rewrite (bool_decide_false (None ≠ None)) by tauto.
      apply wp_bind. eapply wp_mono; [apply wp_stream_id; lia|].
      intros id [s5 n5] (-> & Hs5 & Hh5 & Hheap5 & Hch5). cbn [fst snd] in *. subst s5.
      set (id := next_id n4 16).
      assert (Hidl : GetIdLength id = 16) by (apply next_id_length; lia).
      assert (Hb5 : blocks n5 = blocks n4) by (unfold blocks; by rewrite Hheap5).
      assert (Hc5 : caches n5 = caches n4) by (unfold caches; by rewrite Hheap5).
      apply wp_bind. eapply wp_upd_blk; [by rewrite Hb5|]. cbn [block_with_id].
      apply wp_bind. eapply wp_upd_c; [heap; by rewrite Hh5, Hh4, Hh3'|heap; by rewrite Hc5, Hc4, lookup_insert_eq|].
      apply wp_bind. apply wp_add_objects; [lia|]. apply wp_ret. split; [done|]. split; [done|].
      rewrite Hidl. set (ccf := cache_with_bol _ _ _ _ _ _). set (nf := set_caches _ _).
      destruct (file_ok_empty hp h' ccf p id nf) as [Hok Hcl].
      * unfold nf. heap. by rewrite Hh5, Hh4, Hh3'.
      * unfold nf. heap. by rewrite lookup_insert_eq.
      * unfold nf. heap. rewrite Hch5, Hch4, Hs3'. done.
      * done.
      * done.
      * unfold ccf. simpl. lia.
      * apply next_id_nonempty. lia.
      * unfold nf. heap. simpl. rewrite Hb5. by eapply lru_inv_store.
      * simpl. rewrite Hcap4. simpl. lia.
      * done.
      * unfold nf. heap. by rewrite lookup_insert_eq.
      * exists h', ccf, [(p, mkBlock 0 0 0 id [])], []. split; [exact Hok|]. done.
  - (* a file of blocks *)
    assert (Hne : cs ≠ []) by (intros ->; simpl in Hsz; lia).
    apply wp_bind, wp_snd. pose proof Hbf as (_ & Hid0 & _ & Hsm & Hidl).
    eapply wp_mono; [apply (sn_offsets (hPath h) cs n1); [by rewrite Hs1|done|done|lia]|].
    intros [offs err] n2 ((Hh2 & Hheap2 & Hch2) & He & bol & Ho & Hbl & Hsmall & Hil). cbn [fst snd] in *. subst err offs.
    rewrite (bool_decide_false (None ≠ None)) by tauto.
    assert (Hc2 : caches n2 = caches n1) by (unfold caches; by rewrite Hheap2).
    assert (Hb2 : blocks n2 = blocks n1) by (unfold blocks; by rewrite Hheap2).
    apply wp_bind. unfold wp at 1. cbn [go_deref mret go_ret].
    apply wp_bind. eapply wp_stream_h; [by rewrite Hh2|]. apply wp_bind, wp_snd. unfold set_bol.
    apply wp_bind. eapply wp_mono; [apply wp_new_blks|].
    intros ps n3 (Hh3 & Hc3 & Hch3 & _ & Hf3 & Hnd3 & _). rewrite Hbl in Hf3.
    unfold wp at 1, upd_cache. rewrite Hc3, Hc2, Hc1'. set (cc2 := cache_with_bol _ _ _ _ _ cc). set (n4 := set_caches _ _).
    rewrite Hsmall. apply wp_bind. apply wp_add_objects; [lia|]. apply wp_ret. split; [done|]. split; [done|].
    destruct (file_ok_fresh hp h' cc2 cs ps n4) as (D & Hok & Hcl); try done.
    + unfold n4. heap. by rewrite Hh3, Hh2.
    + unfold n4. heap. by rewrite lookup_insert_eq.
    + unfold n4. heap. rewrite Hch3, Hch2, Hs1. done.
    + unfold cc2. simpl. rewrite Hil. destruct cs as [|ch cs]; [done|]. done.
    + simpl. lia.
    + unfold n4. by heap.
    + exists h', cc2, D, cs. split_and!; try done.
Qed.

Lemma wp_rw_OpenFile options cs s n :
  Z.land (OpenFile_Flags options) O_TRUNC = 0 → chunks n !! OpenFile_Name options = Some cs → block_file cs →
  0 ≤ CachedObjects s < sc_CachedObjLimit conf →
  wp (rw_OpenFile conf next options) (λ r s',
    r.2 = None → rw_file (bytes_of cs) (OpenFile_Name options) r.1 s') (s, n).
Proof.
  intros Hfl Hcs Hbf Hobj. unfold rw_OpenFile. apply wp_bind, wp_snd. eapply wp_mono; [by apply sn_open_file|].
  intros [hp err] n1. cbn [fst snd]. case_bool_decide as He; cycle 1.
  { intros _. rewrite bool_decide_true by done. by apply wp_ret. }
  intros (h & _ & _ & Hh & _ & Hch & Hp & Hsz). subst err.
  rewrite (bool_decide_false (None ≠ None)) by tauto. rewrite Hfl, Hcached. cbn [negb Z.eqb].
  apply wp_bind, wp_ret.
  apply wp_bind. eapply wp_mono; [apply (wp_rw_createHandleCache hp h cs); try done|].
  - by rewrite Hh, lookup_insert_eq.
  - by rewrite Hch, Hp.
  - intros r s' (-> & _ & Hf). apply wp_ret. intros _. by rewrite <-Hp.
Qed.

(** The states that an open of [path] and then reads, writes and flushes of the
    handle [hp] reach, with the content that an ideal file has then. *)
Inductive rw_reach (path : string) (hp : ptr) : list byte → st → Prop :=
  | rw_opened options cs s s' : OpenFile_Name options = path → Z.land (OpenFile_Flags options) O_TRUNC = 0 →
      chunks s.2 !! path = Some cs → block_file cs → 0 ≤ CachedObjects s.1 < sc_CachedObjLimit conf →
      rw_OpenFile conf next options s = Ret ((hp, None), s') → rw_reach path hp (bytes_of cs) s'
  | rw_read c s off data r s' : rw_reach path hp c s → 0 ≤ off → off + Z.of_nat (length data) < 2 ^ 62 →
      rw_ReadInBuffer conf next (mkReadInBufferOptions hp off data) s = Ret (r, s') → rw_reach path hp c s'
  | rw_written c s off data md r s' : rw_reach path hp c s → rw_fresh hp s → 0 ≤ off →
      off + Z.of_nat (length data) < 2 ^ 62 →
      rw_WriteFile conf next (mkWriteFileOptions hp off data md) s = Ret (r, s') →
      rw_reach path hp (write_at c off data) s'
  | rw_flushed c s r s' : rw_reach path hp c s →
      rw_FlushFile conf next (mkFlushFileOptions hp) s = Ret (r, s') → rw_reach path hp c s'.

Lemma wp_run {A} (m : go st A) (Q : A → st → Prop) s a s' : wp m Q s → m s = Ret (a, s') → Q a s'.
Proof. intros (a1 & s1 & Hr & HQ)%wp_Ret Hrun. rewrite Hrun in Hr. by injection Hr as <- <-. Qed.

Lemma rw_reach_file path hp c s : rw_reach path hp c s → rw_file c path hp s.
Proof.
  intros Hr. induction Hr as [options cs [s n] s' <- Hfl Hcs Hbf Hobj Hrun|c s off data r s' _ IH Hoff Hsm Hrun
    |c s off data md r s' _ IH Hfr Hoff Hsm Hrun|c s r s' _ IH Hrun].
  - exact (wp_run _ _ _ _ _ (wp_rw_OpenFile options cs s n Hfl Hcs Hbf Hobj) Hrun eq_refl).
  - exact (proj2 (wp_run _ _ _ _ _ (wp_rw_ReadInBuffer c path hp off data s IH Hoff Hsm) Hrun)).
  - exact (proj2 (wp_run _ _ _ _ _ (wp_rw_WriteFile c path hp off data md s IH Hfr Hoff Hsm) Hrun)).
  - exact (proj1 (proj2 (proj2 (wp_run _ _ _ _ _ (wp_rw_FlushFile c path hp s IH) Hrun)))).
Qed.

End refine.
