(* ===== verification/AzStorageSpec.v ===== *)
(** * The azstorage component serves the stream component

    On a blob service whose requests succeed, the azstorage component over block
    blobs has the interface [StreamStore] (and [StreamNext] when it does not take
    attributes from listings): so a file open through the stream component is a
    file, down to the blobs. *)
From S2P Require Import Prelude GoLib Common HandleMap Internal LRUCache Base64 AzUtils BlockBlob BlockBlobSpec CacheObj AzStorage Stream StreamSpec StreamRead StreamWrite StreamRefine.
Open Scope Z_scope.

(** Requests do not touch the memory of the program. *)
Definition keeps {N A : Type} `{!Runtime N, !CacheHeap N} (m : go N A) : Prop :=
  ∀ n r n', m n = Ret (r, n') → rt_handles n' = rt_handles n ∧ ch_heap n' = ch_heap n.

Class BlobFrame (N : Type) `{!Runtime N, !BlobSDK N, !CacheHeap N, !BlobService N} := {
  bf_set_heap h n : blob (ch_set_heap h n) = blob n ∧ staged (ch_set_heap h n) = staged n;
  bf_set_handles m n : blob (rt_set_handles m n) = blob n ∧ staged (rt_set_handles m n) = staged n;
  bf_heap_objs m n : ch_heap (rt_set_objs m n) = ch_heap n;
  bf_handles_objs m n : rt_objs (rt_set_handles m n) = rt_objs n;
  bf_GetBlockList name : keeps (sdk_GetBlockList (N:=N) name);
  bf_StageBlock name id data : keeps (sdk_StageBlock (N:=N) name id data);
  bf_CommitBlockList name ids ct : keeps (sdk_CommitBlockList (N:=N) name ids ct);
  bf_Download name off len buf : keeps (sdk_Download (N:=N) name off len buf);
  bf_GetProperties name : keeps (sdk_GetProperties (N:=N) name);
  bf_ListHierarchy marker path count : keeps (sdk_ListHierarchy (N:=N) marker path count);
  bf_now : keeps (rt_now (N:=N))
}.

(** The requests that the stream component makes succeed. *)
Class Reliable (N : Type) `{!Runtime N, !BlobSDK N, !BlobService N} := {
  rel_reads : reads_reliable (N:=N);
  rel_lists name n r n' : is_Some (blob n !! name) →
    sdk_GetBlockList (N:=N) name n = Ret (r, n') → ∃ l, r = inl l;
  rel_stage name id data n r n' : sdk_StageBlock (N:=N) name id data n = Ret (r, n') → r = None;
  rel_commit name ids ct n r n' : is_Some (mapM (latest (blob n !! name) (staged n name)) ids) →
    sdk_CommitBlockList (N:=N) name ids ct n = Ret (r, n') → r = None;
  rel_attributes : attributes_reliable (N:=N)
}.

Section serves.
Context {N : Type} `{!Runtime N, !RuntimeLaws N, !CacheHeap N, !CacheHeapLaws N}.
Context `{!BlobSDK N, !BlobService N, !BlobListing N, !BlobFrame N, !Reliable N}.
Context (cfg : BlobConfig) (cancel : Z) (fuel : nat).
Abbreviation st := (AzState * N)%type.
Abbreviation bn := (blob_name cfg).
Abbreviation az := (AzStorage_component cancel (BlockBlob_connection cfg fuel) fuel).

#[export] Instance CacheHeapLaws_prod (C : Type) : CacheHeapLaws (C * N).
Proof.
  split; simpl.
  - intros h [c n]. apply ch_get_set.
  - intros h [c n]. apply ch_handles_set.
  - intros m [c n]. apply ch_get_set_handles.
  - intros m [c n]. apply rt_get_set_handles.
Qed.

(** A request with its law and its frame. *)
Lemma wp_keeps {A} (m : go N A) (Q : A → N → Prop) n :
  keeps m → wp m Q n → wp m (λ r n', Q r n' ∧ rt_handles n' = rt_handles n ∧ ch_heap n' = ch_heap n) n.
Proof. intros Hk (a & n' & Hr & HQ)%wp_Ret. apply wp_Ret. exists a, n'. split; [done|]. split; [done|]. by eapply Hk. Qed.

(** The blob [b] as a list of chunks. *)
Definition blob_chunks (b : Blob) (settled : bool) : chunk_list :=
  match b with
  | Blocks bs => if settled then bs else [("", content b)]
  | Flat [] => if settled then [] else [("", [])]
  | Flat d => [("", d)]
  end.
(** The files whose attributes can be fetched: all, or with virtual directories those whose
    names a listing gives back. *)
Definition az_chunks (s : st) : string → option chunk_list := λ path,
  if decide (readable cfg fuel path) then
    match blob s.2 !! bn path with
    | Some b => Some (blob_chunks b (bool_decide (staged s.2 (bn path) = ∅)))
    | None => None
    end
  else None.

Lemma blob_chunks_content b settled : bytes_of (blob_chunks b settled) = content b.
Proof.
  unfold blob_chunks, bytes_of. destruct b as [[|x d]|bs]; destruct settled; simpl; try done; by rewrite app_nil_r.
Qed.
Lemma az_chunks_same n n' z z' :
  blob n' = blob n → staged n' = staged n → az_chunks (z', n') = az_chunks (z, n).
Proof. unfold az_chunks. simpl. by intros -> ->. Qed.
Lemma az_chunks_Some s path cs :
  az_chunks s !! path = Some cs ↔ readable cfg fuel path ∧ ∃ b, blob s.2 !! bn path = Some b ∧
    cs = blob_chunks b (bool_decide (staged s.2 (bn path) = ∅)).
Proof.
  unfold lookup at 1, lookup_fun, az_chunks. destruct (decide (readable cfg fuel path)) as [Hr|Hr]; cycle 1.
  { split; [done|]. by intros [? _]. }
  destruct (blob s.2 !! bn path) as [b|].
  - split; [intros [= <-]; by eauto|]. by intros (_ & b' & [= <-] & ->).
  - split; [done|]. by intros (_ & b & ? & _).
Qed.

Lemma az_same z n n' :
  blob n' = blob n → staged n' = staged n → rt_handles n' = rt_handles n → ch_heap n' = ch_heap n →
  same_but az_chunks (z, n) (z, n').
Proof. intros. split_and!; [done|done|by apply az_chunks_same]. Qed.

(** Blocks that have ids are the committed ones, and nothing is staged. *)
Lemma blob_chunks_ids b settled id :
  id ∈ (blob_chunks b settled).*1 → id ≠ "" → settled = true ∧ b = Blocks (blob_chunks b settled).
Proof.
  unfold blob_chunks. destruct b as [[|x d]|bs]; destruct settled; simpl; try done;
    intros H Hne; try (apply not_elem_of_nil in H; done); try (apply list_elem_of_singleton in H; done).
Qed.

(** The handle that OpenFile makes from the attributes. *)
Lemma wp_az_new_handle options q a z n :
  rt_objs n !! q = Some a →
  wp (handle ← new_handle (NewHandle (OpenFile_Name options));
      a ← load_obj q;
      _ ← upd_handle handle (handle_with_size (Size a));
      _ ← upd_handle handle (handle_with_mtime (Mtime a));
      mret (handle, None : option error)) (λ r s', r.2 = None ∧ ∃ h, r.1 ≠ nil_ptr ∧ rt_handles n !! r.1 = None ∧
        rt_handles s' = <[r.1 := h]> (rt_handles n) ∧ ch_heap s' = ch_heap n ∧ az_chunks s' = az_chunks (z, n) ∧
        hPath h = OpenFile_Name options ∧ hSize h = Size a) ((z, n) : st).
Proof.
  intros Ho. set (name := OpenFile_Name options).
  apply wp_bind. unfold new_handle. unfold wp at 1. cbn [rt_handles rt_set_handles Runtime_prod fst snd].
  set (p := fresh_ptr _). pose proof (fresh_ptr_lookup (rt_handles n)) as Hp1.
  fold p in Hp1. set (n3 := rt_set_handles _ _).
  apply wp_bind. unfold load_obj, wp at 1. cbn [rt_objs Runtime_prod fst snd].
  unfold n3 at 1. rewrite bf_handles_objs, Ho. cbn [go_deref mret go_ret].
  assert (Hn3 : rt_handles n3 = <[p := NewHandle name]> (rt_handles n)) by apply rt_get_set_handles.
  assert (Hheap3 : ch_heap n3 = ch_heap n) by (unfold n3; by rewrite ch_get_set_handles).
  destruct (bf_set_handles (<[p:=NewHandle name]> (rt_handles n)) n) as [Hb3 Hst3]. fold n3 in Hb3, Hst3.
  clearbody n3.
  apply wp_bind. unfold upd_handle at 1, wp at 1. cbn [rt_handles rt_set_handles Runtime_prod fst snd].
  rewrite Hn3, lookup_insert_eq. set (n4 := rt_set_handles _ _).
  assert (Hn4 : rt_handles n4 = <[p := handle_with_size (Size a) (NewHandle name)]> (rt_handles n)).
  { unfold n4. by rewrite rt_get_set_handles, insert_insert_eq. }
  assert (Hheap4 : ch_heap n4 = ch_heap n) by (unfold n4; by rewrite ch_get_set_handles).
  destruct (bf_set_handles (<[p:=handle_with_size (Size a) (NewHandle name)]>
    (<[p:=NewHandle name]> (rt_handles n))) n3) as [Hb4 Hst4]. fold n4 in Hb4, Hst4. clearbody n4.
  apply wp_bind. unfold upd_handle at 1, wp at 1. cbn [rt_handles rt_set_handles Runtime_prod fst snd].
  rewrite Hn4, lookup_insert_eq, insert_insert_eq. set (h := handle_with_mtime _ _). set (n5 := rt_set_handles _ _).
  apply wp_ret. cbn [fst snd]. split; [done|].
  destruct (bf_set_handles (<[p:=h]> (rt_handles n)) n4) as [Hb5 Hst5]. fold n5 in Hb5, Hst5.
  exists h. split_and!; [apply fresh_ptr_nil|done|apply rt_get_set_handles| | |done|done].
  - change (ch_heap n5 = ch_heap n). unfold n5. by rewrite ch_get_set_handles.
  - apply az_chunks_same; congruence.
Qed.

(** Opening a file that exists. *)
Lemma wp_az_open_file options cs s :
  az_chunks s !! OpenFile_Name options = Some cs →
  wp (c_OpenFile az options) (λ r s',
    if bool_decide (r.2 = None) then ∃ h, r.1 ≠ nil_ptr ∧ rt_handles s !! r.1 = None ∧
      rt_handles s' = <[r.1 := h]> (rt_handles s) ∧ ch_heap s' = ch_heap s ∧ az_chunks s' = az_chunks s ∧
      hPath h = OpenFile_Name options ∧ hSize h = Z.of_nat (length (bytes_of cs))
    else same_but az_chunks s s') s.
Proof.
  intros (Hread & b & Hb & ->)%az_chunks_Some. rewrite blob_chunks_content.
  destruct s as [z n]. simpl in *. unfold az_OpenFile. set (name := OpenFile_Name options) in *.
  set (R n1 n2 := blob n2 = blob n1 ∧ staged n2 = staged n1 ∧ rt_handles n2 = rt_handles n1 ∧ ch_heap n2 = ch_heap n1).
  assert (PreOrder R).
  { split; [by intros ?|]. intros x y w (? & ? & ? & ?) (? & ? & ? & ?). split_and!; congruence. }
  apply wp_bind, wp_snd. eapply wp_mono; [apply (wp_GetAttr_file cfg R); try done|].
  - intros m n0. destruct (svc_set_objs m n0) as (? & ? & _). split_and!; [done|done|apply rt_handles_set_objs|apply bf_heap_objs].
  - intros n0 t n' E. destruct (ls_now _ _ _ E) as (? & ? & _). destruct (bf_now _ _ _ E). done.
  - intros nm n0 r n' E. pose proof (svc_GetProperties nm n0) as (? & ? & E' & ? & ? & _)%wp_Ret.
    rewrite E in E'. injection E' as <- <-. by destruct (bf_GetProperties _ _ _ _ E).
  - intros nm count n0 r n' E. pose proof (ls_list nm count n0) as (? & ? & E' & ? & ? & _)%wp_Ret.
    rewrite E in E'. injection E' as <- <-. by destruct (bf_ListHierarchy _ _ _ _ _ _ E).
  - apply rel_attributes.
  - intros [q err] n1 ([(Hb1 & Hs1 & Hh1 & Hp1) _] & -> & a & Ha & Hsz). cbn beta iota.
    eapply wp_mono; [by apply wp_az_new_handle|]. intros r s' (-> & h & H1 & H2 & H3 & H4 & H5 & H6 & H7).
    rewrite bool_decide_true by done. exists h. rewrite Hh1 in *. split_and!; [done|done|done| | |done|congruence].
    + exact (eq_trans H4 Hp1).
    + etrans; [exact H5|]. by apply az_chunks_same.
Qed.

(** Opening whatever name, when attributes come from properties. *)
Lemma wp_az_open options s :
  virtualDirectory cfg = false →
  wp (c_OpenFile az options) (λ r s',
    if bool_decide (r.2 = None) then ∃ h cs, r.1 ≠ nil_ptr ∧ rt_handles s !! r.1 = None ∧
      rt_handles s' = <[r.1 := h]> (rt_handles s) ∧ ch_heap s' = ch_heap s ∧ az_chunks s' = az_chunks s ∧
      hPath h = OpenFile_Name options ∧ az_chunks s !! hPath h = Some cs ∧
      hSize h = Z.of_nat (length (bytes_of cs))
    else same_but az_chunks s s') s.
Proof.
  intros rest. destruct s as [z n]. simpl. unfold az_OpenFile. set (name := OpenFile_Name options).
  apply wp_bind, wp_snd. simpl. unfold GetAttr. rewrite rest. unfold getAttrUsingRest. apply wp_bind.
  eapply wp_mono; [apply wp_keeps; [apply bf_GetProperties|apply svc_GetProperties]|].
  intros r n1 ((Hb & Hst & _ & Hp) & Hh & Hheap).
  destruct r as [prop|e]; cycle 1.
  { assert (Hsame : same_but az_chunks (z, n) (z, n1)) by (by apply az_same).
    destruct (storeBlobErrToErr e); by apply wp_ret, wp_ret. }
  destruct (Hp _ eq_refl) as (b & Hbn & Hlen). set (a := retrieved _).
  assert (Hsz : Size a = Z.of_nat (length (content b))).
  { unfold a, retrieved, with_flags_mode. cbn [Size]. by rewrite parseMetadata_Size. }
  clearbody a. apply wp_bind. unfold new_obj. unfold wp at 1.
  set (q := fresh_ptr _). set (n2 := rt_set_objs _ _).
  destruct (svc_set_objs (<[q:=a]> (rt_objs n1)) n1) as (Hb2 & Hst2 & _). fold n2 in Hb2, Hst2.
  assert (Ho2 : rt_objs n2 !! q = Some a) by (unfold n2; by rewrite rt_objs_set, lookup_insert_eq).
  assert (Hh2 : rt_handles n2 = rt_handles n) by (unfold n2; by rewrite rt_handles_set_objs).
  assert (Hheap2 : ch_heap n2 = ch_heap n) by (unfold n2; by rewrite bf_heap_objs). clearbody n2.
  apply wp_ret. cbn beta iota. eapply wp_mono; [by apply wp_az_new_handle|].
  intros r s' (-> & h & H1 & H2 & H3 & H4 & H5 & H6 & H7). rewrite bool_decide_true by done.
  exists h, (blob_chunks b (bool_decide (staged n (bn name) = ∅))). rewrite Hh2 in *. split_and!; [done|done|done| | |done| |].
  - exact (eq_trans H4 Hheap2).
  - etrans; [exact H5|]. apply az_chunks_same; congruence.
  - apply az_chunks_Some. split; [by intros Hv; rewrite rest in Hv|]. rewrite H6. by exists b.
  - rewrite blob_chunks_content. congruence.
Qed.
Lemma wp_load_h {A} hp h s (Q : A → st → Prop) (m : Handle → go st A) :
  rt_handles s !! hp = Some h → wp (m h) Q s → wp (load_handle hp ≫= m) Q s.
Proof. intros Hh Hm. apply wp_bind. unfold wp at 1, load_handle. by rewrite Hh. Qed.

Lemma wp_az_close hp s :
  is_Some (rt_handles s !! hp) →
  wp (c_CloseFile az (mkCloseFileOptions hp)) (λ _, same_but az_chunks s) s.
Proof. intros [h Hh]. simpl. unfold az_CloseFile. eapply wp_load_h; [done|]. by apply wp_ret. Qed.

Lemma wp_az_read hp h cs off data s :
  rt_handles s !! hp = Some h → az_chunks s !! hPath h = Some cs → 0 ≤ off ≤ hSize h →
  off + read_count (hSize h) off (Z.of_nat (length data)) ≤ Z.of_nat (length (bytes_of cs)) →
  hSize h < 2 ^ 63 → off + Z.of_nat (length data) < 2 ^ 63 →
  wp (c_ReadInBuffer az (mkReadInBufferOptions hp off data)) (λ r s',
    let k := read_count (hSize h) off (Z.of_nat (length data)) in
    same_but az_chunks s s' ∧ r.1.2 = k ∧ not_eof r.2 = false ∧
    r.1.1 = slice (bytes_of cs) off (off + k) ++ drop (Z.to_nat k) data) s.
Proof.
  intros Hh Hcs Hoff Hin Hsm Hlen. simpl. unfold az_ReadInBuffer_op. eapply wp_load_h; [done|]. simpl.
  apply az_chunks_Some in Hcs as (_ & b & Hb & ->). rewrite blob_chunks_content in *.
  rewrite (proj2 (Z.ltb_ge _ _)) by lia. rewrite !i64_small by (unfold is_i64; lia).
  set (k := read_count _ _ _) in *. unfold read_count in k.
  replace (if hSize h <? off + Z.of_nat (length data) then _ else _) with k
    by (unfold k; destruct (Z.ltb_spec (hSize h) (off + Z.of_nat (length data))); lia).
  assert (Hk : 0 ≤ k ≤ Z.of_nat (length data)) by (unfold k; lia). clearbody k.
  destruct (Z.eqb_spec k 0) as [->|Hk0].
  { apply wp_ret. cbv zeta. split; [done|]. split; [done|]. split; [done|]. simpl. unfold slice.
    by replace (off + 0 - off) with 0 by lia. }
  destruct s as [z n]. apply wp_bind, wp_snd. simpl. unfold ReadInBuffer. apply wp_bind.
  pose proof (wp_keeps _ _ _ (bf_Download (bn (hPath h)) off k data) (svc_Download (bn (hPath h)) off k data n)) as Hd.
  apply wp_Ret in Hd as ([d err] & n1 & Hrun & (Hb1 & Hst1 & _ & _ & Hr) & Hh1 & Hheap1).
  pose proof (rel_reads _ _ _ _ _ _ _ Hrun) as He. simpl in He. subst err.
  apply wp_Ret. exists (d, None), n1. split; [done|]. apply wp_ret, wp_ret. cbn [fst snd].
  assert (Hc : download_count (content b) off k = k) by (unfold download_count; by rewrite (proj2 (Z.eqb_neq _ _))).
  simpl in Hr. specialize (Hr eq_refl b Hb). rewrite Hc in Hr. split_and!; try done.
  - by apply az_same.
  - apply Hr; lia.
Qed.

Lemma blocks_of_chunks start bs :
  0 ≤ start → start + Z.of_nat (length (bytes_of bs)) < 2 ^ 63 →
  blocks_of (sizes_of bs) start = chunk_blocks start bs.
Proof.
  revert start. induction bs as [|[id d] bs IH]; intros start Hs Hlt; [done|].
  change (bytes_of ((id, d) :: bs)) with (d ++ bytes_of bs) in Hlt. rewrite length_app in Hlt.
  csimpl. rewrite i64_small by (unfold is_i64; lia). by rewrite IH by lia.
Qed.

Lemma wp_az_offsets path cs s :
  az_chunks s !! path = Some cs → cs ≠ [] → "" ∉ cs.*1 → Z.of_nat (length (bytes_of cs)) < 2 ^ 63 →
  wp (c_GetFileBlockOffsets az (mkGetFileBlockOffsetsOptions path)) (λ r s',
    same_but az_chunks s s' ∧ r.2 = None ∧ ∃ bol, r.1 = Some bol ∧
    BlockList bol = chunk_blocks 0 cs ∧ SmallFile bol = false ∧
    BlockIdLength bol = from_option (λ ch : string * list byte, GetIdLength ch.1) 0 (head cs)) s.
Proof.
  intros Hcs Hne Hid Hsm. destruct s as [z n]. apply az_chunks_Some in Hcs as (_ & b & Hb & Heq). simpl in Hb, Heq.
  assert (Hbl : b = Blocks cs).
  { destruct cs as [|[id d] cs']; [done|]. destruct (blob_chunks_ids b (bool_decide (staged n (bn path) = ∅)) id) as [_ H]; [rewrite <-Heq; left| |by rewrite <-Heq in H].
    intros ->. apply Hid. left. }
  subst b. clear Heq. simpl. unfold az_GetFileBlockOffsets_op. apply wp_bind, wp_snd. simpl. unfold GetFileBlockOffsets. apply wp_bind.
  pose proof (wp_keeps _ _ _ (bf_GetBlockList (bn path)) (svc_GetBlockList (bn path) n)) as Hl.
  apply wp_Ret in Hl as (r & n1 & Hrun & (Hb1 & Hst1 & _ & Hr) & Hh1 & Hheap1).
  destruct (rel_lists (bn path) n r n1) as [l ->]; [by rewrite Hb|done|].
  apply wp_Ret. exists (inl l), n1. split; [done|]. specialize (Hr l eq_refl). rewrite Hb in Hr. fold (sizes_of cs) in Hr.
  subst l. destruct cs as [|[id d] cs]; [done|]. csimpl. apply wp_ret, wp_ret. cbn [fst snd].
  split; [by apply az_same|]. split; [done|]. eexists. split; [done|]. cbn [BlockList].
  split; [|done]. by apply (blocks_of_chunks 0 ((id, d) :: cs)).
Qed.

(** ** Flush *)
Lemma wp_stage_all name bs n :
  Forall (λ b, Truncated b = false ∧ Removed b = false) bs → NoDup (Id <$> bs) →
  wp (stage_loop cfg name bs) (λ '(r, staged_any, e) n',
    blob n' = blob n ∧ e = None ∧ r = staged_block <$> bs ∧ staged_any = existsb Dirty bs ∧
    rt_handles n' = rt_handles n ∧ ch_heap n' = ch_heap n ∧
    (∀ b, b ∈ bs → Dirty b = true → staged n' (bn name) !! Id b = Some (Data b)) ∧
    (∀ id, (∀ b, b ∈ bs → Dirty b = true → Id b ≠ id) → staged n' (bn name) !! id = staged n (bn name) !! id)) n.
Proof.
  intros Hfl Hnd. revert n. induction Hfl as [|b bs [Ht Hr] Hfl IH]; intros n; cbn [stage_loop].
  { apply wp_ret. split_and!; try done. by intros b ?%not_elem_of_nil. }
  rewrite fmap_cons in Hnd. apply NoDup_cons in Hnd as [Hni Hnd]. specialize (IH Hnd).
  rewrite Ht. apply wp_bind, wp_ret. cbn zeta. cbn [existsb fmap list_fmap]. unfold staged_block at 1.
  destruct (Dirty b) eqn:Hd.
  - apply wp_bind. pose proof (wp_keeps _ _ _ (bf_StageBlock (bn name) (Id b) (Data b)) (svc_StageBlock (bn name) (Id b) (Data b) n)) as Hs.
    apply wp_Ret in Hs as (r & n1 & Hrun & (Hb1 & _ & Hst) & Hh1 & Hheap1).
    pose proof (rel_stage _ _ _ _ _ _ Hrun) as ->. specialize (Hst eq_refl).
    apply wp_Ret. exists None, n1. split; [done|]. apply wp_bind. eapply wp_mono; [apply IH|].
    intros [[r any] e] n2 (Hb2 & -> & -> & _ & Hh2 & Hheap2 & Hin & Hout). apply wp_ret.
    split_and!; try done; try congruence.
    + intros b' [->|Hb']%elem_of_cons Hd'; [|by apply Hin].
      rewrite Hout, Hst, lookup_insert_eq; [done|]. intros b2 Hb2' _ Heq. apply Hni. rewrite <-Heq.
      by apply list_elem_of_fmap_2.
    + intros id Hid. rewrite Hout, Hst, lookup_insert_ne; [done|apply Hid; [left|done]|].
      intros b' Hb'. apply Hid. by right.
  - apply wp_bind. eapply wp_mono; [apply IH|].
    intros [[r any] e] n2 (Hb2 & -> & -> & -> & Hh2 & Hheap2 & Hin & Hout). apply wp_ret.
    split_and!; try done; [by rewrite Hr| |].
    + intros b' [->|Hb']%elem_of_cons Hd'; [congruence|by apply Hin].
    + intros id Hid. apply Hout. intros b' Hb'. apply Hid. by right.
Qed.

Lemma mapM_pieces {A B C} (g : A → B) (f : B → option C) (P : A → C → Prop) (l : list A) :
  (∀ a, a ∈ l → ∃ c, f (g a) = Some c ∧ P a c) → ∃ cs, mapM f (g <$> l) = Some cs ∧ Forall2 P l cs.
Proof.
  induction l as [|a l IH]; intros H; [by exists []|].
  destruct (H a) as (c & Hf & HP); [left|]. destruct IH as (cs & Hm & HF); [intros a' Ha'; apply H; by right|].
  exists (c :: cs). split; [|by constructor]. apply mapM_Some in Hm. apply mapM_Some. by constructor.
Qed.

(** What a committed list makes of each block. *)
Lemma latest_piece name b0 bs cs n n1 :
  blob n !! bn name = Some b0 → cs = blob_chunks b0 (bool_decide (staged n (bn name) = ∅)) →
  NoDup cs.*1 → NoDup (Id <$> bs) → "" ∉ (Id <$> bs) →
  Forall (λ b, Dirty b = false → Id b ∈ cs.*1) bs →
  (∀ b, b ∈ bs → Dirty b = true → staged n1 (bn name) !! Id b = Some (Data b)) →
  (∀ id, (∀ b, b ∈ bs → Dirty b = true → Id b ≠ id) → staged n1 (bn name) !! id = staged n (bn name) !! id) →
  ∃ cs', mapM (latest (Some b0) (staged n1 (bn name))) (Id <$> bs) = Some cs' ∧ Forall2 (piece_of cs) bs cs'.
Proof.
  intros Hb0 Hcs Hnd Hndi Hne Hcl Hin Hout. apply mapM_pieces. intros b Hb. unfold latest, piece_of.
  destruct (Dirty b) eqn:Hd.
  { rewrite (Hin b Hb Hd). simpl. eauto. }
  rewrite Forall_forall in Hcl. specialize (Hcl b Hb Hd).
  assert (Hbe : Id b ≠ "") by (intros He; apply Hne; rewrite <-He; by apply list_elem_of_fmap_2).
  pose proof Hcl as Hcl'. rewrite Hcs in Hcl'. destruct (blob_chunks_ids _ _ _ Hcl' Hbe) as [Hset Hblk].
  rewrite <-Hcs in Hblk. apply bool_decide_eq_true in Hset.
  assert (Hno : staged n1 (bn name) !! Id b = None).
  { rewrite Hout; [by rewrite Hset, lookup_empty|]. intros b' Hb' Hd' Heq.
    apply list_elem_of_lookup in Hb as [i Hi]. apply list_elem_of_lookup in Hb' as [j Hj].
    assert (i = j); [|congruence]. apply (NoDup_lookup (Id <$> bs) i j (Id b)); [done|rewrite list_lookup_fmap..].
    - by rewrite Hi. - rewrite Hj. simpl. by rewrite Heq. }
  rewrite Hno. apply list_elem_of_fmap in Hcl as ([id d] & Hid & Hmem). simpl in Hid. subst id.
  rewrite Hblk, (committed_lookup _ _ d Hnd Hmem). simpl. eauto.
Qed.

Lemma wp_az_commit name bs cs fl idlen sz mt n z :
  az_chunks (z, n) !! name = Some cs → NoDup cs.*1 →
  Forall (λ b, Truncated b = false ∧ Removed b = false) bs →
  (existsb Dirty bs = true → Forall (λ b, Dirty b = false → Id b ∈ cs.*1) bs) →
  "" ∉ (Id <$> bs) → NoDup (Id <$> bs) →
  wp (StageAndCommit cfg name (mkBOL bs fl idlen sz mt)) (λ r n',
    r.2 = None ∧ BlockList r.1 = staged_block <$> bs ∧ rt_handles n' = rt_handles n ∧ ch_heap n' = ch_heap n ∧
    ∀ z', flushed az_chunks name bs cs (z', n')) n.
Proof.
  intros Hcs Hnd Hfl Hcl Hne Hndi. apply az_chunks_Some in Hcs as (Hread & b0 & Hb0 & Hcs). simpl in Hb0, Hcs.
  unfold StageAndCommit. apply wp_bind. eapply wp_mono; [by apply wp_stage_all|].
  intros [[r any] e] n1 (Hb1 & -> & -> & -> & Hh1 & Hheap1 & Hin & Hout). cbn [BlockList] in *. unfold flushed.
  destruct (existsb Dirty bs) eqn:Hd; cycle 1.
  { apply wp_ret. cbn [fst snd BlockList]. split_and!; try done. intros z'. apply az_chunks_Some. split; [done|]. exists b0. cbn [snd]. rewrite Hb1.
    split; [done|]. rewrite Hcs. f_equal. apply bool_decide_ext. split; intros E; apply map_eq; intros id.
    - rewrite Hout; [by rewrite E|]. intros b Hb Hdb. exfalso.
      by rewrite (proj2 (existsb_exists _ _) (ex_intro _ b (conj (proj1 (list_elem_of_In _ _) Hb) Hdb))) in Hd.
    - rewrite <-Hout; [by rewrite E|]. intros b Hb Hdb. exfalso.
      by rewrite (proj2 (existsb_exists _ _) (ex_intro _ b (conj (proj1 (list_elem_of_In _ _) Hb) Hdb))) in Hd. }
  specialize (Hcl eq_refl).
  destruct (latest_piece name b0 bs cs n n1) as (cs' & Hm & HF); try done.
  assert (Hids : Id <$> (staged_block <$> bs) = Id <$> bs).
  { rewrite <-list_fmap_compose. apply list_fmap_ext. intros _ x _. apply staged_block_geo. }
  apply wp_bind. rewrite Hids.
  pose proof (wp_keeps _ _ _ (bf_CommitBlockList (bn name) (Id <$> bs) (getContentType name))
    (svc_CommitBlockList (bn name) (Id <$> bs) (getContentType name) n1)) as Hw.
  apply wp_Ret in Hw as (r & n2 & Hrun & (_ & Hr) & Hh2 & Hheap2).
  rewrite Hb1, Hb0, Hm in Hr.
  assert (r = None) as -> by (eapply rel_commit; [|exact Hrun]; rewrite Hb1, Hb0, Hm; eauto).
  apply wp_Ret. exists None, n2. split; [done|]. apply wp_ret. cbn [fst snd BlockList].
  destruct Hr as (Hst2 & bs' & [= <-] & Hb2).
  split_and!; try done; try congruence. intros z'. exists cs'. split; [|done].
  apply az_chunks_Some. split; [done|]. exists (Blocks cs'). cbn [snd]. rewrite Hb2, Hst2, lookup_insert_eq.
  split; [done|]. by rewrite bool_decide_true.
Qed.
Lemma wp_store_blks ps bs s m :
  mapM (λ p, blocks s !! p) ps = Some m → length bs = length ps → NoDup ps →
  wp (store_blks ps bs) (λ _ s', rt_handles s' = rt_handles s ∧ caches s' = caches s ∧
    blob s'.2 = blob s.2 ∧ staged s'.2 = staged s.2 ∧
    (∀ q, q ∉ ps → blocks s' !! q = blocks s !! q) ∧
    Forall2 (λ p b, blocks s' !! p = Some b) ps bs) s.
Proof.
  revert bs s m. induction ps as [|p ps IH]; intros [|b bs] s m Hm Hlen Hnd; try done.
  apply mapM_Some in Hm. inversion Hm as [|? x ? m' Hx Hm' Heq1 Heq2]; subst. simpl in Hx.
  apply NoDup_cons in Hnd as [Hni Hnd]. cbn [store_blks]. apply wp_bind. unfold upd_blk, wp at 1. rewrite Hx.
  set (s1 := set_blocks _ s).
  assert (Hb1 : blocks s1 = <[p := b]> (blocks s)) by (unfold s1, set_blocks, blocks at 1; by rewrite ch_get_set).
  assert (Hc1 : caches s1 = caches s) by (unfold s1, set_blocks, caches at 1; by rewrite ch_get_set).
  assert (Hh1 : rt_handles s1 = rt_handles s) by apply ch_handles_set.
  assert (Hs1 : blob s1.2 = blob s.2 ∧ staged s1.2 = staged s.2) by apply bf_set_heap.
  clearbody s1. destruct Hs1 as [Hbl1 Hst1]. injection Hlen as Hlen.
  eapply wp_mono; [apply (IH bs s1 m')|]; [|done|done|].
  - apply mapM_Some. apply Forall2_same_length_lookup. split; [by eapply Forall2_length|].
    intros i q y Hq Hy. rewrite Hb1, lookup_insert_ne; [exact (Forall2_lookup_lr _ _ _ _ _ _ Hm' Hq Hy)|].
    intros ->. apply Hni. by eapply list_elem_of_lookup_2.
  - intros _ s2 (H1 & H2 & H3 & H4 & H5 & H6). split_and!; try congruence.
    + intros q [Hq1 Hq2]%not_elem_of_cons. rewrite H5, Hb1, lookup_insert_ne by done. done.
    + constructor; [|done]. by rewrite H5, Hb1, lookup_insert_eq.
Qed.

(** The blocks after the stores. *)
Lemma stored_blocks ps bs (m m' : gmap ptr Block) :
  mapM (λ p, m !! p) ps = Some bs → NoDup ps →
  (∀ q, q ∉ ps → m' !! q = m !! q) → Forall2 (λ p b, m' !! p = Some b) ps (staged_block <$> bs) →
  m' = foldr (λ p m, alter staged_block p m) m ps.
Proof.
  intros Hm Hnd Hout Hin. apply map_eq. intros q. rewrite foldr_alter_lookup by done.
  case_decide as Hq; [|by apply Hout]. apply list_elem_of_lookup in Hq as [i Hi].
  apply mapM_Some in Hm. destruct (Forall2_lookup_l _ _ _ _ _ Hm Hi) as (b & Hb & Hmb).
  destruct (Forall2_lookup_l _ _ _ _ _ Hin Hi) as (b' & Hb' & Hmb').
  rewrite list_lookup_fmap, Hb in Hb'. simpl in Hb'. injection Hb' as <-. by rewrite Hmb, Hmb'.
Qed.

Lemma wp_az_flush hp h cc bs cs s :
  rt_handles s !! hp = Some h → caches s !! CacheObj h = Some cc →
  mapM (λ p, blocks s !! p) (cache_list cc) = Some bs → az_chunks s !! hPath h = Some cs →
  NoDup cs.*1 → Forall (λ b, Truncated b = false ∧ Removed b = false) bs →
  (existsb Dirty bs = true → Forall (λ b, Dirty b = false → Id b ∈ cs.*1) bs) →
  "" ∉ (Id <$> bs) → NoDup (Id <$> bs) → NoDup (cache_list cc) →
  wp (c_FlushFile az (mkFlushFileOptions hp)) (λ e s',
    e = None ∧ rt_handles s' = rt_handles s ∧ caches s' = caches s ∧
    blocks s' = foldr (λ p m, alter staged_block p m) (blocks s) (cache_list cc) ∧
    flushed az_chunks (hPath h) bs cs s') s.
Proof.
  intros Hh Hc Hbs Hcs Hnd Hfl Hcl Hne Hndi Hndl. cbn [c_FlushFile AzStorage_component]. unfold az_FlushFile. cbn [FlushFile_Handle]. eapply wp_load_h; [done|].
  apply wp_bind. unfold load_cache, wp at 1. rewrite Hc. cbn [go_deref mret go_ret].
  apply wp_bind. unfold load_blks, wp at 1. rewrite Hbs. cbn [go_deref mret go_ret].
  destruct s as [z n]. apply wp_bind, wp_snd. cbn [az_StageAndCommit BlockBlob_connection].
  eapply wp_mono; [by apply (wp_az_commit _ bs cs _ _ _ _ n z)|].
  intros [bol e] n1 (He & Hbl & Hh1 & Hheap1 & Hflush). cbn [fst snd] in *. subst e. rewrite Hbl.
  assert (Hb1 : blocks (z, n1) = blocks (z, n)) by (unfold blocks; simpl; by rewrite Hheap1).
  assert (Hc1 : caches (z, n1) = caches (z, n)) by (unfold caches; simpl; by rewrite Hheap1).
  apply wp_bind. eapply wp_mono; [apply (wp_store_blks _ _ (z, n1) bs)|].
  - by rewrite Hb1.
  - rewrite length_fmap. apply mapM_Some, Forall2_length in Hbs. done.
  - done.
  - intros _ s2 (H1 & H2 & H3 & H4 & H5 & H6). apply wp_ret. rewrite H1, H2, Hc1. split_and!; try done.
    + rewrite Hb1 in H5. by eapply stored_blocks.
    + specialize (Hflush s2.1). unfold flushed in *. destruct s2 as [z2 n2]. cbn [fst snd] in *.
      assert (Heq : az_chunks (z2, n2) = az_chunks (z2, n1)) by (by apply az_chunks_same). by rewrite Heq.
Qed.

#[export] Instance AzStorage_StreamStore : StreamStore az.
Proof.
  refine {| chunks := az_chunks |}.
  - intros h [z n]. destruct (bf_set_heap h n). by apply az_chunks_same.
  - intros m [z n]. destruct (bf_set_handles m n). by apply az_chunks_same.
  - intros options cs s. apply wp_az_open_file.
  - intros hp s. apply wp_az_close.
  - intros hp h cs off data s. apply wp_az_read.
  - intros path cs s. apply wp_az_offsets.
  - intros hp h cc bs cs s H1 H2 H3 H4 H5 H6 _ H7 H8 H9 H10. by apply wp_az_flush.
Defined.
Definition AzStorage_StreamNext (rest : virtualDirectory cfg = false) : StreamNext az :=
  {| sn_store := AzStorage_StreamStore; sn_open := λ options s, wp_az_open options s rest |}.
(** ** From the stream component to the service *)
Context `{!StreamEnv st, !StreamEnvLaws (next := az)}.

End serves.


(** ** A commit that fails *)
Section commit.
Context {N : Type} `{!Runtime N, !BlobSDK N} (cfg : BlobConfig).

Definition settled_block (b : Block) : Prop := Dirty b = false ∧ Truncated b = false.

(** Staging clears the flags of the blocks. *)
Lemma stage_loop_settled name bs any n r n1 :
  Forall (λ b, Removed b = false) bs → stage_loop cfg name bs n = Ret (r, any, None, n1) →
  Forall (λ b, settled_block b ∧ Removed b = false) r.
Proof.
  intros Hrm. revert any n r n1. induction Hrm as [|b bs Hr Hrm IH]; intros any n r n1; cbn [stage_loop].
  { by intros [= <- <- <-]. }
  intros H. apply go_bind_Ret in H as (data & n2 & _ & H). cbn zeta in H.
  set (b1 := if Truncated b then block_clear TruncatedBlock b else b) in H.
  assert (Hb1 : Truncated b1 = false ∧ Removed b1 = false).
  { unfold b1. destruct (Truncated b) eqn:Ht; [|done]. unfold Truncated, Removed in *. simpl.
    rewrite !IsSet_Clear by (unfold is_bit, TruncatedBlock, RemovedBlocks; lia). by rewrite Hr. }
  destruct (Dirty b1) eqn:Hd.
  - apply go_bind_Ret in H as (err & n3 & _ & H). destruct err as [e|]; [discriminate H|].
    apply go_bind_Ret in H as ([[r' any'] e] & n4 & H4 & H). injection H as <- _ -> _.
    constructor; [|by eapply IH]. unfold settled_block, Dirty, Truncated, Removed in *. simpl.
    rewrite !IsSet_Clear by (unfold is_bit, DirtyBlock, TruncatedBlock, RemovedBlocks; lia).
    destruct Hb1 as [-> ->]. done.
  - apply go_bind_Ret in H as ([[r' any'] e] & n4 & H4 & H). injection H as <- _ -> _.
    constructor; [|by eapply IH]. by destruct Hb1.
Qed.

(** Nothing is sent for settled blocks. *)
Lemma stage_loop_nothing name bs n :
  Forall (λ b, settled_block b ∧ Removed b = false) bs → stage_loop cfg name bs n = Ret (bs, false, None, n).
Proof.
  induction 1 as [|b bs [[Hd Ht] Hr] _ IH]; cbn [stage_loop]; [done|]. rewrite Ht. unfold mbind, go_bind at 1.
  cbn zeta. rewrite Hd. unfold go_bind. simpl. rewrite IH. by rewrite Hr.
Qed.

(** C39: when the dirty blocks of a handle were staged but the commit of the block
    list fails, the call reports the error, yet the blocks are no longer marked
    dirty: flushing again sends no request and reports success, although the
    data were never committed. *)
Theorem failed_commit_forgets_data name bol n r n1 e n2 :
  Forall (λ b, Removed b = false) (BlockList bol) →
  stage_loop cfg name (BlockList bol) n = Ret (r, true, None, n1) →
  sdk_CommitBlockList (blob_name cfg name) (Id <$> r) (getContentType name) n1 = Ret (Some e, n2) →
  ∃ bol', StageAndCommit cfg name bol n = Ret (bol', Some e, n2) ∧
    ∀ n3, StageAndCommit cfg name bol' n3 = Ret (bol', None, n3).
Proof.
  intros Hrm Hst Hcm. exists (bol_with_blocks r bol). unfold StageAndCommit. unfold mbind, go_bind.
  rewrite Hst. cbn [BlockList bol_with_blocks]. rewrite Hcm. split; [done|]. intros n3.
  rewrite stage_loop_nothing; [done|]. by eapply stage_loop_settled.
Qed.
End commit.

(** ** Listings *)
Section listing.
Context {N : Type} `{!Runtime N, !CacheHeap N} (cancel : Z) (storage : AzConnection N).
Abbreviation st := (AzState * N)%type.

(** [listed path marker n pages n']: the pages that the storage answers from
    [marker] on, and its state after them. *)
Inductive listed (path : string) (count : Z) : option string → N → list (list ptr) → N → Prop :=
  | listed_last marker n page next n' :
      az_List storage path marker count n = Ret ((page, next, None), n') →
      next = None ∨ next = Some "" → listed path count marker n [page] n'
  | listed_more marker n page next n1 pages n' :
      az_List storage path marker count n = Ret ((page, Some next, None), n1) → next ≠ "" →
      listed path count (Some next) n1 pages n' → listed path count marker n (page :: pages) n'.

Lemma ReadDir_loop_pages path marker n pages n' fuel z acc :
  listed path MaxDirListCount marker n pages n' → (length pages ≤ fuel)%nat →
  ReadDir_loop storage fuel path marker acc (z, n) = Ret ((acc ++ concat pages, None), (z, n')).
Proof.
  intros Hl. revert fuel acc. induction Hl as [marker n page next n' Hrun Hend|marker n page next n1 pages n' Hrun Hne _ IH];
    intros [|fuel] acc Hf; simpl in Hf; try lia; cbn [ReadDir_loop]; unfold mbind, go_bind, go_snd; rewrite Hrun.
  - cbn [concat]. rewrite app_nil_r. by destruct Hend as [->| ->].
  - destruct next as [|a next]; [done|]. rewrite IH by lia. cbn [concat]. by rewrite app_assoc.
Qed.

(** C38: once listings are allowed, ReadDir ends after as many requests as the
    storage has pages for the directory and returns the objects of all of them,
    in order. *)
Theorem ReadDir_returns_all_pages fuel options z n pages n' :
  listBlocked z = false →
  listed (formatListDirName (ReadDir_Name options)) MaxDirListCount None n pages n' → (length pages ≤ fuel)%nat →
  ReadDir cancel storage fuel options (z, n) = Ret ((concat pages, None), (z, n')).
Proof.
  intros Hz Hl Hf. unfold ReadDir, list_refused, mbind, go_bind, go_gets. cbn [fst]. rewrite Hz.
  cbn [mret go_ret]. by apply (ReadDir_loop_pages _ _ _ _ _ _ _ []).
Qed.

(** StreamDir skips the empty pages: it returns the first page that has objects,
    or the last page, with the marker after it. *)
Lemma StreamDir_skips_empty fuel options z n n1 page next :
  listBlocked z = false →
  az_List storage (formatListDirName (StreamDir_Name options)) (Some (StreamDir_Token options))
    (StreamDir_Count options) n = Ret ((page, Some next, None), n1) →
  StreamDir cancel storage (S fuel) options (z, n) =
    if decide (page = [] ∧ next ≠ "")
    then StreamDir cancel storage fuel (mkStreamDirOptions (StreamDir_Name options)
           (StreamDir_Offset options) next (StreamDir_Count options)) (z, n1)
    else Ret ((page, next, None), (z, n1)).
Proof.
  intros Hz Hrun. cbn [StreamDir]. unfold list_refused, mbind, go_bind, go_gets, go_snd. cbn [fst].
  rewrite Hz. cbn [mret go_ret]. rewrite Hrun. case_decide as Hd.
  - destruct Hd as [-> Hne]. by rewrite !bool_decide_true.
  - destruct (decide (next = "")) as [->|Hne]; [by rewrite bool_decide_false by tauto|].
    rewrite (bool_decide_false (page = [])) by tauto. by rewrite andb_false_r.
Qed.
End listing.
