(* ===== verification/StreamRuns.v ===== *)
(** * The stream component over a service in memory

    The service of BlockBlobSpec with the handles, caches and blocks of the
    program beside it, below the azstorage component: witnesses of the theorems
    on the stream component, and runs that show what happens on errors. *)
From S2P Require Import Prelude GoLib Common HandleMap Internal LRUCache Base64 AzUtils BlockBlob BlockBlobSpec CacheObj AzStorage Stream StreamSpec StreamRead StreamWrite StreamRefine AzStorageSpec.
Open Scope Z_scope.

(** ** Results that keep a part of the state *)
Definition pres {S A B : Type} (f : S → B) (m : go S A) : Prop :=
  ∀ s a s', m s = Ret (a, s') → f s' = f s.
Lemma pres_ret {S A B} (f : S → B) (a : A) : pres f (mret a).
Proof. by intros s ? ? [= <- <-]. Qed.
Lemma pres_bind {S A A' B} (f : S → B) (m : go S A) (g : A → go S A') :
  pres f m → (∀ a, pres f (g a)) → pres f (m ≫= g).
Proof.
  intros Hm Hg s a s' H. apply go_bind_Ret in H as (a1 & s1 & H1 & H2).
  by rewrite (Hg _ _ _ _ H2), (Hm _ _ _ H1).
Qed.
Lemma pres_snd {C S A B} (f : S → B) (m : go S A) : pres f m → pres (f ∘ (snd (A:=C))) (go_snd m).
Proof. intros Hm [c s] a [c' s'] H. apply go_snd_Ret in H as [_ H]. by apply (Hm _ _ _ H). Qed.

(** ** The memory *)
Module Memory.
Import BlobMemory.
Definition heap := (gmap ptr Cache * gmap ptr Block)%type.
Definition smem := (heap * bmem)%type.
#[export] Instance CacheHeap_smem : CacheHeap smem := {
  ch_heap s := s.1;
  ch_set_heap h s := (h, s.2)
}.
#[export] Instance RuntimeLaws_smem : RuntimeLaws smem.
Proof.
  split; try done; intros [h n]; [by eexists _, _|..]; by intros t n' [= <- <-].
Qed.
#[export] Instance CacheHeapLaws_smem : CacheHeapLaws smem.
Proof. split; done. Qed.

Definition ssdk (f : Faults) : BlobSDK smem := {|
  BlockBlobMaxStageBlockBytes := @BlockBlobMaxStageBlockBytes _ (sdk f);
  BlockBlobMaxBlocks := @BlockBlobMaxBlocks _ (sdk f);
  BlockBlobMaxUploadBlobBytes := @BlockBlobMaxUploadBlobBytes _ (sdk f);
  BlobDefaultDownloadBlockSize := @BlobDefaultDownloadBlockSize _ (sdk f);
  sdk_GetBlockList name := go_snd (@sdk_GetBlockList _ (sdk f) name);
  sdk_StageBlock name id data := go_snd (@sdk_StageBlock _ (sdk f) name id data);
  sdk_CommitBlockList name ids ct := go_snd (@sdk_CommitBlockList _ (sdk f) name ids ct);
  sdk_UploadBuffer name md ct bs data := go_snd (@sdk_UploadBuffer _ (sdk f) name md ct bs data);
  sdk_Download name off len buf := go_snd (@sdk_Download _ (sdk f) name off len buf);
  sdk_GetProperties name := go_snd (@sdk_GetProperties _ (sdk f) name);
  sdk_Delete name := go_snd (@sdk_Delete _ (sdk f) name);
  sdk_ListHierarchy m p k := go_snd (@sdk_ListHierarchy _ (sdk f) m p k);
  sdk_ListFlat m p k := go_snd (@sdk_ListFlat _ (sdk f) m p k);
  sdk_StartCopyFromURL t s md := go_snd (@sdk_StartCopyFromURL _ (sdk f) t s md);
  sdk_DownloadToFile name off k fi := go_snd (@sdk_DownloadToFile _ (sdk f) name off k fi);
  sdk_UploadFile fi name md ct m bs := go_snd (@sdk_UploadFile _ (sdk f) fi name md ct m bs);
  file_Size fi := go_snd (@file_Size _ (sdk f) fi);
  getMD5 fi := go_snd (@getMD5 _ (sdk f) fi);
  rand_Read k := go_snd (@rand_Read _ (sdk f) k)
|}.
#[export] Instance sservice (f : Faults) : @BlobService smem _ (ssdk f).
Proof.
  refine (@Build_BlobService smem _ (ssdk f) (λ s, @blob _ _ _ (service f) s.2) (λ s, @staged _ _ _ (service f) s.2)
    (λ s, @issued _ _ _ (service f) s.2) _ _ _ _ _ _ _ _ _ _ _ _ _); try (apply (service f)).
  - intros m [h n]. apply (@svc_set_objs _ _ _ (service f) m n).
  - intros name [h n]. apply wp_snd, (@svc_GetBlockList _ _ _ (service f) name n).
  - intros name id data [h n]. apply wp_snd, (@svc_StageBlock _ _ _ (service f) name id data n).
  - intros name ids ct [h n]. apply wp_snd, (@svc_CommitBlockList _ _ _ (service f) name ids ct n).
  - intros name md ct bs data [h n]. apply wp_snd, (@svc_UploadBuffer _ _ _ (service f) name md ct bs data n).
  - intros name off len buf [h n]. apply wp_snd, (@svc_Download _ _ _ (service f) name off len buf n).
  - intros name [h n]. apply wp_snd, (@svc_GetProperties _ _ _ (service f) name n).
  - intros name [h n]. apply wp_snd, (@svc_Delete _ _ _ (service f) name n).
  - intros t s md [h n]. apply wp_snd, (@svc_StartCopyFromURL _ _ _ (service f) t s md n).
  - intros k [h n] Hk. by apply wp_snd, (@svc_rand _ _ _ (service f) k n).
Defined.

Definition fine : Faults := mkFaults false false false false.
#[export] Instance ssdk_fine : BlobSDK smem := ssdk fine.
#[export] Instance slisting : BlobListing smem.
Proof.
  refine (@Build_BlobListing smem _ _ _ (λ _, true) _ _ _).
  - by intros [h n] t [h' n'] [= <- <- <-].
  - intros name [h n] r [h' n'] [<- H]%go_snd_Ret. by injection H as _ <-.
  - intros name count [h n]. apply wp_snd, (@ls_list _ _ _ _ (listing fine) name count n).
Defined.
#[export] Instance BlobFrame_smem : BlobFrame smem.
Proof.
  split; try done; repeat (intros ?); repeat match goal with s : smem |- _ => destruct s as [? ?] end;
    match goal with H : _ = Ret _ |- _ => apply go_snd_Ret in H as [<- H] end.
  - by injection H as <- <-.
  - by injection H as <- <-.
  - simpl in H. by destruct (mapM _ _); injection H as <- <-.
  - simpl in H. by destruct (b_blobs _ !! _); injection H as <- <-.
  - by injection H as <- <-.
  - by injection H as <- <-.
  - by injection H as <- <-.
Qed.
#[export] Instance Reliable_smem : Reliable smem.
Proof.
  split.
  - intros name off len buf [h n] r [h' n'] [_ H]%go_snd_Ret. simpl in H.
    by destruct (b_blobs n !! name); injection H as <- _.
  - intros name [h n] r [h' n'] [b Hb] [_ H]%go_snd_Ret. simpl in H, Hb. rewrite Hb in H.
    injection H as <- _. destruct b; eauto.
  - by intros name id data [h n] r [h' n'] [_ [= <- _]]%go_snd_Ret.
  - intros name ids ct [h n] r [h' n'] [bs Hbs] [_ H]%go_snd_Ret. simpl in H, Hbs. rewrite Hbs in H. by injection H as <- _.
  - intros name [h n] [b Hb]. simpl in Hb. split; [intros r [h' n']|intros count r [h' n']];
      intros [_ H]%go_snd_Ret; simpl in H; rewrite ?Hb in H; injection H as <- _; eauto.
Qed.

(** Attributes by listing (the default) and by properties. *)
Definition cfg_list : BlobConfig := mkBlobConfig "" 4 true 100 false false false.
Definition cfg0 : BlobConfig := mkBlobConfig "" 4 false 100 false false false.
Abbreviation component cfg := (AzStorage_component 0 (BlockBlob_connection cfg 10) 10).
Abbreviation azl := (component cfg_list).
Abbreviation az := (component cfg0).
Abbreviation st := (AzState * smem)%type.
#[export] Instance store_azl : StreamStore azl := AzStorage_StreamStore cfg_list 0 10.
#[export] Instance next_az : StreamNext az := AzStorage_StreamNext cfg0 0 10 eq_refl.

(** A terabyte of free memory; random bytes are those of the service. *)
#[export] Instance StreamEnv_st : StreamEnv st := {
  memory_FreeMemory := mret (2 ^ 40);
  crypto_rand_Read k := go_snd (rand_Read k)
}.
Definition issued_of (s : st) : list string := b_issued s.2.2.
(** What requests leave alone. *)
Definition issued_n (n : smem) : list string := b_issued n.2.
Lemma pres_deref {S A B} (f : S → B) (o : option A) : pres f (go_deref o).
Proof. destruct o; [apply pres_ret|]. intros s a s' H. discriminate H. Qed.
Lemma pres_load {S A B} (f : S → B) (g : S → option A) : pres f (λ s, go_deref (g s) s).
Proof. intros s a s' H. exact (pres_deref f (g s) s a s' H). Qed.
Lemma pres_stage name id data : pres issued_n (sdk_StageBlock name id data).
Proof. by intros [h n] r [h' n'] [_ [= _ <-]]%go_snd_Ret. Qed.
Lemma pres_commit name ids ct : pres issued_n (sdk_CommitBlockList name ids ct).
Proof.
  intros [h n] r [h' n'] [_ H]%go_snd_Ret. simpl in H.
  by destruct (mapM _ _); injection H as _ <-.
Qed.
Lemma pres_download name off len buf : pres issued_n (sdk_Download name off len buf).
Proof.
  intros [h n] r [h' n'] [_ H]%go_snd_Ret. simpl in H. by destruct (b_blobs n !! name); injection H as _ <-.
Qed.
Lemma pres_make_slice k : pres issued_n (make_slice k).
Proof. unfold make_slice. destruct (k <? 0); [by intros s a s'|apply pres_ret]. Qed.
Lemma pres_stage_loop cfg name bs : pres issued_n (stage_loop cfg name bs).
Proof.
  induction bs as [|b bs IH]; cbn [stage_loop]; [apply pres_ret|]. apply pres_bind.
  { destruct (Truncated b); [apply pres_make_slice|apply pres_ret]. }
  intros data. cbn zeta. destruct (Dirty _).
  - apply pres_bind; [apply pres_stage|]. intros [e|]; [apply pres_ret|].
    apply pres_bind; [done|]. intros [[r any] e]. apply pres_ret.
  - apply pres_bind; [done|]. intros [[r any] e]. apply pres_ret.
Qed.
Lemma pres_StageAndCommit cfg name bol : pres issued_n (StageAndCommit cfg name bol).
Proof.
  unfold StageAndCommit. apply pres_bind; [apply pres_stage_loop|]. intros [[r any] [e|]]; [apply pres_ret|].
  destruct any; [|apply pres_ret]. apply pres_bind; [apply pres_commit|]. intros e. apply pres_ret.
Qed.
Lemma pres_store ps bs : pres issued_of (store_blks ps bs).
Proof.
  revert bs. induction ps as [|p ps IH]; intros [|b bs]; try apply pres_ret. cbn [store_blks].
  apply pres_bind; [|intros _; apply IH]. intros s a s'. unfold upd_blk.
  destruct (blocks s !! p); [|done]. by intros [= _ <-].
Qed.
Lemma pres_flush cfg options : pres issued_of (c_FlushFile (component cfg) options).
Proof.
  cbn [c_FlushFile AzStorage_component]. unfold az_FlushFile.
  apply pres_bind; [apply pres_load|]. intros h. apply pres_bind; [apply pres_load|]. intros cc.
  apply pres_bind; [apply pres_load|]. intros bs.
  apply pres_bind; [apply (pres_snd issued_n), pres_StageAndCommit|]. intros [bol e].
  apply pres_bind; [apply pres_store|]. intros _. apply pres_ret.
Qed.
Lemma pres_read cfg options : pres issued_of (c_ReadInBuffer (component cfg) options).
Proof.
  cbn [c_ReadInBuffer AzStorage_component]. unfold az_ReadInBuffer_op.
  apply pres_bind; [apply pres_load|]. intros h. destruct (_ <? _); [apply pres_ret|]. cbn zeta.
  destruct (_ =? 0); [apply pres_ret|]. apply pres_bind; [|intros [d e]; apply pres_ret].
  apply (pres_snd issued_n). unfold az_ReadInBuffer, BlockBlob_connection, ReadInBuffer.
  apply pres_bind; [apply pres_download|]. intros [d e]. apply pres_ret.
Qed.

#[export] Instance StreamEnvLaws_az cfg : StreamEnvLaws (next := component cfg).
Proof.
  refine {| rand_bytes := λ s : st, draw s.2.2 |}.
  - intros s k. apply draw_length.
  - intros k [z [h n]]. unfold wp. simpl. split; [done|]. done.
  - intros s. unfold wp. simpl. done.
  - done.
  - done.
  - intros options s r s' H. pose proof (pres_read _ _ _ _ _ H) as E. unfold draw. unfold issued_of in E. by rewrite E.
  - intros options s r s' H. pose proof (pres_flush _ _ _ _ _ H) as E. unfold draw. unfold issued_of in E. by rewrite E.
Defined.
End Memory.

(** ** Witnesses *)
Module StreamWitness.
Import BlobMemory Memory.
Definition conf : StreamConf := mkStreamConf false 4 6 2.
Definition text (s : string) : list byte := bytes_of_string s.
Definition id1 : string := base64_EncodeToString (replicate 9 Byte.x41).
Definition id2 : string := base64_EncodeToString (replicate 9 Byte.x42).
Definition blob_f : chunk_list := [(id1, text "abc"); (id2, text "de")].
Abbreviation sst := (Stream * st)%type.
Definition s0 : sst :=
  (mkStream 0 ∅, (mkAzState 0 false, ((∅, ∅), mkBmem ∅ ∅ {["f" := Blocks blob_f]} ∅ []))).
Definition final {A} (o : outcome (A * sst)) : sst := match o with Ret (_, s) => s | _ => s0 end.

Definition open_f : OpenFileOptions := mkOpenFileOptions "f" O_RDWR 0.
Definition hp : ptr := 1%nat.
Definition w1 : sst := final (rw_OpenFile conf azl open_f s0).
Definition w2 : sst := final (rw_WriteFile conf azl (mkWriteFileOptions hp 4 (text "XYZ") ∅) w1).
Definition c2 : list byte := write_at (bytes_of blob_f) 4 (text "XYZ").

Lemma blob_f_ok : block_file blob_f.
Proof.
  split; [apply (bool_decide_unpack _); by vm_compute|].
  split; [apply (bool_decide_unpack _); by vm_compute|]. split; [by repeat constructor|done].
Qed.
Lemma reach_open : rw_reach conf (next := azl) "f" hp (bytes_of blob_f) w1.
Proof. apply (rw_opened _ _ _ open_f blob_f s0); [done|done|by vm_compute|apply blob_f_ok|done|by vm_compute]. Qed.

(** The next id is none of the two ids. *)
Lemma fresh_w1 : rw_fresh (next := azl) hp w1.
Proof.
  intros len h cc p b Hlen Hh Hc Hp Hb He. pose proof (next_id_length (next := azl) len w1.2 Hlen) as Hl.
  rewrite He in Hl.
  assert (Hcase : Id b = id1 ∨ Id b = id2).
  { vm_compute in Hh. injection Hh as <-. vm_compute in Hc. injection Hc as <-. simpl in Hp.
    rewrite !elem_of_cons, elem_of_nil in Hp. destruct Hp as [->|[->|[]]]; vm_compute in Hb;
      injection Hb as <-; [by left|by right]. }
  assert (len = 9) as ->; [by destruct Hcase as [E|E]; rewrite E in Hl|].
  destruct Hcase as [E|E]; rewrite E in He; vm_compute in He; discriminate He.
Qed.
Lemma reach_write : rw_reach conf (next := azl) "f" hp c2 w2.
Proof.
  eapply (rw_written _ _ _ _ w1 4 (text "XYZ") ∅ _ w2); [apply reach_open|apply fresh_w1|done|done|by vm_compute].
Qed.



(** A read-only mount. *)
Definition r1 : sst := final (rc_OpenFile conf az open_f s0).
Lemma sizes_s0 path cs : chunks (next := az) s0.2 !! path = Some cs → Z.of_nat (length (bytes_of cs)) < 2 ^ 62.
Proof.
  intros (_ & b & Hb & ->)%az_chunks_Some. rewrite blob_chunks_content. simpl in Hb.
  apply lookup_singleton_Some in Hb as [_ <-]. done.
Qed.
Lemma reach_read : rc_reach conf (next := az) (<[hp := true]> ∅) r1.
Proof. exact (rc_opened conf ∅ s0 open_f hp r1 (rc_start _ _ sizes_s0) ltac:(by vm_compute)). Qed.

Lemma rc_cache_limit_witness :
  rc_reach conf (next := az) (<[hp := true]> ∅) r1 ∧ CachedObjects r1.1 = 1 ∧
  cached_count (<[hp := true]> ∅) ≤ 2.
Proof.
  split; [apply reach_read|].
  apply (rc_cache_limit conf ltac:(simpl; lia) eq_refl ltac:(simpl; lia) ltac:(simpl; lia) _ r1 reach_read).
Defined.
End StreamWitness.

(** ** Runs with errors *)
Module StreamErrors.
Import BlobMemory Memory StreamWitness.
Definition result {A} (o : outcome (A * sst)) : option A := match o with Ret (a, _) => Some a | _ => None end.
(** The content of the blob after a step. *)
Definition blob_text {A} (o : outcome (A * sst)) : option (A * option string) :=
  match o with
  | Ret (a, s) => Some (a, string_of_bytes <$> (content <$> b_blobs s.2.2.2 !! "f"))
  | _ => None
  end.
(** The same service while downloads fail. *)
Definition broken_az : Component st :=
  @AzStorage_component smem _ _ 0 (@BlockBlob_connection smem _ (ssdk (mkFaults false true false false)) cfg0 10) 10.
Definition read_all : ReadInBufferOptions := mkReadInBufferOptions hp 0 (text "..........").
Definition w1 : sst := final (rw_OpenFile conf az open_f s0).
Definition after_failure : sst := final (rw_ReadInBuffer conf broken_az read_all w1).
Definition write_at_2 : WriteFileOptions := mkWriteFileOptions hp 2 (text "Z") ∅.
Definition written : sst := final (rw_WriteFile conf az write_at_2 after_failure).

(** A block whose download fails stays in the cache with its zeros.  The read
    reports the error, but the next read of the open file returns zeros in place
    of the first block and no error, and a write to that block followed by a
    close stores the zeros in the blob. *)
Theorem failed_read_leaves_zeros :
  blob_text (rw_OpenFile conf az open_f s0) = Some ((hp, None), Some "abcde") ∧
  option_map snd (result (rw_ReadInBuffer conf broken_az read_all w1)) = Some (Some failure) ∧
  result (rw_ReadInBuffer conf az read_all after_failure)
    = Some (make_bytes 3 ++ text "de.....", 5, None) ∧
  blob_text (rw_CloseFile conf az (mkCloseFileOptions hp) written)
    = Some (None, Some (string_of_bytes (make_bytes 2 ++ text "Zde"))).
Proof. by vm_compute. Qed.

(** On a read-only mount a failed download makes the read panic: the block
    that getBlock does not return is unlocked. *)
Theorem rc_failed_read_panics :
  rc_ReadInBuffer conf broken_az (mkReadInBufferOptions hp 4 (text "..........")) r1 = Panic.
Proof. by vm_compute. Qed.

(** A file that was uploaded without blocks, opened and extended by a block. *)
Definition flat0 : sst :=
  (mkStream 0 ∅, (mkAzState 0 false, ((∅, ∅), mkBmem ∅ ∅ {["f" := Flat (text "abcd")]} ∅ []))).
Definition flat1 : sst := final (rw_OpenFile conf az open_f flat0).
Definition flat2 : sst := final (rw_WriteFile conf az (mkWriteFileOptions hp 4 (text "XYZ") ∅) flat1).

(** A file that was uploaded without blocks and is extended by a new block
    cannot be flushed: its old content is a clean block whose new id was never
    committed, and the service refuses the list.  Reads of the handle see the
    data, the blob keeps the old content. *)
Theorem flat_file_append_cannot_flush :
  result (rw_WriteFile conf az (mkWriteFileOptions hp 4 (text "XYZ") ∅) flat1) = Some (3, None) ∧
  result (rw_ReadInBuffer conf az read_all flat2) = Some (text "abcdXYZ...", 7, None) ∧
  blob_text (rw_FlushFile conf az (mkFlushFileOptions hp) flat2)
    = Some (Some (BlobError (OtherServiceCode "InvalidBlockList")), Some "abcd").
Proof. by vm_compute. Qed.

(** Opening with O_TRUNC sets the size of the handle to zero only: closing
    without a write leaves the blob as it was. *)
Theorem open_trunc_keeps_content :
  let s := final (rw_OpenFile conf az (mkOpenFileOptions "f" (Z.lor O_RDWR O_TRUNC) 0) s0) in
  result (rw_ReadInBuffer conf az read_all s) = Some (text "..........", 0, None) ∧
  blob_text (rw_CloseFile conf az (mkCloseFileOptions hp) s) = Some (None, Some "abcde").
Proof. by vm_compute. Qed.
End StreamErrors.

(** A storage with two pages. *)
Module ListingWitness.
Import BlobMemory Memory.
Definition two_pages : AzConnection smem :=
  let k := BlockBlob_connection cfg0 10 in
  mkAzConnection smem (az_CreateFile k) (az_CreateDirectory k) (az_CreateLink k) (az_DeleteFile k)
    (az_DeleteDirectory k) (az_RenameFile k) (az_RenameDirectory k) (az_GetAttr k)
    (λ path marker count n, match marker with
      | None => Ret (([1%nat; 2%nat], Some "m", None), n)
      | Some _ => Ret (([3%nat], Some "", None), n)
      end)
    (az_ReadToFile k) (az_ReadBuffer k) (az_ReadInBuffer k) (az_WriteFromFile k)
    (az_WriteFromBuffer k) (az_Write k) (az_GetFileBlockOffsets k) (az_ChangeMod k) (az_ChangeOwner k)
    (az_TruncateFile k) (az_StageAndCommit k) (az_GetCommittedBlockList k) (az_StageBlock k) (az_CommitBlocks k).
Lemma ReadDir_returns_all_pages_witness :
  let n : smem := StreamWitness.s0.2.2 in
  ReadDir 0 two_pages 2 (mkReadDirOptions "dir") (mkAzState 0 false, n)
    = Ret (([1%nat; 2%nat; 3%nat], None), (mkAzState 0 false, n)).
Proof.
  intros n. apply (ReadDir_returns_all_pages 0 two_pages 2 (mkReadDirOptions "dir") (mkAzState 0 false) n
    [[1%nat; 2%nat]; [3%nat]] n); [done| |simpl; lia].
  eapply (listed_more _ _ _ _ _ _ "m" n); [done|done|]. eapply listed_last; [done|by right].
Defined.
End ListingWitness.

(** A list with a block that was never staged: the commit is refused. *)
Module CommitWitness.
Import BlobMemory.
Definition start : bmem := mkBmem ∅ ∅ {["f" := Flat (bytes_of_string "abcd")]} ∅ [].
Definition bol : BlockOffsetList := mkBOL
  [mkBlock 0 4 0 "old" []; block_set DirtyBlock (mkBlock 4 7 0 "new" (bytes_of_string "XYZ"))] 0 9 7 0.
Definition fine : BlobSDK bmem := sdk (mkFaults false false false false).
Definition staged_state : bmem :=
  match @stage_loop bmem fine Memory.cfg0 "f" (BlockList bol) start with Ret (_, n) => n | _ => start end.
Lemma failed_commit_forgets_data_witness :
  ∃ bol' e n2, @StageAndCommit bmem fine Memory.cfg0 "f" bol start = Ret (bol', Some e, n2) ∧
    (∀ n3, @StageAndCommit bmem fine Memory.cfg0 "f" bol' n3 = Ret (bol', None, n3)) ∧
    b_blobs n2 !! "f" = Some (Flat (bytes_of_string "abcd")).
Proof.
  destruct (@failed_commit_forgets_data bmem fine Memory.cfg0 "f" bol start
    (staged_block <$> BlockList bol) staged_state (BlobError (OtherServiceCode "InvalidBlockList")) staged_state)
    as (bol' & H1 & H2); [by repeat constructor|by vm_compute|by vm_compute|].
  exists bol', (BlobError (OtherServiceCode "InvalidBlockList")), staged_state. split; [exact H1|].
  split; [exact H2|by vm_compute].
Defined.
End CommitWitness.
