(* ===== verification/BlockPool.v ===== *)
(** * Blocks of the block cache and their pool
    (src/component/block_cache/block.go and blockpool.go)

    A block is a memory-mapped buffer with a channel that tells its readers when
    the data is there.  The pool hands free blocks out and takes them back.
    Blocks and channels are objects on a heap, named by their address; mmap and
    munmap are the operations of the class [Memory]. *)
From S2P Require Import Prelude GoLib Common.

Definition BlockFlagFresh : Z := 0.
Definition BlockFlagDownloading : Z := 1.
Definition BlockFlagUploading : Z := 2.
Definition BlockFlagDirty : Z := 3.
Definition BlockFlagSynced : Z := 4.
Definition BlockFlagFailed : Z := 5.

(** A [chan int] of capacity 1: the values in its buffer, and is it closed. *)
Record Chan := mkChan { ch_values : list Z; ch_closed : bool }.

(** [b_data] is [None] for a nil slice; [b_state] is the address of a channel. *)
Record CacheBlock := mkCacheBlock {
  b_offset : Z;
  b_id : Z;
  b_endIndex : Z;
  b_state : ptr;
  b_flags : BitMap16;
  b_data : option (list byte);
  b_node : option nat
}.

Class Memory (M : Type) := {
  mmap : Z → go M (list byte + error);
  munmap : list byte → go M (option error)
}.

(** The pool with the heap it works on. *)
Record PoolState (M : Type) := mkPool {
  p_blocks : gmap ptr CacheBlock;
  p_chans : gmap ptr Chan;
  blocksCh : list ptr;
  p_blockSize : Z;
  maxBlocks : Z;
  p_mem : M
}.
Arguments mkPool {M}.
Arguments p_blocks {M} _.
Arguments p_chans {M} _.
Arguments blocksCh {M} _.
Arguments p_blockSize {M} _.
Arguments maxBlocks {M} _.
Arguments p_mem {M} _.

Section pool.
Context {M : Type} `{!Memory M}.
Abbreviation pool := (PoolState M).

Definition set_blocks (m : gmap ptr CacheBlock) (p : pool) : pool :=
  mkPool m (p_chans p) (blocksCh p) (p_blockSize p) (maxBlocks p) (p_mem p).
Definition set_chans (m : gmap ptr Chan) (p : pool) : pool :=
  mkPool (p_blocks p) m (blocksCh p) (p_blockSize p) (maxBlocks p) (p_mem p).
Definition set_free (l : list ptr) (p : pool) : pool :=
  mkPool (p_blocks p) (p_chans p) l (p_blockSize p) (maxBlocks p) (p_mem p).
Definition set_mem (m : M) (p : pool) : pool :=
  mkPool (p_blocks p) (p_chans p) (blocksCh p) (p_blockSize p) (maxBlocks p) m.
Definition on_mem {A} (m : go M A) : go pool A := go_zoom p_mem set_mem m.

Definition load_cblock (b : ptr) : go pool CacheBlock := λ p, go_deref (p_blocks p !! b) p.
Definition upd_cblock (b : ptr) (f : CacheBlock → CacheBlock) : go pool unit := λ p,
  match p_blocks p !! b with
  | Some x => Ret (tt, set_blocks (<[b := f x]> (p_blocks p)) p)
  | None => Panic
  end.
Definition new_cblock (x : CacheBlock) : go pool ptr := λ p,
  let b := fresh_ptr (p_blocks p) in Ret (b, set_blocks (<[b := x]> (p_blocks p)) p).

(** make(chan int, 1) *)
Definition new_chan : go pool ptr := λ p,
  let c := fresh_ptr (p_chans p) in Ret (c, set_chans (<[c := mkChan [] false]> (p_chans p)) p).

(** *** block.go *)
Definition AllocateBlock (size : Z) : go pool (ptr * option error) :=
  if size =? 0 then mret (nil_ptr, Some (Msg "invalid size"))
  else
    r ← on_mem (mmap (i64 size));
    match r with
    | inr e => mret (nil_ptr, Some (Msg "mmap error"))
    | inl addr =>
        b ← new_cblock (mkCacheBlock 0 (-1) 0 nil_ptr (Set_ (Reset 0) BlockFlagFresh) (Some addr) None);
        mret (b, None)
    end.

Definition with_data (d : option (list byte)) (x : CacheBlock) : CacheBlock :=
  mkCacheBlock (b_offset x) (b_id x) (b_endIndex x) (b_state x) (b_flags x) d (b_node x).
Definition with_state (c : ptr) (x : CacheBlock) : CacheBlock :=
  mkCacheBlock (b_offset x) (b_id x) (b_endIndex x) c (b_flags x) (b_data x) (b_node x).
Definition with_bflags (f : BitMap16) (x : CacheBlock) : CacheBlock :=
  mkCacheBlock (b_offset x) (b_id x) (b_endIndex x) (b_state x) f (b_data x) (b_node x).

Definition Block_Delete (b : ptr) : go pool (option error) :=
  x ← load_cblock b;
  match b_data x with
  | None => mret (Some (Msg "invalid buffer"))
  | Some d =>
      err ← on_mem (munmap d);
      _ ← upd_cblock b (with_data None);
      mret (if decide (err = None) then None else Some (Msg "munmap error"))
  end.

Definition ReUse (b : ptr) : go pool unit :=
  _ ← upd_cblock b (λ x, mkCacheBlock 0 (-1) 0 (b_state x)
        (Set_ (Reset (b_flags x)) BlockFlagFresh) (b_data x) (b_node x));
  c ← new_chan;
  upd_cblock b (with_state c).

Definition Uploading (b : ptr) : go pool unit :=
  c ← new_chan; upd_cblock b (with_state c).

(** A send in a select with a default: a full channel, or a nil one, is
    skipped; a closed one is a panic. *)
Definition Ready (b : ptr) : go pool unit :=
  x ← load_cblock b;
  p ← go_get;
  match p_chans p !! b_state x with
  | None => mret tt
  | Some c =>
      if ch_closed c then go_panic
      else if (length (ch_values c) <? 1)%nat
      then go_modify (set_chans (<[b_state x := mkChan (ch_values c ++ [1]) false]> (p_chans p)))
      else mret tt
  end.

(** close of a nil or closed channel is a panic. *)
Definition Unblock (b : ptr) : go pool unit :=
  x ← load_cblock b;
  p ← go_get;
  match p_chans p !! b_state x with
  | None => go_panic
  | Some c =>
      if ch_closed c then go_panic
      else go_modify (set_chans (<[b_state x := mkChan (ch_values c) true]> (p_chans p)))
  end.

(** [<-block.state], as the readers of a block do: the value received, 0 from a
    closed and empty channel; blocks on an empty open channel and on nil. *)
Definition wait_state (b : ptr) : go pool Z :=
  x ← load_cblock b;
  p ← go_get;
  match p_chans p !! b_state x with
  | None => go_block
  | Some c =>
      match ch_values c with
      | v :: vs => _ ← go_modify (set_chans (<[b_state x := mkChan vs (ch_closed c)]> (p_chans p))); mret v
      | [] => if ch_closed c then mret 0 else go_block
      end
  end.

Definition Block_Dirty (b : ptr) : go pool unit :=
  upd_cblock b (λ x, with_bflags (Set_ (b_flags x) BlockFlagDirty) x).
Definition NoMoreDirty (b : ptr) : go pool unit :=
  upd_cblock b (λ x, with_bflags (Clear (b_flags x) BlockFlagDirty) x).
Definition Block_IsDirty (x : CacheBlock) : bool := IsSet (b_flags x) BlockFlagDirty.
Definition Failed (b : ptr) : go pool unit :=
  upd_cblock b (λ x, with_bflags (Set_ (b_flags x) BlockFlagFailed) x).
Definition IsFailed (x : CacheBlock) : bool := IsSet (b_flags x) BlockFlagFailed.

(** *** blockpool.go *)

(** A blocking send on the channel of free blocks. *)
Definition send_block (b : ptr) : go pool unit := λ p,
  if Z.of_nat (length (blocksCh p)) <? maxBlocks p
  then Ret (tt, set_free (blocksCh p ++ [b]) p) else Blocked.

(** The loop of NewBlockPool; is [false] when an allocation failed. *)
Fixpoint preallocate (n : nat) (blockSize : Z) : go pool bool :=
  match n with
  | O => mret true
  | S n =>
      '(b, err) ← AllocateBlock blockSize;
      if decide (err = None) then _ ← send_block b; preallocate n blockSize else mret false
  end.

(** The pool becomes the state; [false] when the result is nil. *)
Definition NewBlockPool (blockSize memSize : Z) : go pool bool :=
  if (blockSize =? 0) || (memSize <? blockSize) then mret false
  else
    let blockCount := u32 (memSize / blockSize) in
    p ← go_get;
    _ ← go_put (mkPool (p_blocks p) (p_chans p) [] blockSize blockCount (p_mem p));
    preallocate (Z.to_nat blockCount) blockSize.

(** Receives until the closed channel is empty. *)
Fixpoint delete_all (l : list ptr) : go pool unit :=
  match l with
  | [] => mret tt
  | b :: l => if decide (b = nil_ptr) then go_modify (set_free l)
              else _ ← go_modify (set_free l); _ ← Block_Delete b; delete_all l
  end.
Definition Terminate : go pool unit := p ← go_get; delete_all (blocksCh p).

Definition Usage : go pool Z :=
  p ← go_get;
  if maxBlocks p =? 0 then go_panic
  else mret (u32 (u32 (maxBlocks p - Z.of_nat (length (blocksCh p))) * 100) / maxBlocks p).

Definition MustGet : go pool ptr :=
  p ← go_get;
  match blocksCh p with
  | b :: rest => _ ← go_modify (set_free rest); _ ← ReUse b; mret b
  | [] =>
      '(b, err) ← AllocateBlock (p_blockSize p);
      if decide (err = None) then _ ← ReUse b; mret b else mret nil_ptr
  end.

Definition TryGet : go pool ptr :=
  p ← go_get;
  match blocksCh p with
  | b :: rest => _ ← go_modify (set_free rest); _ ← ReUse b; mret b
  | [] => mret nil_ptr
  end.

Definition Release (b : ptr) : go pool unit :=
  p ← go_get;
  if Z.of_nat (length (blocksCh p)) <? maxBlocks p
  then go_modify (set_free (blocksCh p ++ [b]))
  else _ ← Block_Delete b; mret tt.
End pool.

(** ** Ownership of blocks *)
Class MemoryLaws (M : Type) `{!Memory M} := {
  mmap_returns k m : wp (mmap k) (λ r _, ∀ d, r = inl d → Z.of_nat (length d) = k) m;
  munmap_returns d m : wp (munmap d) (λ _ _, True) m
}.

Section ownership.
Context {M : Type} `{!Memory M} `{!MemoryLaws M}.
Abbreviation pool := (PoolState M).
Implicit Types (p : pool) (b : ptr) (own : list ptr).

(** [own] are the blocks handed out and not given back. *)
Record pool_ok (p : pool) (own : list ptr) : Prop := {
  pk_nodup : NoDup (blocksCh p ++ own);
  pk_live : ∀ b, b ∈ blocksCh p ++ own → ∃ x d, p_blocks p !! b = Some x ∧
    b_data x = Some d ∧ Z.of_nat (length d) = p_blockSize p;
  pk_bound : Z.of_nat (length (blocksCh p)) ≤ maxBlocks p;
  pk_size : 0 < p_blockSize p < 2 ^ 63;
  pk_nil : p_blocks p !! nil_ptr = None ∧ p_chans p !! nil_ptr = None;
  pk_chan : ∀ b x, p_blocks p !! b = Some x → b_state x = nil_ptr ∨ is_Some (p_chans p !! b_state x);
  pk_chans : ∀ b1 b2 x1 x2, p_blocks p !! b1 = Some x1 → p_blocks p !! b2 = Some x2 →
    b_state x1 = b_state x2 → b_state x1 ≠ nil_ptr → b1 = b2
}.

(** A block as ReUse leaves it: no flag but "fresh", nobody waiting. *)
Definition pristine (p : pool) (b : ptr) : Prop := ∃ x, p_blocks p !! b = Some x ∧
  b_id x = -1 ∧ b_offset x = 0 ∧ b_endIndex x = 0 ∧ b_flags x = 2 ^ BlockFlagFresh ∧
  p_chans p !! b_state x = Some (mkChan [] false).

Lemma pk_not_nil p own b : pool_ok p own → b ∈ blocksCh p ++ own → b ≠ nil_ptr.
Proof. intros Hok Hb ->. destruct (pk_live _ _ Hok _ Hb) as (x & d & Hx & _).
  destruct (pk_nil _ _ Hok). congruence. Qed.

(** A change of one block that keeps its channel, and the length of its buffer
    while it is in use. *)
Lemma pool_ok_upd_len p own b x y :
  pool_ok p own → p_blocks p !! b = Some x →
  (b ∈ blocksCh p ++ own → ∀ d, b_data x = Some d →
    ∃ d', b_data y = Some d' ∧ length d' = length d) →
  b_state y = b_state x →
  pool_ok (set_blocks (<[b := y]> (p_blocks p)) p) own.
Proof.
  intros [H1 H2 H3 H4 H5 H6 H7] Hx Hd Hs. split; simpl; [done| |done|done| | |].
  - intros b' Hb'. destruct (H2 _ Hb') as (x' & d & Hx' & Hd' & Hl).
    destruct (decide (b' = b)) as [->|]; [|rewrite lookup_insert_ne by done; eauto].
    simplify_eq. destruct (Hd Hb' _ Hd') as (d' & ? & ?). exists y, d'. rewrite lookup_insert_eq.
    split; [done|]. split; [done|]. congruence.
  - destruct H5. split; [|done]. rewrite lookup_insert_ne by congruence. done.
  - intros b' x'. destruct (decide (b' = b)) as [->|]; [rewrite lookup_insert_eq|rewrite lookup_insert_ne by done; eauto].
    intros [= <-]. rewrite Hs. eauto.
  - intros b1 b2 x1 x2 E1 E2.
    assert (Hst : ∀ b' x', <[b:=y]> (p_blocks p) !! b' = Some x' →
      ∃ x0, p_blocks p !! b' = Some x0 ∧ b_state x0 = b_state x').
    { intros b' x'. destruct (decide (b' = b)) as [->|]; [rewrite lookup_insert_eq|rewrite lookup_insert_ne by done; eauto].
      intros [= <-]. eauto. }
    destruct (Hst _ _ E1) as (z1 & Hz1 & <-), (Hst _ _ E2) as (z2 & Hz2 & <-). eauto.
Qed.

Lemma pool_ok_upd p own b x y :
  pool_ok p own → p_blocks p !! b = Some x →
  (b ∈ blocksCh p ++ own → b_data y = b_data x) → b_state y = b_state x →
  pool_ok (set_blocks (<[b := y]> (p_blocks p)) p) own.
Proof.
  intros Hok Hx Hd Hs. eapply pool_ok_upd_len; [done|done| |done].
  intros Hb d E. exists d. by rewrite Hd.
Qed.

(** Stores to a channel that exists change nothing of the ownership. *)
Lemma pool_ok_chan p own c ch ch' :
  pool_ok p own → p_chans p !! c = Some ch →
  pool_ok (set_chans (<[c := ch']> (p_chans p)) p) own.
Proof.
  intros [H1 H2 H3 H4 H5 H6 H7] Hc. split; simpl; [done..| | |done].
  - destruct H5. split; [done|]. rewrite lookup_insert_ne by congruence. done.
  - intros b x Hx. destruct (H6 _ _ Hx) as [?|Hs]; [by left|right].
    destruct (decide (b_state x = c)) as [->|]; [by rewrite lookup_insert_eq|by rewrite lookup_insert_ne].
Qed.

(** A block gets a channel of its own. *)
Lemma pool_ok_new_chan p own b x :
  pool_ok p own → p_blocks p !! b = Some x →
  let c := fresh_ptr (p_chans p) in
  pool_ok (set_blocks (<[b := with_state c x]> (p_blocks p))
            (set_chans (<[c := mkChan [] false]> (p_chans p)) p)) own.
Proof.
  intros Hok Hx c. pose proof Hok as [H1 H2 H3 H4 H5 H6 H7].
  assert (Hc : p_chans p !! c = None) by apply fresh_ptr_lookup.
  assert (Hold : ∀ b' x', p_blocks p !! b' = Some x' → b_state x' ≠ c).
  { intros b' x' Hx' E. destruct (H6 _ _ Hx') as [En|[ch Hs]].
    - by apply (fresh_ptr_nil (p_chans p)); rewrite <-En, E.
    - rewrite E in Hs. congruence. }
  split; simpl; [done| |done|done| | |].
  - intros b' Hb'. destruct (H2 _ Hb') as (x' & d & Hx' & Hd' & Hl).
    destruct (decide (b' = b)) as [->|]; [|rewrite lookup_insert_ne by done; eauto].
    simplify_eq. exists (with_state c x), d. by rewrite lookup_insert_eq.
  - destruct H5 as [? Hn]. split; [rewrite lookup_insert_ne by congruence; done|].
    rewrite lookup_insert_ne; [done|]. intros E. by apply (fresh_ptr_nil (p_chans p)).
  - intros b' x'. destruct (decide (b' = b)) as [->|]; [rewrite lookup_insert_eq|rewrite lookup_insert_ne by done].
    + intros [= <-]. right. simpl. by rewrite lookup_insert_eq.
    + intros Hx'. destruct (H6 _ _ Hx') as [?|Hs]; [by left|right].
      rewrite lookup_insert_ne; [done|]. intros E. by apply (Hold _ _ Hx').
  - intros b1 b2 x1 x2. destruct (decide (b1 = b)) as [->|Hn1], (decide (b2 = b)) as [->|Hn2];
      rewrite ?lookup_insert_eq, ?lookup_insert_ne by done; [done| | |by eauto].
    + intros [= <-] E2 Es. simpl in Es. exfalso. by apply (Hold _ _ E2).
    + intros E1 [= <-] Es. simpl in Es. exfalso. by apply (Hold _ _ E1).
Qed.

Lemma wp_upd_cblock b f Q p x :
  p_blocks p !! b = Some x → Q tt (set_blocks (<[b := f x]> (p_blocks p)) p) →
  wp (upd_cblock b f) Q p.
Proof. intros Hx HQ. unfold wp, upd_cblock. by rewrite Hx. Qed.

Lemma wp_ReUse b p own x :
  pool_ok p own → p_blocks p !! b = Some x →
  wp (ReUse b) (λ _ p', pool_ok p' own ∧ pristine p' b ∧ blocksCh p' = blocksCh p ∧
    maxBlocks p' = maxBlocks p ∧ p_blockSize p' = p_blockSize p ∧
    ∀ b', b' ≠ b → p_blocks p' !! b' = p_blocks p !! b') p.
Proof.
  intros Hok Hx. unfold ReUse. apply wp_bind. eapply wp_upd_cblock; [done|].
  set (y := mkCacheBlock _ _ _ _ _ _ _). pose proof (pool_ok_upd p own b x y Hok Hx (λ _, eq_refl) eq_refl) as Hok1.
  set (p1 := set_blocks _ p) in *. assert (Hy : p_blocks p1 !! b = Some y) by apply lookup_insert_eq.
  apply wp_bind. unfold new_chan, wp at 1. eapply wp_upd_cblock; [exact Hy|].
  split; [exact (pool_ok_new_chan p1 own b y Hok1 Hy)|]. split.
  - eexists. simpl. rewrite lookup_insert_eq. split; [done|]. simpl. by rewrite lookup_insert_eq.
  - do 3 (split; [done|]). intros b' Hb'. simpl. by rewrite !lookup_insert_ne.
Qed.

(** What AllocateBlock adds. *)
Lemma wp_AllocateBlock p own :
  pool_ok p own →
  wp (AllocateBlock (p_blockSize p)) (λ '(b, err) p', blocksCh p' = blocksCh p ∧
    maxBlocks p' = maxBlocks p ∧ p_blockSize p' = p_blockSize p ∧
    match err with
    | None => (b ∉ blocksCh p ++ own) ∧ pool_ok p' (b :: own)
    | Some _ => pool_ok p' own
    end) p.
Proof.
  intros Hok. pose proof Hok as [H1 H2 H3 H4 H5 H6 H7]. unfold AllocateBlock.
  destruct (Z.eqb_spec (p_blockSize p) 0); [lia|]. rewrite i64_small by (unfold is_i64; lia).
  apply wp_bind. apply wp_zoom. eapply wp_mono; [apply mmap_returns|].
  intros [d|e] m Hd; [|by apply wp_ret]. specialize (Hd _ eq_refl).
  apply wp_bind. unfold new_cblock, wp at 1. apply wp_ret. do 3 (split; [done|]).
  assert (Hf : p_blocks p !! fresh_ptr (p_blocks p) = None) by apply fresh_ptr_lookup.
  assert (Hni : fresh_ptr (p_blocks p) ∉ blocksCh p ++ own).
  { intros Hi. destruct (H2 _ Hi) as (x & ? & Hx & _). congruence. }
  split; [done|]. simpl. split; simpl; [| |done|done| | |].
  - rewrite <-Permutation_middle. by constructor.
  - intros b. rewrite <-Permutation_middle. intros [->|Hb]%elem_of_cons.
    + rewrite lookup_insert_eq. eauto.
    + destruct (H2 _ Hb) as (x & d' & Hx & ?). exists x, d'. rewrite lookup_insert_ne; [done|congruence].
  - destruct H5. split; [|done]. rewrite lookup_insert_ne; [done|apply fresh_ptr_nil].
  - intros b x. destruct (decide (b = fresh_ptr (p_blocks p))) as [->|];
      [rewrite lookup_insert_eq; intros [= <-]; by left|rewrite lookup_insert_ne by done; eauto].
  - intros b1 b2 x1 x2 E1 E2 Es Hn. destruct (decide (b1 = fresh_ptr (p_blocks p))) as [->|];
      [rewrite lookup_insert_eq in E1; by injection E1 as <-|].
    destruct (decide (b2 = fresh_ptr (p_blocks p))) as [->|];
      [rewrite lookup_insert_eq in E2; injection E2 as <-; by rewrite Es in Hn|].
    rewrite lookup_insert_ne in E1, E2 by done. eauto.
Qed.

(** The head of the free list changes hands. *)
Lemma pool_ok_take p own b rest :
  pool_ok p own → blocksCh p = b :: rest → pool_ok (set_free rest p) (b :: own).
Proof.
  intros [H1 H2 H3 H4 H5 H6 H7] E. rewrite E in *. split; simpl in *; [| |lia|done..].
  - by rewrite <-Permutation_middle.
  - intros b' Hb'. apply H2. rewrite <-Permutation_middle in Hb'. done.
Qed.

Lemma pool_ok_forget p own b : pool_ok p own → pool_ok p (list_difference own [b]).
Proof.
  intros [H1 H2 H3 H4 H5 H6 H7]. split; [| |done..].
  - apply NoDup_app in H1 as (Hf & Hd & Ho). apply NoDup_app. split; [done|].
    split; [|by apply NoDup_list_difference]. intros x Hx. rewrite list_elem_of_difference.
    intros [? _]. by apply (Hd x).
  - intros x Hx. apply H2. rewrite elem_of_app, list_elem_of_difference in Hx. apply elem_of_app. tauto.
Qed.

Lemma pool_ok_give p own b :
  pool_ok p own → b ∈ own → Z.of_nat (length (blocksCh p)) < maxBlocks p →
  pool_ok (set_free (blocksCh p ++ [b]) p) (list_difference own [b]).
Proof.
  intros [H1 H2 H3 H4 H5 H6 H7] Hb Hlt. split; simpl; [| |rewrite length_app; simpl; lia|done..].
  - apply NoDup_app in H1 as (Hf & Hd & Ho).
    apply NoDup_app. split; [apply NoDup_app; split; [done|]; split|split].
    + intros x Hx Hxb. apply list_elem_of_singleton in Hxb as ->. by apply (Hd b).
    + apply NoDup_singleton.
    + intros x Hx. rewrite list_elem_of_difference, list_elem_of_singleton.
      apply elem_of_app in Hx as [Hx| ->%list_elem_of_singleton]; [|tauto].
      intros [Hxo _]. by apply (Hd x).
    + by apply NoDup_list_difference.
  - intros b' Hb'. apply H2. rewrite !elem_of_app, list_elem_of_difference, list_elem_of_singleton in Hb'.
    apply elem_of_app. destruct Hb' as [[?| ->]|[? _]]; auto.
Qed.

(** The configuration of the pool does not change. *)
Definition conf (p p' : pool) : Prop := maxBlocks p' = maxBlocks p ∧ p_blockSize p' = p_blockSize p.

Lemma wp_TryGet p own :
  pool_ok p own →
  wp TryGet (λ b p', conf p p' ∧
    match blocksCh p with
    | [] => b = nil_ptr ∧ p' = p
    | b0 :: rest => b = b0 ∧ b0 ≠ nil_ptr ∧ (b ∉ own) ∧ pool_ok p' (b :: own) ∧ pristine p' b ∧
                    blocksCh p' = rest
    end) p.
Proof.
  intros Hok. unfold TryGet. apply wp_bind. unfold go_get, wp at 1.
  destruct (blocksCh p) as [|b rest] eqn:E; [by apply wp_ret|].
  pose proof (pool_ok_take _ _ _ _ Hok E) as Hok1.
  destruct (pk_live _ _ Hok b) as (x & d & Hx & _); [rewrite E; set_solver|].
  apply wp_bind. unfold go_modify, wp at 1. apply wp_bind.
  eapply wp_mono; [by apply (wp_ReUse b _ _ x Hok1)|].
  intros [] p' (Hok' & Hp & Hf & Hm & Hs & _). apply wp_ret. split; [done|]. split; [done|].
  split; [apply (pk_not_nil _ _ _ Hok); rewrite E; set_solver|]. split; [|done].
  pose proof (pk_nodup _ _ Hok1) as (_ & _ & Hn)%NoDup_app. by apply NoDup_cons in Hn as [? _].
Qed.

Lemma wp_MustGet p own :
  pool_ok p own →
  wp MustGet (λ b p', conf p p' ∧
    (if decide (b = nil_ptr) then blocksCh p = [] ∧ pool_ok p' own
     else (b ∉ own) ∧ pool_ok p' (b :: own) ∧ pristine p' b) ∧
    blocksCh p' = tail (blocksCh p)) p.
Proof.
  intros Hok. unfold MustGet. apply wp_bind. unfold go_get, wp at 1.
  destruct (blocksCh p) as [|b rest] eqn:E.
  - apply wp_bind. eapply wp_mono; [by apply (wp_AllocateBlock p own)|].
    intros [b err] p1 (Hf & Hm & Hs & H1). destruct (decide (err = None)) as [->|Hne].
    + destruct H1 as [Hni Hok1]. destruct (pk_live _ _ Hok1 b) as (x & d & Hx & _); [set_solver|].
      apply wp_bind. eapply wp_mono; [by apply (wp_ReUse b _ _ x Hok1)|].
      intros [] p' (Hok' & Hp & Hf' & Hm' & Hs' & _). apply wp_ret. split; [split; congruence|].
      rewrite decide_False by (apply (pk_not_nil _ _ _ Hok1); set_solver).
      rewrite E in Hni. split; [done|]. simpl. congruence.
    + destruct err; [|done]. apply wp_ret. split; [done|]. rewrite decide_True by done. split; [done|]. simpl. congruence.
  - pose proof (pool_ok_take _ _ _ _ Hok E) as Hok1.
    destruct (pk_live _ _ Hok b) as (x & d & Hx & _); [rewrite E; set_solver|].
    apply wp_bind. unfold go_modify, wp at 1. apply wp_bind.
    eapply wp_mono; [by apply (wp_ReUse b _ _ x Hok1)|].
    intros [] p' (Hok' & Hp & Hf & Hm & Hs & _). apply wp_ret. split; [done|].
    rewrite decide_False by (apply (pk_not_nil _ _ _ Hok); rewrite E; set_solver). split; [|done].
    pose proof (pk_nodup _ _ Hok1) as (_ & _ & Hn)%NoDup_app. by apply NoDup_cons in Hn as [? _].
Qed.

Lemma wp_Block_Delete b p x d :
  p_blocks p !! b = Some x → b_data x = Some d →
  wp (Block_Delete b) (λ _ p', blocksCh p' = blocksCh p ∧ maxBlocks p' = maxBlocks p ∧
    p_blockSize p' = p_blockSize p ∧ p_chans p' = p_chans p ∧
    p_blocks p' = <[b := with_data None x]> (p_blocks p)) p.
Proof.
  intros Hx Hd. unfold Block_Delete. apply wp_bind. unfold load_cblock, wp at 1. rewrite Hx. simpl.
  rewrite Hd. apply wp_bind, wp_zoom. eapply wp_mono; [apply munmap_returns|]. intros e m _.
  apply wp_bind. by eapply wp_upd_cblock.
Qed.

Lemma wp_Release p own b :
  pool_ok p own → b ∈ own →
  wp (Release b) (λ _ p', conf p p' ∧ pool_ok p' (list_difference own [b]) ∧
    blocksCh p' = (if Z.of_nat (length (blocksCh p)) <? maxBlocks p
                   then blocksCh p ++ [b] else blocksCh p)) p.
Proof.
  intros Hok Hb. unfold Release. apply wp_bind. unfold go_get, wp at 1.
  destruct (Z.ltb_spec (Z.of_nat (length (blocksCh p))) (maxBlocks p)).
  { unfold go_modify, wp. split; [done|]. split; [by apply pool_ok_give|done]. }
  destruct (pk_live _ _ Hok b) as (x & d & Hx & Hd & _); [set_solver|].
  apply wp_bind. eapply wp_mono; [by eapply wp_Block_Delete|].
  intros e p' (Hf & Hm & Hs & Hc & Hbl). apply wp_ret. split; [done|]. split; [|done].
  pose proof (pool_ok_upd p _ b x (with_data None x) (pool_ok_forget p own b Hok) Hx) as Hok1.
  destruct Hok1 as [H1 H2 H3 H4 H5 H6 H7]; [|done|].
  - intros Hi. exfalso. rewrite elem_of_app, list_elem_of_difference, list_elem_of_singleton in Hi.
    destruct Hi as [Hi|[_ ?]]; [|done]. pose proof (pk_nodup _ _ Hok) as (_ & Hdj & _)%NoDup_app.
    by apply (Hdj b).
  - simpl in *. split; rewrite ?Hf, ?Hm, ?Hs, ?Hc, ?Hbl; done.
Qed.

Lemma wp_preallocate n p :
  pool_ok p [] → Z.of_nat (length (blocksCh p) + n) ≤ maxBlocks p →
  wp (preallocate n (p_blockSize p)) (λ r p', r = true → pool_ok p' [] ∧
    (length (blocksCh p') = length (blocksCh p) + n)%nat ∧ maxBlocks p' = maxBlocks p ∧
    p_blockSize p' = p_blockSize p) p.
Proof.
  revert p. induction n as [|n IH]; intros p Hok Hle; simpl.
  { apply wp_ret. intros _. split; [done|]. split; [lia|done]. }
  apply wp_bind. eapply wp_mono; [by apply (wp_AllocateBlock p [])|].
  intros [b err] p1 (Hf & Hm & Hs & H1). destruct (decide (err = None)) as [->|]; [|by apply wp_ret].
  destruct H1 as [_ Hok1]. apply wp_bind. unfold send_block, wp at 1.
  destruct (Z.ltb_spec (Z.of_nat (length (blocksCh p1))) (maxBlocks p1)) as [Hlt|]; [|rewrite Hf, Hm in *; lia].
  pose proof (pool_ok_give p1 [b] b Hok1 ltac:(set_solver) Hlt) as Hok2.
  assert (Hnil : list_difference [b] [b] = []) by (simpl; destruct (decide_rel _ b [b]) as [|Hn]; [done|]; destruct Hn; set_solver).
  rewrite Hnil in Hok2. rewrite <-Hs. set (p2 := set_free _ p1) in *.
  change (p_blockSize p1) with (p_blockSize p2). eapply wp_mono; [apply IH; [done|]|].
  - unfold p2. simpl. rewrite length_app, Hf, Hm. simpl. lia.
  - intros r p' Hr ->. destruct (Hr eq_refl) as (? & Hl & Hm' & Hs'). split; [done|].
    unfold p2 in *. simpl in *. rewrite length_app, Hf in Hl. simpl in Hl. split; [lia|]. split; congruence.
Qed.

Definition empty_pool (m : M) : pool := mkPool ∅ ∅ [] 0 0 m.

(** The calls of a run: the pool's own, and those on a block that its owner makes. *)
Inductive pool_reach (blockSize memSize : Z) : pool → list ptr → Prop :=
  | reach_new m p : NewBlockPool blockSize memSize (empty_pool m) = Ret (true, p) →
      pool_reach blockSize memSize p []
  | reach_TryGet p own b p' : pool_reach blockSize memSize p own → TryGet p = Ret (b, p') →
      pool_reach blockSize memSize p' (if decide (b = nil_ptr) then own else b :: own)
  | reach_MustGet p own b p' : pool_reach blockSize memSize p own → MustGet p = Ret (b, p') →
      pool_reach blockSize memSize p' (if decide (b = nil_ptr) then own else b :: own)
  | reach_Release p own b p' : pool_reach blockSize memSize p own → b ∈ own →
      Release b p = Ret (tt, p') → pool_reach blockSize memSize p' (list_difference own [b])
  | reach_use f p own b p' : pool_reach blockSize memSize p own → b ∈ own →
      f ∈ [Ready b; Unblock b; Uploading b; Block_Dirty b; NoMoreDirty b; Failed b] →
      f p = Ret (tt, p') → pool_reach blockSize memSize p' own
  | reach_wait p own b v p' : pool_reach blockSize memSize p own → b ∈ own →
      wait_state b p = Ret (v, p') → pool_reach blockSize memSize p' own.

(** Operations of an owner on its block. *)
Definition keeps (p p' : pool) : Prop := blocksCh p' = blocksCh p ∧
  maxBlocks p' = maxBlocks p ∧ p_blockSize p' = p_blockSize p.

Lemma wp_Uploading b p own x :
  pool_ok p own → p_blocks p !! b = Some x →
  wp (Uploading b) (λ _ p', pool_ok p' own ∧ keeps p p') p.
Proof.
  intros Hok Hx. unfold Uploading. apply wp_bind. unfold new_chan, wp at 1.
  eapply wp_upd_cblock; [exact Hx|]. split; [exact (pool_ok_new_chan p own b x Hok Hx)|done].
Qed.

Lemma use_keeps f p own b p' :
  pool_ok p own → b ∈ own →
  f ∈ [Ready b; Unblock b; Uploading b; Block_Dirty b; NoMoreDirty b; Failed b] →
  f p = Ret (tt, p') → pool_ok p' own ∧ keeps p p'.
Proof.
  intros Hok Hb Hf Hrun. destruct (pk_live _ _ Hok b) as (x & d & Hx & Hd & _); [set_solver|].
  assert (Hupd : ∀ g, b_data (g x) = b_data x → b_state (g x) = b_state x →
    upd_cblock b g p = Ret (tt, p') → pool_ok p' own ∧ keeps p p').
  { intros g Hg1 Hg2 Hr. unfold upd_cblock in Hr. rewrite Hx in Hr. injection Hr as <-.
    split; [by eapply pool_ok_upd|done]. }
  rewrite !elem_of_cons in Hf. destruct Hf as [->|[->|[->|[->|[->|[->|Hf]]]]]].
  - unfold Ready, mbind, go_bind, load_cblock, go_get in Hrun. rewrite Hx in Hrun. simpl in Hrun.
    destruct (p_chans p !! b_state x) as [c|] eqn:Hc; [|by injection Hrun as <-].
    destruct (ch_closed c); [done|]. destruct (_ <? _)%nat; [|by injection Hrun as <-].
    injection Hrun as <-. split; [by eapply pool_ok_chan|done].
  - unfold Unblock, mbind, go_bind, load_cblock, go_get in Hrun. rewrite Hx in Hrun. simpl in Hrun.
    destruct (p_chans p !! b_state x) as [c|] eqn:Hc; [|done]. destruct (ch_closed c); [done|].
    injection Hrun as <-. split; [by eapply pool_ok_chan|done].
  - pose proof (wp_Uploading b p own x Hok Hx) as Hw. unfold wp in Hw. by rewrite Hrun in Hw.
  - by apply Hupd in Hrun.
  - by apply Hupd in Hrun.
  - by apply Hupd in Hrun.
  - by apply not_elem_of_nil in Hf.
Qed.

Lemma wait_keeps p own b v p' :
  pool_ok p own → b ∈ own → wait_state b p = Ret (v, p') → pool_ok p' own ∧ keeps p p'.
Proof.
  intros Hok Hb Hrun. destruct (pk_live _ _ Hok b) as (x & d & Hx & Hd & _); [set_solver|].
  unfold wait_state, mbind, go_bind, load_cblock, go_get in Hrun. rewrite Hx in Hrun. simpl in Hrun.
  destruct (p_chans p !! b_state x) as [c|] eqn:Hc; [|done].
  destruct (ch_values c) as [|w vs].
  - destruct (ch_closed c); [|done]. by injection Hrun as <- <-.
  - injection Hrun as <- <-. split; [by eapply pool_ok_chan|done].
Qed.

(** The sizes a configuration can have. *)
Definition fits (blockSize memSize : Z) : Prop :=
  0 < blockSize < 2 ^ 63 ∧ blockSize ≤ memSize ∧ memSize / blockSize < 2 ^ 32.

Lemma wp_NewBlockPool blockSize memSize m :
  fits blockSize memSize →
  wp (NewBlockPool blockSize memSize) (λ r p', r = true → pool_ok p' [] ∧
    Z.of_nat (length (blocksCh p')) = memSize / blockSize ∧ maxBlocks p' = memSize / blockSize ∧
    p_blockSize p' = blockSize) (empty_pool m).
Proof.
  intros (Hb & Hle & Hlt). unfold NewBlockPool.
  destruct (Z.eqb_spec blockSize 0); [lia|]. destruct (Z.ltb_spec memSize blockSize); [lia|]. simpl.
  assert (0 ≤ memSize / blockSize) by (apply Z.div_pos; lia). rewrite u32_small by lia.
  unfold go_get. apply wp_bind. unfold wp at 1. apply wp_bind. unfold go_put, wp at 1. simpl.
  set (p1 := mkPool _ _ _ _ _ _).
  eapply wp_mono; [apply (wp_preallocate _ p1)|].
  - split; simpl; [apply NoDup_nil_2|by intros b ?%not_elem_of_nil|lia|done|done| |];
      intros *; by rewrite ?lookup_empty.
  - unfold p1. simpl. lia.
  - intros r p' Hr ->. destruct (Hr eq_refl) as (? & Hl & Hm & Hs). unfold p1 in *. simpl in *.
    split; [done|]. rewrite Hl. split; [lia|done].
Qed.

Lemma pool_reach_ok blockSize memSize p own :
  fits blockSize memSize → pool_reach blockSize memSize p own →
  pool_ok p own ∧ maxBlocks p = memSize / blockSize ∧ p_blockSize p = blockSize.
Proof.
  intros Hfit. induction 1 as [m p Hr|p own b p' _ (Hok & Hm & Hs) Hr|p own b p' _ (Hok & Hm & Hs) Hr
    |p own b p' _ (Hok & Hm & Hs) Hb Hr|f p own b p' _ (Hok & Hm & Hs) Hb Hf Hr|p own b v p' _ (Hok & Hm & Hs) Hb Hr].
  - pose proof (wp_NewBlockPool _ _ m Hfit) as Hw. unfold wp in Hw. rewrite Hr in Hw. naive_solver.
  - pose proof (wp_TryGet _ _ Hok) as Hw. unfold wp in Hw. rewrite Hr in Hw.
    destruct Hw as [[H1 H2] Hw]. rewrite H1, H2. split; [|done]. destruct (blocksCh p).
    + destruct Hw as [-> ->]. by rewrite decide_True.
    + destruct Hw as (-> & Hn & _ & Hok' & _). by rewrite decide_False.
  - pose proof (wp_MustGet _ _ Hok) as Hw. unfold wp in Hw. rewrite Hr in Hw.
    destruct Hw as ([H1 H2] & Hw & _). rewrite H1, H2. split; [|done].
    destruct (decide (b = nil_ptr)); naive_solver.
  - pose proof (wp_Release _ _ _ Hok Hb) as Hw. unfold wp in Hw. rewrite Hr in Hw.
    destruct Hw as ([H1 H2] & Hw & _). by rewrite H1, H2.
  - destruct (use_keeps _ _ _ _ _ Hok Hb Hf Hr) as (? & _ & H1 & H2). by rewrite H1, H2.
  - destruct (wait_keeps _ _ _ _ _ Hok Hb Hr) as (? & _ & H1 & H2). by rewrite H1, H2.
Qed.

(** C31: the blocks of a pool, after any sequence of gets, releases and uses by
    their owners.  No block is free twice, owned twice, or free and owned; each
    has a mapped buffer of the block size; at most memSize / blockSize blocks
    are free, no two blocks share a channel, and the usage is a percentage. *)
Theorem pool_exclusive blockSize memSize p own :
  fits blockSize memSize → memSize / blockSize * 100 < 2 ^ 32 → pool_reach blockSize memSize p own →
  NoDup (blocksCh p ++ own) ∧
  (∀ b, b ∈ blocksCh p ++ own → ∃ x d, p_blocks p !! b = Some x ∧ b_data x = Some d ∧
     Z.of_nat (length d) = blockSize) ∧
  Z.of_nat (length (blocksCh p)) * blockSize ≤ memSize ∧
  (∀ b1 b2 x1 x2, p_blocks p !! b1 = Some x1 → p_blocks p !! b2 = Some x2 →
     b_state x1 = b_state x2 → b_state x1 ≠ nil_ptr → b1 = b2) ∧
  wp Usage (λ u p', p' = p ∧ 0 ≤ u ≤ 100) p.
Proof.
  intros Hfit Hsmall Hr. destruct (pool_reach_ok _ _ _ _ Hfit Hr) as ([H1 H2 H3 H4 H5 H6 H7] & Hm & Hs).
  destruct Hfit as (Hb & Hle & Hlt). rewrite Hm, Hs in *. split; [done|]. split; [done|].
  assert (Hq : 1 ≤ memSize / blockSize) by (apply Z.div_le_lower_bound; lia).
  pose proof (Z.mul_div_le memSize blockSize ltac:(lia)). split; [nia|]. split; [done|].
  unfold Usage. apply wp_bind. unfold go_get, wp at 1. rewrite Hm.
  destruct (Z.eqb_spec (memSize / blockSize) 0); [lia|]. apply wp_ret. split; [done|].
  rewrite (u32_small (memSize / blockSize - _)) by lia. rewrite u32_small by nia.
  split; [apply Z.div_pos; lia|]. apply Z.div_le_upper_bound; lia.
Qed.

(** Getting and releasing a block in any reachable state.  TryGet returns nil
    exactly when no block is free, MustGet then allocates one; the block
    returned has no other owner, is marked fresh and has an open, empty
    channel.  Release puts the block back unless the pool is full.  None of
    them blocks or panics. *)
Theorem pool_operations blockSize memSize p own :
  fits blockSize memSize → pool_reach blockSize memSize p own →
  wp TryGet (λ b p', if decide (b = nil_ptr) then blocksCh p = [] ∧ p' = p
    else (b ∉ own) ∧ pristine p' b ∧ blocksCh p = b :: blocksCh p') p ∧
  wp MustGet (λ b p', (b ≠ nil_ptr → (b ∉ own) ∧ pristine p' b) ∧
    (b = nil_ptr → blocksCh p = []) ∧ blocksCh p' = tail (blocksCh p)) p ∧
  (∀ b, b ∈ own → wp (Release b) (λ _ p', blocksCh p' =
    if Z.of_nat (length (blocksCh p)) <? memSize / blockSize then blocksCh p ++ [b] else blocksCh p) p).
Proof.
  intros Hfit Hr. destruct (pool_reach_ok _ _ _ _ Hfit Hr) as (Hok & Hm & _). split; [|split].
  - eapply wp_mono; [by apply wp_TryGet|]. intros b p' [_ H]. destruct (blocksCh p) eqn:E.
    + destruct H as [-> ->]. by rewrite decide_True.
    + destruct H as (-> & Hn & ? & ? & ? & <-). by rewrite decide_False.
  - eapply wp_mono; [by apply wp_MustGet|]. intros b p' (_ & H & Ht). destruct (decide (b = nil_ptr)); naive_solver.
  - intros b Hb. eapply wp_mono; [by apply wp_Release|]. intros [] p' (_ & _ & H). by rewrite Hm in H.
Qed.
End ownership.

(** ** The channel of a block *)
Section protocol.
Context {M : Type} `{!Memory M}.

(** A state in which block [b] has the channel [c]. *)
Definition has_chan (p : PoolState M) (b : ptr) (c : Chan) : Prop :=
  ∃ x, p_blocks p !! b = Some x ∧ p_chans p !! b_state x = Some c.

Lemma Ready_run p b c :
  has_chan p b c → ch_closed c = false →
  wp (Ready b) (λ _ p', has_chan p' b (mkChan (if (length (ch_values c) <? 1)%nat
    then ch_values c ++ [1] else ch_values c) false)) p.
Proof.
  intros (x & Hx & Hc) Ho. unfold Ready. apply wp_bind. unfold load_cblock, wp at 1. rewrite Hx. simpl.
  apply wp_bind. unfold go_get, wp at 1. rewrite Hc, Ho. destruct (_ <? _)%nat.
  - exists x. simpl. by rewrite lookup_insert_eq.
  - exists x. split; [done|]. rewrite Hc. destruct c. simpl in *. by subst.
Qed.

Lemma Unblock_run p b c :
  has_chan p b c → ch_closed c = false →
  wp (Unblock b) (λ _ p', has_chan p' b (mkChan (ch_values c) true)) p.
Proof.
  intros (x & Hx & Hc) Ho. unfold Unblock. apply wp_bind. unfold load_cblock, wp at 1. rewrite Hx. simpl.
  apply wp_bind. unfold go_get, wp at 1. rewrite Hc, Ho. exists x. simpl. by rewrite lookup_insert_eq.
Qed.

Lemma wait_run p b v vs cl :
  has_chan p b (mkChan (v :: vs) cl) →
  wp (wait_state b) (λ w p', w = v ∧ has_chan p' b (mkChan vs cl)) p.
Proof.
  intros (x & Hx & Hc). unfold wait_state. apply wp_bind. unfold load_cblock, wp at 1. rewrite Hx. simpl.
  apply wp_bind. unfold go_get, wp at 1. rewrite Hc. simpl. split; [done|]. exists x. simpl.
  by rewrite lookup_insert_eq.
Qed.

Lemma stuck_run p b cl :
  has_chan p b (mkChan [] cl) →
  wait_state b p = (if cl then Ret (0, p) else Blocked) ∧
  (cl = true → Ready b p = Panic ∧ Unblock b p = Panic).
Proof.
  intros (x & Hx & Hc). unfold wait_state, Ready, Unblock, mbind, go_bind, load_cblock, go_get.
  rewrite Hx. simpl. rewrite Hc. simpl. destruct cl; done.
Qed.

(** How a block tells its readers that its data is there.  After ReUse (or
    Uploading) a reader blocks.  Ready, once or twice, lets exactly one reader
    through: the next one blocks again.  Unblock then lets every reader
    through, forever; a second Unblock, or a Ready after it, panics. *)
Theorem block_protocol (p : PoolState M) (b : ptr) :
  pristine p b →
  wait_state b p = Blocked ∧
  wp (_ ← Ready b; _ ← Ready b; wait_state b) (λ v p1, v = 1 ∧ wait_state b p1 = Blocked ∧
    wp (Unblock b) (λ _ p2, wait_state b p2 = Ret (0, p2) ∧
      Unblock b p2 = Panic ∧ Ready b p2 = Panic) p1) p.
Proof.
  intros (x & Hx & _ & _ & _ & _ & Hc).
  assert (H0 : has_chan p b (mkChan [] false)) by (by exists x).
  split; [by apply (stuck_run p b false)|]. apply wp_bind.
  eapply wp_mono; [by apply (Ready_run _ _ _ H0)|]. intros [] p1 H1. simpl in H1. apply wp_bind.
  eapply wp_mono; [by apply (Ready_run _ _ _ H1)|]. intros [] p2 H2. simpl in H2.
  eapply wp_mono; [by apply (wait_run _ _ _ _ _ H2)|]. intros v p3 [-> H3].
  split; [done|]. split; [by apply (stuck_run p3 b false)|].
  eapply wp_mono; [by apply (Unblock_run _ _ _ H3)|]. intros [] p4 H4.
  destruct (stuck_run _ _ _ H4) as [? Hp]. split; [done|]. destruct (Hp eq_refl). done.
Qed.
End protocol.

(** ** Witnesses *)
Module Witness.
(** A memory that hands out zeroed buffers. *)
#[export] Instance Memory_unit : Memory unit := {
  mmap k m := if k <? 0 then Ret (inr (Msg "EINVAL"), m) else Ret (inl (make_bytes k), m);
  munmap _ m := Ret (None, m)
}.
#[export] Instance MemoryLaws_unit : MemoryLaws unit.
Proof.
  split.
  - intros k m. unfold wp. simpl. destruct (Z.ltb_spec k 0); [done|]. intros d [= <-].
    rewrite make_bytes_length. lia.
  - done.
Qed.

Definition run {A} (m : go (PoolState unit) A) (p : PoolState unit) : PoolState unit :=
  match m p with Ret (_, p') => p' | _ => p end.
Definition pool3 : PoolState unit := run (NewBlockPool 4 14) (empty_pool tt).
Definition pool2 : PoolState unit := run TryGet pool3.

Lemma fits_4_14 : fits 4 14.
Proof. by vm_compute. Qed.
Lemma pool2_reach : pool_reach 4 14 pool2 [1%nat].
Proof.
  assert (H : pool_reach 4 14 pool3 []) by (eapply reach_new; vm_compute; reflexivity).
  apply (reach_TryGet 4 14 pool3 [] 1%nat pool2 H). vm_compute. reflexivity.
Qed.

Lemma pool_exclusive_witness :
  NoDup (blocksCh pool2 ++ [1%nat]) ∧
  (∀ b, b ∈ blocksCh pool2 ++ [1%nat] → ∃ x d, p_blocks pool2 !! b = Some x ∧ b_data x = Some d ∧
     Z.of_nat (length d) = 4) ∧
  Z.of_nat (length (blocksCh pool2)) * 4 ≤ 14 ∧
  (∀ b1 b2 x1 x2, p_blocks pool2 !! b1 = Some x1 → p_blocks pool2 !! b2 = Some x2 →
     b_state x1 = b_state x2 → b_state x1 ≠ nil_ptr → b1 = b2) ∧
  wp Usage (λ u p', p' = pool2 ∧ 0 ≤ u ≤ 100) pool2.
Proof. apply (pool_exclusive 4 14 pool2 [1%nat] fits_4_14); [reflexivity|exact pool2_reach]. Defined.

Lemma pool_operations_witness :
  wp TryGet (λ b p', if decide (b = nil_ptr) then blocksCh pool2 = [] ∧ p' = pool2
    else (b ∉ [1%nat]) ∧ pristine p' b ∧ blocksCh pool2 = b :: blocksCh p') pool2 ∧
  wp MustGet (λ b p', (b ≠ nil_ptr → (b ∉ [1%nat]) ∧ pristine p' b) ∧
    (b = nil_ptr → blocksCh pool2 = []) ∧ blocksCh p' = tail (blocksCh pool2)) pool2 ∧
  (∀ b, b ∈ [1%nat] → wp (Release b) (λ _ p', blocksCh p' =
    if Z.of_nat (length (blocksCh pool2)) <? 14 / 4 then blocksCh pool2 ++ [b] else blocksCh pool2) pool2).
Proof. apply (pool_operations 4 14 pool2 [1%nat] fits_4_14 pool2_reach). Defined.

Lemma block_protocol_witness :
  wait_state 1%nat pool2 = Blocked ∧
  wp (_ ← Ready 1%nat; _ ← Ready 1%nat; wait_state 1%nat) (λ v p1, v = 1 ∧ wait_state 1%nat p1 = Blocked ∧
    wp (Unblock 1%nat) (λ _ p2, wait_state 1%nat p2 = Ret (0, p2) ∧
      Unblock 1%nat p2 = Panic ∧ Ready 1%nat p2 = Panic) p1) pool2.
Proof.
  apply (block_protocol pool2 1%nat). eexists. split; [vm_compute; reflexivity|].
  repeat split; vm_compute; reflexivity.
Defined.

(** The pool holds three blocks of four bytes; one is out. *)
Example usage_33 : match Usage pool2 with Ret (u, _) => u = 33 | _ => False end.
Proof. reflexivity. Qed.
End Witness.
