(* ===== verification/ThreadPool.v ===== *)
(** * The worker pool of the block cache (src/component/block_cache/threadpool.go)

    A tenth of the workers listen on the priority channel only, the others on
    both.  A worker's loop is modelled round by round: which case its select
    takes is an argument, so that the theorems quantify over every
    interleaving. *)
From S2P Require Import Prelude.

(** A work item is reachable from one channel or one worker only, so it is a value. *)
Record workItem := mkWorkItem {
  wi_handle : ptr;
  wi_block : ptr;
  wi_prefetch : bool;
  failCnt : Z;
  upload : bool;
  blockId : string
}.

(** [closeCh] is the number of values in the close channel, [tp_open] is false
    once Stop has closed the channels. *)
Record ThreadPool := mkThreadPool {
  worker : Z;
  closeCh : Z;
  priorityCh : list workItem;
  normalCh : list workItem;
  tp_open : bool
}.

(** [nil] when there is no worker or no reader. *)
Definition newThreadPool (count : Z) (has_reader : bool) : option ThreadPool :=
  if (count =? 0) || negb has_reader then None else Some (mkThreadPool count 0 [] [] true).

Definition priority_cap (t : ThreadPool) : Z := u32 (worker t * 2).
Definition normal_cap (t : ThreadPool) : Z := u32 (worker t * 5000).

Definition set_queues (p n : list workItem) (t : ThreadPool) : ThreadPool :=
  mkThreadPool (worker t) (closeCh t) p n (tp_open t).

(** Start: the workers below this number take only urgent items. *)
Definition highPriority (t : ThreadPool) : Z := u32 (worker t * 10) / 100.

(** A send on a closed channel panics, on a full one blocks. *)
Definition Schedule (urgent : bool) (item : workItem) : go ThreadPool unit := λ t,
  if negb (tp_open t) then Panic
  else if urgent then
    if Z.of_nat (length (priorityCh t)) <? priority_cap t
    then Ret (tt, set_queues (priorityCh t ++ [item]) (normalCh t) t) else Blocked
  else
    if Z.of_nat (length (normalCh t)) <? normal_cap t
    then Ret (tt, set_queues (priorityCh t) (normalCh t ++ [item]) t) else Blocked.

(** One round of the loop of Do.  [None]: the worker returns. *)
Inductive select_case := CasePriority | CaseNormal | CaseClose.
Definition Do_round (priority : bool) (c : select_case) : go ThreadPool (option workItem) := λ t,
  match c with
  | CasePriority =>
      match priorityCh t with
      | item :: rest => Ret (Some item, set_queues rest (normalCh t) t)
      | [] => Blocked
      end
  | CaseNormal =>
      if priority then Blocked
      else match normalCh t with
           | item :: rest => Ret (Some item, set_queues (priorityCh t) rest t)
           | [] => Blocked
           end
  | CaseClose =>
      if 0 <? closeCh t
      then Ret (None, mkThreadPool (worker t) (closeCh t - 1) (priorityCh t) (normalCh t) (tp_open t))
      else Blocked
  end.

(** One send of Stop's loop, and what it does after all workers returned. *)
Definition Stop_send : go ThreadPool unit := λ t,
  if closeCh t <? worker t
  then Ret (tt, mkThreadPool (worker t) (closeCh t + 1) (priorityCh t) (normalCh t) (tp_open t))
  else Blocked.
Definition Stop_close : go ThreadPool unit :=
  go_modify (λ t, mkThreadPool (worker t) (closeCh t) (priorityCh t) (normalCh t) false).

(** ** The pool with its workers

    [running] are the workers that have not returned, [busy] those that are inside the
    callback for an item they took, [sent] counts the sends of Stop, [log] is what the
    workers took, in order: the worker, was the item urgent, the item. *)
Inductive callee := Reader | Writer.
(** What the worker calls on an item. *)
Definition dispatch (item : workItem) : callee := if upload item then Writer else Reader.

Record Pool := mkPoolRun {
  tp : ThreadPool;
  running : list nat;
  busy : gmap nat (callee * workItem);
  sent : Z;
  scheduled : list (bool * workItem);
  log : list (nat * (bool * workItem))
}.

Definition Start (t : ThreadPool) : Pool :=
  mkPoolRun t (seq 0 (Z.to_nat (worker t))) ∅ 0 [] [].

Definition is_high (i : nat) (t : ThreadPool) : bool := Z.of_nat i <? highPriority t.

(** Anyone may schedule an item, a callback too; a worker takes the next item or the close
    message when it is not inside a callback; Stop closes the channels when all workers
    have returned.  A callback that waits (in Schedule on a full channel, for a download)
    is one whose return does not come. *)
Inductive pool_step : Pool → Pool → Prop :=
  | step_schedule t t' run bz n sch lg urgent item :
      Schedule urgent item t = Ret (tt, t') →
      pool_step (mkPoolRun t run bz n sch lg) (mkPoolRun t' run bz n (sch ++ [(urgent, item)]) lg)
  | step_work t t' run bz n sch lg i c item :
      i ∈ run → bz !! i = None → Do_round (is_high i t) c t = Ret (Some item, t') →
      pool_step (mkPoolRun t run bz n sch lg)
        (mkPoolRun t' run (<[i := (dispatch item, item)]> bz) n sch
           (lg ++ [(i, (match c with CasePriority => true | _ => false end, item))]))
  | step_return t run bz n sch lg i x :
      bz !! i = Some x → pool_step (mkPoolRun t run bz n sch lg) (mkPoolRun t run (delete i bz) n sch lg)
  | step_exit t t' run1 i run2 bz n sch lg :
      bz !! i = None → Do_round (is_high i t) CaseClose t = Ret (None, t') →
      pool_step (mkPoolRun t (run1 ++ i :: run2) bz n sch lg) (mkPoolRun t' (run1 ++ run2) bz n sch lg)
  | step_stop t t' run bz n sch lg :
      n < worker t → Stop_send t = Ret (tt, t') →
      pool_step (mkPoolRun t run bz n sch lg) (mkPoolRun t' run bz (n + 1) sch lg)
  | step_close t t' bz n sch lg :
      n = worker t → Stop_close t = Ret (tt, t') →
      pool_step (mkPoolRun t [] bz n sch lg) (mkPoolRun t' [] bz n sch lg).

Inductive pool_run (count : Z) : Pool → Prop :=
  | run_start t : newThreadPool count true = Some t → pool_run count (Start t)
  | run_step s s' : pool_run count s → pool_step s s' → pool_run count s'.

(** The items of one priority, in order. *)
Definition of_priority (u : bool) (l : list (bool * workItem)) : list workItem :=
  (filter (λ x, x.1 = u) l).*2.

Lemma of_priority_app u l1 l2 : of_priority u (l1 ++ l2) = of_priority u l1 ++ of_priority u l2.
Proof. unfold of_priority. by rewrite filter_app, fmap_app. Qed.

Lemma of_priority_one u v item :
  of_priority u [(v, item)] = if decide (v = u) then [item] else [].
Proof. unfold of_priority. rewrite filter_cons. simpl. by case_decide. Qed.

Lemma worker_high t t' i : worker t' = worker t → is_high i t' = is_high i t.
Proof. intros H. unfold is_high, highPriority. by rewrite H. Qed.

(** *** The invariant *)
Record pool_inv (count : Z) (s : Pool) : Prop := {
  pi_worker : worker (tp s) = count;
  pi_urgent : of_priority true (scheduled s) = of_priority true (log s).*2 ++ priorityCh (tp s);
  pi_normal : of_priority false (scheduled s) = of_priority false (log s).*2 ++ normalCh (tp s);
  pi_high : Forall (λ x, x.2.1 = false → is_high x.1 (tp s) = false) (log s);
  pi_tokens : closeCh (tp s) = sent s - (count - Z.of_nat (length (running s)));
  pi_range : 0 ≤ closeCh (tp s) ∧ 0 ≤ sent s ≤ count ∧ Z.of_nat (length (running s)) ≤ count;
  pi_nodup : NoDup (running s)
}.

Lemma pool_inv_step count s s' : pool_inv count s → pool_step s s' → pool_inv count s'.
Proof.
  intros [H1 H2 H3 H4 H5 H6 H7] Hst. destruct Hst as
    [t t' run bz n sch lg urgent item Hs|t t' run bz n sch lg i c item Hi Hb Hd|t run bz n sch lg i x Hb
    |t t' run1 i run2 bz n sch lg Hb Hd|t t' run bz n sch lg Hn Hs|t t' bz n sch lg Hn Hs]; simpl in *.
  - unfold Schedule in Hs. destruct (tp_open t); [|done]. simpl in Hs.
    destruct urgent; destruct (_ <? _); try done; injection Hs as <-; split; simpl; try done;
      rewrite of_priority_app, of_priority_one; simpl; rewrite ?app_nil_r; try done;
      by rewrite ?H2, ?H3, <-(assoc_L (++)).
  - destruct c; simpl in Hd.
    + destruct (priorityCh t) as [|it rest] eqn:E; [done|]. injection Hd as -> <-.
      split; simpl; try done; rewrite ?fmap_app, ?of_priority_app; simpl; rewrite ?of_priority_one; simpl.
      * by rewrite H2, <-(assoc_L (++)).
      * by rewrite app_nil_r.
      * apply Forall_app. split; [done|]. constructor; [done|constructor].
    + destruct (is_high i t) eqn:Eh; [done|]. destruct (normalCh t) as [|it rest] eqn:E; [done|].
      injection Hd as -> <-.
      split; simpl; try done; rewrite ?fmap_app, ?of_priority_app; simpl; rewrite ?of_priority_one; simpl.
      * by rewrite app_nil_r.
      * by rewrite H3, <-(assoc_L (++)).
      * apply Forall_app. split; [done|]. constructor; [done|constructor].
    + by destruct (0 <? closeCh t).
  - by split.
  - destruct (Z.ltb_spec 0 (closeCh t)); [|done]. injection Hd as <-.
    rewrite length_app in H5, H6. simpl in H5, H6. split; simpl; try done; rewrite ?length_app; try lia.
    apply NoDup_app in H7 as (? & Hd & [? ?]%NoDup_cons). apply NoDup_app. split_and!; try done.
    intros j Hj. specialize (Hd j Hj). set_solver.
  - unfold Stop_send in Hs. destruct (Z.ltb_spec (closeCh t) (worker t)); [|done]. injection Hs as <-.
    split; simpl; try done; lia.
  - injection Hs as <-. by split.
Qed.

Lemma pool_run_inv count s : 0 ≤ count → pool_run count s → pool_inv count s.
Proof.
  intros Hc. induction 1 as [t Ht|s s' _ IH Hst].
  - unfold newThreadPool in Ht. destruct (_ || _); [done|]. injection Ht as <-.
    split; simpl; rewrite ?length_seq; try done; try lia. apply NoDup_seq.
  - by eapply pool_inv_step.
Qed.

(** C29: every scheduled item is executed exactly once, in every interleaving.  The
    items scheduled with a priority are, in order, those taken from that
    channel followed by those still in it: none is lost, duplicated or
    reordered within its channel.  The dedicated workers never take a normal
    item. *)
Theorem items_exactly_once count s :
  0 ≤ count → pool_run count s →
  (∀ u, of_priority u (scheduled s) =
        of_priority u (log s).*2 ++ (if u then priorityCh (tp s) else normalCh (tp s))) ∧
  Forall (λ x, x.2.1 = false → is_high x.1 (tp s) = false) (log s).
Proof.
  intros Hc Hr. destruct (pool_run_inv _ _ Hc Hr) as [_ H2 H3 H4 _ _ _]. split; [|done].
  intros []; done.
Qed.

(** *** The end of the pool *)
(** After its sends, a worker that is not inside a callback can return at once. *)
Lemma worker_exits count s i :
  pool_inv count s → sent s = count → i ∈ running s → busy s !! i = None →
  ∃ s', pool_step s s' ∧ (∀ j, j ∈ running s' ↔ j ∈ running s ∧ j ≠ i) ∧
    S (length (running s')) = length (running s) ∧ busy s' = busy s ∧ sent s' = sent s.
Proof.
  intros [H1 _ _ _ H5 H6 H7] Heq Hi Hb. apply list_elem_of_split in Hi as (r1 & r2 & Hi).
  destruct s as [t run bz n sch lg]; simpl in *. subst run. eexists. split; [|split; [|split]].
  - apply step_exit; [done|]. unfold Do_round. rewrite length_app in H5. simpl in H5.
    destruct (Z.ltb_spec 0 (closeCh t)); [done|lia].
  - simpl. intros j. apply NoDup_app in H7 as (_ & Hd & [Hn _]%NoDup_cons).
    specialize (Hd i). set_solver.
  - simpl. rewrite !length_app. simpl. lia.
  - done.
Qed.
(** The callbacks return. *)
Lemma callbacks_return s :
  ∃ s', rtc pool_step s s' ∧ busy s' = ∅ ∧ tp s' = tp s ∧ running s' = running s ∧ sent s' = sent s.
Proof.
  destruct s as [t run bz n sch lg]. induction bz as [|i x bz Hi IH] using map_ind.
  { eexists. split; [apply rtc_refl|done]. }
  destruct IH as (s' & Hs & H). exists s'. split; [|done]. eapply rtc_l; [|exact Hs].
  rewrite <-(delete_insert_id bz i x) at 2 by done. by eapply step_return, lookup_insert_eq.
Qed.
(** The workers return. *)
Lemma workers_return count s :
  pool_inv count s → sent s = count → busy s = ∅ →
  ∃ s', rtc pool_step s s' ∧ pool_inv count s' ∧ sent s' = count ∧ running s' = [].
Proof.
  intros Hinv. remember (length (running s)) as k eqn:Hk. revert s Hk Hinv.
  induction k as [|k IH]; intros s Hk Hinv Hsent Hb.
  { exists s. split_and!; [apply rtc_refl|done|done|by apply nil_length_inv]. }
  destruct (running s) as [|i run] eqn:Hr; [done|].
  destruct (worker_exits count s i) as (s1 & Hst & _ & Hlen & Hb1 & Hn1); [done|done|rewrite Hr; left|by rewrite Hb|].
  assert (Hinv1 : pool_inv count s1) by (by eapply pool_inv_step).
  rewrite Hr in Hlen. simpl in *. destruct (IH s1) as (s' & Hs & H); [lia|done|congruence|by rewrite Hb1|].
  exists s'. split; [by eapply rtc_l|done].
Qed.

(** C30: Stop and the workers, which take the close message only between two items.  A
    send of Stop never waits.  When Stop has made its sends, the close channel holds one
    value for each worker that still runs, so that every worker outside a callback can
    return whatever the others do and whatever is queued; and once the callbacks in
    progress have returned, all workers can return, after which the channel is empty and
    Stop closes the channels.  (A callback that never returns keeps its worker, and
    Stop, waiting.) *)
Theorem stop_reaches_all_workers count s :
  0 ≤ count → pool_run count s →
  (sent s < count → wp Stop_send (λ _ _, True) (tp s)) ∧
  (sent s = count →
    closeCh (tp s) = Z.of_nat (length (running s)) ∧
    (∀ i, i ∈ running s → busy s !! i = None → ∃ s', pool_step s s' ∧
      ∀ j, j ∈ running s' ↔ j ∈ running s ∧ j ≠ i) ∧
    ∃ s', rtc pool_step s s' ∧ running s' = [] ∧ closeCh (tp s') = 0 ∧ tp_open (tp s') = false).
Proof.
  intros Hc Hr. pose proof (pool_run_inv _ _ Hc Hr) as Hinv. pose proof Hinv as [H1 _ _ _ H5 H6 _]. split.
  { intros Hlt. unfold wp, Stop_send. destruct (Z.ltb_spec (closeCh (tp s)) (worker (tp s))); [done|lia]. }
  intros Heq. split; [lia|]. split.
  { intros i Hi Hb. destruct (worker_exits count s i) as (s' & Hs & Hj & _); [done..|]. by exists s'. }
  destruct (callbacks_return s) as (s1 & Hs1 & Hb1 & Ht1 & Hr1 & Hn1).
  assert (Hinv1 : pool_inv count s1).
  { clear -Hs1 Hinv. induction Hs1; [done|]. eauto using pool_inv_step. }
  destruct (workers_return count s1) as (s2 & Hs2 & [T1 _ _ _ T5 _ _] & Hn2 & Hr2); [done|congruence|done|].
  destruct s2 as [t run bz n sch lg]. simpl in *. subst run.
  eexists. split.
  { etrans; [exact Hs1|]. eapply rtc_r; [exact Hs2|]. apply step_close; [congruence|done]. }
  simpl in *. split_and!; [done|lia|done].
Qed.

(** ** Witnesses *)
Module Witness.
Definition item (b : bool) : workItem := mkWorkItem 1%nat 1%nat false 0 b "id".
Definition t0 : ThreadPool := mkThreadPool 20 0 [] [] true.
Definition t1 : ThreadPool := set_queues [] [item true] t0.
Definition s2 : Pool :=
  mkPoolRun t0 (seq 0 20) {[5%nat := (Writer, item true)]} 0 [(false, item true)] [(5%nat, (false, item true))].

Lemma s2_run : pool_run 20 s2.
Proof.
  assert (H0 : pool_run 20 (Start t0)) by (by apply run_start).
  assert (H1 : pool_run 20 (mkPoolRun t1 (seq 0 20) ∅ 0 [(false, item true)] [])).
  { eapply run_step; [exact H0|]. by apply (step_schedule t0 t1 _ ∅ 0 [] [] false (item true)). }
  eapply run_step; [exact H1|]. apply (step_work t1 t0 _ ∅ 0 _ [] 5%nat CaseNormal (item true)).
  - by apply elem_of_seq; lia.
  - reflexivity.
  - reflexivity.
Qed.

Lemma items_exactly_once_witness :
  (∀ u, of_priority u (scheduled s2) =
        of_priority u (log s2).*2 ++ (if u then priorityCh (tp s2) else normalCh (tp s2))) ∧
  Forall (λ x, x.2.1 = false → is_high x.1 (tp s2) = false) (log s2).
Proof. apply (items_exactly_once 20 s2); [lia|exact s2_run]. Defined.

(** A pool of two workers, one of them inside a callback, after Stop's sends. *)
Definition pool_of (close : Z) (q : list workItem) : ThreadPool := mkThreadPool 2 close [] q true.
Definition s_stop : Pool :=
  mkPoolRun (pool_of 2 []) [0%nat; 1%nat] {[1%nat := (Writer, item true)]} 2
    [(false, item true)] [(1%nat, (false, item true))].
Lemma stop_reaches_all_workers_witness :
  closeCh (tp s_stop) = Z.of_nat (length (running s_stop)) ∧
  (∃ s', pool_step s_stop s' ∧ ∀ j, j ∈ running s' ↔ j ∈ running s_stop ∧ j ≠ 0%nat) ∧
  ∃ s', rtc pool_step s_stop s' ∧ running s' = [] ∧ closeCh (tp s') = 0 ∧ tp_open (tp s') = false.
Proof.
  destruct (stop_reaches_all_workers 2 s_stop) as [_ H]; [lia| |].
  - eapply run_step; [|by apply (step_stop (pool_of 1 []) (pool_of 2 []) _ _ 1)].
    eapply run_step; [|by apply (step_stop (pool_of 0 []) (pool_of 1 []) _ _ 0)].
    eapply run_step; [|apply (step_work (pool_of 0 [item true]) (pool_of 0 []) _ ∅ _ _ [] 1%nat CaseNormal (item true));
      [by right; left|done|done]].
    eapply run_step; [|by apply (step_schedule (pool_of 0 []) (pool_of 0 [item true]) [0%nat; 1%nat] ∅ 0 [] [] false (item true))].
    by apply run_start.
  - destruct (H eq_refl) as (H1 & H2 & H3). split; [exact H1|]. split; [|exact H3].
    apply (H2 0%nat); [left|reflexivity].
Defined.

Example dispatch_upload : dispatch (item true) = Writer.
Proof. reflexivity. Qed.
End Witness.
