(* ===== verification/BlockCache.v ===== *)
(** * The block cache (src/component/block_cache/block_cache.go)

    A file is read and written in blocks of a fixed size that live in memory.
    Each open handle has a map from block numbers to blocks and two lists:
    [Cooking], blocks under download or waiting to be uploaded, and [Cooked].
    Downloads and uploads are work items for the worker pool.

    The routines hold the handle's lock, so calls on one handle do not
    interleave; the workers do.  A worker executes an item at a point where the
    handle's routine schedules an item or waits for a block: [oracle] decides
    how many items are executed there and which ones, in any order. *)
From stdpp Require Import pretty.
From Stdlib Require Import QArith Qround.
From S2P Require Import Prelude GoLib Common HandleMap Internal LockMap Base64 AzUtils BlockPool ThreadPool.
Open Scope Z_scope.

Definition MAX_POOL_USAGE : Z := 80.
Definition MIN_POOL_USAGE : Z := 50.
Definition MIN_PREFETCH : Z := 5.
Definition MIN_WRITE_BLOCK : Z := 3.
Definition MIN_RANDREAD : Z := 10.
Definition MAX_FAIL_CNT : Z := 3.
Definition MAX_BLOCKS : Z := 50000.

(** handlemap.Buffers: the two lists.  Elements of both are numbered from one
    counter, so that an element belongs to one list only, and removing it from
    the other does nothing, as in container/list. *)
Record BufLists := mkBufLists {
  Cooked : list (nat * ptr);
  Cooking : list (nat * ptr);
  next_elem : nat
}.

(** The settings that do not change after Configure. *)
Record BCConfig := mkBCConfig {
  bc_blockSize : Z;
  bc_tmpPath : string;
  bc_diskSize : Z;
  bc_prefetch : Z;
  bc_noPrefetch : bool;
  bc_prefetchOnOpen : bool
}.

(** What the block cache uses of package os, of the tlru eviction list and of
    the disk-usage reading.  [disk_ReadFile]: the bytes read into a buffer of
    that length and the error of Read; [None] when Open failed.
    [disk_WriteFile]: the error of Write; [None] when Create failed. *)
Class BlockDisk (D : Type) := {
  disk_Stat : string → go D (option error);
  disk_ReadFile : string → Z → go D (option (list byte * option error));
  disk_WriteFile : string → list byte → go D (option (option error));
  disk_Remove : string → go D (option error);
  disk_RemoveAll : string → go D (option error);
  disk_MkdirAll : string → go D (option error);
  disk_Rename : string → string → go D (option error);
  disk_Glob : string → go D (list string * option error);
  disk_Mkdir : string → go D (option error);
  disk_ReadDir : string → go D (list string + error);
  tlru_New : Z → Z → go D (option error);
  tlru_Add : string → go D nat;
  tlru_Refresh : nat → go D unit;
  tlru_Start : go D (option error);
  tlru_Stop : go D (option error);
  disk_GetUsage : string → go D (option Q)
}.

Record BCState (M D N : Type) := mkBC {
  bc_pool : PoolState M;
  bc_bufs : gmap ptr BufLists;
  bc_tp : ThreadPool;
  bc_locks : LockMap;
  fileNodeMap : gmap string nat;
  maxDiskUsageHit : bool;
  bc_disk : D;
  bc_next : N;
  oracle : list nat
}.
Arguments mkBC {M D N}.
Arguments bc_pool {M D N} _.
Arguments bc_bufs {M D N} _.
Arguments bc_tp {M D N} _.
Arguments bc_locks {M D N} _.
Arguments fileNodeMap {M D N} _.
Arguments maxDiskUsageHit {M D N} _.
Arguments bc_disk {M D N} _.
Arguments bc_next {M D N} _.
Arguments oracle {M D N} _.

Section block_cache.
Context {M D N : Type} `{!Memory M} `{!BlockDisk D} `{!Runtime N}.
Context (cfg : BCConfig) (next : Component N) (rand_Read16 : go N (option (list byte))).
Abbreviation bc := (BCState M D N).

Definition set_pool (p : PoolState M) (s : bc) : bc :=
  mkBC p (bc_bufs s) (bc_tp s) (bc_locks s) (fileNodeMap s) (maxDiskUsageHit s) (bc_disk s) (bc_next s) (oracle s).
Definition set_bufs (m : gmap ptr BufLists) (s : bc) : bc :=
  mkBC (bc_pool s) m (bc_tp s) (bc_locks s) (fileNodeMap s) (maxDiskUsageHit s) (bc_disk s) (bc_next s) (oracle s).
Definition set_tp (t : ThreadPool) (s : bc) : bc :=
  mkBC (bc_pool s) (bc_bufs s) t (bc_locks s) (fileNodeMap s) (maxDiskUsageHit s) (bc_disk s) (bc_next s) (oracle s).
Definition set_flocks (l : LockMap) (s : bc) : bc :=
  mkBC (bc_pool s) (bc_bufs s) (bc_tp s) l (fileNodeMap s) (maxDiskUsageHit s) (bc_disk s) (bc_next s) (oracle s).
Definition set_fnm (m : gmap string nat) (s : bc) : bc :=
  mkBC (bc_pool s) (bc_bufs s) (bc_tp s) (bc_locks s) m (maxDiskUsageHit s) (bc_disk s) (bc_next s) (oracle s).
Definition set_hit (b : bool) (s : bc) : bc :=
  mkBC (bc_pool s) (bc_bufs s) (bc_tp s) (bc_locks s) (fileNodeMap s) b (bc_disk s) (bc_next s) (oracle s).
Definition set_disk (d : D) (s : bc) : bc :=
  mkBC (bc_pool s) (bc_bufs s) (bc_tp s) (bc_locks s) (fileNodeMap s) (maxDiskUsageHit s) d (bc_next s) (oracle s).
Definition set_nextst (n : N) (s : bc) : bc :=
  mkBC (bc_pool s) (bc_bufs s) (bc_tp s) (bc_locks s) (fileNodeMap s) (maxDiskUsageHit s) (bc_disk s) n (oracle s).
Definition set_oracle (o : list nat) (s : bc) : bc :=
  mkBC (bc_pool s) (bc_bufs s) (bc_tp s) (bc_locks s) (fileNodeMap s) (maxDiskUsageHit s) (bc_disk s) (bc_next s) o.

Definition on_pool {A} (m : go (PoolState M) A) : go bc A := go_zoom bc_pool set_pool m.
Definition on_tp {A} (m : go ThreadPool A) : go bc A := go_zoom bc_tp set_tp m.
Definition on_flocks {A} (m : go LockMap A) : go bc A := go_zoom bc_locks set_flocks m.
Definition on_disk {A} (m : go D A) : go bc A := go_zoom bc_disk set_disk m.
Definition on_next {A} (m : go N A) : go bc A := go_zoom bc_next set_nextst m.

(** *** Handles and blocks through their addresses *)
Definition get_h (hp : ptr) : go bc Handle := on_next (load_handle hp).
Definition upd_h (hp : ptr) (f : Handle → Handle) : go bc unit := on_next (λ n,
  match rt_handles n !! hp with
  | Some h => Ret (tt, rt_set_handles (<[hp := f h]> (rt_handles n)) n)
  | None => Panic
  end).
Definition new_h (h : Handle) : go bc ptr := on_next (λ n,
  let hp := fresh_ptr (rt_handles n) in
  Ret (hp, rt_set_handles (<[hp := h]> (rt_handles n)) n)).

Definition get_b (b : ptr) : go bc CacheBlock := on_pool (load_cblock b).
Definition upd_b (b : ptr) (f : CacheBlock → CacheBlock) : go bc unit := on_pool (upd_cblock b f).

Definition with_node (e : option nat) (x : CacheBlock) : CacheBlock :=
  mkCacheBlock (b_offset x) (b_id x) (b_endIndex x) (b_state x) (b_flags x) (b_data x) e.
Definition with_id_offset (id off : Z) (x : CacheBlock) : CacheBlock :=
  mkCacheBlock off id (b_endIndex x) (b_state x) (b_flags x) (b_data x) (b_node x).
Definition with_endIndex (e : Z) (x : CacheBlock) : CacheBlock :=
  mkCacheBlock (b_offset x) (b_id x) e (b_state x) (b_flags x) (b_data x) (b_node x).
Definition set_flag (f : Z) (b : ptr) : go bc unit :=
  upd_b b (λ x, with_bflags (Set_ (b_flags x) f) x).
Definition clear_flag (f : Z) (b : ptr) : go bc unit :=
  upd_b b (λ x, with_bflags (Clear (b_flags x) f) x).

Definition block_key (i : Z) : string := pretty i.

(** *** The two lists of a handle *)
Inductive side := SCooked | SCooking.
Definition side_list (sd : side) (L : BufLists) : list (nat * ptr) :=
  match sd with SCooked => Cooked L | SCooking => Cooking L end.
Definition with_side (sd : side) (l : list (nat * ptr)) (L : BufLists) : BufLists :=
  match sd with
  | SCooked => mkBufLists l (Cooking L) (next_elem L)
  | SCooking => mkBufLists (Cooked L) l (next_elem L)
  end.

Definition get_bufs (hp : ptr) : go bc BufLists :=
  h ← get_h hp;
  s ← go_get;
  go_deref (bc_bufs s !! Buffers h).
Definition put_bufs (hp : ptr) (L : BufLists) : go bc unit :=
  h ← get_h hp;
  go_modify (λ s, set_bufs (<[Buffers h := L]> (bc_bufs s)) s).

(** [block.node = list.PushFront(block)] and [PushBack]. *)
Definition push_node (sd : side) (front : bool) (hp b : ptr) : go bc unit :=
  L ← get_bufs hp;
  let e := next_elem L in
  let l := if front then (e, b) :: side_list sd L else side_list sd L ++ [(e, b)] in
  _ ← put_bufs hp (mkBufLists (Cooked (with_side sd l L)) (Cooking (with_side sd l L)) (S e));
  upd_b b (with_node (Some e)).

(** [list.Remove(e)]: nothing happens when e is not an element of this list. *)
Definition remove_elem (sd : side) (hp : ptr) (e : nat) : go bc unit :=
  L ← get_bufs hp;
  put_bufs hp (with_side sd (filter (λ p, p.1 ≠ e) (side_list sd L)) L).
(** [list.Remove(block.node)]: a nil node is dereferenced. *)
Definition remove_node (sd : side) (hp b : ptr) : go bc unit :=
  x ← get_b b;
  match b_node x with
  | Some e => remove_elem sd hp e
  | None => go_panic
  end.
(** [if block.node != nil { list.Remove(block.node) }] *)
Definition remove_node_if (sd : side) (hp b : ptr) : go bc unit :=
  x ← get_b b;
  match b_node x with
  | Some e => remove_elem sd hp e
  | None => mret tt
  end.

(** *** Workers *)

(** [bc.threadPool.Schedule] by a worker. *)
Definition reschedule (item : workItem) : go bc unit :=
  on_tp (Schedule false
    (mkWorkItem (wi_handle item) (wi_block item) (wi_prefetch item) (i32 (failCnt item + 1))
       (upload item) (blockId item))).

Definition file_name (h : Handle) (id : Z) : string := hPath h +:+ "::" +:+ pretty id.

(** The disk part of download: was the block read from disk, and the node of
    the eviction list. *)
Definition download_disk (item : workItem) (fileName : string) : go bc (bool * nat) :=
  s ← go_get;
  diskNode ← match fileNodeMap s !! fileName with
    | None =>
        nd ← on_disk (tlru_Add fileName);
        _ ← go_modify (λ s, set_fnm (<[fileName := nd]> (fileNodeMap s)) s);
        mret nd
    | Some nd => _ ← on_disk (tlru_Refresh nd); mret nd
    end;
  let localPath := filepath_Join [bc_tmpPath cfg; fileName] in
  err ← on_disk (disk_Stat localPath);
  if bool_decide (err = None) then
    x ← get_b (wi_block item);
    let data := default [] (b_data x) in
    r ← on_disk (disk_ReadFile localPath (Z.of_nat (length data)));
    match r with
    | None => _ ← on_disk (disk_Remove localPath); mret (false, diskNode)
    | Some (d, err) =>
        _ ← upd_b (wi_block item) (with_data (Some (copy_at data 0 d).1));
        _ ← (if bool_decide (err ≠ None) then _ ← on_disk (disk_Remove localPath); mret tt else mret tt);
        _ ← upd_b (wi_block item)
              (λ x, with_endIndex (u64 (b_offset x + Z.of_nat (length d))) x);
        _ ← on_pool (Ready (wi_block item));
        mret (true, diskNode)
    end
  else mret (false, diskNode).

(** Write the block to the disk cache; [false] when its directory could not be
    made, and the block is never marked ready. *)
Definition dump_block (item : workItem) (localPath : string) (diskNode : nat) : go bc bool :=
  err ← on_disk (disk_MkdirAll (filepath_Dir localPath));
  if bool_decide (err = None) then
    x ← get_b (wi_block item);
    r ← on_disk (disk_WriteFile localPath (default [] (b_data x)));
    _ ← match r with
        | None => mret tt
        | Some err =>
            _ ← (if bool_decide (err ≠ None) then _ ← on_disk (disk_Remove localPath); mret tt else mret tt);
            on_disk (tlru_Refresh diskNode)
        end;
    mret true
  else mret false.

Definition download_next (item : workItem) (fileName : string) (diskNode : nat) : go bc unit :=
  let b := wi_block item in
  _ ← upd_b b (λ x, with_endIndex (b_offset x) x);
  x ← get_b b;
  '(data, n, err) ← on_next (c_ReadInBuffer next
      (mkReadInBufferOptions (wi_handle item) (i64 (b_offset x)) (default [] (b_data x))));
  _ ← upd_b b (with_data ((λ _, data) <$> b_data x));
  if MAX_FAIL_CNT <? failCnt item then _ ← on_pool (Failed b); on_pool (Ready b)
  else if bool_decide (err ≠ None) then reschedule item
  else if n =? 0 then reschedule item
  else
    _ ← upd_b b (λ x, with_endIndex (u64 (b_offset x + u64 n)) x);
    ok ← (if bool_decide (bc_tmpPath cfg ≠ "")
          then dump_block item (filepath_Join [bc_tmpPath cfg; fileName]) diskNode else mret true);
    if ok : bool then on_pool (Ready b) else mret tt.

Definition download (item : workItem) : go bc unit :=
  h ← get_h (wi_handle item);
  x ← get_b (wi_block item);
  let fileName := file_name h (b_id x) in
  flock ← on_flocks (lm_Get fileName);
  _ ← on_flocks (lm_Lock flock);
  '(served, diskNode) ← (if bool_decide (bc_tmpPath cfg ≠ "")
                         then download_disk item fileName else mret (false, 0%nat));
  _ ← (if served : bool then mret tt else download_next item fileName diskNode);
  on_flocks (lm_Unlock flock).

(** [block.data[0 : block.endIndex-block.offset]] *)
Definition block_slice (x : CacheBlock) : outcome (list byte) :=
  let data := default [] (b_data x) in
  let k := u64 (b_endIndex x - b_offset x) in
  if k <=? Z.of_nat (length data) then Ret (take (Z.to_nat k) data) else Panic.

Definition upload_dump (item : workItem) (fileName : string) (data : list byte) : go bc unit :=
  let localPath := filepath_Join [bc_tmpPath cfg; fileName] in
  err ← on_disk (disk_MkdirAll (filepath_Dir localPath));
  if bool_decide (err ≠ None) then mret tt
  else
    r ← on_disk (disk_WriteFile localPath data);
    match r with
    | None => mret tt
    | Some (Some _) => _ ← on_disk (disk_Remove localPath); mret tt
    | Some None =>
        s ← go_get;
        match fileNodeMap s !! fileName with
        | None =>
            nd ← on_disk (tlru_Add fileName);
            go_modify (λ s, set_fnm (<[fileName := nd]> (fileNodeMap s)) s)
        | Some nd => on_disk (tlru_Refresh nd)
        end
    end.

Definition upload_block (item : workItem) : go bc unit :=
  let b := wi_block item in
  h ← get_h (wi_handle item);
  x ← get_b b;
  let fileName := file_name h (b_id x) in
  flock ← on_flocks (lm_Get fileName);
  _ ← on_flocks (lm_Lock flock);
  x ← get_b b;
  match block_slice x with
  | Ret data =>
      err ← on_next (c_StageData next (mkStageDataOptions (hPath h) (blockId item) (u64 (b_id x)) data));
      _ ← (if bool_decide (err ≠ None) then
             if MAX_FAIL_CNT <? i32 (failCnt item + 1) then _ ← on_pool (Failed b); on_pool (Ready b)
             else reschedule item
           else
             _ ← (if bool_decide (bc_tmpPath cfg ≠ "") then upload_dump item fileName data else mret tt);
             _ ← set_flag BlockFlagSynced b;
             _ ← on_pool (NoMoreDirty b);
             on_pool (Ready b));
      on_flocks (lm_Unlock flock)
  | _ => go_panic
  end.

Definition run_item (item : workItem) : go bc unit :=
  match dispatch item with Writer => upload_block item | Reader => download item end.

(** A worker takes the [k]-th of the queued items, urgent ones first. *)
Definition take_item (k : nat) : go bc (option workItem) := λ s,
  let p := priorityCh (bc_tp s) in
  let n := normalCh (bc_tp s) in
  let total := (length p + length n)%nat in
  if decide (total = 0%nat) then Ret (None, s)
  else
    let i := (k mod total)%nat in
    let '(p', n') :=
      if decide (i < length p)%nat then (delete i p, n) else (p, delete (i - length p)%nat n) in
    Ret ((p ++ n) !! i, set_tp (set_queues p' n' (bc_tp s)) s).

Definition next_choice : go bc nat := λ s,
  match oracle s with
  | k :: rest => Ret (k, set_oracle rest s)
  | [] => Ret (0%nat, s)
  end.

(** One item is executed, if there is one. *)
Definition work : go bc bool :=
  k ← next_choice;
  item ← take_item k;
  match item with
  | Some item => _ ← run_item item; mret true
  | None => mret false
  end.

Fixpoint work_n (n : nat) : go bc unit :=
  match n with
  | O => mret tt
  | S n => _ ← work; work_n n
  end.

(** The number of executions the queued items can still take: a failed one is
    queued again until it has failed four times. *)
Definition pending (t : ThreadPool) : nat :=
  sum_list ((λ i, Z.to_nat (5 - failCnt i)) <$> priorityCh t ++ normalCh t).

(** [bc.threadPool.Schedule] by the handle's routine: while the channel is full
    it waits for the workers; then some items may be executed before it goes
    on. *)
Fixpoint schedule_loop (fuel : nat) (urgent : bool) (item : workItem) : go bc unit := λ s,
  match Schedule urgent item (bc_tp s) with
  | Ret (_, t) => Ret (tt, set_tp t s)
  | Panic => Panic
  | Blocked =>
      match fuel with
      | O => Blocked
      | S fuel => (_ ← work; schedule_loop fuel urgent item) s
      end
  end.
(** The workers may run here. *)
Definition interleave : go bc unit := k ← next_choice; work_n k.
Definition schedule (urgent : bool) (item : workItem) : go bc unit :=
  s ← go_get;
  _ ← schedule_loop (pending (bc_tp s)) urgent item;
  interleave.

(** A receive from [block.state] by the handle's routine: it waits until the
    workers make the channel ready, and blocks when none can. *)
Definition chan_ready (b : ptr) : go bc bool :=
  x ← get_b b;
  s ← go_get;
  match p_chans (bc_pool s) !! b_state x with
  | None => mret false
  | Some c => mret (bool_decide (ch_values c ≠ []) || ch_closed c)
  end.
Fixpoint wait_loop (fuel : nat) (b : ptr) : go bc Z :=
  ready ← chan_ready b;
  if ready : bool then on_pool (wait_state b)
  else
    match fuel with
    | O => go_block
    | S fuel =>
        worked ← work;
        if worked : bool then wait_loop fuel b else go_block
    end.
Definition wait (b : ptr) : go bc Z :=
  s ← go_get; wait_loop (pending (bc_tp s)) b.

(** *** The values of a handle *)
Definition get_value (hp : ptr) (key : string) : go bc (option hvalue) :=
  h ← get_h hp; mret (GetValue key h).
Definition set_value (hp : ptr) (key : string) (v : hvalue) : go bc unit := upd_h hp (SetValue key v).
Definition remove_value (hp : ptr) (key : string) : go bc unit :=
  upd_h hp (λ h, (RemoveValue key h).2).

(** [val.(uint64)] of the value at "#", [lst.(map[int64]string)] of the one at
    "blockList" and [node.( *Block)] of the one at a block number: a missing
    value or one of another type is a panic. *)
Definition next_offset (hp : ptr) : go bc Z :=
  v ← get_value hp "#";
  match v with Some (VUint64 n) => mret n | _ => go_panic end.
Definition block_list (hp : ptr) : go bc (gmap Z string) :=
  v ← get_value hp "blockList";
  match v with Some (VBlockList m) => mret m | _ => go_panic end.
Definition find_block (hp : ptr) (index : Z) : go bc (option ptr) :=
  v ← get_value hp (block_key index);
  match v with
  | None => mret None
  | Some (VBlock b) => mret (Some b)
  | Some _ => go_panic
  end.

(** *** Reading *)
Definition lineupDownload (hp b : ptr) (prefetch : bool) : go bc unit :=
  _ ← remove_node_if SCooked hp b;
  _ ← push_node SCooking true hp b;
  _ ← set_flag BlockFlagDownloading b;
  schedule (negb prefetch) (mkWorkItem hp b prefetch 0 false "").

Definition refreshBlock (hp : ptr) (index : Z) (prefetch : bool) : go bc (option error) :=
  let offset := u64 (index * bc_blockSize cfg) in
  h ← get_h hp;
  if hSize h <=? i64 offset then mret (Some Eof)
  else
    L ← get_bufs hp;
    ok ← (if bool_decide (Cooked L = []) && negb prefetch then
            b ← on_pool MustGet;
            if bool_decide (b = nil_ptr) then mret false
            else _ ← push_node SCooked true hp b; mret true
          else mret true);
    if negb ok then mret (Some (Msg "unable to allocate block"))
    else
      L ← get_bufs hp;
      match Cooked L with
      | [] => mret None
      | (_, b) :: _ =>
          x ← get_b b;
          _ ← (if negb (b_id x =? -1) then remove_value hp (block_key (b_id x)) else mret tt);
          _ ← on_pool (ReUse b);
          _ ← upd_b b (with_id_offset (i64 index) offset);
          _ ← set_value hp (block_key index) (VBlock b);
          _ ← set_value hp "#" (VUint64 (u64 (index + 1)));
          _ ← lineupDownload hp b prefetch;
          mret None
      end.

(** A select on [block.state] with a default: was a value received. *)
Definition try_receive (b : ptr) : go bc bool :=
  _ ← interleave;
  ready ← chan_ready b;
  if ready : bool then _ ← on_pool (wait_state b); mret true else mret false.

(** First loop of the clean up for random reads: [n] times the front of
    Cooking is moved to the back of Cooked, or of Cooking while it is still
    under download. *)
Fixpoint sort_cooking (n : nat) (hp : ptr) : go bc unit :=
  match n with
  | O => mret tt
  | S n =>
      L ← get_bufs hp;
      match Cooking L with
      | [] => mret tt
      | (e, b) :: _ =>
          _ ← remove_elem SCooking hp e;
          _ ← upd_b b (with_node None);
          received ← try_receive b;
          _ ← (if received : bool then
                 _ ← clear_flag BlockFlagDownloading b;
                 _ ← on_pool (Unblock b);
                 push_node SCooked false hp b
               else push_node SCooking false hp b);
          sort_cooking n hp
      end
  end.

(** Second loop: the front of Cooked goes back to the pool, [n] times. *)
Fixpoint release_cooked (n : nat) (hp : ptr) : go bc unit :=
  match n with
  | O => mret tt
  | S n =>
      L ← get_bufs hp;
      match Cooked L with
      | [] => mret tt
      | (e, b) :: _ =>
          _ ← remove_elem SCooked hp e;
          x ← get_b b;
          _ ← remove_value hp (block_key (b_id x));
          _ ← upd_b b (with_node None);
          _ ← on_pool (ReUse b);
          _ ← on_pool (Release b);
          release_cooked n hp
      end
  end.

(** The loop that allocates more buffers: [n] attempts are left before the
    prefetch limit; the result is the number of blocks got. *)
Fixpoint more_buffers (n : nat) (cnt : Z) (hp : ptr) : go bc Z :=
  match n with
  | O => mret cnt
  | S n =>
      if cnt <? MIN_PREFETCH then
        b ← on_pool TryGet;
        if bool_decide (b = nil_ptr) then more_buffers n cnt hp
        else _ ← push_node SCooked true hp b; more_buffers n (cnt + 1) hp
      else mret cnt
  end.

(** The loop that lines the blocks up: [n] rounds are left, [first] is
    [i == 0].  The index moves on only when its block was not in the map. *)
Fixpoint prefetch_loop (n : nat) (hp : ptr) (index : Z) (prefetch first : bool)
    : go bc (option error) :=
  match n with
  | O => mret None
  | S n =>
      v ← get_value hp (block_key index);
      match v with
      | Some _ => prefetch_loop n hp index prefetch false
      | None =>
          err ← refreshBlock hp index (prefetch || negb first);
          if bool_decide (err ≠ None) then mret err
          else prefetch_loop n hp (u64 (index + 1)) prefetch false
      end
  end.

Definition startPrefetch (hp : ptr) (index : Z) (prefetch : bool) : go bc (option error) :=
  h ← get_h hp;
  L ← get_bufs hp;
  let currentCnt := Z.of_nat (length (Cooked L) + length (Cooking L)) in
  cnt ← (if MIN_RANDREAD <? OptCnt h then
           _ ← (if MIN_PREFETCH <? currentCnt then
                  _ ← sort_cooking (length (Cooking L)) hp;
                  L ← get_bufs hp;
                  release_cooked (length (Cooked L) - Z.to_nat MIN_PREFETCH) hp
                else mret tt);
           mret 1
         else
           cnt ← more_buffers (Z.to_nat (bc_prefetch cfg - currentCnt)) 0 hp;
           mret (if cnt =? 0 then 1 else cnt));
  prefetch_loop (Z.to_nat cnt) hp index prefetch true.

(** A division by zero is a panic. *)
Definition getBlockIndex (offset : Z) : go bc Z :=
  if bc_blockSize cfg =? 0 then go_panic else mret (offset / bc_blockSize cfg).

(** The first part of getBlock: the block of this index, lined up for download
    when the handle does not have it.  A read that is not the handle's first
    one then counts as random. *)
Definition fetch_block (hp : ptr) (index : Z) : go bc (ptr * option error) :=
  err ← startPrefetch hp index false;
  if bool_decide (err ≠ None) && bool_decide (err ≠ Some Eof) then mret (nil_ptr, err)
  else
    found ← find_block hp index;
    match found with
    | Some b => mret (b, None)
    | None => mret (nil_ptr, Some (Msg "not able to find block immediately after scheudling"))
    end.
Definition locate_block (hp : ptr) (index : Z) : go bc (ptr * option error) :=
  found ← find_block hp index;
  match found with
  | Some b => mret (b, None)
  | None =>
      first ← (if bc_noPrefetch cfg then mret false else n ← next_offset hp; mret (n =? 0));
      _ ← (if first : bool then mret tt else upd_h hp (λ h, handle_with_optcnt (u64 (OptCnt h + 1)) h));
      fetch_block hp index
  end.

(** The second part: wait for the block; its first reader prefetches more and
    opens it to the others. *)
Definition await_block (hp b : ptr) : go bc (ptr * option error) :=
  t ← wait b;
  if t =? 1 then
    _ ← clear_flag BlockFlagDownloading b;
    x ← get_b b;
    if IsFailed x then
      _ ← remove_node SCooking hp b;
      _ ← remove_value hp (block_key (b_id x));
      _ ← on_pool (ReUse b);
      _ ← on_pool (Release b);
      mret (nil_ptr, Some (Msg "failed to download block"))
    else
      h ← get_h hp;
      _ ← (if OptCnt h <=? MIN_RANDREAD then
             n ← next_offset hp;
             if i64 (u64 (n * bc_blockSize cfg)) <? hSize h
             then _ ← startPrefetch hp n true; mret tt
             else mret tt
           else mret tt);
      _ ← remove_node SCooking hp b;
      _ ← push_node SCooked false hp b;
      _ ← on_pool (Unblock b);
      mret (b, None)
  else mret (b, None).

Definition getBlock (hp : ptr) (readoffset : Z) : go bc (ptr * option error) :=
  h ← get_h hp;
  if u64 (hSize h) <=? readoffset then mret (nil_ptr, Some Eof)
  else
    index ← getBlockIndex readoffset;
    '(b, err) ← locate_block hp index;
    if bool_decide (err ≠ None) then mret (nil_ptr, err) else await_block hp b.

(** The loop of ReadInBuffer: [data] is the caller's buffer, [off] the offset
    of the file and [dataRead] how much was read.  A round that copies nothing
    is repeated for ever, so the length of the buffer is enough fuel. *)
Fixpoint read_loop (fuel : nat) (hp : ptr) (off : Z) (dataRead : nat) (data : list byte)
    : go bc (list byte * Z * option error) :=
  if decide (dataRead < length data)%nat then
    match fuel with
    | O => go_block
    | S fuel =>
        '(b, err) ← getBlock hp (u64 off);
        if bool_decide (err ≠ None) then mret (data, Z.of_nat dataRead, err)
        else
          x ← get_b b;
          let bdata := default [] (b_data x) in
          let readOffset := u64 (u64 off - b_offset x) in
          if Z.of_nat (length bdata) <? readOffset then go_panic
          else
            let '(data', n) := copy_at data dataRead (drop (Z.to_nat readOffset) bdata) in
            read_loop fuel hp (i64 (off + Z.of_nat n)) (dataRead + n) data'
    end
  else mret (data, Z.of_nat dataRead, None).

Definition ReadInBuffer (options : ReadInBufferOptions) : go bc (list byte * Z * option error) :=
  let hp := ReadInBuffer_Handle options in
  let data := ReadInBuffer_Data options in
  h ← get_h hp;
  if hSize h <=? ReadInBuffer_Offset options then mret (data, 0, Some Eof)
  else read_loop (length data) hp (ReadInBuffer_Offset options) 0 data.

(** *** Writing *)
Definition new_block_id : go bc string :=
  u ← on_next rand_Read16;
  match NewUUIDWithLength 16 u with
  | Ret id => mret (base64_EncodeToString id)
  | Panic => go_panic
  | Blocked => go_block
  end.

Definition lineupUpload (hp b : ptr) : go bc unit :=
  id ← new_block_id;
  x ← get_b b;
  listMap ← block_list hp;
  _ ← set_value hp "blockList" (VBlockList (<[b_id x := id]> listMap));
  _ ← remove_node_if SCooking hp b;
  _ ← on_pool (Uploading b);
  _ ← clear_flag BlockFlagFailed b;
  _ ← set_flag BlockFlagUploading b;
  _ ← push_node SCooked false hp b;
  schedule false (mkWorkItem hp b false 0 true id).

(** The loop of stageBlocks over the elements of Cooking: the next element is
    read before the current one is moved, so these are the elements at the
    start. *)
Fixpoint stage_loop (l : list (nat * ptr)) (cnt : Z) (hp : ptr) : go bc unit :=
  match l with
  | [] => mret tt
  | (_, b) :: l =>
      if 0 <? cnt then
        x ← get_b b;
        if Block_IsDirty x then _ ← lineupUpload hp b; stage_loop l (cnt - 1) hp
        else stage_loop l cnt hp
      else mret tt
  end.
Definition stageBlocks (hp : ptr) (cnt : Z) : go bc (option error) :=
  L ← get_bufs hp;
  _ ← block_list hp;
  _ ← stage_loop (Cooking L) cnt hp;
  mret None.

Fixpoint free_loop (l : list (nat * ptr)) (cnt : Z) (hp : ptr) : go bc unit :=
  match l with
  | [] => mret tt
  | (e, b) :: l =>
      if 0 <? cnt then
        x ← get_b b;
        _ ← (if negb (b_id x =? -1) then _ ← wait b; clear_flag BlockFlagUploading b else mret tt);
        _ ← on_pool (Unblock b);
        x ← get_b b;
        if IsFailed x then
          _ ← remove_node SCooked hp b;
          _ ← push_node SCooking true hp b;
          free_loop l cnt hp
        else
          _ ← remove_value hp (block_key (b_id x));
          _ ← remove_elem SCooked hp e;
          _ ← upd_b b (with_node None);
          _ ← on_pool (ReUse b);
          _ ← on_pool (Release b);
          free_loop l (cnt - 1) hp
      else mret tt
  end.
Definition waitAndFreeUploadedBlocks (hp : ptr) (cnt : Z) : go bc unit :=
  L ← get_bufs hp;
  free_loop (Cooked L) cnt hp.

(** getOrCreateBlock when the handle does not have the block. *)
Definition create_block (hp : ptr) (index : Z) : go bc (ptr * option error) :=
  L ← get_bufs hp;
  _ ← (if bc_prefetch cfg <=? Z.of_nat (length (Cooked L) + length (Cooking L))
       then waitAndFreeUploadedBlocks hp 1 else mret tt);
  b ← on_pool MustGet;
  if bool_decide (b = nil_ptr) then mret (nil_ptr, Some (Msg "unable to allocate block"))
  else
    let offset := u64 (index * bc_blockSize cfg) in
    _ ← upd_b b (λ x, with_id_offset (i64 index) offset (with_node None x));
    h ← get_h hp;
    _ ← (if offset <? u64 (hSize h) then
           _ ← lineupDownload hp b false;
           _ ← wait b;
           mret tt
         else push_node SCooking false hp b);
    _ ← set_value hp (block_key index) (VBlock b);
    _ ← clear_flag BlockFlagDownloading b;
    _ ← on_pool (Unblock b);
    L ← get_bufs hp;
    _ ← (if MIN_WRITE_BLOCK <? Z.of_nat (length (Cooking L))
         then _ ← stageBlocks hp 1; mret tt else mret tt);
    mret (b, None).

(** getOrCreateBlock when the handle has it. *)
Definition reopen_block (hp b : ptr) : go bc unit :=
  x ← get_b b;
  if IsSet (b_flags x) BlockFlagSynced then
    _ ← remove_node_if SCooked hp b;
    _ ← push_node SCooking false hp b;
    clear_flag BlockFlagSynced b
  else if IsSet (b_flags x) BlockFlagDownloading then
    _ ← wait b;
    _ ← clear_flag BlockFlagDownloading b;
    on_pool (Unblock b)
  else mret tt.

Definition getOrCreateBlock (hp : ptr) (offset : Z) : go bc (ptr * option error) :=
  index ← getBlockIndex offset;
  if MAX_BLOCKS <=? index
  then mret (nil_ptr, Some (Msg "block index out of range. Increase your block size."))
  else
    found ← find_block hp index;
    match found with
    | None => create_block hp index
    | Some b => _ ← reopen_block hp b; mret (b, None)
    end.

(** The loop of WriteFile, with fuel as for [read_loop]. *)
Fixpoint write_loop (fuel : nat) (hp : ptr) (off : Z) (dataWritten : nat) (data : list byte)
    : go bc (Z * option error) :=
  if decide (dataWritten < length data)%nat then
    match fuel with
    | O => go_block
    | S fuel =>
        '(b, err) ← getOrCreateBlock hp (u64 off);
        if bool_decide (err ≠ None) then mret (Z.of_nat dataWritten, err)
        else
          x ← get_b b;
          let bdata := default [] (b_data x) in
          let writeOffset := u64 (u64 off - b_offset x) in
          if Z.of_nat (length bdata) <? writeOffset then go_panic
          else
            let '(bdata', n) := copy_at bdata (Z.to_nat writeOffset) (drop dataWritten data) in
            let off := i64 (off + Z.of_nat n) in
            _ ← upd_b b (λ x, with_data ((λ _, bdata') <$> b_data x) x);
            _ ← on_pool (Block_Dirty b);
            _ ← upd_h hp (λ h, handle_with_flags (Set_ (hFlags h) HandleFlagDirty) h);
            _ ← (if b_endIndex x <? u64 off then
                   _ ← upd_b b (with_endIndex (u64 off));
                   upd_h hp (handle_with_size (i64 (u64 off)))
                 else mret tt);
            write_loop fuel hp off (dataWritten + n) data
    end
  else mret (Z.of_nat dataWritten, None).

Definition WriteFile (options : WriteFileOptions) : go bc (Z * option error) :=
  write_loop (length (WriteFile_Data options)) (WriteFile_Handle options)
    (WriteFile_Offset options) 0 (WriteFile_Data options).

(** *** Committing *)

(** The three attempts to upload what is pending; the result is [cnt]. *)
Fixpoint commit_attempts (n : nat) (cnt : Z) (hp : ptr) : go bc (Z * option error) :=
  match n with
  | O => mret (cnt, None)
  | S n =>
      L ← get_bufs hp;
      if bool_decide (Cooking L = []) then mret (cnt, None)
      else
        err ← stageBlocks hp MAX_BLOCKS;
        if bool_decide (err ≠ None) then mret (cnt, err)
        else _ ← waitAndFreeUploadedBlocks hp MAX_BLOCKS; commit_attempts n (cnt + 1) hp
  end.

Fixpoint any_dirty (l : list (nat * ptr)) : go bc bool :=
  match l with
  | [] => mret false
  | (_, b) :: l => x ← get_b b; if Block_IsDirty x then mret true else any_dirty l
  end.

(** The ids in the order of their block numbers. *)
Definition ordered_ids (listMap : gmap Z string) : list string :=
  let offsets := merge_sort Z.le (map_to_list listMap).*1 in
  (λ k, default "" (listMap !! k)) <$> offsets.

Definition commitBlocks (hp : ptr) : go bc (option error) :=
  '(cnt, err) ← commit_attempts 3 0 hp;
  if bool_decide (err ≠ None) then mret err
  else
    dirty ← (if cnt =? 3 then L ← get_bufs hp; any_dirty (Cooking L) else mret false);
    if dirty : bool then mret (Some (Msg "failed to stage blocks"))
    else
      listMap ← block_list hp;
      h ← get_h hp;
      err ← on_next (c_CommitData next
              (mkCommitDataOptions (hPath h) (ordered_ids listMap) (bc_blockSize cfg)));
      if bool_decide (err ≠ None) then mret err
      else
        _ ← upd_h hp (λ h, handle_with_flags (Clear (hFlags h) HandleFlagDirty) h);
        mret None.

Definition FlushFile (options : FlushFileOptions) : go bc (option error) :=
  commitBlocks (FlushFile_Handle options).
Definition SyncFile (options : SyncFileOptions) : go bc (option error) :=
  commitBlocks (SyncFile_Handle options).

(** *** Opening and closing *)
Definition prepareHandleForBlockCache (hp : ptr) : go bc unit :=
  s ← go_get;
  let bp := fresh_ptr (bc_bufs s) in
  _ ← go_modify (set_bufs (<[bp := mkBufLists [] [] 0]> (bc_bufs s)));
  _ ← upd_h hp (handle_with_buffers bp);
  _ ← set_value hp "blockList" (VBlockList ∅);
  set_value hp "#" (VUint64 0).

Definition CreateFile (options : CreateFileOptions) : go bc (ptr * option error) :=
  '(_, err) ← on_next (c_CreateFile next options);
  if bool_decide (err ≠ None) then mret (nil_ptr, err)
  else
    hp ← new_h (NewHandle (CreateFile_Name options));
    _ ← upd_h hp (handle_with_size 0);
    now ← on_next rt_now;
    _ ← upd_h hp (handle_with_mtime now);
    _ ← prepareHandleForBlockCache hp;
    mret (hp, None).

(** The loop over the committed blocks: their ids enter the handle's map until
    one has another size; the last block may be smaller. *)
Fixpoint load_block_list (l : list CommittedBlock) (idx : Z) (listLen : Z) (hp : ptr) : go bc bool :=
  match l with
  | [] => mret true
  | blk :: l =>
      listMap ← block_list hp;
      _ ← set_value hp "blockList" (VBlockList (<[idx := CommittedBlock_Id blk]> listMap));
      if negb (CommittedBlock_Size blk =? bc_blockSize cfg) && negb (idx =? listLen - 1)
      then mret false else load_block_list l (idx + 1) listLen hp
  end.

Definition OpenFile (options : OpenFileOptions) : go bc (ptr * option error) :=
  let name := OpenFile_Name options in
  let flags := OpenFile_Flags options in
  '(ap, err) ← on_next (c_GetAttr next (mkGetAttrOptions name false));
  if bool_decide (err ≠ None) then mret (nil_ptr, err)
  else
    attr ← on_next (load_obj ap);
    hp ← new_h (NewHandle name);
    _ ← upd_h hp (handle_with_mtime (Mtime attr));
    _ ← upd_h hp (handle_with_size (Size attr));
    _ ← prepareHandleForBlockCache hp;
    err ← (if negb (Z.land flags O_TRUNC =? 0) || negb (Z.land flags O_WRONLY =? 0) then
             _ ← upd_h hp (handle_with_size 0);
             _ ← upd_h hp (λ h, handle_with_flags (Set_ (hFlags h) HandleFlagDirty) h);
             mret None
           else if negb (Z.land flags O_RDWR =? 0) && negb (Size attr =? 0) then
             '(blockList, err) ← on_next (c_GetCommittedBlockList next name);
             match err, blockList with
             | None, Some l =>
                 ok ← load_block_list l 0 (Z.of_nat (length l)) hp;
                 mret (if ok : bool then None else Some (Msg "block size mismatch"))
             | _, _ => mret (Some (Msg "failed to retrieve block list"))
             end
           else mret None);
    if bool_decide (err ≠ None) then mret (nil_ptr, err)
    else
      h ← get_h hp;
      _ ← (if 0 <? hSize h then
             if hSize h <? i64 (bc_blockSize cfg) then _ ← refreshBlock hp 0 false; mret tt
             else if bc_prefetchOnOpen cfg && negb (bc_noPrefetch cfg)
             then _ ← startPrefetch hp 0 false; mret tt
             else mret tt
           else mret tt);
      mret (hp, None).

(** The blocks of Cooking are waited for, then released; those of Cooked are
    released.  The workers do not use the lists, and both are nil in the end. *)
Fixpoint release_all (l : list (nat * ptr)) (waiting : bool) : go bc unit :=
  match l with
  | [] => mret tt
  | (_, b) :: l =>
      _ ← (if waiting then _ ← wait b; mret tt else mret tt);
      _ ← on_pool (ReUse b);
      _ ← on_pool (Release b);
      release_all l waiting
  end.

Definition CloseFile (options : CloseFileOptions) : go bc (option error) :=
  let hp := CloseFile_Handle options in
  h ← get_h hp;
  err ← (if handle_Dirty h then FlushFile (mkFlushFileOptions hp) else mret None);
  if bool_decide (err ≠ None) then mret err
  else
    _ ← upd_h hp Cleanup;
    L ← get_bufs hp;
    _ ← release_all (Cooking L) true;
    _ ← release_all (Cooked L) false;
    _ ← go_modify (λ s, set_bufs (delete (Buffers h) (bc_bufs s)) s);
    mret None.

(** *** The disk cache *)
Definition diskEvict (fileName : string) : go bc unit :=
  flock ← on_flocks (lm_Get fileName);
  _ ← on_flocks (lm_Lock flock);
  _ ← go_modify (λ s, set_fnm (delete fileName (fileNodeMap s)) s);
  _ ← on_disk (disk_Remove (filepath_Join [bc_tmpPath cfg; fileName]));
  on_flocks (lm_Unlock flock).

(** The usage is an exact rational, in megabytes; no reading counts as 0. *)
Definition checkDiskUsage : go bc bool :=
  data ← on_disk (disk_GetUsage (bc_tmpPath cfg));
  let usage := u32 (Qfloor (default 0%Q data * 100 / inject_Z (bc_diskSize cfg))) in
  s ← go_get;
  if maxDiskUsageHit s && (MIN_POOL_USAGE <=? usage) then mret true
  else if negb (maxDiskUsageHit s) && (MAX_POOL_USAGE <=? usage)
  then _ ← go_modify (set_hit true); mret true
  else _ ← go_modify (set_hit false); _ ← on_pool Usage; mret false.

Definition invalidateDirectory (name : string) : go bc unit :=
  if bool_decide (bc_tmpPath cfg = "") then mret tt
  else _ ← on_disk (disk_RemoveAll (filepath_Join [bc_tmpPath cfg; name])); mret tt.

Definition DeleteDir (options : DeleteDirOptions) : go bc (option error) :=
  err ← on_next (c_DeleteDir next options);
  if bool_decide (err ≠ None) then mret err
  else _ ← invalidateDirectory (DeleteDir_Name options); mret None.

Definition RenameDir (options : RenameDirOptions) : go bc (option error) :=
  err ← on_next (c_RenameDir next options);
  if bool_decide (err ≠ None) then mret err
  else _ ← invalidateDirectory (RenameDir_Src options); mret None.

Fixpoint remove_files (l : list string) : go bc unit :=
  match l with
  | [] => mret tt
  | f :: l => err ← on_disk (disk_Remove f); if bool_decide (err ≠ None) then mret tt else remove_files l
  end.

(** The error of Glob is the one returned, that of Remove only ends the loop. *)
Definition DeleteFile (options : DeleteFileOptions) : go bc (option error) :=
  flock ← on_flocks (lm_Get (DeleteFile_Name options));
  _ ← on_flocks (lm_Lock flock);
  err ← on_next (c_DeleteFile next options);
  err ← (if bool_decide (err ≠ None) then mret err
         else
           '(files, err) ← on_disk (disk_Glob (filepath_Join [bc_tmpPath cfg; DeleteFile_Name options] +:+ "*"));
           _ ← (if bool_decide (err = None) then remove_files files else mret tt);
           mret err);
  _ ← on_flocks (lm_Unlock flock);
  mret err.

Fixpoint rename_files (l : list string) (src dst : string) : go bc (option error) :=
  match l with
  | [] => mret None
  | f :: l =>
      err ← on_disk (disk_Rename f (strings_Replace1 f src dst));
      if bool_decide (err ≠ None) then mret err else rename_files l src dst
  end.

Definition RenameFile (options : RenameFileOptions) : go bc (option error) :=
  let src := RenameFile_Src options in
  let dst := RenameFile_Dst options in
  sflock ← on_flocks (lm_Get src);
  _ ← on_flocks (lm_Lock sflock);
  dflock ← on_flocks (lm_Get dst);
  _ ← on_flocks (lm_Lock dflock);
  err ← on_next (c_RenameFile next options);
  err ← (if bool_decide (err ≠ None) then mret err
         else
           let localSrcPath := filepath_Join [bc_tmpPath cfg; src] in
           let localDstPath := filepath_Join [bc_tmpPath cfg; dst] in
           '(files, err) ← on_disk (disk_Glob (localSrcPath +:+ "*"));
           if bool_decide (err = None) then rename_files files localSrcPath localDstPath else mret err);
  _ ← on_flocks (lm_Unlock dflock);
  _ ← on_flocks (lm_Unlock sflock);
  mret err.

(** os.RemoveAll of every entry of the directory. *)
Definition TempCacheCleanup : go bc (option error) :=
  if bool_decide (bc_tmpPath cfg = "") then mret None
  else
    dirents ← on_disk (disk_ReadDir (bc_tmpPath cfg));
    match dirents with
    | inr _ => mret (Some (Msg "failed to list directory"))
    | inl l =>
        _ ← go_range (λ e, _ ← on_disk (disk_RemoveAll (filepath_Join [bc_tmpPath cfg; e])); mret tt) l;
        mret None
    end.

(** *** Starting and stopping

    The workers are the [oracle]; Stop returns when all of them have. *)
Definition bc_Start : go bc (option error) :=
  if bool_decide (bc_tmpPath cfg ≠ "") then
    err ← on_disk tlru_Start;
    mret (if bool_decide (err ≠ None) then Some (Msg "failed to start  disk-policy for block-cache") else None)
  else mret None.

Definition bc_Stop : go bc (option error) :=
  _ ← interleave;
  _ ← on_tp Stop_close;
  if bool_decide (bc_tmpPath cfg ≠ "")
  then _ ← on_disk tlru_Stop; _ ← TempCacheCleanup; mret None
  else mret None.
End block_cache.

(** *** Configuration *)

(** A setting is [None] when the configuration does not have it. *)
Record BlockCacheOptions := mkBlockCacheOptions {
  BlockSize : option Q;
  MemSize : option Z;
  TmpPath : string;
  DiskSize : option Z;
  DiskTimeout : option Z;
  PrefetchCount : option Z;
  Workers : option Z;
  PrefetchOnOpen : bool
}.

Definition MB : Z := 1048576.

(** A block size in megabytes is an exact rational. *)
Definition conf_blockSize (conf : BlockCacheOptions) : Z :=
  match BlockSize conf with Some q => u64 (Qfloor (q * inject_Z MB)) | None => 16 * MB end.
Definition conf_memSize (conf : BlockCacheOptions) : Z :=
  match MemSize conf with Some m => u64 (m * MB) | None => 4192 * MB end.
Definition conf_prefetch (conf : BlockCacheOptions) : Z := default MIN_PREFETCH (PrefetchCount conf).
Definition conf_workers (conf : BlockCacheOptions) : Z := default 128 (Workers conf).

Section configure.
Context {M D N : Type} `{!Memory M} `{!BlockDisk D}.
Abbreviation bc := (BCState M D N).

(** The directory of the disk cache is made when it does not exist. *)
Definition make_tmp_dir (tmpPath : string) : go bc (option error) :=
  err ← on_disk (disk_Stat tmpPath);
  if os_IsNotExist err then on_disk (disk_Mkdir tmpPath) else mret None.

Definition Configure (env : OsEnv) (conf : BlockCacheOptions) : go bc (BCConfig + error) :=
  let blockSize := conf_blockSize conf in
  let memSize := conf_memSize conf in
  let diskSize := default 4192 (DiskSize conf) in
  let diskTimeout := default 120 (DiskTimeout conf) in
  let prefetch := conf_prefetch conf in
  let noPrefetch := match PrefetchCount conf with Some p => p =? 0 | None => false end in
  if match PrefetchCount conf with
     | Some p => negb (p =? 0) && (p <=? MIN_PREFETCH * 2)
     | None => false
     end
  then mret (inr (Msg "invalid prefetch count"))
  else
    let tmpPath := if bool_decide (TmpPath conf = "") then "" else ExpandPath env (TmpPath conf) in
    _ ← go_modify (set_hit false);
    err ← (if bool_decide (TmpPath conf = "") then mret None else make_tmp_dir tmpPath);
    match err with
    | Some e => mret (inr e)
    | None =>
        if memSize <? u64 (prefetch * blockSize)
        then mret (inr (Msg "memory limit too low for configured prefetch"))
        else
          ok ← on_pool (NewBlockPool blockSize memSize);
          if negb ok then mret (inr (Msg "fail to init block pool"))
          else
            match newThreadPool (conf_workers conf) true with
            | None => mret (inr (Msg "fail to init thread pool"))
            | Some t =>
                _ ← go_modify (set_tp t);
                err ← (if bool_decide (tmpPath ≠ "")
                       then on_disk (tlru_New (u32 (u64 (diskSize * MB) / blockSize)) diskTimeout)
                       else mret None);
                match err with
                | Some e => mret (inr e)
                | None => mret (inl (mkBCConfig blockSize tmpPath diskSize prefetch noPrefetch
                                       (PrefetchOnOpen conf)))
                end
            end
    end.
End configure.
