(* ===== verification/BlockCacheRead.v ===== *)
(** * Reading through the block cache

    A handle opened for reading, with downloads, prefetching, the reuse of
    blocks and the switch to random reads, under every schedule of the workers:
    ReadInBuffer always returns, and returns the bytes of the file. *)
From stdpp Require Import pretty.
From Stdlib Require Import Ascii QArith.
From S2P Require Import Prelude GoLib Common HandleMap Internal LockMap BlockPool ThreadPool BlockCache.
Open Scope Z_scope.

(** ** One block of the pool *)
Section cell.
Context {M : Type} `{!Memory M} `{!MemoryLaws M}.
Implicit Types (p : PoolState M) (b : ptr) (x : CacheBlock) (c : Chan).

(** The block and the contents of its channel. *)
Definition cell p b x c : Prop := p_blocks p !! b = Some x ∧ p_chans p !! b_state x = Some c.

(** The other blocks are as they were. *)
Definition agree p p' b : Prop := ∀ x, p_blocks p !! b = Some x →
  p_blocks p' !! b = Some x ∧ p_chans p' !! b_state x = p_chans p !! b_state x.
Definition frame p p' b : Prop := ∀ b', b' ≠ b → agree p p' b'.
Record focus (own : list ptr) p p' b : Prop := {
  fo_ok : pool_ok p' own;
  fo_keeps : keeps p p';
  fo_frame : frame p p' b
}.

Lemma agree_cell p p' b x c : agree p p' b → cell p b x c → cell p' b x c.
Proof. intros H [Hx Hc]. destruct (H _ Hx) as [? E]. split; [done|]. by rewrite E. Qed.

Lemma frame_trans p1 p2 p3 b : frame p1 p2 b → frame p2 p3 b → frame p1 p3 b.
Proof.
  intros H12 H23 b' Hb x Hx. destruct (H12 _ Hb _ Hx) as [Hx2 E12].
  destruct (H23 _ Hb _ Hx2) as [Hx3 E23]. split; [done|congruence].
Qed.

Lemma keeps_trans p1 p2 p3 : keeps p1 p2 → keeps p2 p3 → keeps p1 p3.
Proof. intros (?&?&?) (?&?&?). split; [|split]; congruence. Qed.

Lemma focus_refl own p b : pool_ok p own → focus own p p b.
Proof. intros H. split; [done|done|]. by intros b' _ x Hx. Qed.

Lemma focus_trans own p1 p2 p3 b : focus own p1 p2 b → focus own p2 p3 b → focus own p1 p3 b.
Proof. intros [? ? ?] [? ? ?]. split; [done|by eapply keeps_trans|by eapply frame_trans]. Qed.

(** Ownership does not depend on the order of the owned blocks. *)
Lemma pool_ok_sub p own own' :
  pool_ok p own → NoDup own' → (∀ b, b ∈ own' → b ∈ own) → pool_ok p own'.
Proof.
  intros [H1 H2 H3 H4 H5 H6 H7] Hn Hs. split; [| |done..].
  - apply NoDup_app in H1 as (? & Hd & _). apply NoDup_app. split; [done|]. split; [|done].
    intros b Hb Ho. apply (Hd b Hb). auto.
  - intros b. rewrite elem_of_app. intros [?|?]; apply H2; apply elem_of_app; auto.
Qed.

Lemma pool_ok_perm p own own' : own ≡ₚ own' → pool_ok p own → pool_ok p own'.
Proof.
  intros Hp Hok. apply (pool_ok_sub p own); [done| |].
  - rewrite <-Hp. by pose proof (pk_nodup _ _ Hok) as (_ & _ & ?)%NoDup_app.
  - intros b. by rewrite Hp.
Qed.

Lemma pool_ok_live p own b :
  pool_ok p own → b ∈ own → ∃ x d, p_blocks p !! b = Some x ∧ b_data x = Some d ∧
    Z.of_nat (length d) = p_blockSize p.
Proof. intros Hok Hb. apply (pk_live _ _ Hok). apply elem_of_app. by right. Qed.

(** The channel of another block is another channel. *)
Lemma cell_other p own b x c b' x' :
  pool_ok p own → cell p b x c → b' ≠ b → p_blocks p !! b' = Some x' → b_state x' ≠ b_state x.
Proof.
  intros Hok [Hx Hc] Hne Hx' E. apply Hne, eq_sym. eapply (pk_chans _ _ Hok); [done|done|congruence|].
  intros En. rewrite En in Hc. destruct (pk_nil _ _ Hok). congruence.
Qed.

(** Stores to the fields of the block. *)
Lemma wp_cell_upd own p b x c f (Q : unit → PoolState M → Prop) :
  pool_ok p own → cell p b x c → b_state (f x) = b_state x →
  (∀ d, b_data x = Some d → ∃ d', b_data (f x) = Some d' ∧ length d' = length d) →
  (∀ p', focus own p p' b → cell p' b (f x) c → Q tt p') → wp (upd_cblock b f) Q p.
Proof.
  intros Hok [Hx Hc] Hs Hd HQ. eapply wp_upd_cblock; [done|]. apply HQ.
  - split; [by eapply pool_ok_upd_len|done|].
    intros b' Hne x' Hx'. simpl. by rewrite lookup_insert_ne by done.
  - split; simpl; [apply lookup_insert_eq|by rewrite Hs].
Qed.

(** A store to its channel. *)
Lemma cell_set_chan own p b x c c' :
  pool_ok p own → cell p b x c →
  let p' := set_chans (<[b_state x := c']> (p_chans p)) p in
  focus own p p' b ∧ cell p' b x c'.
Proof.
  intros Hok Hcell p'. destruct (Hcell) as [Hx Hc]. split; [|split; simpl; [done|apply lookup_insert_eq]].
  split; [by eapply pool_ok_chan|done|]. intros b' Hne x' Hx'. simpl. split; [done|].
  apply lookup_insert_ne. intros E. by eapply cell_other.
Qed.

Lemma wp_cell_Ready own p b x vs (Q : unit → PoolState M → Prop) :
  pool_ok p own → cell p b x (mkChan vs false) →
  (∀ p', focus own p p' b →
    cell p' b x (mkChan (if (length vs <? 1)%nat then vs ++ [1] else vs) false) → Q tt p') →
  wp (Ready b) Q p.
Proof.
  intros Hok Hcell HQ. destruct (Hcell) as [Hx Hc]. unfold Ready. apply wp_bind.
  unfold load_cblock, wp at 1. rewrite Hx. simpl. apply wp_bind. unfold go_get, wp at 1. rewrite Hc. simpl.
  destruct (length vs <? 1)%nat eqn:E.
  - destruct (cell_set_chan own p b x _ (mkChan (vs ++ [1]) false) Hok Hcell). by apply HQ.
  - apply HQ; [by apply focus_refl|done].
Qed.

Lemma wp_cell_Unblock own p b x vs (Q : unit → PoolState M → Prop) :
  pool_ok p own → cell p b x (mkChan vs false) →
  (∀ p', focus own p p' b → cell p' b x (mkChan vs true) → Q tt p') → wp (Unblock b) Q p.
Proof.
  intros Hok Hcell HQ. destruct (Hcell) as [Hx Hc]. unfold Unblock. apply wp_bind.
  unfold load_cblock, wp at 1. rewrite Hx. simpl. apply wp_bind. unfold go_get, wp at 1. rewrite Hc. simpl.
  destruct (cell_set_chan own p b x _ (mkChan vs true) Hok Hcell). by apply HQ.
Qed.

Lemma wp_cell_wait own p b x v vs cl (Q : Z → PoolState M → Prop) :
  pool_ok p own → cell p b x (mkChan (v :: vs) cl) →
  (∀ p', focus own p p' b → cell p' b x (mkChan vs cl) → Q v p') → wp (wait_state b) Q p.
Proof.
  intros Hok Hcell HQ. destruct (Hcell) as [Hx Hc]. unfold wait_state. apply wp_bind.
  unfold load_cblock, wp at 1. rewrite Hx. simpl. apply wp_bind. unfold go_get, wp at 1. rewrite Hc. simpl.
  destruct (cell_set_chan own p b x _ (mkChan vs cl) Hok Hcell). by apply HQ.
Qed.

Lemma wp_cell_wait_closed p b x (Q : Z → PoolState M → Prop) :
  cell p b x (mkChan [] true) → Q 0 p → wp (wait_state b) Q p.
Proof.
  intros [Hx Hc] HQ. unfold wait_state. apply wp_bind. unfold load_cblock, wp at 1. rewrite Hx. simpl.
  apply wp_bind. unfold go_get, wp at 1. by rewrite Hc.
Qed.

(** The block as ReUse leaves it. *)
Definition reused (st : ptr) x : CacheBlock := mkCacheBlock 0 (-1) 0 st 1 (b_data x) (b_node x).

Lemma wp_ReUse_frame own p b x (Q : unit → PoolState M → Prop) :
  pool_ok p own → p_blocks p !! b = Some x →
  (∀ p' st, focus own p p' b → cell p' b (reused st x) (mkChan [] false) → Q tt p') → wp (ReUse b) Q p.
Proof.
  intros Hok Hx HQ. unfold ReUse. apply wp_bind. eapply wp_upd_cblock; [done|].
  set (y := mkCacheBlock _ _ _ _ _ _ _). pose proof (pool_ok_upd p own b x y Hok Hx (λ _, eq_refl) eq_refl) as Hok1.
  set (p1 := set_blocks _ p) in *. assert (Hy : p_blocks p1 !! b = Some y) by apply lookup_insert_eq.
  apply wp_bind. unfold new_chan, wp at 1. eapply wp_upd_cblock; [exact Hy|].
  set (c := fresh_ptr (p_chans p1)). apply (HQ _ c).
  - split; [exact (pool_ok_new_chan p1 own b y Hok1 Hy)|done|].
    intros b' Hne x' Hx'. simpl. rewrite !lookup_insert_ne by done. split; [done|].
    apply lookup_insert_ne. intros E. destruct (pk_chan _ _ Hok _ _ Hx') as [En|[ch Hs]].
    + by apply (fresh_ptr_nil (p_chans p)); rewrite <-En.
    + assert (Hn : p_chans p !! c = None) by apply fresh_ptr_lookup. rewrite E in Hn. congruence.
  - split; simpl; apply lookup_insert_eq.
Qed.

(** What a block taken from the pool is. *)
Record got (own : list ptr) p p' b : Prop := {
  got_new : b ∉ own;
  got_ok : pool_ok p' (b :: own);
  got_size : p_blockSize p' = p_blockSize p;
  got_frame : frame p p' b;
  got_cell : ∃ x st, cell p' b (reused st x) (mkChan [] false)
}.

(** The frames of the operations that change the free list. *)
Lemma frame_set_free p l b : frame p (set_free l p) b.
Proof. by intros b' _ x Hx. Qed.

Lemma got_reuse own p p1 b x (Q : unit → PoolState M → Prop) :
  (b ∉ own) → pool_ok p1 (b :: own) → p_blockSize p1 = p_blockSize p → frame p p1 b →
  p_blocks p1 !! b = Some x → (∀ p', got own p p' b → Q tt p') → wp (ReUse b) Q p1.
Proof.
  intros Hni Hok Hs Hf Hx HQ. eapply wp_ReUse_frame; [done|done|].
  intros p' st [Hok' (_ & _ & Hs') Hf'] Hc. apply HQ.
  split; [done|done|congruence|by eapply frame_trans|eauto].
Qed.

Lemma wp_take_free own p b rest (Q : ptr → PoolState M → Prop) :
  pool_ok p own → blocksCh p = b :: rest → (∀ p', got own p p' b → Q b p') →
  wp (_ ← go_modify (set_free rest); _ ← ReUse b; mret b) Q p.
Proof.
  intros Hok E HQ. apply wp_bind. unfold go_modify, wp at 1. apply wp_bind.
  pose proof (pool_ok_take _ _ _ _ Hok E) as Hok1.
  destruct (pk_live _ _ Hok b) as (x & d & Hx & _); [rewrite E; set_solver|].
  eapply (got_reuse own p); [|done|done|apply frame_set_free|done|].
  - pose proof (pk_nodup _ _ Hok) as Hn. rewrite E in Hn. simpl in Hn.
    apply NoDup_cons in Hn as [Hn _]. set_solver.
  - intros p' Hg. by apply HQ.
Qed.

Lemma wp_TryGet_got own p (Q : ptr → PoolState M → Prop) :
  pool_ok p own → Q nil_ptr p → (∀ b p', b ≠ nil_ptr → got own p p' b → Q b p') → wp TryGet Q p.
Proof.
  intros Hok H0 HQ. unfold TryGet. apply wp_bind. unfold go_get, wp at 1.
  destruct (blocksCh p) as [|b rest] eqn:E; [by apply wp_ret|].
  eapply wp_take_free; [done|done|]. intros p' Hg. apply HQ; [|done].
  apply (pk_not_nil _ _ _ Hok). rewrite E. set_solver.
Qed.

Lemma agree_AllocateBlock own p :
  pool_ok p own →
  wp (AllocateBlock (p_blockSize p)) (λ r p', ∀ b', (r.2 = None → b' ≠ r.1) → agree p p' b') p.
Proof.
  intros Hok. unfold AllocateBlock. destruct (_ =? 0); [apply wp_ret; by intros b' _ x Hx|].
  apply wp_bind, wp_zoom. eapply wp_mono; [apply mmap_returns|]. intros [d|e] m _.
  - apply wp_bind. unfold new_cblock, wp at 1. apply wp_ret. intros b' Hb' x Hx. simpl in *.
    rewrite lookup_insert_ne; [done|]. intros E. by apply Hb'.
  - apply wp_ret. by intros b' _ x Hx.
Qed.

Lemma wp_MustGet_got own p (Q : ptr → PoolState M → Prop) :
  pool_ok p own →
  (∀ p', pool_ok p' own → p_blockSize p' = p_blockSize p → (∀ b', agree p p' b') → Q nil_ptr p') →
  (∀ b p', b ≠ nil_ptr → got own p p' b → Q b p') → wp MustGet Q p.
Proof.
  intros Hok H0 HQ. unfold MustGet. apply wp_bind. unfold go_get, wp at 1.
  destruct (blocksCh p) as [|b rest] eqn:E.
  - apply wp_bind. eapply wp_mono; [apply wp_and; [by apply (wp_AllocateBlock p own)|by apply (agree_AllocateBlock own)]|].
    intros [b err] p1 [(Hf & Hm & Hs & H1) Ha]. simpl in Ha. destruct (decide (err = None)) as [->|Hne].
    + destruct H1 as [Hni Hok1]. destruct (pk_live _ _ Hok1 b) as (x & d & Hx & _); [set_solver|].
      apply wp_bind. eapply (got_reuse own p); [set_solver|done|done| |done|].
      * intros b' Hb'. by apply Ha.
      * intros p' Hg. apply wp_ret. apply HQ; [|done]. apply (pk_not_nil _ _ _ Hok1). set_solver.
    + destruct err; [|done]. apply wp_ret. apply H0; [done|done|]. intros b'. by apply Ha.
  - eapply wp_take_free; [done|done|]. intros p' Hg. apply HQ; [|done].
    apply (pk_not_nil _ _ _ Hok). rewrite E. set_solver.
Qed.

Lemma wp_Release_frame own p b (Q : unit → PoolState M → Prop) :
  pool_ok p own → b ∈ own →
  (∀ p', pool_ok p' (list_difference own [b]) → p_blockSize p' = p_blockSize p → frame p p' b → Q tt p') →
  wp (Release b) Q p.
Proof.
  intros Hok Hb HQ. eapply wp_mono; [apply wp_and; [by apply (wp_Release p own)|]|].
  - instantiate (1 := λ _ p', frame p p' b). unfold Release. apply wp_bind. unfold go_get, wp at 1.
    destruct (_ <? _); [apply frame_set_free|].
    destruct (pool_ok_live _ _ _ Hok Hb) as (x & d & Hx & Hd & _).
    apply wp_bind. eapply wp_mono; [by eapply wp_Block_Delete|].
    intros e p' (_ & _ & _ & Hc & Hbl). apply wp_ret. intros b' Hne x' Hx'.
    rewrite Hbl, Hc, lookup_insert_ne by done. done.
  - intros [] p' [([_ Hs] & Hok' & _) Hf]. by apply HQ.
Qed.
End cell.

(** ** Keys of the handle's map *)
Lemma pretty_N_go_first x s c t :
  (∀ k, pretty_N_char k ≠ c) → s ≠ String c t → pretty_N_go x s ≠ String c t.
Proof.
  intros Hc. revert s. induction (N.lt_wf_0 x) as [x _ IH]; intros s Hs.
  assert (x = 0 ∨ 0 < x)%N as [->|?] by lia; [by rewrite pretty_N_go_0|].
  rewrite pretty_N_go_step by done. apply IH; [by apply N.div_lt|]. intros [= E _]. by eapply Hc.
Qed.

Lemma block_key_first i c t :
  (∀ k, pretty_N_char k ≠ c) → c ≠ "-"%char → c ≠ "0"%char → block_key i ≠ String c t.
Proof.
  intros Hc Hd H0. unfold block_key, pretty, pretty_Z. destruct i as [|x|x]; [congruence| |intros [= E _]; done].
  unfold pretty, pretty_positive, pretty, pretty_N. rewrite decide_False by done.
  by apply pretty_N_go_first.
Qed.

Lemma block_key_hash i : block_key i ≠ "#".
Proof. apply block_key_first; [|done..]. intros k. unfold pretty_N_char. by repeat case_match. Qed.
Lemma block_key_list i : block_key i ≠ "blockList".
Proof. apply block_key_first; [|done..]. intros k. unfold pretty_N_char. by repeat case_match. Qed.
#[export] Instance block_key_inj : Inj (=) (=) block_key.
Proof. apply pretty_Z_inj. Qed.

(** ** The cache of one open file *)

(** What a block is for: nothing yet; [Open i]: it has block [i] of the file and
    every reader may read it; [Lined i] and [Pending i]: block [i] is to be
    downloaded and its work item is not, or is, in a queue; [Loaded i]: it was
    downloaded and no reader has seen it; [Taken i]: its first reader has. *)
Inductive status := Fresh | Open (i : Z) | Lined (i : Z) | Pending (i : Z) | Loaded (i : Z) | Taken (i : Z).
#[export] Instance status_eq_dec : EqDecision status.
Proof. solve_decision. Defined.
Definition idx (s : status) : option Z :=
  match s with
  | Fresh => None
  | Open i | Lined i | Pending i | Loaded i | Taken i => Some i
  end.
Definition is_cooked (s : status) : bool := match s with Fresh | Open _ => true | _ => false end.
Definition has_data (s : status) : bool :=
  match s with Open _ | Loaded _ | Taken _ => true | _ => false end.
Definition chan_of (s : status) : Chan :=
  match s with
  | Open _ => mkChan [] true
  | Loaded _ => mkChan [1] false
  | _ => mkChan [] false
  end.

Section file.
Context {M : Type} `{!Memory M} `{!MemoryLaws M} (bs : Z) (content : list byte).
Implicit Types (p : PoolState M) (b : ptr) (σ : gmap ptr status) (q : list ptr).
Abbreviation sz := (Z.of_nat (length content)).

(** The buffer has the bytes of block [i], as far as the file goes. *)
Definition right (d : list byte) (i : Z) : Prop := ∀ j : nat,
  Z.of_nat j < bs → i * bs + Z.of_nat j < sz → d !! j = content !! Z.to_nat (i * bs + Z.of_nat j).

(** The block [b] is as its status says. *)
Definition blk p b (s : status) : Prop := ∃ x d,
  cell p b x (chan_of s) ∧ b_data x = Some d ∧ (b_flags x = 1 ∨ b_flags x = 3) ∧
  match idx s with
  | None => b_id x = -1
  | Some i => b_id x = i ∧ b_offset x = i * bs ∧ 0 ≤ i ∧ i * bs < sz ∧ (has_data s = true → right d i)
  end.

Abbreviation elems := (list (nat * ptr)).
Definition own_of (ck cg : elems) (fl : list ptr) : list ptr := ck.*2 ++ cg.*2 ++ fl.

(** The lists Cooked and Cooking, the number of elements made, the map of the
    handle, the blocks of the queued items, and the blocks in no list. *)
Record G p (ck cg : elems) (ne : nat) (vals : gmap string hvalue) q σ (fl : list ptr) : Prop := {
  g_pool : pool_ok p (own_of ck cg fl);
  g_size : p_blockSize p = bs;
  g_elems : NoDup (ck.*1 ++ cg.*1);
  g_bound : ∀ e, e ∈ ck.*1 ++ cg.*1 → (e < ne)%nat;
  g_node : ∀ e b, (e, b) ∈ ck ++ cg → ∃ x, p_blocks p !! b = Some x ∧ b_node x = Some e;
  g_dom : ∀ b, is_Some (σ !! b) ↔ b ∈ own_of ck cg fl;
  g_blk : ∀ b s, σ !! b = Some s → blk p b s;
  g_ck : ∀ b s, b ∈ ck.*2 → σ !! b = Some s → is_cooked s = true;
  g_cg : ∀ b s, b ∈ cg.*2 → σ !! b = Some s → is_cooked s = false;
  g_queue : NoDup q ∧ ∀ b, b ∈ q ↔ ∃ i, σ !! b = Some (Pending i);
  g_vals : ∀ i v, 0 ≤ i → vals !! block_key i = Some v ↔
    ∃ b s, v = VBlock b ∧ σ !! b = Some s ∧ idx s = Some i;
  g_next : ∃ k, vals !! "#" = Some (VUint64 k) ∧ 0 ≤ k ∧ k * bs < sz + bs
}.

Lemma G_own_nodup p ck cg ne vals q σ fl : G p ck cg ne vals q σ fl → NoDup (own_of ck cg fl).
Proof. intros HG. by pose proof (pk_nodup _ _ (g_pool _ _ _ _ _ _ _ _ HG)) as (_ & _ & ?)%NoDup_app. Qed.

Lemma G_status p ck cg ne vals q σ fl b :
  G p ck cg ne vals q σ fl → b ∈ own_of ck cg fl → ∃ s, σ !! b = Some s ∧ blk p b s.
Proof.
  intros HG Hb. apply (g_dom _ _ _ _ _ _ _ _ HG) in Hb as [s Hs]. exists s. split; [done|].
  by apply (g_blk _ _ _ _ _ _ _ _ HG).
Qed.

Lemma blk_agree p p' b s : agree p p' b → blk p b s → blk p' b s.
Proof. intros Ha (x & d & Hc & H). exists x, d. split; [by eapply agree_cell|done]. Qed.

Lemma elem_of_snd (l : elems) e b : (e, b) ∈ l → b ∈ l.*2.
Proof. intros H. apply list_elem_of_fmap. by exists (e, b). Qed.

(** Another status for one block, its buffer or channel changed with it. *)
Lemma G_change p p' ck cg ne vals q q' σ fl b s s' :
  G p ck cg ne vals q σ fl → σ !! b = Some s → focus (own_of ck cg fl) p p' b →
  blk p' b s' →
  (b ∈ ck.*2 ++ cg.*2 → is_cooked s' = is_cooked s ∧
    ∀ x, p_blocks p !! b = Some x → ∃ x', p_blocks p' !! b = Some x' ∧ b_node x' = b_node x) →
  idx s' = idx s →
  NoDup q' → (∀ b', b' ∈ q' ↔ if decide (b' = b) then ∃ i, s' = Pending i else b' ∈ q) →
  G p' ck cg ne vals q' (<[b := s']> σ) fl.
Proof.
  intros HG Hs [Hok (_ & _ & Hsz) Hf] Hb Hck Hidx Hnq Hq.
  destruct HG as [H1 H2 H3 H4 H5 H6 H7 H8 H9 [H10 H11] H12 H13]. split; [done|congruence|done|done| | | | | | | |done].
  - intros e b' Hin. destruct (H5 _ _ Hin) as (x & Hx & Hn). destruct (decide (b' = b)) as [->|Hne].
    + assert (Hl : b ∈ ck.*2 ++ cg.*2) by (rewrite <-fmap_app; by eapply elem_of_snd).
      destruct (proj2 (Hck Hl) _ Hx) as (x' & ? & ?). exists x'. split; [done|congruence].
    + exists x. split; [by apply (Hf _ Hne _ Hx)|done].
  - intros b'. rewrite <-H6. destruct (decide (b' = b)) as [->|];
      [rewrite lookup_insert_eq, Hs; split; eauto|by rewrite lookup_insert_ne].
  - intros b' s1. destruct (decide (b' = b)) as [->|]; [rewrite lookup_insert_eq|rewrite lookup_insert_ne by done].
    + by intros [= <-].
    + intros Hs1. eapply blk_agree; [by apply Hf|]. by apply H7.
  - intros b' s1 Hin. destruct (decide (b' = b)) as [->|]; [rewrite lookup_insert_eq|rewrite lookup_insert_ne by done; by apply H8].
    intros [= <-]. rewrite (proj1 (Hck ltac:(set_solver))). by apply (H8 b).
  - intros b' s1 Hin. destruct (decide (b' = b)) as [->|]; [rewrite lookup_insert_eq|rewrite lookup_insert_ne by done; by apply H9].
    intros [= <-]. rewrite (proj1 (Hck ltac:(set_solver))). by apply (H9 b).
  - split; [done|]. intros b'. rewrite Hq. case_decide as Hd; [subst; rewrite lookup_insert_eq|rewrite lookup_insert_ne by done; apply H11].
    split; [intros [i ->]; eauto|intros [i [= ->]]; eauto].
  - intros i v Hi. rewrite H12 by done. split.
    + intros (b' & s1 & -> & Hs1 & Hi1). destruct (decide (b' = b)) as [->|].
      * exists b, s'. rewrite lookup_insert_eq. split; [done|]. split; [done|]. congruence.
      * exists b', s1. by rewrite lookup_insert_ne.
    + intros (b' & s1 & -> & Hs1 & Hi1). destruct (decide (b' = b)) as [->|].
      * rewrite lookup_insert_eq in Hs1. injection Hs1 as <-. exists b, s. split; [done|]. split; [done|]. congruence.
      * rewrite lookup_insert_ne in Hs1 by done. by exists b', s1.
Qed.

(** *** Blocks moved between the lists *)
Lemma own_ck (l1 l2 cg : elems) fl e b :
  own_of (l1 ++ (e, b) :: l2) cg fl ≡ₚ b :: own_of (l1 ++ l2) cg fl.
Proof. unfold own_of. rewrite !fmap_app. simpl. by rewrite <-Permutation_middle. Qed.
Lemma own_ck_front (ck cg : elems) fl e b : own_of ((e, b) :: ck) cg fl ≡ₚ b :: own_of ck cg fl.
Proof. apply (own_ck []). Qed.
Lemma own_cg (ck l1 l2 : elems) fl e b :
  own_of ck (l1 ++ (e, b) :: l2) fl ≡ₚ b :: own_of ck (l1 ++ l2) fl.
Proof. unfold own_of. rewrite !fmap_app. simpl.
  rewrite <-!(assoc_L (++)). simpl. rewrite (assoc_L (++) ck.*2), <-Permutation_middle. by rewrite <-(assoc_L (++)). Qed.
Lemma own_fl (ck cg : elems) fl b : own_of ck cg (b :: fl) ≡ₚ b :: own_of ck cg fl.
Proof. unfold own_of. by rewrite !(assoc_L (++)), <-Permutation_middle. Qed.

Lemma filter_unlink (l1 l2 : elems) e b :
  NoDup (l1 ++ (e, b) :: l2).*1 → filter (λ y : nat * ptr, y.1 ≠ e) (l1 ++ (e, b) :: l2) = l1 ++ l2.
Proof.
  rewrite fmap_app. simpl. intros (H1 & H2 & [H3 H4]%NoDup_cons)%NoDup_app.
  rewrite filter_app, filter_cons_False by (simpl; tauto).
  assert (Hall : ∀ l : elems, e ∉ l.*1 → filter (λ y : nat * ptr, y.1 ≠ e) l = l).
  { induction l as [|[e' b'] l IH]; [done|]. simpl. intros [Hne Hl]%not_elem_of_cons.
    rewrite filter_cons_True by (simpl; congruence). by rewrite IH. }
  rewrite !Hall; [done|done|]. intros Hin. apply (H2 _ Hin). set_solver.
Qed.

(** Only the lists change. *)
Lemma G_lists p ck cg ne vals q σ fl ck' cg' fl' :
  G p ck cg ne vals q σ fl → own_of ck cg fl ≡ₚ own_of ck' cg' fl' →
  NoDup (ck'.*1 ++ cg'.*1) → (∀ x, x ∈ ck' → x ∈ ck) → (∀ x, x ∈ cg' → x ∈ cg) →
  G p ck' cg' ne vals q σ fl'.
Proof.
  intros [H1 H2 H3 H4 H5 H6 H7 H8 H9 H10 H11 H12] Hp Hnd Hck Hcg.
  assert (Hsub : ∀ l l' : elems, (∀ x, x ∈ l' → x ∈ l) → ∀ b, b ∈ l'.*2 → b ∈ l.*2).
  { intros l l' Hl b (x & -> & Hx)%list_elem_of_fmap. apply list_elem_of_fmap. eauto. }
  split; [by eapply pool_ok_perm|done|done| | | |done| | |done|done|done].
  - intros e. rewrite elem_of_app, !list_elem_of_fmap. intros [(x & -> & Hx)|(x & -> & Hx)]; apply H4;
      rewrite elem_of_app, !list_elem_of_fmap; [left|right]; eauto.
  - intros e b. rewrite elem_of_app. intros [?|?]; apply H5; apply elem_of_app; auto.
  - intros b. by rewrite H6, Hp.
  - intros b s Hb. apply H8. by eapply Hsub.
  - intros b s Hb. apply H9. by eapply Hsub.
Qed.

Lemma G_unlink_ck p l1 l2 e b cg ne vals q σ fl :
  G p (l1 ++ (e, b) :: l2) cg ne vals q σ fl → G p (l1 ++ l2) cg ne vals q σ (b :: fl).
Proof.
  intros HG. eapply G_lists; [done|by rewrite own_ck, own_fl| |set_solver|done].
  pose proof (g_elems _ _ _ _ _ _ _ _ HG) as Hn. rewrite fmap_app in *. simpl in Hn.
  rewrite <-(assoc_L (++)) in *. simpl in Hn. rewrite <-Permutation_middle in Hn. by apply NoDup_cons in Hn as [_ ?].
Qed.

Lemma G_unlink_cg p l1 l2 e b ck ne vals q σ fl :
  G p ck (l1 ++ (e, b) :: l2) ne vals q σ fl → G p ck (l1 ++ l2) ne vals q σ (b :: fl).
Proof.
  intros HG. eapply G_lists; [done|by rewrite own_cg, own_fl| |done|set_solver].
  pose proof (g_elems _ _ _ _ _ _ _ _ HG) as Hn. rewrite fmap_app in *. simpl in Hn.
  rewrite (assoc_L (++)) in *. rewrite <-Permutation_middle in Hn. by apply NoDup_cons in Hn as [_ ?].
Qed.

(** A block outside of the lists enters one, in which its node is the next
    element. *)
Lemma G_enter p p' ck cg ck' cg' ne vals q σ fl b s :
  G p ck cg ne vals q σ (b :: fl) → σ !! b = Some s →
  focus (own_of ck cg (b :: fl)) p p' b → blk p' b s →
  (∃ x, p_blocks p' !! b = Some x ∧ b_node x = Some ne) →
  own_of ck' cg' fl ≡ₚ b :: own_of ck cg fl → ck'.*1 ++ cg'.*1 ≡ₚ ne :: ck.*1 ++ cg.*1 →
  (∀ x, x ∈ ck' ++ cg' → x = (ne, b) ∨ x ∈ ck ++ cg) →
  (∀ b', b' ∈ ck'.*2 → b' ∈ ck.*2 ∨ b' = b ∧ is_cooked s = true) →
  (∀ b', b' ∈ cg'.*2 → b' ∈ cg.*2 ∨ b' = b ∧ is_cooked s = false) →
  G p' ck' cg' (S ne) vals q σ fl.
Proof.
  intros HG Hs [Hok (_ & _ & Hsz) Hf] Hb (xb & Hxb & Hnb) Ho He Hel Hck Hcg.
  destruct HG as [H1 H2 H3 H4 H5 H6 H7 H8 H9 H10 H11 H12]. split; [|congruence| | | | | | | |done|done|done].
  - eapply pool_ok_perm; [|exact Hok]. by rewrite own_fl, Ho.
  - rewrite He. apply NoDup_cons. split; [|done]. intros Hin%H4. lia.
  - intros e. rewrite He, elem_of_cons. intros [->|Hin%H4]; lia.
  - intros e b' [[= -> ->]|Hin]%Hel; [eauto|]. destruct (H5 _ _ Hin) as (x & Hx & Hn).
    destruct (decide (b' = b)) as [->|Hne].
    + exfalso. apply (pk_nodup _ _) in H1 as (_ & _ & Hnd)%NoDup_app.
      rewrite own_fl in Hnd. apply NoDup_cons in Hnd as [Hnd _]. apply Hnd. unfold own_of.
      rewrite (assoc_L (++)), <-fmap_app. apply elem_of_app. left. by eapply elem_of_snd.
    + exists x. split; [by apply (Hf _ Hne _ Hx)|done].
  - intros b'. by rewrite H6, own_fl, Ho.
  - intros b' s1 Hs1. destruct (decide (b' = b)) as [->|Hne]; [by simplify_eq|].
    eapply blk_agree; [by apply Hf|]. by apply H7.
  - intros b' s1 [Hin|[-> ?]]%Hck ?; [by eapply H8|by simplify_eq].
  - intros b' s1 [Hin|[-> ?]]%Hcg ?; [by eapply H9|by simplify_eq].
Qed.

Lemma G_enter_ck p p' l1 l2 cg ne vals q σ fl b s :
  G p (l1 ++ l2) cg ne vals q σ (b :: fl) → σ !! b = Some s →
  focus (own_of (l1 ++ l2) cg (b :: fl)) p p' b → blk p' b s →
  (∃ x, p_blocks p' !! b = Some x ∧ b_node x = Some ne) → is_cooked s = true →
  G p' (l1 ++ (ne, b) :: l2) cg (S ne) vals q σ fl.
Proof.
  intros HG Hs Hf Hb Hn Hc. eapply G_enter; [done|done|done|done|done|by rewrite own_ck| |set_solver| |by left].
  - rewrite !fmap_app. simpl. rewrite <-!(assoc_L (++)). simpl. by rewrite <-Permutation_middle.
  - intros b'. rewrite !fmap_app. simpl. rewrite !elem_of_app, elem_of_cons. naive_solver.
Qed.

Lemma G_enter_cg p p' l1 l2 ck ne vals q σ fl b s :
  G p ck (l1 ++ l2) ne vals q σ (b :: fl) → σ !! b = Some s →
  focus (own_of ck (l1 ++ l2) (b :: fl)) p p' b → blk p' b s →
  (∃ x, p_blocks p' !! b = Some x ∧ b_node x = Some ne) → is_cooked s = false →
  G p' ck (l1 ++ (ne, b) :: l2) (S ne) vals q σ fl.
Proof.
  intros HG Hs Hf Hb Hn Hc. eapply G_enter; [done|done|done|done|done|by rewrite own_cg| |set_solver|by left|].
  - rewrite !fmap_app. simpl. rewrite !(assoc_L (++)). by rewrite <-Permutation_middle.
  - intros b'. rewrite !fmap_app. simpl. rewrite !elem_of_app, elem_of_cons. naive_solver.
Qed.

(** A block comes from the pool. *)
Lemma G_get p p' ck cg ne vals q σ fl b :
  G p ck cg ne vals q σ fl → got (own_of ck cg fl) p p' b →
  G p' ck cg ne vals q (<[b := Fresh]> σ) (b :: fl).
Proof.
  intros HG [Hni Hok Hsz Hf (x & st & Hc)].
  destruct HG as [H1 H2 H3 H4 H5 H6 H7 H8 H9 [H10 H11] H12 H13].
  assert (Hσ : σ !! b = None). { apply eq_None_not_Some. by rewrite H6. }
  assert (Hneq : ∀ b' s, σ !! b' = Some s → b' ≠ b) by (intros; congruence).
  split; [|congruence|done|done| | | | | | | |done].
  - eapply pool_ok_perm; [|exact Hok]. by rewrite own_fl.
  - intros e b' Hin. destruct (H5 _ _ Hin) as (x' & Hx' & Hn). exists x'. split; [|done].
    apply (Hf b'); [|done]. intros ->. apply Hni. unfold own_of. rewrite (assoc_L (++)), <-fmap_app.
    apply elem_of_app. left. by eapply elem_of_snd.
  - intros b'. rewrite own_fl, elem_of_cons, <-H6. destruct (decide (b' = b)) as [->|];
      [rewrite lookup_insert_eq; split; eauto|rewrite lookup_insert_ne by done; naive_solver].
  - intros b' s. destruct (decide (b' = b)) as [->|]; [rewrite lookup_insert_eq|rewrite lookup_insert_ne by done].
    + intros [= <-]. destruct (pool_ok_live _ _ b Hok) as (x' & d & Hx' & Hd & _); [set_solver|].
      destruct Hc as [Hx Hch]. rewrite Hx in Hx'. injection Hx' as <-. exists (reused st x), d.
      split; [done|]. split; [done|]. split; [by left|done].
    + intros Hs. eapply blk_agree; [by apply Hf|by apply H7].
  - intros b' s Hin. destruct (decide (b' = b)) as [->|]; [rewrite lookup_insert_eq|rewrite lookup_insert_ne by done; by apply H8].
    by intros [= <-].
  - intros b' s Hin. rewrite lookup_insert_ne; [by apply H9|]. intros <-. apply Hni. unfold own_of. set_solver.
  - split; [done|]. intros b'. rewrite H11. destruct (decide (b' = b)) as [->|];
      [rewrite lookup_insert_eq, Hσ; naive_solver|by rewrite lookup_insert_ne].
  - intros i v Hi. rewrite H12 by done. split; intros (b' & s & -> & Hs & Hi'); exists b', s.
    + rewrite lookup_insert_ne; [done|]. by eapply not_eq_sym, Hneq.
    + destruct (decide (b' = b)) as [->|]; [rewrite lookup_insert_eq in Hs; by simplify_eq|].
      by rewrite lookup_insert_ne in Hs.
Qed.

(** *** The handle's map *)

(** A block outside of the lists gets another status, and the map follows. *)
Lemma G_settle p p' ck cg ne vals vals' q σ fl b s s' :
  G p ck cg ne vals q σ (b :: fl) → σ !! b = Some s → focus (own_of ck cg (b :: fl)) p p' b →
  blk p' b s' → (∀ i, s ≠ Pending i) → (∀ i, s' ≠ Pending i) →
  (∀ i v, 0 ≤ i → vals' !! block_key i = Some v ↔
    (v = VBlock b ∧ idx s' = Some i) ∨ (vals !! block_key i = Some v ∧ idx s ≠ Some i)) →
  (∃ k, vals' !! "#" = Some (VUint64 k) ∧ 0 ≤ k ∧ k * bs < sz + bs) →
  (∀ b' s1 i, σ !! b' = Some s1 → idx s1 = Some i → idx s' = Some i → idx s = Some i) →
  G p' ck cg ne vals' q (<[b := s']> σ) (b :: fl).
Proof.
  intros HG Hs [Hok (_ & _ & Hsz) Hf] Hb Hnp Hnp' Hv Hk Hu.
  pose proof (G_own_nodup _ _ _ _ _ _ _ _ HG) as Hnd. rewrite own_fl in Hnd. apply NoDup_cons in Hnd as [Hnd _].
  assert (Hout : b ∉ ck.*2 ++ cg.*2) by (unfold own_of in Hnd; set_solver).
  destruct HG as [H1 H2 H3 H4 H5 H6 H7 H8 H9 [H10 H11] H12 H13].
  split; [done|congruence|done|done| | | | | | | |done].
  - intros e b' Hin. destruct (H5 _ _ Hin) as (x & Hx & Hn). exists x. split; [|done].
    apply (Hf b'); [|done]. intros ->. apply Hout. rewrite <-fmap_app. by eapply elem_of_snd.
  - intros b'. rewrite <-H6. destruct (decide (b' = b)) as [->|];
      [rewrite lookup_insert_eq, Hs; split; eauto|by rewrite lookup_insert_ne].
  - intros b' s1. destruct (decide (b' = b)) as [->|]; [rewrite lookup_insert_eq|rewrite lookup_insert_ne by done].
    + by intros [= <-].
    + intros Hs1. eapply blk_agree; [by apply Hf|by apply H7].
  - intros b' s1 Hin. rewrite lookup_insert_ne; [by apply H8|]. intros <-. set_solver.
  - intros b' s1 Hin. rewrite lookup_insert_ne; [by apply H9|]. intros <-. set_solver.
  - split; [done|]. intros b'. rewrite H11. destruct (decide (b' = b)) as [->|]; [|by rewrite lookup_insert_ne].
    rewrite lookup_insert_eq, Hs. split; intros [i [= E]]; exfalso; [by eapply Hnp|by eapply Hnp'].
  - intros i v Hi. rewrite Hv, H12 by done. split.
    + intros [[-> Hi']|[(b' & s1 & -> & Hs1 & Hi') Hne]]; [exists b, s'; by rewrite lookup_insert_eq|].
      exists b', s1. rewrite lookup_insert_ne; [done|]. intros <-. congruence.
    + intros (b' & s1 & -> & Hs1 & Hi'). destruct (decide (b' = b)) as [->|Hne].
      * rewrite lookup_insert_eq in Hs1. injection Hs1 as <-. by left.
      * rewrite lookup_insert_ne in Hs1 by done. right. split; [eauto 6|]. intros Hi2.
        destruct (proj2 (H12 i (VBlock b') Hi)) as []; [eauto 6|].
        assert (Hbb : VBlock b = VBlock b').
        { assert (E1 : vals !! block_key i = Some (VBlock b)) by (apply H12; eauto 6).
          assert (E2 : vals !! block_key i = Some (VBlock b')) by (apply H12; eauto 6). congruence. }
        congruence.
Qed.

(** The map without the entry of a block. *)
Definition forget (s : status) (vals : gmap string hvalue) : gmap string hvalue :=
  match idx s with Some o => delete (block_key o) vals | None => vals end.

Lemma forget_lookup s vals i v :
  forget s vals !! block_key i = Some v ↔ vals !! block_key i = Some v ∧ idx s ≠ Some i.
Proof.
  unfold forget. destruct (idx s) as [o|]; [|naive_solver]. rewrite lookup_delete_Some. split.
  - intros [Hn ?]. split; [done|]. congruence.
  - intros [? Hn]. split; [|done]. intros E%(inj block_key). congruence.
Qed.
Lemma forget_hash s vals : forget s vals !! "#" = vals !! "#".
Proof.
  unfold forget. destruct (idx s); [|done]. rewrite lookup_delete_ne; [done|]. apply block_key_hash.
Qed.

(** refreshBlock's stores to the map. *)
Lemma G_register p p' ck cg ne vals q σ fl b s index :
  0 < bs → G p ck cg ne vals q σ (b :: fl) → σ !! b = Some s → is_cooked s = true →
  vals !! block_key index = None → 0 ≤ index → index * bs < sz →
  focus (own_of ck cg (b :: fl)) p p' b → blk p' b (Lined index) →
  G p' ck cg ne
    (<["#" := VUint64 (index + 1)]> (<[block_key index := VBlock b]> (forget s vals)))
    q (<[b := Lined index]> σ) (b :: fl).
Proof.
  intros Hbs HG Hs Hc Hnone Hi Hlt Hf Hb.
  eapply G_settle; [exact HG|exact Hs|done|done|by destruct s|done| | |].
  - intros i v Hi'. rewrite lookup_insert_ne by (apply not_eq_sym, block_key_hash).
    destruct (decide (i = index)) as [->|Hne].
    + rewrite lookup_insert_eq. simpl. rewrite Hnone. naive_solver.
    + rewrite lookup_insert_ne by (intros ?%(inj block_key); congruence). rewrite forget_lookup. simpl. naive_solver.
  - exists (index + 1). rewrite lookup_insert_eq. split; [done|]. nia.
  - intros b' s1 i Hs1 Hi1 [= <-]. exfalso.
    assert (vals !! block_key index = Some (VBlock b')); [|congruence].
    apply (g_vals _ _ _ _ _ _ _ _ HG); [done|eauto 6].
Qed.

(** The block is to go back to the pool. *)
Lemma G_unregister p p' ck cg ne vals q σ fl b s :
  G p ck cg ne vals q σ (b :: fl) → σ !! b = Some s → (∀ i, s ≠ Pending i) →
  focus (own_of ck cg (b :: fl)) p p' b → blk p' b Fresh →
  G p' ck cg ne (delete (block_key (default (-1) (idx s))) vals) q (<[b := Fresh]> σ) (b :: fl).
Proof.
  intros HG Hs Hnp Hf Hb. eapply G_settle; [exact HG|exact Hs|done|done|done|done| | |done].
  - intros i v Hi. rewrite lookup_delete_Some. simpl. split.
    + intros [Hn Hv]. right. split; [done|]. intros E. rewrite E in Hn. done.
    + intros [[_ ?]|[Hv Hn]]; [done|]. split; [|done]. intros E%(inj block_key).
      destruct (idx s) as [o|]; simpl in *; [congruence|lia].
  - rewrite lookup_delete_ne by apply block_key_hash. by apply (g_next _ _ _ _ _ _ _ _ HG).
Qed.

(** And it is given back. *)
Lemma G_drop p p' ck cg ne vals q σ fl b :
  G p ck cg ne vals q σ (b :: fl) → σ !! b = Some Fresh →
  pool_ok p' (list_difference (own_of ck cg (b :: fl)) [b]) → p_blockSize p' = p_blockSize p →
  frame p p' b → G p' ck cg ne vals q (delete b σ) fl.
Proof.
  intros HG Hs Hok Hsz Hf. pose proof (G_own_nodup _ _ _ _ _ _ _ _ HG) as Hnd.
  rewrite own_fl in Hnd. apply NoDup_cons in Hnd as [Hnb Hnd].
  destruct HG as [H1 H2 H3 H4 H5 H6 H7 H8 H9 [H10 H11] H12 H13].
  assert (Hdel : ∀ b' s, delete b σ !! b' = Some s ↔ b' ≠ b ∧ σ !! b' = Some s).
  { intros b' s. rewrite lookup_delete_Some. naive_solver. }
  split; [|congruence|done|done| | | | | | | |done].
  - eapply pool_ok_sub; [exact Hok|done|]. intros b' Hb'.
    rewrite list_elem_of_difference, list_elem_of_singleton, own_fl. set_solver.
  - intros e b' Hin. destruct (H5 _ _ Hin) as (x & Hx & Hn). exists x. split; [|done].
    apply (Hf b'); [|done]. intros ->. apply Hnb. unfold own_of. rewrite (assoc_L (++)), <-fmap_app.
    apply elem_of_app. left. by eapply elem_of_snd.
  - intros b'. split.
    + intros [s [Hne Hs']%Hdel]. assert (Hin : b' ∈ own_of ck cg (b :: fl)) by (apply H6; eauto).
      rewrite own_fl in Hin. set_solver.
    + intros Hin. assert (b' ≠ b) by congruence. rewrite lookup_delete_ne by congruence.
      apply H6. rewrite own_fl. set_solver.
  - intros b' s [Hne Hs']%Hdel. eapply blk_agree; [by apply Hf|by apply H7].
  - intros b' s Hin [_ ?]%Hdel. by eapply H8.
  - intros b' s Hin [_ ?]%Hdel. by eapply H9.
  - split; [done|]. intros b'. rewrite H11. setoid_rewrite Hdel. naive_solver.
  - intros i v Hi. rewrite H12 by done. setoid_rewrite Hdel. split; [|naive_solver].
    intros (b' & s & -> & Hs' & Hi'). exists b', s. split_and!; try done. intros ->. by simplify_eq/=.
Qed.
End file.

(** ** The next component, as the block cache uses it to read

    [content] are the bytes of the file, [NI] what the next component keeps
    invariant. *)
Class ReadService {N : Type} `{!Runtime N} (next : Component N) (hp : ptr) (path : string)
    (content : list byte) (NI : N → Prop) := {
  rs_handles_set m n : rt_handles (rt_set_handles m n) = m;
  rs_set m n : NI n → NI (rt_set_handles m n);
  rs_read o data n h : NI n → rt_handles n !! hp = Some h → hPath h = path →
    0 ≤ o < Z.of_nat (length content) →
    wp (c_ReadInBuffer next (mkReadInBufferOptions hp o data)) (λ r n',
      r = ((copy_at data 0 (drop (Z.to_nat o) content)).1,
           Z.of_nat (copy_at data 0 (drop (Z.to_nat o) content)).2, None) ∧
      NI n' ∧ rt_handles n' = rt_handles n) n
}.

(** No lock is held. *)
Definition locks_free (l : LockMap) : Prop :=
  (∀ name p, locks l !! name = Some p → is_Some (items l !! p)) ∧
  ∀ p i, items l !! p = Some i → mtx i = false.

Lemma locks_free_new : locks_free NewLockMap.
Proof. split; simpl; intros *; by rewrite lookup_empty. Qed.

Lemma wp_with_lock name (Q : ptr → LockMap → Prop) l :
  locks_free l →
  (∀ f l1, wp (lm_Unlock f) (λ _ l2, locks_free l2) l1 → Q f l1) →
  wp (f ← lm_Get name; _ ← lm_Lock f; mret f) Q l.
Proof.
  intros [H1 H2] HQ.
  assert (Hget : wp (lm_Get name) (λ f l1, locks_free l1 ∧ ∃ i, items l1 !! f = Some i) l).
  { unfold wp, lm_Get. destruct (locks l !! name) as [p|] eqn:E; [destruct (H1 _ _ E) as [i Hi]; split; [done|eauto]|].
    split; simpl; [|exists new_item; apply lookup_insert_eq]. split; simpl.
    - intros name' p [[_ <-]|[_ Hp]]%lookup_insert_Some; [rewrite lookup_insert_eq; eauto|].
      destruct (H1 _ _ Hp) as [i Hi]. rewrite lookup_insert_ne; [eauto|]. intros <-. by rewrite fresh_ptr_lookup in Hi.
    - intros p i [[_ <-]|[_ Hp]]%lookup_insert_Some; [done|eauto]. }
  apply wp_bind. eapply wp_mono; [exact Hget|]. intros f l1 [[H3 H4] [i Hi]].
  apply wp_bind. unfold lm_Lock, mutex_lock, set_exLocked, wp, mbind, go_bind, load_item, store_item, go_modify.
  rewrite Hi. simpl. rewrite (H4 _ _ Hi). simpl. rewrite lookup_insert_eq. simpl. apply HQ.
  unfold wp, lm_Unlock, mutex_unlock, set_exLocked, mbind, go_bind, load_item, store_item, go_modify.
  simpl. rewrite lookup_insert_eq. simpl. rewrite lookup_insert_eq. simpl. split; simpl.
  - intros name' p Hp. destruct (H3 _ _ Hp) as [i' Hi']. destruct (decide (p = f)) as [->|Hne].
    + rewrite lookup_insert_eq. eauto.
    + rewrite !lookup_insert_ne by done. eauto.
  - intros p i' Hp. destruct (decide (p = f)) as [->|Hne].
    + rewrite lookup_insert_eq in Hp. by injection Hp as <-.
    + rewrite !lookup_insert_ne in Hp by done. eauto.
Qed.

Section read.
Context {M D N : Type} `{!Memory M} `{!MemoryLaws M} `{!BlockDisk D} `{!Runtime N}.
Context (cfg : BCConfig) (next : Component N) (hp : ptr) (path : string) (content : list byte) (NI : N → Prop).
Context `{!ReadService next hp path content NI}.
Abbreviation bc := (BCState M D N).
Abbreviation bs := (bc_blockSize cfg).
Abbreviation sz := (Z.of_nat (length content)).
Implicit Types (p : PoolState M) (b : ptr) (σ : gmap ptr status) (h : Handle) (L : BufLists) (s : bc) (t : ThreadPool * LockMap).

(** The parts of a state the read path uses. *)
Record At s p h L t : Prop := {
  at_pool : bc_pool s = p;
  at_h : rt_handles (bc_next s) !! hp = Some h;
  at_path : hPath h = path;
  at_size : hSize h = sz;
  at_bufs : bc_bufs s !! Buffers h = Some L;
  at_tp : (bc_tp s, bc_locks s) = t;
  at_next : NI (bc_next s)
}.

Lemma wp_get_h s p h L t (Q : Handle → bc → Prop) :
  At s p h L t → Q h s → wp (get_h hp) Q s.
Proof.
  intros [H1 H2 H3 H4 H5 H6 H7] HQ. unfold get_h, on_next. apply wp_zoom.
  unfold load_handle, wp. rewrite H2. simpl. by destruct s.
Qed.

Lemma wp_upd_h s p h L t f (Q : unit → bc → Prop) :
  At s p h L t → hPath (f h) = hPath h → hSize (f h) = hSize h → Buffers (f h) = Buffers h →
  (∀ s', At s' p (f h) L t → Q tt s') → wp (upd_h hp f) Q s.
Proof.
  intros [H1 H2 H3 H4 H5 H6 H7] E1 E2 E3 HQ. unfold upd_h, on_next. apply wp_zoom.
  unfold wp. rewrite H2. apply HQ. split; simpl; try congruence.
  - rewrite rs_handles_set. apply lookup_insert_eq.
  - by apply rs_set.
Qed.

Lemma wp_on_pool {A} s p h L t (m : go (PoolState M) A) (Q : A → bc → Prop) :
  At s p h L t → wp m (λ a p', ∀ s', At s' p' h L t → Q a s') p → wp (on_pool m) Q s.
Proof.
  intros [<- H2 H3 H4 H5 H6 H7] Hm. unfold on_pool. apply wp_zoom.
  eapply wp_mono; [exact Hm|]. intros a p' Ha. apply Ha. by split.
Qed.

Lemma wp_get_b s p h L t b x (Q : CacheBlock → bc → Prop) :
  At s p h L t → p_blocks p !! b = Some x → Q x s → wp (get_b b) Q s.
Proof.
  intros [<- H2 H3 H4 H5 H6 H7] Hx HQ. unfold get_b, on_pool. apply wp_zoom.
  unfold load_cblock, wp. rewrite Hx. simpl. by destruct s.
Qed.

Lemma wp_get_bufs s p h L t (Q : BufLists → bc → Prop) :
  At s p h L t → Q L s → wp (get_bufs hp) Q s.
Proof.
  intros HA HQ. unfold get_bufs. apply wp_bind. eapply wp_get_h; [done|]. apply wp_bind.
  unfold go_get, wp at 1. unfold wp. by rewrite (at_bufs _ _ _ _ _ HA).
Qed.

Lemma wp_put_bufs s p h L L' t (Q : unit → bc → Prop) :
  At s p h L t → (∀ s', At s' p h L' t → Q tt s') → wp (put_bufs hp L') Q s.
Proof.
  intros HA HQ. unfold put_bufs. apply wp_bind. eapply wp_get_h; [done|].
  unfold go_modify, wp. apply HQ. destruct HA. split; simpl; try done. apply lookup_insert_eq.
Qed.

Lemma wp_upd_b own s p h L t b x c f (Q : unit → bc → Prop) :
  At s p h L t → pool_ok p own → cell p b x c → b_state (f x) = b_state x →
  (∀ d, b_data x = Some d → ∃ d', b_data (f x) = Some d' ∧ length d' = length d) →
  (∀ s' p', At s' p' h L t → focus own p p' b → cell p' b (f x) c → Q tt s') → wp (upd_b b f) Q s.
Proof.
  intros HA Hok Hc Hs Hd HQ. unfold upd_b. eapply wp_on_pool; [done|].
  eapply wp_cell_upd; [done|done|done|done|]. intros p' Hf Hc' s' HA'. by eapply HQ.
Qed.

Lemma same_data (x y : CacheBlock) : b_data y = b_data x →
  ∀ d, b_data x = Some d → ∃ d', b_data y = Some d' ∧ length d' = length d.
Proof. intros E d Hd. exists d. by rewrite E. Qed.

Definition pushed (sd : side) (front : bool) b L : BufLists :=
  let l := if front then (next_elem L, b) :: side_list sd L else side_list sd L ++ [(next_elem L, b)] in
  mkBufLists (Cooked (with_side sd l L)) (Cooking (with_side sd l L)) (S (next_elem L)).

Lemma wp_push_node own sd front s p h L t b x c (Q : unit → bc → Prop) :
  At s p h L t → pool_ok p own → cell p b x c →
  (∀ s' p', At s' p' h (pushed sd front b L) t → focus own p p' b →
    cell p' b (with_node (Some (next_elem L)) x) c → Q tt s') →
  wp (push_node sd front hp b) Q s.
Proof.
  intros HA Hok Hc HQ. unfold push_node. apply wp_bind. eapply wp_get_bufs; [done|].
  apply wp_bind. eapply wp_put_bufs; [done|]. intros s1 H1.
  eapply wp_upd_b; [done|done|done|done|by apply same_data|]. intros s2 p2 H2 Hf Hc2. by eapply HQ.
Qed.

Lemma wp_remove_elem sd e s p h L t (Q : unit → bc → Prop) :
  At s p h L t →
  (∀ s', At s' p h (with_side sd (filter (λ y : nat * ptr, y.1 ≠ e) (side_list sd L)) L) t → Q tt s') →
  wp (remove_elem sd hp e) Q s.
Proof.
  intros HA HQ. unfold remove_elem. apply wp_bind. eapply wp_get_bufs; [done|].
  eapply wp_put_bufs; [done|]. done.
Qed.

Lemma wp_get_value s p h L t key (Q : option hvalue → bc → Prop) :
  At s p h L t → Q (values h !! key) s → wp (get_value hp key) Q s.
Proof. intros HA HQ. unfold get_value. apply wp_bind. eapply wp_get_h; [done|]. by apply wp_ret. Qed.

Lemma wp_set_value s p h L t key v (Q : unit → bc → Prop) :
  At s p h L t → (∀ s', At s' p (SetValue key v h) L t → Q tt s') → wp (set_value hp key v) Q s.
Proof. intros HA HQ. unfold set_value. by eapply wp_upd_h. Qed.

Lemma wp_remove_value s p h L t key (Q : unit → bc → Prop) :
  At s p h L t → (∀ s', At s' p (handle_with_values (delete key (values h)) h) L t → Q tt s') →
  wp (remove_value hp key) Q s.
Proof. intros HA HQ. unfold remove_value. by eapply wp_upd_h. Qed.

(** *** The invariant between the calls *)
Definition queued (t : ThreadPool) : list workItem := priorityCh t ++ normalCh t.
Definition item_ok (it : workItem) : Prop := wi_handle it = hp ∧ failCnt it = 0 ∧ upload it = false.
Record tp_ok (t : ThreadPool) : Prop := {
  tk_open : tp_open t = true;
  tk_workers : 0 < worker t ∧ worker t * 5000 < 2 ^ 32;
  tk_items : ∀ it, it ∈ queued t → item_ok it
}.

Definition Inv h L σ (fl : list ptr) s : Prop := ∃ p (t : ThreadPool) l, At s p h L (t, l) ∧
  G bs content p (Cooked L) (Cooking L) (next_elem L) (values h) (wi_block <$> queued t) σ fl ∧
  tp_ok t ∧ locks_free l.

Context (Hbs : 0 < bs) (Hfit : sz + bs < 2 ^ 63) (Hmem : bc_tmpPath cfg = "").

Lemma right_copy (d : list byte) i :
  Z.of_nat (length d) = bs → 0 ≤ i →
  right bs content (copy_at d 0 (drop (Z.to_nat (i * bs)) content)).1 i.
Proof.
  intros Hl Hi j Hj Hlt. unfold copy_at. cbn [fst]. rewrite take_0. simpl.
  rewrite lookup_app_l, lookup_take_lt, lookup_drop.
  - f_equal. nia.
  - rewrite length_drop. nia.
  - rewrite length_take, length_drop. nia.
Qed.

Lemma wp_load own p h L t s b x d i fl (Q : unit → bc → Prop) it fileName dn :
  At s p h L t → pool_ok p own → p_blockSize p = bs → b ∈ own → cell p b x (mkChan [] false) →
  b_data x = Some d → b_offset x = i * bs → 0 ≤ i → i * bs < sz → item_ok it → wi_block it = b →
  fl = b_flags x →
  (∀ s' p' x', At s' p' h L t → focus own p p' b → cell p' b x' (mkChan [1] false) →
    b_id x' = b_id x → b_offset x' = b_offset x → b_flags x' = b_flags x → b_node x' = b_node x →
    b_data x' = Some (copy_at d 0 (drop (Z.to_nat (i * bs)) content)).1 → Q tt s') →
  wp (download_next cfg next it fileName dn) Q s.
Proof.
  intros HA Hok Hsz Hb Hc Hd Ho Hi Hlt (Eh & Ef & _) <- -> HQ.
  assert (Hl : Z.of_nat (length d) = bs).
  { destruct (pool_ok_live _ _ _ Hok Hb) as (x0 & d0 & Hx0 & Hd0 & Hl0). destruct Hc as [Hx _].
    simplify_eq. congruence. }
  unfold download_next. apply wp_bind. eapply wp_upd_b; [done|done|done|done|by apply same_data|].
  intros s1 p1 HA1 Hf1 Hc1. simpl in Hc1. apply wp_bind.
  destruct Hc1 as [Hx1 Hch1]. eapply wp_get_b; [done|done|]. simpl. rewrite Ho, i64_small by (unfold is_i64; nia).
  rewrite Hd, Eh. simpl. apply wp_bind. unfold on_next. apply wp_zoom.
  eapply wp_mono; [eapply rs_read; [apply HA1|apply HA1|apply HA1|nia]|].
  intros r n' (-> & Hn' & Hhs).
  assert (Hlen : length (copy_at d 0 (drop (Z.to_nat (i * bs)) content)).1 = length d) by (apply copy_at_length; lia).
  assert (Hk : 0 < Z.of_nat (copy_at d 0 (drop (Z.to_nat (i * bs)) content)).2).
  { unfold copy_at. simpl. rewrite length_drop. nia. }
  destruct (copy_at d 0 (drop (Z.to_nat (i * bs)) content)) as [d' k] eqn:Ecp. simpl in *.
  assert (HA2 : At (set_nextst n' s1) p1 h L t).
  { destruct HA1. split; simpl; try done. by rewrite Hhs. }
  apply wp_bind. eapply (wp_upd_b own); [done|apply Hf1|by split|done| |].
  { intros d0 E. exists d'. simpl in *. simplify_eq. done. }
  intros s3 p3 HA3 Hf3 Hc3. rewrite Ef. simpl.
  destruct (Z.eqb_spec (Z.of_nat k) 0) as [|_]; [lia|].
  rewrite bool_decide_false by tauto. apply wp_bind.
  eapply (wp_upd_b own); [done|apply Hf3|done|done|by apply same_data|].
  intros s4 p4 HA4 Hf4 Hc4. apply wp_bind, wp_ret. eapply wp_on_pool; [done|].
  eapply (wp_cell_Ready own); [apply Hf4|done|]. simpl. intros p5 Hf5 Hc5 s5 HA5.
  eapply HQ; [done| |done|done|done|done|done|done].
  eapply focus_trans; [done|]. eapply focus_trans; [done|]. by eapply focus_trans.
Qed.

Lemma At_locks s p h L (t : ThreadPool) l l' : At s p h L (t, l) → At (set_flocks l' s) p h L (t, l').
Proof. intros [H1 H2 H3 H4 H5 H6 H7]. injection H6 as H6 _. split; simpl; by rewrite ?H6. Qed.

Lemma At_tp s p h L (t : ThreadPool) l : At s p h L (t, l) → bc_tp s = t ∧ bc_locks s = l.
Proof. intros HA. by injection (at_tp _ _ _ _ _ HA). Qed.

Lemma blk_loaded p p' own b x x' d i :
  pool_ok p own → p_blockSize p = bs → b ∈ own → cell p b x (mkChan [] false) → b_data x = Some d →
  b_flags x = 1 ∨ b_flags x = 3 → b_id x = i → b_offset x = i * bs → 0 ≤ i → i * bs < sz →
  cell p' b x' (mkChan [1] false) → b_id x' = b_id x → b_offset x' = b_offset x → b_flags x' = b_flags x →
  b_data x' = Some (copy_at d 0 (drop (Z.to_nat (i * bs)) content)).1 →
  blk bs content p' b (Loaded i).
Proof.
  intros Hok Hsz Hb [Hx _] Hd Hfl Hid Ho Hi Hlt Hc' E1 E2 E3 Hd'. exists x'. eexists.
  split; [done|]. split; [done|]. rewrite E3. split; [done|]. simpl. rewrite E1, E2.
  split; [done|]. split; [done|]. split; [done|]. split; [done|]. intros _. apply right_copy; [|done].
  destruct (pool_ok_live _ _ _ Hok Hb) as (x0 & d0 & Hx0 & Hd0 & Hl0). simplify_eq. congruence.
Qed.

(** A download makes a lined-up block available. *)
Lemma wp_download h L σ fl s it i (Q : unit → bc → Prop) :
  Inv h L σ fl s → σ !! wi_block it = Some (Lined i) → item_ok it →
  (∀ s', Inv h L (<[wi_block it := Loaded i]> σ) fl s' → bc_tp s' = bc_tp s → Q tt s') →
  wp (download cfg next it) Q s.
Proof.
  intros (p & t & l & HA & HG & Htp & Hlf) Hσ Hit HQ. destruct (Hit) as (Eh & _ & _).
  destruct (g_blk _ _ _ _ _ _ _ _ _ _ HG _ _ Hσ) as (x & d & Hc & Hd & Hfl & Hid & Ho & Hi & Hlt & _).
  simpl in Hc. pose proof (g_pool _ _ _ _ _ _ _ _ _ _ HG) as Hok.
  assert (Hb : wi_block it ∈ own_of (Cooked L) (Cooking L) fl).
  { apply (g_dom _ _ _ _ _ _ _ _ _ _ HG). rewrite Hσ. eauto. }
  destruct (At_tp _ _ _ _ _ _ HA) as [Ht Hl].
  unfold download. apply wp_bind. rewrite Eh. eapply wp_get_h; [done|].
  apply wp_bind. eapply wp_get_b; [done|apply Hc|].
  set (name := file_name h _).
  enough (Hw : wp (f ← lm_Get name; _ ← lm_Lock f; mret f) (λ f l,
    wp ('(served, dn) ← (if bool_decide (bc_tmpPath cfg ≠ "") then download_disk cfg it name else mret (false, 0%nat));
        _ ← (if served : bool then mret tt else download_next cfg next it name dn);
        on_flocks (lm_Unlock f)) Q (set_flocks l s)) (bc_locks s)).
  { unfold wp in Hw |- *. unfold mbind, go_bind, on_flocks, go_zoom, mret, go_ret in Hw |- *.
    destruct (lm_Get name (bc_locks s)) as [[f l1]| |]; [|done..]. simpl.
    by destruct (lm_Lock f l1) as [[u l2]| |]. }
  apply wp_with_lock; [by rewrite Hl|]. intros f l1 Hl1. rewrite bool_decide_false by (rewrite Hmem; tauto).
  apply wp_bind, wp_ret. simpl. apply wp_bind.
  eapply wp_load; [by eapply At_locks|done|apply HG|done|done|done|done|done|done|done|done|done|].
  intros s' p' x' HA' Hf Hc' E1 E2 E3 E4 Hd'.
  destruct (At_tp _ _ _ _ _ _ HA') as [Ht' Hl'].
  unfold on_flocks. apply wp_zoom. rewrite Hl'. eapply wp_mono; [exact Hl1|]. intros [] l2 Hl2.
  apply HQ; [|simpl; congruence]. exists p', t, l2. split; [by eapply At_locks|]. split; [|done].
  eapply G_change; [exact HG|exact Hσ|exact Hf| | |done|apply HG|].
  - eapply blk_loaded; [exact Hok|apply HG|done|exact Hc|done|done|done|done|done|done|exact Hc'|done..].
  - split; [done|]. intros x0 Hx0. destruct Hc as [Hx _]. simplify_eq. exists x'. split; [apply Hc'|done].
  - intros b'. case_decide as Hd0; [subst b'|done].
    rewrite (proj2 (g_queue _ _ _ _ _ _ _ _ _ _ HG)), Hσ. naive_solver.
Qed.

(** *** The workers *)
(** The chosen item leaves the queues, and the others stay. *)
Lemma take_item_run k s :
  queued (bc_tp s) ≠ [] →
  ∃ it pr no, take_item k s = Ret (Some it, set_tp (set_queues pr no (bc_tp s)) s) ∧
    queued (bc_tp s) ≡ₚ it :: (pr ++ no).
Proof.
  unfold queued, take_item. set (pr := priorityCh (bc_tp s)). set (no := normalCh (bc_tp s)). intros Hne.
  assert (Hlen : (length pr + length no ≠ 0)%nat).
  { rewrite <-length_app. by intros ?%length_zero_iff_nil. }
  rewrite decide_False by done. set (i := (k mod _)%nat).
  assert (Hi : (i < length pr + length no)%nat) by (by apply Nat.mod_upper_bound).
  destruct (lookup_lt_is_Some_2 (pr ++ no) i) as [it Hit]; [by rewrite length_app|]. rewrite Hit.
  destruct (decide (i < length pr)%nat).
  - exists it, (delete i pr), no. split; [done|]. rewrite lookup_app_l in Hit by done.
    by rewrite (delete_Permutation pr i it Hit) at 1.
  - exists it, pr, (delete (i - length pr)%nat no). split; [done|]. rewrite lookup_app_r in Hit by lia.
    rewrite (delete_Permutation no _ it Hit) at 1. by rewrite <-Permutation_middle.
Qed.

Lemma wp_take_item h L σ fl s k :
  Inv h L σ fl s →
  wp (take_item k) (λ r s',
    match r with
    | None => s' = s ∧ queued (bc_tp s) = []
    | Some it => item_ok it ∧ ∃ i, σ !! wi_block it = Some (Pending i) ∧
        Inv h L (<[wi_block it := Lined i]> σ) fl s' ∧ (pending (bc_tp s') < pending (bc_tp s))%nat
    end) s.
Proof.
  intros (p & t & l & HA & HG & Htp & Hlf). destruct (At_tp _ _ _ _ _ _ HA) as [Ht Hl].
  destruct (decide (queued (bc_tp s) = [])) as [Hq|Hq].
  { unfold wp, take_item. rewrite decide_True; [done|]. rewrite <-length_app.
    change (length (queued (bc_tp s)) = 0%nat). by rewrite Hq. }
  destruct (take_item_run k s Hq) as (it & pr & no & Hrun & Hperm). unfold wp. rewrite Hrun, Ht in *.
  destruct Htp as [Ho Hw Hi].
  assert (Hit : item_ok it) by (apply Hi; rewrite Hperm; set_solver). split; [done|].
  destruct (g_queue _ _ _ _ _ _ _ _ _ _ HG) as [Hnd Hqueue].
  rewrite Hperm in Hnd. simpl in Hnd. apply NoDup_cons in Hnd as [Hni Hnd].
  destruct (proj1 (Hqueue (wi_block it))) as [i Hσ].
  { rewrite Hperm. simpl. set_solver. }
  exists i. split; [done|]. split.
  - exists p, (set_queues pr no t), l. split; [|split; [|split; [|done]]].
    + destruct HA as [H1 H2 H3 H4 H5 H6 H7]. split; simpl; try done. congruence.
    + eapply G_change; [exact HG|exact Hσ|apply focus_refl, HG| | |done|exact Hnd|].
      * by apply (g_blk _ _ _ _ _ _ _ _ _ _ HG) in Hσ.
      * eauto.
      * intros b'. change (queued (set_queues pr no t)) with (pr ++ no).
        assert (Heq : b' ∈ wi_block <$> queued t ↔ b' = wi_block it ∨ b' ∈ wi_block <$> pr ++ no).
        { rewrite Hperm. simpl. by rewrite elem_of_cons. }
        case_decide as Hb'; [subst b'; split; [done|by intros [? ?]]|]. rewrite Heq. tauto.
    + split; [done|done|]. intros it' Hit'. apply Hi. rewrite Hperm. by apply list_elem_of_further.
  - assert (E : pending t = (5 + pending (set_queues pr no t))%nat).
    { unfold pending. fold (queued t). rewrite Hperm. simpl. by destruct Hit as (_ & -> & _). }
    simpl in *. lia.
Qed.

(** The workers have made some of the pending blocks available. *)
Definition advanced σ σ' : Prop := ∀ b, σ' !! b = σ !! b ∨
  ∃ i, σ !! b = Some (Pending i) ∧ σ' !! b = Some (Loaded i).

Lemma advanced_refl σ : advanced σ σ.
Proof. by left. Qed.
Lemma advanced_trans σ1 σ2 σ3 : advanced σ1 σ2 → advanced σ2 σ3 → advanced σ1 σ3.
Proof.
  intros H12 H23 b. destruct (H12 b) as [E|(i & E1 & E2)], (H23 b) as [E'|(j & E1' & E2')].
  - left. congruence.
  - right. exists j. split; congruence.
  - right. exists i. split; congruence.
  - congruence.
Qed.

Lemma Inv_oracle h L σ fl s o : Inv h L σ fl s → Inv h L σ fl (set_oracle o s).
Proof. intros (p & t & l & [H1 H2 H3 H4 H5 H6 H7] & HG & Htp). by exists p, t, l. Qed.

Lemma wp_next_choice h L σ fl s (Q : nat → bc → Prop) :
  Inv h L σ fl s → (∀ k s', Inv h L σ fl s' → bc_tp s' = bc_tp s → Q k s') → wp next_choice Q s.
Proof.
  intros HI HQ. unfold wp, next_choice. destruct (oracle s) as [|k rest]; [by apply HQ|].
  apply HQ; [by apply Inv_oracle|done].
Qed.

Lemma wp_work h L σ fl s (Q : bool → bc → Prop) :
  Inv h L σ fl s →
  (∀ s', queued (bc_tp s) = [] → Inv h L σ fl s' → bc_tp s' = bc_tp s → Q false s') →
  (∀ σ' s', Inv h L σ' fl s' → advanced σ σ' → (pending (bc_tp s') < pending (bc_tp s))%nat → Q true s') →
  wp (work cfg next) Q s.
Proof.
  intros HI H0 HQ. unfold work. apply wp_bind. eapply wp_next_choice; [done|]. intros k s1 HI1 Ht1.
  apply wp_bind. eapply wp_mono; [by apply wp_take_item|]. intros [it|] s2.
  - intros (Hit & i & Hσ & HI2 & Hlt). apply wp_bind. unfold run_item, dispatch.
    destruct (Hit) as (_ & _ & ->). eapply wp_download; [exact HI2|by rewrite lookup_insert_eq|done|].
    intros s3 HI3 Ht3. apply wp_ret. rewrite insert_insert_eq in HI3. eapply HQ; [exact HI3| |].
    + intros b. destruct (decide (b = wi_block it)) as [->|]; [|left; by rewrite lookup_insert_ne].
      right. exists i. by rewrite lookup_insert_eq.
    + rewrite Ht3. by rewrite <-Ht1.
  - intros [-> Hq]. apply wp_ret. rewrite Ht1 in Hq. by apply H0.
Qed.

Lemma wp_work_n n h L σ fl s (Q : unit → bc → Prop) :
  Inv h L σ fl s → (∀ σ' s', Inv h L σ' fl s' → advanced σ σ' → Q tt s') → wp (work_n cfg next n) Q s.
Proof.
  revert σ s. induction n as [|n IH]; intros σ s HI HQ; simpl.
  { apply wp_ret. eapply HQ; [done|apply advanced_refl]. }
  apply wp_bind. eapply wp_work; [done| |].
  - intros s' _ HI' _. eapply IH; [done|]. intros σ2 s2 HI2 H2. by eapply HQ.
  - intros σ' s' HI' H1 _. eapply IH; [done|]. intros σ2 s2 HI2 H2. eapply HQ; [done|by eapply advanced_trans].
Qed.

Lemma wp_interleave h L σ fl s (Q : unit → bc → Prop) :
  Inv h L σ fl s → (∀ σ' s', Inv h L σ' fl s' → advanced σ σ' → Q tt s') → wp (interleave cfg next) Q s.
Proof.
  intros HI HQ. unfold interleave. apply wp_bind. eapply wp_next_choice; [done|].
  intros k s1 HI1 _. by eapply wp_work_n.
Qed.

Lemma advanced_insert σ σ' b (st : status) : advanced σ σ' → advanced (<[b := st]> σ) (<[b := st]> σ').
Proof.
  intros H b'. destruct (decide (b' = b)) as [->|]; [left; by rewrite !lookup_insert_eq|].
  rewrite !lookup_insert_ne by done. apply H.
Qed.

Lemma advanced_keeps σ σ' b st : advanced σ σ' → σ !! b = Some st → (∀ i, st ≠ Pending i) → σ' !! b = Some st.
Proof. intros H Hs Hn. destruct (H b) as [E|(i & E & _)]; [congruence|]. exfalso. apply (Hn i). congruence. Qed.

Lemma pending_pos (t : ThreadPool) it : tp_ok t → it ∈ queued t → (0 < pending t)%nat.
Proof.
  intros [_ _ Hi] Hin. destruct (Hi _ Hin) as (_ & Hf & _). unfold pending. fold (queued t).
  apply list_elem_of_split in Hin as (l1 & l2 & ->). rewrite <-Permutation_middle. simpl. rewrite Hf. simpl. lia.
Qed.

(** The item of a lined-up block is sent. *)
Lemma Inv_queue h L σ fl s b i pf pr no (t1 : ThreadPool) :
  Inv h L σ fl s → σ !! b = Some (Lined i) →
  t1 = set_queues pr no (bc_tp s) →
  pr ++ no ≡ₚ mkWorkItem hp b pf 0 false "" :: queued (bc_tp s) →
  Inv h L (<[b := Pending i]> σ) fl (set_tp t1 s).
Proof.
  intros (p & t & l & HA & HG & Htp & Hlf) Hσ -> Hperm. destruct (At_tp _ _ _ _ _ _ HA) as [Ht Hl].
  rewrite Ht in *. destruct Htp as [Ho Hw Hi]. destruct (g_queue _ _ _ _ _ _ _ _ _ _ HG) as [Hnd Hq].
  assert (Hmem' : ∀ b', b' ∈ wi_block <$> pr ++ no ↔ b' = b ∨ b' ∈ wi_block <$> queued t).
  { intros b'. rewrite Hperm. simpl. by rewrite elem_of_cons. }
  assert (Hni : b ∉ wi_block <$> queued t). { rewrite Hq, Hσ. by intros [? ?]. }
  exists p, (set_queues pr no t), l. split; [|split; [|split; [|done]]].
  - destruct HA as [H1 H2 H3 H4 H5 H6 H7]. split; simpl; try done. congruence.
  - eapply G_change; [exact HG|exact Hσ|apply focus_refl, HG| |eauto|done| |].
    + by apply (g_blk _ _ _ _ _ _ _ _ _ _ HG) in Hσ.
    + change (NoDup (wi_block <$> pr ++ no)). rewrite Hperm. simpl. by apply NoDup_cons.
    + intros b'. change (queued (set_queues pr no t)) with (pr ++ no). rewrite Hmem'.
      case_decide; [subst; naive_solver|naive_solver].
  - split; [done|done|]. intros it. change (queued (set_queues pr no t)) with (pr ++ no). rewrite Hperm.
    intros [->|?]%elem_of_cons; [done|by apply Hi].
Qed.

Lemma Schedule_cases (t : ThreadPool) urgent item :
  tp_ok t →
  (∃ pr no, Schedule urgent item t = Ret (tt, set_queues pr no t) ∧ pr ++ no ≡ₚ item :: queued t) ∨
  Schedule urgent item t = Blocked ∧ queued t ≠ [].
Proof.
  intros [Ho Hw _]. unfold Schedule, queued, priority_cap, normal_cap. rewrite Ho, !u32_small by lia. simpl.
  destruct urgent.
  - destruct (Z.ltb_spec (Z.of_nat (length (priorityCh t))) (worker t * 2)).
    + left. eexists _, _. split; [done|]. by rewrite <-Permutation_cons_append.
    + right. split; [done|]. intros [E _]%app_eq_nil. rewrite E in *. simpl in *. lia.
  - destruct (Z.ltb_spec (Z.of_nat (length (normalCh t))) (worker t * 5000)).
    + left. eexists _, _. split; [done|]. by rewrite <-Permutation_cons_append, <-Permutation_middle.
    + right. split; [done|]. intros [_ E]%app_eq_nil. rewrite E in *. simpl in *. lia.
Qed.

Lemma wp_schedule_loop fuel h L σ fl s b i pf urgent (Q : unit → bc → Prop) :
  Inv h L σ fl s → σ !! b = Some (Lined i) → (pending (bc_tp s) ≤ fuel)%nat →
  (∀ σ' s', advanced σ σ' → Inv h L (<[b := Pending i]> σ') fl s' → Q tt s') →
  wp (schedule_loop cfg next fuel urgent (mkWorkItem hp b pf 0 false "")) Q s.
Proof.
  revert σ s. induction fuel as [|fuel IH]; intros σ s HI Hσ Hp HQ;
    destruct (HI) as (p & t & l & HA & HG & Htp & Hlf); destruct (At_tp _ _ _ _ _ _ HA) as [Ht Hl]; rewrite <-Ht in Htp.
  all: pose proof (Schedule_cases _ urgent (mkWorkItem hp b pf 0 false "") Htp) as Hcase.
  all: destruct Hcase as [(pr & no & Hrun & Hperm)|[Hrun Hne]]; unfold wp; cbn [schedule_loop]; rewrite Hrun.
  1, 3: eapply HQ; [apply advanced_refl|by eapply Inv_queue].
  - exfalso. destruct (queued (bc_tp s)) as [|it rest] eqn:E; [done|].
    pose proof (pending_pos _ it Htp ltac:(rewrite E; set_solver)). lia.
  - apply wp_bind. eapply wp_work; [exact HI|done|]. intros σ' s' HI' Hadv Hlt.
    eapply IH; [exact HI'|by eapply advanced_keeps|lia|]. intros σ2 s2 Hadv2 HI2.
    eapply HQ; [by eapply advanced_trans|done].
Qed.

Lemma wp_schedule h L σ fl s b i pf urgent (Q : unit → bc → Prop) :
  Inv h L σ fl s → σ !! b = Some (Lined i) →
  (∀ σ' s', advanced (<[b := Pending i]> σ) σ' → Inv h L σ' fl s' → Q tt s') →
  wp (schedule cfg next urgent (mkWorkItem hp b pf 0 false "")) Q s.
Proof.
  intros HI Hσ HQ. unfold schedule. apply wp_bind. unfold go_get, wp at 1. apply wp_bind.
  eapply wp_schedule_loop; [done|done|done|]. intros σ1 s1 H1 HI1.
  eapply wp_interleave; [done|]. intros σ2 s2 HI2 H2. eapply HQ; [|exact HI2].
  eapply advanced_trans; [by apply advanced_insert|done].
Qed.

(** *** Waiting for a block *)
Lemma wp_chan_ready h L σ fl s b st (Q : bool → bc → Prop) :
  Inv h L σ fl s → σ !! b = Some st →
  Q (bool_decide (ch_values (chan_of st) ≠ []) || ch_closed (chan_of st)) s → wp (chan_ready b) Q s.
Proof.
  intros (p & t & l & HA & HG & Htp & Hlf) Hσ HQ.
  destruct (g_blk _ _ _ _ _ _ _ _ _ _ HG _ _ Hσ) as (x & d & [Hx Hc] & _).
  unfold chan_ready. apply wp_bind. eapply wp_get_b; [done|done|]. apply wp_bind. unfold go_get, wp at 1.
  rewrite (at_pool _ _ _ _ _ HA), Hc. by apply wp_ret.
Qed.

(** The first reader receives the value. *)
Lemma wp_receive h L σ fl s b i (Q : Z → bc → Prop) :
  Inv h L σ fl s → σ !! b = Some (Loaded i) →
  (∀ s', Inv h L (<[b := Taken i]> σ) fl s' → Q 1 s') → wp (on_pool (wait_state b)) Q s.
Proof.
  intros (p & t & l & HA & HG & Htp & Hlf) Hσ HQ.
  destruct (g_blk _ _ _ _ _ _ _ _ _ _ HG _ _ Hσ) as (x & d & Hc & Hd & Hfl & Hrest).
  eapply wp_on_pool; [done|]. eapply wp_cell_wait; [apply HG|exact Hc|]. intros p' Hf Hc' s' HA'.
  apply HQ. exists p', t, l. split; [done|]. split; [|done].
  eapply G_change; [exact HG|exact Hσ|exact Hf| | |done|apply HG|].
  - exists x, d. split; [done|]. split; [done|]. split; [done|]. exact Hrest.
  - split; [done|]. intros x0 Hx0. destruct Hc as [Hx _]. simplify_eq. eexists. split; [apply Hc'|done].
  - intros b'. case_decide as Hd0; [subst b'|done].
    rewrite (proj2 (g_queue _ _ _ _ _ _ _ _ _ _ HG)), Hσ. naive_solver.
Qed.

Lemma wp_wait_loop fuel h L σ fl s b i (Q : Z → bc → Prop) :
  Inv h L σ fl s → σ !! b = Some (Pending i) ∨ σ !! b = Some (Loaded i) →
  (pending (bc_tp s) ≤ fuel)%nat →
  (∀ σ' s', advanced σ σ' → Inv h L (<[b := Taken i]> σ') fl s' → Q 1 s') →
  wp (wait_loop cfg next fuel b) Q s.
Proof.
  revert σ s. induction fuel as [|fuel IH]; intros σ s HI Hσ Hp HQ; cbn [wait_loop]; apply wp_bind.
  all: destruct Hσ as [Hσ|Hσ]; eapply wp_chan_ready; [exact HI|exact Hσ| |exact HI|exact Hσ|]; simpl.
  2, 4: eapply wp_receive; [exact HI|exact Hσ|]; intros s' HI'; eapply HQ; [apply advanced_refl|done].
  - exfalso. destruct HI as (p & t & l & HA & HG & Htp & Hlf).
    destruct (At_tp _ _ _ _ _ _ HA) as [Ht Hl]. rewrite Ht in Hp.
    assert (Hin : b ∈ wi_block <$> queued t) by (apply (g_queue _ _ _ _ _ _ _ _ _ _ HG); eauto).
    apply list_elem_of_fmap in Hin as (it & -> & Hin). pose proof (pending_pos t it Htp Hin). lia.
  - apply wp_bind. eapply wp_work; [exact HI| |].
    + intros s' Hq HI' _. exfalso. destruct HI as (p & t & l & HA & HG & Htp & Hlf).
      destruct (At_tp _ _ _ _ _ _ HA) as [Ht Hl].
      assert (Hin : b ∈ wi_block <$> queued t) by (apply (g_queue _ _ _ _ _ _ _ _ _ _ HG); eauto).
      rewrite <-Ht, Hq in Hin. by apply not_elem_of_nil in Hin.
    + intros σ' s' HI' Hadv Hlt. eapply IH; [exact HI'| |lia|].
      * destruct (Hadv b) as [->|(j & E1 & E2)]; [by left|]. rewrite Hσ in E1. injection E1 as <-. by right.
      * intros σ2 s2 H2 HI2. eapply HQ; [by eapply advanced_trans|done].
Qed.

Lemma wp_wait h L σ fl s b i (Q : Z → bc → Prop) :
  Inv h L σ fl s → σ !! b = Some (Pending i) ∨ σ !! b = Some (Loaded i) →
  (∀ σ' s', advanced σ σ' → Inv h L (<[b := Taken i]> σ') fl s' → Q 1 s') → wp (wait cfg next b) Q s.
Proof.
  intros HI Hσ HQ. unfold wait. apply wp_bind. unfold go_get, wp at 1. by eapply wp_wait_loop.
Qed.

Lemma wp_wait_open h L σ fl s b i (Q : Z → bc → Prop) :
  Inv h L σ fl s → σ !! b = Some (Open i) → Q 0 s → wp (wait cfg next b) Q s.
Proof.
  intros HI Hσ HQ. unfold wait. apply wp_bind. unfold go_get, wp at 1.
  assert (Hr : ∀ fuel, wp (wait_loop cfg next fuel b) Q s); [|apply Hr].
  intros fuel. destruct fuel; cbn [wait_loop]; apply wp_bind; (eapply wp_chan_ready; [done|done|]; simpl);
    destruct HI as (p & t & l & HA & HG & Htp & Hlf);
    destruct (g_blk _ _ _ _ _ _ _ _ _ _ HG _ _ Hσ) as (x & d & Hc & _);
    unfold on_pool; apply wp_zoom; rewrite (at_pool _ _ _ _ _ HA); eapply wp_cell_wait_closed; try exact Hc;
    rewrite <-(at_pool _ _ _ _ _ HA); by destruct s.
Qed.

(** *** Blocks from the pool and moves between the lists *)
Lemma wp_TryGet_inv h L σ fl s (Q : ptr → bc → Prop) :
  Inv h L σ fl s → (∀ s', Inv h L σ fl s' → Q nil_ptr s') →
  (∀ b s', b ≠ nil_ptr → σ !! b = None → Inv h L (<[b := Fresh]> σ) (b :: fl) s' → Q b s') →
  wp (on_pool TryGet) Q s.
Proof.
  intros (p & t & l & HA & HG & Htp & Hlf) H0 HQ. eapply wp_on_pool; [done|].
  eapply wp_TryGet_got; [apply HG| |].
  - intros s' HA'. apply H0. by exists p, t, l.
  - intros b p' Hn Hg s' HA'. apply HQ; [done| |].
    + apply eq_None_not_Some. rewrite (g_dom _ _ _ _ _ _ _ _ _ _ HG). apply Hg.
    + exists p', t, l. split; [done|]. split; [by eapply G_get|done].
Qed.

Lemma G_agree p p' ck cg ne vals q σ fl :
  G bs content p ck cg ne vals q σ fl → pool_ok p' (own_of ck cg fl) → p_blockSize p' = p_blockSize p →
  (∀ b, agree p p' b) → G bs content p' ck cg ne vals q σ fl.
Proof.
  intros [H1 H2 H3 H4 H5 H6 H7 H8 H9 H10 H11 H12] Hok Hsz Ha. split; try done; [congruence| |].
  - intros e b Hin. destruct (H5 _ _ Hin) as (x & Hx & ?). exists x. split; [by apply Ha|done].
  - intros b st Hs. eapply blk_agree; [apply Ha|by apply H7].
Qed.

Lemma wp_MustGet_inv h L σ fl s (Q : ptr → bc → Prop) :
  Inv h L σ fl s → (∀ s', Inv h L σ fl s' → Q nil_ptr s') →
  (∀ b s', b ≠ nil_ptr → σ !! b = None → Inv h L (<[b := Fresh]> σ) (b :: fl) s' → Q b s') →
  wp (on_pool MustGet) Q s.
Proof.
  intros (p & t & l & HA & HG & Htp & Hlf) H0 HQ. eapply wp_on_pool; [done|].
  eapply wp_MustGet_got; [apply HG| |].
  - intros p' Hok Hsz Ha s' HA'. apply H0. exists p', t, l. split; [done|]. split; [by eapply G_agree|done].
  - intros b p' Hn Hg s' HA'. apply HQ; [done| |].
    + apply eq_None_not_Some. rewrite (g_dom _ _ _ _ _ _ _ _ _ _ HG). apply Hg.
    + exists p', t, l. split; [done|]. split; [by eapply G_get|done].
Qed.

Lemma wp_push_inv sd front h L σ fl s b st (Q : unit → bc → Prop) :
  Inv h L σ (b :: fl) s → σ !! b = Some st →
  is_cooked st = (match sd with SCooked => true | SCooking => false end) →
  (∀ s', Inv h (pushed sd front b L) σ fl s' → Q tt s') → wp (push_node sd front hp b) Q s.
Proof.
  intros (p & t & l & HA & HG & Htp & Hlf) Hσ Hck HQ.
  destruct (g_blk _ _ _ _ _ _ _ _ _ _ HG _ _ Hσ) as (x & d & Hc & Hd & Hfl & Hrest).
  eapply wp_push_node; [done|apply HG|done|]. intros s' p' HA' Hf Hc'. apply HQ.
  exists p', t, l. split; [done|]. split; [|done].
  assert (Hb : blk bs content p' b st) by (exists (with_node (Some (next_elem L)) x), d; done).
  assert (Hn : ∃ x, p_blocks p' !! b = Some x ∧ b_node x = Some (next_elem L))
    by (eexists; split; [apply Hc'|done]).
  destruct sd, front; simpl in *.
  - by apply (G_enter_ck _ _ p p' [] (Cooked L) _ _ _ _ _ _ _ st).
  - eapply (G_enter_ck _ _ p p' (Cooked L) []); rewrite ?app_nil_r; done.
  - by apply (G_enter_cg _ _ p p' [] (Cooking L) _ _ _ _ _ _ _ st).
  - eapply (G_enter_cg _ _ p p' (Cooking L) []); rewrite ?app_nil_r; done.
Qed.

Lemma wp_unlink_inv sd h L σ fl s e b l1 l2 (Q : unit → bc → Prop) :
  Inv h L σ fl s → side_list sd L = l1 ++ (e, b) :: l2 →
  (∀ s', Inv h (with_side sd (l1 ++ l2) L) σ (b :: fl) s' → Q tt s') → wp (remove_elem sd hp e) Q s.
Proof.
  intros (p & t & l & HA & HG & Htp & Hlf) E HQ. eapply wp_remove_elem; [done|].
  pose proof (g_elems _ _ _ _ _ _ _ _ _ _ HG) as (Hn1 & _ & Hn2)%NoDup_app.
  rewrite E, filter_unlink by (rewrite <-E; by destruct sd). intros s' HA'. apply HQ.
  exists p, t, l. split; [done|]. split; [|done].
  destruct sd; simpl in *; rewrite E in HG; [by eapply G_unlink_ck|by eapply G_unlink_cg].
Qed.

(** *** Lining blocks up *)

(** Steps that leave the blocks in Cooking there, with their numbers, and take
    no block. *)
Definition in_hand (st : status) : bool := match st with Lined _ | Taken _ => true | _ => false end.
Record kept σ σ' : Prop := {
  kp_cooking b st i : σ !! b = Some st → is_cooked st = false → idx st = Some i →
    ∃ st', σ' !! b = Some st' ∧ is_cooked st' = false ∧ idx st' = Some i ∧ (st = Taken i → st' = Taken i);
  kp_hand b st : σ' !! b = Some st → in_hand st = true → σ !! b = Some st
}.
Definition on_the_way σ i : Prop := ∃ b st, σ !! b = Some st ∧ is_cooked st = false ∧ idx st = Some i.
Definition settled σ : Prop := ∀ b st, σ !! b = Some st → in_hand st = false.

Lemma kept_refl σ : kept σ σ.
Proof. split; [|done]. intros b st i ? ? ?. exists st. split_and!; done. Qed.
Lemma kept_trans σ1 σ2 σ3 : kept σ1 σ2 → kept σ2 σ3 → kept σ1 σ3.
Proof.
  intros [H12 K12] [H23 K23]. split; [|eauto].
  intros b st i H1 H2 H3. destruct (H12 _ _ _ H1 H2 H3) as (st2 & H4 & H5 & H6 & H7).
  destruct (H23 _ _ _ H4 H5 H6) as (st3 & H8 & H9 & H10 & H11). exists st3. split_and!; try done. tauto.
Qed.
Lemma kept_on_the_way σ σ' i : kept σ σ' → on_the_way σ i → on_the_way σ' i.
Proof.
  intros [Hk _] (b & st & H1 & H2 & H3). destruct (Hk _ _ _ H1 H2 H3) as (st' & ? & ? & ? & _). by exists b, st'.
Qed.
Lemma kept_settled σ σ' : kept σ σ' → settled σ → settled σ'.
Proof. intros [_ Hk] Hs b st Hb. destruct (in_hand st) eqn:E; [|done]. rewrite <-E. by eapply Hs, Hk. Qed.
Lemma advanced_kept σ σ' : advanced σ σ' → kept σ σ'.
Proof.
  intros H. split.
  - intros b st i H1 H2 H3. destruct (H b) as [E|(j & E1 & E2)].
    + exists st. rewrite E. done.
    + exists (Loaded j). simplify_eq/=. split_and!; done.
  - intros b st Hb Hh. destruct (H b) as [E|(j & E1 & E2)]; [congruence|]. by simplify_eq/=.
Qed.
(** A block that was not in Cooking has a new status. *)
Lemma kept_insert σ b st :
  (∀ st0, σ !! b = Some st0 → is_cooked st0 = true) → in_hand st = false → kept σ (<[b := st]> σ).
Proof.
  intros H Hh. split.
  - intros b' st' i H1 H2 H3. destruct (decide (b' = b)) as [->|]; [apply H in H1; congruence|].
    exists st'. by rewrite lookup_insert_ne.
  - intros b' st'. destruct (decide (b' = b)) as [->|]; [rewrite lookup_insert_eq; congruence|].
    by rewrite lookup_insert_ne.
Qed.

Lemma Inv_block h L σ fl s b st :
  Inv h L σ fl s → σ !! b = Some st → ∃ p t, At s p h L t ∧ blk bs content p b st.
Proof.
  intros (p & t & l & HA & HG & Htp & Hlf) Hσ. exists p, (t, l). split; [done|].
  by apply (g_blk _ _ _ _ _ _ _ _ _ _ HG).
Qed.

(** The front block of Cooked is reused for the block [index]. *)
Definition reuse_front (index : Z) (pf : bool) b : go bc (option error) :=
  x ← get_b b;
  _ ← (if negb (b_id x =? -1) then remove_value hp (block_key (b_id x)) else mret tt);
  _ ← on_pool (ReUse b);
  _ ← upd_b b (with_id_offset (i64 index) (u64 (index * bs)));
  _ ← set_value hp (block_key index) (VBlock b);
  _ ← set_value hp "#" (VUint64 (u64 (index + 1)));
  _ ← lineupDownload cfg next hp b pf;
  mret None.

Lemma wp_forget h L s p t x st (Q : unit → bc → Prop) :
  At s p h L t → b_id x = default (-1) (idx st) → (∀ i, idx st = Some i → 0 ≤ i) →
  (∀ s', At s' p (handle_with_values (forget st (values h)) h) L t → Q tt s') →
  wp (if negb (b_id x =? -1) then remove_value hp (block_key (b_id x)) else mret tt) Q s.
Proof.
  intros HA Hid Hpos HQ. rewrite Hid. unfold forget in HQ. destruct (idx st) as [i|]; simpl.
  - specialize (Hpos i eq_refl). destruct (Z.eqb_spec i (-1)); [lia|]. by eapply wp_remove_value.
  - apply wp_ret, HQ. by destruct h.
Qed.

Lemma wp_reuse_front h L σ s index pf e b ck (Q : option error → bc → Prop) :
  Inv h L σ [] s → Cooked L = (e, b) :: ck → 0 ≤ index → values h !! block_key index = None →
  index * bs < sz →
  (∀ h' L' σ' s', Inv h' L' σ' [] s' → OptCnt h' = OptCnt h → kept σ σ' → on_the_way σ' index → Q None s') →
  wp (reuse_front index pf b) Q s.
Proof.
  intros (p & t & l & HA & HG & Htp & Hlf) Eck Hi Hnone Hlt HQ. rewrite Eck in HG.
  assert (Hin : b ∈ own_of ((e, b) :: ck) (Cooking L) []) by (unfold own_of; set_solver).
  destruct (G_status _ _ _ _ _ _ _ _ _ _ _ HG Hin) as (st & Hσ & x & d & Hc & Hd & Hfl & Hst).
  assert (Hck : is_cooked st = true) by (eapply (g_ck _ _ _ _ _ _ _ _ _ _ HG b); [set_solver|done]).
  destruct (g_node _ _ _ _ _ _ _ _ _ _ HG e b) as (x0 & Hx0 & Hnode); [set_solver|].
  destruct (Hc) as [Hx _]. rewrite Hx in Hx0. injection Hx0 as <-.
  pose proof (g_pool _ _ _ _ _ _ _ _ _ _ HG) as Hok.
  pose proof (g_elems _ _ _ _ _ _ _ _ _ _ HG) as (Hnd & _ & _)%NoDup_app.
  unfold reuse_front. apply wp_bind. eapply wp_get_b; [done|done|].
  apply wp_bind. eapply (wp_forget h L s p (t, l) x st); [done| | |].
  { by destruct (idx st); [destruct Hst|]. }
  { intros i Ei. rewrite Ei in Hst. tauto. }
  intros s1 HA1. apply wp_bind. eapply wp_on_pool; [done|]. eapply wp_ReUse_frame; [done|done|].
  intros p2 c2 Hf2 Hc2 s2 HA2. apply wp_bind.
  eapply wp_upd_b; [done|apply Hf2|done|done|by apply same_data|]. intros s3 p3 HA3 Hf3 Hc3.
  apply wp_bind. eapply wp_set_value; [done|]. intros s4 HA4.
  apply wp_bind. eapply wp_set_value; [done|]. intros s5 HA5. apply wp_bind.
  unfold lineupDownload. apply wp_bind. unfold remove_node_if. apply wp_bind.
  eapply wp_get_b; [done|apply Hc3|]. simpl. rewrite Hnode. eapply wp_remove_elem; [done|].
  intros s6 HA6. cbn [side_list] in HA6. rewrite Eck in HA6.
  pose proof (filter_unlink [] ck e b Hnd) as Hfu. cbn [app] in Hfu. rewrite Hfu in HA6. apply wp_bind.
  eapply wp_push_node; [done|apply Hf3|done|]. intros s7 p7 HA7 Hf7 Hc7. apply wp_bind. unfold set_flag.
  eapply wp_upd_b; [done|apply Hf7|done|done|by apply same_data|]. intros s8 p8 HA8 Hf8 Hc8.
  assert (Hf : focus (own_of ((e, b) :: ck) (Cooking L) []) p p8 b).
  { eapply focus_trans; [done|]. eapply focus_trans; [done|]. by eapply focus_trans. }
  assert (Hbl : blk bs content p8 b (Lined index)).
  { eexists _, d. split; [exact Hc8|]. simpl. split; [done|]. split; [by right|].
    rewrite i64_small, u64_small by (unfold is_i64; nia). done. }
  rewrite u64_small in HA8 by nia.
  eapply (wp_schedule _ _ (<[b := Lined index]> σ)).
  - exists p8, t, l. split; [exact HA8|]. split; [|done]. simpl.
    apply (G_unlink_ck _ _ _ [] ck) in HG. cbn [app] in HG.
    eapply (G_enter_cg _ _ p8 p8 [] (Cooking L) _ _ _ _ _ _ _ (Lined index)); [|by rewrite lookup_insert_eq| | | |done].
    + eapply G_register; [done|exact HG|done|done|done|done|done| |done].
      destruct Hf as [Hok8 ? ?]. split; [|done|done]. eapply pool_ok_perm; [|exact Hok8].
      by rewrite own_fl, own_ck_front.
    + apply focus_refl. eapply pool_ok_perm; [|apply Hf]. by rewrite own_fl, own_ck_front.
    + done.
    + eexists. split; [apply Hc8|done].
  - apply lookup_insert_eq.
  - intros σ' s9 Hadv HI. apply wp_ret. rewrite insert_insert_eq in Hadv.
    assert (Hk : kept (<[b := Pending index]> σ) σ') by (by apply advanced_kept).
    eapply HQ; [exact HI|done| |].
    + eapply kept_trans; [|exact Hk]. apply kept_insert; [|done]. intros st0 E. congruence.
    + eapply kept_on_the_way; [exact Hk|]. exists b, (Pending index). by rewrite lookup_insert_eq.
Qed.

Lemma wp_refreshBlock h L σ s index pf (Q : option error → bc → Prop) :
  Inv h L σ [] s → 0 ≤ index → values h !! block_key index = None → index * bs < sz + bs →
  (sz ≤ index * bs → Q (Some Eof) s) →
  (∀ h' L' σ' s', Inv h' L' σ' [] s' → OptCnt h' = OptCnt h → kept σ σ' → index * bs < sz →
     (pf = false → on_the_way σ' index) → Q None s') →
  (∀ s', Inv h L σ [] s' → pf = false → Q (Some (Msg "unable to allocate block")) s') →
  wp (refreshBlock cfg next hp index pf) Q s.
Proof.
  intros HI Hi Hnone Hlt HE HQ HF. unfold refreshBlock. destruct (HI) as (p & t & l & HA & _).
  apply wp_bind. eapply wp_get_h; [done|]. rewrite (at_size _ _ _ _ _ HA).
  assert (Eoff : i64 (u64 (index * bs)) = index * bs) by (rewrite u64_small, i64_small; unfold is_i64; nia).
  rewrite Eoff. destruct (Z.leb_spec sz (index * bs)); [by apply wp_ret, HE|].
  apply wp_bind. eapply wp_get_bufs; [done|].
  assert (Hgo : ∀ L1 σ1 s1, Inv h L1 σ1 [] s1 → kept σ σ1 → (pf = false → Cooked L1 ≠ []) →
    wp (L ← get_bufs hp;
        match Cooked L with [] => mret None | (_, b) :: _ => reuse_front index pf b end) Q s1).
  { intros L1 σ1 s1 HI1 Hk1 Hne. destruct (HI1) as (p1 & t1 & l1 & HA1 & _).
    apply wp_bind. eapply wp_get_bufs; [done|]. destruct (Cooked L1) as [|[e b] ck] eqn:E.
    - apply wp_ret. eapply HQ; [done|done|done|done|]. intros Hpf. by destruct (Hne Hpf).
    - eapply wp_reuse_front; [done|done|done|done|done|]. intros h' L' σ' s' HI' Ho Hk Hw.
      eapply HQ; [done|done|by eapply kept_trans|done|done]. }
  apply wp_bind. destruct (bool_decide_reflect (Cooked L = [])) as [Hc|Hc]; destruct pf; simpl.
  - apply wp_ret. simpl. by apply (Hgo L σ s HI (kept_refl σ)).
  - apply wp_bind. eapply wp_MustGet_inv; [done| |].
    + intros s' HI'. rewrite bool_decide_true by done. apply wp_ret. simpl. by apply wp_ret, HF.
    + intros b s' Hb Hσ HI'. rewrite bool_decide_false by done. apply wp_bind.
      eapply wp_push_inv; [exact HI'|apply lookup_insert_eq|done|]. intros s2 HI2. apply wp_ret. simpl.
      eapply Hgo; [exact HI2|apply kept_insert; [intros ? E; congruence|done]|done].
  - apply wp_ret. simpl. by apply (Hgo L σ s HI (kept_refl σ)).
  - apply wp_ret. simpl. by apply (Hgo L σ s HI (kept_refl σ)).
Qed.

(** *** Prefetching *)
Lemma wp_more_buffers n cnt h L σ s (Q : Z → bc → Prop) :
  Inv h L σ [] s → 0 ≤ cnt →
  (∀ r L' σ' s', 0 ≤ r → Inv h L' σ' [] s' → kept σ σ' → Q r s') → wp (more_buffers n cnt hp) Q s.
Proof.
  revert cnt L σ s. induction n as [|n IH]; intros cnt L σ s HI Hc HQ; simpl.
  { apply wp_ret. eapply HQ; [done|done|apply kept_refl]. }
  destruct (cnt <? MIN_PREFETCH); [|apply wp_ret; eapply HQ; [done|done|apply kept_refl]].
  apply wp_bind. eapply wp_TryGet_inv; [done| |].
  - intros s' HI'. rewrite bool_decide_true by done. by eapply IH.
  - intros b s' Hb Hσ HI'. rewrite bool_decide_false by done. apply wp_bind.
    eapply wp_push_inv; [exact HI'|apply lookup_insert_eq|done|]. intros s2 HI2.
    eapply IH; [exact HI2|lia|]. intros r L' σ' s3 Hr HI3 Hk. eapply HQ; [done|done|].
    eapply kept_trans; [|exact Hk]. apply kept_insert; [intros ? E; congruence|done].
Qed.

(** The rounds that only prefetch. *)
Lemma wp_prefetch_rest n h L σ s index pf first (Q : option error → bc → Prop) :
  pf || negb first = true → Inv h L σ [] s → 0 ≤ index → index * bs < sz + bs →
  (∀ r h' L' σ' s', r = None ∨ r = Some Eof → Inv h' L' σ' [] s' → OptCnt h' = OptCnt h → kept σ σ' → Q r s') →
  wp (prefetch_loop cfg next n hp index pf first) Q s.
Proof.
  revert h L σ s index first. induction n as [|n IH]; intros h L σ s index first Hpf HI Hi Hlt HQ; simpl.
  { apply wp_ret. eapply HQ; [by left|done|done|apply kept_refl]. }
  destruct (HI) as (p & t & l & HA & _). apply wp_bind. eapply wp_get_value; [done|].
  destruct (values h !! block_key index) as [v|] eqn:Ev.
  { eapply IH; [by destruct pf|done|done|done|done]. }
  apply wp_bind. rewrite Hpf. eapply wp_refreshBlock; [done|done|done|done| | |done].
  - intros _. apply wp_ret. eapply HQ; [by right|done|done|apply kept_refl].
  - intros h' L' σ' s' HI' Ho Hk Hsz _. rewrite bool_decide_false by tauto.
    rewrite u64_small by nia.
    eapply IH; [by destruct pf|exact HI'|lia|nia|].
    intros r h2 L2 σ2 s2 Hr HI2 Ho2 Hk2. eapply HQ; [done|done|congruence|by eapply kept_trans].
Qed.

(** The block that is needed now, and the rounds after it. *)
Lemma wp_prefetch_first n h L σ s index (Q : option error → bc → Prop) :
  Inv h L σ [] s → 0 ≤ index → index * bs < sz → values h !! block_key index = None →
  (∀ r h' L' σ' s', r = None ∨ r = Some Eof → Inv h' L' σ' [] s' → OptCnt h' = OptCnt h → kept σ σ' →
     on_the_way σ' index → Q r s') →
  (∀ s', Inv h L σ [] s' → Q (Some (Msg "unable to allocate block")) s') →
  wp (prefetch_loop cfg next (S n) hp index false true) Q s.
Proof.
  intros HI Hi Hlt Hnone HQ HF. simpl. destruct (HI) as (p & t & l & HA & _). apply wp_bind.
  eapply wp_get_value; [done|]. rewrite Hnone. apply wp_bind.
  eapply wp_refreshBlock; [done|done|done|lia|lia| |].
  - intros h' L' σ' s' HI' Ho Hk Hsz Hw. rewrite bool_decide_false by tauto.
    rewrite u64_small by nia.
    eapply wp_prefetch_rest; [done|exact HI'|lia|nia|].
    intros r h2 L2 σ2 s2 Hr HI2 Ho2 Hk2. eapply HQ; [done|done|congruence|by eapply kept_trans|].
    by eapply kept_on_the_way; [exact Hk2|apply Hw].
  - intros s' HI' _. apply wp_ret. by apply HF.
Qed.

(** *** Random reads *)
Lemma wp_flags_inv h L σ fl s b st f (Q : unit → bc → Prop) :
  Inv h L σ fl s → σ !! b = Some st →
  (∀ x, b_flags x = 1 ∨ b_flags x = 3 → (b_flags (f x) = 1 ∨ b_flags (f x) = 3)) →
  (∀ x, b_state (f x) = b_state x ∧ b_data (f x) = b_data x ∧ b_id (f x) = b_id x ∧ b_offset (f x) = b_offset x) →
  ((∀ x, b_node (f x) = b_node x) ∨ b ∈ fl) →
  (∀ s', Inv h L σ fl s' → Q tt s') → wp (upd_b b f) Q s.
Proof.
  intros (p & t & l & HA & HG & Htp & Hlf) Hσ Hfl Hf Hn HQ.
  destruct (g_blk _ _ _ _ _ _ _ _ _ _ HG _ _ Hσ) as (x & d & Hc & Hd & Hx & Hrest).
  destruct (Hf x) as (E1 & E2 & E3 & E4).
  eapply wp_upd_b; [done|apply HG|done|done|by apply same_data|]. intros s' p' HA' Hfo Hc'.
  apply HQ. exists p', t, l. split; [done|]. split; [|done].
  rewrite <-(insert_id σ b st Hσ). eapply G_change; [exact HG|exact Hσ|exact Hfo| | |done|apply HG|].
  - exists (f x), d. split; [done|]. rewrite E2, E3, E4. split; [done|]. split; [by apply Hfl|done].
  - intros Hin. split; [done|]. intros x0 Hx0. destruct Hc as [Hx' _]. rewrite Hx' in Hx0. injection Hx0 as <-.
    exists (f x). split; [apply Hc'|]. destruct Hn as [Hn|Hn]; [done|]. exfalso.
    pose proof (G_own_nodup _ _ _ _ _ _ _ _ _ _ HG) as Hnd. unfold own_of in Hnd.
    rewrite (assoc_L (++)) in Hnd. apply NoDup_app in Hnd as (_ & Hd' & _). by apply (Hd' b).
  - intros b'. case_decide as Hd'; [subst b'|done]. rewrite (proj2 (g_queue _ _ _ _ _ _ _ _ _ _ HG)), Hσ. naive_solver.
Qed.

Lemma wp_clear_inv h L σ fl s b st (Q : unit → bc → Prop) :
  Inv h L σ fl s → σ !! b = Some st → (∀ s', Inv h L σ fl s' → Q tt s') →
  wp (clear_flag BlockFlagDownloading b) Q s.
Proof.
  intros HI Hσ HQ. eapply wp_flags_inv; [exact HI|exact Hσ| |done|by left|done].
  intros x Hx. left. simpl. by destruct Hx as [->| ->].
Qed.

Lemma wp_node_inv h L σ fl s b st e (Q : unit → bc → Prop) :
  Inv h L σ fl s → σ !! b = Some st → b ∈ fl → (∀ s', Inv h L σ fl s' → Q tt s') →
  wp (upd_b b (with_node e)) Q s.
Proof. intros HI Hσ Hb HQ. eapply wp_flags_inv; [exact HI|exact Hσ|done|done|by right|done]. Qed.

(** A taken block is opened. *)
Lemma wp_Unblock_inv h L σ fl s b i (Q : unit → bc → Prop) :
  Inv h L σ (b :: fl) s → σ !! b = Some (Taken i) →
  (∀ s', Inv h L (<[b := Open i]> σ) (b :: fl) s' → Q tt s') → wp (on_pool (Unblock b)) Q s.
Proof.
  intros (p & t & l & HA & HG & Htp & Hlf) Hσ HQ.
  destruct (g_blk _ _ _ _ _ _ _ _ _ _ HG _ _ Hσ) as (x & d & Hc & Hd & Hx & Hrest).
  eapply wp_on_pool; [done|]. eapply wp_cell_Unblock; [apply HG|exact Hc|]. intros p' Hf Hc' s' HA'.
  apply HQ. exists p', t, l. split; [done|]. split; [|done].
  eapply G_change; [exact HG|exact Hσ|exact Hf| | |done|apply HG|].
  - exists x, d. split; [done|]. split; [done|]. split; [done|]. exact Hrest.
  - intros Hin. exfalso. pose proof (G_own_nodup _ _ _ _ _ _ _ _ _ _ HG) as Hnd. unfold own_of in Hnd.
    rewrite (assoc_L (++)) in Hnd. apply NoDup_app in Hnd as (_ & Hd' & _). apply (Hd' b Hin). set_solver.
  - intros b'. case_decide as Hd0; [subst b'|done].
    rewrite (proj2 (g_queue _ _ _ _ _ _ _ _ _ _ HG)), Hσ. naive_solver.
Qed.

Lemma Inv_cooking h L σ fl s b :
  Inv h L σ fl s → b ∈ (Cooking L).*2 → ∃ st, σ !! b = Some st ∧ is_cooked st = false.
Proof.
  intros (p & t & l & HA & HG & Htp & Hlf) Hb.
  destruct (proj2 (g_dom _ _ _ _ _ _ _ _ _ _ HG b)) as [st Hst]; [unfold own_of; set_solver|].
  exists st. split; [done|]. by eapply (g_cg _ _ _ _ _ _ _ _ _ _ HG).
Qed.

Lemma wp_sort_cooking n h L σ s (Q : unit → bc → Prop) :
  Inv h L σ [] s → settled σ →
  (∀ L' σ' s', Inv h L' σ' [] s' → settled σ' → Q tt s') → wp (sort_cooking cfg next n hp) Q s.
Proof.
  revert L σ s. induction n as [|n IH]; intros L σ s HI Hst HQ; simpl.
  { apply wp_ret. by eapply HQ. }
  destruct (HI) as (p & t & l & HA & _). apply wp_bind. eapply wp_get_bufs; [done|].
  destruct (Cooking L) as [|[e b] cg] eqn:Ec; [apply wp_ret; by eapply HQ|].
  destruct (Inv_cooking _ _ _ _ _ b HI) as (st & Hσ & Hck); [rewrite Ec; set_solver|].
  assert (Hpl : (∃ i, st = Pending i) ∨ ∃ i, st = Loaded i).
  { pose proof (Hst _ _ Hσ). destruct st; simpl in *; try done; eauto. }
  apply wp_bind. eapply (wp_unlink_inv SCooking _ _ _ _ _ e b []); [exact HI|exact Ec|]. intros s1 HI1.
  apply wp_bind. eapply wp_node_inv; [exact HI1|exact Hσ|set_solver|]. intros s2 HI2.
  unfold try_receive. apply wp_bind, wp_bind. eapply wp_interleave; [exact HI2|]. intros σ3 s3 HI3 Hadv.
  pose proof (kept_settled _ _ (advanced_kept _ _ Hadv) Hst) as Hst3.
  assert (Hσ3 : (∃ i, σ3 !! b = Some (Pending i)) ∨ ∃ i, σ3 !! b = Some (Loaded i)).
  { destruct (Hadv b) as [E|(i & _ & E)]; [|by right; exists i]. rewrite E, Hσ.
    destruct Hpl as [[i ->]|[i ->]]; [left|right]; eauto. }
  apply wp_bind. destruct Hσ3 as [[i Hσ3]|[i Hσ3]]; (eapply wp_chan_ready; [exact HI3|exact Hσ3|]); simpl.
  - apply wp_ret. apply wp_bind. eapply wp_push_inv; [exact HI3|exact Hσ3|done|]. intros s4 HI4. by eapply IH.
  - apply wp_bind. eapply wp_receive; [exact HI3|exact Hσ3|]. intros s4 HI4. apply wp_ret.
    apply wp_bind, wp_bind. eapply wp_clear_inv; [exact HI4|apply lookup_insert_eq|]. intros s5 HI5.
    apply wp_bind. eapply wp_Unblock_inv; [exact HI5|apply lookup_insert_eq|]. intros s6 HI6.
    rewrite insert_insert_eq in HI6. eapply wp_push_inv; [exact HI6|apply lookup_insert_eq|done|]. intros s7 HI7.
    eapply IH; [exact HI7| |done]. intros b' st'. destruct (decide (b' = b)) as [->|].
    + rewrite lookup_insert_eq. by intros [= <-].
    + rewrite lookup_insert_ne by done. apply Hst3.
Qed.

(** A block outside of the lists goes back to the pool. *)
Definition give_back b : go bc unit :=
  x ← get_b b;
  _ ← remove_value hp (block_key (b_id x));
  _ ← upd_b b (with_node None);
  _ ← on_pool (ReUse b);
  on_pool (Release b).

Lemma wp_give_back h L σ s b st (Q : unit → bc → Prop) :
  Inv h L σ [b] s → σ !! b = Some st → is_cooked st = true →
  (∀ s', Inv (handle_with_values (delete (block_key (default (-1) (idx st))) (values h)) h) L
     (delete b σ) [] s' → Q tt s') →
  wp (give_back b) Q s.
Proof.
  intros (p & t & l & HA & HG & Htp & Hlf) Hσ Hck HQ.
  destruct (g_blk _ _ _ _ _ _ _ _ _ _ HG _ _ Hσ) as (x & d & Hc & Hd & Hx & Hrest).
  assert (Hid : b_id x = default (-1) (idx st)) by (by destruct (idx st); [destruct Hrest|]).
  unfold give_back. apply wp_bind. eapply wp_get_b; [done|apply Hc|]. rewrite Hid.
  apply wp_bind. eapply wp_remove_value; [done|]. intros s1 HA1. apply wp_bind.
  eapply wp_upd_b; [done|apply HG|done|done|by apply same_data|]. intros s2 p2 HA2 Hf2 Hc2.
  apply wp_bind. eapply wp_on_pool; [done|]. eapply wp_ReUse_frame; [apply Hf2|apply Hc2|].
  intros p3 c3 Hf3 Hc3 s3 HA3.
  assert (HG3 : G bs content p3 (Cooked L) (Cooking L) (next_elem L)
     (delete (block_key (default (-1) (idx st))) (values h)) (wi_block <$> queued t) (<[b := Fresh]> σ) [b]).
  { eapply G_unregister; [exact HG|exact Hσ|by destruct st|by eapply focus_trans|].
    eexists _, d. split; [exact Hc3|]. split; [done|]. split; [by left|done]. }
  eapply wp_on_pool; [done|]. eapply wp_Release_frame; [apply HG3|unfold own_of; set_solver|].
  intros p4 Hok4 Hsz4 Hf4 s4 HA4. apply HQ. exists p4, t, l. split; [done|]. split; [|done].
  rewrite <-(delete_insert_eq σ b Fresh). eapply G_drop; [exact HG3|apply lookup_insert_eq|done|done|done].
Qed.

Lemma wp_release_cooked n h L σ s index (Q : unit → bc → Prop) :
  Inv h L σ [] s → settled σ → values h !! block_key index = None →
  (∀ h' L' σ' s', Inv h' L' σ' [] s' → OptCnt h' = OptCnt h → settled σ' →
     values h' !! block_key index = None → Q tt s') →
  wp (release_cooked n hp) Q s.
Proof.
  revert h L σ s. induction n as [|n IH]; intros h L σ s HI Hst Hv HQ; simpl.
  { apply wp_ret. by eapply HQ. }
  destruct (HI) as (p & t & l & HA & HG & _). apply wp_bind. eapply wp_get_bufs; [done|].
  destruct (Cooked L) as [|[e b] ck] eqn:Ec; [apply wp_ret; by eapply HQ|].
  assert (Hin : b ∈ own_of ((e, b) :: ck) (Cooking L) []) by (unfold own_of; set_solver).
  destruct (G_status _ _ _ _ _ _ _ _ _ _ _ HG Hin) as (st & Hσ & _).
  assert (Hck : is_cooked st = true) by (eapply (g_ck _ _ _ _ _ _ _ _ _ _ HG b); [set_solver|done]).
  apply wp_bind. eapply (wp_unlink_inv SCooked _ _ _ _ _ e b []); [exact HI|exact Ec|]. intros s1 HI1.
  enough (Hgo : wp (_ ← give_back b; release_cooked n hp) Q s1).
  { revert Hgo. unfold give_back, wp, mbind, go_bind. destruct (get_b b s1) as [[x s2]| |]; [|done..].
    destruct (remove_value _ _ s2) as [[? s3]| |]; [|done..]. destruct (upd_b _ _ s3) as [[? s4]| |]; [|done..].
    by destruct (on_pool (ReUse b) s4) as [[? s5]| |]. }
  apply wp_bind. eapply wp_give_back; [exact HI1|exact Hσ|done|]. intros s2 HI2.
  eapply IH; [exact HI2| | |done].
  - intros b' st'. rewrite lookup_delete_Some. intros [_ ?]. by eapply Hst.
  - simpl. apply lookup_delete_None. by right.
Qed.

(** *** startPrefetch *)
Lemma wp_startPrefetch_seq h L σ s index (Q : option error → bc → Prop) :
  Inv h L σ [] s → OptCnt h ≤ MIN_RANDREAD → 0 ≤ index → index * bs < sz + bs →
  (∀ r h' L' σ' s', r = None ∨ r = Some Eof → Inv h' L' σ' [] s' → OptCnt h' = OptCnt h → kept σ σ' → Q r s') →
  wp (startPrefetch cfg next hp index true) Q s.
Proof.
  intros HI Ho Hi Hlt HQ. destruct (HI) as (p & t & l & HA & _). unfold startPrefetch.
  apply wp_bind. eapply wp_get_h; [done|]. apply wp_bind. eapply wp_get_bufs; [done|].
  destruct (Z.ltb_spec MIN_RANDREAD (OptCnt h)); [lia|]. apply wp_bind, wp_bind.
  eapply wp_more_buffers; [exact HI|lia|]. intros r L1 σ1 s1 Hr HI1 Hk1. apply wp_ret.
  eapply wp_prefetch_rest; [done|exact HI1|done|done|].
  intros r2 h2 L2 σ2 s2 Hr2 HI2 Ho2 Hk2. eapply HQ; [done|done|done|by eapply kept_trans].
Qed.

(** The call for a block that is needed. *)
Lemma wp_startPrefetch_first h L σ s index (Q : option error → bc → Prop) :
  Inv h L σ [] s → settled σ → 0 ≤ index → index * bs < sz → values h !! block_key index = None →
  (∀ r h' L' σ' s', r = None ∨ r = Some Eof → Inv h' L' σ' [] s' → settled σ' → on_the_way σ' index → Q r s') →
  (∀ h' L' σ' s', Inv h' L' σ' [] s' → settled σ' → Q (Some (Msg "unable to allocate block")) s') →
  wp (startPrefetch cfg next hp index false) Q s.
Proof.
  intros HI Hst Hi Hlt Hv HQ HF. destruct (HI) as (p & t & l & HA & _). unfold startPrefetch.
  apply wp_bind. eapply wp_get_h; [done|]. apply wp_bind. eapply wp_get_bufs; [done|].
  assert (Hgo : ∀ cnt h1 L1 σ1 s1, 1 ≤ cnt → Inv h1 L1 σ1 [] s1 → settled σ1 → values h1 !! block_key index = None →
    wp (prefetch_loop cfg next (Z.to_nat cnt) hp index false true) Q s1).
  { intros cnt h1 L1 σ1 s1 Hc HI1 Hst1 Hv1. destruct (Z.to_nat cnt) as [|n] eqn:E; [lia|].
    eapply wp_prefetch_first; [exact HI1|done|done|done| |].
    - intros r h2 L2 σ2 s2 Hr HI2 _ Hk2 Hw. eapply HQ; [done|exact HI2|by eapply kept_settled|done].
    - intros s2 HI2. by eapply HF. }
  apply wp_bind. destruct (Z.ltb_spec MIN_RANDREAD (OptCnt h)).
  - apply wp_bind. destruct (MIN_PREFETCH <? _).
    + apply wp_bind. eapply wp_sort_cooking; [exact HI|done|]. intros L1 σ1 s1 HI1 Hst1.
      destruct (HI1) as (p1 & t1 & l1 & HA1 & _). apply wp_bind. eapply wp_get_bufs; [done|].
      eapply wp_release_cooked; [exact HI1|done|exact Hv|]. intros h2 L2 σ2 s2 HI2 Ho2 Hst2 Hv2.
      apply wp_ret. by eapply Hgo.
    + apply wp_ret. apply wp_ret. by eapply Hgo.
  - apply wp_bind. eapply wp_more_buffers; [exact HI|lia|]. intros r L1 σ1 s1 Hr HI1 Hk1. apply wp_ret.
    eapply Hgo; [|exact HI1|by eapply kept_settled|done]. destruct (Z.eqb_spec r 0); lia.
Qed.

(** *** getBlock *)

(** A block of the file is in the handle's map exactly when a buffer has it. *)
Lemma wp_find_block h L σ s index (Q : option ptr → bc → Prop) :
  Inv h L σ [] s → 0 ≤ index →
  (values h !! block_key index = None → Q None s) →
  (∀ b st, σ !! b = Some st → idx st = Some index → Q (Some b) s) → wp (find_block hp index) Q s.
Proof.
  intros (p & t & l & HA & HG & _) Hi H0 HQ. unfold find_block. apply wp_bind. eapply wp_get_value; [done|].
  destruct (values h !! block_key index) as [v|] eqn:Ev; [|apply wp_ret; by apply H0].
  apply (g_vals _ _ _ _ _ _ _ _ _ _ HG) in Ev as (b & st & -> & Hσ & Hidx); [|done].
  apply wp_ret. by eapply HQ.
Qed.

Lemma Inv_optcnt h L σ fl s n (Q : unit → bc → Prop) :
  Inv h L σ fl s → (∀ s', Inv (handle_with_optcnt (n h) h) L σ fl s' → Q tt s') →
  wp (upd_h hp (λ h, handle_with_optcnt (n h) h)) Q s.
Proof.
  intros (p & t & l & HA & HG & Htp & Hlf) HQ. eapply wp_upd_h; [done|done|done|done|].
  intros s' HA'. apply HQ. by exists p, t, l.
Qed.

Lemma wp_locate_block h L σ s index (Q : ptr * option error → bc → Prop) :
  Inv h L σ [] s → settled σ → 0 ≤ index → index * bs < sz →
  (∀ b st h' L' σ' s', Inv h' L' σ' [] s' → settled σ' → σ' !! b = Some st → idx st = Some index → Q (b, None) s') →
  (∀ h' L' σ' s', Inv h' L' σ' [] s' → settled σ' → Q (nil_ptr, Some (Msg "unable to allocate block")) s') →
  wp (locate_block cfg next hp index) Q s.
Proof.
  intros HI Hst Hi Hlt HQ HF. unfold locate_block. apply wp_bind. eapply wp_find_block; [exact HI|done| |].
  2: { intros b st Hσ Hx. apply wp_ret. by eapply HQ. }
  intros Hv. apply wp_bind.
  assert (Hgo : ∀ h1 s1, Inv h1 L σ [] s1 → values h1 !! block_key index = None →
    wp (fetch_block cfg next hp index) Q s1).
  { intros h1 s1 HI1 Hv1. unfold fetch_block. apply wp_bind. eapply wp_startPrefetch_first; [exact HI1|done|done|done|done| |].
    - intros r h2 L2 σ2 s2 Hr HI2 Hst2 (b & st & Hσ & _ & Hx).
      assert (Er : bool_decide (r ≠ None) && bool_decide (r ≠ Some Eof) = false) by (by destruct Hr as [->| ->]).
      rewrite Er. apply wp_bind. eapply wp_find_block; [exact HI2|done| |].
      + intros Hn. exfalso. destruct HI2 as (p & t & l & HA & HG & _).
        assert (Hs : values h2 !! block_key index = Some (VBlock b)); [|congruence].
        apply (g_vals _ _ _ _ _ _ _ _ _ _ HG); [done|eauto 6].
      + intros b' st' Hσ' Hx'. apply wp_ret. by eapply HQ.
    - intros h2 L2 σ2 s2 HI2 Hst2. apply wp_ret. by eapply HF. }
  assert (Hcnt : ∀ first : bool, wp (_ ← (if first then mret tt else upd_h hp (λ h, handle_with_optcnt (u64 (OptCnt h + 1)) h));
      fetch_block cfg next hp index) Q s).
  { intros first. apply wp_bind. destruct first; [apply wp_ret; by eapply Hgo|].
    eapply (Inv_optcnt _ _ _ _ _ (λ h, u64 (OptCnt h + 1))); [exact HI|]. intros s1 HI1. by eapply Hgo. }
  destruct (bc_noPrefetch cfg); [apply wp_ret; exact (Hcnt false)|].
  destruct (HI) as (p & t & l & HA & HG & _). destruct (g_next _ _ _ _ _ _ _ _ _ _ HG) as (k & Hk & _).
  unfold next_offset. apply wp_bind, wp_bind. eapply wp_get_value; [done|]. rewrite Hk. apply wp_ret. apply wp_ret. exact (Hcnt (k =? 0)).
Qed.

(** The first reader puts the block in Cooked and opens it. *)
Lemma wp_open_block {A} h L σ s b i (K : go bc A) (Q : A → bc → Prop) :
  Inv h L σ [] s → σ !! b = Some (Taken i) →
  (∀ L' s', Inv h L' (<[b := Open i]> σ) [] s' → wp K Q s') →
  wp (_ ← remove_node SCooking hp b; _ ← push_node SCooked false hp b; _ ← on_pool (Unblock b); K) Q s.
Proof.
  intros (p & t & l & HA & HG & Htp & Hlf) Hσ HQ.
  destruct (g_blk _ _ _ _ _ _ _ _ _ _ HG _ _ Hσ) as (x & d & Hc & Hd & Hx & Hrest).
  assert (Hin : b ∈ (Cooking L).*2).
  { assert (Hi : b ∈ own_of (Cooked L) (Cooking L) []) by (apply (g_dom _ _ _ _ _ _ _ _ _ _ HG); eauto).
    unfold own_of in Hi. rewrite app_nil_r in Hi. apply elem_of_app in Hi as [Hi|Hi]; [|done].
    pose proof (g_ck _ _ _ _ _ _ _ _ _ _ HG _ _ Hi Hσ). done. }
  apply list_elem_of_fmap in Hin as ([e b'] & E & Hin). simpl in E. subst b'.
  destruct (g_node _ _ _ _ _ _ _ _ _ _ HG e b) as (x0 & Hx0 & Hnode); [set_solver|].
  destruct (Hc) as [Hx' _]. rewrite Hx' in Hx0. injection Hx0 as <-.
  apply list_elem_of_split in Hin as (l1 & l2 & Ecg). rewrite Ecg in HG.
  pose proof (g_elems _ _ _ _ _ _ _ _ _ _ HG) as (_ & _ & Hnd)%NoDup_app.
  apply wp_bind. unfold remove_node. apply wp_bind. eapply wp_get_b; [done|exact Hx'|]. rewrite Hnode.
  eapply wp_remove_elem; [done|]. intros s1 HA1. cbn [side_list] in HA1. rewrite Ecg, filter_unlink in HA1 by done.
  apply G_unlink_cg in HG. apply wp_bind.
  eapply wp_push_node; [done|apply HG|done|]. intros s2 p2 HA2 Hf2 Hc2.
  apply wp_bind. eapply wp_on_pool; [done|]. eapply wp_cell_Unblock; [apply Hf2|exact Hc2|].
  intros p3 Hf3 Hc3 s3 HA3. eapply HQ. exists p3, t, l. split; [done|]. split; [|done].
  assert (Hf : focus (own_of (Cooked L) (l1 ++ l2) [b]) p p3 b) by (by eapply focus_trans).
  assert (Hb : blk bs content p3 b (Open i)).
  { eexists _, d. split; [exact Hc3|]. split; [done|]. split; [done|]. exact Hrest. }
  eapply (G_enter_ck _ _ p3 p3 (Cooked L) []); rewrite ?app_nil_r.
  - eapply G_change; [exact HG|exact Hσ|exact Hf|exact Hb| |done|apply HG|].
    + intros Hin. exfalso. pose proof (G_own_nodup _ _ _ _ _ _ _ _ _ _ HG) as Hn. unfold own_of in Hn.
      rewrite (assoc_L (++)) in Hn. apply NoDup_app in Hn as (_ & Hd' & _). apply (Hd' b Hin). set_solver.
    + intros b'. case_decide as Hd0; [subst b'|done].
      rewrite (proj2 (g_queue _ _ _ _ _ _ _ _ _ _ HG)), Hσ. naive_solver.
  - apply lookup_insert_eq.
  - apply focus_refl, Hf.
  - done.
  - eexists. split; [apply Hc3|done].
  - done.
Qed.

Lemma settled_open σ σ1 b i :
  settled σ → kept (<[b := Taken i]> σ) σ1 → settled (<[b := Open i]> σ1).
Proof.
  intros Hs [_ Hk] b' st. destruct (decide (b' = b)) as [->|]; [rewrite lookup_insert_eq; by intros [= <-]|].
  rewrite lookup_insert_ne by done. intros Hst. destruct (in_hand st) eqn:E; [|done].
  specialize (Hk _ _ Hst E). rewrite lookup_insert_ne in Hk by done. rewrite <-E. by eapply Hs.
Qed.

Lemma wp_await_block h L σ s b st i (Q : ptr * option error → bc → Prop) :
  Inv h L σ [] s → settled σ → σ !! b = Some st → idx st = Some i →
  (∀ h' L' σ' s', Inv h' L' σ' [] s' → settled σ' → σ' !! b = Some (Open i) → Q (b, None) s') →
  wp (await_block cfg next hp b) Q s.
Proof.
  intros HI Hst Hσ Hx HQ. unfold await_block. apply wp_bind.
  destruct (decide (st = Open i)) as [->|Hno].
  { eapply wp_wait_open; [exact HI|exact Hσ|]. simpl. apply wp_ret. by eapply HQ. }
  assert (Hpl : σ !! b = Some (Pending i) ∨ σ !! b = Some (Loaded i)).
  { pose proof (Hst _ _ Hσ). rewrite Hσ. destruct st; simpl in *; simplify_eq; auto. }
  eapply wp_wait; [exact HI|exact Hpl|]. intros σ1 s1 Hadv HI1. simpl.
  assert (Hst1 : settled σ1) by (eapply kept_settled; [by apply advanced_kept|done]).
  apply wp_bind. eapply wp_clear_inv; [exact HI1|apply lookup_insert_eq|]. intros s2 HI2.
  destruct (Inv_block _ _ _ _ _ b (Taken i) HI2) as (p & t & HA & x & d & Hc & Hd & Hfl & _); [apply lookup_insert_eq|].
  apply wp_bind. eapply wp_get_b; [done|apply Hc|].
  assert (IsFailed x = false) as -> by (unfold IsFailed; by destruct Hfl as [->| ->]).
  apply wp_bind. eapply wp_get_h; [done|].
  assert (Hfin : ∀ h3 L3 σ3 s3, Inv h3 L3 σ3 [] s3 → kept (<[b := Taken i]> σ1) σ3 →
    wp (_ ← remove_node SCooking hp b; _ ← push_node SCooked false hp b; _ ← on_pool (Unblock b); mret (b, None)) Q s3).
  { intros h3 L3 σ3 s3 HI3 Hk3. destruct (kp_cooking _ _ Hk3 b (Taken i) i) as (st3 & Hσ3 & _ & _ & Ht);
      [apply lookup_insert_eq|done|done|]. rewrite (Ht eq_refl) in Hσ3.
    eapply wp_open_block; [exact HI3|exact Hσ3|]. intros L4 s4 HI4. apply wp_ret.
    eapply HQ; [exact HI4|by eapply settled_open|apply lookup_insert_eq]. }
  apply wp_bind. destruct (Z.leb_spec (OptCnt h) MIN_RANDREAD) as [Ho|];
    [|apply wp_ret; eapply Hfin; [exact HI2|apply kept_refl]].
  destruct (HI2) as (p2 & t2 & l2 & HA2 & HG2 & _).
  destruct (g_next _ _ _ _ _ _ _ _ _ _ HG2) as (k & Hk & Hk0 & Hkb).
  unfold next_offset. apply wp_bind, wp_bind. eapply wp_get_value; [done|]. rewrite Hk. apply wp_ret.
  destruct (_ <? _); [|apply wp_ret; eapply Hfin; [exact HI2|apply kept_refl]].
  apply wp_bind. eapply wp_startPrefetch_seq; [exact HI2|done|done|done|].
  intros r h3 L3 σ3 s3 _ HI3 _ Hk3. apply wp_ret. by eapply Hfin.
Qed.

Lemma wp_getBlock h L σ s off (Q : ptr * option error → bc → Prop) :
  Inv h L σ [] s → settled σ → 0 ≤ off →
  (sz ≤ off → Q (nil_ptr, Some Eof) s) →
  (∀ b h' L' σ' s', off < sz → Inv h' L' σ' [] s' → settled σ' → σ' !! b = Some (Open (off / bs)) →
     Q (b, None) s') →
  (∀ h' L' σ' s', Inv h' L' σ' [] s' → settled σ' → Q (nil_ptr, Some (Msg "unable to allocate block")) s') →
  wp (getBlock cfg next hp off) Q s.
Proof.
  intros HI Hst Hoff HE HQ HF. unfold getBlock. destruct (HI) as (p & t & l & HA & _).
  apply wp_bind. eapply wp_get_h; [done|]. rewrite (at_size _ _ _ _ _ HA), u64_small by lia.
  destruct (Z.leb_spec sz off); [by apply wp_ret, HE|].
  unfold getBlockIndex. destruct (Z.eqb_spec bs 0); [lia|]. apply wp_bind, wp_ret.
  assert (0 ≤ off / bs) by (apply Z.div_pos; lia).
  assert (off / bs * bs < sz) by (pose proof (Z.mul_div_le off bs Hbs); lia).
  apply wp_bind. eapply wp_locate_block; [exact HI|done|done|done| |].
  - intros b st h1 L1 σ1 s1 HI1 Hst1 Hσ1 Hx1. simpl. eapply wp_await_block; [exact HI1|done|done|done|].
    intros h2 L2 σ2 s2 HI2 Hst2 Hσ2. by eapply HQ.
  - intros h1 L1 σ1 s1 HI1 Hst1. simpl. apply wp_ret. by eapply HF.
Qed.

(** *** ReadInBuffer *)

(** Between the calls on the handle: the file is open for reading. *)
Definition opened s : Prop := ∃ h L σ, Inv h L σ [] s ∧ settled σ.

(** What a read of the buffer from position [dr] on, at offset [off] of the
    file, returns. *)
Record read_result (off : Z) (dr : nat) (data data' : list byte) (n : Z) (err : option error) : Prop := {
  rr_length : length data' = length data;
  rr_count : Z.of_nat dr ≤ n ≤ Z.of_nat (length data) ;
  rr_bytes : ∀ k : nat, (dr ≤ k)%nat → Z.of_nat k < n → off + Z.of_nat k - Z.of_nat dr < sz →
    data' !! k = content !! Z.to_nat (off + Z.of_nat k - Z.of_nat dr);
  rr_rest : ∀ k : nat, (k < dr)%nat ∨ n ≤ Z.of_nat k → data' !! k = data !! k;
  rr_end : Z.of_nat dr < n → off < sz ∧ off + n - Z.of_nat dr ≤ (sz - 1) / bs * bs + bs;
  rr_err : (err = None ∧ n = Z.of_nat (length data)) ∨ (err = Some Eof ∧ sz ≤ off + n - Z.of_nat dr) ∨
    err = Some (Msg "unable to allocate block")
}.

Lemma read_stop off dr data err :
  (dr ≤ length data)%nat →
  (err = None ∧ dr = length data) ∨ (err = Some Eof ∧ sz ≤ off) ∨ err = Some (Msg "unable to allocate block") →
  read_result off dr data data (Z.of_nat dr) err.
Proof.
  intros Hdr He. split; [done|lia|intros; lia|done|lia|].
  destruct He as [[-> ->]|[[-> ?]| ->]]; [by left|right; left; split; [done|lia]|by right; right].
Qed.

Lemma Inv_open_data h L σ s b i :
  Inv h L σ [] s → σ !! b = Some (Open i) → ∃ p t x d, At s p h L t ∧ p_blocks p !! b = Some x ∧
    b_data x = Some d ∧ b_offset x = i * bs ∧ Z.of_nat (length d) = bs ∧ right bs content d i.
Proof.
  intros (p & t & l & HA & HG & _) Hσ.
  destruct (g_blk _ _ _ _ _ _ _ _ _ _ HG _ _ Hσ) as (x & d & [Hx _] & Hd & _ & _ & Ho & _ & _ & Hr).
  exists p, (t, l), x, d. split_and!; try done; [|by apply Hr].
  destruct (pool_ok_live _ _ b (g_pool _ _ _ _ _ _ _ _ _ _ HG)) as (x0 & d0 & Hx0 & Hd0 & Hl0).
  { apply (g_dom _ _ _ _ _ _ _ _ _ _ HG). eauto. }
  simplify_eq. rewrite Hl0. apply HG.
Qed.

Lemma wp_read_loop fuel s off dr data (Q : list byte * Z * option error → bc → Prop) :
  opened s → 0 ≤ off → off < sz + bs → (dr ≤ length data ≤ dr + fuel)%nat →
  (∀ data' n err s', opened s' → read_result off dr data data' n err → Q (data', n, err) s') →
  wp (read_loop cfg next fuel hp off dr data) Q s.
Proof.
  revert s off dr data. induction fuel as [|fuel IH]; intros s off dr data (h & L & σ & HI & Hst) Hoff Hmax Hdr HQ.
  { simpl. rewrite decide_False by lia. apply wp_ret. apply HQ; [by exists h, L, σ|].
    apply read_stop; [lia|]. left. split; [done|lia]. }
  cbn [read_loop]. destruct (decide (dr < length data)%nat) as [Hlt|].
  2: { apply wp_ret. apply HQ; [by exists h, L, σ|]. apply read_stop; [lia|]. left. split; [done|lia]. }
  apply wp_bind. rewrite u64_small by lia. eapply wp_getBlock; [exact HI|done|done| | |].
  - intros HE. simpl. apply wp_ret. apply HQ; [by exists h, L, σ|]. apply read_stop; [lia|]. by right; left.
  - intros b h1 L1 σ1 s1 Hin HI1 Hst1 Hσ1. cbn beta iota. rewrite bool_decide_false by tauto.
    destruct (Inv_open_data _ _ _ _ _ _ HI1 Hσ1) as (p1 & t1 & x & d & HA1 & Hx & Hd & Ho & Hl & Hright).
    apply wp_bind. eapply wp_get_b; [done|done|]. rewrite Hd, Ho. change (default [] (Some d)) with d.
    pose proof (Z.div_mod off bs ltac:(lia)) as Hdm. pose proof (Z.mod_pos_bound off bs Hbs) as Hmod.
    rewrite u64_small by nia. set (ro := off - off / bs * bs).
    assert (Hro : 0 ≤ ro < bs) by (unfold ro; lia).
    assert (Erod : off / bs * bs + ro = off) by (unfold ro; lia). clearbody ro. clear Hdm Hmod.
    destruct (Z.ltb_spec (Z.of_nat (length d)) ro) as [|_]; [lia|].
    pose proof (length_drop d (Z.to_nat ro)) as Hld.
    pose proof (copy_at_length data dr (drop (Z.to_nat ro) d) ltac:(lia)) as Hl1.
    pose proof (λ k, copy_at_lookup data dr (drop (Z.to_nat ro) d) k ltac:(lia)) as Hlook.
    assert (Hn : (copy_at data dr (drop (Z.to_nat ro) d)).2 = Nat.min (length data - dr) (length d - Z.to_nat ro))
      by (by rewrite <-Hld).
    destruct (copy_at data dr (drop (Z.to_nat ro) d)) as [data1 n]. simpl in *.
    rewrite i64_small by (unfold is_i64; lia).
    eapply IH; [by exists h1, L1, σ1|lia|lia|lia|].
    intros data' m err s' Hop [R1 R2 R3 R4 R6 R5]. apply HQ; [done|]. split; [congruence|lia| | | |].
    + intros k Hk1 Hk2 Hk3. destruct (decide (dr + n ≤ k)%nat).
      * rewrite R3 by lia. f_equal. lia.
      * rewrite R4, Hlook, decide_True by lia. rewrite lookup_drop, Hright by lia. f_equal. lia.
    + intros k Hk. rewrite R4, Hlook, decide_False by lia. done.
    + intros _. split; [done|]. destruct (decide (Z.of_nat (dr + n) < m)) as [Hm|]; [specialize (R6 Hm); lia|].
      assert (off / bs ≤ (sz - 1) / bs) by (apply Z.div_le_mono; lia). nia.
    + destruct R5 as [[-> ?]|[[-> ?]| ->]]; [left; split; [done|lia]|right; left; split; [done|lia]|by right; right].
  - intros h1 L1 σ1 s1 HI1 Hst1. simpl. apply wp_ret. apply HQ; [by exists h1, L1, σ1|].
    apply read_stop; [lia|]. by right; right.
Qed.

Lemma wp_bc_ReadInBuffer s off data (Q : list byte * Z * option error → bc → Prop) :
  opened s → 0 ≤ off →
  (∀ data' n err s', opened s' → read_result off 0 data data' n err → Q (data', n, err) s') →
  wp (ReadInBuffer cfg next (mkReadInBufferOptions hp off data)) Q s.
Proof.
  intros Hop Hoff HQ. destruct (Hop) as (h & L & σ & (p & t & l & HA & _) & _).
  unfold ReadInBuffer. simpl. apply wp_bind. eapply wp_get_h; [done|]. rewrite (at_size _ _ _ _ _ HA).
  destruct (Z.leb_spec sz off).
  - apply wp_ret. apply HQ; [done|]. apply (read_stop off 0); [lia|]. by right; left.
  - eapply wp_read_loop; [done|done|lia|lia|done].
Qed.
End read.

(** ** Opening a file for reading, and a session of reads *)
Class OpenService {N : Type} `{!Runtime N} (next : Component N) (path : string)
    (content : list byte) (NI : N → Prop) := {
  op_read hp :: ReadService next hp path content NI;
  op_attr n : NI n → wp (c_GetAttr next (mkGetAttrOptions path false)) (λ r n',
    r.2 = None ∧ NI n' ∧ rt_handles n' = rt_handles n ∧
    ∃ a, rt_objs n' !! r.1 = Some a ∧ Size a = Z.of_nat (length content)) n
}.

Section session.
Context {M D N : Type} `{!Memory M} `{!MemoryLaws M} `{!BlockDisk D} `{!Runtime N}.
Context (cfg : BCConfig) (next : Component N) (path : string) (content : list byte) (NI : N → Prop).
Context `{!OpenService next path content NI}.
Abbreviation bc := (BCState M D N).
Abbreviation bs := (bc_blockSize cfg).
Abbreviation sz := (Z.of_nat (length content)).

(** The block cache when no file is open. *)
Record idle (s : bc) : Prop := {
  id_pool : pool_ok (bc_pool s) [];
  id_size : p_blockSize (bc_pool s) = bs;
  id_tp : tp_open (bc_tp s) = true ∧ 0 < worker (bc_tp s) ∧ worker (bc_tp s) * 5000 < 2 ^ 32 ∧
    priorityCh (bc_tp s) = [] ∧ normalCh (bc_tp s) = [];
  id_locks : locks_free (bc_locks s);
  id_next : NI (bc_next s)
}.
(** The sizes for which the arithmetic does not overflow, and no disk cache. *)
Definition plain : Prop := 0 < bs ∧ sz + bs < 2 ^ 63 ∧ bc_tmpPath cfg = "".

Definition file_handle (mt : Time) (bp : ptr) : Handle :=
  mkHandle nil_ptr nil_ptr bp InvalidHandleID sz mt 0 0 0 path
    (<["#" := VUint64 0]> (<["blockList" := VBlockList ∅]> ∅)).

Lemma G_empty (p : PoolState M) mt bp :
  0 < bs → pool_ok p [] → p_blockSize p = bs →
  G bs content p [] [] 0 (values (file_handle mt bp)) [] ∅ [].
Proof.
  intros Hb Hok Hs. split; try done; simpl.
  - apply NoDup_nil_2.
  - by intros e ?%not_elem_of_nil.
  - by intros e b ?%not_elem_of_nil.
  - intros b. rewrite lookup_empty. split; [by intros [? ?]|by intros ?%not_elem_of_nil].
  - split; [apply NoDup_nil_2|]. intros b. rewrite lookup_empty. split; [by intros ?%not_elem_of_nil|by intros [? ?]].
  - intros i v _. rewrite lookup_insert_ne by apply not_eq_sym, block_key_hash.
    rewrite lookup_insert_ne by apply not_eq_sym, block_key_list. rewrite lookup_empty.
    split; [done|]. intros (b & st & _ & Hb' & _). by rewrite lookup_empty in Hb'.
  - exists 0. rewrite lookup_insert_eq. split; [done|]. lia.
Qed.

Lemma wp_upd_new (s : bc) hp h f (Q : unit → bc → Prop) :
  rt_handles (bc_next s) !! hp = Some h →
  Q tt (set_nextst (rt_set_handles (<[hp := f h]> (rt_handles (bc_next s))) (bc_next s)) s) →
  wp (upd_h hp f) Q s.
Proof. intros Hh HQ. unfold upd_h, on_next. apply wp_zoom. unfold wp. by rewrite Hh. Qed.

(** The handle made by OpenFile, up to its preparation. *)
Lemma wp_new_handle {A} (s : bc) mt (K : ptr → go bc A) (Q : A → bc → Prop) :
  plain → idle s →
  (∀ hp s', Inv cfg hp path content NI (file_handle mt (fresh_ptr (bc_bufs s))) (mkBufLists [] [] 0) ∅ [] s' →
     wp (K hp) Q s') →
  wp (hp ← new_h (NewHandle path);
      _ ← upd_h hp (handle_with_mtime mt);
      _ ← upd_h hp (handle_with_size sz);
      _ ← prepareHandleForBlockCache hp; K hp) Q s.
Proof.
  intros (Hb & Hfit & Htmp) [H1 H2 (Ho & Hw1 & Hw2 & Hp & Hn) H4 H5] HQ.
  apply wp_bind. unfold new_h, on_next. apply wp_zoom. unfold wp at 1. set (hp := fresh_ptr _).
  pose proof (op_read (content := content) (NI := NI) (next := next) (path := path) hp) as Hrs.
  repeat (apply wp_bind; eapply wp_upd_new; [simpl; rewrite rs_handles_set; apply lookup_insert_eq|]).
  unfold prepareHandleForBlockCache. apply wp_bind, wp_bind. unfold go_get, wp at 1. simpl.
  apply wp_bind. unfold go_modify, wp at 1.
  apply wp_bind. eapply wp_upd_new; [simpl; rewrite rs_handles_set; apply lookup_insert_eq|].
  apply wp_bind. unfold set_value. eapply wp_upd_new; [simpl; rewrite rs_handles_set; apply lookup_insert_eq|].
  unfold set_value. eapply wp_upd_new; [simpl; rewrite rs_handles_set; apply lookup_insert_eq|].
  apply HQ. simpl.
  exists (bc_pool s), (bc_tp s), (bc_locks s). split.
  { split; simpl; try done.
    - rewrite rs_handles_set. apply lookup_insert_eq.
    - apply lookup_insert_eq.
    - by repeat apply rs_set. }
  split; [|split; [|done]].
  - unfold queued. rewrite Hp, Hn. by apply (G_empty (bc_pool s) mt (fresh_ptr (bc_bufs s))).
  - split; [done|done|]. unfold queued. rewrite Hp, Hn. by intros it ?%not_elem_of_nil.
Qed.

Lemma wp_OpenFile (s : bc) mode (Q : ptr * option error → bc → Prop) :
  plain → idle s → (∀ hp s', opened cfg hp path content NI s' → Q (hp, None) s') →
  wp (OpenFile cfg next (mkOpenFileOptions path 0 mode)) Q s.
Proof.
  intros Hpl Hid HQ. destruct (Hpl) as (Hb & Hfit & Htmp). destruct (Hid) as [H1 H2 H3 H4 H5].
  unfold OpenFile. cbn [OpenFile_Name OpenFile_Flags]. apply wp_bind. unfold on_next at 1. apply wp_zoom.
  eapply wp_mono; [by apply op_attr|]. intros [ap err] n1 (Herr & Hn1 & Hh1 & a & Ha & Hsz). simpl in *. subst err.
  rewrite bool_decide_false by tauto. apply wp_bind. unfold on_next at 1. apply wp_zoom. unfold load_obj, wp at 1.
  simpl. rewrite Ha. simpl. rewrite Hsz.
  eapply wp_new_handle; [done|by split|]. intros hp s1 HI1. cbn [andb orb negb]. apply wp_bind, wp_ret.
  rewrite bool_decide_false by tauto.
  pose proof (op_read (content := content) (NI := NI) (next := next) (path := path) hp) as Hrs.
  assert (Hst : settled ∅) by (intros b st Hb'; by rewrite lookup_empty in Hb').
  destruct (HI1) as (p & t & l & HA & HG & _). apply wp_bind. eapply wp_get_h; [done|]. simpl.
  assert (Hdone : ∀ h L σ s', Inv cfg hp path content NI h L σ [] s' → settled σ → Q (hp, None) s').
  { intros h L σ s' HI Hs. apply HQ. by exists h, L, σ. }
  assert (Hv : ∀ mt bp, values (file_handle mt bp) !! block_key 0 = None) by done.
  apply wp_bind. destruct (Z.ltb_spec 0 sz) as [Hpos|]; [|apply wp_ret; apply wp_ret; by eapply Hdone].
  rewrite i64_small by (unfold is_i64; lia). destruct (sz <? bs).
  - apply wp_bind. eapply wp_refreshBlock; [done|done|done|done|exact HI1|lia|done|lia|lia| |].
    + intros h' L' σ' s' HI' _ Hk _ _. apply wp_ret. apply wp_ret. eapply Hdone; [exact HI'|by eapply kept_settled].
    + intros s' HI' _. apply wp_ret. apply wp_ret. by eapply Hdone.
  - destruct (_ && _); [|apply wp_ret; apply wp_ret; by eapply Hdone].
    apply wp_bind. eapply wp_startPrefetch_first; [done|done|done|done|exact HI1|done|lia|lia|done| |].
    + intros r h' L' σ' s' _ HI' Hs' _. apply wp_ret. apply wp_ret. by eapply Hdone.
    + intros h' L' σ' s' HI' Hs'. apply wp_ret. apply wp_ret. by eapply Hdone.
Qed.

(** The application reads: at each offset, into the buffer given. *)
Fixpoint read_all (hp : ptr) (reqs : list (Z * list byte)) : go bc (list (list byte * Z * option error)) :=
  match reqs with
  | [] => mret []
  | (off, data) :: reqs =>
      r ← ReadInBuffer cfg next (mkReadInBufferOptions hp off data);
      rs ← read_all hp reqs;
      mret (r :: rs)
  end.

(** The answer [data'], [n], [err] to a read at [off] into [data].  The first bytes of the
    buffer are those of the file from the offset on.  When the end of the file is among
    the [n] bytes, fewer than a block of bytes of no meaning follow them ([pad], the rest
    of the last block, which the count includes); behind the count the buffer is as it
    was.  The buffer is full, or the end of the file was reached, or no block could be
    allocated. *)
Definition answered (req : Z * list byte) (r : list byte * Z * option error) : Prop :=
  let '(off, data) := req in
  let '(data', n, err) := r in
  ∃ pad, 0 ≤ n ≤ Z.of_nat (length data) ∧
    data' = take (Z.to_nat n) (drop (Z.to_nat off) content) ++ pad ++ drop (Z.to_nat n) data ∧
    Z.of_nat (length pad) = Z.max 0 (n - Z.max 0 (sz - off)) ∧
    Z.of_nat (length pad) < bs ∧
    ((err = None ∧ n = Z.of_nat (length data)) ∨ (err = Some Eof ∧ sz ≤ off + n) ∨
     err = Some (Msg "unable to allocate block")).

Lemma read_result_answered off data data' n err :
  0 < bs → 0 ≤ off → read_result cfg content off 0 data data' n err → answered (off, data) (data', n, err).
Proof.
  intros Hb Hoff [R1 R2 R3 R4 R5 R6].
  set (m := Nat.min (Z.to_nat n) (length content - Z.to_nat off)).
  exists (drop m (take (Z.to_nat n) data')). split_and!; [lia|lia| | | |].
  - replace (take (Z.to_nat n) (drop (Z.to_nat off) content)) with (take m data').
    + rewrite app_assoc. replace (take m data') with (take m (take (Z.to_nat n) data')) by (rewrite take_take; f_equal; lia).
      rewrite take_drop. replace (drop (Z.to_nat n) data) with (drop (Z.to_nat n) data'); [by rewrite take_drop|].
      apply list_eq. intros k. rewrite !lookup_drop. apply R4. lia.
    + apply list_eq. intros k. destruct (decide (k < m)%nat) as [Hk|Hk].
      * rewrite !lookup_take_lt, lookup_drop by lia. rewrite R3 by lia. f_equal. lia.
      * rewrite lookup_take_ge by lia. symmetry. apply lookup_ge_None. rewrite length_take, length_drop. lia.
  - rewrite length_drop, length_take. lia.
  - rewrite length_drop, length_take. destruct (decide (0 < n)) as [Hn|]; [|lia].
    destruct (R5 Hn) as [Hin Hend]. pose proof (Z.mul_div_le (sz - 1) bs Hb). lia.
  - destruct R6 as [?|[[? ?]|?]]; [by left|right; left; split; [done|lia]|by right; right].
Qed.

Lemma wp_read_all hp (s : bc) reqs (Q : list (list byte * Z * option error) → bc → Prop) :
  plain → opened cfg hp path content NI s → Forall (λ r, 0 ≤ r.1) reqs →
  (∀ rs s', Forall2 answered reqs rs → Q rs s') → wp (read_all hp reqs) Q s.
Proof.
  intros Hpl. revert s Q. induction reqs as [|[off data] reqs IH]; intros s Q Hop Hpos HQ; simpl.
  { apply wp_ret. apply HQ. constructor. }
  destruct Hpl as (Hb & Hfit & Htmp). apply Forall_cons in Hpos as [Hoff Hpos]. apply wp_bind.
  pose proof (op_read (content := content) (NI := NI) (next := next) (path := path) hp) as Hrs.
  eapply wp_bc_ReadInBuffer; [done|done|done|done|exact Hop|exact Hoff|]. intros data' n err s1 Hop1 Hr.
  apply wp_bind. apply IH; [done|done|]. intros rs s2 Hrs2. apply wp_ret. apply HQ.
  constructor; [by apply read_result_answered|done].
Qed.

(** C1: a session of reads through the block cache, without a disk cache and with
    downloads that succeed.  The file is opened for reading and read at any
    offsets, with any sizes, sequentially or at random.  For every schedule of the
    workers and every state of the pool, each call returns, and what it returns is
    [answered]: within the file the bytes are those of the file at their
    positions; a read that reaches the end of the file counts, after the last byte
    of the file, fewer than a block of bytes past the end; the buffer is filled, or
    io.EOF is returned after all that the file has from that offset on, or the
    call reports that no block could be allocated. *)
Theorem reads_return_content (s : bc) mode reqs :
  plain → idle s → Forall (λ r, 0 ≤ r.1) reqs →
  wp ('(hp, err) ← OpenFile cfg next (mkOpenFileOptions path 0 mode);
      rs ← read_all hp reqs; mret (err, rs))
    (λ r _, r.1 = None ∧ Forall2 answered reqs r.2) s.
Proof.
  intros Hpl Hid Hpos. apply wp_bind. eapply wp_OpenFile; [done|done|]. intros hp s1 Hop.
  apply wp_bind. eapply wp_read_all; [done|exact Hop|done|]. intros rs s2 Hrs. by apply wp_ret.
Qed.
End session.

(** ** The configuration *)
Section configuration.
Context {M D N : Type} `{!Memory M} `{!MemoryLaws M} `{!BlockDisk D}.
Context (NI : N → Prop).

(** C36: what a configuration without a disk cache, whose sizes fit the machine words
    they are computed in, gives when Configure accepts it.
    The pool has memSize / blockSize free blocks of the configured size, the
    queues are empty, and the cache is ready for [reads_return_content]; the
    number of blocks to prefetch is the default, 0 (which turns prefetching
    off) or more than ten, and that many blocks fit in the memory limit. *)
Theorem Configure_ready env conf (s : BCState M D N) m :
  TmpPath conf = "" → bc_pool s = empty_pool m → locks_free (bc_locks s) → NI (bc_next s) →
  conf_blockSize conf < 2 ^ 63 → conf_memSize conf / conf_blockSize conf < 2 ^ 32 →
  0 ≤ conf_workers conf → conf_workers conf * 5000 < 2 ^ 32 →
  0 ≤ conf_prefetch conf * conf_blockSize conf < 2 ^ 64 →
  wp (Configure env conf) (λ r s', ∀ cfg, r = inl cfg →
    idle cfg NI s' ∧ bc_blockSize cfg = conf_blockSize conf ∧ bc_tmpPath cfg = "" ∧
    Z.of_nat (length (blocksCh (bc_pool s'))) = conf_memSize conf / conf_blockSize conf ∧
    bc_prefetch cfg * bc_blockSize cfg ≤ conf_memSize conf ∧
    (bc_prefetch cfg = MIN_PREFETCH ∨ bc_prefetch cfg = 0 ∨ 2 * MIN_PREFETCH < bc_prefetch cfg) ∧
    (bc_noPrefetch cfg = true ↔ bc_prefetch cfg = 0)) s.
Proof.
  intros Htmp Hpool Hlocks HNI Hb Hm Hw0 Hw Hpf. unfold Configure. rewrite Htmp.
  assert (Hpre : ∀ p, PrefetchCount conf = Some p → conf_prefetch conf = p) by (intros p E; unfold conf_prefetch; by rewrite E).
  destruct (match PrefetchCount conf with Some _ => _ | None => _ end) eqn:Ep; [by apply wp_ret|].
  assert (Hcases : conf_prefetch conf = MIN_PREFETCH ∨ conf_prefetch conf = 0 ∨ 2 * MIN_PREFETCH < conf_prefetch conf).
  { unfold conf_prefetch. destruct (PrefetchCount conf) as [p|]; simpl; [|by left]. unfold MIN_PREFETCH in *.
    destruct (Z.eqb_spec p 0); [by right; left|]. simpl in Ep. apply Z.leb_gt in Ep. right. right. lia. }
  apply wp_bind. unfold go_modify at 1, wp at 1. rewrite bool_decide_true by done. apply wp_bind, wp_ret.
  rewrite u64_small by done. destruct (Z.ltb_spec (conf_memSize conf) (conf_prefetch conf * conf_blockSize conf)) as [|Hfit0];
    [by apply wp_ret|].
  apply wp_bind. unfold on_pool. apply wp_zoom. simpl. rewrite Hpool.
  destruct (decide (conf_blockSize conf = 0 ∨ conf_memSize conf < conf_blockSize conf)) as [Hbad|Hgood].
  { unfold NewBlockPool. assert ((conf_blockSize conf =? 0) || (conf_memSize conf <? conf_blockSize conf) = true) as ->.
    { apply orb_true_iff. destruct Hbad; [left; by apply Z.eqb_eq|right; by apply Z.ltb_lt]. }
    apply wp_ret. simpl. by apply wp_ret. }
  assert (0 ≤ conf_blockSize conf).
  { unfold conf_blockSize. destruct (BlockSize conf); [apply u64_range|unfold MB; lia]. }
  eapply wp_mono; [apply wp_NewBlockPool; split_and!; lia|]. intros [|] p Hr; [|simpl; by apply wp_ret].
  destruct (Hr eq_refl) as (Hok & Hlen & _ & Hsz). simpl.
  destruct (newThreadPool (conf_workers conf) true) as [t|] eqn:Et; [|by apply wp_ret].
  unfold newThreadPool in Et. destruct (Z.eqb_spec (conf_workers conf) 0) as [|Hwn]; [done|]. injection Et as <-.
  apply wp_bind. unfold go_modify, wp at 1. apply wp_bind, wp_ret.
  apply wp_ret. intros cfg [= <-]. simpl. split_and!; try done.
  - split; simpl; try done. split_and!; try done; lia.
  - unfold conf_prefetch in *. destruct (PrefetchCount conf); simpl; [by rewrite Z.eqb_eq|].
    split; [done|]. unfold MIN_PREFETCH. lia.
Qed.
End configuration.
