(* ===== verification/BlockCacheRuns.v ===== *)
(** * The block cache on a store in memory

    A storage component, a disk and a clock to execute the block cache of
    BlockCache.v on, and runs of it: reads and writes across blocks, and the
    cases in which it returns or commits the wrong bytes. *)
From stdpp Require Import pretty.
From Stdlib Require Import QArith Qround.
From S2P Require Import Prelude GoLib Common HandleMap Internal LockMap Base64 AzUtils BlockPool ThreadPool BlockCache BlockCacheRead.
Open Scope Z_scope.

(** A store: committed contents, staged blocks by file and id, the ids of the
    committed blocks, a clock, and the number of reads that will fail. *)
Record store := mkStore {
  st_objs : gmap ptr ObjAttr;
  st_handles : gmap ptr Handle;
  st_clock : Z;
  st_files : gmap string (list byte);
  st_staged : gmap string (gmap string (list byte));
  st_ids : gmap string (list string);
  st_failing : nat
}.

#[export] Instance Runtime_store : Runtime store := {
  rt_now n := Ret (st_clock n, mkStore (st_objs n) (st_handles n) (st_clock n + 1) (st_files n) (st_staged n) (st_ids n) (st_failing n));
  rt_objs := st_objs;
  rt_set_objs m n := mkStore m (st_handles n) (st_clock n) (st_files n) (st_staged n) (st_ids n) (st_failing n);
  rt_handles := st_handles;
  rt_set_handles m n := mkStore (st_objs n) m (st_clock n) (st_files n) (st_staged n) (st_ids n) (st_failing n)
}.

Definition set_files (m : gmap string (list byte)) (n : store) : store :=
  mkStore (st_objs n) (st_handles n) (st_clock n) m (st_staged n) (st_ids n) (st_failing n).
Definition set_staged (m : gmap string (gmap string (list byte))) (n : store) : store :=
  mkStore (st_objs n) (st_handles n) (st_clock n) (st_files n) m (st_ids n) (st_failing n).
Definition set_failing (k : nat) (n : store) : store :=
  mkStore (st_objs n) (st_handles n) (st_clock n) (st_files n) (st_staged n) (st_ids n) k.
Definition set_ids (m : gmap string (list string)) (n : store) : store :=
  mkStore (st_objs n) (st_handles n) (st_clock n) (st_files n) (st_staged n) m (st_failing n).

(** Sixteen bytes that differ from call to call. *)
Definition store_rand : go store (option (list byte)) := λ n,
  Ret (Some (byte_of_z (st_clock n) :: replicate 15 zero_byte),
       mkStore (st_objs n) (st_handles n) (st_clock n + 1) (st_files n) (st_staged n) (st_ids n) (st_failing n)).

Definition store_ReadInBuffer (o : ReadInBufferOptions) : go store (list byte * Z * option error) := λ n,
  let data := ReadInBuffer_Data o in
  match st_failing n with
  | S k => Ret (data, 0, Some (Errno EIO), set_failing k n)
  | O =>
      match st_handles n !! ReadInBuffer_Handle o with
      | None => Panic
      | Some h =>
          let content := default [] (st_files n !! hPath h) in
          let '(data', k) := copy_at data 0 (drop (Z.to_nat (ReadInBuffer_Offset o)) content) in
          Ret (data', Z.of_nat k, None, n)
      end
  end.

Definition store_StageData (o : StageDataOptions) : go store (option error) := λ n,
  let m := default ∅ (st_staged n !! StageData_Name o) in
  Ret (None, set_staged (<[StageData_Name o := <[StageData_Id o := StageData_Data o]> m]> (st_staged n)) n).

Definition store_CommitData (o : CommitDataOptions) : go store (option error) := λ n,
  let m := default ∅ (st_staged n !! CommitData_Name o) in
  let content := concat ((λ id, default [] (m !! id)) <$> CommitData_List o) in
  Ret (None, set_ids (<[CommitData_Name o := CommitData_List o]> (st_ids n))
               (set_files (<[CommitData_Name o := content]> (st_files n)) n)).

Definition store_GetCommittedBlockList (name : string) : go store (option CommittedBlockList * option error) := λ n,
  let m := default ∅ (st_staged n !! name) in
  Ret (Some ((λ id, mkCommittedBlock id 0 (Z.of_nat (length (default [] (m !! id))))) <$> default [] (st_ids n !! name)),
       None, n).

Definition store_GetAttr (o : GetAttrOptions) : go store (ptr * option error) := λ n,
  match st_files n !! GetAttr_Name o with
  | None => Ret (nil_ptr, Some (Errno ENOENT), n)
  | Some c =>
      match new_obj (mkObjAttr 0 0 0 0 (Z.of_nat (length c)) 0 0 (GetAttr_Name o) (GetAttr_Name o) [] ∅) n with
      | Ret (p, n') => Ret (p, None, n')
      | _ => Panic
      end
  end.

Definition store_CreateFile (o : CreateFileOptions) : go store (ptr * option error) := λ n,
  Ret (nil_ptr, None, set_files (<[CreateFile_Name o := []]> (st_files n)) n).

Definition store_component : Component store :=
  let B := BaseComponent (N := store) None in
  mkComponent (c_CreateDir B) (c_DeleteDir B) (c_IsDirEmpty B) (c_OpenDir B) (c_ReadDir B) (c_StreamDir B)
    (c_CloseDir B) (c_RenameDir B) store_CreateFile (c_DeleteFile B) (c_OpenFile B) (c_CloseFile B)
    (c_RenameFile B) (c_ReadFile B) store_ReadInBuffer (c_WriteFile B) (c_TruncateFile B) (c_CopyToFile B)
    (c_CopyFromFile B) (c_SyncFile B) (c_SyncDir B) (c_FlushFile B) (c_ReleaseFile B) (c_UnlinkFile B)
    (c_CreateLink B) (c_ReadLink B) store_GetAttr (c_GetFileBlockOffsets B) (c_SetAttr B) (c_Chmod B)
    (c_Chown B) (c_FileUsed B) (c_StatFs B) store_GetCommittedBlockList store_StageData store_CommitData.

(** A disk: files, whether directories can be made, whether reads fail. *)
Record disk := mkDisk { dk_files : gmap string (list byte); dk_mkdir : bool; dk_read : bool }.
#[export] Instance BlockDisk_disk : BlockDisk disk := {
  disk_Stat f d := Ret (match dk_files d !! f with Some _ => None | None => Some (PathError ENOENT) end, d);
  disk_ReadFile f n d := Ret (match dk_files d !! f with
    | Some c => Some (if dk_read d then (take (Z.to_nat n) c, None) else ([], Some (PathError EIO)))
    | None => None end, d);
  disk_WriteFile f c d := Ret (Some None, mkDisk (<[f := c]> (dk_files d)) (dk_mkdir d) (dk_read d));
  disk_Remove f d := Ret (None, mkDisk (delete f (dk_files d)) (dk_mkdir d) (dk_read d));
  disk_RemoveAll f d := Ret (None, mkDisk (delete f (dk_files d)) (dk_mkdir d) (dk_read d));
  disk_MkdirAll _ d := Ret (if dk_mkdir d then None else Some (PathError EACCES), d);
  disk_Rename f g d := Ret (None, d);
  disk_Glob _ d := Ret ([], None, d);
  disk_Mkdir _ d := Ret (None, d);
  disk_ReadDir _ d := Ret (inl [], d);
  tlru_New _ _ d := Ret (None, d);
  tlru_Add _ d := Ret (0%nat, d);
  tlru_Refresh _ d := Ret (tt, d);
  tlru_Start d := Ret (None, d);
  tlru_Stop d := Ret (None, d);
  disk_GetUsage _ d := Ret (Some 0%Q, d)
}.

Module Runs.
Import BlockPool.Witness.

(** Blocks of four bytes, the given limit of blocks for one file. *)
Definition cfg (tmp : string) (prefetch : Z) : BCConfig := mkBCConfig 4 tmp 100 prefetch false false.
Definition st (d : disk) (n : store) (blocks : Z) (o : list nat) : BCState unit disk store :=
  match NewBlockPool 4 (4 * blocks) (empty_pool tt) with
  | Ret (_, p) => mkBC p ∅ (mkThreadPool 2 0 [] [] true) NewLockMap ∅ false d n o
  | _ => mkBC (empty_pool tt) ∅ (mkThreadPool 2 0 [] [] true) NewLockMap ∅ false d n o
  end.
Definition bytes (l : list Z) : list byte := byte_of_z <$> l.
Definition range (a k : nat) : list byte := bytes (Z.of_nat <$> seq a k).
Definition one_file (c : list byte) (failing : nat) : store := mkStore ∅ ∅ 0 {["f" := c]} ∅ ∅ failing.
Definition no_disk : disk := mkDisk ∅ true true.

Definition values_of {A S} (m : outcome (A * S)) : outcome A :=
  match m with Ret (a, _) => Ret a | Panic => Panic | Blocked => Blocked end.


Abbreviation bc := (BCState unit disk store).
Definition open (c : BCConfig) (fl : Z) : go bc ptr :=
  '(hp, _) ← OpenFile c store_component (mkOpenFileOptions "f" fl 0); mret hp.
Definition create (c : BCConfig) : go bc ptr :=
  '(hp, _) ← CreateFile store_component (mkCreateFileOptions "f" 0); mret hp.
(** The bytes read, and the error. *)
Definition read (c : BCConfig) (hp : ptr) (off : Z) (k : nat) : go bc (list Z * option error) :=
  '(d, n, e) ← ReadInBuffer c store_component (mkReadInBufferOptions hp off (replicate k zero_byte));
  mret (z_of_byte <$> take (Z.to_nat n) d, e).
Definition write (c : BCConfig) (hp : ptr) (off : Z) (d : list byte) : go bc (Z * option error) :=
  WriteFile c store_component store_rand (mkWriteFileOptions hp off d ∅).
Definition flush (c : BCConfig) (hp : ptr) : go bc (option error) :=
  FlushFile c store_component store_rand (mkFlushFileOptions hp).
Definition close (c : BCConfig) (hp : ptr) : go bc (option error) :=
  CloseFile c store_component store_rand (mkCloseFileOptions hp).
(** The committed contents of the file. *)
Definition stored : go bc (option (list Z)) :=
  s ← go_get; mret ((λ l : list byte, z_of_byte <$> l) <$> (st_files (bc_next s) !! "f")).
End Runs.

(** ** Runs

    Each is evaluated; the workers run only where the cache waits, except where
    choices are given. *)
Module Faults.
Import Runs.
Definition c11 : BCConfig := cfg "" 11.
Definition empty_file : BCState unit disk store := st no_disk (one_file [] 0) 20 [].

(** What is written across blocks and closed is what is committed. *)
Example write_close :
  values_of ((hp ← create c11; _ ← write c11 hp 0 (range 1 9); _ ← write c11 hp 9 (range 10 13);
              e ← close c11 hp; x ← stored; mret (e, x)) empty_file) =
  Ret (None, Some (Z.of_nat <$> seq 1 22)).
Proof. vm_compute. reflexivity. Qed.

(** A block is read, then written: it stays in Cooked, where nothing stages it.
    The flush succeeds and the file keeps its old bytes. *)
Example write_after_read_lost :
  values_of ((hp ← create c11; _ ← write c11 hp 0 (range 1 3); _ ← close c11 hp;
              hp ← open c11 O_RDWR; r ← read c11 hp 0 1; w ← write c11 hp 0 (range 9 1);
              e ← flush c11 hp; x ← stored; mret (r, w, e, x)) empty_file) =
  Ret (([1], None), (1, None), None, Some [1; 2; 3]).
Proof. vm_compute. reflexivity. Qed.

(** With another block still in Cooking the flush closes the channel of the
    block that was read a second time. *)
Example flush_after_read_panics :
  values_of ((hp ← create c11; _ ← write c11 hp 0 (range 1 6); _ ← close c11 hp;
              hp ← open c11 O_RDWR; _ ← read c11 hp 0 1; _ ← write c11 hp 0 (range 9 1);
              flush c11 hp) empty_file) = Panic.
Proof. vm_compute. reflexivity. Qed.

(** A block that is being uploaded is read: it enters Cooked twice, and the
    flush on close panics. *)
Example read_of_staged_panics :
  values_of ((hp ← create c11; _ ← write c11 hp 0 (range 1 20); _ ← read c11 hp 0 4; close c11 hp) empty_file)
  = Panic.
Proof. vm_compute. reflexivity. Qed.

(** A block that was never written is left out of the list that is committed:
    what follows it moves forward. *)
Example hole_is_dropped :
  values_of ((hp ← create c11; _ ← write c11 hp 0 (range 1 4); _ ← write c11 hp 8 (range 9 4);
              e ← close c11 hp; x ← stored; mret (e, x)) empty_file) =
  Ret (None, Some [1; 2; 3; 4; 9; 10; 11; 12]).
Proof. vm_compute. reflexivity. Qed.

(** An earlier block is written after a later one: its download fails, which is
    not checked, and the size of the handle becomes its end. *)
Example backward_write_shrinks :
  values_of ((hp ← create c11; w1 ← write c11 hp 8 (range 9 4); w2 ← write c11 hp 0 (range 1 4);
              h ← get_h hp; r ← read c11 hp 8 4; mret (w1, w2, hSize h, r)) empty_file) =
  Ret ((4, None), (4, None), 4, ([], Some Eof)).
Proof. vm_compute. reflexivity. Qed.

(** The last block is shorter than the buffer asks for: the count includes the
    bytes of the buffer after the end of the file. *)
Example read_past_end :
  values_of ((hp ← open c11 0; read c11 hp 28 6) (st no_disk (one_file (range 1 30) 0) 20 [])) =
  Ret ([29; 30; 0; 0], Some Eof).
Proof. vm_compute. reflexivity. Qed.

(** The disk cache: a directory that cannot be made leaves the block not ready,
    and the reader waits for ever; a read error still makes it ready. *)
Example mkdir_failure_hangs :
  values_of ((hp ← open (cfg "/tmp" 11) 0; read (cfg "/tmp" 11) hp 0 2)
    (st (mkDisk ∅ false true) (one_file (range 1 6) 0) 20 [])) = Blocked.
Proof. vm_compute. reflexivity. Qed.
Example disk_read_error_served :
  values_of ((hp ← open (cfg "/tmp" 11) 0; read (cfg "/tmp" 11) hp 0 2)
    (st (mkDisk {["/tmp/f::0" := range 1 4]} true false) (one_file (range 1 6) 0) 20 [])) = Ret ([0; 0], None).
Proof. vm_compute. reflexivity. Qed.

Fixpoint reads (hp : ptr) (l : list Z) : go Runs.bc (list (list Z * option error)) :=
  match l with
  | [] => mret []
  | o :: l => r ← read c11 hp o 2; rs ← reads hp l; mret (r :: rs)
  end.
(** The prefetch of block 4 fails five times before block 0 arrives; eleven
    reads elsewhere make the handle a random one, which opens the failed block
    to its readers. *)
Example failed_prefetch_served :
  values_of ((hp ← open c11 0;
              _ ← reads hp [0; 40; 80; 120; 160; 200; 240; 44; 84; 124; 164; 204; 244; 48];
              read c11 hp 16 2)
    (st no_disk (one_file (range 1 250) 5) 20 [0; 0; 0; 0; 0; 4; 4; 4; 4; 4]%nat)) = Ret ([0; 0], None).
Proof. vm_compute. reflexivity. Qed.
End Faults.

(** ** The store serves reads as the read path expects *)
Module Witness.
Import Runs BlockPool.Witness.
Section store.
Context (path : string) (content : list byte).
Definition serves (n : store) : Prop := st_failing n = 0%nat ∧ st_files n !! path = Some content.

#[export] Instance store_ReadService hp : ReadService store_component hp path content serves.
Proof.
  split.
  - done.
  - done.
  - intros o data n h [Hf Hc] Hh Hp Ho. unfold wp. simpl. unfold store_ReadInBuffer. simpl.
    change (rt_handles n) with (st_handles n) in Hh. rewrite Hf, Hh, Hp, Hc. done.
Defined.

#[export] Instance store_OpenService : OpenService store_component path content serves.
Proof.
  split.
  - apply _.
  - intros n [Hf Hc]. unfold wp. simpl. unfold store_GetAttr. simpl. rewrite Hc. simpl.
    split; [done|]. split; [done|]. split; [done|]. eexists. split; [apply lookup_insert_eq|done].
Defined.
End store.

Definition file30 : list byte := range 1 30.
Definition start : BCState unit disk store := st no_disk (one_file file30 0) 20 [0; 2; 1; 0; 3; 1]%nat.

Lemma start_idle : idle (cfg "" 11) (serves "f" file30) start.
Proof.
  assert (Hfit : fits 4 80) by (unfold fits; change (80 / 4) with 20; lia).
  pose proof (wp_NewBlockPool 4 80 tt Hfit) as H.
  destruct (proj1 (wp_Ret _ _ _) H) as (r & p & E & H').
  assert (Hr : r = true).
  { pose proof (f_equal (λ o, match o with Ret (r, _) => r | _ => true end) E) as Er.
    vm_compute in Er. by symmetry. }
  destruct (H' Hr) as (Hok & _ & _ & Hsz).
  assert (Hs : bc_pool start = p) by (unfold start, st; change (4 * 20) with 80; rewrite E; reflexivity).
  assert (Hrest : bc_locks start = NewLockMap ∧ bc_next start = one_file file30 0 ∧
    bc_tp start = mkThreadPool 2 0 [] [] true) by (unfold start, st; change (4 * 20) with 80; rewrite E; split; [|split]; reflexivity).
  destruct Hrest as (Hl & Hn & Ht). split; rewrite ?Hs, ?Hl, ?Hn, ?Ht; [exact Hok|exact Hsz| |exact locks_free_new|].
  - split; [reflexivity|]. clear. split; [|split]; [reflexivity..|by split].
  - split; reflexivity.
Qed.

(** Two reads, one of them beyond the end. *)
Lemma reads_return_content_witness :
  wp ('(hp, err) ← OpenFile (cfg "" 11) store_component (mkOpenFileOptions "f" 0 0);
      rs ← read_all (cfg "" 11) store_component hp [(3, range 0 6); (28, range 0 6)]; mret (err, rs))
    (λ r _, r.1 = None ∧ Forall2 (answered (cfg "" 11) file30) [(3, range 0 6); (28, range 0 6)] r.2) start.
Proof.
  apply (reads_return_content (cfg "" 11) store_component "f" file30 (serves "f" file30) start 0
           [(3, range 0 6); (28, range 0 6)]).
  - vm_compute. repeat split; congruence.
  - apply start_idle.
  - repeat constructor; discriminate.
Defined.

(** Blocks of four bytes, one megabyte of memory, twelve blocks to prefetch. *)
Definition conf : BlockCacheOptions :=
  mkBlockCacheOptions (Some (1 # 262144)%Q) (Some 1) "" None None (Some 12) (Some 4) false.
Definition env : OsEnv := mkOsEnv None (λ s, s) (λ s, s).
Definition unconfigured : BCState unit disk store :=
  mkBC (empty_pool tt) ∅ (mkThreadPool 0 0 [] [] false) NewLockMap ∅ false no_disk (one_file file30 0) [].
Lemma Configure_ready_witness :
  wp (Configure env conf) (λ r s', ∀ cfg, r = inl cfg →
    idle cfg (serves "f" file30) s' ∧ bc_blockSize cfg = conf_blockSize conf ∧ bc_tmpPath cfg = "" ∧
    Z.of_nat (length (blocksCh (bc_pool s'))) = conf_memSize conf / conf_blockSize conf ∧
    bc_prefetch cfg * bc_blockSize cfg ≤ conf_memSize conf ∧
    (bc_prefetch cfg = MIN_PREFETCH ∨ bc_prefetch cfg = 0 ∨ 2 * MIN_PREFETCH < bc_prefetch cfg) ∧
    (bc_noPrefetch cfg = true ↔ bc_prefetch cfg = 0)) unconfigured.
Proof.
  apply (Configure_ready (serves "f" file30) env conf unconfigured tt); try reflexivity.
  - apply locks_free_new.
  - split; reflexivity.
  - discriminate.
  - split; [discriminate|reflexivity].
Defined.
End Witness.
