(* ===== verification/FileCache.v ===== *)
(** * The file cache (src/component/file_cache/file_cache.go)

    A file is downloaded to a local directory when it is opened, read and
    written there, and uploaded when it is flushed or closed.  Local files are
    dropped by the eviction policy.

    The local file system, the storage account and the heap are shared by the
    file cache, its policy and the next component: they are the state [N] of the
    next component.  The policy holds [N] and the lock map, as in LruPolicy.v,
    so that a step of its background routines is a step on the same state.
    [cachePolicy] is the interface of cache_policy.go. *)
From S2P Require Import Prelude GoLib Common HandleMap Internal LockMap LruPolicy.
From Stdlib Require Import Ascii QArith Qround.
Open Scope Z_scope.

(** ** The local file system *)
Definition ModeDir : Z := 2 ^ 31.
Definition ModeSymlink : Z := 2 ^ 27.

(** fs.FileInfo with the syscall.Stat_t behind Sys(). *)
Record FileInfo := mkFileInfo {
  fi_Name : string;
  fi_Size : Z;
  fi_Mode : FileMode;
  fi_Mtim : Time;
  fi_Atim : Time;
  fi_Ctim : Time
}.
Definition fi_IsDir (i : FileInfo) : bool := negb (Z.land (fi_Mode i) ModeDir =? 0).

(** What the file cache uses of packages os and syscall, besides the
    operations of [FileSystem].  An *os.File is an address; the operations that
    return one return nil with an error.  [os_ReadDir] gives names and whether
    they are directories.  [syscall_Pread] fills the buffer it is given. *)
Class LocalOS (N : Type) := {
  os_Stat : string → go N (FileInfo + error);
  os_Lstat : string → go N (FileInfo + error);
  os_OpenFile : string → Z → FileMode → go N (ptr * option error);
  os_MkdirAll : string → FileMode → go N (option error);
  os_RemoveAll : string → go N (option error);
  os_Rename : string → string → go N (option error);
  os_Truncate : string → Z → go N (option error);
  os_Chtimes : string → Time → Time → go N (option error);
  os_Chown : string → Z → Z → go N (option error);
  os_ReadDir : string → go N (list (string * bool) * option error);
  file_Close : ptr → go N (option error);
  file_Fd : ptr → go N Z;
  file_Stat : ptr → go N (FileInfo + error);
  file_Read : ptr → Z → go N (list byte * option error);
  file_Readdirnames : ptr → Z → go N (list string * option error);
  syscall_Pread : Z → list byte → Z → go N (list byte * Z * option error);
  syscall_Pwrite : Z → list byte → Z → go N (Z * option error);
  syscall_Dup : Z → go N (Z * option error);
  syscall_Close : Z → go N (option error);
  syscall_Statfs : string → go N (Statfs_t * option error)
}.
Definition os_Open {N : Type} `{!LocalOS N} (path : string) : go N (ptr * option error) :=
  os_OpenFile path O_RDONLY 0.

(** ** The interface of the eviction policies (cache_policy.go) *)
Class cachePolicy (P N : Type) := {
  pol_locks : P → LockMap;
  pol_set_locks : LockMap → P → P;
  pol_next : P → N;
  pol_set_next : N → P → P;
  pol_StartPolicy : go P (option error);
  pol_ShutdownPolicy : go P (option error);
  pol_UpdateConfig : cachePolicyConfig → go P (option error);
  pol_CacheValid : string → go P unit;
  pol_CacheInvalidate : string → go P unit;
  pol_CachePurge : string → go P unit;
  pol_IsCached : string → go P bool
}.
(** The constructors of the policies; the new policy refers to the lock map and
    the file system that are there. *)
Class PolicyKinds (P : Type) := {
  pol_NewLRU : cachePolicyConfig → P → P;
  pol_NewLFU : cachePolicyConfig → P → P
}.

(** ** State *)

(** The fields of the struct that only Configure and OnConfigChange write.
    [fc_cacheTimeout] is a float64 that is always set from a uint32. *)
Record FCConf := mkFCConf {
  fc_tmpPath : string;
  fc_createEmptyFile : bool;
  fc_allowNonEmpty : bool;
  fc_cacheTimeout : Z;
  fc_cleanupOnStart : bool;
  fc_policyTrace : bool;
  fc_mountPath : string;
  fc_allowOther : bool;
  fc_offloadIO : bool;
  fc_syncToFlush : bool;
  fc_syncToDelete : bool;
  fc_maxCacheSize : Q;
  fc_defaultPermission : FileMode;
  fc_refreshSec : Z;
  fc_hardLimit : bool;
  fc_diskHighWaterMark : Q
}.
(** [spawned]: the directories for which a goroutine that invalidates them was
    started and has not run; [hasPolicy] is false while the policy is nil. *)
Record FileCache (P : Type) := mkFileCache {
  fc_conf : FCConf;
  hasPolicy : bool;
  fc_policy : P;
  missedChmodList : gset string;
  spawned : list string
}.
Arguments mkFileCache {P}.
Arguments fc_conf {P} _.
Arguments hasPolicy {P} _.
Arguments fc_policy {P} _.
Arguments missedChmodList {P} _.
Arguments spawned {P} _.

Record FileCacheOptions := mkFileCacheOptions {
  fco_TmpPath : string;
  fco_Policy : string;
  fco_Timeout : Z;
  fco_MaxEviction : Z;
  fco_MaxSizeMB : Q;
  fco_HighThreshold : Z;
  fco_LowThreshold : Z;
  fco_CreateEmptyFile : bool;
  fco_AllowNonEmpty : bool;
  fco_CleanupOnStart : bool;
  fco_EnablePolicyTrace : bool;
  fco_OffloadIO : bool;
  fco_V1Timeout : Z;
  fco_EmptyDirCheck : bool;
  fco_SyncToFlush : bool;
  fco_SyncNoOp : bool;
  fco_RefreshSec : Z;
  fco_HardLimit : bool
}.
(** [FileCacheOptions{}] *)
Definition zero_FileCacheOptions : FileCacheOptions :=
  mkFileCacheOptions "" "" 0 0 0 0 0 false false false false false 0 false false false 0 false.

Definition fc_compName : string := "file_cache".
Definition defaultMaxEviction : Z := 5000.
Definition defaultMaxThreshold : Z := 80.
Definition defaultMinThreshold : Z := 60.
Definition defaultFileCacheTimeout : Z := 120.
Definition defaultCacheUpdateCount : Z := 100.
Definition fc_MB : Z := 1024 * 1024.
Definition DefaultFilePermissionBits : FileMode := 493.
Definition DefaultAllowOtherPermissionBits : FileMode := 511.

(** Attributes of a local file. *)
Definition newObjAttr (path : string) (info : FileInfo) : ObjAttr :=
  mkObjAttr (fi_Mtim info) (fi_Atim info) (fi_Ctim info) 0 (fi_Size info) (fi_Mode info)
    (if negb (Z.land (fi_Mode info) ModeSymlink =? 0) then Set_ 0 PropFlagSymlink
     else if fi_IsDir info then Set_ 0 PropFlagIsDir else 0)
    path (fi_Name info) [] ∅.

Section file_cache.
Context {P N : Type} `{!Runtime N} `{!FileSystem N} `{!LocalOS N} `{!cachePolicy P N}.
Context (next : Component N).
Abbreviation fc := (FileCache P).

Definition fc_set_conf (c : FCConf) (s : fc) : fc :=
  mkFileCache c (hasPolicy s) (fc_policy s) (missedChmodList s) (spawned s).
Definition fc_set_policy (p : P) (s : fc) : fc :=
  mkFileCache (fc_conf s) (hasPolicy s) p (missedChmodList s) (spawned s).
Definition fc_set_missed (m : gset string) (s : fc) : fc :=
  mkFileCache (fc_conf s) (hasPolicy s) (fc_policy s) m (spawned s).
Definition fc_set_spawned (l : list string) (s : fc) : fc :=
  mkFileCache (fc_conf s) (hasPolicy s) (fc_policy s) (missedChmodList s) l.

Definition on_policy {A} (m : go P A) : go fc A := go_zoom fc_policy fc_set_policy m.
Definition on_N {A} (m : go N A) : go fc A := on_policy (go_zoom pol_next pol_set_next m).
Definition on_flock {A} (m : go LockMap A) : go fc A := on_policy (go_zoom pol_locks pol_set_locks m).
Definition conf_ : go fc FCConf := go_gets fc_conf.

(** [filepath.Join(fc.tmpPath, name)] *)
Definition local_path (name : string) : go fc string :=
  c ← conf_; mret (filepath_Join [fc_tmpPath c; name]).

Definition upd_handle (hp : ptr) (f : Handle → Handle) : go N unit := λ n,
  match rt_handles n !! hp with
  | Some h => Ret (tt, rt_set_handles (<[hp := f h]> (rt_handles n)) n)
  | None => Panic
  end.
Definition new_handle (h : Handle) : go N ptr := λ n,
  let hp := fresh_ptr (rt_handles n) in Ret (hp, rt_set_handles (<[hp := h]> (rt_handles n)) n).
Definition handle_set_flag (f : Z) (h : Handle) : Handle :=
  handle_with_flags (Set_ (hFlags h) f) h.
Definition handle_clear_flag (f : Z) (h : Handle) : Handle :=
  handle_with_flags (Clear (hFlags h) f) h.

(** [time.Since(t).Seconds() > secs].  A duration saturates at 2^63-1
    nanoseconds, more than any uint32 number of seconds. *)
Definition since_exceeds (t : Time) (secs : Z) : go fc bool :=
  now ← on_N rt_now; mret (secs * nanos_per_sec <? now - t).

(** The guard of the operations that add data: with a high-water mark, is the
    usage of the cache (as du reports it, in MB) plus the size above it? *)
Definition over_limit (size : Z) : go fc bool :=
  c ← conf_;
  if Qeq_bool (fc_diskHighWaterMark c) 0 then mret false
  else
    u ← on_N (GetUsage (fc_tmpPath c));
    match u with
    | None => mret false
    | Some currSize => mret (Qlt_bool (fc_diskHighWaterMark c) (currSize + inject_Z size))
    end.

(** Lock the file for the rest of the operation. *)
Definition with_flock {A} (name : string) (body : ptr → go fc A) : go fc A :=
  flock ← on_flock (lm_Get name);
  _ ← on_flock (lm_Lock flock);
  r ← body flock;
  _ ← on_flock (lm_Unlock flock);
  mret r.

(** *** Start and stop *)

(** Reading a nil *os.File fails. *)
Definition isLocalDirEmpty (path : string) : go N bool :=
  '(f, _) ← os_Open path;
  if decide (f = nil_ptr) then mret false
  else
    '(_, err) ← file_Readdirnames f 1;
    _ ← file_Close f;
    mret (bool_decide (err = Some Eof)).

Definition TempCacheCleanup : go fc (option error) :=
  c ← conf_;
  empty ← on_N (isLocalDirEmpty (fc_tmpPath c));
  if negb empty then
    '(dirents, err) ← on_N (os_ReadDir (fc_tmpPath c));
    if bool_decide (err ≠ None) then mret None
    else
      _ ← go_range (λ entry, _ ← on_N (os_RemoveAll (filepath_Join [fc_tmpPath c; entry.1])); mret tt) dirents;
      mret None
  else mret None.

Definition fc_Start : go fc (option error) :=
  c ← conf_;
  err ← (if fc_cleanupOnStart c then TempCacheCleanup else mret None);
  if bool_decide (err ≠ None) then mret (Some (Msg "fail to cleanup temp cache"))
  else
    s ← go_get;
    if negb (hasPolicy s) then mret (Some (Msg "cache policy missing"))
    else
      err ← on_policy pol_StartPolicy;
      if bool_decide (err ≠ None) then mret (Some (Msg "fail to start policy")) else mret None.

(** ShutdownPolicy of a nil policy is a nil dereference. *)
Definition fc_Stop : go fc (option error) :=
  s ← go_get;
  _ ← (if hasPolicy s then on_policy pol_ShutdownPolicy else go_panic);
  _ ← TempCacheCleanup;
  mret None.

(** *** Directories *)

(** filepath.WalkDir with the callback of invalidateDirectory, which ignores
    errors and goes on.  A level of the tree adds a component to the path, so
    the depth is below the longest path the kernel accepts, [path_max]. *)
Definition path_max : nat := 4096.
Definition invalidate_entry (path : string) (isDir : bool) : go fc unit :=
  if negb isDir then on_policy (pol_CachePurge path)
  else _ ← on_N (deleteFile path); mret tt.
Fixpoint walkDir (fuel : nat) (path : string) (isDir : bool) : go fc unit :=
  match fuel with
  | O => go_block
  | S fuel =>
      _ ← invalidate_entry path isDir;
      if negb isDir then mret tt
      else
        '(dirs, _) ← on_N (os_ReadDir path);
        go_range (λ d, walkDir fuel (filepath_Join [path; d.1]) d.2) dirs
  end.

Definition fc_invalidateDirectory (name : string) : go fc unit :=
  localPath ← local_path name;
  r ← on_N (os_Stat localPath);
  match r with
  | inr _ => mret tt
  | inl _ =>
      r ← on_N (os_Lstat localPath);
      _ ← match r with
          | inr _ => mret tt
          | inl info => walkDir path_max localPath (fi_IsDir info)
          end;
      _ ← on_N (deleteFile localPath); mret tt
  end.

(** [go fc.invalidateDirectory(name)], and the goroutine itself. *)
Definition spawn (name : string) : go fc unit :=
  go_modify (λ s, fc_set_spawned (spawned s ++ [name]) s).
Definition run_spawned : go fc unit :=
  s ← go_get;
  match spawned s with
  | [] => go_block
  | name :: rest => _ ← go_modify (fc_set_spawned rest); fc_invalidateDirectory name
  end.

Definition fc_DeleteDir (options : DeleteDirOptions) : go fc (option error) :=
  err ← on_N (c_DeleteDir next options);
  _ ← spawn (DeleteDir_Name options);
  mret err.

Definition fc_RenameDir (options : RenameDirOptions) : go fc (option error) :=
  err ← on_N (c_RenameDir next options);
  if bool_decide (err ≠ None) then mret err
  else _ ← spawn (RenameDir_Src options); mret None.

(** One local entry of ReadDir: [attrs] is the list so far and [pathToIndex]
    the positions in it. *)
Definition readdir_entry (dir : string) (st : list ptr * gmap string nat) (entry : string)
    : go fc (list ptr * gmap string nat) :=
  let '(attrs, pathToIndex) := st in
  c ← conf_;
  let entryPath := filepath_Join [dir; entry] in
  r ← on_N (os_Stat (filepath_Join [fc_tmpPath c; entryPath]));
  match r with
  | inr _ => mret st
  | inl info =>
      if fi_IsDir info then mret st
      else
        match pathToIndex !! entryPath with
        | Some idx =>
            locked ← on_flock (lm_Locked entryPath);
            if (locked : bool) then mret st
            else
              p ← go_deref (attrs !! idx);
              a ← on_N (load_obj p);
              _ ← on_N (store_obj p (attr_with_size (fi_Mtim info) (fi_Size info) a));
              mret st
        | None =>
            if fc_createEmptyFile c then mret st
            else
              p ← on_N (new_obj (newObjAttr entryPath info));
              mret (attrs ++ [p], <[entryPath := length attrs]> pathToIndex)
        end
  end.
Fixpoint readdir_entries (dir : string) (st : list ptr * gmap string nat) (l : list (string * bool))
    : go fc (list ptr * gmap string nat) :=
  match l with
  | [] => mret st
  | e :: l => st ← readdir_entry dir st e.1; readdir_entries dir st l
  end.
Fixpoint index_attrs (attrs : list ptr) (i : nat) (m : gmap string nat) : go fc (gmap string nat) :=
  match attrs with
  | [] => mret m
  | p :: attrs => a ← on_N (load_obj p); index_attrs attrs (S i) (<[Path a := i]> m)
  end.

Definition fc_ReadDir (options : ReadDirOptions) : go fc (list ptr * option error) :=
  '(attrs, _) ← on_N (c_ReadDir next options);
  pathToIndex ← index_attrs attrs 0 ∅;
  localPath ← local_path (ReadDir_Name options);
  '(dirents, err) ← on_N (os_ReadDir localPath);
  if bool_decide (err = None) then
    '(attrs, _) ← readdir_entries (ReadDir_Name options) (attrs, pathToIndex) dirents;
    mret (attrs, None)
  else mret (attrs, None).

(** One local entry of StreamDir. *)
Definition streamdir_entry (dir : string) (attrs : list ptr) (entry : string) : go fc (list ptr) :=
  c ← conf_;
  let entryPath := filepath_Join [dir; entry] in
  r ← on_N (os_Stat (filepath_Join [fc_tmpPath c; entryPath]));
  match r with
  | inr _ => mret attrs
  | inl info =>
      if fi_IsDir info then mret attrs
      else
        locked ← on_flock (lm_Locked entryPath);
        if (locked : bool) then mret attrs
        else
          '(_, err) ← on_N (c_GetAttr next (mkGetAttrOptions entryPath false));
          if err_is err (Errno ENOENT) || os_IsNotExist err then
            p ← on_N (new_obj (newObjAttr entryPath info)); mret (attrs ++ [p])
          else mret attrs
  end.
Fixpoint streamdir_entries (dir : string) (attrs : list ptr) (l : list (string * bool)) : go fc (list ptr) :=
  match l with
  | [] => mret attrs
  | e :: l => attrs ← streamdir_entry dir attrs e.1; streamdir_entries dir attrs l
  end.

Definition fc_StreamDir (options : StreamDirOptions) : go fc (list ptr * string * option error) :=
  '(attrs, token, err) ← on_N (c_StreamDir next options);
  if bool_decide (token = "") then
    localPath ← local_path (StreamDir_Name options);
    '(dirents, lerr) ← on_N (os_ReadDir localPath);
    if bool_decide (lerr = None) then
      attrs ← streamdir_entries (StreamDir_Name options) attrs dirents;
      mret (attrs, token, err)
    else mret (attrs, token, err)
  else mret (attrs, token, err).

Definition fc_IsDirEmpty (options : IsDirEmptyOptions) : go fc bool :=
  c ← conf_;
  localPath ← local_path (IsDirEmpty_Name options);
  '(f, err) ← on_N (os_Open localPath);
  if bool_decide (err = None) then
    '(path, err) ← on_N (file_Readdirnames f 1);
    if bool_decide (err = None) && negb (fc_createEmptyFile c) && (0 <? Z.of_nat (length path)) then mret false
    else if negb (bool_decide (err = Some Eof)) then mret false
    else on_N (c_IsDirEmpty next options)
  else on_N (c_IsDirEmpty next options).

(** *** Files *)
Definition fc_CreateFile (options : CreateFileOptions) : go fc (ptr * option error) :=
  let name := CreateFile_Name options in
  with_flock name (λ flock,
    c ← conf_;
    err ← (if fc_createEmptyFile c then '(_, e) ← on_N (c_CreateFile next options); mret e else mret None);
    if bool_decide (err ≠ None) then mret (nil_ptr, err)
    else
      localPath ← local_path name;
      _ ← on_policy (pol_CacheValid localPath);
      err ← on_N (os_MkdirAll (filepath_Dir localPath) (fc_defaultPermission c));
      if bool_decide (err ≠ None) then mret (nil_ptr, err)
      else
        '(f, err) ← on_N (os_OpenFile localPath (Z.lor O_RDWR (Z.lor O_CREATE O_TRUNC)) (CreateFile_Mode options));
        if bool_decide (err ≠ None) then mret (nil_ptr, err)
        else
          _ ← (if bool_decide (CreateFile_Mode options ≠ DefaultFilePermissionBits)
               then go_modify (λ s, fc_set_missed ({[name]} ∪ missedChmodList s) s) else mret tt);
          _ ← on_flock (lm_Inc flock);
          hp ← on_N (new_handle (NewHandle name));
          fd ← on_N (file_Fd f);
          _ ← on_N (upd_handle hp (handle_with_fd (u64 fd)));
          _ ← (if negb (fc_offloadIO c) then on_N (upd_handle hp (handle_set_flag HandleFlagCached)) else mret tt);
          _ ← on_N (upd_handle hp (SetFileObject f));
          _ ← (if negb (fc_createEmptyFile c) then on_N (upd_handle hp (handle_set_flag HandleFlagDirty)) else mret tt);
          mret (hp, None)).

(** A 404 of the storage is checked against the local cache. *)
Definition validateStorageError (path : string) (err : option error) (recoverable : bool)
    : go fc (option error) :=
  match err with
  | None => mret None
  | Some _ =>
      if err_is err (Errno ENOENT) || os_IsNotExist err then
        c ← conf_;
        if negb (fc_createEmptyFile c) then
          localPath ← local_path path;
          r ← on_N (os_Stat localPath);
          if match r with inr e => os_IsNotExist (Some e) | inl _ => false end
          then mret (Some (Errno ENOENT))
          else if negb recoverable then mret (Some (Errno EIO)) else mret None
        else mret None
      else mret err
  end.

Definition fc_DeleteFile (options : DeleteFileOptions) : go fc (option error) :=
  let name := DeleteFile_Name options in
  with_flock name (λ flock,
    err ← on_N (c_DeleteFile next options);
    err ← validateStorageError name err false;
    if bool_decide (err ≠ None) then mret err
    else
      localPath ← local_path name;
      _ ← on_N (deleteFile localPath);
      _ ← on_policy (pol_CachePurge localPath);
      mret None).

(** The stat part of isDownloadRequired: the local file's information when it
    exists, and whether it must be downloaded. *)
Definition local_state (localPath : string) : go fc (option FileInfo * bool) :=
  c ← conf_;
  cached ← on_policy (pol_IsCached localPath);
  r ← on_N (os_Stat localPath);
  match r with
  | inr _ => mret (None, true)
  | inl info =>
      old ← since_exceeds (fi_Mtim info) (fc_cacheTimeout c);
      expired ← (if (old : bool) then since_exceeds (fi_Ctim info) (fc_cacheTimeout c) else mret false);
      mret (Some info, negb cached || expired)
  end.

Definition isDownloadRequired (localPath blobPath : string) (flock : ptr)
    : go fc (bool * bool * ptr * option error) :=
  c ← conf_;
  '(info, required) ← local_state localPath;
  let fileExists := bool_decide (is_Some info) in
  count ← (if fileExists then on_flock (lm_Count flock) else mret 0);
  let required := if fileExists && (0 <? count) then false else required in
  refresh ← (if required then mret true
             else if negb (fc_refreshSec c =? 0) then
               t ← on_flock (DownloadTime flock); since_exceeds t (fc_refreshSec c)
             else mret false);
  '(attr, err) ← (if (refresh : bool) then on_N (c_GetAttr next (mkGetAttrOptions blobPath false))
                  else mret (nil_ptr, None));
  match info with
  | Some fi =>
      if negb (fc_refreshSec c =? 0) && negb required && bool_decide (attr ≠ nil_ptr) then
        a ← on_N (load_obj attr);
        if (fi_Mtim fi <? Mtime a) || negb (fi_Size fi =? Size a) then
          now ← on_N rt_now;
          _ ← on_flock (SetDownloadTime now flock);
          mret (true, fileExists, attr, err)
        else mret (required, fileExists, attr, err)
      else mret (required, fileExists, attr, err)
  | None => mret (required, fileExists, attr, err)
  end.

(** The attributes of an optional pointer. *)
Definition load_attr (p : ptr) : go fc (option ObjAttr) :=
  if decide (p = nil_ptr) then mret None else a ← on_N (load_obj p); mret (Some a).

(** The download of OpenFile; the error ends OpenFile. *)
Definition download_file (options : OpenFileOptions) (localPath : string) (fileExists : bool)
    (attr : ptr) (flock : ptr) : go fc (option error) :=
  c ← conf_;
  oa ← load_attr attr;
  let fileSize := from_option Size 0 oa in
  err ← (if fileExists then _ ← on_N (deleteFile localPath); mret None
         else on_N (os_MkdirAll (filepath_Dir localPath) (fc_defaultPermission c)));
  if bool_decide (err ≠ None) then mret err
  else
    '(f, err) ← on_N (os_OpenFile localPath (Z.lor O_CREATE O_RDWR) (OpenFile_Mode options));
    if bool_decide (err ≠ None) then mret err
    else
      let fileSize := if negb (Z.land (OpenFile_Flags options) O_TRUNC =? 0) then 0 else fileSize in
      err ← (if 0 <? fileSize then
               full ← over_limit fileSize;
               if (full : bool) then mret (Some (Errno ENOSPC))
               else
                 err ← on_N (c_CopyToFile next (mkCopyToFileOptions (OpenFile_Name options) 0 fileSize f));
                 if bool_decide (err ≠ None) then
                   _ ← on_N (file_Close f);
                   _ ← on_N (os_Remove localPath);
                   mret err
                 else mret None
             else mret None);
      if bool_decide (err ≠ None) then mret err
      else
        now ← on_N rt_now;
        _ ← on_flock (SetDownloadTime now flock);
        _ ← on_N (file_Close f);
        let fileMode := match oa with
                        | Some a => if negb (IsModeDefault a) then Mode a else fc_defaultPermission c
                        | None => fc_defaultPermission c
                        end in
        _ ← on_N (os_Chmod localPath fileMode);
        _ ← match oa with
            | Some a => _ ← on_N (os_Chtimes localPath (Atime a) (Mtime a)); mret tt
            | None => mret tt
            end;
        mret None.

(** The end of OpenFile: the handle on the local file. *)
Definition open_local (options : OpenFileOptions) (localPath : string) (flock : ptr)
    : go fc (ptr * option error) :=
  c ← conf_;
  '(f, err) ← on_N (os_OpenFile localPath (OpenFile_Flags options) (OpenFile_Mode options));
  if bool_decide (err ≠ None) then mret (nil_ptr, err)
  else
    _ ← on_flock (lm_Inc flock);
    hp ← on_N (new_handle (NewHandle (OpenFile_Name options)));
    inf ← on_N (file_Stat f);
    _ ← match inf with
        | inl i => on_N (upd_handle hp (handle_with_size (fi_Size i)))
        | inr _ => mret tt
        end;
    fd ← on_N (file_Fd f);
    _ ← on_N (upd_handle hp (handle_with_fd (u64 fd)));
    _ ← (if negb (fc_offloadIO c) then on_N (upd_handle hp (handle_set_flag HandleFlagCached)) else mret tt);
    _ ← on_N (upd_handle hp (SetFileObject f));
    mret (hp, None).

Definition fc_OpenFile (options : OpenFileOptions) : go fc (ptr * option error) :=
  localPath ← local_path (OpenFile_Name options);
  with_flock (OpenFile_Name options) (λ flock,
    _ ← on_policy (pol_CacheValid localPath);
    '(downloadRequired, fileExists, attr, err) ← isDownloadRequired localPath (OpenFile_Name options) flock;
    if err_is err (Errno EACCES) then mret (nil_ptr, err)
    else
      err ← (if (downloadRequired : bool) then download_file options localPath fileExists attr flock else mret None);
      if bool_decide (err ≠ None) then mret (nil_ptr, err)
      else open_local options localPath flock).

(** The file object of a handle, through its pointer. *)
Definition get_handle (hp : ptr) : go fc Handle := on_N (load_handle hp).

Definition fc_Chmod (options : ChmodOptions) : go fc (option error) :=
  let name := Chmod_Name options in
  err ← on_N (c_Chmod next options);
  err ← validateStorageError name err false;
  if bool_decide (err ≠ None) && negb (err_is err (Errno EIO)) then mret err
  else
    _ ← (if bool_decide (err ≠ None)
         then go_modify (λ s, fc_set_missed ({[name]} ∪ missedChmodList s) s) else mret tt);
    localPath ← local_path name;
    r ← on_N (os_Stat localPath);
    match r with
    | inl info =>
        _ ← on_policy (pol_CacheValid localPath);
        if negb (fi_Mode info =? Chmod_Mode options) then on_N (os_Chmod localPath (Chmod_Mode options))
        else mret None
    | inr e =>
        if os_IsExist (Some e) then _ ← on_policy (pol_CacheValid localPath); go_panic else mret None
    end.

Definition fc_Chown (options : ChownOptions) : go fc (option error) :=
  let name := Chown_Name options in
  err ← on_N (c_Chown next options);
  err ← validateStorageError name err false;
  if bool_decide (err ≠ None) then mret err
  else
    localPath ← local_path name;
    r ← on_N (os_Stat localPath);
    if match r with inl _ => true | inr e => os_IsExist (Some e) end then
      _ ← on_policy (pol_CacheValid localPath);
      on_N (os_Chown localPath (Chown_Owner options) (Chown_Group options))
    else mret None.

(** The chmod that was missed while the file was not in the container. *)
Definition flush_missed_chmod (path : string) : go fc unit :=
  s ← go_get;
  if bool_decide (path ∈ missedChmodList s) then
    _ ← go_modify (λ s, fc_set_missed (missedChmodList s ∖ {[path]}) s);
    localPath ← local_path path;
    r ← on_N (os_Lstat localPath);
    match r with
    | inl info => _ ← fc_Chmod (mkChmodOptions path (fi_Mode info)); mret tt
    | inr _ => mret tt
    end
  else mret tt.

Definition fc_FlushFile (options : FlushFileOptions) : go fc (option error) :=
  let hp := FlushFile_Handle options in
  h ← get_handle hp;
  localPath ← local_path (hPath h);
  _ ← on_policy (pol_CacheValid localPath);
  if handle_Dirty h then
    let f := GetFileObject h in
    if decide (f = nil_ptr) then mret (Some (Errno EBADF))
    else
      fd ← on_N (file_Fd f);
      '(dupFd, err) ← on_N (syscall_Dup (i64 fd));
      if bool_decide (err ≠ None) then mret (Some (Errno EIO))
      else
        err ← on_N (syscall_Close dupFd);
        if bool_decide (err ≠ None) then mret (Some (Errno EIO))
        else
          '(uploadHandle, err) ← on_N (os_Open localPath);
          if bool_decide (err ≠ None) then mret None
          else
            err ← on_N (c_CopyFromFile next (mkCopyFromFileOptions (hPath h) uploadHandle ∅));
            _ ← on_N (file_Close uploadHandle);
            if bool_decide (err ≠ None) then mret err
            else
              _ ← on_N (upd_handle hp (handle_clear_flag HandleFlagDirty));
              _ ← flush_missed_chmod (hPath h);
              mret None
  else mret None.

Definition fc_CloseFile (options : CloseFileOptions) : go fc (option error) :=
  let hp := CloseFile_Handle options in
  h ← get_handle hp;
  localPath ← local_path (hPath h);
  err ← fc_FlushFile (mkFlushFileOptions hp);
  if bool_decide (err ≠ None) then mret err
  else
    let f := GetFileObject h in
    if decide (f = nil_ptr) then mret (Some (Errno EBADF))
    else
      with_flock (hPath h) (λ flock,
        err ← on_N (file_Close f);
        if bool_decide (err ≠ None) then mret err
        else
          _ ← on_flock (lm_Dec flock);
          h ← get_handle hp;
          if Fsynced h then
            _ ← on_N (deleteFile localPath);
            _ ← on_policy (pol_CachePurge localPath);
            mret None
          else
            _ ← on_policy (pol_CacheInvalidate localPath);
            mret None).

Definition fc_ReadFile (options : ReadFileOptions) : go fc (list byte * option error) :=
  h ← get_handle (ReadFile_Handle options);
  localPath ← local_path (hPath h);
  _ ← on_policy (pol_CacheValid localPath);
  let f := GetFileObject h in
  if decide (f = nil_ptr) then mret ([], Some (Errno EBADF))
  else
    r ← on_N (file_Stat f);
    match r with
    | inr e => mret ([], Some e)
    | inl info =>
        '(data, err) ← on_N (file_Read f (fi_Size info));
        if negb (Z.of_nat (length data) =? fi_Size info) then mret ([], Some (Errno EIO))
        else mret (data, err)
    end.

(** Every hundredth operation on a handle is reported to the policy. *)
Definition count_operation (hp : ptr) : go fc unit :=
  _ ← on_N (upd_handle hp (λ h, handle_with_optcnt (u64 (OptCnt h + 1)) h));
  h ← get_handle hp;
  if OptCnt h mod defaultCacheUpdateCount =? 0 then
    localPath ← local_path (hPath h); on_policy (pol_CacheValid localPath)
  else mret tt.

Definition fc_ReadInBuffer (options : ReadInBufferOptions) : go fc (list byte * Z * option error) :=
  let hp := ReadInBuffer_Handle options in
  h ← get_handle hp;
  if decide (GetFileObject h = nil_ptr) then mret (ReadInBuffer_Data options, 0, Some (Errno EBADF))
  else
    _ ← count_operation hp;
    on_N (syscall_Pread (FD h) (ReadInBuffer_Data options) (ReadInBuffer_Offset options)).

Definition fc_WriteFile (options : WriteFileOptions) : go fc (Z * option error) :=
  let hp := WriteFile_Handle options in
  h ← get_handle hp;
  if decide (GetFileObject h = nil_ptr) then mret (0, Some (Errno EBADF))
  else
    full ← over_limit (Z.of_nat (length (WriteFile_Data options)));
    if (full : bool) then mret (0, Some (Errno ENOSPC))
    else
      _ ← count_operation hp;
      '(bytesWritten, err) ← on_N (syscall_Pwrite (FD h) (WriteFile_Data options) (WriteFile_Offset options));
      _ ← (if bool_decide (err = None) then on_N (upd_handle hp (handle_set_flag HandleFlagDirty)) else mret tt);
      mret (bytesWritten, err).

Definition fc_SyncFile (options : SyncFileOptions) : go fc (option error) :=
  let hp := SyncFile_Handle options in
  c ← conf_;
  if fc_syncToFlush c then fc_FlushFile (mkFlushFileOptions hp)
  else if fc_syncToDelete c then
    err ← on_N (c_SyncFile next options);
    if bool_decide (err ≠ None) then mret err
    else _ ← on_N (upd_handle hp (handle_set_flag HandleFlagFSynced)); mret None
  else mret None.

(** The answer of the storage is completed from the local file. *)
Definition fc_GetAttr (options : GetAttrOptions) : go fc (ptr * option error) :=
  let name := GetAttr_Name options in
  '(attrs, err) ← on_N (c_GetAttr next options);
  let missing := err_is err (Errno ENOENT) || os_IsNotExist err in
  if bool_decide (err ≠ None) && negb missing then
    p ← on_N (new_obj zero_ObjAttr); mret (p, err)
  else
    let exists_ := bool_decide (err = None) in
    let not_found := (p ← on_N (new_obj zero_ObjAttr); mret (p, Some (Errno ENOENT))) in
    c ← conf_;
    localPath ← local_path name;
    r ← on_N (os_Lstat localPath);
    match r with
    | inl info =>
        if negb (fi_IsDir info) then
          if exists_ then
            locked ← on_flock (lm_Locked name);
            _ ← (if negb locked then
                   a ← on_N (load_obj attrs);
                   on_N (store_obj attrs (attr_with_size (fi_Mtim info) (fi_Size info) a))
                 else mret tt);
            mret (attrs, None)
          else if negb (strings_Contains localPath (fc_tmpPath c)) then not_found
          else p ← on_N (new_obj (newObjAttr name info)); mret (p, None)
        else if exists_ then mret (attrs, None) else not_found
    | inr e =>
        if os_IsExist (Some e) then go_panic
        else if exists_ then mret (attrs, None) else not_found
    end.

Definition fc_RenameFile (options : RenameFileOptions) : go fc (option error) :=
  let src := RenameFile_Src options in
  let dst := RenameFile_Dst options in
  with_flock src (λ _, with_flock dst (λ _,
    err ← on_N (c_RenameFile next options);
    err ← validateStorageError src err false;
    if bool_decide (err ≠ None) then mret err
    else
      c ← conf_;
      localSrcPath ← local_path src;
      localDstPath ← local_path dst;
      err ← on_N (os_Rename localSrcPath localDstPath);
      _ ← (if bool_decide (err ≠ None) then
             _ ← on_N (deleteFile localDstPath); on_policy (pol_CachePurge localDstPath)
           else mret tt);
      _ ← on_N (deleteFile localSrcPath);
      _ ← on_policy (pol_CachePurge localSrcPath);
      _ ← (if fc_cacheTimeout c =? 0 then on_policy (pol_CachePurge localDstPath)
           else on_policy (pol_CacheValid localDstPath));
      mret None)).

Definition fc_TruncateFile (options : TruncateFileOptions) : go fc (option error) :=
  let name := TruncateFile_Name options in
  full ← over_limit (TruncateFile_Size options);
  if (full : bool) then mret (Some (Errno ENOSPC))
  else
    c ← conf_;
    '(h, err) ← (if TruncateFile_Size options =? 0
                 then fc_CreateFile (mkCreateFileOptions name (fc_defaultPermission c))
                 else fc_OpenFile (mkOpenFileOptions name O_RDWR (fc_defaultPermission c)));
    if bool_decide (err ≠ None) then mret err
    else
      localPath ← local_path name;
      _ ← on_policy (pol_CacheValid localPath);
      err ← on_N (os_Truncate localPath (TruncateFile_Size options));
      if bool_decide (err ≠ None) then _ ← fc_CloseFile (mkCloseFileOptions h); mret err
      else
        _ ← on_N (upd_handle h (handle_set_flag HandleFlagDirty));
        fc_CloseFile (mkCloseFileOptions h).

Definition fc_FileUsed (name : string) : go fc (option error) :=
  localPath ← local_path name;
  _ ← on_policy (pol_CacheValid localPath);
  mret None.

(** *** Configuration *)
Definition fc_StatFs (_ : unit) : go fc (option Statfs_t * bool * option error) :=
  c ← conf_;
  let maxCacheSize := (fc_maxCacheSize c * inject_Z fc_MB)%Q in
  if Qeq_bool maxCacheSize 0 then mret (None, false, None)
  else
    u ← on_N (GetUsage (fc_tmpPath c));
    let usage := (default 0 u * inject_Z fc_MB)%Q in
    let available := (maxCacheSize - usage)%Q in
    '(statfs, err) ← on_N (syscall_Statfs "/");
    if bool_decide (err ≠ None) then mret (None, false, err)
    else if u64 (Frsize statfs) =? 0 then go_panic
    else
      let avail := u64 (Qfloor (if Qle_bool 0 available then available else 0)) / u64 (Frsize statfs) in
      mret (Some (mkStatfs (u64 (Qfloor maxCacheSize) / u64 (Frsize statfs)) avail avail (Frsize statfs)
        (Bsize statfs) (Files statfs) (Ffree statfs) (statfs_Flags statfs)), true, None).

(** Zero values of the options stand for their defaults. *)
Definition GetPolicyConfig (c : FCConf) (conf : FileCacheOptions) : cachePolicyConfig :=
  let or_default v d := if v =? 0 then d else v in
  mkPolicyConfig (fc_tmpPath c) (u32 (fc_cacheTimeout c)) (or_default (fco_MaxEviction conf) defaultMaxEviction)
    (fco_MaxSizeMB conf) (inject_Z (or_default (fco_HighThreshold conf) defaultMaxThreshold))
    (inject_Z (or_default (fco_LowThreshold conf) defaultMinThreshold)) (fco_EnablePolicyTrace conf).

(** [unmarshal] is what config.UnmarshalKey reads for the component.  After an
    error of it the zero options are used. *)
Definition fc_OnConfigChange (unmarshal : FileCacheOptions + error) : go fc unit :=
  let conf := match unmarshal with inl conf => conf | inr _ => zero_FileCacheOptions end in
  c ← conf_;
  let c' := mkFCConf (fc_tmpPath c) (fco_CreateEmptyFile conf) (fc_allowNonEmpty c) (fco_Timeout conf)
    (fc_cleanupOnStart c) (fco_EnablePolicyTrace conf) (fc_mountPath c) (fc_allowOther c) (fco_OffloadIO conf)
    (fco_SyncToFlush conf) (negb (fco_SyncNoOp conf)) (fco_MaxSizeMB conf) (fc_defaultPermission c)
    (fc_refreshSec c) (fc_hardLimit c) (fc_diskHighWaterMark c) in
  _ ← go_modify (fc_set_conf c');
  s ← go_get;
  _ ← (if hasPolicy s then on_policy (pol_UpdateConfig (GetPolicyConfig c' conf)) else go_panic);
  mret tt.

(** The fields taken from the options before the checks of Configure. *)
Definition conf_fields (conf : FileCacheOptions) (isSet : string → bool) (env : OsEnv) (c : FCConf) : FCConf :=
  mkFCConf (ExpandPath env (fco_TmpPath conf)) (fco_CreateEmptyFile conf)
    (if isSet "file_cache.empty-dir-check" then negb (fco_EmptyDirCheck conf) else fco_AllowNonEmpty conf)
    (if isSet "file_cache.file-cache-timeout-in-seconds" then fco_V1Timeout conf
     else if isSet "file_cache.timeout-sec" then fco_Timeout conf else defaultFileCacheTimeout)
    (fco_CleanupOnStart conf) (fco_EnablePolicyTrace conf) (fc_mountPath c) (fc_allowOther c) (fco_OffloadIO conf)
    (fco_SyncToFlush conf) (negb (fco_SyncNoOp conf)) (fco_MaxSizeMB conf) (fc_defaultPermission c)
    (fco_RefreshSec conf) (fco_HardLimit conf) (fc_diskHighWaterMark c).
Definition conf_with_mountPath (m : string) (c : FCConf) : FCConf :=
  mkFCConf (fc_tmpPath c) (fc_createEmptyFile c) (fc_allowNonEmpty c) (fc_cacheTimeout c) (fc_cleanupOnStart c)
    (fc_policyTrace c) m (fc_allowOther c) (fc_offloadIO c) (fc_syncToFlush c) (fc_syncToDelete c)
    (fc_maxCacheSize c) (fc_defaultPermission c) (fc_refreshSec c) (fc_hardLimit c) (fc_diskHighWaterMark c).
Definition conf_with_allowOther (b : bool) (c : FCConf) : FCConf :=
  mkFCConf (fc_tmpPath c) (fc_createEmptyFile c) (fc_allowNonEmpty c) (fc_cacheTimeout c) (fc_cleanupOnStart c)
    (fc_policyTrace c) (fc_mountPath c) b (fc_offloadIO c) (fc_syncToFlush c) (fc_syncToDelete c)
    (fc_maxCacheSize c) (if b then DefaultAllowOtherPermissionBits else DefaultFilePermissionBits)
    (fc_refreshSec c) (fc_hardLimit c) (fc_diskHighWaterMark c).
Definition conf_with_highWaterMark (q : Q) (c : FCConf) : FCConf :=
  mkFCConf (fc_tmpPath c) (fc_createEmptyFile c) (fc_allowNonEmpty c) (fc_cacheTimeout c) (fc_cleanupOnStart c)
    (fc_policyTrace c) (fc_mountPath c) (fc_allowOther c) (fc_offloadIO c) (fc_syncToFlush c) (fc_syncToDelete c)
    (fc_maxCacheSize c) (fc_defaultPermission c) (fc_refreshSec c) (fc_hardLimit c) q.

(** The temporary directory: it exists or can be made, and is empty unless
    that is allowed. *)
Definition check_tmp_dir : go fc (option error) :=
  c ← conf_;
  r ← on_N (os_Stat (fc_tmpPath c));
  err ← match r with
        | inr e => if os_IsNotExist (Some e) then on_N (os_MkdirAll (fc_tmpPath c) 493) else mret None
        | inl _ => mret None
        end;
  if bool_decide (err ≠ None) then mret (Some (Msg "config error in file_cache"))
  else
    empty ← on_N (isLocalDirEmpty (fc_tmpPath c));
    if negb empty && negb (fc_allowNonEmpty c) then mret (Some (Msg "temp directory not empty"))
    else mret None.

(** Configure; [mountPath] and [allowOther] are what config.UnmarshalKey reads
    for the keys mount-path and allow-other. *)
Definition fc_Configure `{!PolicyKinds P} (unmarshal : FileCacheOptions + error) (isSet : string → bool)
    (env : OsEnv) (mountPath : string + error) (allowOther : bool + error) : go fc (option error) :=
  match unmarshal with
  | inr _ => mret (Some (Msg "config error in file_cache"))
  | inl conf =>
      c ← conf_;
      _ ← go_modify (fc_set_conf (conf_fields conf isSet env c));
      c ← conf_;
      if bool_decide (fc_tmpPath c = "") then mret (Some (Msg "tmp-path not set"))
      else
        _ ← (match mountPath with inl m => go_modify (fc_set_conf (conf_with_mountPath m c)) | inr _ => mret tt end);
        if match mountPath with inl m => bool_decide (m = fc_tmpPath c) | inr _ => false end
        then mret (Some (Msg "tmp-path is same as mount path"))
        else
          err ← check_tmp_dir;
          if bool_decide (err ≠ None) then mret err
          else
            match allowOther with
            | inr e => mret (Some (Msg "config error in file_cache"))
            | inl b =>
                c ← conf_;
                let c := conf_with_allowOther b c in
                let cacheConfig := GetPolicyConfig c conf in
                let new := if bool_decide (strings_ToLower (fco_Policy conf) = "lfu")
                           then pol_NewLFU cacheConfig else pol_NewLRU cacheConfig in
                let mark := if fco_HardLimit conf && negb (Qeq_bool (fco_MaxSizeMB conf) 0)
                            then (fco_MaxSizeMB conf * inject_Z fc_MB * highThreshold cacheConfig / 100)%Q
                            else 0%Q in
                _ ← go_modify (λ s, mkFileCache (conf_with_highWaterMark mark c) true (new (fc_policy s))
                      (missedChmodList s) (spawned s));
                mret None
            end
  end.
End file_cache.
