(* ===== verification/FileCacheSpec.v ===== *)
(** * The file cache implements a file

    What the local file system, the storage and the eviction policy promise
    ([OSLaws], [StorageLaws], [PolicyLaws]), the abstract file a user sees
    ([file_step]), and the refinement: every run of opens, creates, reads,
    writes, flushes, closes and deletes of a file through the file cache,
    interleaved with the background routines of the policy, is a run of the
    abstract file, and every operation returns. *)
From S2P Require Import Prelude GoLib Common HandleMap Internal LockMap LruPolicy FileCache.
From Stdlib Require Import Ascii QArith.
Open Scope Z_scope.

(** ** What is seen of the local files

    [lf_dir] is the inode of a path that names a regular file, [lf_data] the
    content of an inode, [lf_open] the descriptor and the inode of an open
    *os.File. *)
Record LFS := mkLFS {
  lf_dir : gmap string nat;
  lf_data : gmap nat (list byte);
  lf_open : gmap ptr (Z * nat)
}.
Definition lf_opened (path : string) (i : nat) (c : list byte) (f : ptr) (fd : Z) (L : LFS) : LFS :=
  mkLFS (<[path := i]> (lf_dir L)) (<[i := c]> (lf_data L)) (<[f := (fd, i)]> (lf_open L)).
Definition lf_write (i : nat) (c : list byte) (L : LFS) : LFS :=
  mkLFS (lf_dir L) (<[i := c]> (lf_data L)) (lf_open L).
Definition lf_close (f : ptr) (L : LFS) : LFS :=
  mkLFS (lf_dir L) (lf_data L) (delete f (lf_open L)).
Definition lf_unlink (path : string) (L : LFS) : LFS :=
  mkLFS (delete path (lf_dir L)) (lf_data L) (lf_open L).

(** The local files and the content of the files in the container. *)
Class FileView (N : Type) := {
  lfs : N → LFS;
  stored : N → gmap string (list byte)
}.

(** The local files become [L]; nothing else that is seen changes. *)
Definition upd {N : Type} `{!Runtime N} `{!FileView N} (n n' : N) (L : LFS) : Prop :=
  lfs n' = L ∧ stored n' = stored n ∧ rt_handles n' = rt_handles n.

(** A descriptor no open file has. *)
Definition fd_unused (fd : Z) (L : LFS) : Prop := ∀ f i, lf_open L !! f ≠ Some (fd, i).

(** The bytes a read of a file returns: those at the offset, and some bytes
    unless the buffer is empty or the offset is at the end. *)
Definition read_ok (c : list byte) (off : Z) (buf buf' : list byte) (k : Z) : Prop :=
  0 ≤ k ≤ Z.of_nat (length buf) ∧
  buf' = take (Z.to_nat k) (drop (Z.to_nat off) c) ++ drop (Z.to_nat k) buf ∧
  (Z.to_nat k ≤ length (drop (Z.to_nat off) c))%nat ∧
  (k = 0 → buf = [] ∨ (length c ≤ Z.to_nat off)%nat).

(** The content after a write; writing nothing does not extend a file. *)
Definition written (c : list byte) (off : Z) (d : list byte) : list byte :=
  match d with [] => c | _ => splice c (Z.to_nat off) d end.

(** The system calls of the file cache, for a cache in which [lp], the local
    path of the file, is not a directory, can be removed, and can be opened for
    reading while descriptors are left ([can_open]).  Paths are the cleaned ones
    of filepath.Join: different paths name different files. *)
Class OSLaws (N : Type) `{!Runtime N} `{!FileSystem N} `{!LocalOS N} `{!FileView N} (lp : string) := {
  can_open : LFS → Prop;
  law_handles m n : rt_handles (rt_set_handles m n) = m;
  law_set_handles m n : lfs (rt_set_handles m n) = lfs n ∧ stored (rt_set_handles m n) = stored n;
  law_objs m n : rt_objs (rt_set_objs m n) = m;
  law_set_objs m n : upd n (rt_set_objs m n) (lfs n);
  law_now n : wp rt_now (λ _ n', upd n n' (lfs n) ∧ rt_objs n' = rt_objs n) n;
  law_Stat n : wp (os_Stat lp) (λ r n', upd n n' (lfs n) ∧
    match r with
    | inl fi => is_Some (lf_dir (lfs n) !! lp)
    | inr e => os_IsExist (Some e) = false
    end) n;
  law_Lstat n : wp (os_Lstat lp) (λ r n', upd n n' (lfs n) ∧ rt_objs n' = rt_objs n ∧
    match r with
    | inl fi => fi_IsDir fi = false ∧ ∃ i, lf_dir (lfs n) !! lp = Some i ∧
        ∀ c, lf_data (lfs n) !! i = Some c → fi_Size fi = Z.of_nat (length c)
    | inr e => os_IsExist (Some e) = false ∧ lf_dir (lfs n) !! lp = None
    end) n;
  law_open flags mode n i c :
    lf_dir (lfs n) !! lp = Some i → lf_data (lfs n) !! i = Some c →
    wp (os_OpenFile lp flags mode) (λ '(f, err) n',
      match err with
      | Some _ => (flags = O_RDONLY → ¬ can_open (lfs n)) ∧ upd n n' (lfs n)
      | None => f ≠ nil_ptr ∧ ∃ fd, 0 ≤ fd < 2 ^ 31 ∧ lf_open (lfs n) !! f = None ∧
          upd n n' (lf_opened lp i (if Z.land flags O_TRUNC =? 0 then c else []) f fd (lfs n))
      end) n;
  law_create flags mode n :
    lf_dir (lfs n) !! lp = None → Z.land flags O_CREATE ≠ 0 →
    wp (os_OpenFile lp flags mode) (λ '(f, err) n',
      match err with
      | Some _ => upd n n' (lfs n)
      | None => f ≠ nil_ptr ∧ ∃ fd i, 0 ≤ fd < 2 ^ 31 ∧ lf_open (lfs n) !! f = None ∧
          upd n n' (lf_opened lp i [] f fd (lfs n))
      end) n;
  law_Remove path n : wp (os_Remove path) (λ err n',
    upd n n' (if bool_decide (err = None) then lf_unlink path (lfs n) else lfs n) ∧
    (path = lp → is_Some (lf_dir (lfs n) !! lp) → err = None)) n;
  law_Chmod path mode n : wp (os_Chmod path mode) (λ _ n', upd n n' (lfs n)) n;
  law_MkdirAll path mode n : wp (os_MkdirAll path mode) (λ _ n', upd n n' (lfs n)) n;
  law_Chtimes path a m n : wp (os_Chtimes path a m) (λ _ n', upd n n' (lfs n)) n;
  law_GetUsage path n : wp (GetUsage path) (λ _ n', upd n n' (lfs n)) n;
  law_GetDiskUsage path n : wp (GetDiskUsageFromStatfs path) (λ _ n', upd n n' (lfs n)) n;
  law_Close f n fd i : lf_open (lfs n) !! f = Some (fd, i) →
    wp (file_Close f) (λ err n', err = None ∧ upd n n' (lf_close f (lfs n))) n;
  law_Fd f n fd i : lf_open (lfs n) !! f = Some (fd, i) →
    wp (file_Fd f) (λ r n', r = fd ∧ upd n n' (lfs n)) n;
  law_fstat f n : wp (file_Stat f) (λ _ n', upd n n' (lfs n)) n;
  law_Pread f fd i c buf off n :
    lf_open (lfs n) !! f = Some (fd, i) → lf_data (lfs n) !! i = Some c → 0 ≤ off →
    wp (syscall_Pread fd buf off) (λ '(buf', k, err) n', upd n n' (lfs n) ∧
      (err = None → read_ok c off buf buf' k)) n;
  law_Pwrite f fd i c d off n :
    lf_open (lfs n) !! f = Some (fd, i) → lf_data (lfs n) !! i = Some c → 0 ≤ off →
    wp (syscall_Pwrite fd d off) (λ '(k, err) n',
      match err with
      | None => 0 ≤ k ≤ Z.of_nat (length d) ∧
          upd n n' (lf_write i (written c off (take (Z.to_nat k) d)) (lfs n))
      | Some _ => upd n n' (lfs n)
      end) n;
  law_Dup fd n : wp (syscall_Dup fd) (λ '(fd', err) n', upd n n' (lfs n) ∧
    (err = None → fd_unused fd' (lfs n))) n;
  law_sysclose fd n : fd_unused fd (lfs n) → wp (syscall_Close fd) (λ _ n', upd n n' (lfs n)) n
}.

(** The requests for the file [name] to the next component.  A request that
    fails leaves the content in the container as it was; a request for the
    attributes is answered, or fails with one of [attr_errors], which do not say
    that the file does not exist. *)
Class StorageLaws {N : Type} `{!Runtime N} `{!FileView N} (next : Component N) (name : string) := {
  attr_errors : error → Prop;
  law_attr_errors e : attr_errors e → e ≠ Errno ENOENT ∧ os_IsNotExist (Some e) = false;
  law_GetAttr rm n c : stored n !! name = Some c →
    wp (c_GetAttr next (mkGetAttrOptions name rm)) (λ '(p, err) n', upd n n' (lfs n) ∧
      match err with
      | Some e => attr_errors e ∧ p = nil_ptr
      | None => p ≠ nil_ptr ∧ ∃ a, rt_objs n' !! p = Some a ∧ Size a = Z.of_nat (length c)
      end) n;
  law_GetAttr_missing rm n : stored n !! name = None →
    wp (c_GetAttr next (mkGetAttrOptions name rm)) (λ '(p, err) n', upd n n' (lfs n) ∧
      (err = Some (Errno ENOENT) ∨ ∃ e, err = Some e ∧ attr_errors e)) n;
  law_CopyToFile f fd i old c n :
    stored n !! name = Some c → lf_open (lfs n) !! f = Some (fd, i) → lf_data (lfs n) !! i = Some old →
    wp (c_CopyToFile next (mkCopyToFileOptions name 0 (Z.of_nat (length c)) f)) (λ err n',
      ∃ c', upd n n' (lf_write i c' (lfs n)) ∧ (err = None → c' = splice old 0 c)) n;
  law_CopyFromFile f fd i c n :
    lf_open (lfs n) !! f = Some (fd, i) → lf_data (lfs n) !! i = Some c →
    wp (c_CopyFromFile next (mkCopyFromFileOptions name f ∅)) (λ err n',
      lfs n' = lfs n ∧ rt_handles n' = rt_handles n ∧
      stored n' = if bool_decide (err = None) then <[name := c]> (stored n) else stored n) n;
  law_DeleteFile n :
    wp (c_DeleteFile next (mkDeleteFileOptions name)) (λ err n',
      lfs n' = lfs n ∧ rt_handles n' = rt_handles n ∧
      stored n' = if bool_decide (err = None) then delete name (stored n) else stored n) n;
  law_SChmod mode n :
    wp (c_Chmod next (mkChmodOptions name mode)) (λ _ n', upd n n' (lfs n)) n
}.

(** ** Lock items

    Distinct names have distinct items.  [lock_is l name ex k]: the item of the
    name, made or not, is held or not as [ex] says and counts [k] handles. *)
Definition lm_wf (l : LockMap) : Prop :=
  (∀ nm q, locks l !! nm = Some q → is_Some (items l !! q)) ∧
  (∀ nm1 nm2 q, locks l !! nm1 = Some q → locks l !! nm2 = Some q → nm1 = nm2).
Definition lock_held (l : LockMap) (name : string) (q : ptr) (k : Z) : Prop :=
  locks l !! name = Some q ∧ ∃ t, items l !! q = Some (mkLockMapItem k true true t).
Definition lock_free (l : LockMap) (name : string) (k : Z) : Prop :=
  match locks l !! name with
  | None => k = 0
  | Some q => ∃ t, items l !! q = Some (mkLockMapItem k false false t)
  end.

(** What the background routines of a policy may do to a file with [k] open
    handles: remove it from the cache when there are none. *)
Definition quiet {N : Type} `{!Runtime N} `{!FileView N} (n n' : N) (lp : string) (k : Z) : Prop :=
  stored n' = stored n ∧ rt_handles n' = rt_handles n ∧
  lf_data (lfs n') = lf_data (lfs n) ∧ lf_open (lfs n') = lf_open (lfs n) ∧
  (lf_dir (lfs n') !! lp = lf_dir (lfs n) !! lp ∨ (k = 0 ∧ lf_dir (lfs n') !! lp = None)).

(** An operation of a policy: it returns and touches the policy only. *)
Definition pol_op {P N : Type} `{!cachePolicy P N} (ok : P → Prop) (room : P → nat) (m : go P unit) : Prop :=
  ∀ p, ok p → (1 ≤ room p)%nat → wp m (λ _ p', ok p' ∧ (room p ≤ S (room p'))%nat ∧
    pol_next p' = pol_next p ∧ pol_locks p' = pol_locks p) p.

(** [pol_ok] is the invariant of the policy, [pol_room] how many requests its
    queues can take, [pol_bg] a completed round of its background routines. *)
Class PolicyLaws (P N : Type) `{!Runtime N} `{!FileView N} `{!cachePolicy P N} (name lp : string) := {
  pol_ok : P → Prop;
  pol_room : P → nat;
  pol_bg : P → P → Prop;
  law_next_set n p : pol_next (pol_set_next n p) = n;
  law_locks_set l p : pol_locks (pol_set_locks l p) = l;
  law_next_set_locks l p : pol_next (pol_set_locks l p) = pol_next p;
  law_locks_set_next n p : pol_locks (pol_set_next n p) = pol_locks p;
  law_ok_set n p : pol_ok p → pol_ok (pol_set_next n p) ∧ pol_room (pol_set_next n p) = pol_room p;
  law_ok_set_locks l p : pol_ok p → pol_ok (pol_set_locks l p) ∧ pol_room (pol_set_locks l p) = pol_room p;
  law_CacheValid : pol_op pol_ok pol_room (pol_CacheValid lp);
  law_CacheInvalidate : pol_op pol_ok pol_room (pol_CacheInvalidate lp);
  law_CachePurge : pol_op pol_ok pol_room (pol_CachePurge lp);
  law_IsCached p : pol_ok p → wp (pol_IsCached lp) (λ _ p', pol_ok p' ∧ pol_room p' = pol_room p ∧
    pol_next p' = pol_next p ∧ pol_locks p' = pol_locks p) p;
  law_bg p p' k : 0 ≤ k → pol_ok p → pol_bg p p' → lm_wf (pol_locks p) → lock_free (pol_locks p) name k →
    pol_ok p' ∧ lm_wf (pol_locks p') ∧ lock_free (pol_locks p') name k ∧ quiet (pol_next p) (pol_next p') lp k
}.

(** ** Rules *)
Lemma lm_wf_insert l q i : lm_wf l → lm_wf (mkLockMap (locks l) (<[q:=i]> (items l))).
Proof.
  intros [Ha Hi]. split; simpl; [|done]. intros nm x Hx. destruct (decide (q = x)) as [->|].
  - rewrite lookup_insert_eq. eauto.
  - rewrite lookup_insert_ne by done. eauto.
Qed.

(** Get makes the item on first use, with no handle; Lock takes it. *)
Lemma wp_lm_Get l name k :
  lm_wf l → lock_free l name k →
  wp (lm_Get name) (λ q l', lm_wf l' ∧ locks l' !! name = Some q ∧
    ∃ t, items l' !! q = Some (mkLockMapItem k false false t)) l.
Proof.
  intros Hwf Hfree. unfold wp, lm_Get. unfold lock_free in Hfree.
  destruct (locks l !! name) as [q|] eqn:E; [done|]. subst k. set (q := fresh_ptr (items l)). simpl.
  split; [|rewrite !lookup_insert_eq; split; [done|by exists 0]]. destruct Hwf as [Ha Hi].
  assert (Hne : ∀ nm x, locks l !! nm = Some x → x ≠ q).
  { intros nm x Hx ->. destruct (Ha _ _ Hx) as [i Hi']. unfold q in Hi'. by rewrite fresh_ptr_lookup in Hi'. }
  split; simpl.
  - intros nm x [[_ <-]|[_ Hx]]%lookup_insert_Some; [rewrite lookup_insert_eq; eauto|].
    rewrite lookup_insert_ne by (intros <-; by eapply Hne). eauto.
  - intros nm1 nm2 x [[<- <-]|[Hn1 H1]]%lookup_insert_Some [[<- H2]|[Hn2 H2]]%lookup_insert_Some; try done.
    + exfalso. by eapply (Hne nm2).
    + subst x. exfalso. by eapply (Hne nm1).
    + eauto.
Qed.

Lemma wp_lm_Lock l name q k t :
  lm_wf l → locks l !! name = Some q → items l !! q = Some (mkLockMapItem k false false t) →
  wp (lm_Lock q) (λ _ l', lm_wf l' ∧ lock_held l' name q k) l.
Proof.
  intros Hwf Hq Hi. unfold wp, lm_Lock, mutex_lock, set_exLocked, load_item, store_item, mbind, go_bind.
  rewrite Hi. simpl. rewrite lookup_insert_eq. simpl.
  split; [by do 2 apply (lm_wf_insert (mkLockMap (locks l) _))|].
  split; [done|]. exists t. simpl. by rewrite lookup_insert_eq.
Qed.

Lemma wp_lm_release l name q k :
  lm_wf l → lock_held l name q k → wp (lm_Unlock q) (λ _ l', lm_wf l' ∧ lock_free l' name k) l.
Proof.
  intros Hwf [Hq [t Hi]]. unfold wp, lm_Unlock, mutex_unlock, set_exLocked, load_item, store_item, mbind, go_bind.
  rewrite Hi. simpl. rewrite lookup_insert_eq. simpl.
  split; [by do 2 apply (lm_wf_insert (mkLockMap (locks l) _))|].
  unfold lock_free. simpl. rewrite Hq, lookup_insert_eq. eauto.
Qed.

Lemma wp_lm_update (f : LockMapItem → LockMapItem) l name q k k' :
  lm_wf l → lock_held l name q k →
  (∀ t, ∃ t', f (mkLockMapItem k true true t) = mkLockMapItem k' true true t') →
  wp (i ← load_item q; store_item q (f i)) (λ _ l', lm_wf l' ∧ lock_held l' name q k') l.
Proof.
  intros Hwf [Hq [t Hi]] Hf. destruct (Hf t) as [t' Ht].
  unfold wp, load_item, store_item, mbind, go_bind. rewrite Hi. simpl.
  split; [by apply lm_wf_insert|]. split; [done|]. simpl. rewrite lookup_insert_eq, Ht. eauto.
Qed.

Section rules.
Context {P N : Type} `{!Runtime N} `{!FileSystem N} `{!LocalOS N} `{!FileView N} `{!cachePolicy P N}.
Context (name lp : string).
Context `{!PolicyLaws P N name lp} `{!OSLaws N lp}.
Abbreviation fc := (FileCache P).
Implicit Types (s : fc) (n : N) (l : LockMap) (c : FCConf).

(** The configuration, the next component's state, the locks, and at least [r]
    free places in the queues of the policy. *)
Record St s c n l (r : nat) : Prop := mkSt {
  st_conf : fc_conf s = c;
  st_next : pol_next (fc_policy s) = n;
  st_locks : pol_locks (fc_policy s) = l;
  st_ok : pol_ok (fc_policy s);
  st_room : (r ≤ pol_room (fc_policy s))%nat;
  st_wf : lm_wf l
}.

Lemma wp_conf s c n l r (Q : FCConf → fc → Prop) : St s c n l r → Q c s → wp conf_ Q s.
Proof. intros [<- _ _ _ _] HQ. done. Qed.

Lemma wp_local_path s c n l r nm (Q : string → fc → Prop) :
  St s c n l r → Q (filepath_Join [fc_tmpPath c; nm]) s → wp (local_path nm) Q s.
Proof. intros Hs HQ. unfold local_path. apply wp_bind. eapply wp_conf; [done|]. by apply wp_ret. Qed.

Lemma wp_on_N {A} (m : go N A) s c n l r (Q : A → fc → Prop) :
  St s c n l r → wp m (λ a n', ∀ s', St s' c n' l r → Q a s') n → wp (on_N m) Q s.
Proof.
  intros [H1 H2 H3 H4 H5 H6] Hm. unfold on_N, on_policy. apply wp_zoom, wp_zoom. rewrite H2.
  eapply wp_mono; [exact Hm|]. simpl. intros a n' HQ. apply HQ.
  destruct (law_ok_set n' _ H4) as [Hok Hr].
  split; simpl; [done|apply law_next_set|by rewrite law_locks_set_next|done|by rewrite Hr|done].
Qed.

Lemma wp_on_flock {A} (m : go LockMap A) s c n l r (Q : A → fc → Prop) :
  St s c n l r → wp m (λ a l', lm_wf l' ∧ ∀ s', St s' c n l' r → Q a s') l → wp (on_flock m) Q s.
Proof.
  intros [H1 H2 H3 H4 H5 H6] Hm. unfold on_flock, on_policy. apply wp_zoom, wp_zoom. rewrite H3.
  eapply wp_mono; [exact Hm|]. simpl. intros a l' [Hwf HQ]. apply HQ.
  destruct (law_ok_set_locks l' _ H4) as [Hok Hr].
  split; simpl; [done|by rewrite law_next_set_locks|apply law_locks_set|done|by rewrite Hr|done].
Qed.

Lemma wp_pol_op m s c n l r (Q : unit → fc → Prop) :
  pol_op pol_ok pol_room m → St s c n l (S r) → (∀ s', St s' c n l r → Q tt s') → wp (on_policy m) Q s.
Proof.
  intros Hm [H1 H2 H3 H4 H5 H6] HQ. apply wp_zoom. eapply wp_mono; [apply Hm; [done|lia]|].
  intros [] p' (Hok & Hr & Hn & Hl). apply HQ. split; simpl; [done|congruence|congruence|done|lia|done].
Qed.

Lemma wp_IsCached s c n l r (Q : bool → fc → Prop) :
  St s c n l r → (∀ b s', St s' c n l r → Q b s') → wp (on_policy (pol_IsCached lp)) Q s.
Proof.
  intros [H1 H2 H3 H4 H5 H6] HQ. apply wp_zoom. eapply wp_mono; [by apply law_IsCached|].
  intros b p' (Hok & Hr & Hn & Hl). apply HQ. split; simpl; [done|congruence|congruence|done|lia|done].
Qed.

Lemma St_weaken s c n l r r' : St s c n l r → (r' ≤ r)%nat → St s c n l r'.
Proof. intros [] ?. split; try done. lia. Qed.

(** The lock is held around the body. *)
Lemma wp_with_flock {A} (body : ptr → go fc A) s c n l r k (Q : A → fc → Prop) :
  St s c n l r → lock_free l name k →
  (∀ q s1 l1, St s1 c n l1 r → lock_held l1 name q k →
    wp (body q) (λ a s2, ∃ c2 n2 l2 r2 k2, St s2 c2 n2 l2 r2 ∧ lock_held l2 name q k2 ∧
      ∀ s3 l3, St s3 c2 n2 l3 r2 → lock_free l3 name k2 → Q a s3) s1) →
  wp (with_flock name body) Q s.
Proof.
  intros Hs Hfree Hbody. unfold with_flock.
  apply wp_bind. eapply wp_on_flock; [done|]. eapply wp_mono; [apply wp_lm_Get; [apply Hs|done]|].
  intros q l1 (Hwf1 & Hq & t & Hi). split; [done|]. intros s1 Hs1. apply wp_bind. eapply wp_on_flock; [done|].
  eapply wp_mono; [by eapply wp_lm_Lock|]. intros [] l2 [Hwf2 Hheld]. split; [done|]. intros s2 Hs2.
  apply wp_bind. eapply wp_mono; [by eapply Hbody|]. intros a s3 (c3 & n3 & l3 & r3 & k3 & Hs3 & Hh3 & HQ).
  apply wp_bind. eapply wp_on_flock; [done|]. eapply wp_mono; [apply wp_lm_release; [apply Hs3|done]|].
  intros [] l4 [Hwf4 Hf4]. split; [done|]. intros s4 Hs4. apply wp_ret. eauto.
Qed.

(** ** Small steps *)
Lemma upd_trans n n1 n2 L1 L2 : upd n n1 L1 → upd n1 n2 L2 → upd n n2 L2.
Proof. unfold upd. intuition congruence. Qed.

(** Nothing that is seen changes. *)
Definition same (n n' : N) : Prop := upd n n' (lfs n).
#[local] Instance same_preorder : PreOrder same.
Proof.
  split; [by intros n; unfold same, upd|]. unfold same, upd. intros n1 n2 n3. intuition congruence.
Qed.

Lemma wp_same {A} (m : go N A) s c n l r (Q : A → fc → Prop) :
  St s c n l r → wp m (λ _ n', upd n n' (lfs n)) n →
  (∀ a s' n', St s' c n' l r → same n n' → Q a s') → wp (on_N m) Q s.
Proof.
  intros Hs Hm HQ. eapply wp_on_N; [done|]. eapply wp_mono; [exact Hm|]. simpl. intros a n' H s' Hs'. eauto.
Qed.

Lemma wp_since s c n l r t secs (Q : bool → fc → Prop) :
  St s c n l r → (∀ b s' n', St s' c n' l r → same n n' → Q b s') → wp (since_exceeds t secs) Q s.
Proof.
  intros Hs HQ. unfold since_exceeds. apply wp_bind. eapply wp_same; [done| |].
  - eapply wp_mono; [apply law_now|]. by intros ? ? [? _].
  - intros now s' n' Hs' Hn. apply wp_ret. eauto.
Qed.

Lemma wp_upd_handle s c n l r hp f h (Q : unit → fc → Prop) :
  St s c n l r → rt_handles n !! hp = Some h →
  (∀ s' n', St s' c n' l r → lfs n' = lfs n → stored n' = stored n →
     rt_handles n' = <[hp := f h]> (rt_handles n) → Q tt s') →
  wp (on_N (upd_handle hp f)) Q s.
Proof.
  intros Hs Hh HQ. eapply wp_on_N; [done|]. unfold wp, upd_handle. rewrite Hh. intros s' Hs'.
  destruct (law_set_handles (<[hp := f h]> (rt_handles n)) n). eapply HQ; [done..|]. by rewrite law_handles.
Qed.

Lemma wp_fc_new_handle s c n l r h (Q : ptr → fc → Prop) :
  St s c n l r →
  (∀ hp s' n', St s' c n' l r → lfs n' = lfs n → stored n' = stored n → hp ≠ nil_ptr →
     rt_handles n' = <[hp := h]> (rt_handles n) → Q hp s') →
  wp (on_N (new_handle h)) Q s.
Proof.
  intros Hs HQ. eapply wp_on_N; [done|]. unfold wp, new_handle. intros s' Hs'.
  set (hp := fresh_ptr (rt_handles n)). destruct (law_set_handles (<[hp := h]> (rt_handles n)) n).
  eapply HQ; [done..|apply fresh_ptr_nil|]. by rewrite law_handles.
Qed.

Lemma wp_get_handle s c n l r hp h (Q : Handle → fc → Prop) :
  St s c n l r → rt_handles n !! hp = Some h → (∀ s', St s' c n l r → Q h s') → wp (get_handle hp) Q s.
Proof.
  intros Hs Hh HQ. eapply wp_on_N; [done|]. unfold wp, load_handle. by rewrite Hh.
Qed.

(** The file is not open: the local copy, if there is one, is what is stored. *)
Definition closed_view n (st : option (list byte)) : Prop :=
  stored n !! name = st ∧
  ∀ i, lf_dir (lfs n) !! lp = Some i → ∃ ct, st = Some ct ∧ lf_data (lfs n) !! i = Some ct.

(** The file is open by the handle [h]: its local copy, inode [i], contains
    [cur]; what is stored may be behind while the handle is dirty. *)
Record open_view n (hp : ptr) (h : Handle) (i : nat) (cur : list byte) (st : option (list byte)) : Prop := {
  ov_h : rt_handles n !! hp = Some h;
  ov_path : hPath h = name;
  ov_f : FObj h ≠ nil_ptr;
  ov_fd : 0 ≤ UnixFD h < 2 ^ 31;
  ov_open : lf_open (lfs n) !! FObj h = Some (UnixFD h, i);
  ov_dir : lf_dir (lfs n) !! lp = Some i;
  ov_data : lf_data (lfs n) !! i = Some cur;
  ov_stored : stored n !! name = st;
  ov_sync : Fsynced h = false;
  ov_dirty : handle_Dirty h = false → st = Some cur
}.

Lemma closed_view_same n n' st : closed_view n st → same n n' → closed_view n' st.
Proof. unfold closed_view, same, upd. intros H (-> & -> & _). done. Qed.
Lemma open_view_same n n' hp h i cur st : open_view n hp h i cur st → same n n' → open_view n' hp h i cur st.
Proof. intros [] (H1 & H2 & H3). split; rewrite ?H1, ?H2, ?H3; done. Qed.

(** ** isDownloadRequired *)
Lemma wp_local_state s c n l r (Q : option FileInfo * bool → fc → Prop) :
  St s c n l r →
  (∀ info req s' n', St s' c n' l r → same n n' → (info = None → req = true) →
     (is_Some info → is_Some (lf_dir (lfs n) !! lp)) → Q (info, req) s') →
  wp (local_state lp) Q s.
Proof.
  intros Hs HQ. unfold local_state. apply wp_bind. eapply wp_conf; [done|].
  apply wp_bind. eapply wp_IsCached; [done|]. intros cached s1 Hs1.
  apply wp_bind. eapply wp_on_N; [done|]. eapply wp_mono; [apply law_Stat|].
  intros [fi|e] n1 [Hn1 Hfi] s2 Hs2; [|apply wp_ret; eapply HQ; [done|done|done|by intros []]].
  apply wp_bind. eapply wp_since; [done|]. intros old s3 n3 Hs3 Hn3.
  assert (Hsame : same n n3) by (etrans; [exact Hn1|exact Hn3]).
  destruct old; apply wp_bind.
  - eapply wp_since; [done|]. intros exp s4 n4 Hs4 Hn4. apply wp_ret. eapply HQ; [done| |done|done].
    by etrans.
  - apply wp_ret, wp_ret. by eapply HQ.
Qed.

Context (next : Component N) `{!StorageLaws next name}.

(** Attributes of the file in the container. *)
Definition attr_of n (attr : ptr) (ct : list byte) : Prop :=
  attr ≠ nil_ptr ∧ ∃ a, rt_objs n !! attr = Some a ∧ Size a = Z.of_nat (length ct).

Lemma wp_lm_Count l q k :
  lm_wf l → lock_held l name q k → wp (lm_Count q) (λ x l', x = k ∧ l' = l) l.
Proof. intros _ [_ [t Hi]]. unfold wp, lm_Count, load_item, mbind, go_bind. by rewrite Hi. Qed.
Lemma wp_DownloadTime l q k :
  lock_held l name q k → wp (DownloadTime q) (λ _ l', l' = l) l.
Proof. intros [_ [t Hi]]. unfold wp, DownloadTime, load_item, mbind, go_bind. by rewrite Hi. Qed.

(** The download time: the clock, then a store into the item. *)
Lemma wp_set_download_time s c n l r q k (Q : unit → fc → Prop) :
  St s c n l r → lock_held l name q k →
  (∀ s' n' l', St s' c n' l' r → same n n' → rt_objs n' = rt_objs n → lock_held l' name q k → Q tt s') →
  wp (now ← on_N rt_now; on_flock (SetDownloadTime now q)) Q s.
Proof.
  intros Hs Hh HQ. apply wp_bind. eapply wp_on_N; [done|]. eapply wp_mono; [apply law_now|].
  intros now n1 [Hn1 Ho] s1 Hs1. eapply wp_on_flock; [done|].
  eapply wp_mono; [apply (wp_lm_update _ _ _ _ k k (st_wf _ _ _ _ _ Hs1) Hh); eauto|].
  intros [] l' [Hwf Hh']. split; [done|]. eauto.
Qed.

(** Attribute requests fail only when access is denied: OpenFile takes the attributes for
    known after any other error. *)
Definition only_denied : Prop := ∀ e, attr_errors e → e = Errno EACCES.

(** With no handle open: the file is downloaded or its local copy is there; a
    download knows the attributes; the only error is a refused access. *)
Lemma wp_isDownloadRequired s c n l r q ct (Q : bool * bool * ptr * option error → fc → Prop) :
  only_denied → St s c n l r → lock_held l name q 0 → closed_view n (Some ct) →
  (∀ req ex attr err s' n' l', St s' c n' l' r → lock_held l' name q 0 → same n n' →
     (err = Some (Errno EACCES) ∨ err = None ∧ (req = true → attr_of n' attr ct)) →
     (req = false → is_Some (lf_dir (lfs n) !! lp)) → Q (req, ex, attr, err) s') →
  wp (isDownloadRequired next lp name q) Q s.
Proof.
  intros Hden Hs Hh Hcl HQ. unfold isDownloadRequired. apply wp_bind. eapply wp_conf; [done|].
  apply wp_bind. eapply wp_local_state; [done|]. intros info req s1 n1 Hs1 Hn1 Hreq Hex.
  set (ex := bool_decide (is_Some info)).
  apply wp_bind. assert (Hcount : wp (if ex then on_flock (lm_Count q) else mret 0)
    (λ k s2, k = 0 ∧ St s2 c n1 l r) s1).
  { destruct ex; [|by apply wp_ret]. eapply wp_on_flock; [done|].
    eapply wp_mono; [by apply (wp_lm_Count _ _ _ (st_wf _ _ _ _ _ Hs1) Hh)|].
    intros k l' [-> ->]. split; [apply Hs1|]. eauto. }
  eapply wp_mono; [exact Hcount|]. intros k s2 [-> Hs2]. rewrite andb_false_r.
  assert (Hreq' : req = false → is_Some (lf_dir (lfs n) !! lp)).
  { intros ->. apply Hex. destruct info; [eauto|]. by specialize (Hreq eq_refl). }
  apply wp_bind. assert (Hrefresh : wp (if req then mret true else if negb (fc_refreshSec c =? 0) then
      t ← on_flock (DownloadTime q); since_exceeds t (fc_refreshSec c) else mret false)
    (λ b s3, (req = true → b = true) ∧ ∃ n3, St s3 c n3 l r ∧ same n n3) s2).
  { destruct req; [apply wp_ret; eauto|]. destruct (negb _); [|apply wp_ret; eauto].
    apply wp_bind. eapply wp_on_flock; [done|]. eapply wp_mono; [by eapply wp_DownloadTime|].
    intros t l' ->. split; [apply Hs2|]. intros s' Hs'. eapply wp_since; [done|].
    intros b s4 n4 Hs4 Hn4. split; [done|]. exists n4. split; [done|]. by etrans. }
  eapply wp_mono; [exact Hrefresh|]. intros b s3 (Hb & n3 & Hs3 & Hn3).
  apply wp_bind. assert (Hattr : wp (if b then on_N (c_GetAttr next (mkGetAttrOptions name false))
      else mret (nil_ptr, None)) (λ '(attr, err) s4, ∃ n4, St s4 c n4 l r ∧ same n n4 ∧
        (attr ≠ nil_ptr → attr_of n4 attr ct) ∧
        (err = Some (Errno EACCES) ∨ err = None ∧ (b = true → attr ≠ nil_ptr))) s3).
  { destruct b; [|apply wp_ret; eexists; split_and!; try done; right; split; [done|discriminate]].
    eapply wp_on_N; [done|]. eapply wp_mono; [apply (law_GetAttr false _ ct)|].
    { by apply (closed_view_same n n3). }
    intros [attr err] n4 [Hn4 Hok] s4 Hs4. exists n4. split_and!; [done|by etrans| |].
    - intros Hne. destruct err; [by destruct Hok|done].
    - destruct err as [e|]; [left; destruct Hok as [He _]; by rewrite (Hden e He)|right; split; [done|by destruct Hok]]. }
  eapply wp_mono; [exact Hattr|]. clear Hattr Hrefresh Hcount.
  intros [attr err] s4 (n4 & Hs4 & Hn4 & Hat & Herr).
  assert (Hdone : ∀ s5 n5 l5, St s5 c n5 l5 r → lock_held l5 name q 0 → same n n5 → rt_objs n5 = rt_objs n4 →
    ∀ req', (req' = true → req = true ∨ attr ≠ nil_ptr) → (req' = false → req = false) →
    Q (req', ex, attr, err) s5).
  { intros s5 n5 l5 Hs5 Hh5 Hn5 Ho req' H1 H2. eapply HQ; [done|done|done| |].
    - destruct Herr as [?|[? Herr]]; [by left|right]. split; [done|]. intros Hr.
      assert (Ha : attr ≠ nil_ptr) by (destruct (H1 Hr) as [?|?]; [apply Herr; by apply Hb|done]).
      unfold attr_of. rewrite Ho. by apply Hat.
    - intros Hr. apply Hreq'. by apply H2. }
  assert (Hret : wp (mret (req, ex, attr, err)) Q s4) by (apply wp_ret; eapply Hdone; eauto).
  destruct info as [fi|]; [|exact Hret]. destruct (negb _ && negb req && _) eqn:Hg; [|exact Hret].
  apply andb_prop in Hg as [_ Hne%bool_decide_eq_true_1]. destruct (Hat Hne) as (_ & a & Ha & _).
  apply wp_bind. eapply wp_on_N; [done|]. unfold wp, load_obj. rewrite Ha. simpl. intros s5 Hs5.
  destruct (_ || _); [|apply wp_ret; eapply Hdone; eauto].
  apply (wp_bind_assoc (on_N rt_now) (λ now, on_flock (SetDownloadTime now q))).
  eapply wp_set_download_time; [done..|]. intros s6 n6 l6 Hs6 Hn6 Ho6 Hh6. apply wp_ret.
  eapply Hdone; [done|done|by etrans|done|by right|done].
Qed.

(** No limit on the size of the cache, and no empty file made in the
    container on create. *)
Definition conf_ok c : Prop :=
  filepath_Join [fc_tmpPath c; name] = lp ∧ Qeq_bool (fc_diskHighWaterMark c) 0 = true ∧
  fc_createEmptyFile c = false.

Lemma wp_over_limit s c n l r size (Q : bool → fc → Prop) :
  St s c n l r → conf_ok c → Q false s → wp (over_limit size) Q s.
Proof.
  intros Hs (_ & Hq & _) HQ. unfold over_limit. apply wp_bind. eapply wp_conf; [done|].
  rewrite Hq. by apply wp_ret.
Qed.

Lemma lf_unlink_id L : lf_dir L !! lp = None → lf_unlink lp L = L.
Proof. intros H. destruct L. unfold lf_unlink; simpl in *. by rewrite delete_id. Qed.

Lemma wp_remove n : wp (os_Remove lp) (λ _ n', upd n n' (lf_unlink lp (lfs n))) n.
Proof.
  eapply wp_mono; [apply law_Remove|]. intros err n' [Hu He]. case_bool_decide as Herr; [done|].
  rewrite lf_unlink_id; [done|]. destruct (lf_dir (lfs n) !! lp); [|done]. destruct Herr. by apply He.
Qed.

Lemma wp_delete_local n : wp (deleteFile lp) (λ _ n', upd n n' (lf_unlink lp (lfs n))) n.
Proof.
  unfold deleteFile. apply wp_bind. eapply wp_mono; [apply law_Remove|]. intros err n1 [Hu He].
  case_bool_decide as Herr; simpl.
  { subst err. by apply wp_ret. }
  assert (Hnone : lf_dir (lfs n) !! lp = None).
  { destruct (lf_dir (lfs n) !! lp); [|done]. destruct Herr. by apply He. }
  assert (Heq : lf_unlink lp (lfs n) = lfs n) by by apply lf_unlink_id.
  assert (Hu' : upd n n1 (lf_unlink lp (lfs n))) by (by rewrite Heq). clear He.
  rewrite bool_decide_true by done. simpl.
  destruct (os_IsPermission err); [|destruct (os_IsNotExist err); by apply wp_ret].
  apply wp_bind. eapply wp_mono; [apply law_Chmod|]. intros err2 n2 Hu2. simpl in Hu2.
  assert (Hl1 : lfs n1 = lfs n) by apply Hu. rewrite Hl1 in Hu2.
  assert (Hn2 : upd n n2 (lf_unlink lp (lfs n))) by (rewrite Heq; by eapply upd_trans).
  case_bool_decide; [by apply wp_ret|]. eapply wp_mono; [apply wp_remove|]. intros e n3 Hu3.
  destruct Hu2 as (Hl2 & _). rewrite Hl2 in Hu3. by eapply upd_trans.
Qed.

Lemma closed_view_unlink n n' st :
  closed_view n st → upd n n' (lf_unlink lp (lfs n)) → closed_view n' st.
Proof.
  intros [Hst _] (Hl & Hs & _). split; [by rewrite Hs|]. rewrite Hl. simpl. intros i.
  by rewrite lookup_delete_eq.
Qed.

(** A file is open on the local path. *)
Definition on_path n f i old : Prop :=
  f ≠ nil_ptr ∧ lf_dir (lfs n) !! lp = Some i ∧ lf_data (lfs n) !! i = Some old ∧
  ∃ fd, 0 ≤ fd < 2 ^ 31 ∧ lf_open (lfs n) !! f = Some (fd, i).

Lemma opened_on_path n n' f fd i d :
  f ≠ nil_ptr → 0 ≤ fd < 2 ^ 31 → upd n n' (lf_opened lp i d f fd (lfs n)) → on_path n' f i d.
Proof.
  intros Hf Hfd (Hl & _). unfold on_path. rewrite Hl. simpl. rewrite !lookup_insert_eq. eauto 6.
Qed.

(** Opening with O_CREATE: the local copy, or an empty file. *)
Lemma wp_open_create n st flags mode :
  closed_view n st → Z.land flags O_CREATE ≠ 0 →
  wp (os_OpenFile lp flags mode) (λ '(f, err) n', stored n' = stored n ∧ rt_handles n' = rt_handles n ∧
    match err with
    | Some _ => same n n'
    | None => ∃ i old, on_path n' f i old ∧ (old = [] ∨ Z.land flags O_TRUNC = 0 ∧ st = Some old)
    end) n.
Proof.
  intros [Hst Hcl] Hc. destruct (lf_dir (lfs n) !! lp) as [i|] eqn:Hi.
  - destruct (Hcl i eq_refl) as (ct & -> & Hd). eapply wp_mono; [by eapply law_open|].
    intros [f [e|]] n' Hr; [destruct Hr as [_ Hr]; split; [apply Hr|]; split; [apply Hr|done]|].
    destruct Hr as (Hf & fd & Hfd & _ & Hu). split; [apply Hu|]. split; [apply Hu|].
    exists i. eexists. split; [by eapply opened_on_path|]. destruct (Z.eqb_spec (Z.land flags O_TRUNC) 0); eauto.
  - eapply wp_mono; [by apply law_create|].
    intros [f [e|]] n' Hr; [split; [apply Hr|]; split; [apply Hr|done]|].
    destruct Hr as (Hf & fd & i & Hfd & _ & Hu). split; [apply Hu|]. split; [apply Hu|].
    exists i, []. split; [by eapply opened_on_path|]. by left.
Qed.

Lemma splice_whole (a b : list byte) : a = [] ∨ a = b → splice a 0 b = b.
Proof.
  intros [-> | ->]; unfold splice; simpl.
  - by rewrite drop_nil, app_nil_r.
  - rewrite drop_all. by rewrite app_nil_r.
Qed.

(** The end of the download: the time stamp, close, chmod and chtimes. *)
Lemma wp_download_end s c n l r q k f i ct oa mode (Q : option error → fc → Prop) :
  St s c n l r → lock_held l name q k → on_path n f i ct → stored n !! name = Some ct →
  (∀ s' n' l', St s' c n' l' r → lock_held l' name q k → closed_view n' (Some ct) →
     is_Some (lf_dir (lfs n') !! lp) → Q None s') →
  wp (now ← on_N rt_now;
      _ ← on_flock (SetDownloadTime now q);
      _ ← on_N (file_Close f);
      _ ← on_N (os_Chmod lp mode);
      _ ← match oa with
          | Some a => _ ← on_N (os_Chtimes lp (Atime a) (Mtime a)); mret tt
          | None => mret tt
          end;
      mret None) Q s.
Proof.
  intros Hs Hh (Hf & Hi & Hd & fd & Hfd & Ho) Hst HQ.
  apply (wp_bind_assoc (on_N rt_now) (λ now, on_flock (SetDownloadTime now q))).
  eapply wp_set_download_time; [done..|]. intros s1 n1 l1 Hs1 Hn1 _ Hh1.
  assert (Hl1 : lfs n1 = lfs n) by apply Hn1. apply wp_bind. eapply wp_on_N; [done|].
  eapply wp_mono; [eapply law_Close; by rewrite Hl1|]. intros e n2 [_ Hu2] s2 Hs2.
  apply wp_bind. eapply wp_same; [done|apply law_Chmod|]. intros e3 s3 n3 Hs3 Hn3.
  assert (Hcl : closed_view n3 (Some ct) ∧ is_Some (lf_dir (lfs n3) !! lp)).
  { destruct Hn1 as (_ & Hst1 & _), Hu2 as (Hl2 & Hst2 & _), Hn3 as (Hl3 & Hst3 & _).
    unfold closed_view. rewrite Hst3, Hst2, Hst1, Hl3, Hl2, Hl1. simpl. rewrite Hi.
    split; [|eauto]. split; [done|]. intros j [= <-]. eauto. }
  destruct Hcl as [Hcl His]. apply wp_bind. destruct oa as [a|].
  - apply wp_bind. eapply wp_same; [done|apply law_Chtimes|]. intros e4 s4 n4 Hs4 Hn4.
    apply wp_ret, wp_ret. eapply HQ; [done|done|by eapply closed_view_same|].
    destruct Hn4 as (-> & _). done.
  - apply wp_ret, wp_ret. by eapply HQ.
Qed.

Lemma no_error `{!Decision ((None : option error) ≠ None)} : bool_decide ((None : option error) ≠ None) = false.
Proof. apply bool_decide_false. by intros H. Qed.
Lemma an_error (e : error) `{!Decision (Some e ≠ None)} : bool_decide (Some e ≠ None) = true.
Proof. by apply bool_decide_true. Qed.

(** ** Opening *)
Lemma wp_load_attr s c n l r attr ct (Q : option ObjAttr → fc → Prop) :
  St s c n l r → attr_of n attr ct →
  (∀ a s', St s' c n l r → Size a = Z.of_nat (length ct) → Q (Some a) s') → wp (load_attr attr) Q s.
Proof.
  intros Hs (Hne & a & Ha & Hsz) HQ. unfold load_attr. rewrite decide_False by done.
  apply wp_bind. eapply wp_on_N; [done|]. unfold wp, load_obj. rewrite Ha. simpl. intros s' Hs'. eauto.
Qed.

(** The copy from the container, when there is anything to copy. *)
Lemma wp_fetch s c n l r f i old ct (Q : option error → fc → Prop) :
  St s c n l r → conf_ok c → on_path n f i old → (old = [] ∨ old = ct) → stored n !! name = Some ct →
  (∀ e s' n', St s' c n' l r → closed_view n' (Some ct) → Q (Some e) s') →
  (∀ s' n', St s' c n' l r → on_path n' f i ct → stored n' !! name = Some ct → Q None s') →
  wp (if 0 <? Z.of_nat (length ct) then
        full ← over_limit (Z.of_nat (length ct));
        if (full : bool) then mret (Some (Errno ENOSPC))
        else
          err ← on_N (c_CopyToFile next (mkCopyToFileOptions name 0 (Z.of_nat (length ct)) f));
          if bool_decide (err ≠ None) then
            _ ← on_N (file_Close f); _ ← on_N (os_Remove lp); mret err
          else mret None
      else mret None) Q s.
Proof.
  intros Hs Hc Hp Hold Hst HE HOk. pose proof Hp as (Hf & Hi & Hd & fd & Hfd & Ho).
  destruct (Z.ltb_spec 0 (Z.of_nat (length ct))) as [Hlt|Hle].
  2:{ apply wp_ret. eapply HOk; [done| |done]. destruct ct; [|simpl in Hle; lia]. by destruct Hold as [->| ->]. }
  apply wp_bind. eapply wp_over_limit; [done..|]. apply wp_bind. eapply wp_on_N; [done|].
  eapply wp_mono; [by eapply law_CopyToFile|]. intros err n1 (c' & Hu & Hc') s1 Hs1.
  destruct Hu as (Hl1 & Hst1 & Hh1). case_bool_decide as He.
  - apply wp_bind. eapply wp_on_N; [done|]. eapply wp_mono; [eapply law_Close; by rewrite Hl1|].
    intros e2 n2 [_ Hu2] s2 Hs2. apply wp_bind. eapply wp_on_N; [done|]. eapply wp_mono; [apply wp_remove|].
    intros e3 n3 Hu3 s3 Hs3. apply wp_ret. destruct err as [e|]; [|done]. eapply HE; [done|].
    destruct Hu2 as (Hl2 & Hst2 & _), Hu3 as (Hl3 & Hst3 & _). split; [congruence|].
    rewrite Hl3. simpl. intros j. by rewrite lookup_delete_eq.
  - apply wp_ret. eapply HOk; [done| |congruence]. destruct err; [done|].
    specialize (Hc' eq_refl). rewrite splice_whole in Hc' by done. subst c'.
    unfold on_path. rewrite Hl1. simpl. rewrite lookup_insert_eq. eauto 6.
Qed.

Lemma wp_download_file s c n l r q options ex attr ct (Q : option error → fc → Prop) :
  St s c n l r → conf_ok c → lock_held l name q 0 → closed_view n (Some ct) → attr_of n attr ct →
  OpenFile_Name options = name → Z.land (OpenFile_Flags options) O_TRUNC = 0 →
  (∀ err s' n' l', St s' c n' l' r → lock_held l' name q 0 → closed_view n' (Some ct) →
     (err = None → is_Some (lf_dir (lfs n') !! lp)) → Q err s') →
  wp (download_file next options lp ex attr q) Q s.
Proof.
  intros Hs Hc Hh Hcl Hat Hnm Hfl HQ. unfold download_file. rewrite Hnm, Hfl.
  apply wp_bind. eapply wp_conf; [done|]. apply wp_bind. eapply wp_load_attr; [done..|].
  intros a s0 Hs0 Hsz. simpl. rewrite Hsz. apply wp_bind.
  assert (Hprep : wp (if ex then _ ← on_N (deleteFile lp); mret None
      else on_N (os_MkdirAll (filepath_Dir lp) (fc_defaultPermission c)))
    (λ _ s1, ∃ n1, St s1 c n1 l r ∧ closed_view n1 (Some ct)) s0).
  { destruct ex.
    - apply wp_bind. eapply wp_on_N; [done|]. eapply wp_mono; [apply wp_delete_local|].
      intros e n1 Hu s1 Hs1. apply wp_ret. exists n1. split; [done|]. by eapply closed_view_unlink.
    - eapply wp_same; [done|apply law_MkdirAll|]. intros e s1 n1 Hs1 Hn1. exists n1. split; [done|].
      by eapply closed_view_same. }
  eapply wp_mono; [exact Hprep|]. clear Hprep. intros err s1 (n1 & Hs1 & Hcl1).
  case_bool_decide as He; [apply wp_ret; eapply HQ; eauto; by intros ->|].
  apply wp_bind. eapply wp_on_N; [done|]. eapply wp_mono; [by eapply wp_open_create|].
  intros [f err2] n2 (Hst2 & Hh2 & Hr) s2 Hs2. destruct err2 as [e2|].
  { rewrite an_error. apply wp_ret. eapply HQ; [done|done|by eapply closed_view_same|done]. }
  rewrite no_error. destruct Hr as (i & old & Hp & Hold). apply wp_bind.
  eapply wp_fetch; [done|done|done| | | |].
  - destruct Hold as [->|[_ [= ->]]]; [by left|by right].
  - rewrite Hst2. apply Hcl1.
  - intros e s3 n3 Hs3 Hcl3. rewrite an_error. apply wp_ret. by eapply HQ.
  - intros s3 n3 Hs3 Hp3 Hst3. rewrite no_error.
    eapply (wp_download_end s3 c n3 l r q 0 f i ct (Some a)); eauto.
Qed.

(** The fields of a handle that point to the local file. *)
Definition attach (f : ptr) (fd : Z) (offload : bool) (h : Handle) : Handle :=
  let h := handle_with_fd (u64 fd) h in
  SetFileObject f (if negb offload then handle_set_flag HandleFlagCached h else h).

Lemma wp_attach {A} s c n l r hp h f fd i (m : go fc A) (Q : A → fc → Prop) :
  St s c n l r → rt_handles n !! hp = Some h → lf_open (lfs n) !! f = Some (fd, i) →
  (∀ s' n', St s' c n' l r → lfs n' = lfs n → stored n' = stored n →
     rt_handles n' !! hp = Some (attach f fd (fc_offloadIO c) h) → wp m Q s') →
  wp (fd ← on_N (file_Fd f);
      _ ← on_N (upd_handle hp (handle_with_fd (u64 fd)));
      _ ← (if negb (fc_offloadIO c) then on_N (upd_handle hp (handle_set_flag HandleFlagCached)) else mret tt);
      _ ← on_N (upd_handle hp (SetFileObject f)); m) Q s.
Proof.
  intros Hs Hh Ho HQ. apply wp_bind. eapply wp_on_N; [done|]. eapply wp_mono; [by eapply law_Fd|].
  intros ? n1 [-> (Hl1 & Hst1 & Hh1)] s1 Hs1. apply wp_bind.
  eapply wp_upd_handle; [done|by rewrite Hh1|]. intros s2 n2 Hs2 Hl2 Hst2 Hh2.
  assert (Hlook : rt_handles n2 !! hp = Some (handle_with_fd (u64 fd) h)) by (by rewrite Hh2, lookup_insert_eq).
  unfold attach in HQ. destruct (negb (fc_offloadIO c)); apply wp_bind.
  - eapply wp_upd_handle; [done|done|]. intros s3 n3 Hs3 Hl3 Hst3 Hh3. apply wp_bind.
    eapply wp_upd_handle; [done|by rewrite Hh3, lookup_insert_eq|]. intros s4 n4 Hs4 Hl4 Hst4 Hh4.
    eapply HQ; [done|congruence..|by rewrite Hh4, lookup_insert_eq].
  - apply wp_ret, wp_bind. eapply wp_upd_handle; [done|done|]. intros s4 n4 Hs4 Hl4 Hst4 Hh4.
    eapply HQ; [done|congruence..|by rewrite Hh4, lookup_insert_eq].
Qed.

(** A new handle on the file: not synced, not dirty unless marked. *)
Definition fresh_handle (h : Handle) : Prop :=
  hPath h = name ∧ hFlags h = 0.
Lemma attach_view n hp f fd offload i h cur st :
  rt_handles n !! hp = Some (attach f fd offload h) → fresh_handle h →
  on_path n f i cur → lf_open (lfs n) !! f = Some (fd, i) → 0 ≤ fd < 2 ^ 31 →
  stored n !! name = st → st = Some cur →
  open_view n hp (attach f fd offload h) i cur st.
Proof.
  intros Hh [Hp Hfl] (Hf & Hi & Hd & _) Ho Hfd Hst Hcur.
  assert (Hu : u64 fd = fd) by (apply u64_small; lia).
  assert (HF : Fsynced (attach f fd offload h) = false).
  { unfold Fsynced, attach. destruct offload; simpl; rewrite Hfl; done. }
  unfold attach in *. destruct offload; (split; simpl in *; try done; rewrite Hu; done).
Qed.

Lemma wp_open_local s c n l r q options ct (Q : ptr * option error → fc → Prop) :
  St s c n l r → conf_ok c → lock_held l name q 0 → closed_view n (Some ct) →
  is_Some (lf_dir (lfs n) !! lp) →
  OpenFile_Name options = name → Z.land (OpenFile_Flags options) O_TRUNC = 0 →
  (∀ hp err s' n' l', St s' c n' l' r →
     match err with
     | Some _ => lock_held l' name q 0 ∧ closed_view n' (Some ct)
     | None => lock_held l' name q 1 ∧ ∃ h i, open_view n' hp h i ct (Some ct)
     end → Q (hp, err) s') →
  wp (open_local options lp q) Q s.
Proof.
  intros Hs Hc Hh Hcl [i Hi] Hnm Hfl HQ. destruct (Hcl) as [Hst Hloc].
  destruct (Hloc i Hi) as (? & [= <-] & Hd). unfold open_local. rewrite Hnm.
  apply wp_bind. eapply wp_conf; [done|]. apply wp_bind. eapply wp_on_N; [done|].
  eapply wp_mono; [by eapply law_open|]. intros [f [e|]] n1 Hr s1 Hs1.
  { destruct Hr as [_ Hr]. rewrite an_error. apply wp_ret. eapply HQ; [done|]. simpl.
    split; [done|]. by eapply closed_view_same. }
  destruct Hr as (Hf & fd & Hfd & _ & Hu). rewrite Hfl in Hu. simpl in Hu. rewrite no_error.
  pose proof (opened_on_path _ _ _ _ _ _ Hf Hfd Hu) as Hp. destruct Hu as (Hl1 & Hst1 & Hh1).
  apply wp_bind. eapply wp_on_flock; [done|].
  eapply wp_mono; [eapply (wp_lm_update _ _ _ _ 0 1 (st_wf _ _ _ _ _ Hs1) Hh); by eexists|].
  intros [] l2 [Hwf2 Hh2]. split; [done|]. intros s2 Hs2.
  apply wp_bind. eapply wp_fc_new_handle; [done|]. intros hp s3 n3 Hs3 Hl3 Hst3 _ Hh3.
  apply wp_bind. eapply wp_on_N; [done|]. eapply wp_mono; [apply law_fstat|].
  intros inf n4 (Hl4 & Hst4 & Hh4) s4 Hs4. apply wp_bind.
  assert (Hsize : wp (match inf with
      | inl i => on_N (upd_handle hp (handle_with_size (fi_Size i))) | inr _ => mret tt end)
    (λ _ s5, ∃ n5 h, St s5 c n5 l2 r ∧ lfs n5 = lfs n1 ∧ stored n5 = stored n ∧
      rt_handles n5 !! hp = Some h ∧ fresh_handle h) s4).
  { assert (Hlook : rt_handles n4 !! hp = Some (NewHandle name)) by (by rewrite Hh4, Hh3, lookup_insert_eq).
    destruct inf as [inf|e]; [|apply wp_ret; exists n4, (NewHandle name); split_and!; done || congruence].
    eapply wp_upd_handle; [done|done|]. intros s5 n5 Hs5 Hl5 Hst5 Hh5. eexists n5, _.
    split_and!; [done|congruence|congruence|by rewrite Hh5, lookup_insert_eq|done]. }
  eapply wp_mono; [exact Hsize|]. clear Hsize. intros _ s5 (n5 & h & Hs5 & Hl5 & Hst5 & Hh5 & Hfresh).
  assert (Ho5 : lf_open (lfs n5) !! f = Some (fd, i)) by (rewrite Hl5, Hl1; simpl; by rewrite lookup_insert_eq).
  eapply wp_attach; [done|done|done|]. intros s6 n6 Hs6 Hl6 Hst6 Hh6. apply wp_ret.
  eapply HQ; [done|]. simpl. split; [done|]. eexists _, i. eapply attach_view; [done|done| | |done| |done].
  - unfold on_path in *. by rewrite Hl6, Hl5.
  - by rewrite Hl6.
  - congruence.
Qed.

Lemma wp_fc_OpenFile s c n l r options ct (Q : ptr * option error → fc → Prop) :
  only_denied → St s c n l (S r) → conf_ok c → lock_free l name 0 → closed_view n (Some ct) →
  OpenFile_Name options = name → Z.land (OpenFile_Flags options) O_TRUNC = 0 →
  (∀ hp err s' n' l', St s' c n' l' r →
     match err with
     | Some _ => lock_free l' name 0 ∧ closed_view n' (Some ct)
     | None => lock_free l' name 1 ∧ ∃ h i, open_view n' hp h i ct (Some ct)
     end → Q (hp, err) s') →
  wp (fc_OpenFile next options) Q s.
Proof.
  intros Hden Hs Hc Hfree Hcl Hnm Hfl HQ. unfold fc_OpenFile. rewrite Hnm.
  apply wp_bind. eapply wp_local_path; [done|]. pose proof Hc as (-> & _).
  eapply wp_with_flock; [done|done|]. intros q s1 l1 Hs1 Hh1.
  apply wp_bind. eapply wp_pol_op; [apply law_CacheValid|done|]. intros s2 Hs2.
  apply wp_bind. eapply wp_isDownloadRequired; [done..|].
  intros req ex attr err s3 n3 l3 Hs3 Hh3 Hn3 Herr Hreq.
  assert (Hcl3 : closed_view n3 (Some ct)) by by eapply closed_view_same.
  destruct Herr as [->|[-> Hat]].
  { simpl. apply wp_ret. do 5 eexists. split_and!; [done..|]. intros s4 l4 Hs4 Hf4. by eapply HQ. }
  replace (err_is None (Errno EACCES)) with false by done. apply wp_bind.
  assert (Hdown : wp (if req then download_file next options lp ex attr q else mret None)
    (λ err s4, ∃ n4 l4, St s4 c n4 l4 r ∧ lock_held l4 name q 0 ∧ closed_view n4 (Some ct) ∧
      (err = None → is_Some (lf_dir (lfs n4) !! lp))) s3).
  { destruct req.
    - eapply wp_download_file; eauto 10.
    - apply wp_ret. exists n3, l3. split_and!; try done. intros _. destruct Hn3 as (-> & _). eauto. }
  eapply wp_mono; [exact Hdown|]. clear Hdown. intros err s4 (n4 & l4 & Hs4 & Hh4 & Hcl4 & Hsome).
  destruct err as [e|].
  { rewrite an_error. apply wp_ret. do 5 eexists. split_and!; [done..|]. intros s5 l5 Hs5 Hf5. by eapply HQ. }
  rewrite no_error. eapply wp_open_local; eauto. intros hp err s5 n5 l5 Hs5 Hr. destruct err as [e|].
  - destruct Hr as [Hh5 Hcl5]. do 5 eexists. split_and!; [done..|]. intros s6 l6 Hs6 Hf6. by eapply HQ.
  - destruct Hr as [Hh5 Hov]. do 5 eexists. split_and!; [done..|]. intros s6 l6 Hs6 Hf6. by eapply HQ.
Qed.

Lemma St_missed s c n l r m : St s c n l r → St (fc_set_missed m s) c n l r.
Proof. by intros []. Qed.

(** The chmod of a created file is remembered when the mode is not the default. *)
Lemma wp_note_missed (b : bool) s c n l r nm (Q : unit → fc → Prop) :
  St s c n l r → (∀ s', St s' c n l r → Q tt s') →
  wp (if b then go_modify (λ s, fc_set_missed ({[nm]} ∪ missedChmodList s) s) else mret tt) Q s.
Proof.
  intros Hs HQ. destruct b; [|apply wp_ret; by apply HQ]. apply HQ. by apply St_missed.
Qed.

Lemma wp_fc_CreateFile s c n l r options st (Q : ptr * option error → fc → Prop) :
  St s c n l (S r) → conf_ok c → lock_free l name 0 → closed_view n st → CreateFile_Name options = name →
  (∀ hp err s' n' l', St s' c n' l' r →
     match err with
     | Some _ => lock_free l' name 0 ∧ closed_view n' st
     | None => lock_free l' name 1 ∧ ∃ h i, open_view n' hp h i [] st
     end → Q (hp, err) s') →
  wp (fc_CreateFile next options) Q s.
Proof.
  intros Hs Hc Hfree Hcl Hnm HQ. unfold fc_CreateFile. rewrite Hnm.
  eapply wp_with_flock; [done|done|]. intros q s1 l1 Hs1 Hh1.
  assert (Hfail : ∀ e s2 n2, St s2 c n2 l1 r → same n n2 →
    ∃ c2 n2' l2 r2 k2, St s2 c2 n2' l2 r2 ∧ lock_held l2 name q k2 ∧
      ∀ s3 l3, St s3 c2 n2' l3 r2 → lock_free l3 name k2 → Q (nil_ptr, Some e) s3).
  { intros e s2 n2 Hs2 Hn2. do 5 eexists. split_and!; [done..|]. intros s3 l3 Hs3 Hf3.
    eapply HQ; [done|]. simpl. split; [done|]. by eapply closed_view_same. }
  apply wp_bind. eapply wp_conf; [done|]. pose proof Hc as (Hlp & _ & ->). simpl.
  apply wp_bind, wp_ret. rewrite no_error. apply wp_bind. eapply wp_local_path; [done|]. rewrite Hlp.
  apply wp_bind. eapply wp_pol_op; [apply law_CacheValid|done|]. intros s2 Hs2.
  apply wp_bind. eapply wp_same; [done|apply law_MkdirAll|]. intros [e|] s3 n3 Hs3 Hn3.
  { rewrite an_error. apply wp_ret. by eapply Hfail. }
  rewrite no_error. apply wp_bind. eapply wp_on_N; [done|].
  eapply wp_mono; [eapply (wp_open_create n3 st); [by eapply closed_view_same|done]|].
  intros [f [e|]] n4 (Hst4 & Hh4 & Hr) s4 Hs4.
  { rewrite an_error. apply wp_ret. eapply Hfail; [done|]. by etrans. }
  rewrite no_error. destruct Hr as (i & old & Hp & Hold).
  assert (old = []) as -> by (destruct Hold as [?|[? _]]; done). pose proof Hp as (Hf & Hi & Hd & fd & Hfd & Ho).
  apply wp_bind. eapply wp_note_missed; [done|]. intros s5 Hs5.
  apply wp_bind. eapply wp_on_flock; [done|].
  eapply wp_mono; [eapply (wp_lm_update _ _ _ _ 0 1 (st_wf _ _ _ _ _ Hs5) Hh1); by eexists|].
  intros [] l6 [Hwf6 Hh6]. split; [done|]. intros s6 Hs6.
  apply wp_bind. eapply wp_fc_new_handle; [done|]. intros hp s7 n7 Hs7 Hl7 Hst7 _ Hh7.
  eapply wp_attach; [done|by rewrite Hh7, lookup_insert_eq|by rewrite Hl7|].
  intros s8 n8 Hs8 Hl8 Hst8 Hh8. apply wp_bind. eapply wp_upd_handle; [done|done|].
  intros s9 n9 Hs9 Hl9 Hst9 Hh9. apply wp_ret. do 5 eexists. split_and!; [done..|].
  intros s10 l10 Hs10 Hf10. eapply HQ; [done|]. simpl. split; [done|].
  set (h := attach f fd (fc_offloadIO c) (NewHandle name)) in *. exists (handle_set_flag HandleFlagDirty h), i.
  assert (Hu : u64 fd = fd) by (apply u64_small; lia).
  assert (Hfields : hPath h = name ∧ FObj h = f ∧ UnixFD h = fd ∧ (hFlags h = 0 ∨ hFlags h = 8)).
  { unfold h, attach. destruct (fc_offloadIO c); simpl; rewrite Hu; split_and!; auto. }
  destruct Hfields as (H1 & H2 & H3 & H4). clearbody h.
  assert (Hflags : Fsynced (handle_set_flag HandleFlagDirty h) = false ∧
    handle_Dirty (handle_set_flag HandleFlagDirty h) = true).
  { unfold Fsynced, handle_Dirty. simpl. destruct H4 as [-> | ->]; done. }
  destruct Hflags as [H5 H6]. rewrite Hl8, Hl7 in Hl9.
  split; simpl; rewrite ?H1, ?H2, ?H3, ?Hl9; try done.
  - by rewrite Hh9, lookup_insert_eq.
  - destruct Hn3 as (_ & Hn3 & _). rewrite Hst9, Hst8, Hst7, Hst4, Hn3. apply Hcl.
  - by rewrite H6.
Qed.

(** ** Reading and writing *)
Lemma wp_count_operation s c n l r hp h i cur st (Q : unit → fc → Prop) :
  St s c n l (S r) → conf_ok c → open_view n hp h i cur st →
  (∀ s' n' h', St s' c n' l r → open_view n' hp h' i cur st → FObj h' = FObj h → UnixFD h' = UnixFD h →
     lfs n' = lfs n → stored n' = stored n → Q tt s') →
  wp (count_operation hp) Q s.
Proof.
  intros Hs Hc Hov HQ. unfold count_operation. apply wp_bind.
  eapply wp_upd_handle; [done|apply Hov|]. intros s1 n1 Hs1 Hl1 Hst1 Hh1.
  set (h1 := handle_with_optcnt (u64 (OptCnt h + 1)) h).
  assert (Hov1 : open_view n1 hp h1 i cur st).
  { destruct Hov. split; simpl; rewrite ?Hl1, ?Hst1, ?Hh1; try done. by rewrite lookup_insert_eq. }
  apply wp_bind. eapply wp_get_handle; [done|apply Hov1|]. intros s2 Hs2.
  destruct (_ =? 0).
  - apply wp_bind. eapply wp_local_path; [done|]. rewrite (ov_path _ _ _ _ _ _ Hov1). pose proof Hc as (-> & _).
    eapply wp_pol_op; [apply law_CacheValid|done|]. intros s3 Hs3. by eapply HQ.
  - apply wp_ret. eapply HQ; [eapply St_weaken; [done|lia]|done..].
Qed.

Lemma wp_fc_ReadInBuffer s c n l r hp h i cur st off buf (Q : list byte * Z * option error → fc → Prop) :
  St s c n l (S r) → conf_ok c → open_view n hp h i cur st → 0 ≤ off →
  (∀ buf' k err s' n' h', St s' c n' l r → open_view n' hp h' i cur st →
     (err = None → read_ok cur off buf buf' k) → Q (buf', k, err) s') →
  wp (fc_ReadInBuffer (mkReadInBufferOptions hp off buf)) Q s.
Proof.
  intros Hs Hc Hov Hoff HQ. unfold fc_ReadInBuffer. simpl. apply wp_bind.
  eapply wp_get_handle; [done|apply Hov|]. intros s1 Hs1.
  rewrite decide_False by apply Hov. apply wp_bind. eapply wp_count_operation; [done..|].
  intros s2 n2 h2 Hs2 Hov2 Hf Hfd Hl2 Hst2. eapply wp_on_N; [done|].
  assert (Hfd' : FD h = UnixFD h2).
  { unfold FD. rewrite Hfd. apply i64_small. pose proof (ov_fd _ _ _ _ _ _ Hov). unfold is_i64. lia. }
  rewrite Hfd'. eapply wp_mono; [eapply law_Pread; [apply Hov2|apply Hov2|done]|].
  intros [[buf' k] err] n3 [Hn3 Hok] s3 Hs3. eapply HQ; [done|by eapply open_view_same|done].
Qed.

Lemma wp_fc_WriteFile s c n l r hp h i cur st off d md (Q : Z * option error → fc → Prop) :
  St s c n l (S r) → conf_ok c → open_view n hp h i cur st → 0 ≤ off →
  (∀ k err s' n' h' cur', St s' c n' l r → open_view n' hp h' i cur' st →
     match err with
     | None => 0 ≤ k ≤ Z.of_nat (length d) ∧ cur' = written cur off (take (Z.to_nat k) d)
     | Some _ => cur' = cur
     end → Q (k, err) s') →
  wp (fc_WriteFile (mkWriteFileOptions hp off d md)) Q s.
Proof.
  intros Hs Hc Hov Hoff HQ. unfold fc_WriteFile. simpl. apply wp_bind.
  eapply wp_get_handle; [done|apply Hov|]. intros s1 Hs1.
  rewrite decide_False by apply Hov. apply wp_bind. eapply wp_over_limit; [done..|].
  apply wp_bind. eapply wp_count_operation; [done..|].
  intros s2 n2 h2 Hs2 Hov2 Hf Hfd Hl2 Hst2. apply wp_bind. eapply wp_on_N; [done|].
  assert (Hfd' : FD h = UnixFD h2).
  { unfold FD. rewrite Hfd. apply i64_small. pose proof (ov_fd _ _ _ _ _ _ Hov). unfold is_i64. lia. }
  rewrite Hfd'. eapply wp_mono; [eapply law_Pwrite; [apply Hov2|apply Hov2|done]|].
  intros [k [e|]] n3 Hr s3 Hs3.
  - rewrite bool_decide_false by done. apply wp_bind, wp_ret, wp_ret.
    eapply HQ; [done|by eapply open_view_same|done].
  - rewrite bool_decide_true by done. destruct Hr as (Hk & Hl3 & Hst3 & Hh3). apply wp_bind.
    eapply wp_upd_handle; [done|rewrite Hh3; apply Hov2|]. intros s4 n4 Hs4 Hl4 Hst4 Hh4. apply wp_ret.
    eapply (HQ k None s4 n4 (handle_set_flag HandleFlagDirty h2)); [done| |by split].
    destruct Hov2 as [H1 H2 H3 H4 H5 H6 H7 H8 H9 H10].
    split; simpl; rewrite ?Hl4, ?Hl3, ?Hst4, ?Hst3, ?Hh4; simpl; try done.
    + by rewrite lookup_insert_eq.
    + by rewrite lookup_insert_eq.
    + unfold Fsynced. simpl. rewrite IsSet_Set by (unfold is_bit, HandleFlagDirty, HandleFlagFSynced; lia).
      by rewrite bool_decide_false by done.
    + unfold handle_Dirty. simpl. rewrite IsSet_Set by (unfold is_bit, HandleFlagDirty; lia).
      by rewrite bool_decide_true by done.
Qed.

(** ** Flush and close *)
Lemma wp_validate s c n l r err (Q : option error → fc → Prop) :
  St s c n l r → conf_ok c →
  (∀ err' s' n', St s' c n' l r → same n n' → (err' = None ↔ err = None) → Q err' s') →
  wp (validateStorageError name err false) Q s.
Proof.
  intros Hs Hc HQ. destruct err as [e|]; [|apply wp_ret; by eapply HQ]. unfold validateStorageError.
  destruct (_ || _); [|apply wp_ret; by eapply HQ].
  apply wp_bind. eapply wp_conf; [done|]. pose proof Hc as (Hlp & _ & ->). simpl.
  apply wp_bind. eapply wp_local_path; [done|]. rewrite Hlp.
  apply wp_bind. eapply wp_same; [done| |].
  { eapply wp_mono; [apply law_Stat|]. by intros ? ? [? _]. }
  intros x s1 n1 Hs1 Hn1.
  match goal with |- wp (if ?b then _ else _) _ _ => destruct b end; apply wp_ret;
    (eapply HQ; [done|done|by split]).
Qed.

Lemma wp_fc_Chmod s c n l r mode (Q : option error → fc → Prop) :
  St s c n l (S r) → conf_ok c → (∀ err s' n', St s' c n' l r → same n n' → Q err s') →
  wp (fc_Chmod next (mkChmodOptions name mode)) Q s.
Proof.
  intros Hs Hc HQ. unfold fc_Chmod. cbn [Chmod_Name Chmod_Mode]. apply wp_bind. eapply wp_same; [done|apply law_SChmod|].
  intros err s1 n1 Hs1 Hn1. apply wp_bind. eapply wp_validate; [done..|].
  intros err' s2 n2 Hs2 Hn2 _. assert (Hn : same n n2) by by etrans.
  destruct (_ && _); [apply wp_ret; eapply HQ; [eapply St_weaken; [done|lia]|done]|].
  apply wp_bind. eapply wp_note_missed; [done|]. intros s3 Hs3.
  apply wp_bind. eapply wp_local_path; [done|]. pose proof Hc as (-> & _).
  apply wp_bind. eapply wp_on_N; [done|]. eapply wp_mono; [apply law_Stat|].
  intros [fi|e] n4 [Hn4 Hr] s4 Hs4; (assert (Hn' : same n n4) by by etrans).
  - apply wp_bind. eapply wp_pol_op; [apply law_CacheValid|done|]. intros s5 Hs5.
    destruct (negb _); [|apply wp_ret; by eapply HQ].
    eapply wp_same; [done|apply law_Chmod|]. intros e s6 n6 Hs6 Hn6. eapply HQ; [done|]. by etrans.
  - rewrite Hr. apply wp_ret. eapply HQ; [eapply St_weaken; [done|lia]|done].
Qed.

Lemma wp_flush_missed_chmod s c n l r (Q : unit → fc → Prop) :
  St s c n l (S r) → conf_ok c → (∀ s' n', St s' c n' l r → same n n' → Q tt s') →
  wp (flush_missed_chmod next name) Q s.
Proof.
  intros Hs Hc HQ. unfold flush_missed_chmod. apply wp_bind. unfold wp at 1, go_get.
  case_bool_decide; [|apply wp_ret; eapply HQ; [eapply St_weaken; [done|lia]|done]].
  apply wp_bind. unfold wp at 1, go_modify.
  assert (Hs1 : St (fc_set_missed (missedChmodList s ∖ {[name]}) s) c n l (S r)) by by apply St_missed.
  apply wp_bind. eapply wp_local_path; [done|]. pose proof Hc as (-> & _).
  apply wp_bind. eapply wp_same; [done| |].
  { eapply wp_mono; [apply law_Lstat|]. by intros ? ? [? _]. }
  intros [info|e] s2 n2 Hs2 Hn2.
  - apply wp_bind. eapply wp_fc_Chmod; [done..|]. intros err s3 n3 Hs3 Hn3. apply wp_ret.
    eapply HQ; [done|]. by etrans.
  - apply wp_ret. eapply HQ; [eapply St_weaken; [done|lia]|done].
Qed.

Lemma wp_fc_FlushFile s c n l r hp h i cur st (Q : option error → fc → Prop) :
  St s c n l (S (S r)) → conf_ok c → open_view n hp h i cur st → can_open (lfs n) →
  (∀ err s' n' h', St s' c n' l r → FObj h' = FObj h →
     open_view n' hp h' i cur (if bool_decide (err = None) then Some cur else st) → Q err s') →
  wp (fc_FlushFile next (mkFlushFileOptions hp)) Q s.
Proof.
  intros Hs Hc Hov Hcan HQ. unfold fc_FlushFile. simpl. apply wp_bind. eapply wp_get_handle; [done|apply Hov|].
  intros s1 Hs1. apply wp_bind. eapply wp_local_path; [done|]. rewrite (ov_path _ _ _ _ _ _ Hov).
  pose proof Hc as (-> & _). apply wp_bind. eapply wp_pol_op; [apply law_CacheValid|done|]. intros s2 Hs2.
  assert (Hfail : ∀ e s' n', St s' c n' l (S r) → same n n' → Q (Some e) s').
  { intros e s' n' Hs' Hn'. eapply (HQ (Some e) s' n' h); [eapply St_weaken; [done|lia]|done|].
    rewrite bool_decide_false by done. by eapply open_view_same. }
  destruct (handle_Dirty h) eqn:Hdirty.
  2:{ apply wp_ret. eapply (HQ None s2 n h); [eapply St_weaken; [done|lia]|done|]. rewrite bool_decide_true by done.
      by rewrite <-(ov_dirty _ _ _ _ _ _ Hov Hdirty). }
  unfold GetFileObject. rewrite decide_False by apply Hov.
  apply wp_bind. eapply wp_on_N; [done|]. eapply wp_mono; [eapply law_Fd, Hov|].
  intros fd n3 [-> Hn3] s3 Hs3. apply wp_bind. eapply wp_on_N; [done|]. eapply wp_mono; [apply law_Dup|].
  intros [dupFd [e|]] n4 [Hn4 Hdup] s4 Hs4; (assert (Hsame4 : same n n4) by (etrans; [exact Hn3|exact Hn4])).
  { rewrite an_error. apply wp_ret. by eapply Hfail. }
  rewrite no_error. apply wp_bind. eapply wp_on_N; [done|].
  eapply wp_mono; [apply law_sysclose; destruct Hn4 as (-> & _); by apply Hdup|].
  intros [e|] n5 Hn5 s5 Hs5; (assert (Hsame5 : same n n5) by (etrans; [exact Hsame4|exact Hn5])).
  { rewrite an_error. apply wp_ret. by eapply Hfail. }
  rewrite no_error. pose proof (open_view_same _ _ _ _ _ _ _ Hov Hsame5) as Hov5.
  clear Hn3 Hn4 Hn5 Hsame4 Hdup Hs1 Hs2 Hs3 Hs4 Hs. apply wp_bind. unfold os_Open. eapply wp_on_N; [done|].
  eapply wp_mono; [eapply law_open; apply Hov5|]. intros [u [e|]] n6 Hr s6 Hs6.
  { exfalso. destruct Hr as [Hr _]. apply Hr; [done|]. by destruct Hsame5 as (-> & _). }
  destruct Hr as (Hu & fd6 & Hfd6 & Hnew & Hl6 & Hst6 & Hh6).
  rewrite no_error. apply wp_bind. eapply wp_on_N; [done|].
  eapply wp_mono; [eapply law_CopyFromFile; rewrite Hl6; simpl; apply lookup_insert_eq|].
  intros err n7 (Hl7 & Hh7 & Hst7) s7 Hs7. apply wp_bind. eapply wp_on_N; [done|].
  eapply wp_mono; [eapply law_Close; rewrite Hl7, Hl6; simpl; apply lookup_insert_eq|].
  intros err8 n8 [_ (Hl8 & Hst8 & Hh8)] s8 Hs8.
  assert (Hne : u ≠ FObj h). { intros ->. by rewrite (ov_open _ _ _ _ _ _ Hov5) in Hnew. }
  assert (Hov8 : ∀ st', stored n8 !! name = st' → (handle_Dirty h = false → st' = Some cur) →
    open_view n8 hp h i cur st').
  { intros st' Hst' Hd'. destruct Hov5 as [H1 H2 H3 H4 H5 H6 H7 H8 H9 H10].
    split; try done; rewrite ?Hh8, ?Hh7, ?Hh6, ?Hl8, ?Hl7, ?Hl6; simpl; try done.
    - rewrite lookup_delete_ne, lookup_insert_ne by done. done.
    - by rewrite lookup_insert_eq.
    - by rewrite lookup_insert_eq. }
  destruct err as [e|].
  { rewrite an_error. apply wp_ret. eapply (HQ (Some e) s8 n8 h); [eapply St_weaken; [done|lia]|done|].
    rewrite bool_decide_false by done. apply Hov8.
    - rewrite Hst8, Hst7, bool_decide_false by done. rewrite Hst6. apply Hov5.
    - by rewrite Hdirty. }
  rewrite no_error. specialize (Hov8 (Some cur)).
  assert (Hov9 : open_view n8 hp h i cur (Some cur)).
  { apply Hov8; [|done]. rewrite Hst8, Hst7, bool_decide_true by done. by rewrite lookup_insert_eq. }
  apply wp_bind. eapply wp_upd_handle; [done|apply Hov9|]. intros s9 n9 Hs9 Hl9 Hst9 Hh9.
  apply wp_bind. eapply wp_flush_missed_chmod; [done..|]. intros s10 n10 Hs10 Hn10. apply wp_ret.
  eapply (HQ None s10 n10 (handle_clear_flag HandleFlagDirty h)); [done|done|].
  rewrite bool_decide_true by done. eapply open_view_same; [|done].
  destruct Hov9 as [H1 H2 H3 H4 H5 H6 H7 H8 H9 H10].
  split; try done; rewrite ?Hh9, ?Hl9, ?Hst9; simpl; try done.
  - by rewrite lookup_insert_eq.
  - unfold Fsynced. simpl. rewrite IsSet_Clear by (unfold is_bit, HandleFlagDirty, HandleFlagFSynced; lia).
    by rewrite bool_decide_false by done.
Qed.

Lemma wp_fc_CloseFile s c n l r hp h i cur st (Q : option error → fc → Prop) :
  St s c n l (S (S (S r))) → conf_ok c → open_view n hp h i cur st → can_open (lfs n) → lock_free l name 1 →
  (∀ err s' n' l', St s' c n' l' r →
     match err with
     | Some _ => lock_free l' name 1 ∧ ∃ h', open_view n' hp h' i cur st
     | None => lock_free l' name 0 ∧ closed_view n' (Some cur)
     end → Q err s') →
  wp (fc_CloseFile next (mkCloseFileOptions hp)) Q s.
Proof.
  intros Hs Hc Hov Hcan Hfree HQ. unfold fc_CloseFile. simpl. apply wp_bind. eapply wp_get_handle; [done|apply Hov|].
  intros s1 Hs1. apply wp_bind. eapply wp_local_path; [done|]. rewrite (ov_path _ _ _ _ _ _ Hov).
  pose proof Hc as (-> & _). apply wp_bind. eapply (wp_fc_FlushFile s1 c n l (S r)); [done..|].
  intros [e|] s2 n2 h2 Hs2 Hf2 Hov2.
  { rewrite an_error. apply wp_ret. rewrite bool_decide_false in Hov2 by done.
    eapply HQ; [eapply St_weaken; [done|lia]|]. simpl. eauto. }
  rewrite no_error. rewrite bool_decide_true in Hov2 by done. unfold GetFileObject.
  rewrite decide_False by apply Hov. rewrite <-Hf2. eapply wp_with_flock; [done|done|]. intros q s3 l3 Hs3 Hh3.
  apply wp_bind. eapply wp_on_N; [done|]. eapply wp_mono; [eapply law_Close, Hov2|].
  intros ? n4 [-> (Hl4 & Hst4 & Hh4)] s4 Hs4. rewrite no_error.
  apply wp_bind. eapply wp_on_flock; [done|].
  eapply wp_mono; [eapply (wp_lm_update _ _ _ _ 1 0 (st_wf _ _ _ _ _ Hs4) Hh3); by eexists|].
  intros [] l5 [Hwf5 Hh5]. split; [done|]. intros s5 Hs5.
  apply wp_bind. eapply wp_get_handle; [done|rewrite Hh4; apply Hov2|]. intros s6 Hs6.
  rewrite (ov_sync _ _ _ _ _ _ Hov2). apply wp_bind. eapply wp_pol_op; [apply law_CacheInvalidate|done|].
  intros s7 Hs7. apply wp_ret. do 5 eexists. split_and!; [done..|]. intros s8 l8 Hs8 Hf8.
  eapply HQ; [done|]. simpl. split; [done|]. split.
  - rewrite Hst4. apply Hov2.
  - rewrite Hl4. simpl. intros j. rewrite (ov_dir _ _ _ _ _ _ Hov2). intros [= <-]. exists cur. split; [done|apply Hov2].
Qed.

(** ** Attributes *)

(** What is visible of the file: its local copy, or else what is stored. *)
Definition visible n (vis : option (list byte)) : Prop :=
  (∀ i, lf_dir (lfs n) !! lp = Some i → ∃ ct, vis = Some ct ∧ lf_data (lfs n) !! i = Some ct) ∧
  (lf_dir (lfs n) !! lp = None → vis = stored n !! name).
Definition reports n (r : ptr * option error) (vis : option (list byte)) : Prop :=
  (∃ e, r.2 = Some e ∧ attr_errors e) ∨
  match vis with
  | Some ct => r.2 = None ∧ ∃ a, rt_objs n !! r.1 = Some a ∧ Size a = Z.of_nat (length ct)
  | None => r.2 = Some (Errno ENOENT)
  end.

Lemma wp_fc_new_obj s c n l r a (Q : ptr → fc → Prop) :
  St s c n l r → (∀ p s' n', St s' c n' l r → same n n' → rt_objs n' !! p = Some a → Q p s') →
  wp (on_N (new_obj a)) Q s.
Proof.
  intros Hs HQ. eapply wp_on_N; [done|]. unfold wp, new_obj. intros s' Hs'.
  eapply HQ; [done|apply law_set_objs|]. by rewrite law_objs, lookup_insert_eq.
Qed.

Lemma wp_fc_GetAttr s c n l r k rm vis (Q : ptr * option error → fc → Prop) :
  St s c n l r → conf_ok c → lock_free l name k → visible n vis →
  strings_Contains lp (fc_tmpPath c) = true →
  (∀ res s' n', St s' c n' l r → same n n' → reports n' res vis → Q res s') →
  wp (fc_GetAttr next (mkGetAttrOptions name rm)) Q s.
Proof.
  intros Hs Hc Hl [Hvis Hno] Hin HQ. unfold fc_GetAttr. cbn [GetAttr_Name]. apply wp_bind. eapply wp_on_N; [done|].
  assert (Hattr : wp (c_GetAttr next (mkGetAttrOptions name rm)) (λ '(p, err) n1, same n n1 ∧
    ((∃ e, err = Some e ∧ attr_errors e) ∨
     match stored n !! name with
     | Some c0 => err = None ∧ ∃ a, rt_objs n1 !! p = Some a ∧ Size a = Z.of_nat (length c0)
     | None => err = Some (Errno ENOENT)
     end)) n).
  { destruct (stored n !! name) as [c0|] eqn:E.
    - eapply wp_mono; [by apply law_GetAttr|]. intros [p [e|]] n1 [Hn1 H]; (split; [done|]).
      + left. exists e. by destruct H.
      + right. split; [done|apply H].
    - eapply wp_mono; [by apply law_GetAttr_missing|]. intros [p err] n1 [Hn1 H]. split; [done|]. tauto. }
  eapply wp_mono; [exact Hattr|]. clear Hattr. intros [p err] n1 [Hn1 Herr] s1 Hs1.
  assert (Hlast : ∀ e s2 n2, St s2 c n2 l r → same n n2 → (∀ n3 p3, reports n3 (p3, Some e) vis) →
    wp (p ← on_N (new_obj zero_ObjAttr); mret (p, Some e)) Q s2).
  { intros e s2 n2 Hs2 Hn2 Hr. apply wp_bind. eapply wp_fc_new_obj; [done|]. intros p3 s3 n3 Hs3 Hn3 _.
    apply wp_ret. eapply HQ; [done|by etrans|apply Hr]. }
  destruct Herr as [(e & -> & He)|Herr].
  { destruct (law_attr_errors e He) as [Hne Hnex].
    assert (Hpass : bool_decide (Some e ≠ None) && negb (err_is (Some e) (Errno ENOENT) || os_IsNotExist (Some e)) = true).
    { rewrite Hnex, orb_false_r, bool_decide_true by done. unfold err_is. rewrite bool_decide_false; [done|congruence]. }
    rewrite Hpass. eapply Hlast; [done|done|]. intros. left. by exists e. }
  assert (Hmiss : bool_decide (err ≠ None) && negb (err_is err (Errno ENOENT) || os_IsNotExist err) = false).
  { destruct (stored n !! name); [by destruct Herr as [-> _]|by rewrite Herr]. }
  rewrite Hmiss. apply wp_bind. eapply wp_conf; [done|]. apply wp_bind. eapply wp_local_path; [done|].
  pose proof Hc as (-> & _). apply wp_bind. eapply wp_on_N; [done|]. eapply wp_mono; [apply law_Lstat|].
  intros x n2 (Hn2 & Hob & Hx) s2 Hs2. assert (Hsame2 : same n n2) by (etrans; [exact Hn1|exact Hn2]).
  destruct Hn1 as (Hlf1 & Hst1 & _). rewrite Hlf1 in Hx. destruct x as [fi|e].
  - destruct Hx as (Hdir & i & Hi & Hsz). rewrite Hdir. cbn [negb].
    destruct (Hvis i Hi) as (ct & -> & Hd). specialize (Hsz ct Hd).
    destruct (stored n !! name) as [c0|].
    + destruct Herr as (-> & a & Ha & _). rewrite bool_decide_true by done.
      apply wp_bind. eapply wp_on_flock; [done|].
      assert (Hlk : wp (lm_Locked name) (λ b l', b = false ∧ l' = l) l).
      { unfold wp, lm_Locked, mbind, go_bind, go_get. unfold lock_free in Hl.
        destruct (locks l !! name) as [q|]; [|done]. destruct Hl as [t Ht].
        unfold mbind, go_bind, load_item. by rewrite Ht. }
      eapply wp_mono; [exact Hlk|]. intros b l' [-> ->]. split; [apply Hs2|]. intros s3 Hs3. cbn [negb].
      apply wp_bind, wp_bind. eapply wp_on_N; [done|]. unfold wp at 1, load_obj. rewrite Hob, Ha. simpl.
      intros s4 Hs4. eapply wp_on_N; [done|]. unfold wp, store_obj. rewrite Hob, Ha. intros s5 Hs5.
      eapply HQ; [done|etrans; [exact Hsame2|apply law_set_objs]|].
      right. split; [done|]. eexists. simpl. rewrite law_objs, lookup_insert_eq. done.
    + rewrite Herr. rewrite bool_decide_false by done. rewrite Hin. cbn [negb].
      apply wp_bind. eapply wp_fc_new_obj; [done|]. intros p3 s3 n3 Hs3 Hn3 Hp3. apply wp_ret.
      eapply HQ; [done|by etrans|]. right. split; [done|]. by eexists.
  - destruct Hx as [-> Hnone]. specialize (Hno Hnone). destruct (stored n !! name) as [c0|].
    + destruct Herr as (-> & a & Ha & Hsz). rewrite bool_decide_true by done. apply wp_ret.
      eapply HQ; [done|done|]. right. rewrite Hno. split; [done|]. exists a. simpl. by rewrite Hob.
    + rewrite Herr, bool_decide_false by done. eapply Hlast; [done|done|]. intros. right. by rewrite Hno.
Qed.

(** ** Deleting *)
Lemma wp_fc_DeleteFile s c n l r st (Q : option error → fc → Prop) :
  St s c n l (S r) → conf_ok c → closed_view n st → lock_free l name 0 →
  (∀ err s' n' l', St s' c n' l' r → lock_free l' name 0 →
     closed_view n' (if bool_decide (err = None) then None else st) → Q err s') →
  wp (fc_DeleteFile next (mkDeleteFileOptions name)) Q s.
Proof.
  intros Hs Hc Hcl Hfree HQ. unfold fc_DeleteFile. simpl. eapply wp_with_flock; [done|done|].
  intros q s1 l1 Hs1 Hh1. apply wp_bind. eapply wp_on_N; [done|]. eapply wp_mono; [apply law_DeleteFile|].
  intros err n2 (Hl2 & Hhd2 & Hst2) s2 Hs2. apply wp_bind. eapply wp_validate; [done..|].
  intros err' s3 n3 Hs3 Hn3 Herr. destruct err' as [e|].
  - rewrite an_error. apply wp_ret. do 5 eexists. split_and!; [eapply St_weaken; [done|]; apply le_S, le_n|done|].
    intros s4 l4 Hs4 Hf4. eapply HQ; [done|done|]. rewrite bool_decide_false by done.
    rewrite bool_decide_false in Hst2 by (intros He; by apply Herr in He). eapply closed_view_same; [|done].
    unfold closed_view. by rewrite Hst2, Hl2.
  - rewrite no_error. apply wp_bind. eapply wp_local_path; [done|]. pose proof Hc as (-> & _).
    apply wp_bind. eapply wp_on_N; [done|]. eapply wp_mono; [apply wp_delete_local|].
    intros e n4 (Hl4 & Hst4 & Hh4) s4 Hs4. apply wp_bind. eapply wp_pol_op; [apply law_CachePurge|done|].
    intros s5 Hs5. apply wp_ret. do 5 eexists. split_and!; [done..|]. intros s6 l6 Hs6 Hf6.
    eapply HQ; [done|done|]. rewrite bool_decide_true by done.
    rewrite bool_decide_true in Hst2 by (by apply Herr). split.
    + destruct Hn3 as (_ & Hn3 & _). rewrite Hst4, Hn3, Hst2. apply lookup_delete_eq.
    + rewrite Hl4. simpl. intros j. by rewrite lookup_delete_eq.
Qed.
End rules.

(** ** The abstract file *)

(** A file is closed with the content [st] in the container ([None]: there is
    no such file), or open with the content [cur] the user sees. *)
Inductive afile :=
  | Closed (st : option (list byte))
  | Opened (cur : list byte) (st : option (list byte)).

(** Calls, and calls with their answers; [ETick] is a round of the policy. *)
Inductive fop :=
  | OpOpen (flags : Z) (mode : FileMode)
  | OpCreate (mode : FileMode)
  | OpRead (off : Z) (buf : list byte)
  | OpWrite (off : Z) (d : list byte)
  | OpFlush
  | OpClose
  | OpDelete.
Inductive fevent :=
  | EOpen (err : option error)
  | ECreate (err : option error)
  | ERead (off : Z) (buf buf' : list byte) (k : Z) (err : option error)
  | EWrite (off : Z) (d : list byte) (k : Z) (err : option error)
  | EFlush (err : option error)
  | EClose (err : option error)
  | EDelete (err : option error)
  | ETick.
Definition failed (e : fevent) : Prop :=
  match e with
  | EOpen err | ECreate err | ERead _ _ _ _ err | EWrite _ _ _ err
  | EFlush err | EClose err | EDelete err => err ≠ None
  | ETick => False
  end.

Inductive file_step : afile → fevent → afile → Prop :=
  | file_open c : file_step (Closed (Some c)) (EOpen None) (Opened c (Some c))
  | file_create st : file_step (Closed st) (ECreate None) (Opened [] st)
  | file_read cur st off buf buf' k : read_ok cur off buf buf' k →
      file_step (Opened cur st) (ERead off buf buf' k None) (Opened cur st)
  | file_write cur st off d k : 0 ≤ k ≤ Z.of_nat (length d) →
      file_step (Opened cur st) (EWrite off d k None) (Opened (written cur off (take (Z.to_nat k) d)) st)
  | file_flush cur st : file_step (Opened cur st) (EFlush None) (Opened cur (Some cur))
  | file_close cur st : file_step (Opened cur st) (EClose None) (Closed (Some cur))
  | file_delete st : file_step (Closed st) (EDelete None) (Closed None)
  | file_failed a e : failed e → file_step a e a
  | file_tick a : file_step a ETick a.
Inductive file_run : afile → list fevent → afile → Prop :=
  | file_run_nil a : file_run a [] a
  | file_run_snoc a tr a1 e a2 : file_run a tr a1 → file_step a1 e a2 → file_run a (tr ++ [e]) a2.

Section refinement.
Context {P N : Type} `{!Runtime N} `{!FileSystem N} `{!LocalOS N} `{!FileView N} `{!cachePolicy P N}.
Context (next : Component N) (name lp : string).
Context `{!PolicyLaws P N name lp} `{!OSLaws N lp} `{!StorageLaws next name}.
Abbreviation fc := (FileCache P).
Implicit Types (s : fc) (o : option ptr) (a : afile).

(** The calls, on the handle of the file if it is open. *)
Definition exec o (op : fop) : go fc (fevent * option ptr) :=
  match op, o with
  | OpOpen flags mode, None =>
      '(hp, err) ← fc_OpenFile next (mkOpenFileOptions name flags mode);
      mret (EOpen err, if bool_decide (err = None) then Some hp else None)
  | OpCreate mode, None =>
      '(hp, err) ← fc_CreateFile next (mkCreateFileOptions name mode);
      mret (ECreate err, if bool_decide (err = None) then Some hp else None)
  | OpRead off buf, Some hp =>
      '(buf', k, err) ← fc_ReadInBuffer (mkReadInBufferOptions hp off buf);
      mret (ERead off buf buf' k err, o)
  | OpWrite off d, Some hp =>
      '(k, err) ← fc_WriteFile (mkWriteFileOptions hp off d ∅);
      mret (EWrite off d k err, o)
  | OpFlush, Some hp =>
      err ← fc_FlushFile next (mkFlushFileOptions hp); mret (EFlush err, o)
  | OpClose, Some hp =>
      err ← fc_CloseFile next (mkCloseFileOptions hp);
      mret (EClose err, if bool_decide (err = None) then None else o)
  | OpDelete, None =>
      err ← fc_DeleteFile next (mkDeleteFileOptions name); mret (EDelete err, o)
  | _, _ => go_panic
  end.

(** Opens are of files that exist, without O_TRUNC (the kernel truncates by a
    separate call); offsets are not negative; a flush finds a descriptor free; a
    call starts when the queues of the policy have room for its three requests. *)
Definition allowed s o (op : fop) : Prop :=
  (3 ≤ pol_room (fc_policy s))%nat ∧
  match op, o with
  | OpOpen flags _, None =>
      is_Some (stored (pol_next (fc_policy s)) !! name) ∧ Z.land flags O_TRUNC = 0
  | OpCreate _, None => True
  | OpRead off _, Some _ => 0 ≤ off
  | OpWrite off _, Some _ => 0 ≤ off
  | OpFlush, Some _ | OpClose, Some _ => can_open (lfs (pol_next (fc_policy s)))
  | OpDelete, None => True
  | _, _ => False
  end.

Inductive fc_step : fc * option ptr → fevent → fc * option ptr → Prop :=
  | fc_call s o op e s' o' : allowed s o op → exec o op s = Ret ((e, o'), s') → fc_step (s, o) e (s', o')
  | fc_background s o p' : pol_bg (fc_policy s) p' → fc_step (s, o) ETick (fc_set_policy p' s, o).
Inductive fc_run : fc * option ptr → list fevent → fc * option ptr → Prop :=
  | fc_run_nil x : fc_run x [] x
  | fc_run_snoc x tr x1 e x2 : fc_run x tr x1 → fc_step x1 e x2 → fc_run x (tr ++ [e]) x2.

(** The state of the cache that corresponds to the abstract file. *)
Definition represents (x : fc * option ptr) a : Prop :=
  ∃ c n l, St name lp x.1 c n l 0 ∧ conf_ok name lp c ∧
    match x.2, a with
    | None, Closed st => closed_view name lp n st ∧ lock_free l name 0
    | Some hp, Opened cur st => (∃ h i, open_view name lp n hp h i cur st) ∧ lock_free l name 1
    | _, _ => False
    end.

Lemma exec_refines s o a op :
  only_denied name next → represents (s, o) a → allowed s o op →
  wp (exec o op) (λ '(e, o') s', ∃ a', file_step a e a' ∧ represents (s', o') a') s.
Proof.
  intros Hden (c & n & l & Hs & Hc & Hx) [Hroom Hop]. simpl in Hs, Hx.
  assert (Hs3 : St name lp s c n l 3) by (destruct Hs; by split). clear Hs.
  assert (Hn : pol_next (fc_policy s) = n) by apply Hs3.
  destruct o as [hp|], a as [st|cur st]; try done; destruct Hx as [Hv Hl].
  - destruct Hv as (h & i & Hv). rewrite Hn in Hop. destruct op as [| |off buf|off d| | |]; try done; simpl; apply wp_bind.
    + eapply (wp_fc_ReadInBuffer name lp s c n l 2); [done..|]. intros buf' k err s' n' h' Hs' Hv' Hk.
      apply wp_ret. exists (Opened cur st). split; [destruct err; [by apply file_failed|apply file_read; auto]|].
      exists c, n', l. split; [eapply St_weaken; [done|lia]|]. simpl. eauto.
    + eapply (wp_fc_WriteFile name lp s c n l 2); [done..|]. intros k err s' n' h' cur' Hs' Hv' Hk.
      apply wp_ret. exists (Opened cur' st). split.
      * destruct err; [subst; by apply file_failed|]. destruct Hk as [Hk ->]. by apply file_write.
      * exists c, n', l. split; [eapply St_weaken; [done|lia]|]. simpl. eauto.
    + eapply (wp_fc_FlushFile name lp next s c n l 1); [done..|]. intros err s' n' h' Hs' _ Hv'.
      apply wp_ret. exists (Opened cur (if bool_decide (err = None) then Some cur else st)).
      split; [|exists c, n', l; split; [eapply St_weaken; [done|lia]|]; simpl; eauto].
      case_bool_decide as He; [subst; apply file_flush|by apply file_failed].
    + eapply (wp_fc_CloseFile name lp next s c n l 0); [done..|]. intros err s' n' l' Hs' Hr.
      apply wp_ret. destruct err as [e|]; simpl.
      * destruct Hr as [Hl' [h' Hv']]. exists (Opened cur st). split; [by apply file_failed|].
        exists c, n', l'. simpl. eauto 6.
      * destruct Hr as [Hl' Hv']. exists (Closed (Some cur)). split; [apply file_close|]. exists c, n', l'. done.
  - destruct op as [flags mode|mode| | | | |]; try done; simpl; apply wp_bind.
    + destruct Hop as [[ct Hct] Hfl]. assert (st = Some ct) as -> by (destruct Hv as [<- _]; congruence).
      eapply (wp_fc_OpenFile name lp next s c n l 2); [done..|]. intros hp err s' n' l' Hs' Hr.
      apply wp_ret. destruct err as [e|]; destruct Hr as [Hl' Hv'].
      * exists (Closed (Some ct)). split; [by apply file_failed|]. exists c, n', l'. split; [eapply St_weaken; [done|lia]|done].
      * exists (Opened ct (Some ct)). split; [apply file_open|]. exists c, n', l'. split; [eapply St_weaken; [done|lia]|done].
    + eapply (wp_fc_CreateFile name lp next s c n l 2); [done..|]. intros hp err s' n' l' Hs' Hr.
      apply wp_ret. destruct err as [e|]; destruct Hr as [Hl' Hv'].
      * exists (Closed st). split; [by apply file_failed|]. exists c, n', l'. split; [eapply St_weaken; [done|lia]|done].
      * exists (Opened [] st). split; [apply file_create|]. exists c, n', l'. split; [eapply St_weaken; [done|lia]|done].
    + eapply (wp_fc_DeleteFile name lp next s c n l 2); [done..|]. intros err s' n' l' Hs' Hl' Hv'.
      apply wp_ret. exists (Closed (if bool_decide (err = None) then None else st)).
      split; [|exists c, n', l'; split; [eapply St_weaken; [done|lia]|]; simpl; eauto].
      case_bool_decide as He; [subst; apply file_delete|by apply file_failed].
Qed.

(** C10: GetAttr answers what the user sees.  While the file is open its size is
    that of the content written so far, also before anything of it is in the
    container; otherwise it is that of the stored content, and a file that is
    neither open nor stored does not exist.  When the next component fails with
    another error than ENOENT that error is returned.  GetAttr changes nothing. *)
Theorem GetAttr_agrees s o a rm :
  represents (s, o) a → strings_Contains lp (fc_tmpPath (fc_conf s)) = true →
  wp (fc_GetAttr next (mkGetAttrOptions name rm)) (λ res s', represents (s', o) a ∧
    reports name next (pol_next (fc_policy s')) res
      (match a with Opened cur _ => Some cur | Closed st => st end)) s.
Proof.
  intros (c & n & l & Hs & Hc & Hx) Hin. simpl in *. rewrite (st_conf _ _ _ _ _ _ _ Hs) in Hin.
  assert (Hpost : ∀ (k : Z) vis (R : N → Prop), lock_free l name k → visible name lp n vis →
    (∀ n', same n n' → R n') →
    wp (fc_GetAttr next (mkGetAttrOptions name rm)) (λ res s', ∃ n', St name lp s' c n' l 0 ∧ R n' ∧
      reports name next n' res vis) s).
  { intros k vis R Hl Hvis HR. eapply wp_fc_GetAttr; [done..|]. intros res s' n' Hs' Hn' Hrep. eauto. }
  destruct o as [hp|], a as [st|cur st]; try done; destruct Hx as [Hv Hl].
  - destruct Hv as (h & i & Hv).
    eapply wp_mono; [apply (Hpost 1 (Some cur) (λ n', open_view name lp n' hp h i cur st)); [done| |]|].
    + split; [|by rewrite (ov_dir _ _ _ _ _ _ _ _ Hv)]. intros j. rewrite (ov_dir _ _ _ _ _ _ _ _ Hv).
      intros [= <-]. exists cur. split; [done|apply Hv].
    + intros n' Hn'. by eapply open_view_same.
    + intros res s' (n' & Hs' & Hv' & Hr). rewrite (st_next _ _ _ _ _ _ _ Hs'). split; [|done].
      exists c, n', l. simpl. eauto 6.
  - eapply wp_mono; [apply (Hpost 0 st (λ n', closed_view name lp n' st)); [done| |]|].
    + split; [apply Hv|]. intros _. symmetry. apply Hv.
    + intros n' Hn'. by eapply closed_view_same.
    + intros res s' (n' & Hs' & Hv' & Hr). rewrite (st_next _ _ _ _ _ _ _ Hs'). split; [|done].
      exists c, n', l. simpl. eauto 6.
Qed.

Lemma tick_refines s o a p' :
  represents (s, o) a → pol_bg (fc_policy s) p' → represents (fc_set_policy p' s, o) a.
Proof.
  intros (c & n & l & [H1 H2 H3 H4 H5 H6] & Hc & Hx) Hbg. simpl in *.
  assert (Hlaw : ∀ k, lock_free l name k → 0 ≤ k → pol_ok p' ∧ lm_wf (pol_locks p') ∧
    lock_free (pol_locks p') name k ∧ quiet n (pol_next p') lp k).
  { intros k Hk H0. rewrite <-H2, <-H3 in *. by apply law_bg. }
  exists c, (pol_next p'), (pol_locks p').
  destruct o as [hp|], a as [st|cur st]; try done; destruct Hx as [Hv Hl];
    destruct (Hlaw _ Hl ltac:(lia)) as (Hok & Hwf & Hl' & Hst & Hh & Hd & Ho & Hdir);
    (split; [by split; simpl; try done; lia|]; split; [done|]; split; [|done]).
  - destruct Hv as (h & i & []). exists h, i. destruct Hdir as [Hdir|[? _]]; [|done].
    split; rewrite ?Hst, ?Hh, ?Hd, ?Ho, ?Hdir; done.
  - destruct Hv as [Hs Hv]. split; [by rewrite Hst|]. intros i Hi. rewrite Hd. apply Hv.
    destruct Hdir as [Hdir|[_ Hdir]]; congruence.
Qed.

Lemma run_refines s st tr x :
  only_denied name next → represents (s, None) (Closed st) → fc_run (s, None) tr x →
  ∃ a, file_run (Closed st) tr a ∧ represents x a.
Proof.
  intros Hden Hinit Hrun. remember (s, None) as x0 eqn:Hx0.
  induction Hrun as [x|x tr x1 e x2 Hrun IH Hstep].
  - exists (Closed st). split; [constructor|done].
  - destruct IH as (a & Ha & Hr); [done..|].
    revert Hr. destruct Hstep as [s1 o1 op e s2 o2 Hal Hex|s1 o1 p' Hbg]; intros Hr.
    + pose proof (exec_refines _ _ _ _ Hden Hr Hal) as Hwp. unfold wp in Hwp. rewrite Hex in Hwp.
      destruct Hwp as (a' & Hstep & Hr'). exists a'. split; [by econstructor|done].
    + exists a. split; [econstructor; [done|apply file_tick]|by eapply tick_refines].
Qed.

(** C9: the file cache implements a file.  Take a cache without a size limit that does not
    create empty files in the container, and any run of opens, creates, reads, writes,
    flushes, closes and deletes of a file through it, one handle at a time, with rounds of
    the eviction policy in between.  Opens are of files that exist and without O_TRUNC,
    flushes and closes find a descriptor free, the queues of the policy have room
    ([allowed]), and requests for attributes fail only with EACCES ([only_denied]).  The
    local copy can be looked up, removed and closed ([OSLaws]); other system calls and all
    other requests to the next component may fail.  It is a run of the abstract file: reads
    return the bytes at the offset of the content as opened and written since, a successful
    flush or close leaves exactly that content in the container, a failed call changes
    nothing, and evictions are not seen.  In every state reached the container has the
    content the abstract file says, and every call that is allowed returns. *)
Theorem file_cache_refines s st tr s' o' :
  only_denied name next → represents (s, None) (Closed st) → fc_run (s, None) tr (s', o') →
  (∃ a, file_run (Closed st) tr a ∧
     match a with Closed st' | Opened _ st' => stored (pol_next (fc_policy s')) !! name = st' end) ∧
  ∀ op, allowed s' o' op → ∃ r, exec o' op s' = Ret r.
Proof.
  intros Hden Hinit Hrun. destruct (run_refines _ _ _ _ Hden Hinit Hrun) as (a & Ha & Hr). split.
  - exists a. split; [done|]. destruct Hr as (c & n & l & Hs & _ & Hx).
    assert (Hn : pol_next (fc_policy s') = n) by apply Hs. rewrite Hn. simpl in Hx.
    destruct o' as [hp|], a as [st'|cur st']; try done; destruct Hx as [Hv _].
    + destruct Hv as (h & i & []). done.
    + by destruct Hv.
  - intros op Hal. pose proof (exec_refines _ _ _ _ Hden Hr Hal) as Hwp. unfold wp in Hwp.
    destruct (exec o' op s') as [[]| |]; [eauto|done..].
Qed.
End refinement.
