(* ===== verification/FileCacheLru.v ===== *)
(** * The policies of the file cache

    Both policies implement the interface.  The LRU policy of LruPolicy.v is a [cachePolicy]; it keeps what [PolicyLaws]
    promises: its operations touch the policy only, and a round of its
    background routines never removes the local copy of a file that has open
    handles. *)
From S2P Require Import Prelude GoLib Common HandleMap Internal Chain LockMap LruPolicy LruPolicySpec LfuPolicy FileCache FileCacheSpec.
From Stdlib Require Import QArith.
Open Scope Z_scope.

#[export] Instance lru_cachePolicy (N : Type) `{!FileSystem N} : cachePolicy (lruPolicy N) N := {
  pol_locks := fileLocks;
  pol_set_locks := with_locks;
  pol_next := fs;
  pol_set_next := with_fs;
  pol_StartPolicy := StartPolicy;
  pol_ShutdownPolicy := ShutdownPolicy;
  pol_UpdateConfig := UpdateConfig;
  pol_CacheValid := CacheValid;
  pol_CacheInvalidate := CacheInvalidate;
  pol_CachePurge := CachePurge;
  pol_IsCached := IsCached
}.

(** The LFU policy is one too. *)
#[export] Instance lfu_cachePolicy (N : Type) `{!FileSystem N} : cachePolicy (lfuPolicy N) N := {
  pol_locks := lfu_fileLocks;
  pol_set_locks := lfu_set_locks;
  pol_next := lfu_fs;
  pol_set_next := lfu_set_fs;
  pol_StartPolicy := lfu_StartPolicy;
  pol_ShutdownPolicy := lfu_ShutdownPolicy;
  pol_UpdateConfig := lfu_UpdateConfig;
  pol_CacheValid := lfu_CacheValid;
  pol_CacheInvalidate := lfu_CacheInvalidate;
  pol_CachePurge := lfu_CachePurge;
  pol_IsCached := lfu_IsCached
}.

Create HintDb keeps.

Section lru.
Context {N : Type} `{!Runtime N} `{!FileSystem N} `{!LocalOS N} `{!FileView N}.
Context (tmp name lp : string) `{!OSLaws N lp}.
Abbreviation policy := (lruPolicy N).
Implicit Types (p : policy).

(** ** The operations *)
Definition lru_ok p : Prop := tmpPath (config p) = tmp ∧ ∃ L, policy_ok p L [].
Definition lru_room p : nat :=
  Z.to_nat (Z.min (10000 - Z.of_nat (length (validateChan p))) (1000 - Z.of_nat (length (deleteEvent p)))).

Lemma policy_ok_channels p d v L D : policy_ok p L D → policy_ok (with_channels d v p) L D.
Proof. by intros []. Qed.

Lemma lru_CacheValid nm : pol_op lru_ok lru_room (CacheValid nm).
Proof.
  intros p [Ht [L Hok]] Hroom. unfold lru_room in Hroom. unfold CacheValid. apply wp_bind. unfold wp at 1, go_get.
  destruct (nodeMap p !! nm) as [q|] eqn:Hq.
  - unfold wp, send_validate. destruct (Z.ltb_spec (Z.of_nat (length (validateChan p))) 10000); [|lia].
    split_and!; [split; [done|exists L; by apply policy_ok_channels]| |done|done].
    unfold lru_room; simpl. rewrite length_app. simpl. lia.
  - eapply wp_mono; [apply (wp_cacheValidate nm L [] p Hok); congruence|].
    intros [] p' (q & Hok' & _ & (Hc & _ & _ & Hl & Hf & Hd & Hv) & _).
    split_and!; [split; [congruence|eauto]|unfold lru_room; rewrite Hd, Hv; lia|done|done].
Qed.

Lemma lru_CachePurge nm : pol_op lru_ok lru_room (CachePurge nm).
Proof.
  intros p [Ht [L Hok]] Hroom. unfold lru_room in Hroom.
  eapply wp_mono; [apply wp_CachePurge; [exact Hok|lia]|]. simpl.
  intros [] p' (_ & Hd & Hok' & Hv & Hc & Hl & Hf).
  split_and!; [split; [congruence|eauto]| |done|done].
  unfold lru_room. rewrite Hd, Hv, length_app. simpl. lia.
Qed.

Lemma lru_CacheInvalidate nm : pol_op lru_ok lru_room (CacheInvalidate nm).
Proof.
  intros p Hok Hroom. unfold CacheInvalidate. apply wp_bind. unfold wp at 1, go_get.
  destruct (_ || _); [by apply lru_CachePurge|]. apply wp_ret. split_and!; [done|lia|done|done].
Qed.

Lemma lru_IsCached nm p : lru_ok p → wp (IsCached nm) (λ _ p', p' = p) p.
Proof.
  intros [_ [L Hok]]. unfold IsCached. apply wp_bind. unfold wp at 1, go_get.
  destruct (nodeMap p !! nm) as [q|] eqn:Hq; [|by apply wp_ret].
  apply (po_map _ _ _ Hok) in Hq as [(_ & _ & _ & n & Hn & _)|[?%not_elem_of_nil _]]; [|done].
  apply wp_bind. eapply wp_load_node; [done|]. by apply wp_ret.
Qed.

(** ** The background routines *)

(** A completed round of one of the goroutines that leaves the list well
    formed. *)
Definition lru_bg p p' : Prop :=
  (clearCache_delete p = Ret (tt, p') ∨ clearCache_timeout p = Ret (tt, p') ∨
   clearCache_usage p = Ret (tt, p') ∨ asyncCacheValid_step p = Ret (tt, p')) ∧ lru_ok p'.

(** A round of asyncCacheValid always leaves the list well formed. *)
Lemma lru_async_ok p p' : lru_ok p → asyncCacheValid_step p = Ret (tt, p') → lru_ok p'.
Proof.
  intros [Ht [L Hok]] H. unfold asyncCacheValid_step in H. go_inv.
  destruct (validateChan _) as [|nm rest]; go_inv.
  match goal with H : cacheValidate nm ?p1 = _ |- _ =>
    pose proof (wp_cacheValidate nm L [] p1 (policy_ok_channels _ _ _ _ _ Hok)) as Hw; unfold wp in Hw; rewrite H in Hw
  end.
  destruct Hw as (q & Hok' & _ & (Hc & _) & _).
  - intros q Hq. by apply (po_map _ _ _ Hok) in Hq as [[? _]|[?%not_elem_of_nil _]].
  - split; [by rewrite Hc|eauto].
Qed.

(** The name of the file in the container is what deleteItem makes of its local
    path. *)
Definition lru_name_ok : Prop :=
  let az := strings_TrimPrefix lp tmp in
  az ≠ "" ∧ (if strings_HasPrefix az "/" then sdrop 1 az else az) = name.

(** Operations on the list leave the configuration, the locks and the file
    system alone: they keep every property of these. *)
Section keeps.
Context (I : cachePolicyConfig → LockMap → N → Prop).
Definition sat p : Prop := I (config p) (fileLocks p) (fs p).
Definition keeps {A} (m : go policy A) : Prop := ∀ p a p', sat p → m p = Ret (a, p') → sat p'.

Lemma keeps_bind {A B} (m : go policy A) (f : A → go policy B) :
  keeps m → (∀ a, keeps (f a)) → keeps (m ≫= f).
Proof. intros Hm Hf p b p' Hp H. apply go_bind_Ret in H as (a & p1 & H1 & H2). eapply Hf; [|done]. by eapply Hm. Qed.
Lemma keeps_ret {A} (a : A) : keeps (mret a).
Proof. intros p b p' Hp [= -> ->]. done. Qed.
Lemma keeps_get : keeps go_get.
Proof. intros p b p' Hp [= -> ->]. done. Qed.
Lemma keeps_block {A} : keeps (go_block : go policy A).
Proof. by intros p b p' Hp. Qed.
Lemma keeps_modify f :
  (∀ p, config (f p) = config p ∧ fileLocks (f p) = fileLocks p ∧ fs (f p) = fs p) → keeps (go_modify f).
Proof.
  intros Hf p [] p' Hp [= <-]. destruct (Hf p) as (H1 & H2 & H3). unfold sat. by rewrite H1, H2, H3.
Qed.
Lemma keeps_upd_node q f : keeps (upd_node q f).
Proof. intros p [] p' Hp. unfold upd_node. destruct (nodes p !! q); [|done]. intros [= <-]. exact Hp. Qed.
Lemma keeps_load_node q : keeps (load_node q).
Proof. intros p n p' Hp. unfold load_node. intros [_ ->]%go_deref_Ret. done. Qed.
Lemma keeps_new_node n : keeps (new_node n).
Proof. intros p q p' Hp [= _ <-]. exact Hp. Qed.
Lemma keeps_send_validate nm : keeps (send_validate nm).
Proof. intros p [] p' Hp. unfold send_validate. destruct (_ <? _); [|done]. intros [= <-]. exact Hp. Qed.
Lemma keeps_range {A} (f : A → go policy unit) l : (∀ x, keeps (f x)) → keeps (go_range f l).
Proof. intros Hf. induction l; simpl; [apply keeps_ret|]. apply keeps_bind; [apply Hf|done]. Qed.

#[local] Hint Resolve keeps_ret keeps_get keeps_block keeps_upd_node keeps_load_node
  keeps_new_node keeps_send_validate keeps_range : keeps.
#[local] Ltac keeps := repeat first
  [ progress intros
  | match goal with
    | |- keeps (_ ≫= _) => apply keeps_bind
    | |- keeps (go_modify _) => apply keeps_modify; done
    | |- keeps (if ?b then _ else _) => destruct b
    | |- keeps (match ?x with _ => _ end) => destruct x
    end
  | solve [auto with keeps nocore] ].

Lemma keeps_unlink q : keeps (unlink q).
Proof. unfold unlink. keeps. Qed.
Lemma keeps_push_head q : keeps (push_head q).
Proof. unfold push_head. keeps. Qed.
#[local] Hint Resolve keeps_unlink keeps_push_head : keeps.
Lemma keeps_cacheValidate nm : keeps (cacheValidate nm).
Proof. unfold cacheValidate. keeps. Qed.
#[local] Hint Resolve keeps_cacheValidate : keeps.
Lemma keeps_CacheValid nm : keeps (CacheValid nm).
Proof. unfold CacheValid. keeps. Qed.
Lemma keeps_removeNode nm : keeps (removeNode nm).
Proof. unfold removeNode. keeps. Qed.
Lemma keeps_updateMarker : keeps updateMarker.
Proof. unfold updateMarker. keeps. Qed.
Lemma keeps_collect fuel max count node : keeps (collect fuel max count node).
Proof. revert count node. induction fuel as [|fuel IH]; intros count node; simpl; keeps. Qed.
#[local] Hint Resolve keeps_CacheValid keeps_removeNode keeps_updateMarker keeps_collect : keeps.

End keeps.

#[local] Hint Resolve keeps_ret keeps_get keeps_block keeps_upd_node keeps_load_node
  keeps_new_node keeps_send_validate keeps_range keeps_CacheValid keeps_removeNode keeps_updateMarker
  keeps_collect keeps_cacheValidate : keeps.

Ltac keeps_tac := repeat first
  [ progress intros
  | match goal with
    | |- keeps _ (_ ≫= _) => apply keeps_bind
    | |- keeps _ (go_modify _) => apply keeps_modify; done
    | |- keeps _ (if ?b then _ else _) => destruct b
    | |- keeps _ (match ?x with _ => _ end) => destruct x
    end
  | solve [auto with keeps nocore] ].

(** What holds of the file throughout a round, with a property of the locks. *)
Context (n0 : N) (k : Z) (Hk0 : 0 ≤ k).
Definition undisturbed (E : LockMap → Prop) (c : cachePolicyConfig) (l : LockMap) (n : N) : Prop :=
  tmpPath c = tmp ∧ lm_wf l ∧ E l ∧ quiet n0 n lp k.

(** Removing another file, or this one when it has no handle. *)
Lemma keeps_deleteFile E nm : nm ≠ lp ∨ k = 0 → keeps (undisturbed E) (on_fs (deleteFile nm)).
Proof.
  intros Hnm p e p' (Ht & Hwf & Hl & Hq) H. unfold on_fs, go_zoom in H.
  assert (Hrm : ∀ n, quiet n0 n lp k → wp (os_Remove nm) (λ _ n', quiet n0 n' lp k) n).
  { intros n Hn. eapply wp_mono; [apply law_Remove|]. intros err n' [(Hlf & Hst & Hh) _].
    destruct Hn as (H1 & H2 & H3 & H4 & H5). unfold quiet. rewrite Hst, Hh, Hlf.
    case_bool_decide; simpl; (split_and!; [done..|]); [|done].
    destruct (decide (nm = lp)) as [->|Hne].
    - destruct Hnm as [?|Hk]; [done|]. right. by rewrite lookup_delete_eq.
    - by rewrite lookup_delete_ne by done. }
  assert (Hch : ∀ n m, quiet n0 n lp k → wp (os_Chmod nm m) (λ _ n', quiet n0 n' lp k) n).
  { intros n m Hn. eapply wp_mono; [apply law_Chmod|]. intros err n' (Hlf & Hst & Hh).
    unfold quiet in *. by rewrite Hst, Hh, Hlf. }
  assert (Hdel : wp (deleteFile nm) (λ _ n', quiet n0 n' lp k) (fs p)).
  { unfold deleteFile. apply wp_bind. eapply wp_mono; [by apply Hrm|]. intros err n1 Hn1.
    destruct (_ && _).
    - apply wp_bind. eapply wp_mono; [by apply Hch|]. intros err2 n2 Hn2. case_bool_decide; [by apply wp_ret|].
      by apply Hrm.
    - destruct (_ && _); by apply wp_ret. }
  unfold wp in Hdel. destruct (deleteFile nm (fs p)) as [[e' n']| |]; [|done..].
  injection H as <- <-. by split_and!.
Qed.

(** Reading the disk usage. *)
Lemma keeps_usage E path size : keeps (undisturbed E) (on_fs (getUsagePercentage path size)).
Proof.
  intros p u p' (Ht & Hwf & Hl & Hq) H. unfold on_fs, go_zoom in H.
  assert (Hu : wp (getUsagePercentage path size) (λ _ n', upd (fs p) n' (lfs (fs p))) (fs p)).
  { unfold getUsagePercentage. destruct (Qeq_bool size 0); apply wp_bind.
    - eapply wp_mono; [apply law_GetDiskUsage|]. by intros [[? ?] ?] n' Hn'.
    - eapply wp_mono; [apply law_GetUsage|]. by intros r n' Hn'. }
  unfold wp in Hu. destruct (getUsagePercentage path size (fs p)) as [[e' n']| |]; [|done..].
  injection H as <- <-. destruct Hu as (Hlf & Hst & Hh). split_and!; [done..|]. simpl.
  unfold quiet in *. by rewrite Hst, Hh, Hlf.
Qed.
#[local] Hint Resolve keeps_usage : keeps.

(** *** The lock of another file *)
Lemma lock_free_insert_ne l az q i kk :
  lm_wf l → locks l !! az = Some q → az ≠ name → lock_free l name kk →
  lock_free (mkLockMap (locks l) (<[q:=i]> (items l))) name kk.
Proof.
  intros [_ Hinj] Hq Hne Hf. unfold lock_free in *. simpl. destruct (locks l !! name) as [q'|] eqn:E; [|done].
  rewrite lookup_insert_ne; [done|]. intros ->. apply Hne. by eapply Hinj.
Qed.

(** A routine that stores into one item only. *)
Definition item_only {A} (q : ptr) (m : go LockMap A) : Prop := ∀ l a l', m l = Ret (a, l') →
  l' = l ∨ ∃ i, l' = mkLockMap (locks l) (<[q:=i]> (items l)).
Lemma item_only_update q (f : LockMapItem → go LockMap unit) :
  (∀ i l l', f i l = Ret (tt, l') → ∃ i', l' = mkLockMap (locks l) (<[q:=i']> (items l))) →
  item_only q (i ← load_item q; f i).
Proof.
  intros Hf l [] l' H. go_inv. unfold load_item in *. go_inv. right. eauto.
Qed.
Lemma item_only_bind {B} q (m1 : go LockMap unit) (m2 : unit → go LockMap B) :
  item_only q m1 → (∀ x, item_only q (m2 x)) → item_only q (m1 ≫= m2).
Proof.
  intros H1 H2 l b l' H. apply go_bind_Ret in H as ([] & l1 & E1 & E2).
  apply H1 in E1 as [->|[i1 ->]]; apply (H2 tt) in E2 as [->|[i2 ->]]; simpl; eauto.
  right. exists i2. by rewrite insert_insert_eq.
Qed.
Lemma item_only_Lock q : item_only q (lm_Lock q).
Proof.
  apply item_only_bind; [|intros _]; apply item_only_update; intros i l l' H.
  - destruct (mtx i); [done|]. injection H as <-. eauto.
  - injection H as <-. eauto.
Qed.
Lemma item_only_Unlock q : item_only q (lm_Unlock q).
Proof.
  apply item_only_bind; [|intros _]; apply item_only_update; intros i l l' H.
  - injection H as <-. eauto.
  - destruct (mtx i); [|done]. injection H as <-. eauto.
Qed.
Lemma item_only_Count q : item_only q (lm_Count q).
Proof. intros l a l' H. unfold lm_Count, load_item in H. go_inv. by left. Qed.
Lemma item_only_Locked q nm : item_only q (lm_Locked nm).
Proof.
  intros l a l' H. unfold lm_Locked in H. go_inv. destruct (locks _ !! nm); unfold load_item in *; go_inv; by left.
Qed.

Definition other (az : string) (q : ptr) (l : LockMap) : Prop := lock_free l name k ∧ locks l !! az = Some q.
Lemma keeps_other {A} az q (m : go LockMap A) :
  az ≠ name → item_only q m → keeps (undisturbed (other az q)) (on_locks m).
Proof.
  intros Hne Hm p a p' (Ht & Hwf & [Hf Hq] & Hqu) H. unfold on_locks, go_zoom in H.
  destruct (m (fileLocks p)) as [[a' l']| |] eqn:E; [|done..]. injection H as <- <-.
  apply Hm in E as [->|[i ->]]; [by split_and!|]. split_and!; [done|by apply lm_wf_insert| |done].
  split; [by eapply lock_free_insert_ne|done].
Qed.

Definition free_ (l : LockMap) : Prop := lock_free l name k.
Lemma lm_Get_free az l q l' :
  lm_wf l → lock_free l name k → lm_Get az l = Ret (q, l') →
  lm_wf l' ∧ lock_free l' name k ∧ locks l' !! az = Some q.
Proof.
  intros Hwf Hf. unfold lm_Get. destruct (locks l !! az) as [q'|] eqn:E; [by intros [= -> ->]|].
  intros [= <- <-]. simpl. rewrite lookup_insert_eq. destruct Hwf as [Ha Hi].
  assert (Hne : ∀ nm x, locks l !! nm = Some x → x ≠ fresh_ptr (items l)).
  { intros nm x Hx ->. destruct (Ha _ _ Hx) as [i Hi']. by rewrite fresh_ptr_lookup in Hi'. }
  split_and!; [|unfold lock_free in *; simpl|done].
  - split; simpl.
    + intros nm x [[_ <-]|[_ Hx]]%lookup_insert_Some; [rewrite lookup_insert_eq; eauto|].
      rewrite lookup_insert_ne by (intros <-; by eapply Hne). eauto.
    + intros nm1 nm2 x [[<- <-]|[Hn1 H1]]%lookup_insert_Some [[<- H2]|[Hn2 H2]]%lookup_insert_Some; try done.
      * exfalso. by eapply (Hne nm2).
      * subst x. exfalso. by eapply (Hne nm1).
      * eauto.
  - destruct (decide (az = name)) as [->|Hn]; [rewrite E in Hf; subst k; rewrite !lookup_insert_eq; by exists 0|].
    rewrite lookup_insert_ne by done. destruct (locks l !! name) as [x|] eqn:Ex; [|done].
    rewrite lookup_insert_ne by (intros <-; by eapply Hne). done.
Qed.

(** Another file, and this one. *)
Lemma keeps_delete_other nm az q :
  az ≠ name → nm ≠ lp →
  keeps (undisturbed (other az q)) (locked ← on_locks (lm_Locked az);
    if (locked : bool) then CacheValid nm
    else
      _ ← on_locks (lm_Lock q);
      count ← on_locks (lm_Count q);
      _ ← (if 0 <? count then CacheValid nm else _ ← on_fs (deleteFile nm); mret tt);
      on_locks (lm_Unlock q)).
Proof.
  intros Haz Hnm. pose proof (λ A, @keeps_other A az q) as Ho. pose proof (keeps_deleteFile (other az q) nm) as Hd.
  keeps_tac; auto using item_only_Locked, item_only_Lock, item_only_Unlock, item_only_Count with keeps.
Qed.

Lemma keeps_delete_this nm q p p' :
  undisturbed (λ l, free_ l ∧ locks l !! name = Some q) (config p) (fileLocks p) (fs p) →
  (locked ← on_locks (lm_Locked name);
    if (locked : bool) then CacheValid nm
    else
      _ ← on_locks (lm_Lock q);
      count ← on_locks (lm_Count q);
      _ ← (if 0 <? count then CacheValid nm else _ ← on_fs (deleteFile nm); mret tt);
      on_locks (lm_Unlock q)) p = Ret (tt, p') → 
  sat (undisturbed free_) p'.
Proof.
  intros (Ht & Hwf & [Hf Hq] & Hqu) H. pose proof Hf as Hi. unfold free_, lock_free in Hi. rewrite Hq in Hi.
  destruct Hi as [t Hi].
  assert (Hlocked : on_locks (lm_Locked name) p = Ret (false, with_locks (fileLocks p) p)).
  { unfold on_locks, go_zoom, lm_Locked, load_item, mbind, go_bind. simpl. rewrite Hq. simpl.
    unfold mbind, go_bind. by rewrite Hi. }
  apply go_bind_Ret in H as (b & p1 & H1 & H). rewrite Hlocked in H1. injection H1 as <- <-. cbv iota in H.
  apply go_bind_Ret in H as ([] & p2 & H2 & H).
  assert (Hheld : undisturbed (λ l, lock_held l name q k) (config p2) (fileLocks p2) (fs p2)).
  { unfold on_locks, go_zoom in H2. simpl in H2. pose proof (wp_lm_Lock _ _ _ _ _ Hwf Hq Hi) as Hw.
    unfold wp in Hw. destruct (lm_Lock q (fileLocks p)) as [[[] l2]| |]; [|done..]. injection H2 as <-.
    destruct Hw. by split_and!. }
  clear H2 Hlocked. apply go_bind_Ret in H as (count & p3 & H3 & H).
  assert (Hcount : count = k ∧ sat (undisturbed (λ l, lock_held l name q k)) p3).
  { destruct Hheld as (Ht2 & Hwf2 & Hh2 & Hq2). unfold on_locks, go_zoom in H3.
    pose proof (wp_lm_Count name _ _ _ Hwf2 Hh2) as Hw. unfold wp in Hw.
    destruct (lm_Count q (fileLocks p2)) as [[x l3]| |]; [|done..]. injection H3 as <- <-.
    destruct Hw as [-> ->]. split; [done|]. by split_and!. }
  destruct Hcount as [-> Hheld3]. clear H3 Hheld. apply go_bind_Ret in H as ([] & p4 & H4 & H5).
  assert (Hheld4 : sat (undisturbed (λ l, lock_held l name q k)) p4).
  { destruct (Z.ltb_spec 0 k) as [Hk|Hk]; [by eapply keeps_CacheValid|].
    eapply (keeps_bind _ (on_fs (deleteFile nm)) (λ _, mret tt)); [|intros; apply keeps_ret|exact Hheld3|exact H4].
    apply keeps_deleteFile. right. lia. }
  destruct Hheld4 as (Ht4 & Hwf4 & Hh4 & Hq4). unfold on_locks, go_zoom in H5.
  pose proof (wp_lm_release _ _ _ _ Hwf4 Hh4) as Hw. unfold wp in Hw.
  destruct (lm_Unlock q (fileLocks p4)) as [[[] l5]| |]; [|done..]. injection H5 as <-. destruct Hw.
  by split_and!.
Qed.

Lemma keeps_deleteItem nm : lru_name_ok → keeps (undisturbed free_) (deleteItem nm).
Proof.
  intros Hname p [] p' Hp H. unfold deleteItem in H. apply go_bind_Ret in H as (p0 & p1 & [= -> ->] & H).
  set (az := strings_TrimPrefix nm (tmpPath (config p1))) in *. destruct (bool_decide (az = "")).
  { by eapply keeps_ret. }
  set (az' := if strings_HasPrefix az "/" then sdrop 1 az else az) in *.
  apply go_bind_Ret in H as (q & p2 & H2 & H). pose proof Hp as (Ht & Hwf & Hf & Hqu).
  unfold on_locks, go_zoom in H2. destruct (lm_Get az' (fileLocks p1)) as [[q' l2]| |] eqn:E; [|done..].
  injection H2 as -> <-. destruct (lm_Get_free _ _ _ _ Hwf Hf E) as (Hwf2 & Hf2 & Hq2).
  destruct (decide (az' = name)) as [Heq|Hne].
  - rewrite Heq in *. eapply (keeps_delete_this nm q); [|exact H]. by split_and!.
  - assert (Hlp : nm ≠ lp).
    { intros ->. apply Hne. unfold az', az. rewrite Ht. by destruct Hname. }
    assert (Hsat : sat (undisturbed (other az' q)) p').
    { eapply (keeps_delete_other nm az' q Hne Hlp); [|exact H]. by split_and!. }
    destruct Hsat as (? & ? & [? _] & ?). by split_and!.
Qed.

Lemma keeps_round p p' :
  lru_name_ok → lru_bg p p' → sat (undisturbed free_) p → sat (undisturbed free_) p'.
Proof.
  intros Hname [Hbg _] Hp. pose proof (λ nm, keeps_deleteItem nm Hname) as Hdel.
  assert (Hcol : ∀ q, keeps (undisturbed free_) (delete_collected q)).
  { intros q. unfold delete_collected. keeps_tac. }
  assert (Hexp : keeps (undisturbed free_) deleteExpiredNodes).
  { unfold deleteExpiredNodes. keeps_tac. }
  assert (Hloop : ∀ m, keeps (undisturbed free_) (usage_loop m)).
  { intros m. induction m as [|m IH]; simpl; keeps_tac. }
  destruct Hbg as [H|[H|[H|H]]]; (eapply (_ : keeps _ _); [exact Hp|exact H]).
  Unshelve. all: unfold clearCache_delete, clearCache_timeout, clearCache_usage, asyncCacheValid_step; keeps_tac.
Qed.
End lru.

(** The interface of the file cache. *)
#[export] Instance lru_PolicyLaws {N : Type} `{!Runtime N} `{!FileSystem N} `{!LocalOS N} `{!FileView N}
    (tmp name lp : string) `{!OSLaws N lp} (Hname : lru_name_ok tmp name lp) :
  PolicyLaws (lruPolicy N) N name lp.
Proof.
  refine {| pol_ok := lru_ok tmp; pol_room := lru_room; pol_bg := lru_bg tmp |}; simpl; try done.
  - intros n p [Ht [L Hok]]. split; [|done]. split; [done|]. exists L. by apply policy_ok_with_fs.
  - intros l p [Ht [L Hok]]. split; [|done]. split; [done|]. exists L. by apply policy_ok_with_locks.
  - apply lru_CacheValid.
  - apply lru_CacheInvalidate.
  - apply lru_CachePurge.
  - intros p Hok. eapply wp_mono; [by eapply lru_IsCached|]. by intros b p' ->.
  - intros p p' k Hk [Ht Hok] Hbg Hwf Hf.
    assert (Hsat : sat (undisturbed tmp lp (fs p) k (free_ name k)) p').
    { apply (keeps_round tmp name lp (fs p) k Hk p p' Hname Hbg). split_and!; [done..|]. unfold quiet. by split_and!; auto. }
    destruct Hsat as (_ & ? & ? & ?). split_and!; try done. apply Hbg.
Defined.
