(* ===== verification/FileCacheRuns.v ===== *)
(** * The file cache on a world in memory

    A local file system, a clock and a storage account in memory, to execute
    the file cache of FileCache.v with the LRU policy on.  They satisfy the laws
    of FileCacheSpec.v.  The runs show the operations working together and the
    cases in which content is lost. *)
From S2P Require Import Prelude GoLib Common HandleMap Internal LockMap Base64 LruPolicy LruPolicySpec FileCache FileCacheSpec FileCacheLru.
From Stdlib Require Import QArith.
Open Scope Z_scope.

(** What goes wrong: requests for attributes, opens of a file for reading, and
    what du reports. *)
Record Faults := mkFaults {
  attr_error : option error;
  open_error : bool;
  du_reports : option Q
}.
Definition no_faults : Faults := mkFaults None false (Some 0%Q).

(** The faults are a parameter of the type, so that the operations depend on
    it.  Inodes have a content and times; the container has contents. *)
Record world (F : Faults) := mkWorld {
  w_objs : gmap ptr ObjAttr;
  w_handles : gmap ptr Handle;
  w_clock : Time;
  w_dir : gmap string nat;
  w_data : gmap nat (list byte);
  w_open : gmap ptr nat;
  w_times : gmap nat (Time * Time);
  w_store : gmap string (list byte)
}.
Arguments mkWorld {F}.
Arguments w_objs {F} _.
Arguments w_handles {F} _.
Arguments w_clock {F} _.
Arguments w_dir {F} _.
Arguments w_data {F} _.
Arguments w_open {F} _.
Arguments w_times {F} _.
Arguments w_store {F} _.

Section world.
Context {F : Faults}.
Abbreviation W := (world F).
Implicit Types (w : W).

#[export] Instance Runtime_world : Runtime W := {
  rt_now w := Ret (w_clock w, mkWorld (w_objs w) (w_handles w) (w_clock w + 1) (w_dir w) (w_data w) (w_open w) (w_times w) (w_store w));
  rt_objs := w_objs;
  rt_set_objs m w := mkWorld m (w_handles w) (w_clock w) (w_dir w) (w_data w) (w_open w) (w_times w) (w_store w);
  rt_handles := w_handles;
  rt_set_handles m w := mkWorld (w_objs w) m (w_clock w) (w_dir w) (w_data w) (w_open w) (w_times w) (w_store w)
}.
Definition w_files (dir : gmap string nat) (data : gmap nat (list byte)) (open : gmap ptr nat)
    (times : gmap nat (Time * Time)) w : W :=
  mkWorld (w_objs w) (w_handles w) (w_clock w) dir data open times (w_store w).
Definition w_put (m : gmap string (list byte)) w : W :=
  mkWorld (w_objs w) (w_handles w) (w_clock w) (w_dir w) (w_data w) (w_open w) (w_times w) m.

(** The descriptor of an open file is its address. *)
#[export] Instance FileView_world : FileView W := {
  lfs w := mkLFS (w_dir w) (w_data w) (map_imap (λ f i, Some (Z.of_nat f, i)) (w_open w));
  stored := w_store
}.

Definition w_content w (i : nat) : list byte := default [] (w_data w !! i).
Definition w_stat (path : string) w (i : nat) : FileInfo :=
  let '(m, ct) := default (0, 0) (w_times w !! i) in
  mkFileInfo path (Z.of_nat (length (w_content w i))) 420 m m ct.
Definition w_touch (i : nat) w : gmap nat (Time * Time) := <[i := (w_clock w, w_clock w)]> (w_times w).
Definition max_files : nat := 1024.

Definition w_Stat (path : string) : go W (FileInfo + error) := λ w,
  Ret (match w_dir w !! path with Some i => inl (w_stat path w i) | None => inr (PathError ENOENT) end, w).
Definition w_OpenFile (path : string) (flags : Z) (mode : FileMode) : go W (ptr * option error) := λ w,
  let f := fresh_ptr (lf_open (lfs w)) in
  if decide (max_files ≤ f)%nat then Ret (nil_ptr, Some (Msg "EMFILE"), w)
  else
    match w_dir w !! path with
    | Some i =>
        if open_error F && (flags =? O_RDONLY) then Ret (nil_ptr, Some (PathError EACCES), w)
        else
          let trunc := negb (Z.land flags O_TRUNC =? 0) in
          Ret (f, None, w_files (<[path := i]> (w_dir w)) (<[i := if trunc then [] else w_content w i]> (w_data w))
                          (<[f := i]> (w_open w)) (if trunc then w_touch i w else w_times w) w)
    | None =>
        if Z.land flags O_CREATE =? 0 then Ret (nil_ptr, Some (PathError ENOENT), w)
        else
          let i := fresh_ptr (w_data w) in
          Ret (f, None, w_files (<[path := i]> (w_dir w)) (<[i := []]> (w_data w)) (<[f := i]> (w_open w)) (w_touch i w) w)
    end.
Definition w_Close (f : ptr) : go W (option error) := λ w,
  match w_open w !! f with
  | Some _ => Ret (None, w_files (w_dir w) (w_data w) (delete f (w_open w)) (w_times w) w)
  | None => Ret (Some (Errno EBADF), w)
  end.
Definition w_Pread (fd : Z) (buf : list byte) (off : Z) : go W (list byte * Z * option error) := λ w,
  match w_open w !! (Z.to_nat fd : ptr) with
  | Some i =>
      let d := drop (Z.to_nat off) (w_content w i) in
      let k := Nat.min (length buf) (length d) in
      Ret (take k d ++ drop k buf, Z.of_nat k, None, w)
  | None => Ret (buf, -1, Some (Errno EBADF), w)
  end.
Definition w_Pwrite (fd : Z) (d : list byte) (off : Z) : go W (Z * option error) := λ w,
  match w_open w !! (Z.to_nat fd : ptr) with
  | Some i =>
      Ret (Z.of_nat (length d), None,
           w_files (w_dir w) (<[i := written (w_content w i) off d]> (w_data w)) (w_open w) (w_touch i w) w)
  | None => Ret (-1, Some (Errno EBADF), w)
  end.
Definition w_Remove (path : string) : go W (option error) := λ w,
  match w_dir w !! path with
  | Some _ => Ret (None, w_files (delete path (w_dir w)) (w_data w) (w_open w) (w_times w) w)
  | None => Ret (Some (PathError ENOENT), w)
  end.
Definition w_Rename (src dst : string) : go W (option error) := λ w,
  match w_dir w !! src with
  | Some i => Ret (None, w_files (<[dst := i]> (delete src (w_dir w))) (w_data w) (w_open w) (w_times w) w)
  | None => Ret (Some (PathError ENOENT), w)
  end.
Definition w_Truncate (path : string) (size : Z) : go W (option error) := λ w,
  match w_dir w !! path with
  | Some i => Ret (None, w_files (w_dir w) (<[i := resize (w_content w i) (Z.to_nat size)]> (w_data w)) (w_open w) (w_touch i w) w)
  | None => Ret (Some (PathError ENOENT), w)
  end.
Definition w_Chtimes (path : string) (_ m : Time) : go W (option error) := λ w,
  match w_dir w !! path with
  | Some i => Ret (None, w_files (w_dir w) (w_data w) (w_open w) (<[i := (m, w_clock w)]> (w_times w)) w)
  | None => Ret (Some (PathError ENOENT), w)
  end.
Definition w_ReadDir (path : string) : go W (list (string * bool) * option error) := λ w,
  Ret ((λ x, (filepath_Base x.1, false)) <$> filter (λ x, filepath_Dir x.1 = path) (map_to_list (w_dir w)), None, w).

#[export] Instance FileSystem_world : FileSystem W := {
  os_Remove := w_Remove;
  os_Chmod _ _ w := Ret (None, w);
  GetUsage _ w := Ret (du_reports F, w);
  GetDiskUsageFromStatfs _ w := Ret ((0%Q, 0%Q, None), w)
}.
#[export] Instance LocalOS_world : LocalOS W := {
  os_Stat := w_Stat;
  os_Lstat := w_Stat;
  os_OpenFile := w_OpenFile;
  os_MkdirAll _ _ w := Ret (None, w);
  os_RemoveAll := w_Remove;
  os_Rename := w_Rename;
  os_Truncate := w_Truncate;
  os_Chtimes := w_Chtimes;
  os_Chown _ _ _ w := Ret (None, w);
  os_ReadDir := w_ReadDir;
  file_Close := w_Close;
  file_Fd f w := Ret (Z.of_nat f, w);
  file_Stat f w := Ret (match w_open w !! f with Some i => inl (w_stat "" w i) | None => inr (Errno EBADF) end, w);
  file_Read f k w := Ret (match w_open w !! f with
    | Some i => (take (Z.to_nat k) (w_content w i), None) | None => ([], Some (Errno EBADF)) end, w);
  file_Readdirnames _ _ w := Ret ([], Some Eof, w);
  syscall_Pread := w_Pread;
  syscall_Pwrite := w_Pwrite;
  syscall_Dup _ w := Ret (Z.of_nat (fresh_ptr (w_open w)), None, w);
  syscall_Close _ w := Ret (None, w);
  syscall_Statfs _ w := Ret (mkStatfs 0 0 0 4096 4096 0 0 0, None, w)
}.

(** The container: attributes and contents. *)
Definition s_GetAttr (o : GetAttrOptions) : go W (ptr * option error) := λ w,
  match attr_error F with
  | Some e => Ret (nil_ptr, Some e, w)
  | None =>
      match w_store w !! GetAttr_Name o with
      | None => Ret (nil_ptr, Some (Errno ENOENT), w)
      | Some c =>
          let p := fresh_ptr (w_objs w) in
          Ret (p, None, rt_set_objs (<[p := mkObjAttr 0 0 0 0 (Z.of_nat (length c)) 420 0 (GetAttr_Name o) (GetAttr_Name o) [] ∅]> (w_objs w)) w)
      end
  end.
Definition s_CopyToFile (o : CopyToFileOptions) : go W (option error) := λ w,
  match w_open w !! CopyToFile_File o, w_store w !! CopyToFile_Name o with
  | Some i, Some c =>
      let part := take (Z.to_nat (CopyToFile_Count o)) (drop (Z.to_nat (CopyToFile_Offset o)) c) in
      Ret (None, w_files (w_dir w) (<[i := splice (w_content w i) (Z.to_nat (CopyToFile_Offset o)) part]> (w_data w))
                   (w_open w) (w_touch i w) w)
  | Some i, None => Ret (Some (Errno ENOENT), w_files (w_dir w) (<[i := w_content w i]> (w_data w)) (w_open w) (w_times w) w)
  | None, _ => Ret (Some (Errno EBADF), w)
  end.
Definition s_CopyFromFile (o : CopyFromFileOptions) : go W (option error) := λ w,
  match w_open w !! CopyFromFile_File o with
  | Some i => Ret (None, w_put (<[CopyFromFile_Name o := w_content w i]> (w_store w)) w)
  | None => Ret (Some (Errno EBADF), w)
  end.
Definition s_DeleteFile (o : DeleteFileOptions) : go W (option error) := λ w,
  match w_store w !! DeleteFile_Name o with
  | Some _ => Ret (None, w_put (delete (DeleteFile_Name o) (w_store w)) w)
  | None => Ret (Some (Errno ENOENT), w)
  end.
Definition s_RenameFile (o : RenameFileOptions) : go W (option error) := λ w,
  match w_store w !! RenameFile_Src o with
  | Some c => Ret (None, w_put (<[RenameFile_Dst o := c]> (delete (RenameFile_Src o) (w_store w))) w)
  | None => Ret (Some (Errno ENOENT), w)
  end.

Definition container : Component W :=
  let B := BaseComponent (N := W) None in
  mkComponent (c_CreateDir B) (c_DeleteDir B) (c_IsDirEmpty B) (c_OpenDir B) (c_ReadDir B) (c_StreamDir B)
    (c_CloseDir B) (c_RenameDir B) (c_CreateFile B) s_DeleteFile (c_OpenFile B) (c_CloseFile B)
    s_RenameFile (c_ReadFile B) (c_ReadInBuffer B) (c_WriteFile B) (c_TruncateFile B) s_CopyToFile
    s_CopyFromFile (c_SyncFile B) (c_SyncDir B) (c_FlushFile B) (c_ReleaseFile B) (c_UnlinkFile B)
    (c_CreateLink B) (c_ReadLink B) s_GetAttr (c_GetFileBlockOffsets B) (c_SetAttr B) (c_Chmod B)
    (c_Chown B) (c_FileUsed B) (c_StatFs B) (c_GetCommittedBlockList B) (c_StageData B) (c_CommitData B).
End world.

(** ** The world satisfies the laws *)
Section laws.
Abbreviation W := (world no_faults).
Implicit Types (w : W).

Lemma lf_open_lookup w (f : ptr) fd i :
  lf_open (lfs w) !! f = Some (fd, i) ↔ fd = Z.of_nat f ∧ w_open w !! f = Some i.
Proof.
  simpl. rewrite map_lookup_imap. destruct (w_open w !! f) as [j|]; simpl; split.
  - by intros [= -> ->].
  - by intros [-> [= ->]].
  - done.
  - by intros [_ ?].
Qed.
Lemma w_content_lookup w i c : lf_data (lfs w) !! i = Some c → w_content w i = c.
Proof. simpl. unfold w_content. by intros ->. Qed.
Lemma lfs_open_insert (w : W) dir data f i times :
  lfs (w_files dir data (<[f := i]> (w_open w)) times w) =
  mkLFS dir data (<[f := (Z.of_nat f, i)]> (lf_open (lfs w))).
Proof. simpl. f_equal. by rewrite map_imap_insert. Qed.
Lemma lfs_open_delete (w : W) dir data f times :
  lfs (w_files dir data (delete f (w_open w)) times w) = mkLFS dir data (delete f (lf_open (lfs w))).
Proof. simpl. f_equal. by rewrite map_imap_delete. Qed.

#[export] Instance world_FileSystemLaws : FileSystemLaws W.
Proof. split; [|by eexists _, _]. intros nm w. simpl. unfold w_Remove. destruct (w_dir w !! nm); eauto. Qed.

#[export] Instance world_OSLaws lp : OSLaws W lp.
Proof.
  refine {| can_open L := (fresh_ptr (lf_open L) < max_files)%nat |}.
  - done.
  - done.
  - done.
  - done.
  - done.
  - intros w. unfold wp. simpl. destruct (w_dir w !! lp); (split; [done|]); eauto.
  - intros w. unfold wp. simpl. split; [done|]. split; [done|]. destruct (w_dir w !! lp) as [i|]; [|done].
    assert (Hs : fi_Mode (w_stat lp w i) = 420 ∧ fi_Size (w_stat lp w i) = Z.of_nat (length (w_content w i))).
    { unfold w_stat. by destruct (default (0, 0) (w_times w !! i)). }
    destruct Hs as [Hm Hs]. split; [unfold fi_IsDir; by rewrite Hm|]. exists i. split; [done|].
    intros c Hc. rewrite Hs. unfold w_content. by rewrite Hc.
  - intros flags mode w i c Hi Hc. unfold wp. simpl. unfold w_OpenFile.
    destruct (decide _) as [Hle|Hlt]; [split; [intros _; exact (proj1 (Nat.le_ngt _ _) Hle)|done]|].
    change (w_dir w) with (lf_dir (lfs w)). rewrite Hi. simpl. rewrite (w_content_lookup _ _ _ Hc).
    split; [apply fresh_ptr_nil|]. exists (Z.of_nat (fresh_ptr (lf_open (lfs w)))).
    split; [unfold max_files in Hlt; lia|]. split; [apply fresh_ptr_lookup|]. unfold upd.
    rewrite lfs_open_insert. split; [|done]. unfold lf_opened. f_equal. f_equal.
    by destruct (Z.land flags O_TRUNC =? 0).
  - intros flags mode w Hi Hc. unfold wp. simpl. unfold w_OpenFile.
    destruct (decide _) as [Hle|Hlt]; [done|].
    change (w_dir w) with (lf_dir (lfs w)). rewrite Hi. destruct (Z.eqb_spec (Z.land flags O_CREATE) 0); [done|].
    split; [apply fresh_ptr_nil|]. exists (Z.of_nat (fresh_ptr (lf_open (lfs w)))), (fresh_ptr (w_data w)).
    split; [unfold max_files in Hlt; lia|]. split; [apply fresh_ptr_lookup|]. unfold upd.
    rewrite lfs_open_insert. done.
  - intros path w. unfold wp. simpl. unfold w_Remove. destruct (w_dir w !! path) as [i|] eqn:E; [done|].
    split; [done|]. intros -> [j Hj]. congruence.
  - done.
  - done.
  - intros path a m w. unfold wp. simpl. unfold w_Chtimes. by destruct (w_dir w !! path).
  - done.
  - done.
  - intros f w fd i [-> Ho]%lf_open_lookup. unfold wp. simpl. unfold w_Close. rewrite Ho. split; [done|].
    unfold upd. by rewrite lfs_open_delete.
  - by intros f w fd i [-> Ho]%lf_open_lookup.
  - done.
  - intros f fd i c buf off w [-> Ho]%lf_open_lookup Hc Hoff. unfold wp. simpl. unfold w_Pread.
    rewrite Nat2Z.id, Ho, (w_content_lookup _ _ _ Hc). split; [done|]. intros _. unfold read_ok.
    set (k := Nat.min _ _). rewrite Nat2Z.id. assert (Hk1 : (k ≤ length buf)%nat) by apply Nat.le_min_l.
    assert (Hk2 : (k ≤ length (drop (Z.to_nat off) c))%nat) by apply Nat.le_min_r.
    split_and!; [lia|lia|done|done|]. intros Hk0. rewrite length_drop in Hk2. destruct buf as [|b buf]; [by left|right].
    unfold k in Hk0. rewrite length_drop in Hk0. simpl length in Hk0. lia.
  - intros f fd i c d off w [-> Ho]%lf_open_lookup Hc Hoff. unfold wp. simpl. unfold w_Pwrite.
    rewrite Nat2Z.id, Ho, (w_content_lookup _ _ _ Hc). split; [lia|]. rewrite Nat2Z.id, take_ge by lia. done.
  - intros fd w. unfold wp. simpl. split; [done|]. intros _ f i [Hf Ho]%lf_open_lookup.
    apply Nat2Z.inj in Hf as <-. by rewrite fresh_ptr_lookup in Ho.
  - done.
Defined.

#[export] Instance world_StorageLaws name : StorageLaws (N := W) container name.
Proof.
  refine {| attr_errors := λ e, e = Errno EACCES |}.
  - by intros ? ->.
  - intros rm w c Hc. unfold wp. simpl. unfold s_GetAttr. simpl. change (w_store w) with (stored w). rewrite Hc.
    split; [done|]. split; [apply fresh_ptr_nil|]. eexists. simpl. by rewrite lookup_insert_eq.
  - intros rm w Hc. unfold wp. simpl. unfold s_GetAttr. simpl. change (w_store w) with (stored w). rewrite Hc.
    split; [done|by left].
  - intros f fd i old c w Hst [-> Ho]%lf_open_lookup Hd. unfold wp. simpl. unfold s_CopyToFile. simpl.
    change (w_store w) with (stored w). rewrite Ho, Hst, (w_content_lookup _ _ _ Hd). rewrite Nat2Z.id, drop_0.
    rewrite firstn_all. by eexists.
  - intros f fd i c w [-> Ho]%lf_open_lookup Hd. unfold wp. simpl. unfold s_CopyFromFile. simpl.
    rewrite Ho, (w_content_lookup _ _ _ Hd). done.
  - intros w. unfold wp. simpl. unfold s_DeleteFile. simpl. by destruct (w_store w !! name).
  - done.
Defined.
End laws.

(** ** Runs *)
Module Runs.
Definition lru_cfg : cachePolicyConfig := mkPolicyConfig "/t" 120 5000 0%Q 80%Q 60%Q false.
(** The directory /t, a timeout of 120 seconds; the refresh time, whether empty
    files are made in the container, and the high-water mark. *)
Definition conf (refresh : Z) (create_empty : bool) (mark : Q) : FCConf :=
  mkFCConf "/t" create_empty false 120 false false "" false false false true 0%Q 493 refresh false mark.
Definition plain : FCConf := conf 0 false 0%Q.

Section runs.
Context {F : Faults}.
Abbreviation W := (world F).
Abbreviation fc := (FileCache (lruPolicy W)).

Definition empty_world (c : gmap string (list byte)) : W := mkWorld ∅ ∅ (10 ^ 18) ∅ ∅ ∅ ∅ c.
Definition lru_start (w : W) : lruPolicy W :=
  match StartPolicy (NewLRUPolicy lru_cfg NewLockMap w) with
  | Ret (_, p) => p | _ => NewLRUPolicy lru_cfg NewLockMap w end.
Definition start (c : FCConf) (files : gmap string (list byte)) : fc :=
  mkFileCache c true (lru_start (empty_world files)) ∅ [].

Definition open (nm : string) : go fc (ptr * option error) := fc_OpenFile container (mkOpenFileOptions nm O_RDWR 420).
Definition create (nm : string) : go fc (ptr * option error) := fc_CreateFile container (mkCreateFileOptions nm 420).
Definition read (hp : ptr) (off : Z) (k : nat) : go fc (list Z) :=
  '(d, n, e) ← fc_ReadInBuffer (mkReadInBufferOptions hp off (replicate k zero_byte));
  mret (z_of_byte <$> take (Z.to_nat n) d).
Definition write (hp : ptr) (off : Z) (d : list Z) : go fc (Z * option error) :=
  fc_WriteFile (mkWriteFileOptions hp off (byte_of_z <$> d) ∅).
Definition flush (hp : ptr) : go fc (option error) := fc_FlushFile container (mkFlushFileOptions hp).
Definition close (hp : ptr) : go fc (option error) := fc_CloseFile container (mkCloseFileOptions hp).
Definition sleep (secs : Z) : go fc unit := on_N (λ w, Ret (tt, mkWorld (w_objs w) (w_handles w)
  (w_clock w + secs * nanos_per_sec) (w_dir w) (w_data w) (w_open w) (w_times w) (w_store w))).
Definition in_container (nm : string) : go fc (option (list Z)) :=
  on_N (λ w, Ret (fmap (M := list) z_of_byte <$> w_store w !! nm, w)).
Definition in_cache (nm : string) : go fc bool := on_N (λ w, Ret (bool_decide (is_Some (w_dir w !! nm)), w)).
Definition values_of {A S} (m : outcome (A * S)) : outcome A :=
  match m with Ret (a, _) => Ret a | Panic => Panic | Blocked => Blocked end.
End runs.

Definition file (l : list Z) : gmap string (list byte) := {["f" := byte_of_z <$> l]}.

(** What is written and closed is in the container; after two rounds of the
    timeout the local copy is gone and the file is downloaded again. *)
Example evict_and_reopen :
  values_of (('(h, e1) ← create "f"; w ← write h 0 [1; 2; 3]; e2 ← close h; x ← in_container "f";
              _ ← on_policy clearCache_timeout; _ ← on_policy clearCache_timeout; b ← in_cache "/t/f";
              '(h, e3) ← open "f"; r ← read h 1 5; mret (e1, w, e2, x, b, e3, r)) (start (F := no_faults) plain ∅)) =
  Ret (None, (3, None), None, Some [1; 2; 3], false, None, [2; 3]).
Proof. vm_compute. reflexivity. Qed.

(** The eviction leaves an open file alone. *)
Example open_file_stays :
  values_of (('(h, _) ← open "f"; w ← write h 3 [4];
              _ ← on_policy clearCache_timeout; _ ← on_policy clearCache_timeout; b ← in_cache "/t/f";
              e ← close h; x ← in_container "f"; mret (b, e, x)) (start (F := no_faults) plain (file [1; 2; 3]))) =
  Ret (true, None, Some [1; 2; 3; 4]).
Proof. vm_compute. reflexivity. Qed.

(** With a refresh time, a second open of a file that is open and written
    downloads it again, because its size differs from the one in the container.
    The close of the first handle then uploads the downloaded copy and succeeds:
    what was written is lost. *)
Example refresh_loses_open_writes :
  values_of (('(h1, _) ← open "f"; w ← write h1 3 [4; 5]; _ ← sleep 2; '(h2, e2) ← open "f"; e ← close h1;
              x ← in_container "f"; mret (w, e2, e, x)) (start (F := no_faults) (conf 1 false 0%Q) (file [1; 2; 3]))) =
  Ret ((2, None), None, None, Some [1; 2; 3]).
Proof. vm_compute. reflexivity. Qed.

(** When the request for the attributes fails (other than by a refused
    access), OpenFile succeeds with an empty file; a write and close then
    replace the content in the container. *)
Example attr_error_opens_empty :
  values_of (('(h, e) ← open "f"; r ← read h 0 5; w ← write h 0 [9]; e2 ← close h; x ← in_container "f";
              mret (e, r, w, e2, x)) (start (F := mkFaults (Some (Errno EIO)) false (Some 0%Q)) plain (file [1; 2; 3]))) =
  Ret (None, [], (1, None), None, Some [9]).
Proof. vm_compute. reflexivity. Qed.

(** When the local file cannot be opened for the upload, flush and close
    return success and nothing is uploaded. *)
Example flush_without_upload :
  values_of (('(h, e) ← create "f"; w ← write h 0 [1; 2]; e1 ← flush h; e2 ← close h; x ← in_container "f";
              mret (e, w, e1, e2, x)) (start (F := mkFaults None true (Some 0%Q)) plain ∅)) =
  Ret (None, (2, None), None, None, None).
Proof. vm_compute. reflexivity. Qed.

(** An open that fails because the cache is full leaves an empty local file
    that counts as cached: the next open succeeds and serves it. *)
Example full_cache_serves_empty :
  values_of (('(_, e1) ← open "f"; '(h, e2) ← open "f"; r ← read h 0 5; mret (e1, e2, r))
    (start (F := no_faults) (conf 0 false 1%Q) (file [1; 2; 3; 4]))) =
  Ret (Some (Errno ENOSPC), None, []).
Proof. vm_compute. reflexivity. Qed.

(** The limit compares what du reports in megabytes with a mark in bytes: with
    a limit of one megabyte and a thousand in use, a write is accepted. *)
Example limit_not_enforced :
  values_of (('(h, _) ← create "f"; write h 0 [1])
    (start (F := mkFaults None false (Some 1000%Q)) (conf 0 false (1 * inject_Z fc_MB * 80 / 100)%Q) ∅)) =
  Ret (1, None).
Proof. vm_compute. reflexivity. Qed.

(** When empty files are made in the container, deleting a file that does not
    exist succeeds. *)
Example delete_missing_succeeds :
  values_of (fc_DeleteFile container (mkDeleteFileOptions "f") (start (F := no_faults) (conf 0 true 0%Q) ∅)) = Ret None ∧
  values_of (fc_DeleteFile container (mkDeleteFileOptions "f") (start (F := no_faults) plain ∅)) = Ret (Some (Errno ENOENT)).
Proof. by vm_compute. Qed.

(** Renaming a file to itself takes its lock twice. *)
Example rename_to_itself_blocks :
  values_of (fc_RenameFile container (mkRenameFileOptions "f" "f") (start (F := no_faults) plain (file [1]))) = Blocked.
Proof. by vm_compute. Qed.
End Runs.

(** ** A run of the refinement *)
Module Witness.
Import Runs.
Abbreviation W := (world no_faults).
Abbreviation fc := (FileCache (lruPolicy W)).

Lemma name_ok : lru_name_ok "/t" "f" "/t/f".
Proof. by split. Qed.
#[local] Instance lru_laws : PolicyLaws (lruPolicy W) W "f" "/t/f" := lru_PolicyLaws "/t" "f" "/t/f" name_ok.

Lemma start_ok files : lru_ok "/t" (lru_start (F := no_faults) (empty_world files)).
Proof.
  pose proof (wp_StartPolicy lru_cfg NewLockMap (empty_world (F := no_faults) files)) as H.
  unfold lru_start. unfold wp in H. destruct (StartPolicy _) as [[e p]| |]; simpl in *.
  - destruct H as (_ & Hok & _ & _ & Hc); [eauto|]. split; [by rewrite Hc|eauto].
  - destruct H. eauto.
  - destruct H. eauto.
Qed.

Definition s0 : fc := start plain (file [1; 2; 3]).
Lemma s0_represents : represents "f" "/t/f" (s0, None) (Closed (Some (byte_of_z <$> [1; 2; 3]))).
Proof.
  exists plain, (pol_next (fc_policy s0)), (pol_locks (fc_policy s0)). split_and!.
  - split; try done; [apply start_ok|apply Nat.le_0_l].
  - by split_and!.
  - by vm_compute.
Qed.

(** The state and the handle after a call. *)
Definition after (x : fc * option ptr) (op : fop) : fc * option ptr :=
  match exec container "f" x.2 op x.1 with Ret ((_, o), s) => (s, o) | _ => x end.
Definition tick (x : fc * option ptr) : fc * option ptr :=
  match asyncCacheValid_step (fc_policy x.1) with Ret (_, p) => (fc_set_policy p x.1, x.2) | _ => x end.
Definition x1 := after (s0, None) (OpOpen O_RDWR 420).
Definition x2 := after x1 (OpWrite 3 [byte_of_z 4]).
Definition x3 := after x2 OpFlush.
Definition x4 := tick x3.
Definition x5 := after x4 (OpRead 2 [zero_byte; zero_byte; zero_byte]).
Definition x6 := after x5 OpClose.

Definition events : list fevent :=
  [EOpen None; EWrite 3 [byte_of_z 4] 1 None; EFlush None; ETick;
   ERead 2 [zero_byte; zero_byte; zero_byte] [byte_of_z 3; byte_of_z 4; zero_byte] 2 None; EClose None].

Lemma call_step x op e :
  allowed "f" "/t/f" x.1 x.2 op → exec container "f" x.2 op x.1 = Ret ((e, (after x op).2), (after x op).1) →
  fc_step container "f" "/t/f" x e (after x op).
Proof. destruct x as [s o]. intros Ha He. destruct (after (s, o) op) as [s' o'] eqn:E. by econstructor. Qed.

Lemma container_denies : only_denied (N := world no_faults) "f" container.
Proof. intros e He. exact He. Qed.

Lemma run3 : fc_run container "f" "/t/f" (s0, None) (take 3 events) x3.
Proof.
  apply (fc_run_snoc _ _ _ _ [EOpen None; EWrite 3 [byte_of_z 4] 1 None] x2).
  - apply (fc_run_snoc _ _ _ _ [EOpen None] x1).
    + apply (fc_run_snoc _ _ _ _ [] (s0, None)); [constructor|]. apply call_step; [|by vm_compute].
      split; [vm_compute; lia|]. split; [by eexists|done].
    + apply call_step; [|by vm_compute]. split; [vm_compute; lia|]. by vm_compute.
  - apply call_step; [|by vm_compute]. split; [vm_compute; lia|]. vm_compute. lia.
Qed.

Lemma tick_step x a p :
  represents "f" "/t/f" x a → asyncCacheValid_step (fc_policy x.1) = Ret (tt, p) →
  fc_step container "f" "/t/f" x ETick (tick x).
Proof.
  intros (c & n & l & Hs & _) Ht. destruct x as [s o]. unfold tick. rewrite Ht. apply fc_background.
  split; [by do 3 right|]. by eapply lru_async_ok; [apply Hs|].
Qed.

Lemma run6 : fc_run container "f" "/t/f" (s0, None) events x6.
Proof.
  apply (fc_run_snoc _ _ _ _ (take 5 events) x5).
  - apply (fc_run_snoc _ _ _ _ (take 4 events) x4).
    + apply (fc_run_snoc _ _ _ _ (take 3 events) x3); [apply run3|].
      destruct (run_refines _ _ _ _ _ _ _ container_denies s0_represents run3) as (a & _ & Hr).
      assert (Ht : asyncCacheValid_step (fc_policy x3.1) = Ret (tt, fc_policy x4.1)) by (vm_compute; reflexivity).
      exact (tick_step x3 a _ Hr Ht).
    + apply call_step; [|by vm_compute]. split; [vm_compute; lia|]. by vm_compute.
  - apply call_step; [|by vm_compute]. split; [vm_compute; lia|]. vm_compute. lia.
Qed.

(** The attributes of the stored file. *)
Lemma GetAttr_agrees_witness :
  wp (fc_GetAttr container (mkGetAttrOptions "f" true)) (λ res s',
    represents "f" "/t/f" (s', None) (Closed (Some (byte_of_z <$> [1; 2; 3]))) ∧
    reports "f" container (pol_next (fc_policy s')) res (Some (byte_of_z <$> [1; 2; 3]))) s0.
Proof. apply (GetAttr_agrees container "f" "/t/f" s0 None _ true s0_represents). reflexivity. Defined.

(** Open, append, flush, a round of the policy, read back and close. *)
Lemma file_cache_refines_witness :
  (∃ a, file_run (Closed (Some (byte_of_z <$> [1; 2; 3]))) events a ∧
     match a with Closed st' | Opened _ st' => stored (pol_next (fc_policy x6.1)) !! "f" = st' end) ∧
  ∀ op, allowed "f" "/t/f" x6.1 x6.2 op → ∃ r, exec container "f" x6.2 op x6.1 = Ret r.
Proof.
  apply (file_cache_refines container "f" "/t/f" s0 _ events x6.1 x6.2 container_denies s0_represents).
  rewrite <-surjective_pairing. exact run6.
Defined.
End Witness.
