(* ===== verification/Libfuse.v ===== *)
(** * The libfuse component (src/component/libfuse)

    The top of the pipeline: libfuse calls one exported function per system call,
    and each turns the call into operations of the next component and its result
    into 0, a byte count or a negated errno.  libfuse.go is the configuration,
    libfuse_handler.go the callbacks for fuse3 and libfuse2_handler.go those for
    fuse2; native_file_io.h has the C functions that serve reads and writes of
    locally cached files without entering Go.

    The state is the component's own ([LfState]: settings, the global handle map,
    the native file objects and directory pages, which the program allocates) beside
    the state of the next component.  Logging and the statistics collector are
    left out; malloc succeeds. *)
From stdpp Require Import pretty.
From S2P Require Import Prelude GoLib Common HandleMap Internal AzUtils.

(** ** Settings (libfuse.go) *)
Record Libfuse := mkLibfuse {
  mountPath : string;
  dirPermission : Z;
  filePermission : Z;
  readOnly : bool;
  attributeExpiration : Z;
  entryExpiration : Z;
  negativeTimeout : Z;
  allowOther : bool;
  allowRoot : bool;
  ownerUID : Z;
  ownerGID : Z;
  traceEnable : bool;
  extensionPath : string;
  disableWritebackCache : bool;
  ignoreOpenFlags : bool;
  nonEmptyMount : bool;
  lsFlags : BitMap16;
  maxFuseThreads : Z;
  directIO : bool;
  umask : Z
}.
Definition zero_Libfuse : Libfuse :=
  mkLibfuse "" 0 0 false 0 0 0 false false 0 0 false "" false false false 0 0 false 0.

(** A page of the children of a directory. *)
Record dirChildCache := mkDirChildCache {
  sIndex : Z;
  eIndex : Z;
  dlength : Z;
  token : string;
  children : list ptr
}.

Record LibfuseOptions := mkLibfuseOptions {
  lfo_mountPath : string;
  lfo_DefaultPermission : Z;
  lfo_AttributeExpiration : Z;
  lfo_EntryExpiration : Z;
  lfo_NegativeEntryExpiration : Z;
  lfo_EnableFuseTrace : bool;
  lfo_allowOther : bool;
  lfo_allowRoot : bool;
  lfo_readOnly : bool;
  lfo_ExtensionPath : string;
  lfo_DisableWritebackCache : bool;
  lfo_IgnoreOpenFlags : bool;
  lfo_nonEmptyMount : bool;
  lfo_Uid : Z;
  lfo_Gid : Z;
  lfo_MaxFuseThreads : Z;
  lfo_DirectIO : bool;
  lfo_Umask : Z
}.

Definition defaultEntryExpiration : Z := 120.
Definition defaultAttrExpiration : Z := 120.
Definition defaultNegativeEntryExpiration : Z := 120.
Definition defaultMaxFuseThreads : Z := 128.
(** The permission constants of src/common/types.go: 0775, 0755 and 0777. *)
Definition DefaultDirectoryPermissionBits : FileMode := 509.
Definition DefaultFilePermissionBits : FileMode := 493.
Definition DefaultAllowOtherPermissionBits : FileMode := 511.
Definition lf_MaxDirListCount : Z := 5000.

Definition ignoreFiles : gmap string bool :=
  {[ ".Trash" := true; ".Trash-1000" := true; ".xdg-volume-info" := true;
     "autorun.inf" := true ]}.

Definition with_lsFlags (fl : BitMap16) (c : Libfuse) : Libfuse :=
  mkLibfuse (mountPath c) (dirPermission c) (filePermission c) (readOnly c) (attributeExpiration c)
    (entryExpiration c) (negativeTimeout c) (allowOther c) (allowRoot c) (ownerUID c) (ownerGID c)
    (traceEnable c) (extensionPath c) (disableWritebackCache c) (ignoreOpenFlags c) (nonEmptyMount c)
    fl (maxFuseThreads c) (directIO c) (umask c).

(** Validate.  [isSet] is config.IsSet, [currentUser] common.GetCurrentUser.  When
    the user cannot be found, the ids are what GetCurrentUser returned and the
    number of threads keeps its old value. *)
Definition lf_Validate (isSet : string → bool) (currentUser : Z * Z * option error)
    (opt : LibfuseOptions) (c : Libfuse) : Libfuse * option error :=
  let '(dp, fp) :=
    if lfo_allowOther opt then (DefaultAllowOtherPermissionBits, DefaultAllowOtherPermissionBits)
    else if negb (lfo_DefaultPermission opt =? 0)
    then (lfo_DefaultPermission opt, lfo_DefaultPermission opt)
    else (DefaultDirectoryPermissionBits, DefaultFilePermissionBits) in
  let entry :=
    if isSet "libfuse.entry-expiration-sec" || isSet "lfuse.entry-expiration-sec"
    then lfo_EntryExpiration opt else defaultEntryExpiration in
  let attr :=
    if isSet "libfuse.attribute-expiration-sec" || isSet "lfuse.attribute-expiration-sec"
    then lfo_AttributeExpiration opt else defaultAttrExpiration in
  let negative :=
    if isSet "libfuse.negative-entry-expiration-sec" || isSet "lfuse.negative-entry-expiration-sec"
    then lfo_NegativeEntryExpiration opt else defaultNegativeEntryExpiration in
  let owned := isSet "libfuse.uid" || isSet "libfuse.gid" || isSet "lfuse.uid" || isSet "lfuse.gid" in
  let '(curUID, curGID, err) := currentUser in
  let uid := if owned then lfo_Uid opt else curUID in
  let gid := if owned then lfo_Gid opt else curGID in
  let threads :=
    if negb owned && bool_decide (err ≠ None) then maxFuseThreads c
    else if isSet "libfuse.max-fuse-threads" then lfo_MaxFuseThreads opt
    else defaultMaxFuseThreads in
  (mkLibfuse (lfo_mountPath opt) dp fp (lfo_readOnly opt) attr entry negative
     (lfo_allowOther opt) (lfo_allowRoot opt) uid gid (lfo_EnableFuseTrace opt)
     (lfo_ExtensionPath opt) (lfo_DisableWritebackCache opt) (lfo_IgnoreOpenFlags opt)
     (lfo_nonEmptyMount opt) (lsFlags c) threads (lfo_DirectIO opt) (lfo_Umask opt), None).

(** [LibfuseOptions{IgnoreOpenFlags: true}] *)
Definition init_LibfuseOptions : LibfuseOptions :=
  mkLibfuseOptions "" 0 0 0 0 false false false false "" false true false 0 0 0 false 0.

Section configure.
(** config.UnmarshalKey of a section of the configuration, of a string and of a
    Boolean: the value read into the variable, whose old value is the last
    argument, or an error. *)
Context (unmarshal_options : string → LibfuseOptions → LibfuseOptions + error)
  (unmarshal_string : string → string → string + error)
  (unmarshal_bool : string → bool → bool + error)
  (isSet : string → bool) (currentUser : Z * Z * option error).

(** The five settings of the mount command that Configure stores in the options. *)
Definition with_mount (path : string) (ro other root nonempty : bool) (o : LibfuseOptions) : LibfuseOptions :=
  mkLibfuseOptions path (lfo_DefaultPermission o) (lfo_AttributeExpiration o) (lfo_EntryExpiration o)
    (lfo_NegativeEntryExpiration o) (lfo_EnableFuseTrace o) other root ro (lfo_ExtensionPath o)
    (lfo_DisableWritebackCache o) (lfo_IgnoreOpenFlags o) nonempty (lfo_Uid o) (lfo_Gid o)
    (lfo_MaxFuseThreads o) (lfo_DirectIO o) (lfo_Umask o).

Definition lf_Configure (c : Libfuse) : Libfuse * option error :=
  match unmarshal_options "libfuse" init_LibfuseOptions with
  | inr _ => (c, Some (Msg "config error in libfuse [invalid config attributes]"))
  | inl conf =>
  match unmarshal_options "lfuse" conf with
  | inr _ => (c, Some (Msg "config error in lfuse [invalid config attributes]"))
  | inl conf =>
  match unmarshal_string "mount-path" (lfo_mountPath conf) with
  | inr e => (c, Some e)
  | inl path =>
  match unmarshal_bool "read-only" (lfo_readOnly conf) with
  | inr e => (c, Some e)
  | inl ro =>
  match unmarshal_bool "allow-other" (lfo_allowOther conf) with
  | inr e => (c, Some e)
  | inl other =>
  match unmarshal_bool "allow-root" (lfo_allowRoot conf) with
  | inr e => (c, Some e)
  | inl root =>
  match unmarshal_bool "nonempty" (lfo_nonEmptyMount conf) with
  | inr e => (c, Some e)
  | inl nonempty =>
      let '(c, err) := lf_Validate isSet currentUser (with_mount path ro other root nonempty conf) c in
      match err with
      | Some _ => (c, Some (Msg "libfuse config error"))
      | None => (c, None)
      end
  end end end end end end end.
End configure.

(** ** Types of the C library *)
Record stat_t := mkStat {
  st_uid : Z;
  st_gid : Z;
  st_nlink : Z;
  st_size : Z;
  st_mode : Z;
  st_atim : Z * Z;
  st_ctim : Z * Z;
  st_mtim : Z * Z
}.
Record statvfs_t := mkStatvfs {
  f_bsize : Z;
  f_frsize : Z;
  f_blocks : Z;
  f_bavail : Z;
  f_bfree : Z;
  f_files : Z;
  f_ffree : Z;
  f_flag : Z
}.
Record fuse_file_info_t := mkFileInfo {
  fi_flags : Z;
  fi_fh : ptr
}.
Definition fi_with_fh (p : ptr) (fi : fuse_file_info_t) : fuse_file_info_t := mkFileInfo (fi_flags fi) p.
Definition fi_with_flags (f : Z) (fi : fuse_file_info_t) : fuse_file_info_t := mkFileInfo f (fi_fh fi).

Record fuse_conn_info_t := mkConn {
  capable : Z;
  want : Z;
  max_background : Z;
  max_readahead : Z;
  max_read : Z;
  max_write : Z
}.
Record fuse_options_t := mkFuseOptions {
  fo_mount_path : string;
  fo_uid : Z;
  fo_gid : Z;
  fo_permissions : Z;
  fo_entry_expiry : Z;
  fo_attr_expiry : Z;
  fo_negative_expiry : Z;
  fo_readonly : bool;
  fo_allow_other : bool;
  fo_allow_root : bool;
  fo_trace_enable : bool;
  fo_non_empty : bool;
  fo_umask : Z
}.
(** native_file_io.h *)
Record file_handle_t := mkFileHandle {
  fh_fd : Z;
  fh_obj : ptr;
  fh_cnt : Z;
  fh_dirty : Z
}.

(** Constants of the C headers (Linux). *)
Definition c_ENOENT : Z := 2.
Definition c_EIO : Z := 5.
Definition c_EACCES : Z := 13.
Definition c_EEXIST : Z := 17.
Definition c_ENOTDIR : Z := 20.
Definition c_EISDIR : Z := 21.
Definition c_EINVAL : Z := 22.
Definition c_ENOTEMPTY : Z := 39.
Definition c_ENOTSUP : Z := 95.
Definition S_IFREG : Z := 32768.
Definition S_IFDIR : Z := 16384.
Definition S_IFLNK : Z := 40960.
Definition c_O_SYNC : Z := 1052672.
Definition c_O_DIRECT : Z := 16384.
Definition c_O_APPEND : Z := 1024.
Definition c_O_ACCMODE : Z := 3.
Definition RENAME_NOREPLACE : Z := 1.
Definition RENAME_EXCHANGE : Z := 2.
Definition FUSE_CAP_ASYNC_READ : Z := 2 ^ 0.
Definition FUSE_CAP_BIG_WRITES : Z := 2 ^ 5.
Definition FUSE_CAP_SPLICE_WRITE : Z := 2 ^ 7.
Definition FUSE_CAP_AUTO_INVAL_DATA : Z := 2 ^ 12.
Definition FUSE_CAP_READDIRPLUS : Z := 2 ^ 13.
Definition FUSE_CAP_WRITEBACK_CACHE : Z := 2 ^ 16.
Definition FUSE_CAP_PARALLEL_DIROPS : Z := 2 ^ 18.
(** The size of [[1 << 30]byte], the array type a C buffer is cast to. *)
Definition c_array_size : Z := 2 ^ 30.

(** [time.Time.Unix]: seconds since 1970; the zero Time is in the year 1. *)
Definition unix_seconds (t : Time) : Z := t / nanos_per_sec - 62135596800.

(** ** The state of the component *)
Record LfState := mkLfState {
  lf_conf : Libfuse;                  (* fuseFS *)
  lf_handles : gmap Z ptr;            (* defaultHandleMap *)
  lf_nextID : Z;                      (* nextHandleID *)
  lf_native : gmap ptr file_handle_t; (* allocated native file objects *)
  lf_dirs : gmap ptr dirChildCache;   (* allocated directory pages *)
  lf_context : option (Z * Z);        (* uid and gid of the fuse context, once read *)
  lf_used : list string               (* FileUsed calls spawned and not yet run *)
}.
Definition init_LfState (c : Libfuse) : LfState := mkLfState c ∅ 0 ∅ ∅ None [].

Definition lf_with_handles (m : gmap Z ptr) (id : Z) (s : LfState) : LfState :=
  mkLfState (lf_conf s) m id (lf_native s) (lf_dirs s) (lf_context s) (lf_used s).
Definition lf_with_native (m : gmap ptr file_handle_t) (s : LfState) : LfState :=
  mkLfState (lf_conf s) (lf_handles s) (lf_nextID s) m (lf_dirs s) (lf_context s) (lf_used s).
Definition lf_with_dirs (m : gmap ptr dirChildCache) (s : LfState) : LfState :=
  mkLfState (lf_conf s) (lf_handles s) (lf_nextID s) (lf_native s) m (lf_context s) (lf_used s).
Definition lf_with_context (c : option (Z * Z)) (s : LfState) : LfState :=
  mkLfState (lf_conf s) (lf_handles s) (lf_nextID s) (lf_native s) (lf_dirs s) c (lf_used s).
Definition lf_with_used (l : list string) (s : LfState) : LfState :=
  mkLfState (lf_conf s) (lf_handles s) (lf_nextID s) (lf_native s) (lf_dirs s) (lf_context s) l.

(** The system calls and the fuse context the C code uses.  [inr] is the errno of
    a call that returned -1; pread gives the bytes it read. *)
Class FuseOS (N : Type) := {
  os_pread : Z → Z → Z → go N (list byte + Z);
  os_pwrite : Z → list byte → Z → go N (Z + Z);
  os_statvfs : string → go N (statvfs_t + Z);
  os_time : go N Z;
  os_fuse_context : go N (Z * Z)
}.

(** ** Pure helpers of the handlers *)

(** A path is a C string, [None] for NULL. *)
Definition trimFusePath (path : option string) : string :=
  match path with
  | None => ""
  | Some (String _ str) => str
  | Some EmptyString => ""
  end.
(** [name := trimFusePath(path); name = common.NormalizeObjectName(name)] *)
Definition fuse_name (path : option string) : string := NormalizeObjectName (trimFusePath path).

Definition convertConfig (c : Libfuse) : fuse_options_t :=
  mkFuseOptions (mountPath c) (u32 (ownerUID c)) (u32 (ownerGID c)) (u32 (filePermission c))
    (i32 (entryExpiration c)) (i32 (attributeExpiration c)) (i32 (negativeTimeout c))
    (readOnly c) (allowOther c) (allowRoot c) (traceEnable c) false (i32 (umask c)).

(** [fmt.Sprintf("%04d", n)] *)
Definition format_04d (n : Z) : string :=
  let digits := pretty (Z.abs n) in
  let width := if n <? 0 then 3%nat else 4%nat in
  (if n <? 0 then "-" else "") +:+
  String.concat "" (replicate (width - String.length digits) "0") +:+ digits.

(** The options string of populateFuseArgs. *)
Definition fuse_options_string (opts : fuse_options_t) (directIO : bool) : string :=
  "entry_timeout=" +:+ pretty (fo_entry_expiry opts) +:+
  ",attr_timeout=" +:+ pretty (fo_attr_expiry opts) +:+
  ",negative_timeout=" +:+ pretty (fo_negative_expiry opts) +:+
  (if fo_allow_other opts then ",allow_other" else "") +:+
  (if fo_allow_root opts then ",allow_root" else "") +:+
  (if fo_readonly opts then ",ro" else "") +:+
  (if negb (fo_umask opts =? 0) then ",umask=" +:+ format_04d (fo_umask opts) else "") +:+
  ",max_read=1048576" +:+
  (if negb directIO then ",kernel_cache" else "").

(** The arguments added one by one by populateFuseArgs. *)
Definition fuse_arguments (opts : fuse_options_t) (options : string) : list string :=
  ["blobfuse2"; fo_mount_path opts; "-o"; options; "-f"; "-ofsname=blobfuse2"] ++
  (if fo_trace_enable opts then ["-d"] else []).

(** fillStat: every field is overwritten. *)
Definition fillStat (c : Libfuse) (attr : ObjAttr) : stat_t :=
  let mode :=
    if negb (IsModeDefault attr) then Z.land (u32 (Mode attr)) 4294967295
    else if IsDir attr then Z.land (u32 (dirPermission c)) 4294967295
    else Z.land (u32 (filePermission c)) 4294967295 in
  let '(nlink, size, mode) :=
    if IsDir attr then (2, 4096, Z.lor mode S_IFDIR)
    else if IsSymlink attr then (1, i64 (Size attr), Z.lor mode S_IFLNK)
    else (1, i64 (Size attr), Z.lor mode S_IFREG) in
  mkStat (u32 (ownerUID c)) (u32 (ownerGID c)) nlink size mode
    (unix_seconds (Atime attr), 0) (unix_seconds (Ctime attr), 0) (unix_seconds (Mtime attr), 0).

(** [conn.want |= cap] when the kernel has the capability and [allowed]. *)
Definition want_cap (allowed : bool) (cap : Z) (conn : fuse_conn_info_t) : fuse_conn_info_t :=
  if allowed && negb (Z.land (capable conn) cap =? 0)
  then mkConn (capable conn) (Z.lor (want conn) cap) (max_background conn) (max_readahead conn)
         (max_read conn) (max_write conn)
  else conn.

(** How the handlers turn an error into a result: by comparison with the bare
    errno, by os.IsNotExist and os.IsPermission, or by os.IsNotExist only. *)
Definition code_exact (err : option error) : Z :=
  if err_is err (Errno ENOENT) then - c_ENOENT
  else if err_is err (Errno EACCES) then - c_EACCES else - c_EIO.
Definition code_os (err : option error) : Z :=
  if os_IsNotExist err then - c_ENOENT
  else if os_IsPermission err then - c_EACCES else - c_EIO.
Definition code_noent (err : option error) : Z :=
  if os_IsNotExist err then - c_ENOENT else - c_EIO.

Section handlers.
Context {N : Type} `{!Runtime N} `{!FuseOS N} (next : Component N).
#[local] Abbreviation lf := (LfState * N)%type.

(** *** Access to the state *)
Definition conf_ : go lf Libfuse := go_gets (λ s, lf_conf s.1).
Definition set_lf (f : LfState → LfState) : go lf unit := go_modify (λ s, (f s.1, s.2)).
Definition get_handle (p : ptr) : go lf Handle := go_snd (load_handle p).
Definition upd_handle (p : ptr) (f : Handle → Handle) : go lf unit := go_snd (λ n,
  match rt_handles n !! p with
  | Some h => Ret (tt, rt_set_handles (<[p:=f h]> (rt_handles n)) n)
  | None => Panic
  end).
Definition new_handle (h : Handle) : go lf ptr := go_snd (λ n,
  let p := fresh_ptr (rt_handles n) in
  Ret (p, rt_set_handles (<[p:=h]> (rt_handles n)) n)).

(** handlemap.Add and handlemap.Delete on the global map. *)
Definition on_handle_map {A} (m : go HandleMap A) : go lf A :=
  go_zoom (λ s, mkHandleMap (lf_handles s.1) (lf_nextID s.1) (rt_handles s.2))
    (λ hm s, (lf_with_handles (defaultHandleMap hm) (nextHandleID hm) s.1,
              rt_set_handles (handles hm) s.2)) m.
Definition handlemap_Add (p : ptr) : go lf Z := on_handle_map (Add p).
Definition handlemap_Delete (id : Z) : go lf unit :=
  set_lf (λ s, lf_with_handles (delete id (lf_handles s)) (lf_nextID s) s).

(** *** native_file_io.h *)
Definition get_native (f : ptr) : go lf file_handle_t := λ s, go_deref (lf_native s.1 !! f) s.
Definition upd_native (f : ptr) (g : file_handle_t → file_handle_t) : go lf unit :=
  x ← get_native f; set_lf (λ s, lf_with_native (<[f:=g x]> (lf_native s)) s).
Definition allocate_native_file_object (fd : Z) (obj : ptr) : go lf ptr := λ s,
  let f := fresh_ptr (lf_native s.1) in
  Ret (f, (lf_with_native (<[f:=mkFileHandle (u64 fd) obj 0 0]> (lf_native s.1)) s.1, s.2)).
Definition release_native_file_object (fi : fuse_file_info_t) : go lf unit :=
  set_lf (λ s, lf_with_native (delete (fi_fh fi) (lf_native s)) s).

(** *** Directory pages *)
Definition new_dir_cache (d : dirChildCache) : go lf ptr := λ s,
  let p := fresh_ptr (lf_dirs s.1) in
  Ret (p, (lf_with_dirs (<[p:=d]> (lf_dirs s.1)) s.1, s.2)).
Definition get_dir_cache (p : ptr) : go lf dirChildCache := λ s, go_deref (lf_dirs s.1 !! p) s.
Definition set_dir_cache (p : ptr) (d : dirChildCache) : go lf unit :=
  set_lf (λ s, lf_with_dirs (<[p:=d]> (lf_dirs s)) s).

(** *** libfuse_wrapper.h *)
Definition populate_uid_gid : go lf (Z * Z) :=
  c ← go_gets (λ s : lf, lf_context s.1);
  match c with
  | Some ids => mret ids
  | None =>
      ids ← go_snd os_fuse_context;
      _ ← set_lf (lf_with_context (Some ids));
      mret ids
  end.

Definition get_root_properties (stbuf : stat_t) : go lf (Z * stat_t) :=
  '(uid, gid) ← populate_uid_gid;
  t ← go_snd os_time;
  mret (0, mkStat uid gid 2 4096 (Z.lor S_IFDIR 511)
             (t, (st_atim stbuf).2) (t, (st_ctim stbuf).2) (t, (st_mtim stbuf).2)).

(** The result of statvfs is not looked at by the callers. *)
Definition populate_statfs (buf : statvfs_t) : go lf statvfs_t :=
  r ← go_snd (os_statvfs "/");
  mret (match r with inl st => st | inr _ => buf end).

(** *** Life cycle *)

(** libfuse_init; the second result is cfg.direct_io. *)
Definition libfuse_init (conn : fuse_conn_info_t) (direct_io : Z) : go lf (fuse_conn_info_t * Z) :=
  _ ← populate_uid_gid;
  c ← conf_;
  let conn := want_cap true FUSE_CAP_PARALLEL_DIROPS conn in
  let conn := want_cap true FUSE_CAP_AUTO_INVAL_DATA conn in
  let conn := want_cap true FUSE_CAP_READDIRPLUS conn in
  let conn := want_cap true FUSE_CAP_ASYNC_READ conn in
  let conn := want_cap true FUSE_CAP_SPLICE_WRITE conn in
  let conn := want_cap (negb (directIO c) && negb (disableWritebackCache c)) FUSE_CAP_WRITEBACK_CACHE conn in
  mret (mkConn (capable conn) (want conn) (u32 (maxFuseThreads c)) (4 * 1024 * 1024)
          (1 * 1024 * 1024) (1 * 1024 * 1024),
        if directIO c then 1 else direct_io).

Definition libfuse_destroy : go lf unit := mret tt.
Definition destroyFuse : go lf (option error) := mret None.

(** *** Attributes and directories *)
Definition libfuse_getattr (path : option string) (stbuf : stat_t) : go lf (Z * stat_t) :=
  let name := fuse_name path in
  if bool_decide (name = "") then get_root_properties stbuf
  else if default false (ignoreFiles !! name) then mret (- c_ENOENT, stbuf)
  else
    '(attr, err) ← go_snd (c_GetAttr next (mkGetAttrOptions name false));
    if bool_decide (err ≠ None) then mret (code_exact err, stbuf)
    else
      c ← conf_;
      a ← go_snd (load_obj attr);
      mret (0, fillStat c a).

Definition libfuse_mkdir (path : option string) (mode : Z) : go lf Z :=
  let name := fuse_name path in
  err ← go_snd (c_CreateDir next (mkCreateDirOptions name (Z.land (u32 mode) 4294967295)));
  if bool_decide (err ≠ None)
  then mret (if os_IsPermission err then - c_EACCES
             else if os_IsExist err then - c_EEXIST else - c_EIO)
  else mret 0.

Definition libfuse_opendir (path : option string) (fi : fuse_file_info_t) : go lf (Z * fuse_file_info_t) :=
  let name := fuse_name path in
  let name := if bool_decide (name ≠ "") then name +:+ "/" else name in
  handle ← new_handle (NewHandle name);
  c ← new_dir_cache (mkDirChildCache 0 0 0 "" []);
  _ ← upd_handle handle (SetValue "cache" (VDirCache c));
  _ ← handlemap_Add handle;
  mret (0, fi_with_fh handle fi).

Definition libfuse_releasedir (path : option string) (fi : fuse_file_info_t) : go lf Z :=
  let handle := fi_fh fi in
  _ ← upd_handle handle Cleanup;
  h ← get_handle handle;
  _ ← handlemap_Delete (hID h);
  mret 0.

(** The loop of readdir.  [filler buf name stbuf off] is the callback of libfuse:
    its result and the buffer after it.  [n] is the number of rounds left. *)
Section filler.
Context {B : Type} (filler : B → string → stat_t → Z → Z * B).

Fixpoint fill_entries (n : nat) (c : Libfuse) (childs : list ptr) (segmentIdx : Z) (idx : Z) (buf : B)
    : go lf B :=
  match n with
  | O => mret buf
  | S n =>
      child ← go_deref (childs !! Z.to_nat segmentIdx);
      a ← go_snd (load_obj child);
      let '(full, buf) := filler buf (Name a) (fillStat c a) (i64 (idx + 1)) in
      if negb (full =? 0) then mret buf
      else fill_entries n c childs (segmentIdx + 1) (i64 (idx + 1)) buf
  end.

(** The body of libfuse_readdir and of libfuse2_readdir in its two halves: fetch the
    next page when the offset asks for it, then fill the buffer from the page.
    [dots c] are the entries put before the children when the listing starts. *)
Definition refill_page (dots : Libfuse → list ObjAttr) (cp : ptr) (path : string) (off_64 : Z)
    : go lf (option error) :=
  cacheInfo ← get_dir_cache cp;
  if (off_64 =? 0) || ((eIndex cacheInfo <=? off_64) && bool_decide (token cacheInfo ≠ "")) then
    '(attrs, tok, err) ← go_snd (c_StreamDir next
       (mkStreamDirOptions path off_64 (token cacheInfo) lf_MaxDirListCount));
    if bool_decide (err ≠ None) then mret err
    else
      c ← conf_;
      first ← (if off_64 =? 0 then go_snd (mapM new_obj (dots c)) else mret []);
      let attrs := first ++ attrs in
      let len := Z.of_nat (length attrs) in
      _ ← set_dir_cache cp (mkDirChildCache off_64 (u64 (off_64 + len)) len tok attrs);
      mret None
  else mret None.

Definition serve_page (cp : ptr) (buf : B) (off : Z) (off_64 : Z) : go lf (Z * B) :=
  cacheInfo ← get_dir_cache cp;
  if eIndex cacheInfo <=? off_64 then mret (0, buf)
  else
    c ← conf_;
    let start := u64 (off_64 - sIndex cacheInfo) in
    buf ← fill_entries (Z.to_nat (dlength cacheInfo - start)) c (children cacheInfo) start off buf;
    mret (0, buf).

Definition readdir (dots : Libfuse → list ObjAttr) (buf : B) (off : Z) (fi : fuse_file_info_t)
    : go lf (Z * B) :=
  let handle := fi_fh fi in
  h ← get_handle handle;
  match GetValue "cache" h with
  | None => mret (- c_EIO, buf)
  | Some (VDirCache cp) =>
      let off_64 := u64 off in
      err ← refill_page dots cp (hPath h) off_64;
      if bool_decide (err ≠ None) then mret (code_os err, buf) else serve_page cp buf off off_64
  | Some _ => go_panic
  end.

Definition libfuse_readdir (path : option string) (buf : B) (off : Z) (fi : fuse_file_info_t)
    : go lf (Z * B) := readdir (λ _, []) buf off fi.
End filler.

Definition libfuse_rmdir (path : option string) : go lf Z :=
  let name := fuse_name path in
  empty ← go_snd (c_IsDirEmpty next (mkIsDirEmptyOptions name));
  if negb empty then mret (- c_ENOTEMPTY)
  else
    err ← go_snd (c_DeleteDir next (mkDeleteDirOptions name));
    if bool_decide (err ≠ None) then mret (code_noent err) else mret 0.

Definition libfuse_statfs (path : option string) (buf : statvfs_t) : go lf (Z * statvfs_t) :=
  r ← go_snd (c_StatFs next tt);
  let '(attr, populated, err) := r : option Statfs_t * bool * option error in
  if bool_decide (err ≠ None) then mret (- c_EIO, buf)
  else if populated then
    a ← go_deref attr;
    mret (0, mkStatvfs (u64 (Bsize a)) (u64 (Frsize a)) (u64 (Blocks a)) (u64 (Bavail a))
               (u64 (Bfree a)) (u64 (Files a)) (u64 (Ffree a)) (u64 (statfs_Flags a)))
  else buf ← populate_statfs buf; mret (0, buf).

(** *** Files *)

(** The end of create and open: register the handle and make the native object. *)
Definition register_file (fd : Z) (handle : ptr) (fi : fuse_file_info_t) : go lf (Z * fuse_file_info_t) :=
  _ ← handlemap_Add handle;
  ret_val ← allocate_native_file_object fd handle;
  h ← get_handle handle;
  _ ← (if negb (Cached h)
       then upd_native ret_val (λ f, mkFileHandle 0 (fh_obj f) (fh_cnt f) (fh_dirty f)) else mret tt);
  mret (0, fi_with_fh ret_val fi).

Definition libfuse_create (path : option string) (mode : Z) (fi : fuse_file_info_t)
    : go lf (Z * fuse_file_info_t) :=
  let name := fuse_name path in
  '(handle, err) ← go_snd (c_CreateFile next (mkCreateFileOptions name (Z.land (u32 mode) 4294967295)));
  if bool_decide (err ≠ None)
  then mret (if os_IsExist err then - c_EEXIST else - c_EIO, fi)
  else register_file 0 handle fi.

(** The masking of O_SYNC and O_DIRECT. *)
Definition mask_open_flags (flags : Z) : Z :=
  if negb (Z.land flags c_O_SYNC =? 0) || negb (Z.land flags c_O_DIRECT =? 0)
  then Z.ldiff (Z.ldiff flags c_O_SYNC) c_O_DIRECT else flags.
(** The flags the kernel's write-back cache cannot serve, or EINVAL. *)
Definition writeback_open_flags (c : Libfuse) (flags : Z) : option Z :=
  if negb (disableWritebackCache c) then
    if (Z.land flags c_O_ACCMODE =? O_WRONLY) || negb (Z.land flags c_O_APPEND =? 0) then
      if ignoreOpenFlags c
      then Some (Z.lor (Z.ldiff flags (Z.lor c_O_APPEND c_O_ACCMODE)) O_RDWR)
      else None
    else Some flags
  else Some flags.

(** OpenFile of the next component and what follows it. *)
Definition open_file (name : string) (fi : fuse_file_info_t) : go lf (Z * fuse_file_info_t) :=
  c ← conf_;
  '(handle, err) ← go_snd (c_OpenFile next
     (mkOpenFileOptions name (Z.land (fi_flags fi) 4294967295) (u32 (filePermission c))));
  if bool_decide (err ≠ None) then mret (code_os err, fi)
  else
    h ← get_handle handle;
    register_file (UnixFD h) handle fi.

Definition libfuse_open (path : option string) (fi : fuse_file_info_t) : go lf (Z * fuse_file_info_t) :=
  let name := fuse_name path in
  let fi := fi_with_flags (mask_open_flags (fi_flags fi)) fi in
  c ← conf_;
  match writeback_open_flags c (fi_flags fi) with
  | None => mret (- c_EINVAL, fi)
  | Some flags => open_file name (fi_with_flags flags fi)
  end.

(** [handle := ...fileHandle.obj] *)
Definition file_of (fi : fuse_file_info_t) : go lf (file_handle_t * ptr) :=
  f ← get_native (fi_fh fi); mret (f, fh_obj f).

(** [buf] is the memory from the buffer's address on; [data[:size]] panics beyond
    the size of the array type. *)
Definition libfuse_read (path : option string) (buf : list byte) (size off : Z) (fi : fuse_file_info_t)
    : go lf (Z * list byte) :=
  '(f, handle) ← file_of fi;
  let offset := i64 (u64 off) in
  h ← get_handle handle;
  if c_array_size <? size then go_panic
  else
    let data := take (Z.to_nat size) buf in
    '(data', bytesRead, err) ← (if Cached h then
         r ← go_snd (os_pread (FD h) size offset);
         match r with
         | inl d => mret (d ++ drop (length d) data, Z.of_nat (length d), None)
         | inr _ => mret (data, -1, Some (Errno EIO))
         end
       else go_snd (c_ReadInBuffer next (mkReadInBufferOptions handle offset data)));
    let buf := data' ++ drop (Z.to_nat size) buf in
    let err := if err_is err Eof then None else err in
    if bool_decide (err ≠ None) then mret (- c_EIO, buf) else mret (i32 bytesRead, buf).

Definition libfuse_write (path : option string) (buf : list byte) (size off : Z) (fi : fuse_file_info_t)
    : go lf Z :=
  '(f, handle) ← file_of fi;
  let offset := i64 (u64 off) in
  if c_array_size <? size then go_panic
  else
    '(bytesWritten, err) ← go_snd (c_WriteFile next
       (mkWriteFileOptions handle offset (take (Z.to_nat size) buf) ∅));
    if bool_decide (err ≠ None) then mret (- c_EIO) else mret (i32 bytesWritten).

(** [if fileHandle.dirty != 0 { handle.Flags.Set(HandleFlagDirty) }] *)
Definition propagate_dirty (f : file_handle_t) (handle : ptr) : go lf unit :=
  if negb (fh_dirty f =? 0)
  then upd_handle handle (λ h, handle_with_flags (Set_ (hFlags h) HandleFlagDirty) h)
  else mret tt.

Definition libfuse_flush (path : option string) (fi : fuse_file_info_t) : go lf Z :=
  '(f, handle) ← file_of fi;
  _ ← propagate_dirty f handle;
  h ← get_handle handle;
  if negb (handle_Dirty h) then mret 0
  else
    err ← go_snd (c_FlushFile next (mkFlushFileOptions handle));
    if bool_decide (err ≠ None) then mret (code_exact err) else mret 0.

Definition libfuse_truncate (path : option string) (off : Z) : go lf Z :=
  let name := fuse_name path in
  err ← go_snd (c_TruncateFile next (mkTruncateFileOptions name (i64 off)));
  if bool_decide (err ≠ None) then mret (code_noent err) else mret 0.

Definition libfuse_release (path : option string) (fi : fuse_file_info_t) : go lf Z :=
  '(f, handle) ← file_of fi;
  _ ← propagate_dirty f handle;
  err ← go_snd (c_CloseFile next (mkCloseFileOptions handle));
  if bool_decide (err ≠ None) then mret (code_exact err)
  else
    h ← get_handle handle;
    _ ← handlemap_Delete (hID h);
    _ ← release_native_file_object fi;
    mret 0.

Definition libfuse_unlink (path : option string) : go lf Z :=
  let name := fuse_name path in
  err ← go_snd (c_DeleteFile next (mkDeleteFileOptions name));
  if bool_decide (err ≠ None) then mret (code_os err) else mret 0.

(** *** Rename *)

(** The end of rename, once source and destination are known to be compatible. *)
Definition rename_entry (srcIsDir dstExists : bool) (srcPath dstPath : string) : go lf Z :=
  if srcIsDir then
    empty ← (if dstExists then go_snd (c_IsDirEmpty next (mkIsDirEmptyOptions dstPath)) else mret true);
    if negb empty then mret (- c_ENOTEMPTY)
    else
      err ← go_snd (c_RenameDir next (mkRenameDirOptions srcPath dstPath));
      if bool_decide (err ≠ None) then mret (- c_EIO) else mret 0
  else
    err ← go_snd (c_RenameFile next (mkRenameFileOptions srcPath dstPath));
    if bool_decide (err ≠ None) then mret (- c_EIO) else mret 0.

(** [attr.IsDir()] *)
Definition attr_is_dir (p : ptr) : go lf bool := a ← go_snd (load_obj p); mret (IsDir a).

(** The conditions EISDIR and ENOTDIR, each [dstExists && ... && ...]. *)
Definition dst_dir_src_not (dstExists : bool) (dstAttr srcAttr : ptr) : go lf bool :=
  if dstExists then
    d ← attr_is_dir dstAttr;
    if (d : bool) then s ← attr_is_dir srcAttr; mret (negb s) else mret false
  else mret false.
Definition dst_file_src_dir (dstExists : bool) (dstAttr srcAttr : ptr) : go lf bool :=
  if dstExists then
    d ← attr_is_dir dstAttr;
    if negb d then attr_is_dir srcAttr else mret false
  else mret false.
Definition rename_compatible (dstExists : bool) (dstAttr srcAttr : ptr) (srcPath dstPath : string)
    : go lf Z :=
  eisdir ← dst_dir_src_not dstExists dstAttr srcAttr;
  if (eisdir : bool) then mret (- c_EISDIR)
  else
    enotdir ← dst_file_src_dir dstExists dstAttr srcAttr;
    if (enotdir : bool) then mret (- c_ENOTDIR)
    else
      s ← attr_is_dir srcAttr;
      rename_entry s dstExists srcPath dstPath.

Definition libfuse_rename (src dst : option string) (flags : Z) : go lf Z :=
  let srcPath := fuse_name src in
  let dstPath := fuse_name dst in
  if negb (Z.land flags RENAME_EXCHANGE =? 0) then mret (- c_ENOTSUP)
  else if bool_decide (srcPath = "") || bool_decide (dstPath = "") then mret (- c_ENOENT)
  else
    '(srcAttr, srcErr) ← go_snd (c_GetAttr next (mkGetAttrOptions srcPath false));
    if os_IsNotExist srcErr then mret (- c_ENOENT)
    else
      '(dstAttr, dstErr) ← go_snd (c_GetAttr next (mkGetAttrOptions dstPath false));
      let dstExists := bool_decide (dstErr = None) || os_IsExist dstErr in
      if negb (Z.land flags RENAME_NOREPLACE =? 0) && dstExists then mret (- c_EEXIST)
      else
        rename_compatible dstExists dstAttr srcAttr srcPath dstPath.

(** *** Links, synchronization, attributes *)
Definition libfuse_symlink (target link : option string) : go lf Z :=
  let name := fuse_name link in
  let targetPath := NormalizeObjectName (default "" target) in
  err ← go_snd (c_CreateLink next (mkCreateLinkOptions name targetPath));
  if bool_decide (err ≠ None) then mret (- c_EIO) else mret 0.

(** [buf] is the memory from the buffer's address on, the buffer its first [size]
    bytes; a store beyond that memory is a fault. *)
Definition libfuse_readlink (path : option string) (buf : list byte) (size : Z) : go lf (Z * list byte) :=
  let name := fuse_name path in
  '(targetPath, err) ← go_snd (c_ReadLink next (mkReadLinkOptions name));
  if bool_decide (err ≠ None) then mret (code_noent err, buf)
  else
    let target := bytes_of_string targetPath in
    if c_array_size <? u64 (size - 1) then go_panic
    else
      let buf := take (Z.to_nat (u64 (size - 1))) target ++
                 drop (Nat.min (Z.to_nat (u64 (size - 1))) (length target)) buf in
      if (length target <? length buf)%nat
      then mret (0, <[length target := zero_byte]> buf) else go_panic.

Definition libfuse_fsync (path : option string) (datasync : Z) (fi : fuse_file_info_t) : go lf Z :=
  if bool_decide (fi_fh fi = nil_ptr) then mret (- c_EIO)
  else
    '(f, handle) ← file_of fi;
    err ← go_snd (c_SyncFile next (mkSyncFileOptions handle));
    if bool_decide (err ≠ None) then mret (- c_EIO) else mret 0.

Definition libfuse_fsyncdir (path : option string) (datasync : Z) (fi : fuse_file_info_t) : go lf Z :=
  let name := fuse_name path in
  err ← go_snd (c_SyncDir next (mkSyncDirOptions name));
  if bool_decide (err ≠ None) then mret (- c_EIO) else mret 0.

Definition libfuse_chmod (path : option string) (mode : Z) : go lf Z :=
  let name := fuse_name path in
  err ← go_snd (c_Chmod next (mkChmodOptions name (Z.land (u32 mode) 4294967295)));
  if bool_decide (err ≠ None) then mret (code_os err) else mret 0.

Definition libfuse_chown (path : option string) (uid gid : Z) : go lf Z := mret 0.
Definition libfuse_utimens (path : option string) (tv : list (Z * Z)) : go lf Z := mret 0.

(** The goroutine is recorded; [run_FileUsed] is one of them running. *)
Definition blobfuse_cache_update (path : option string) : go lf Z :=
  let name := fuse_name path in
  _ ← set_lf (λ s, lf_with_used (lf_used s ++ [name]) s);
  mret 0.
Definition run_FileUsed : go lf unit :=
  l ← go_gets (λ s : lf, lf_used s.1);
  match l with
  | [] => mret tt
  | name :: l => _ ← set_lf (lf_with_used l); _ ← go_snd (c_FileUsed next name); mret tt
  end.

(** *** Native reads, writes and flushes (native_file_io.h) *)
Definition native_read_file (path : option string) (buf : list byte) (size off : Z) (fi : fuse_file_info_t)
    : go lf (Z * list byte) :=
  f ← get_native (fi_fh fi);
  if fh_fd f =? 0 then libfuse_read path buf size off fi
  else
    r ← go_snd (os_pread (fh_fd f) size off);
    match r with
    | inl d => mret (i32 (Z.of_nat (length d)), d ++ drop (length d) buf)
    | inr e => mret (- e, buf)
    end.

Definition native_write_file (path : option string) (buf : list byte) (size off : Z) (fi : fuse_file_info_t)
    : go lf Z :=
  f ← get_native (fi_fh fi);
  if fh_fd f =? 0 then libfuse_write path buf size off fi
  else
    r ← go_snd (os_pwrite (fh_fd f) (take (Z.to_nat size) buf) off);
    let cnt := u16 (fh_cnt f + 1) in
    _ ← upd_native (fi_fh fi) (λ f, mkFileHandle (fh_fd f) (fh_obj f) cnt 1);
    _ ← (if cnt mod 100 =? 0 then
           _ ← blobfuse_cache_update path;
           upd_native (fi_fh fi) (λ f, mkFileHandle (fh_fd f) (fh_obj f) 0 (fh_dirty f))
         else mret tt);
    mret (match r with inl n => i32 n | inr e => - e end).

Definition native_flush_file (path : option string) (fi : fuse_file_info_t) : go lf Z :=
  ret ← libfuse_flush path fi;
  _ ← (if ret =? 0
       then upd_native (fi_fh fi) (λ f, mkFileHandle (fh_fd f) (fh_obj f) (fh_cnt f) 0) else mret tt);
  mret ret.
End handlers.

(** ** Mounting

    The functions of libfuse and of the extension loader; a non-zero result is a
    failure.  [opt_add_arg args a] gives the arguments after it. *)
Inductive callback_table := own_callbacks | extension_callbacks.
Class FuseLib (N : Type) := {
  load_library : string → go N Z;
  unload_library : go N unit;
  get_extension_callbacks : go N Z;
  register_callback_to_extension : go N Z;
  opt_add_arg : list string → string → go N (list string * Z);
  start_fuse : list string → callback_table → go N Z
}.

Section mount.
Context {N : Type} `{!Runtime N} `{!FuseLib N}.
#[local] Abbreviation lf := (LfState * N)%type.

Fixpoint add_args (args : list string) (l : list string) : go N (list string * Z) :=
  match l with
  | [] => mret (args, 0)
  | a :: l =>
      '(args, err) ← opt_add_arg args a;
      if negb (err =? 0) then mret (args, err) else add_args args l
  end.

Definition populateFuseArgs (directIO : bool) (opts : fuse_options_t) : go N (list string * Z) :=
  add_args [] (fuse_arguments opts (fuse_options_string opts directIO)).

(** The choice of the callback table at the start of initFuse. *)
Definition load_extension (path : string) : go N (callback_table + error) :=
  if bool_decide (path ≠ "") then
    errc ← load_library path;
    if negb (errc =? 0) then mret (inr (Msg "failed to load extension"))
    else
      errc ← get_extension_callbacks;
      if negb (errc =? 0) then
        _ ← unload_library; mret (inr (Msg "failed to get callback table from extension"))
      else
        errc ← register_callback_to_extension;
        if negb (errc =? 0) then
          _ ← unload_library; mret (inr (Msg "failed to register callback table to extension"))
        else mret (inl extension_callbacks)
  else mret (inl own_callbacks).

(** initFuse of either handler file: [convert] is its convertConfig, [populate] its
    populateFuseArgs. *)
Definition init_fuse (convert : Libfuse → fuse_options_t)
    (populate : bool → fuse_options_t → go N (list string * Z)) (c : Libfuse) : go N (option error) :=
  ops ← load_extension (extensionPath c);
  match ops with
  | inr e => mret (Some e)
  | inl operations =>
      '(args, ret) ← populate (directIO c) (convert c);
      if negb (ret =? 0) then mret (Some (Msg "failed to parse fuse arguments"))
      else
        ret ← start_fuse args operations;
        if negb (ret =? 0) then mret (Some (Msg "failed to mount fuse")) else mret None
  end.
Definition initFuse (c : Libfuse) : go N (option error) := init_fuse convertConfig populateFuseArgs c.

(** Start: the flags of the entries "." and "..", then initFuse, which returns when
    the file system is unmounted. *)
Definition lf_Start : go lf (option error) :=
  c ← go_gets (λ s : lf, lf_conf s.1);
  let c := with_lsFlags (Set_ NewDirBitMap PropFlagModeDefault) c in
  _ ← go_modify (λ s : lf, (mkLfState c (lf_handles s.1) (lf_nextID s.1) (lf_native s.1)
                              (lf_dirs s.1) (lf_context s.1) (lf_used s.1), s.2));
  go_snd (initFuse c).
End mount.

(** ** The handlers for fuse2 (libfuse2_handler.go)

    The file has a copy of every function.  Those whose text is the same but for
    log messages are named here as such; the others are translated. *)
Definition fuse2_trimFusePath := trimFusePath.
Definition fuse2_fillStat := fillStat.

Definition fuse2_convertConfig (c : Libfuse) : fuse_options_t :=
  mkFuseOptions (mountPath c) (u32 (ownerUID c)) (u32 (ownerGID c)) (u32 (filePermission c))
    (i32 (entryExpiration c)) (i32 (attributeExpiration c)) (i32 (negativeTimeout c))
    (readOnly c) (allowOther c) (allowRoot c) (traceEnable c) (nonEmptyMount c) (i32 (umask c)).

Definition fuse2_options_string (opts : fuse_options_t) (directIO : bool) : string :=
  "entry_timeout=" +:+ pretty (fo_entry_expiry opts) +:+
  ",attr_timeout=" +:+ pretty (fo_attr_expiry opts) +:+
  ",negative_timeout=" +:+ pretty (fo_negative_expiry opts) +:+
  (if fo_allow_other opts then ",allow_other" else "") +:+
  (if fo_allow_root opts then ",allow_root" else "") +:+
  (if fo_non_empty opts then ",nonempty" else "") +:+
  (if fo_readonly opts then ",ro" else "") +:+
  (if negb (fo_umask opts =? 0) then ",umask=" +:+ format_04d (fo_umask opts) else "") +:+
  (if directIO then ",direct_io" else ",kernel_cache").

Section mount.
Context {N : Type} `{!FuseLib N}.
Definition fuse2_populateFuseArgs (directIO : bool) (opts : fuse_options_t) : go N (list string * Z) :=
  add_args [] (fuse_arguments opts (fuse2_options_string opts directIO)).
Definition fuse2_initFuse (c : Libfuse) : go N (option error) := init_fuse fuse2_convertConfig fuse2_populateFuseArgs c.
End mount.

Section handlers.
Context {N : Type} `{!Runtime N} `{!FuseOS N} (next : Component N).
#[local] Abbreviation lf := (LfState * N)%type.

Definition libfuse2_init (conn : fuse_conn_info_t) : go lf fuse_conn_info_t :=
  _ ← populate_uid_gid;
  c ← conf_;
  let conn := want_cap true FUSE_CAP_ASYNC_READ conn in
  let conn := want_cap true FUSE_CAP_BIG_WRITES conn in
  let conn := want_cap true FUSE_CAP_SPLICE_WRITE conn in
  mret (mkConn (capable conn) (want conn) (u32 (maxFuseThreads c)) (4 * 1024 * 1024)
          (max_read conn) (max_write conn)).

Definition libfuse2_destroy : go lf unit := mret tt.
Definition fuse2_destroyFuse : go lf (option error) := mret None.
Definition libfuse2_getattr := libfuse_getattr next.
Definition libfuse2_statfs := libfuse_statfs next.
Definition libfuse2_mkdir := libfuse_mkdir next.
Definition libfuse2_opendir : option string → fuse_file_info_t → go lf (Z * fuse_file_info_t) := libfuse_opendir.
Definition libfuse2_releasedir : option string → fuse_file_info_t → go lf Z := libfuse_releasedir.

(** The entries "." and "..". *)
Definition dot_entries (c : Libfuse) : list ObjAttr :=
  [ mkObjAttr 0 0 0 0 0 0 (lsFlags c) "" "." [] ∅;
    mkObjAttr 0 0 0 0 0 0 (lsFlags c) "" ".." [] ∅ ].
Definition libfuse2_readdir {B} (filler : B → string → stat_t → Z → Z * B) (path : option string)
    (buf : B) (off : Z) (fi : fuse_file_info_t) : go lf (Z * B) :=
  readdir next filler dot_entries buf off fi.

Definition libfuse2_rmdir := libfuse_rmdir next.

Definition libfuse2_create (path : option string) (mode : Z) (fi : fuse_file_info_t)
    : go lf (Z * fuse_file_info_t) :=
  let name := fuse_name path in
  '(handle, err) ← go_snd (c_CreateFile next (mkCreateFileOptions name (Z.land (u32 mode) 4294967295)));
  if bool_decide (err ≠ None)
  then mret (if os_IsExist err then - c_EEXIST else - c_EIO, fi)
  else
    h ← get_handle handle;
    register_file (UnixFD h) handle fi.

Definition libfuse2_open (path : option string) (fi : fuse_file_info_t) : go lf (Z * fuse_file_info_t) :=
  open_file next (fuse_name path) (fi_with_flags (mask_open_flags (fi_flags fi)) fi).

Definition libfuse2_read := libfuse_read next.
Definition libfuse2_write := libfuse_write next.
Definition libfuse2_flush := libfuse_flush next.
Definition libfuse2_truncate := libfuse_truncate next.
Definition libfuse2_release := libfuse_release next.
Definition libfuse2_unlink := libfuse_unlink next.

Definition libfuse2_rename (src dst : option string) : go lf Z :=
  let srcPath := fuse_name src in
  let dstPath := fuse_name dst in
  if bool_decide (srcPath = "") || bool_decide (dstPath = "") then mret (- c_ENOENT)
  else
    '(srcAttr, srcErr) ← go_snd (c_GetAttr next (mkGetAttrOptions srcPath false));
    if os_IsNotExist srcErr then mret (- c_ENOENT)
    else
      '(dstAttr, dstErr) ← go_snd (c_GetAttr next (mkGetAttrOptions dstPath false));
      let dstExists := bool_decide (dstErr = None) || os_IsExist dstErr in
      rename_compatible next dstExists dstAttr srcAttr srcPath dstPath.

Definition libfuse2_symlink := libfuse_symlink next.
Definition libfuse2_readlink := libfuse_readlink next.
Definition libfuse2_fsync := libfuse_fsync next.
Definition libfuse2_fsyncdir := libfuse_fsyncdir next.
Definition libfuse2_chmod := libfuse_chmod next.
Definition libfuse2_chown : option string → Z → Z → go lf Z := libfuse_chown.
Definition libfuse2_utimens : option string → list (Z * Z) → go lf Z := libfuse_utimens.
Definition fuse2_cache_update : option string → go lf Z := blobfuse_cache_update.
End handlers.
