(* ===== verification/LibfuseSpec.v ===== *)
(** * The libfuse component: callbacks are safe, typed and keep the handle table

    [FuseNext] states what the callbacks rely on from the next component of the
    pipeline and from the operating system.  Against it: in every state that
    callbacks can reach, every callback returns (it neither panics nor blocks), its
    result is one of the codes its contract lists, and the handle map, the native
    file objects and the directory pages stay consistent ([lf_ok]). *)
From S2P Require Import Prelude GoLib Common HandleMap Internal AzUtils Libfuse.

(** Objects are never taken away, and what libfuse reads of a handle stays. *)
Definition handle_kept (h h' : Handle) : Prop :=
  hID h' = hID h ∧ hPath h' = hPath h ∧ GetValue "cache" h' = GetValue "cache" h.

Section kept.
Context {N : Type} `{!Runtime N}.
Definition kept (n n' : N) : Prop :=
  (∀ p h, rt_handles n !! p = Some h → ∃ h', rt_handles n' !! p = Some h' ∧ handle_kept h h') ∧
  (∀ p, is_Some (rt_objs n !! p) → is_Some (rt_objs n' !! p)).

#[export] Instance handle_kept_refl : Reflexive handle_kept.
Proof. by intros h. Qed.
#[export] Instance handle_kept_trans : Transitive handle_kept.
Proof. intros a b c (?&?&?) (?&?&?). split_and!; congruence. Qed.
#[export] Instance kept_refl : Reflexive kept.
Proof. intros n. split; [eauto using handle_kept_refl|done]. Qed.
#[export] Instance kept_trans : Transitive kept.
Proof.
  intros a b c [H1 H2] [H3 H4]. split; [|by eauto].
  intros p h Hp. destruct (H1 p h Hp) as (h1 & Hb & K1). destruct (H3 p h1 Hb) as (h2 & Hc & K2).
  exists h2. split; [done|by transitivity h1].
Qed.
End kept.

(** What the callbacks rely on.  The handle of a request is one the component gave
    out; a new handle is a new object, which nobody has put in a directory listing. *)
Class FuseNext {N : Type} `{!Runtime N, !FuseOS N} (next : Component N) := {
  fn_handles_set m n : rt_handles (rt_set_handles m n) = m;
  fn_objs_set m n : rt_objs (rt_set_handles m n) = rt_objs n;
  (* the operating system *)
  fn_pread fd size off n : wp (os_pread fd size off) (λ r n', kept n n' ∧
    match r with inl d => Z.of_nat (length d) ≤ Z.max 0 size | inr e => 1 ≤ e ≤ 4095 end) n;
  fn_pwrite fd d off n : wp (os_pwrite fd d off) (λ r n', kept n n' ∧
    match r with inl k => 0 ≤ k ≤ Z.of_nat (length d) | inr e => 1 ≤ e ≤ 4095 end) n;
  fn_statvfs p n : wp (os_statvfs p) (λ _ n', kept n n') n;
  fn_time n : wp os_time (λ _ n', kept n n') n;
  fn_context n : wp os_fuse_context (λ _ n', kept n n') n;
  (* operations on names *)
  fn_CreateDir o n : wp (c_CreateDir next o) (λ _ n', kept n n') n;
  fn_DeleteDir o n : wp (c_DeleteDir next o) (λ _ n', kept n n') n;
  fn_IsDirEmpty o n : wp (c_IsDirEmpty next o) (λ _ n', kept n n') n;
  fn_RenameDir o n : wp (c_RenameDir next o) (λ _ n', kept n n') n;
  fn_DeleteFile o n : wp (c_DeleteFile next o) (λ _ n', kept n n') n;
  fn_RenameFile o n : wp (c_RenameFile next o) (λ _ n', kept n n') n;
  fn_TruncateFile o n : wp (c_TruncateFile next o) (λ _ n', kept n n') n;
  fn_SyncDir o n : wp (c_SyncDir next o) (λ _ n', kept n n') n;
  fn_CreateLink o n : wp (c_CreateLink next o) (λ _ n', kept n n') n;
  fn_Chmod o n : wp (c_Chmod next o) (λ _ n', kept n n') n;
  fn_FileUsed name n : wp (c_FileUsed next name) (λ _ n', kept n n') n;
  fn_ReadLink o n : wp (c_ReadLink next o) (λ r n', kept n n' ∧
    (r.2 = None → (length (bytes_of_string r.1) < 4096)%nat)) n;
  fn_StatFs n : wp (c_StatFs next tt) (λ r n', kept n n' ∧
    (r.2 = None → r.1.2 = true → is_Some r.1.1)) n;
  fn_GetAttr o n : wp (c_GetAttr next o) (λ r n', kept n n' ∧
    match r.2 with None => is_Some (rt_objs n' !! r.1) | Some e => os_IsExist (Some e) = false end) n;
  fn_StreamDir o n : wp (c_StreamDir next o) (λ r n', kept n n' ∧
    (r.2 = None → Forall (λ p, is_Some (rt_objs n' !! p)) r.1.1)) n;
  (* operations on handles *)
  fn_CreateFile o n : wp (c_CreateFile next o) (λ r n', kept n n' ∧
    (r.2 = None → rt_handles n !! r.1 = None ∧
       ∃ h, rt_handles n' !! r.1 = Some h ∧ GetValue "cache" h = None)) n;
  fn_OpenFile o n : wp (c_OpenFile next o) (λ r n', kept n n' ∧
    (r.2 = None → rt_handles n !! r.1 = None ∧
       ∃ h, rt_handles n' !! r.1 = Some h ∧ GetValue "cache" h = None)) n;
  fn_CloseFile o n : is_Some (rt_handles n !! CloseFile_Handle o) →
    wp (c_CloseFile next o) (λ _ n', kept n n') n;
  fn_FlushFile o n : is_Some (rt_handles n !! FlushFile_Handle o) →
    wp (c_FlushFile next o) (λ _ n', kept n n') n;
  fn_SyncFile o n : is_Some (rt_handles n !! SyncFile_Handle o) →
    wp (c_SyncFile next o) (λ _ n', kept n n') n;
  fn_ReadInBuffer o n : is_Some (rt_handles n !! ReadInBuffer_Handle o) →
    wp (c_ReadInBuffer next o) (λ r n', kept n n' ∧
      0 ≤ r.1.2 ≤ Z.of_nat (length (ReadInBuffer_Data o))) n;
  fn_WriteFile o n : is_Some (rt_handles n !! WriteFile_Handle o) →
    wp (c_WriteFile next o) (λ r n', kept n n' ∧
      0 ≤ r.1 ≤ Z.of_nat (length (WriteFile_Data o))) n
}.

(** ** Requests

    One constructor per callback that populate_callbacks of libfuse_wrapper.h
    registers; [serve3] and [serve2] are its tables for fuse3 and fuse2, where reads,
    writes and flushes go to the C functions first.  A readdir request carries the filler. *)
Inductive fuse_req :=
  | RGetattr (path : option string)
  | RMkdir (path : option string) (mode : Z)
  | ROpendir (path : option string)
  | RReleasedir (fh : ptr)
  | RReaddir (capacity : nat) (off : Z) (fh : ptr)
  | RRmdir (path : option string)
  | RStatfs (path : option string)
  | RCreate (path : option string) (mode flags : Z)
  | ROpen (path : option string) (flags : Z)
  | RRead (buf : list byte) (size off : Z) (fh : ptr)
  | RWrite (path : option string) (buf : list byte) (size off : Z) (fh : ptr)
  | RFlush (fh : ptr)
  | RTruncate (path : option string) (off : Z)
  | RRelease (fh : ptr)
  | RUnlink (path : option string)
  | RRename (src dst : option string) (flags : Z)
  | RSymlink (target link : option string)
  | RReadlink (path : option string) (buf : list byte) (size : Z)
  | RFsync (fh : ptr)
  | RFsyncdir (path : option string)
  | RChmod (path : option string) (mode : Z)
  | RChown (path : option string) (uid gid : Z)
  | RUtimens (path : option string).

(** A buffer for directory entries with room for [capacity] of them and one more. *)
Definition dirbuf : Type := nat * list (string * stat_t * Z).
Definition fill_dirbuf (b : dirbuf) (name : string) (st : stat_t) (off : Z) : Z * dirbuf :=
  if (length b.2 <=? b.1)%nat then (0, (b.1, b.2 ++ [(name, st, off)])) else (1, b).

Definition zero_stat : stat_t := mkStat 0 0 0 0 0 (0, 0) (0, 0) (0, 0).
Definition zero_statvfs : statvfs_t := mkStatvfs 0 0 0 0 0 0 0 0.

Section serve.
Context {N : Type} `{!Runtime N, !FuseOS N} (next : Component N).
#[local] Abbreviation lf := (LfState * N)%type.

Definition serve3 (r : fuse_req) : go lf Z :=
  match r with
  | RGetattr path => x ← libfuse_getattr next path zero_stat; mret x.1
  | RMkdir path mode => libfuse_mkdir next path mode
  | ROpendir path => x ← libfuse_opendir path (mkFileInfo 0 nil_ptr); mret x.1
  | RReleasedir fh => libfuse_releasedir None (mkFileInfo 0 fh)
  | RReaddir capacity off fh =>
      x ← libfuse_readdir next fill_dirbuf None (capacity, []) off (mkFileInfo 0 fh); mret x.1
  | RRmdir path => libfuse_rmdir next path
  | RStatfs path => x ← libfuse_statfs next path zero_statvfs; mret x.1
  | RCreate path mode flags => x ← libfuse_create next path mode (mkFileInfo flags nil_ptr); mret x.1
  | ROpen path flags => x ← libfuse_open next path (mkFileInfo flags nil_ptr); mret x.1
  | RRead buf size off fh => x ← native_read_file next None buf size off (mkFileInfo 0 fh); mret x.1
  | RWrite path buf size off fh => native_write_file next path buf size off (mkFileInfo 0 fh)
  | RFlush fh => native_flush_file next None (mkFileInfo 0 fh)
  | RTruncate path off => libfuse_truncate next path off
  | RRelease fh => libfuse_release next None (mkFileInfo 0 fh)
  | RUnlink path => libfuse_unlink next path
  | RRename src dst flags => libfuse_rename next src dst flags
  | RSymlink target link => libfuse_symlink next target link
  | RReadlink path buf size => x ← libfuse_readlink next path buf size; mret x.1
  | RFsync fh => libfuse_fsync next None 0 (mkFileInfo 0 fh)
  | RFsyncdir path => libfuse_fsyncdir next path 0 (mkFileInfo 0 nil_ptr)
  | RChmod path mode => libfuse_chmod next path mode
  | RChown path uid gid => libfuse_chown path uid gid
  | RUtimens path => libfuse_utimens path []
  end.
Definition serve2 (r : fuse_req) : go lf Z :=
  match r with
  | RGetattr path => x ← libfuse2_getattr next path zero_stat; mret x.1
  | RMkdir path mode => libfuse2_mkdir next path mode
  | ROpendir path => x ← libfuse2_opendir path (mkFileInfo 0 nil_ptr); mret x.1
  | RReleasedir fh => libfuse2_releasedir None (mkFileInfo 0 fh)
  | RReaddir capacity off fh =>
      x ← libfuse2_readdir next fill_dirbuf None (capacity, []) off (mkFileInfo 0 fh); mret x.1
  | RRmdir path => libfuse2_rmdir next path
  | RStatfs path => x ← libfuse2_statfs next path zero_statvfs; mret x.1
  | RCreate path mode flags => x ← libfuse2_create next path mode (mkFileInfo flags nil_ptr); mret x.1
  | ROpen path flags => x ← libfuse2_open next path (mkFileInfo flags nil_ptr); mret x.1
  | RRead buf size off fh => x ← native_read_file next None buf size off (mkFileInfo 0 fh); mret x.1
  | RWrite path buf size off fh => native_write_file next path buf size off (mkFileInfo 0 fh)
  | RFlush fh => native_flush_file next None (mkFileInfo 0 fh)
  | RTruncate path off => libfuse2_truncate next path off
  | RRelease fh => libfuse2_release next None (mkFileInfo 0 fh)
  | RUnlink path => libfuse2_unlink next path
  | RRename src dst _ => libfuse2_rename next src dst
  | RSymlink target link => libfuse2_symlink next target link
  | RReadlink path buf size => x ← libfuse2_readlink next path buf size; mret x.1
  | RFsync fh => libfuse2_fsync next None 0 (mkFileInfo 0 fh)
  | RFsyncdir path => libfuse2_fsyncdir next path 0 (mkFileInfo 0 nil_ptr)
  | RChmod path mode => libfuse2_chmod next path mode
  | RChown path uid gid => libfuse2_chown path uid gid
  | RUtimens path => libfuse2_utimens path []
  end.

(** The version of libfuse the program is built for. *)
Inductive fuse_version := fuse3 | fuse2.
Definition serve (v : fuse_version) : fuse_req → go lf Z :=
  match v with fuse3 => serve3 | fuse2 => serve2 end.
End serve.

(** The results a callback may have. *)
Definition result_codes (r : fuse_req) (c : Z) : Prop :=
  match r with
  | RGetattr _ | RReaddir _ _ _ | RFlush _ | RRelease _ | RUnlink _ | RChmod _ _ =>
      c ∈ [0; - c_ENOENT; - c_EACCES; - c_EIO]
  | RMkdir _ _ => c ∈ [0; - c_EACCES; - c_EEXIST; - c_EIO]
  | RRmdir _ => c ∈ [0; - c_ENOTEMPTY; - c_ENOENT; - c_EIO]
  | RCreate _ _ _ => c ∈ [0; - c_EEXIST; - c_EIO]
  | ROpen _ _ => c ∈ [0; - c_EINVAL; - c_ENOENT; - c_EACCES; - c_EIO]
  | RRead _ size _ _ | RWrite _ _ size _ _ => - 4095 ≤ c ≤ size
  | RTruncate _ _ | RReadlink _ _ _ => c ∈ [0; - c_ENOENT; - c_EIO]
  | RRename _ _ _ => c ∈ [0; - c_ENOTSUP; - c_ENOENT; - c_EEXIST; - c_EISDIR; - c_ENOTDIR; - c_ENOTEMPTY; - c_EIO]
  | RStatfs _ | RSymlink _ _ | RFsync _ | RFsyncdir _ => c ∈ [0; - c_EIO]
  | ROpendir _ | RReleasedir _ | RChown _ _ _ | RUtimens _ => c = 0
  end.

Section spec.
Context {N : Type} `{!Runtime N, !RuntimeLaws N, !FuseOS N} (next : Component N) `{!FuseNext next}.
#[local] Abbreviation lf := (LfState * N)%type.

(** ** The invariant *)
Definition page_ok (n : N) (d : dirChildCache) : Prop :=
  dlength d = Z.of_nat (length (children d)) ∧ Forall (λ p, is_Some (rt_objs n !! p)) (children d).

Record lf_ok (s : lf) : Prop := {
  (* a registered handle exists and has its number *)
  ok_registered id p : lf_handles s.1 !! id = Some p → ∃ h, rt_handles s.2 !! p = Some h ∧ hID h = id;
  (* what a directory handle keeps under "cache" is an allocated page *)
  ok_cache id p h v : lf_handles s.1 !! id = Some p → rt_handles s.2 !! p = Some h →
    GetValue "cache" h = Some v → ∃ cp d, v = VDirCache cp ∧ lf_dirs s.1 !! cp = Some d;
  ok_pages cp d : lf_dirs s.1 !! cp = Some d → page_ok s.2 d;
  (* a native object belongs to a registered file handle, which it shares with no other *)
  ok_native f x : lf_native s.1 !! f = Some x → ∃ id h, lf_handles s.1 !! id = Some (fh_obj x) ∧
    rt_handles s.2 !! fh_obj x = Some h ∧ GetValue "cache" h = None;
  ok_native_inj f1 f2 x1 x2 : lf_native s.1 !! f1 = Some x1 → lf_native s.1 !! f2 = Some x2 →
    fh_obj x1 = fh_obj x2 → f1 = f2
}.

(** What the kernel guarantees of a request: handles are open ones, buffers have
    their size, and there are fewer than 2^64 open handles.  Rename dereferences
    the attributes of the source unless it does not exist: the last case asks that
    looking it up has no other failure. *)
Definition open_file_fh (s : lf) (fh : ptr) : Prop := is_Some (lf_native s.1 !! fh).
Definition open_dir_fh (s : lf) (fh : ptr) : Prop :=
  ∃ id h, lf_handles s.1 !! id = Some fh ∧ rt_handles s.2 !! fh = Some h ∧ is_Some (GetValue "cache" h).
Definition buffer_ok (buf : list byte) (size : Z) : Prop :=
  0 ≤ size ≤ c_array_size ∧ size ≤ Z.of_nat (length buf).

Definition valid_req (s : lf) (r : fuse_req) : Prop :=
  Z.of_nat (size (lf_handles s.1)) < 2 ^ 64 ∧
  match r with
  | RReleasedir fh => open_dir_fh s fh
  | RReaddir _ off fh => 0 ≤ off < 2 ^ 63 ∧ open_dir_fh s fh
  | RRead buf size _ fh | RWrite _ buf size _ fh => buffer_ok buf size ∧ open_file_fh s fh
  | RFlush fh | RRelease fh | RFsync fh => open_file_fh s fh
  | RReadlink _ buf size => 4096 ≤ size ∧ buffer_ok buf size
  | _ => True
  end.
(** A rename whose source lookup fails, for another reason than that it does not exist. *)
Definition failed_lookup (src : option string) (n : N) : Prop := ∃ p e n1,
  c_GetAttr next (mkGetAttrOptions (fuse_name src) false) n = Ret ((p, Some e), n1) ∧ os_IsNotExist (Some e) = false.
Definition failed_source (s : lf) (r : fuse_req) : Prop :=
  match r with RRename src _ _ => failed_lookup src s.2 | _ => False end.

(** ** Steps *)
Lemma page_ok_kept n n' d : kept n n' → page_ok n d → page_ok n' d.
Proof. intros [_ Ho] [Hl Hf]. split; [done|]. eapply Forall_impl; [done|]. auto. Qed.

(** Operations of the next component keep the invariant. *)
Lemma lf_ok_kept s n n' : lf_ok (s, n) → kept n n' → lf_ok (s, n').
Proof.
  intros [Hr Hc Hp Hn Hi] HK. pose proof (proj1 HK) as Hh. split; simpl in *.
  - intros id p Hid. destruct (Hr id p Hid) as (h & Hlk & Hd). destruct (Hh p h Hlk) as (h' & ? & (?&_)).
    exists h'. split; [done|congruence].
  - intros id p h v Hid Hlk Hv. destruct (Hr id p Hid) as (h0 & Hlk0 & _).
    destruct (Hh p h0 Hlk0) as (h' & Hlk' & (_ & _ & Hcv)). simplify_eq. rewrite Hcv in Hv. eauto.
  - intros cp d Hd. eapply page_ok_kept; eauto.
  - intros f x Hf. destruct (Hn f x Hf) as (id & h & ? & Hlk & Hcv).
    destruct (Hh _ h Hlk) as (h' & ? & (_ & _ & Hk)). exists id, h'. split_and!; [done..|congruence].
  - done.
Qed.

(** The parts of the component's state that the invariant does not mention. *)
Lemma lf_ok_same s s' n :
  lf_handles s' = lf_handles s → lf_native s' = lf_native s → lf_dirs s' = lf_dirs s →
  lf_ok (s, n) → lf_ok (s', n).
Proof. intros E1 E2 E3 [Hr Hc Hp Hn Hi]. split; simpl in *; rewrite ?E1, ?E2, ?E3; done. Qed.

Lemma wp_next {A} (m : go N A) (P : A → N → Prop) (Q : A → lf → Prop) s n :
  wp m P n → (∀ a n', P a n' → Q a (s, n')) → wp (go_snd m) Q (s, n).
Proof. intros Hm HQ. apply wp_snd. eapply wp_mono; [exact Hm|]. eauto. Qed.

Lemma wp_lf_conf Q s n : Q (lf_conf s) (s, n) → wp conf_ Q ((s, n) : lf).
Proof. done. Qed.
Lemma wp_lf_get_handle Q s n p h : rt_handles n !! p = Some h → Q h (s, n) → wp (get_handle p) Q ((s, n) : lf).
Proof. intros Hp HQ. apply wp_snd. by eapply wp_load_handle. Qed.
Lemma wp_lf_load_attr Q s n p a :
  rt_objs n !! p = Some a → Q a (s, n) → wp (go_snd (load_obj p)) Q ((s, n) : lf).
Proof. intros Hp HQ. apply wp_snd. by eapply wp_load_obj. Qed.
Lemma wp_lf_upd_handle p f h Q s n :
  rt_handles n !! p = Some h → Q tt (s, rt_set_handles (<[p:=f h]> (rt_handles n)) n) →
  wp (upd_handle p f) Q ((s, n) : lf).
Proof. intros Hp HQ. apply wp_snd. unfold wp. by rewrite Hp. Qed.
Lemma wp_get_native f x Q s n : lf_native s !! f = Some x → Q x (s, n) → wp (get_native f) Q ((s, n) : lf).
Proof. intros Hf HQ. unfold wp, get_native. simpl. by rewrite Hf. Qed.
Lemma wp_upd_native f g x Q s n :
  lf_native s !! f = Some x → Q tt (lf_with_native (<[f:=g x]> (lf_native s)) s, n) →
  wp (upd_native f g) Q ((s, n) : lf).
Proof. intros Hf HQ. apply wp_bind. by eapply wp_get_native. Qed.
Lemma wp_get_dir_cache cp d Q s n : lf_dirs s !! cp = Some d → Q d (s, n) → wp (get_dir_cache cp) Q ((s, n) : lf).
Proof. intros Hf HQ. unfold wp, get_dir_cache. simpl. by rewrite Hf. Qed.

(** Storing a handle that keeps what libfuse reads of it. *)
Lemma kept_upd_handle n p h f :
  rt_handles n !! p = Some h → handle_kept h (f h) →
  kept n (rt_set_handles (<[p:=f h]> (rt_handles n)) n).
Proof.
  intros Hp Hk. split; rewrite ?fn_handles_set, ?fn_objs_set; [|done].
  intros q g Hq. destruct (decide (p = q)) as [->|Hne].
  - rewrite lookup_insert_eq. simplify_eq. eauto.
  - rewrite lookup_insert_ne by done. eauto using handle_kept_refl.
Qed.
Lemma kept_new_handle n n' p h :
  rt_handles n !! p = None → rt_handles n' = <[p:=h]> (rt_handles n) → rt_objs n' = rt_objs n → kept n n'.
Proof.
  intros Hp Hh Ho. split; rewrite ?Hh, ?Ho; [|done].
  intros q g Hq. rewrite lookup_insert_ne by congruence. eauto using handle_kept_refl.
Qed.
Lemma kept_new_obj n p a : rt_objs n !! p = None → kept n (rt_set_objs (<[p:=a]> (rt_objs n)) n).
Proof.
  intros Hp. split; rewrite ?rt_handles_set_objs, ?rt_objs_set; [eauto using handle_kept_refl|].
  intros q Hq. destruct (decide (p = q)) as [->|Hne]; [rewrite lookup_insert_eq|rewrite lookup_insert_ne by done]; eauto.
Qed.

(** ** Registering and releasing handles *)
Definition registered (s : LfState) (p : ptr) : Prop := ∃ id, lf_handles s !! id = Some p.
Definition small_map (s : LfState) : Prop := Z.of_nat (size (lf_handles s)) < 2 ^ 64.

Lemma not_registered s n p : lf_ok (s, n) → rt_handles n !! p = None → ¬ registered s p.
Proof. intros Hok Hp [id Hid]. destruct (ok_registered _ Hok id p Hid) as (h & Hh & _). simpl in Hh. congruence. Qed.

Lemma wp_Add p h Q s n :
  rt_handles n !! p = Some h → small_map s →
  (∀ key, lf_handles s !! key = None → is_u64 key →
     Q key (lf_with_handles (<[key:=p]> (lf_handles s)) key s,
            rt_set_handles (<[p:=handle_with_id key h]> (rt_handles n)) n)) →
  wp (handlemap_Add p) Q ((s, n) : lf).
Proof.
  intros Hp Hsz HQ. unfold handlemap_Add, on_handle_map. apply wp_zoom. unfold wp, Add.
  cbn [defaultHandleMap nextHandleID handles fst snd].
  destruct (Add_loop_fuel (lf_handles s) (lf_nextID s) Hsz) as [key Hkey]. rewrite Hkey, Hp. simpl.
  apply HQ; [by eapply Add_loop_fresh|by eapply Add_loop_u64].
Qed.

(** The state after a handle [p] with the number [key] has been registered. *)
Lemma lf_ok_add s n p h key :
  lf_ok (s, n) → rt_handles n !! p = Some h → ¬ registered s p → lf_handles s !! key = None →
  (∀ v, GetValue "cache" h = Some v → ∃ cp d, v = VDirCache cp ∧ lf_dirs s !! cp = Some d) →
  lf_ok (lf_with_handles (<[key:=p]> (lf_handles s)) key s,
         rt_set_handles (<[p:=handle_with_id key h]> (rt_handles n)) n).
Proof.
  intros [Hr Hc Hp Hn Hi] Hlk Hnr Hkey Hv. split; simpl in *; rewrite ?fn_handles_set.
  - intros id q. destruct (decide (key = id)) as [->|Hne].
    + rewrite lookup_insert_eq. intros [= <-]. rewrite lookup_insert_eq. by eexists.
    + rewrite lookup_insert_ne by done. intros Hid. destruct (Hr _ _ Hid) as (g & Hg & Hgid).
      rewrite lookup_insert_ne; [by eauto|]. intros ->. apply Hnr. by exists id.
  - intros id q g v. destruct (decide (p = q)) as [->|Hpq].
    + intros _. rewrite lookup_insert_eq. intros [= <-]. apply Hv.
    + rewrite (lookup_insert_ne (rt_handles n)) by done. destruct (decide (key = id)) as [->|Hne].
      * rewrite lookup_insert_eq. intros [= ->]. done.
      * rewrite lookup_insert_ne by done. apply Hc.
  - intros cp d Hd. unfold page_ok. rewrite fn_objs_set. by apply (Hp cp).
  - intros f x Hf. destruct (Hn f x Hf) as (id & g & Hid & Hg & Hcv). exists id, g.
    rewrite !lookup_insert_ne; [done| |congruence]. intros ->. apply Hnr. by exists id.
  - done.
Qed.

(** A new native object of a registered file handle that has none. *)
Lemma lf_ok_native s n f x id h :
  lf_ok (s, n) → lf_native s !! f = None → lf_handles s !! id = Some (fh_obj x) →
  rt_handles n !! fh_obj x = Some h → GetValue "cache" h = None →
  (∀ f' x', lf_native s !! f' = Some x' → fh_obj x' ≠ fh_obj x) →
  lf_ok (lf_with_native (<[f:=x]> (lf_native s)) s, n).
Proof.
  intros [Hr Hc Hp Hn Hi] Hf Hid Hh Hcv Huniq. split; simpl in *; [done..| |].
  - intros f' x'. destruct (decide (f = f')) as [->|Hne].
    + rewrite lookup_insert_eq. intros [= <-]. eauto.
    + rewrite lookup_insert_ne by done. apply Hn.
  - intros f1 f2 x1 x2. destruct (decide (f = f1)) as [<-|H1], (decide (f = f2)) as [<-|H2];
      rewrite ?lookup_insert_eq, ?lookup_insert_ne by done; try done; [| |by apply Hi].
    + intros [= <-] H3 H4. by destruct (Huniq f2 x2).
    + intros H3 [= <-] H4. by destruct (Huniq f1 x1).
Qed.

(** A native object is changed, its handle stays. *)
Lemma lf_ok_upd_native s n f x y :
  lf_ok (s, n) → lf_native s !! f = Some x → fh_obj y = fh_obj x →
  lf_ok (lf_with_native (<[f:=y]> (lf_native s)) s, n).
Proof.
  intros [Hr Hc Hp Hn Hi] Hf Hobj. split; simpl in *; [done..| |].
  - intros f' x'. destruct (decide (f = f')) as [->|Hne].
    + rewrite lookup_insert_eq. intros [= <-]. rewrite Hobj. eauto.
    + rewrite lookup_insert_ne by done. apply Hn.
  - intros f1 f2 x1 x2. destruct (decide (f = f1)) as [<-|H1], (decide (f = f2)) as [<-|H2];
      rewrite ?lookup_insert_eq, ?lookup_insert_ne by done; try done; [| |by apply Hi].
    + intros [= <-] H3 H4. eapply Hi; [done..|congruence].
    + intros H3 [= <-] H4. eapply Hi; [done..|congruence].
Qed.

(** A new directory page. *)
Lemma empty_page_ok n : page_ok n (mkDirChildCache 0 0 0 "" []).
Proof. by split. Qed.
Lemma lf_ok_set_dir s n c d :
  lf_ok (s, n) → page_ok n d → lf_ok (lf_with_dirs (<[c:=d]> (lf_dirs s)) s, n).
Proof.
  intros [Hr Hcv Hpg Hn Hi] Hd. split; simpl in *; [done| | |done..].
  - intros id q h v H1 H2 H3. destruct (Hcv id q h v H1 H2 H3) as (cp & d' & -> & Hd').
    exists cp. destruct (decide (c = cp)) as [<-|Hne].
    + exists d. by rewrite lookup_insert_eq.
    + exists d'. by rewrite lookup_insert_ne.
  - intros cp d'. destruct (decide (c = cp)) as [<-|Hne].
    + rewrite lookup_insert_eq. by intros [= <-].
    + rewrite lookup_insert_ne by done. apply Hpg.
Qed.

(** A handle loses its page. *)
Lemma lf_ok_drop_cache s n p h h' :
  lf_ok (s, n) → rt_handles n !! p = Some h → hID h' = hID h → GetValue "cache" h' = None →
  lf_ok (s, rt_set_handles (<[p:=h']> (rt_handles n)) n).
Proof.
  intros [Hr Hcv Hpg Hn Hi] Hp Hid Hc. split; simpl in *; rewrite ?fn_handles_set.
  - intros id q Hq. destruct (Hr id q Hq) as (g & Hg & Hgid). destruct (decide (p = q)) as [<-|Hne].
    + rewrite lookup_insert_eq. exists h'. split; [done|congruence].
    + rewrite lookup_insert_ne by done. eauto.
  - intros id q g v Hq. destruct (decide (p = q)) as [<-|Hne].
    + rewrite lookup_insert_eq. intros [= <-]. congruence.
    + rewrite lookup_insert_ne by done. eauto.
  - intros cp d Hd. unfold page_ok. rewrite fn_objs_set. by apply (Hpg cp).
  - intros f x Hf. destruct (Hn f x Hf) as (id & g & Hidx & Hg & Hgc). exists id.
    destruct (decide (p = fh_obj x)) as [->|Hne].
    + exists h'. by rewrite lookup_insert_eq.
    + exists g. by rewrite lookup_insert_ne.
  - done.
Qed.

(** A handle without native object is unregistered. *)
Lemma lf_ok_delete s n id p :
  lf_ok (s, n) → lf_handles s !! id = Some p →
  (∀ f x, lf_native s !! f = Some x → fh_obj x ≠ p) →
  lf_ok (lf_with_handles (delete id (lf_handles s)) (lf_nextID s) s, n).
Proof.
  intros [Hr Hcv Hpg Hn Hi] Hid Hno. split; simpl in *; [| |done| |done].
  - intros id' q Hq. apply lookup_delete_Some in Hq as [_ Hq]. eauto.
  - intros id' q h v Hq. apply lookup_delete_Some in Hq as [_ Hq]. eauto.
  - intros f x Hf. destruct (Hn f x Hf) as (id' & g & Hidx & Hg). exists id', g.
    rewrite lookup_delete_ne; [done|]. intros ->. simplify_eq. by eapply Hno.
Qed.

(** The native object of a file and the registration of its handle go together. *)
Lemma lf_ok_release s n f x id :
  lf_ok (s, n) → lf_native s !! f = Some x → lf_handles s !! id = Some (fh_obj x) →
  lf_ok (lf_with_native (delete f (lf_native s)) (lf_with_handles (delete id (lf_handles s)) (lf_nextID s) s), n).
Proof.
  intros [Hr Hcv Hpg Hn Hi] Hf Hid. split; simpl in *; [| |done| |].
  - intros id' q Hq. apply lookup_delete_Some in Hq as [_ Hq]. eauto.
  - intros id' q h v Hq. apply lookup_delete_Some in Hq as [_ Hq]. eauto.
  - intros f' x' Hf'. apply lookup_delete_Some in Hf' as [Hne Hf'].
    destruct (Hn f' x' Hf') as (id' & g & Hidx & Hg). exists id', g.
    rewrite lookup_delete_ne; [done|]. intros ->. simplify_eq. apply Hne. eapply Hi; [done..|congruence].
  - intros f1 f2 x1 x2 H1 H2. apply lookup_delete_Some in H1 as [_ H1], H2 as [_ H2]. by eapply Hi.
Qed.

(** The state of register_file's result. *)
Definition registered_file (s : LfState) (n : N) (p : ptr) (h : Handle) (fi : fuse_file_info_t)
    (r : Z * fuse_file_info_t) (s' : lf) : Prop :=
  ∃ key f x, r = (0, fi_with_fh f fi) ∧ lf_handles s !! key = None ∧ lf_native s !! f = None ∧
    fh_obj x = p ∧ fh_cnt x = 0 ∧ fh_dirty x = 0 ∧
    s' = (lf_with_native (<[f:=x]> (lf_native s)) (lf_with_handles (<[key:=p]> (lf_handles s)) key s),
          rt_set_handles (<[p:=handle_with_id key h]> (rt_handles n)) n).

Lemma register_file_run fd p h fi s n :
  rt_handles n !! p = Some h → small_map s →
  wp (register_file fd p fi) (registered_file s n p h fi) (s, n).
Proof.
  intros Hp Hsz. unfold register_file. apply wp_bind. eapply wp_Add; [done..|]. intros key Hkey _.
  apply wp_bind. unfold wp at 1, allocate_native_file_object. simpl. set (f := fresh_ptr _).
  assert (Hf : lf_native s !! f = None) by apply fresh_ptr_lookup. clearbody f.
  apply wp_bind. eapply wp_lf_get_handle; [rewrite fn_handles_set; apply lookup_insert_eq|].
  apply wp_bind. destruct (negb _).
  - eapply wp_upd_native; [apply lookup_insert_eq|]. apply wp_ret. exists key, f, (mkFileHandle 0 p 0 0).
    split_and!; [done..|]. simpl. by rewrite insert_insert_eq.
  - apply wp_ret, wp_ret. by exists key, f, (mkFileHandle (u64 fd) p 0 0).
Qed.

Lemma registered_file_ok s n p h fi r s' :
  lf_ok (s, n) → rt_handles n !! p = Some h → GetValue "cache" h = None → ¬ registered s p →
  registered_file s n p h fi r s' → r.1 = 0 ∧ lf_ok s'.
Proof.
  intros Hok Hp Hcv Hnr (key & f & x & -> & Hkey & Hf & Hobj & _ & _ & ->). split; [done|].
  set (s1 := lf_with_handles _ _ _). set (n1 := rt_set_handles _ _).
  assert (Hok1 : lf_ok (s1, n1)) by (apply lf_ok_add; [done..|by rewrite Hcv]).
  apply (lf_ok_native s1 n1 f x key (handle_with_id key h)); rewrite ?Hobj; [done..|apply lookup_insert_eq| |done|].
  - unfold n1. rewrite fn_handles_set. apply lookup_insert_eq.
  - intros f' x' Hf' Heq. destruct (ok_native _ Hok f' x' Hf') as (id & g & Hid & _).
    apply Hnr. exists id. simpl in Hid. congruence.
Qed.

(** ** The callbacks, one by one *)

(** The law of the operation that is called. *)
Ltac fuse_law :=
  first [ apply fn_CreateDir | apply fn_DeleteDir | apply fn_IsDirEmpty | apply fn_RenameDir
        | apply fn_DeleteFile | apply fn_RenameFile | apply fn_TruncateFile | apply fn_SyncDir
        | apply fn_CreateLink | apply fn_Chmod | apply fn_FileUsed | apply fn_ReadLink | apply fn_StatFs
        | apply fn_GetAttr | apply fn_StreamDir | apply fn_CreateFile | apply fn_OpenFile
        | apply fn_CloseFile | apply fn_FlushFile | apply fn_SyncFile | apply fn_ReadInBuffer
        | apply fn_WriteFile | apply fn_pread | apply fn_pwrite | apply fn_statvfs | apply fn_time
        | apply fn_context ].
Ltac fuse_call := apply wp_bind; eapply wp_next; [fuse_law|].
(** A result code is in its list. *)
Ltac in_codes :=
  unfold code_exact, code_os, code_noent; repeat case_match;
  repeat first [apply list_elem_of_here | apply list_elem_of_further].
(** The end of a callback: a code, and the invariant by [lf_ok_kept]. *)
Ltac fuse_ret :=
  repeat case_bool_decide; repeat apply wp_ret;
  (split; [simpl; in_codes | eauto 3 using lf_ok_kept, kept_trans]).

Lemma populate_uid_gid_ok s n :
  lf_ok (s, n) → wp populate_uid_gid (λ _ s', lf_ok s') (s, n).
Proof.
  intros Hok. unfold populate_uid_gid. apply wp_bind. unfold wp at 1, go_gets.
  destruct (lf_context _) as [ids|]; [by apply wp_ret|].
  fuse_call. intros ids n' HK. apply wp_bind. unfold wp at 1, set_lf, go_modify. apply wp_ret.
  apply (lf_ok_same s); [done..|]. by eapply lf_ok_kept.
Qed.

Lemma libfuse_getattr_ok path st s n : lf_ok (s, n) →
  wp (libfuse_getattr next path st) (λ r s', r.1 ∈ [0; - c_ENOENT; - c_EACCES; - c_EIO] ∧ lf_ok s') (s, n).
Proof.
  intros Hok. unfold libfuse_getattr. case_bool_decide.
  { unfold get_root_properties. apply wp_bind. eapply wp_mono; [by apply populate_uid_gid_ok|].
    intros [uid gid] [s1 n1] Hok1. fuse_call. intros t n2 HK. fuse_ret. }
  destruct (default false _); [fuse_ret|].
  fuse_call. intros [a err] n1 [HK Ha]. simpl in *. case_bool_decide as He; [fuse_ret|].
  subst err. destruct Ha as [x Hx].
  apply wp_bind. apply wp_lf_conf. apply wp_bind. eapply wp_lf_load_attr; [done|]. fuse_ret.
Qed.

Lemma libfuse_mkdir_ok path mode s n : lf_ok (s, n) →
  wp (libfuse_mkdir next path mode) (λ r s', r ∈ [0; - c_EACCES; - c_EEXIST; - c_EIO] ∧ lf_ok s') (s, n).
Proof. intros Hok. unfold libfuse_mkdir. fuse_call. intros err n' HK. fuse_ret. Qed.

Lemma libfuse_opendir_ok path fi s n : lf_ok (s, n) → small_map s →
  wp (libfuse_opendir path fi) (λ r s', r.1 = 0 ∧ lf_ok s') (s, n).
Proof.
  intros Hok Hsz. unfold libfuse_opendir. set (name := if bool_decide _ then _ else _). clearbody name.
  apply wp_bind. unfold new_handle. apply wp_snd. unfold wp at 1. set (p := fresh_ptr _).
  assert (Hp : rt_handles n !! p = None) by apply fresh_ptr_lookup. clearbody p.
  assert (Hnr : ¬ registered s p) by (by eapply not_registered).
  apply wp_bind. unfold wp at 1, new_dir_cache. simpl. set (c := fresh_ptr _).
  assert (Hc : lf_dirs s !! c = None) by apply fresh_ptr_lookup. clearbody c.
  pose proof (lf_ok_set_dir s n c _ Hok (empty_page_ok n)) as Hok1. set (s1 := lf_with_dirs _ s) in *.
  apply wp_bind. eapply wp_lf_upd_handle; [rewrite fn_handles_set; apply lookup_insert_eq|].
  rewrite fn_handles_set, insert_insert_eq. set (h := SetValue _ _ _). set (n2 := rt_set_handles _ _).
  assert (Hn2 : rt_handles n2 = <[p:=h]> (rt_handles n)) by (unfold n2; by rewrite fn_handles_set).
  assert (Hok2 : lf_ok (s1, n2)).
  { eapply lf_ok_kept; [done|]. eapply (kept_new_handle _ _ p h); [done..|]. unfold n2. by rewrite !fn_objs_set. }
  apply wp_bind. eapply wp_Add; [rewrite Hn2; apply lookup_insert_eq|done|]. intros key Hkey _. apply wp_ret.
  split; [done|]. apply lf_ok_add; [done|rewrite Hn2; apply lookup_insert_eq|done..|].
  intros v [= <-]. exists c. eexists. split; [done|]. apply lookup_insert_eq.
Qed.

Lemma libfuse_releasedir_ok path fi s n : lf_ok (s, n) → open_dir_fh (s, n) (fi_fh fi) →
  wp (libfuse_releasedir path fi) (λ r s', r = 0 ∧ lf_ok s') (s, n).
Proof.
  intros Hok (id & h & Hid & Hh & [v Hv]). unfold libfuse_releasedir. simpl in *.
  apply wp_bind. eapply wp_lf_upd_handle; [done|].
  apply wp_bind. eapply wp_lf_get_handle; [rewrite fn_handles_set; apply lookup_insert_eq|].
  apply wp_bind. unfold wp at 1, handlemap_Delete, set_lf, go_modify. apply wp_ret. split; [done|].
  destruct (ok_registered _ Hok id _ Hid) as (h' & Hh' & Hidh). simpl in *. simplify_eq.
  eapply (lf_ok_delete _ _ _ (fi_fh fi)); [|done|].
  - eapply lf_ok_drop_cache; [done..|]. unfold GetValue. by rewrite Cleanup_values.
  - intros f x Hf Heq. destruct (ok_native _ Hok f x Hf) as (id' & g & _ & Hg & Hgc). simpl in *. congruence.
Qed.

Lemma libfuse_rmdir_ok path s n : lf_ok (s, n) →
  wp (libfuse_rmdir next path) (λ r s', r ∈ [0; - c_ENOTEMPTY; - c_ENOENT; - c_EIO] ∧ lf_ok s') (s, n).
Proof.
  intros Hok. unfold libfuse_rmdir. fuse_call. intros empty n1 HK1. destruct empty; simpl; [|fuse_ret].
  fuse_call. intros err n2 HK2. fuse_ret.
Qed.

Lemma libfuse_statfs_ok path buf s n : lf_ok (s, n) →
  wp (libfuse_statfs next path buf) (λ r s', r.1 ∈ [0; - c_EIO] ∧ lf_ok s') (s, n).
Proof.
  intros Hok. unfold libfuse_statfs. fuse_call. intros [[attr populated] err] n1 [HK1 Ha]. simpl in *.
  case_bool_decide; [fuse_ret|]. subst err. destruct populated.
  - destruct Ha as [a ->]; [done..|]. fuse_ret.
  - unfold populate_statfs. apply wp_bind. fuse_call. intros r n2 HK2. fuse_ret.
Qed.

Lemma libfuse_create_ok path mode fi s n : lf_ok (s, n) → small_map s →
  wp (libfuse_create next path mode fi) (λ r s', r.1 ∈ [0; - c_EEXIST; - c_EIO] ∧ lf_ok s') (s, n).
Proof.
  intros Hok Hsz. unfold libfuse_create. fuse_call. intros [p err] n1 [HK1 Hp]. simpl in *.
  case_bool_decide; [fuse_ret|]. destruct Hp as (Hnew & h & Hh & Hc); [done|].
  eapply wp_mono; [by apply register_file_run|]. intros r s' Hr.
  apply registered_file_ok in Hr as [Hr Hok']; [|by eapply lf_ok_kept|done..|by eapply not_registered].
  split; [rewrite Hr; in_codes|done].
Qed.

Lemma open_file_ok name fi s n : lf_ok (s, n) → small_map s →
  wp (open_file next name fi) (λ r s', r.1 ∈ [0; - c_ENOENT; - c_EACCES; - c_EIO] ∧ lf_ok s') (s, n).
Proof.
  intros Hok Hsz. unfold open_file. apply wp_bind, wp_lf_conf. fuse_call. intros [p err] n1 [HK1 Hp]. simpl in *.
  case_bool_decide; [fuse_ret|]. destruct Hp as (Hnew & h & Hh & Hc); [done|].
  apply wp_bind. eapply wp_lf_get_handle; [done|].
  eapply wp_mono; [by apply register_file_run|]. intros r s' Hr.
  apply registered_file_ok in Hr as [Hr Hok']; [|by eapply lf_ok_kept|done..|by eapply not_registered].
  split; [rewrite Hr; in_codes|done].
Qed.

Lemma libfuse2_create_ok path mode fi s n : lf_ok (s, n) → small_map s →
  wp (libfuse2_create next path mode fi) (λ r s', r.1 ∈ [0; - c_EEXIST; - c_EIO] ∧ lf_ok s') (s, n).
Proof.
  intros Hok Hsz. unfold libfuse2_create. fuse_call. intros [p err] n1 [HK1 Hp]. simpl in *.
  case_bool_decide; [fuse_ret|]. destruct Hp as (Hnew & h & Hh & Hc); [done|].
  apply wp_bind. eapply wp_lf_get_handle; [done|].
  eapply wp_mono; [by apply register_file_run|]. intros r s' Hr.
  apply registered_file_ok in Hr as [Hr Hok']; [|by eapply lf_ok_kept|done..|by eapply not_registered].
  split; [rewrite Hr; in_codes|done].
Qed.

Lemma libfuse2_open_ok path fi s n : lf_ok (s, n) → small_map s →
  wp (libfuse2_open next path fi) (λ r s', r.1 ∈ [0; - c_EINVAL; - c_ENOENT; - c_EACCES; - c_EIO] ∧ lf_ok s') (s, n).
Proof.
  intros Hok Hsz. eapply wp_mono; [by apply open_file_ok|]. intros r s' [Hr Hs]. split; [|done].
  apply elem_of_cons in Hr as [->|Hr]; [in_codes|]. by apply list_elem_of_further, list_elem_of_further.
Qed.

Lemma libfuse_open_ok path fi s n : lf_ok (s, n) → small_map s →
  wp (libfuse_open next path fi) (λ r s', r.1 ∈ [0; - c_EINVAL; - c_ENOENT; - c_EACCES; - c_EIO] ∧ lf_ok s') (s, n).
Proof.
  intros Hok Hsz. unfold libfuse_open. apply wp_bind, wp_lf_conf. destruct (writeback_open_flags _ _); [|fuse_ret].
  eapply wp_mono; [by apply open_file_ok|]. intros r s' [Hr Hs]. split; [|done].
  apply elem_of_cons in Hr as [->|Hr]; [in_codes|]. by apply list_elem_of_further, list_elem_of_further.
Qed.

(** What an open file handle stands for. *)
Lemma open_file_facts s n fh : lf_ok (s, n) → open_file_fh (s, n) fh →
  ∃ x h, lf_native s !! fh = Some x ∧ lf_handles s !! hID h = Some (fh_obj x) ∧
    rt_handles n !! fh_obj x = Some h ∧ GetValue "cache" h = None.
Proof.
  intros Hok [x Hx]. destruct (ok_native _ Hok fh x Hx) as (id & h & Hid & Hh & Hc). simpl in *.
  destruct (ok_registered _ Hok id _ Hid) as (h' & Hh' & Hidh). simpl in *. simplify_eq. by exists x, h.
Qed.
Lemma wp_file_of fi x Q s n :
  lf_native s !! fi_fh fi = Some x → Q (x, fh_obj x) (s, n) → wp (file_of fi) Q ((s, n) : lf).
Proof. intros Hx HQ. apply wp_bind. eapply wp_get_native; [done|]. by apply wp_ret. Qed.

Lemma i32_small x : - 2 ^ 31 ≤ x < 2 ^ 31 → i32 x = x.
Proof. intros Hx. unfold i32. rewrite Z.mod_small; lia. Qed.

(** The range of the results of reads and writes. *)
Definition io_result (size c : Z) : Prop := - 4095 ≤ c ≤ size.
Lemma io_result_count size c : size ≤ c_array_size → 0 ≤ c ≤ size → io_result size (i32 c).
Proof. unfold io_result, c_array_size. intros. rewrite i32_small; lia. Qed.
Lemma io_result_EIO size : 0 ≤ size → io_result size (- c_EIO).
Proof. unfold io_result, c_EIO. lia. Qed.
Lemma io_result_errno size e : 0 ≤ size → 1 ≤ e ≤ 4095 → io_result size (- e).
Proof. unfold io_result. lia. Qed.

Lemma libfuse_read_ok path buf size off fi s n :
  lf_ok (s, n) → buffer_ok buf size → open_file_fh (s, n) (fi_fh fi) →
  wp (libfuse_read next path buf size off fi) (λ r s', io_result size r.1 ∧ lf_ok s') (s, n).
Proof.
  intros Hok [Hs1 Hs2] Hfh. destruct (open_file_facts _ _ _ Hok Hfh) as (x & h & Hx & _ & Hh & _).
  unfold libfuse_read. apply wp_bind. eapply wp_file_of; [done|]. apply wp_bind. eapply wp_lf_get_handle; [done|].
  destruct (Z.ltb_spec c_array_size size) as [|_]; [lia|].
  set (data := take _ buf). assert (Hd : Z.of_nat (length data) = size) by (unfold data; rewrite length_take; lia).
  apply wp_bind.
  eapply (wp_mono _ (λ r s', lf_ok s' ∧ (r.2 = None ∨ r.2 = Some Eof → 0 ≤ r.1.2 ≤ size))).
  { destruct (Cached h).
    - fuse_call. intros [d|e] n1 [HK Hd']; apply wp_ret; (split; [by eapply lf_ok_kept|]); simpl.
      + lia.
      + by intros [?|?].
    - eapply wp_next; [apply fn_ReadInBuffer; by exists h|]. intros [[d k] e] n1 [HK Hk]. simpl in *.
      split; [by eapply lf_ok_kept|]. lia. }
  intros [[d k] e] [s1 n1] [Hok1 Hk]. simpl in *. unfold err_is.
  destruct (bool_decide_reflect (e = Some Eof)) as [->|He]; [rewrite bool_decide_eq_false_2 by auto|].
  - apply wp_ret. split; [|done]. apply io_result_count; simpl; [lia|auto].
  - case_bool_decide; apply wp_ret; (split; [|done]); simpl; [apply io_result_EIO; lia|].
    apply io_result_count; [lia|auto].
Qed.

Lemma libfuse_write_ok path buf size off fi s n :
  lf_ok (s, n) → buffer_ok buf size → open_file_fh (s, n) (fi_fh fi) →
  wp (libfuse_write next path buf size off fi) (λ r s', io_result size r ∧ lf_ok s') (s, n).
Proof.
  intros Hok [Hs1 Hs2] Hfh. destruct (open_file_facts _ _ _ Hok Hfh) as (x & h & Hx & _ & Hh & _).
  unfold libfuse_write. apply wp_bind. eapply wp_file_of; [done|].
  destruct (Z.ltb_spec c_array_size size) as [|_]; [lia|].
  apply wp_bind. eapply wp_next; [apply fn_WriteFile; by exists h|]. intros [k e] n1 [HK Hk]. simpl in *.
  rewrite length_take in Hk.
  case_bool_decide; apply wp_ret; (split; [|by eapply lf_ok_kept]); [apply io_result_EIO; lia|].
  apply io_result_count; lia.
Qed.

Lemma native_read_file_ok path buf size off fi s n :
  lf_ok (s, n) → buffer_ok buf size → open_file_fh (s, n) (fi_fh fi) →
  wp (native_read_file next path buf size off fi) (λ r s', io_result size r.1 ∧ lf_ok s') (s, n).
Proof.
  intros Hok Hb Hfh. destruct (open_file_facts _ _ _ Hok Hfh) as (x & h & Hx & _).
  unfold native_read_file. apply wp_bind. eapply wp_get_native; [done|].
  destruct (fh_fd x =? 0); [by apply libfuse_read_ok|]. destruct Hb as [Hs1 Hs2].
  fuse_call. intros [d|e] n1 [HK Hd]; apply wp_ret; (split; [|by eapply lf_ok_kept]); simpl.
  - apply io_result_count; lia.
  - apply io_result_errno; lia.
Qed.

Lemma native_write_file_ok path buf size off fi s n :
  lf_ok (s, n) → buffer_ok buf size → open_file_fh (s, n) (fi_fh fi) →
  wp (native_write_file next path buf size off fi) (λ r s', io_result size r ∧ lf_ok s') (s, n).
Proof.
  intros Hok Hb Hfh. destruct (open_file_facts _ _ _ Hok Hfh) as (x & h & Hx & _).
  unfold native_write_file. apply wp_bind. eapply wp_get_native; [done|].
  destruct (fh_fd x =? 0); [by apply libfuse_write_ok|]. destruct Hb as [Hs1 Hs2].
  fuse_call. intros r n1 [HK Hr]. assert (Hok1 : lf_ok (s, n1)) by (by eapply lf_ok_kept).
  apply wp_bind. eapply wp_upd_native; [done|]. set (y := mkFileHandle _ _ _ _).
  assert (Hok2 := lf_ok_upd_native s n1 _ x y Hok1 Hx eq_refl).
  apply wp_bind. eapply (wp_mono _ (λ _ s', lf_ok s')).
  { destruct (_ =? 0); [|by apply wp_ret]. apply wp_bind. unfold wp at 1. simpl.
    eapply wp_upd_native; [apply lookup_insert_eq|].
    eapply lf_ok_upd_native; [by eapply lf_ok_same, Hok2|apply lookup_insert_eq|done]. }
  intros _ s' Hok3. apply wp_ret. split; [|done]. rewrite length_take in Hr.
  destruct r; [apply io_result_count|apply io_result_errno]; lia.
Qed.

(** The dirty mark of the native object is on the handle afterwards. *)
Lemma propagate_dirty_run x p h s n : rt_handles n !! p = Some h →
  wp (propagate_dirty x p) (λ _ s', s'.1 = s ∧ kept n s'.2 ∧
    ∃ h', rt_handles s'.2 !! p = Some h' ∧ handle_kept h h' ∧
      (fh_dirty x ≠ 0 → handle_Dirty h' = true)) ((s, n) : lf).
Proof.
  intros Hp. unfold propagate_dirty. destruct (Z.eqb_spec (fh_dirty x) 0) as [H0|H0]; simpl.
  - apply wp_ret. split_and!; [done..|]. exists h. split_and!; [done..|]. done.
  - eapply wp_lf_upd_handle; [done|]. split_and!; [done|by apply (kept_upd_handle n p h)|].
    eexists. simpl. rewrite fn_handles_set, lookup_insert_eq. split_and!; [done..|]. intros _.
    unfold handle_Dirty, handle_with_flags. simpl. by rewrite IsSet_Set by (unfold is_bit, HandleFlagDirty; lia).
Qed.

Lemma libfuse_flush_ok path fi s n : lf_ok (s, n) → open_file_fh (s, n) (fi_fh fi) →
  wp (libfuse_flush next path fi)
    (λ r s', r ∈ [0; - c_ENOENT; - c_EACCES; - c_EIO] ∧ lf_ok s' ∧ s'.1 = s) (s, n).
Proof.
  intros Hok Hfh. destruct (open_file_facts _ _ _ Hok Hfh) as (x & h & Hx & _ & Hh & _).
  unfold libfuse_flush. apply wp_bind. eapply wp_file_of; [done|].
  apply wp_bind. eapply wp_mono; [by apply propagate_dirty_run|].
  intros _ [s1 n1] (Es & HK1 & h1 & Hh1 & _). simpl in *. subst s1.
  apply wp_bind. eapply wp_lf_get_handle; [done|]. destruct (negb _).
  { apply wp_ret. split_and!; [in_codes|by eapply lf_ok_kept|done]. }
  apply wp_bind. eapply wp_next; [apply fn_FlushFile; by exists h1|]. intros err n2 HK2.
  case_bool_decide; apply wp_ret; (split_and!; [in_codes|eauto using lf_ok_kept|done]).
Qed.

Lemma native_flush_file_ok path fi s n : lf_ok (s, n) → open_file_fh (s, n) (fi_fh fi) →
  wp (native_flush_file next path fi) (λ r s', r ∈ [0; - c_ENOENT; - c_EACCES; - c_EIO] ∧ lf_ok s') (s, n).
Proof.
  intros Hok Hfh. destruct (open_file_facts _ _ _ Hok Hfh) as (x & h & Hx & _).
  unfold native_flush_file. apply wp_bind. eapply wp_mono; [by apply libfuse_flush_ok|].
  intros r [s1 n1] (Hr & Hok1 & Es). simpl in Es. subst s1. apply wp_bind. destruct (r =? 0).
  - eapply wp_upd_native; [done|]. apply wp_ret. split; [done|]. by eapply lf_ok_upd_native.
  - apply wp_ret, wp_ret. done.
Qed.

Lemma libfuse_truncate_ok path off s n : lf_ok (s, n) →
  wp (libfuse_truncate next path off) (λ r s', r ∈ [0; - c_ENOENT; - c_EIO] ∧ lf_ok s') (s, n).
Proof. intros Hok. unfold libfuse_truncate. fuse_call. intros err n1 HK. fuse_ret. Qed.

(** Release: on success the handle is unregistered and the native object freed; on
    an error both stay. *)
Definition released (s : LfState) (fh : ptr) (x : file_handle_t) (id : Z) (r : Z) (s' : LfState) : Prop :=
  (r = 0 ∧ s' = lf_with_native (delete fh (lf_native s))
                  (lf_with_handles (delete id (lf_handles s)) (lf_nextID s) s)) ∨
  (r ∈ [- c_ENOENT; - c_EACCES; - c_EIO] ∧ s' = s).

Lemma libfuse_release_run path fi s n x h :
  lf_native s !! fi_fh fi = Some x → rt_handles n !! fh_obj x = Some h →
  wp (libfuse_release next path fi) (λ r s', released s (fi_fh fi) x (hID h) r s'.1 ∧ kept n s'.2) (s, n).
Proof.
  intros Hx Hh. unfold libfuse_release. apply wp_bind. eapply wp_file_of; [done|].
  apply wp_bind. eapply wp_mono; [by apply propagate_dirty_run|].
  intros _ [s1 n1] (Es & HK1 & h1 & Hh1 & (Hid1 & _) & _). simpl in *. subst s1.
  apply wp_bind. eapply wp_next; [apply fn_CloseFile; by exists h1|]. intros err n2 HK2.
  case_bool_decide.
  { apply wp_ret. split; [right; split; [in_codes|done]|by etrans]. }
  destruct (proj1 HK2 _ _ Hh1) as (h2 & Hh2 & (Hid2 & _)).
  apply wp_bind. eapply wp_lf_get_handle; [done|]. apply wp_bind. unfold wp at 1, handlemap_Delete, set_lf, go_modify.
  apply wp_bind. unfold wp at 1, release_native_file_object, set_lf, go_modify. apply wp_ret.
  split; [|by etrans]. left. split; [done|]. simpl. by rewrite Hid2, Hid1.
Qed.

Lemma libfuse_release_ok path fi s n : lf_ok (s, n) → open_file_fh (s, n) (fi_fh fi) →
  wp (libfuse_release next path fi) (λ r s', r ∈ [0; - c_ENOENT; - c_EACCES; - c_EIO] ∧ lf_ok s') (s, n).
Proof.
  intros Hok Hfh. destruct (open_file_facts _ _ _ Hok Hfh) as (x & h & Hx & Hid & Hh & _).
  eapply wp_mono; [by eapply libfuse_release_run|].
  intros r [s1 n1] [[[-> Es]|[Hr Es]] HK]; simpl in *; subst s1.
  - split; [in_codes|]. eapply lf_ok_kept; [|done]. by eapply lf_ok_release.
  - split; [by apply list_elem_of_further|]. by eapply lf_ok_kept.
Qed.

Lemma libfuse_unlink_ok path s n : lf_ok (s, n) →
  wp (libfuse_unlink next path) (λ r s', r ∈ [0; - c_ENOENT; - c_EACCES; - c_EIO] ∧ lf_ok s') (s, n).
Proof. intros Hok. unfold libfuse_unlink. fuse_call. intros err n1 HK. fuse_ret. Qed.

Lemma libfuse_symlink_ok target link s n : lf_ok (s, n) →
  wp (libfuse_symlink next target link) (λ r s', r ∈ [0; - c_EIO] ∧ lf_ok s') (s, n).
Proof. intros Hok. unfold libfuse_symlink. fuse_call. intros err n1 HK. fuse_ret. Qed.

Lemma libfuse_fsync_ok path ds fi s n : lf_ok (s, n) → open_file_fh (s, n) (fi_fh fi) →
  wp (libfuse_fsync next path ds fi) (λ r s', r ∈ [0; - c_EIO] ∧ lf_ok s') (s, n).
Proof.
  intros Hok Hfh. destruct (open_file_facts _ _ _ Hok Hfh) as (x & h & Hx & _ & Hh & _).
  unfold libfuse_fsync. case_bool_decide; [fuse_ret|].
  apply wp_bind. eapply wp_file_of; [done|]. apply wp_bind. eapply wp_next; [apply fn_SyncFile; by exists h|].
  intros err n1 HK. fuse_ret.
Qed.

Lemma libfuse_fsyncdir_ok path ds fi s n : lf_ok (s, n) →
  wp (libfuse_fsyncdir next path ds fi) (λ r s', r ∈ [0; - c_EIO] ∧ lf_ok s') (s, n).
Proof. intros Hok. unfold libfuse_fsyncdir. fuse_call. intros err n1 HK. fuse_ret. Qed.

Lemma libfuse_chmod_ok path mode s n : lf_ok (s, n) →
  wp (libfuse_chmod next path mode) (λ r s', r ∈ [0; - c_ENOENT; - c_EACCES; - c_EIO] ∧ lf_ok s') (s, n).
Proof. intros Hok. unfold libfuse_chmod. fuse_call. intros err n1 HK. fuse_ret. Qed.

(** Readlink of a target that fits: the buffer holds it with a terminating zero. *)
Definition link_in_buffer (target buf : list byte) : list byte :=
  target ++ zero_byte :: drop (S (length target)) buf.
Lemma libfuse_readlink_run path buf size s n : 4096 ≤ size → buffer_ok buf size →
  wp (libfuse_readlink next path buf size) (λ r s', s'.1 = s ∧ kept n s'.2 ∧
    (r.1 ∈ [- c_ENOENT; - c_EIO] ∨ r.1 = 0 ∧ ∃ target, r.2 = link_in_buffer (bytes_of_string target) buf)) (s, n).
Proof.
  intros Hsz [[_ Hs1] Hs2]. unfold libfuse_readlink. fuse_call. intros [t err] n1 [HK Ht]. simpl in *.
  case_bool_decide; [apply wp_ret; split_and!; [done..|left; in_codes]|].
  specialize (Ht ltac:(done)). set (target := bytes_of_string t) in *.
  unfold c_array_size in *. rewrite u64_small by lia.
  destruct (Z.ltb_spec (2 ^ 30) (size - 1)) as [|_]; [lia|].
  rewrite take_ge, Nat.min_r by lia.
  destruct (Nat.ltb_spec (length target) (length (target ++ drop (length target) buf))) as [_|Hl];
    [|rewrite length_app, length_drop in Hl; lia].
  apply wp_ret. split_and!; [done..|right]. split; [done|]. exists t. unfold link_in_buffer. fold target. simpl.
  rewrite insert_app_r_alt, Nat.sub_diag by done. f_equal.
  destruct (drop (length target) buf) as [|b l] eqn:E.
  { apply (f_equal length) in E. rewrite length_drop in E. simpl in E. lia. }
  simpl. f_equal. replace (S (length target)) with (length target + 1)%nat by lia. by rewrite <-drop_drop, E.
Qed.

Lemma attr_is_dir_run p a Q s n :
  rt_objs n !! p = Some a → Q (IsDir a) (s, n) → wp (attr_is_dir p) Q ((s, n) : lf).
Proof. intros Hp HQ. apply wp_bind. eapply wp_lf_load_attr; [done|]. by apply wp_ret. Qed.

Lemma rename_entry_ok d e src dst s n : lf_ok (s, n) →
  wp (rename_entry next d e src dst) (λ r s', r ∈ [0; - c_ENOTEMPTY; - c_EIO] ∧ lf_ok s') (s, n).
Proof.
  intros Hok. unfold rename_entry. destruct d.
  - apply wp_bind. eapply (wp_mono _ (λ _ s', lf_ok s')).
    { destruct e; [|by apply wp_ret]. eapply wp_next; [fuse_law|]. intros b n1 HK. by eapply lf_ok_kept. }
    intros b [s1 n1] Hok1. destruct (negb b); [fuse_ret|]. fuse_call. intros err n2 HK. fuse_ret.
  - fuse_call. intros err n2 HK. fuse_ret.
Qed.

Lemma rename_compatible_ok e pd ps src dst s n : lf_ok (s, n) →
  (e = true → is_Some (rt_objs n !! pd)) → is_Some (rt_objs n !! ps) →
  wp (rename_compatible next e pd ps src dst)
    (λ r s', r ∈ [0; - c_EISDIR; - c_ENOTDIR; - c_ENOTEMPTY; - c_EIO] ∧ lf_ok s') (s, n).
Proof.
  intros Hok Hpd [sa Hsa]. unfold rename_compatible.
  apply wp_bind. eapply (wp_mono _ (λ _ s', s' = (s, n))).
  { unfold dst_dir_src_not. destruct e; [|by apply wp_ret]. destruct (Hpd eq_refl) as [da Hda].
    apply wp_bind. eapply attr_is_dir_run; [done|]. destruct (IsDir da); [|by apply wp_ret].
    apply wp_bind. eapply attr_is_dir_run; [done|]. by apply wp_ret. }
  intros b1 ? ->. destruct b1; [fuse_ret|]. apply wp_bind. eapply (wp_mono _ (λ _ s', s' = (s, n))).
  { unfold dst_file_src_dir. destruct e; [|by apply wp_ret]. destruct (Hpd eq_refl) as [da Hda].
    apply wp_bind. eapply attr_is_dir_run; [done|]. destruct (negb _); [|by apply wp_ret].
    by eapply attr_is_dir_run. }
  intros b2 ? ->. destruct b2; [fuse_ret|]. apply wp_bind. eapply attr_is_dir_run; [done|].
  eapply wp_mono; [by apply rename_entry_ok|]. intros r s' [Hr Hs]. split; [|done]. set_solver.
Qed.

(** The rename of fuse2 is that of fuse3 without flags. *)
Lemma libfuse2_rename_as src dst Q s :
  wp (libfuse_rename next src dst 0) Q s → wp (libfuse2_rename next src dst) Q s.
Proof. done. Qed.

Lemma bind_step {S A B} (m : go S A) (f : A → go S B) s a s1 : m s = Ret (a, s1) → (m ≫= f) s = f a s1.
Proof. unfold mbind, go_bind. by intros ->. Qed.
Lemma go_snd_step {C M A} (m : go M A) (c : C) n a n1 : m n = Ret (a, n1) → go_snd m (c, n) = Ret (a, (c, n1)).
Proof. simpl. by intros ->. Qed.

(** The flags of the source are read on every path. *)
Lemma rename_compatible_panics ex pd ps src dst (s : LfState) n :
  rt_objs n !! ps = None → rename_compatible next ex pd ps src dst (s, n) = Panic.
Proof.
  intros Hps. assert (Hs : attr_is_dir ps (s, n) = Panic).
  { unfold attr_is_dir, mbind, go_bind, go_snd, load_obj. by rewrite Hps. }
  assert (Hd : (∃ d, attr_is_dir pd (s, n) = Ret (d, (s, n))) ∨ attr_is_dir pd (s, n) = Panic).
  { unfold attr_is_dir, mbind, go_bind, go_snd, load_obj. destruct (rt_objs n !! pd); simpl; eauto. }
  unfold rename_compatible, dst_dir_src_not, dst_file_src_dir, mbind, go_bind, mret, go_ret.
  destruct ex; [|by rewrite Hs].
  destruct Hd as [[[] Hd]|Hd]; rewrite Hd; [by rewrite Hs| |done].
  cbv beta iota delta [negb]. rewrite Hd. cbv beta iota delta [negb]. by rewrite Hs.
Qed.

(** Rename with a source whose attributes are a nil pointer. *)
Lemma libfuse_rename_nil src dst flags s n n1 n2 ps es pd ed :
  Z.land flags RENAME_EXCHANGE = 0 → fuse_name src ≠ "" → fuse_name dst ≠ "" → os_IsNotExist es = false →
  c_GetAttr next (mkGetAttrOptions (fuse_name src) false) n = Ret ((ps, es), n1) →
  c_GetAttr next (mkGetAttrOptions (fuse_name dst) false) n1 = Ret ((pd, ed), n2) →
  rt_objs n2 !! ps = None →
  libfuse_rename next src dst flags (s, n) =
    if negb (Z.land flags RENAME_NOREPLACE =? 0) && (bool_decide (ed = None) || os_IsExist ed)
    then Ret (- c_EEXIST, (s, n2)) else Panic.
Proof.
  intros Hx Hs Hd He H1 H2 Hnil. unfold libfuse_rename. rewrite Hx, !bool_decide_eq_false_2 by done.
  cbv beta iota zeta delta [orb negb Z.eqb].
  assert (E1 := go_snd_step _ s _ _ _ H1). assert (E2 := go_snd_step _ s _ _ _ H2).
  rewrite (bind_step _ _ _ _ _ E1), He, (bind_step _ _ _ _ _ E2).
  destruct (_ && _); [done|]. by apply rename_compatible_panics.
Qed.

(** Rename returns, or it panics after a failed lookup of the source. *)
Lemma libfuse_rename_ok src dst flags s n : lf_ok (s, n) →
  wp (libfuse_rename next src dst flags) (λ r s', r ∈ [0; - c_ENOTSUP; - c_ENOENT; - c_EEXIST; - c_EISDIR;
    - c_ENOTDIR; - c_ENOTEMPTY; - c_EIO] ∧ lf_ok s') (s, n) ∨
  (failed_lookup src n ∧ libfuse_rename next src dst flags (s, n) = Panic).
Proof.
  intros Hok.
  destruct (Z.eqb_spec (Z.land flags RENAME_EXCHANGE) 0) as [Hx|Hx]; cycle 1.
  { left. unfold libfuse_rename. rewrite (proj2 (Z.eqb_neq _ _) Hx). fuse_ret. }
  destruct (bool_decide (fuse_name src = "") || bool_decide (fuse_name dst = "")) eqn:Ee.
  { left. unfold libfuse_rename. rewrite Hx, Ee. fuse_ret. }
  pose proof (fn_GetAttr (mkGetAttrOptions (fuse_name src) false) n) as ([ps es] & n1 & E1 & HK1 & Hps)%wp_Ret.
  pose proof (fn_GetAttr (mkGetAttrOptions (fuse_name dst) false) n1) as ([pd ed] & n2 & E2 & HK2 & Hpd)%wp_Ret.
  simpl in *. set (ex := bool_decide (ed = None) || os_IsExist ed).
  assert (Hex : ex = true → is_Some (rt_objs n2 !! pd)).
  { unfold ex. destruct ed as [e|]; [|done]. change (os_IsExist (Some e) = false) in Hpd. by rewrite Hpd. }
  assert (Hok2 : lf_ok (s, n2)) by eauto using lf_ok_kept.
  assert (Hrun : os_IsNotExist es = false → libfuse_rename next src dst flags (s, n) =
    if negb (Z.land flags RENAME_NOREPLACE =? 0) && ex then Ret (- c_EEXIST, (s, n2))
    else rename_compatible next ex pd ps (fuse_name src) (fuse_name dst) (s, n2)).
  { intros He. unfold libfuse_rename. rewrite Hx, Ee. cbv beta iota zeta delta [negb Z.eqb].
    rewrite (bind_step _ _ _ _ _ (go_snd_step _ s _ _ _ E1)), He, (bind_step _ _ _ _ _ (go_snd_step _ s _ _ _ E2)).
    fold ex. by destruct (_ && ex). }
  destruct (os_IsNotExist es) eqn:E3.
  { left. unfold libfuse_rename. rewrite Hx, Ee. cbv beta iota zeta delta [negb Z.eqb]. apply wp_bind, wp_Ret.
    exists (ps, es), (s, n1). split; [by apply go_snd_step|]. cbn iota. rewrite E3. fuse_ret. }
  specialize (Hrun eq_refl). destruct (_ && ex).
  { left. unfold wp. rewrite Hrun. split; [set_solver|done]. }
  destruct (rt_objs n2 !! ps) as [sa|] eqn:Esa.
  - left. unfold wp. rewrite Hrun. eapply wp_mono; [apply (rename_compatible_ok ex pd ps); [done|done|by rewrite Esa]|].
    intros r s' [Hr Hs]. split; [|done]. set_solver.
  - right. rewrite Hrun. split; [|by apply rename_compatible_panics]. destruct es as [e|]; [by exists ps, e, n1|].
    exfalso. destruct Hps as [a Ha]. destruct (proj2 HK2 ps) as [? ?]; [by rewrite Ha|]. congruence.
Qed.

Lemma libfuse2_rename_ok src dst s n : lf_ok (s, n) →
  wp (libfuse2_rename next src dst) (λ r s', r ∈ [0; - c_ENOTSUP; - c_ENOENT; - c_EEXIST; - c_EISDIR;
    - c_ENOTDIR; - c_ENOTEMPTY; - c_EIO] ∧ lf_ok s') (s, n) ∨
  (failed_lookup src n ∧ libfuse2_rename next src dst (s, n) = Panic).
Proof. exact (libfuse_rename_ok src dst 0 s n). Qed.

(** *** Directory listings *)
Lemma new_objs_run (l : list ObjAttr) n :
  wp (mapM new_obj l) (λ ps n', kept n n' ∧ Forall2 (λ p a, rt_objs n' !! p = Some a) ps l ∧
    rt_objs n ⊆ rt_objs n' ∧ rt_handles n' = rt_handles n) n.
Proof.
  revert n. induction l as [|a l IH]; intros n; simpl; [by apply wp_ret|].
  apply wp_bind. unfold wp at 1, new_obj. set (p := fresh_ptr _).
  assert (Hp : rt_objs n !! p = None) by apply fresh_ptr_lookup. clearbody p. set (n1 := rt_set_objs _ n).
  assert (Hn1 : rt_objs n1 = <[p:=a]> (rt_objs n)) by apply rt_objs_set.
  apply wp_bind. eapply wp_mono; [apply IH|]. intros ps n2 (HK & HF & Hsub & Hh). apply wp_ret.
  rewrite Hn1 in Hsub. split_and!.
  - etrans; [by apply kept_new_obj|done].
  - constructor; [|done]. eapply lookup_weaken; [|done]. apply lookup_insert_eq.
  - etrans; [by apply insert_subseteq|done].
  - rewrite Hh. apply rt_handles_set_objs.
Qed.

Lemma fill_entries_total {B} (filler : B → string → stat_t → Z → Z * B) k c childs i idx buf s n :
  0 ≤ i → (k = 0%nat ∨ i + Z.of_nat k ≤ Z.of_nat (length childs)) →
  Forall (λ p, is_Some (rt_objs n !! p)) childs →
  wp (fill_entries filler k c childs i idx buf) (λ _ s', s' = (s, n)) ((s, n) : lf).
Proof.
  intros Hi Hk Hf. revert i idx buf Hi Hk. induction k as [|k IH]; intros i idx buf Hi Hk; simpl; [by apply wp_ret|].
  destruct (childs !! Z.to_nat i) as [p|] eqn:E; [|apply lookup_ge_None in E; lia].
  apply wp_bind. unfold wp at 1, go_deref. simpl. destruct (Forall_lookup_1 _ _ _ _ Hf E) as [a Ha].
  apply wp_bind. eapply wp_lf_load_attr; [done|]. destruct (filler _ _ _ _) as [full buf'].
  destruct (negb _); [by apply wp_ret|]. apply IH; [lia|]. right. lia.
Qed.

(** A page refilled from a listing. *)
Lemma page_ok_fill n off_64 tok attrs :
  Forall (λ p, is_Some (rt_objs n !! p)) attrs →
  page_ok n (mkDirChildCache off_64 (u64 (off_64 + Z.of_nat (length attrs))) (Z.of_nat (length attrs)) tok attrs).
Proof. by split. Qed.

Lemma refill_page_ok dots cp path off_64 s n : lf_ok (s, n) → is_Some (lf_dirs s !! cp) →
  wp (refill_page next dots cp path off_64) (λ _ s', lf_ok s' ∧ is_Some (lf_dirs s'.1 !! cp)) (s, n).
Proof.
  intros Hok [d Hd]. unfold refill_page. apply wp_bind. eapply wp_get_dir_cache; [done|].
  destruct (_ || _); [|apply wp_ret; split; [done|eauto]].
  fuse_call. intros [[attrs tok] err] n1 [HK1 Hat]. simpl in *.
  case_bool_decide; [apply wp_ret; split; [by eapply lf_ok_kept|eauto]|]. specialize (Hat ltac:(done)).
  apply wp_bind, wp_lf_conf, wp_bind.
  eapply (wp_mono _ (λ ps s', s'.1 = s ∧ kept n1 s'.2 ∧ Forall (λ p, is_Some (rt_objs s'.2 !! p)) ps)).
  { destruct (off_64 =? 0); [|by apply wp_ret]. eapply wp_next; [apply new_objs_run|].
    intros ps n2 (HK2 & HF & _ & _). split_and!; [done..|]. clear -HF. induction HF; constructor; eauto. }
  intros ps [s2 n2] (Es & HK2 & Hps). simpl in *. subst s2.
  apply wp_bind. unfold wp at 1, set_dir_cache, set_lf, go_modify.
  apply wp_ret. simpl. split; [|rewrite lookup_insert_eq; eauto].
  apply lf_ok_set_dir; [by eauto using lf_ok_kept|]. apply page_ok_fill, Forall_app. split; [done|].
  eapply Forall_impl; [done|]. apply HK2.
Qed.

Lemma readdir_ok {B} (filler : B → string → stat_t → Z → Z * B) dots buf off fi s n :
  lf_ok (s, n) → open_dir_fh (s, n) (fi_fh fi) →
  wp (readdir next filler dots buf off fi)
    (λ r s', r.1 ∈ [0; - c_ENOENT; - c_EACCES; - c_EIO] ∧ lf_ok s') (s, n).
Proof.
  intros Hok (id & h & Hid & Hh & [v Hv]). unfold readdir. simpl in *.
  apply wp_bind. eapply wp_lf_get_handle; [done|]. rewrite Hv.
  destruct (ok_cache _ Hok id _ h v Hid Hh Hv) as (cp & d & -> & Hd). simpl in Hd.
  apply wp_bind. eapply wp_mono; [apply refill_page_ok; eauto|].
  intros err [s1 n1] [Hok1 [d1 Hd1]]. simpl in *. case_bool_decide; [fuse_ret|].
  unfold serve_page. apply wp_bind. eapply wp_get_dir_cache; [done|]. destruct (_ <=? _); [fuse_ret|].
  apply wp_bind, wp_lf_conf, wp_bind. destruct (ok_pages _ Hok1 cp d1 Hd1) as [Hl Hf]. simpl in Hf.
  pose proof (u64_range (u64 off - sIndex d1)). set (st := u64 (_ - _)) in *.
  eapply wp_mono; [eapply fill_entries_total; [lia|lia|done]|]. intros buf' ? ->. fuse_ret.
Qed.

(** ** Every callback *)

Lemma wp_fst {A} (m : go lf (Z * A)) (Q : Z → lf → Prop) s :
  wp m (λ x, Q x.1) s → wp (x ← m; mret x.1) Q s.
Proof. intros Hm. apply wp_bind. eapply wp_mono; [exact Hm|]. intros x s' Hx. by apply wp_ret. Qed.

Lemma serve3_ok r s :
  lf_ok s → valid_req s r → wp (serve3 next r) (λ c s', result_codes r c ∧ lf_ok s') s ∨
    (failed_source s r ∧ serve3 next r s = Panic).
Proof.
  destruct s as [s n]. intros Hok [Hsz Hv]. simpl in Hsz.
  destruct r; simpl in *; try (by apply libfuse_rename_ok); left.
  - apply wp_fst. by apply libfuse_getattr_ok.
  - by apply libfuse_mkdir_ok.
  - apply wp_fst. by apply libfuse_opendir_ok.
  - by apply libfuse_releasedir_ok.
  - destruct Hv. apply wp_fst. by apply readdir_ok.
  - by apply libfuse_rmdir_ok.
  - apply wp_fst. by apply libfuse_statfs_ok.
  - apply wp_fst. by apply libfuse_create_ok.
  - apply wp_fst. by apply libfuse_open_ok.
  - destruct Hv. apply wp_fst. by apply native_read_file_ok.
  - destruct Hv. by apply native_write_file_ok.
  - by apply native_flush_file_ok.
  - by apply libfuse_truncate_ok.
  - by apply libfuse_release_ok.
  - by apply libfuse_unlink_ok.
  - by apply libfuse_symlink_ok.
  - destruct Hv. apply wp_fst. eapply wp_mono; [by apply libfuse_readlink_run|]. intros [c b] [s' n'] (Es & HK & Hc). simpl in *. subst s'.
    split; [|by eapply lf_ok_kept]. destruct Hc as [Hc|[-> _]]; [by apply list_elem_of_further|in_codes].
  - by apply libfuse_fsync_ok.
  - by apply libfuse_fsyncdir_ok.
  - by apply libfuse_chmod_ok.
  - by apply wp_ret.
  - by apply wp_ret.
Qed.

Lemma serve2_ok r s :
  lf_ok s → valid_req s r → wp (serve2 next r) (λ c s', result_codes r c ∧ lf_ok s') s ∨
    (failed_source s r ∧ serve2 next r s = Panic).
Proof.
  destruct s as [s n]. intros Hok [Hsz Hv]. simpl in Hsz.
  destruct r; simpl in *; try (by apply libfuse2_rename_ok); left.
  - apply wp_fst. by apply libfuse_getattr_ok.
  - by apply libfuse_mkdir_ok.
  - apply wp_fst. by apply libfuse_opendir_ok.
  - by apply libfuse_releasedir_ok.
  - destruct Hv. apply wp_fst. by apply readdir_ok.
  - by apply libfuse_rmdir_ok.
  - apply wp_fst. by apply libfuse_statfs_ok.
  - apply wp_fst. by apply libfuse2_create_ok.
  - apply wp_fst. by apply libfuse2_open_ok.
  - destruct Hv. apply wp_fst. by apply native_read_file_ok.
  - destruct Hv. by apply native_write_file_ok.
  - by apply native_flush_file_ok.
  - by apply libfuse_truncate_ok.
  - by apply libfuse_release_ok.
  - by apply libfuse_unlink_ok.
  - by apply libfuse_symlink_ok.
  - destruct Hv. apply wp_fst. eapply wp_mono; [by apply libfuse_readlink_run|]. intros [c b] [s' n'] (Es & HK & Hc). simpl in *. subst s'.
    split; [|by eapply lf_ok_kept]. destruct Hc as [Hc|[-> _]]; [by apply list_elem_of_further|in_codes].
  - by apply libfuse_fsync_ok.
  - by apply libfuse_fsyncdir_ok.
  - by apply libfuse_chmod_ok.
  - by apply wp_ret.
  - by apply wp_ret.
Qed.

Lemma serve_ok v r s :
  lf_ok s → valid_req s r → wp (serve next v r) (λ c s', result_codes r c ∧ lf_ok s') s ∨
    (failed_source s r ∧ serve next v r s = Panic).
Proof. destruct v; [apply serve3_ok|apply serve2_ok]. Qed.

(** The states of a mount: it starts with empty tables; then requests are served,
    goroutines of blobfuse_cache_update run, and the other components work. *)
Inductive reachable (v : fuse_version) : lf → Prop :=
  | reach_init c n : reachable v (init_LfState c, n)
  | reach_serve s r c s' : reachable v s → valid_req s r → serve next v r s = Ret (c, s') → reachable v s'
  | reach_used s s' : reachable v s → run_FileUsed next s = Ret (tt, s') → reachable v s'
  | reach_next s n n' : reachable v (s, n) → kept n n' → reachable v (s, n').

Lemma run_FileUsed_ok s : lf_ok s → wp (run_FileUsed next) (λ _ s', lf_ok s') s.
Proof.
  destruct s as [s n]. intros Hok. unfold run_FileUsed. apply wp_bind. unfold wp at 1, go_gets.
  destruct (lf_used _) as [|name l]; [by apply wp_ret|].
  apply wp_bind. unfold wp at 1, set_lf, go_modify. fuse_call. intros e n1 HK. apply wp_ret.
  eapply lf_ok_kept; [|exact HK]. by apply (lf_ok_same s).
Qed.

Lemma reachable_ok v s : reachable v s → lf_ok s.
Proof.
  induction 1 as [c n|s r c s' _ IH Hv Hs|s s' _ IH Hs|s n n' _ IH HK].
  - split; simpl; done.
  - pose proof (serve_ok v r s IH Hv) as [Hw|[_ Hw]]; [unfold wp in Hw|]; rewrite Hs in Hw; [by destruct Hw|done].
  - pose proof (run_FileUsed_ok s IH) as Hw. unfold wp in Hw. by rewrite Hs in Hw.
  - by eapply lf_ok_kept.
Qed.

(** C5: In every state of a mount with fuse3 or fuse2 over a next component that keeps the
    contract [FuseNext], every request the kernel may send returns: its result is 0, a
    byte count or one of the negated error numbers of its contract, and registered handles,
    native file objects and directory pages are consistent before and after.  The one
    exception is a rename whose source lookup failed for another reason than that the
    source does not exist: that callback may panic. *)
Theorem serve_typed v r s :
  reachable v s → valid_req s r →
  lf_ok s ∧ (wp (serve next v r) (λ c s', result_codes r c ∧ lf_ok s') s ∨
             (failed_source s r ∧ serve next v r s = Panic)).
Proof. intros Hs Hv. pose proof (reachable_ok v s Hs). split; [done|]. by apply serve_ok. Qed.

(** ** Opening and releasing a file *)
Definition tables (s : LfState) : gmap Z ptr * gmap ptr file_handle_t * gmap ptr dirChildCache :=
  (lf_handles s, lf_native s, lf_dirs s).

Lemma code_os_nonzero err : code_os err ≠ 0.
Proof. unfold code_os. by repeat case_match. Qed.

Lemma open_file_run name fi s n : lf_ok (s, n) → small_map s →
  wp (open_file next name fi) (λ r s',
    (r.1 ≠ 0 ∧ s'.1 = s) ∨
    (∃ n1 p h, registered_file s n1 p h fi r s' ∧ ¬ registered s p)) (s, n).
Proof.
  intros Hok Hsz. unfold open_file. apply wp_bind, wp_lf_conf. fuse_call. intros [p err] n1 [HK1 Hp]. simpl in *.
  case_bool_decide; [apply wp_ret; left; split; [apply code_os_nonzero|done]|].
  destruct Hp as (Hnew & h & Hh & Hc); [done|].
  apply wp_bind. eapply wp_lf_get_handle; [done|].
  eapply wp_mono; [by apply register_file_run|]. intros r s' Hr. right.
  exists n1, p, h. split; [done|]. by eapply not_registered.
Qed.

(** Releasing the file that an open registered. *)
Lemma release_registered s n1 p h fi r s1 path :
  registered_file s n1 p h fi r s1 →
  wp (libfuse_release next path r.2) (λ c s2,
    tables s2.1 = if c =? 0 then tables s else tables s1.1) s1.
Proof.
  intros (key & f & x & -> & Hkey & Hf & Hobj & _ & _ & ->). simpl.
  eapply wp_mono.
  { eapply libfuse_release_run; simpl; [apply lookup_insert_eq|]. rewrite Hobj, fn_handles_set. apply lookup_insert_eq. }
  intros c [s2 n2] [[[-> Es]|[Hc Es]] _]; simpl in *; subst s2.
  - unfold tables. simpl. by rewrite !delete_insert_id.
  - destruct (Z.eqb_spec c 0) as [->|_]; [|done]. rewrite !elem_of_cons, elem_of_nil in Hc. by destruct Hc as [?|[?|[?|?]]].
Qed.

(** C17: Opening a file registers exactly one handle, under a number no open handle
    has, with one native object; a failed open changes no table; releasing the file
    gives the tables back as they were, unless the next component fails to close
    the file, and then they stay as they are. *)
Theorem open_release path fi s n :
  lf_ok (s, n) → small_map s →
  wp (libfuse_open next path fi) (λ r s1,
    (r.1 ≠ 0 ∧ tables s1.1 = tables s) ∨
    (r.1 = 0 ∧
     (∃ key p x, lf_handles s !! key = None ∧ ¬ registered s p ∧ fh_obj x = p ∧ fh_dirty x = 0 ∧
        lf_native s !! fi_fh r.2 = None ∧
        tables s1.1 = (<[key:=p]> (lf_handles s), <[fi_fh r.2:=x]> (lf_native s), lf_dirs s)) ∧
     wp (libfuse_release next path r.2) (λ c s2,
       tables s2.1 = if c =? 0 then tables s else tables s1.1) s1)) (s, n).
Proof.
  intros Hok Hsz. unfold libfuse_open. apply wp_bind, wp_lf_conf.
  destruct (writeback_open_flags _ _) as [fl|]; [|apply wp_ret; by left].
  eapply wp_mono; [by apply open_file_run|]. intros r s1 [[Hr Es]|(n1 & p & h & Hr & Hnr)].
  { left. by rewrite Es. }
  right. pose proof Hr as (key & f & x & -> & Hkey & Hf & Hobj & _ & Hd & ->).
  split_and!; [done| |by eapply release_registered]. by exists key, p, x.
Qed.
End spec.
