(* ===== verification/LibfuseFs.v ===== *)
(** * The libfuse component: listings, renames and native writes

    Three end-to-end statements about the callbacks.  Reading a directory from the
    first offset on gives every entry of every page of the listing once, in order,
    whatever the size of the kernel's buffers.  Rename is the rename of a tree of
    names, with the checks of rename(2).  What a process writes to the local file
    behind Go's back reaches the close of the next component. *)
From S2P Require Import Prelude GoLib Common HandleMap Internal AzUtils Libfuse LibfuseSpec.

(** ** Directory listings *)

(** The entries of [l] as a reader at offset [off] gets them. *)
Definition entry : Type := string * stat_t * Z.
Fixpoint entry_list (c : Libfuse) (off : Z) (l : list ObjAttr) : list entry :=
  match l with
  | [] => []
  | a :: l => (Name a, fillStat c a, off + 1) :: entry_list c (off + 1) l
  end.

Lemma entry_list_app c off l1 l2 :
  entry_list c off (l1 ++ l2) = entry_list c off l1 ++ entry_list c (off + Z.of_nat (length l1)) l2.
Proof.
  revert off. induction l1 as [|a l1 IH]; intros off; simpl; [f_equal; lia|].
  rewrite IH. do 3 f_equal. lia.
Qed.
Lemma entry_list_last c off l :
  last (entry_list c off l) = match last l with
    None => None | Some a => Some (Name a, fillStat c a, off + Z.of_nat (length l)) end.
Proof.
  destruct l as [|b l _] using rev_ind; [done|].
  rewrite entry_list_app. simpl. rewrite !last_snoc, length_app. simpl. do 2 f_equal. lia.
Qed.

Section listing.
Context {N : Type} `{!Runtime N, !RuntimeLaws N, !FuseOS N} (next : Component N) `{!FuseNext next}.
#[local] Abbreviation lf := (LfState * N)%type.

(** The filler of libfuse: it takes an entry or, with the buffer full, refuses it; an
    empty buffer has room for one. *)
Context {B : Type} (filler : B → string → stat_t → Z → Z * B) (entries : B → list entry).
Class FillerLaws := {
  filler_result b name st off :
    ((filler b name st off).1 = 0 ∧ entries (filler b name st off).2 = entries b ++ [(name, st, off)]) ∨
    ((filler b name st off).1 ≠ 0 ∧ (filler b name st off).2 = b);
  filler_first b name st off : entries b = [] → (filler b name st off).1 = 0
}.
Context `{!FillerLaws}.

(** A directory whose listing has the pages [pages], the i-th of them under the
    token [tok i]; only the last page may be empty. *)
Context (dir : string) (pages : list (list ObjAttr)) (tok : nat → string).
Class DirService := {
  ds_first : tok 0 = "";
  ds_more i : (0 < i < length pages)%nat → tok i ≠ "";
  ds_last : tok (length pages) = "";
  ds_some : pages ≠ [];
  ds_nonempty i : (S i < length pages)%nat → pages !! i ≠ Some [];
  ds_StreamDir i page off n : pages !! i = Some page →
    wp (c_StreamDir next (mkStreamDirOptions dir off (tok i) lf_MaxDirListCount)) (λ r n',
      kept n n' ∧ r.2 = None ∧ r.1.2 = tok (S i) ∧
      Forall2 (λ p a, rt_objs n' !! p = Some a) r.1.1 page) n
}.
Context `{!DirService}.

(** The filling loop copies a prefix of the remaining children, at least one of them
    into an empty buffer. *)
Lemma fill_entries_run k c childs l i off buf s n :
  Forall2 (λ p a, rt_objs n !! p = Some a) childs l →
  (i + k = length l)%nat → 0 ≤ off → off + Z.of_nat k < 2 ^ 62 →
  wp (fill_entries filler k c childs (Z.of_nat i) off buf) (λ b s', s' = (s, n) ∧
    ∃ j, (j ≤ k)%nat ∧ (entries buf = [] → (0 < k)%nat → (0 < j)%nat) ∧
      entries b = entries buf ++ entry_list c off (take j (drop i l))) ((s, n) : lf).
Proof.
  intros HF. revert i off buf. induction k as [|k IH]; intros i off buf Hk Hoff Hb; simpl.
  { apply wp_ret. split; [done|]. exists 0%nat. split_and!; [lia..|]. by rewrite take_0, app_nil_r. }
  destruct (lookup_lt_is_Some_2 l i) as [a Ha]; [lia|].
  destruct (Forall2_lookup_r _ _ _ _ _ HF Ha) as (p & Hp & Hobj).
  rewrite Nat2Z.id, Hp. apply wp_bind. unfold wp at 1, go_deref. simpl.
  apply wp_bind. eapply wp_lf_load_attr; [done|]. rewrite (i64_small (off + 1)) by (unfold is_i64; lia).
  pose proof (filler_result buf (Name a) (fillStat c a) (off + 1)) as Hr.
  pose proof (filler_first buf (Name a) (fillStat c a) (off + 1)) as H1.
  destruct (filler buf _ _ _) as [full b']. simpl in *.
  destruct (Z.eqb_spec full 0) as [->|Hfull]; simpl.
  - destruct Hr as [[_ Hb']|[? _]]; [|done].
    replace (Z.of_nat i + 1) with (Z.of_nat (S i)) by lia.
    eapply wp_mono; [apply IH; lia|]. intros b s' (-> & j & Hj & _ & Hent). split; [done|].
    exists (S j). split_and!; [lia..|]. rewrite Hent, Hb', (drop_S _ _ _ Ha). simpl. by rewrite <-app_assoc.
  - apply wp_ret. split; [done|]. destruct Hr as [[? _]|[_ ->]]; [done|]. exists 0%nat.
    split_and!; [lia|by intros ?%H1|]. by rewrite take_0, app_nil_r.
Qed.

(** What a reader of the directory still gets from offset [off] on: [dots] are the
    entries before the first page. *)
Context (dots : Libfuse → list ObjAttr) (c : Libfuse).
Definition all_entries : list ObjAttr := dots c ++ concat pages.
(** The pages as the handle caches them. *)
Definition cached_page (i : nat) (page : list ObjAttr) : list ObjAttr :=
  if bool_decide (i = 0%nat) then dots c ++ page else page.
Definition from_page (i : nat) : list ObjAttr := (if bool_decide (i = 0%nat) then dots c else []) ++ concat (drop i pages).

Lemma from_page_step i page : pages !! i = Some page → from_page i = cached_page i page ++ from_page (S i).
Proof.
  intros Hp. unfold from_page, cached_page. rewrite (drop_S _ _ _ Hp). simpl.
  case_bool_decide; simpl; [by rewrite <-app_assoc|done].
Qed.
Lemma pages_pos : (0 < length pages)%nat.
Proof. pose proof ds_some as Hs. destruct pages as [|? ?] eqn:E in Hs |- *; [done|simpl; lia]. Qed.
Lemma from_page_end i : (length pages ≤ i)%nat → from_page i = [].
Proof.
  intros Hi. unfold from_page. rewrite drop_ge by done. case_bool_decide; [|done].
  pose proof pages_pos. lia.
Qed.

(** The page [d] in memory has [rem] left from offset [off] on. *)
Definition page_at (n : N) (d : dirChildCache) (off : Z) (rem : list ObjAttr) : Prop :=
  ∃ page, 0 ≤ sIndex d ≤ off ∧ eIndex d = off + Z.of_nat (length rem) ∧
    dlength d = Z.of_nat (length page) ∧ drop (Z.to_nat (off - sIndex d)) page = rem ∧
    off - sIndex d + Z.of_nat (length rem) = Z.of_nat (length page) ∧
    Forall2 (λ p a, rt_objs n !! p = Some a) (children d) page.

(** The directory handle [fh], its page at address [cp], is at offset [off] and
    [rest] follows: [rem] of the page in memory, then the pages from number [i] on. *)
Record listing_at (fh cp : ptr) (off : Z) (rest : list ObjAttr) (s : lf) : Prop := {
  la_conf : lf_conf s.1 = c;
  la_handle : ∃ h, rt_handles s.2 !! fh = Some h ∧ GetValue "cache" h = Some (VDirCache cp) ∧ hPath h = dir;
  la_bound : 0 ≤ off ∧ off + Z.of_nat (length rest) < 2 ^ 62;
  la_page : ∃ d i rem, lf_dirs s.1 !! cp = Some d ∧ token d = tok i ∧ (i ≤ length pages)%nat ∧
    rest = rem ++ from_page i ∧
    ((off = 0 ∧ i = 0%nat ∧ rem = []) ∨ (0 < off ∧ (0 < i)%nat ∧ page_at s.2 d off rem))
}.

(** One round of the reader: some of the rest, at least one entry if there is any. *)
Definition served (fh cp : ptr) (off : Z) (rest : list ObjAttr) (r : Z * B) (s' : lf) : Prop :=
  r.1 = 0 ∧ ∃ j, (j ≤ length rest)%nat ∧ (rest ≠ [] → (0 < j)%nat) ∧
    entries r.2 = entry_list c off (take j rest) ∧
    (rest ≠ [] → listing_at fh cp (off + Z.of_nat j) (drop j rest) s').

Lemma page_at_advance n d off rem j :
  page_at n d off rem → (j ≤ length rem)%nat → page_at n d (off + Z.of_nat j) (drop j rem).
Proof.
  intros (page & Hs & He & Hl & Hd & Hlen & HF) Hj. exists page. rewrite length_drop. split_and!; [lia..| |lia|done].
  rewrite <-Hd, drop_drop. f_equal. lia.
Qed.

Lemma serve_page_run cp buf off d rem s n :
  lf_conf s = c → lf_dirs s !! cp = Some d → page_at n d off rem → entries buf = [] →
  off + Z.of_nat (length rem) < 2 ^ 62 →
  wp (serve_page filler cp buf off (u64 off)) (λ r s', s' = (s, n) ∧ r.1 = 0 ∧
    ∃ j, (j ≤ length rem)%nat ∧ (rem ≠ [] → (0 < j)%nat) ∧
      entries r.2 = entry_list c off (take j rem)) ((s, n) : lf).
Proof.
  intros Hc Hd (page & Hs & He & Hl & Hdr & Hlen & HF) Hb Hbound. rewrite u64_small by lia. unfold serve_page.
  apply wp_bind. eapply wp_get_dir_cache; [done|]. rewrite He. destruct (Z.leb_spec (off + Z.of_nat (length rem)) off).
  { apply wp_ret. split_and!; [done..|]. exists 0%nat. destruct rem; simpl in *; [|lia]. split_and!; [lia|done|done]. }
  apply wp_bind. apply wp_lf_conf. rewrite Hc, u64_small by lia. apply wp_bind.
  set (i := Z.to_nat (off - sIndex d)) in *.
  replace (off - sIndex d) with (Z.of_nat i) by lia.
  eapply wp_mono; [eapply (fill_entries_run _ c (children d) page i off); [done|lia..]|].
  intros b s' (-> & j & Hj & Hpos & Hent). apply wp_ret. split_and!; [done..|]. exists j.
  rewrite Hb, Hdr in Hent. split_and!; [lia| |done]. intros _. apply Hpos; [done|lia].
Qed.

(** The handle survives what keeps the handles. *)
Lemma handle_kept_lookup n n' (fh cp : ptr) :
  kept n n' → (∃ h, rt_handles n !! fh = Some h ∧ GetValue "cache" h = Some (VDirCache cp) ∧ hPath h = dir) →
  ∃ h, rt_handles n' !! fh = Some h ∧ GetValue "cache" h = Some (VDirCache cp) ∧ hPath h = dir.
Proof.
  intros HK (h & Hh & Hv & Hp). destruct (proj1 HK fh h Hh) as (h' & Hh' & (_ & Hp' & Hv')).
  exists h'. split_and!; [done|congruence..].
Qed.

(** Fetching page [i]. *)
Lemma refill_page_run cp off i page d s n :
  lf_conf s = c → lf_dirs s !! cp = Some d → token d = tok i → pages !! i = Some page →
  (off = 0 ∧ i = 0%nat ∨ 0 < off ∧ (0 < i)%nat ∧ eIndex d ≤ off) →
  off + Z.of_nat (length (cached_page i page)) < 2 ^ 62 →
  wp (refill_page next dots cp dir off) (λ e s', e = None ∧ kept n s'.2 ∧ lf_conf s'.1 = c ∧
    ∃ d', lf_dirs s'.1 !! cp = Some d' ∧ token d' = tok (S i) ∧ page_at s'.2 d' off (cached_page i page)) (s, n).
Proof.
  intros Hc Hd Ht Hp Hpos Hb. pose proof (lookup_lt_Some _ _ _ Hp) as Hi. unfold refill_page.
  apply wp_bind. eapply wp_get_dir_cache; [done|].
  replace ((off =? 0) || _) with true; [|symmetry; destruct Hpos as [[-> _]|(Hp0 & Hp1 & Hp2)]; [done|]].
  2:{ rewrite bool_decide_eq_true_2 by (rewrite Ht; apply ds_more; lia).
      destruct (Z.leb_spec (eIndex d) off); [|lia]. apply orb_true_r. }
  apply wp_bind. eapply wp_next; [rewrite Ht; by apply ds_StreamDir|].
  intros [[attrs tk] err] n1 (HK1 & He & Htk & HF). simpl in *. subst err tk. rewrite bool_decide_eq_false_2 by auto.
  apply wp_bind. apply wp_lf_conf. rewrite Hc. apply wp_bind.
  eapply (wp_mono _ (λ ps s', s'.1 = s ∧ kept n1 s'.2 ∧ rt_objs n1 ⊆ rt_objs s'.2 ∧
    Forall2 (λ p a, rt_objs s'.2 !! p = Some a) ps (if bool_decide (i = 0%nat) then dots c else []))).
  { destruct Hpos as [[-> ->]|(Hp0 & Hp1 & _)]; simpl.
    - eapply wp_next; [apply new_objs_run|]. by intros ps n2 (? & ? & ? & _).
    - destruct (Z.eqb_spec off 0); [lia|]. rewrite bool_decide_eq_false_2 by lia. apply wp_ret. by split_and!. }
  intros ps [s2 n2] (Es & HK2 & Hsub & HF2). simpl in *. subst s2.
  apply wp_bind. unfold wp at 1, set_dir_cache, set_lf, go_modify. apply wp_ret. simpl.
  split_and!; [done|by etrans|done|]. eexists. split; [apply lookup_insert_eq|]. split; [done|].
  assert (HF3 : Forall2 (λ p a, rt_objs n2 !! p = Some a) (ps ++ attrs) (cached_page i page)).
  { replace (cached_page i page) with ((if bool_decide (i = 0%nat) then dots c else []) ++ page)
      by (unfold cached_page; by case_bool_decide).
    apply Forall2_app; [done|]. eapply Forall2_impl; [exact HF|]. intros p a Hpa. exact (lookup_weaken _ _ _ _ Hpa Hsub). }
  pose proof (Forall2_length _ _ _ HF3) as Hlen. assert (0 ≤ off) by lia.
  exists (cached_page i page). simpl. rewrite Hlen, u64_small by lia. rewrite Z.sub_diag. split_and!; [lia..|done|lia|done].
Qed.

(** The rest after serving [j] entries of the page in memory. *)
Lemma served_from_page fh cp off rem i d buf s n :
  lf_conf s = c → lf_dirs s !! cp = Some d → token d = tok i → (0 < i ≤ length pages)%nat →
  (∃ h, rt_handles n !! fh = Some h ∧ GetValue "cache" h = Some (VDirCache cp) ∧ hPath h = dir) →
  page_at n d off rem → entries buf = [] → 0 ≤ off →
  off + Z.of_nat (length (rem ++ from_page i)) < 2 ^ 62 → (rem = [] → from_page i = []) →
  wp (serve_page filler cp buf off (u64 off)) (served fh cp off (rem ++ from_page i)) ((s, n) : lf).
Proof.
  intros Hc Hd Ht Hi Hh Hpg Hb Hoff Hbound Hend. rewrite length_app in Hbound.
  eapply wp_mono; [eapply serve_page_run; try done; lia|].
  intros r s' (-> & Hr & j & Hj & Hpos & Hent). split; [done|]. exists j.
  assert (Hne : rem ++ from_page i ≠ [] → rem ≠ []) by (intros Hne ->; by apply Hne, Hend).
  rewrite length_app, take_app_le, drop_app_le by done. split_and!; [lia|auto|done|].
  intros Hrest. specialize (Hpos (Hne Hrest)). split; simpl; [done..| |].
  - rewrite length_app, length_drop. lia.
  - exists d, i, (drop j rem). split_and!; [done..|lia|done|]. right. split_and!; [lia..|]. by apply page_at_advance.
Qed.

Lemma cached_page_nil i page : pages !! i = Some page → cached_page i page = [] → from_page (S i) = [].
Proof.
  intros Hp Hnil. assert (page = []) as ->.
  { unfold cached_page in Hnil. case_bool_decide; [by apply app_nil in Hnil as [_ ?]|done]. }
  pose proof (lookup_lt_Some _ _ _ Hp). apply from_page_end.
  destruct (decide (S i < length pages)%nat) as [Hlt|]; [|lia]. by destruct (ds_nonempty i Hlt).
Qed.

Lemma readdir_serves fh cp fl off rest buf s :
  listing_at fh cp off rest s → entries buf = [] →
  wp (readdir next filler dots buf off (mkFileInfo fl fh)) (served fh cp off rest) s.
Proof.
  destruct s as [s n]. intros [Hc Hh [Hoff Hbound] (d & i & rem & Hd & Ht & Hi & -> & Hpos)] Hb. simpl in *.
  pose proof Hh as (h & Hlk & Hv & Hdir). unfold readdir. simpl. apply wp_bind. eapply wp_lf_get_handle; [done|].
  rewrite Hv, Hdir. apply wp_bind. rewrite (u64_small off) by lia.
  destruct (decide (rem = [] ∧ (i < length pages)%nat)) as [[-> Hlt]|Hno].
  - destruct (lookup_lt_is_Some_2 pages i Hlt) as [page Hp]. rewrite (from_page_step i page Hp) in *. simpl in *.
    rewrite length_app in Hbound.
    eapply wp_mono; [eapply (refill_page_run cp off i page d); [done..| |lia]|].
    { destruct Hpos as [(-> & -> & _)|(? & ? & pg & _ & He & _)]; [by left|right]. simpl in He. lia. }
    intros e [s' n'] (-> & HK & Hc' & d' & Hd' & Ht' & Hpg). simpl in HK, Hc', Hd', Hpg.
    rewrite bool_decide_eq_false_2 by auto. rewrite <-(u64_small off) at 2 by lia.
    apply (served_from_page fh cp off (cached_page i page) (S i) d');
      [done|done|done|lia|by eapply handle_kept_lookup|done|done|done|rewrite length_app; lia|by apply cached_page_nil].
  - destruct Hpos as [(-> & -> & ->)|(Hoff0 & Hi0 & Hpg)].
    { destruct Hno. split; [done|]. apply pages_pos. }
    eapply (wp_mono _ (λ e s', e = None ∧ s' = (s, n))).
    { unfold refill_page. apply wp_bind. eapply wp_get_dir_cache; [done|].
      destruct Hpg as (pg & _ & He & _). destruct (Z.eqb_spec off 0); [lia|]. simpl.
      destruct (Z.leb_spec (eIndex d) off); simpl; [|by apply wp_ret].
      assert (i = length pages) as ->.
      { destruct rem; simpl in He; [|lia]. destruct (decide (i = length pages)); [done|]. destruct Hno. split; [done|lia]. }
      rewrite Ht, ds_last. by apply wp_ret. }
    intros e ? [-> ->]. rewrite bool_decide_eq_false_2 by auto. rewrite <-(u64_small off) at 2 by lia.
    apply (served_from_page fh cp off rem i d); [done..|].
    intros ->. apply from_page_end. destruct (decide (i < length pages)%nat); [by destruct Hno|lia].
Qed.

(** The reader: readdir from the offset of the last entry it has, until a round gives
    nothing.  [fresh] is an empty buffer. *)
Context (fresh : B).
Fixpoint list_dir (fuel : nat) (off : Z) (fi : fuse_file_info_t) : go lf (Z * list entry) :=
  match fuel with
  | O => go_block
  | S fuel =>
      r ← readdir next filler dots fresh off fi;
      if negb (r.1 =? 0) then mret (r.1, [])
      else
        match last (entries r.2) with
        | None => mret (0, [])
        | Some e => rest ← list_dir fuel e.2 fi; mret (rest.1, entries r.2 ++ rest.2)
        end
  end.

Lemma list_dir_run fuel fh cp fl off rest s :
  entries fresh = [] → listing_at fh cp off rest s → (length rest < fuel)%nat →
  wp (list_dir fuel off (mkFileInfo fl fh)) (λ r _, r = (0, entry_list c off rest)) s.
Proof.
  intros Hf. revert off rest s. induction fuel as [|fuel IH]; intros off rest s Hl Hfuel; [lia|]. simpl.
  apply wp_bind. eapply wp_mono; [by eapply readdir_serves|].
  intros [r b] s1 (Hr & j & Hj & Hpos & Hent & Hnext). simpl in *. subst r. simpl.
  rewrite Hent, entry_list_last. destruct rest as [|a rest]; [by rewrite take_nil|].
  specialize (Hpos ltac:(done)). specialize (Hnext ltac:(done)).
  destruct (last (take j (a :: rest))) as [x|] eqn:Hx.
  2:{ apply last_None in Hx. destruct j; [lia|done]. }
  apply wp_bind. rewrite length_take_le by done.
  eapply wp_mono; [apply IH; [exact Hnext|rewrite length_drop; simpl in *; lia]|].
  intros rr s2 ->. apply wp_ret. cbn [fst snd]. f_equal.
  trans (entry_list c off (take j (a :: rest) ++ drop j (a :: rest))); [|by rewrite take_drop].
  by rewrite entry_list_app, length_take_le.
Qed.

Definition dir_name (path : option string) : string :=
  let name := fuse_name path in if bool_decide (name ≠ "") then name +:+ "/" else name.

(** A handle fresh from opendir. *)
Lemma libfuse_opendir_run path fi s n : small_map s →
  wp (libfuse_opendir path fi) (λ r s', ∃ p cp h, r = (0, fi_with_fh p fi) ∧
    rt_handles s'.2 !! p = Some h ∧ GetValue "cache" h = Some (VDirCache cp) ∧ hPath h = dir_name path ∧
    lf_dirs s'.1 !! cp = Some (mkDirChildCache 0 0 0 "" []) ∧ lf_conf s'.1 = lf_conf s) ((s, n) : lf).
Proof using FuseNext0.
  intros Hsz. unfold libfuse_opendir. fold (dir_name path).
  apply wp_bind. unfold new_handle. apply wp_snd. unfold wp at 1. set (p := fresh_ptr _).
  apply wp_bind. unfold wp at 1, new_dir_cache. simpl. set (cp := fresh_ptr _).
  apply wp_bind. eapply wp_lf_upd_handle; [rewrite fn_handles_set; apply lookup_insert_eq|].
  apply wp_bind. eapply wp_Add; [rewrite fn_handles_set; apply lookup_insert_eq|done|]. intros key _ _. apply wp_ret.
  exists p, cp. eexists. simpl. rewrite !fn_handles_set, !lookup_insert_eq. by split_and!.
Qed.

Lemma open_and_list path fi fuel s n :
  small_map s → lf_conf s = c → entries fresh = [] → dir = dir_name path →
  Z.of_nat (length all_entries) < 2 ^ 62 → (length all_entries < fuel)%nat →
  wp (r ← libfuse_opendir path fi; list_dir fuel 0 r.2) (λ r _, r = (0, entry_list c 0 all_entries)) ((s, n) : lf).
Proof.
  intros Hsz Hc Hf Hdir Hlen Hfuel. apply wp_bind. eapply wp_mono; [by apply libfuse_opendir_run|].
  intros r s1 (p & cp & h & -> & Hh & Hv & Hp & Hd & Hc1). simpl.
  apply (list_dir_run _ p cp); [done| |done]. split.
  - congruence.
  - exists h. split_and!; [done..|congruence].
  - lia.
  - exists (mkDirChildCache 0 0 0 "" []), 0%nat, []. split_and!; [done|by rewrite ds_first|lia|done|by left].
Qed.
End listing.

(** C6: A process that opens a directory and reads it to the end gets every entry of
    every page of the listing exactly once, in the order of the pages, with its
    attributes and with consecutive offsets, and then the end: whatever buffer the
    kernel offers in each round, and in at most one round per entry and one more. *)
Theorem readdir_lists_all {N} `{!Runtime N, !RuntimeLaws N, !FuseOS N} (next : Component N) `{!FuseNext next}
    {B} (filler : B → string → stat_t → Z → Z * B) (entries : B → list entry) `{!FillerLaws filler entries}
    (fresh : B) (pages : list (list ObjAttr)) (tok : nat → string) (path : option string)
    `{!DirService next (dir_name path) pages tok} (s : LfState) (n : N) (fi : fuse_file_info_t) :
  let all := concat pages in
  entries fresh = [] → small_map s → Z.of_nat (length all) < 2 ^ 62 →
  wp (r ← libfuse_opendir path fi;
      list_dir next filler entries (λ _, []) fresh (S (length all)) 0 r.2)
    (λ r _, r = (0, entry_list (lf_conf s) 0 all)) (s, n).
Proof.
  intros all Hf Hsz Hlen.
  apply (open_and_list next filler entries (dir_name path) pages tok (λ _, []) (lf_conf s)); try done.
  unfold all_entries. simpl. fold all. lia.
Qed.

(** ** Rename

    The names of a file system: [true] for a directory.  [posix_rename] is
    rename(2), with RENAME_NOREPLACE. *)
Definition names : Type := gmap string bool.
Definition below (dir p : string) : bool := strings_HasPrefix p (dir +:+ "/").
Definition empty_dir (d : string) (m : names) : bool :=
  forallb (λ kv : string * bool, negb (below d kv.1)) (map_to_list m).
Definition moved_name (src dst p : string) : string :=
  if bool_decide (p = src) then dst
  else if below src p then dst +:+ sdrop (String.length src) p else p.
Definition move_tree (src dst : string) (m : names) : names :=
  list_to_map ((λ kv : string * bool, (moved_name src dst kv.1, kv.2)) <$> map_to_list (delete dst m)).

(** The directory of a name, "." for a name in the root. *)
Definition parent_exists (p : string) (m : names) : bool :=
  bool_decide (filepath_Dir p = ".") || bool_decide (m !! filepath_Dir p = Some true).

Definition posix_rename (noreplace : bool) (src dst : string) (m : names) : Z * names :=
  match m !! src with
  | None => (- c_ENOENT, m)
  | Some srcDir =>
      if negb (parent_exists dst m) then (- c_ENOENT, m)
      else if noreplace && bool_decide (is_Some (m !! dst)) then (- c_EEXIST, m)
      else if bool_decide (src = dst) then (0, m)
      else if below src dst then (- c_EINVAL, m)
      else match m !! dst with
      | None => (0, move_tree src dst m)
      | Some dstDir =>
          if dstDir && negb srcDir then (- c_EISDIR, m)
          else if negb dstDir && srcDir then (- c_ENOTDIR, m)
          else if srcDir && negb (empty_dir dst m) then (- c_ENOTEMPTY, m)
          else (0, move_tree src dst m)
      end
  end.

(** What the kernel has established before it sends a rename (it resolves both paths and
    answers these cases itself): the directory of the destination exists, and the
    destination is neither the source nor below it. *)
Definition kernel_checked (src dst : string) (m : names) : Prop :=
  parent_exists dst m = true ∧ src ≠ dst ∧ below src dst = false.

(** The answer of a lookup that is neither "found" nor ENOENT. *)
Definition lookup_failed (r : ptr * option error) : Prop :=
  ∃ e, r.2 = Some e ∧ e ≠ Errno ENOENT.

(** A next component with a view of its names: looking up and testing do not
    change it, a lookup is right unless it fails, and a rename that succeeds moves
    the subtree. *)
Class NameService {N : Type} `{!Runtime N, !FuseOS N} (next : Component N) := {
  ns_view : N → names;
  ns_GetAttr name n : wp (c_GetAttr next (mkGetAttrOptions name false)) (λ r n',
    kept n n' ∧ ns_view n' = ns_view n ∧
    (lookup_failed r ∨
     match ns_view n !! name with
     | Some d => r.2 = None ∧ ∃ a, rt_objs n' !! r.1 = Some a ∧ IsDir a = d
     | None => r.2 = Some (Errno ENOENT)
     end)) n;
  ns_objs name n p a : rt_objs n !! p = Some a →
    wp (c_GetAttr next (mkGetAttrOptions name false)) (λ _ n', rt_objs n' !! p = Some a) n;
  ns_IsDirEmpty name n : wp (c_IsDirEmpty next (mkIsDirEmptyOptions name)) (λ b n',
    b = empty_dir name (ns_view n) ∧ ns_view n' = ns_view n) n;
  ns_RenameFile src dst n : ns_view n !! src = Some false →
    wp (c_RenameFile next (mkRenameFileOptions src dst)) (λ e n',
      e = None → ns_view n' = move_tree src dst (ns_view n)) n;
  ns_RenameDir src dst n : ns_view n !! src = Some true →
    wp (c_RenameDir next (mkRenameDirOptions src dst)) (λ e n',
      e = None → ns_view n' = move_tree src dst (ns_view n)) n
}.

Section rename.
Context {N : Type} `{!Runtime N, !FuseOS N} (next : Component N) `{!NameService next}.
#[local] Abbreviation lf := (LfState * N)%type.

(** A rename answers what rename(2) answers and leaves the names as it does, or the
    move itself failed. *)
Definition renames_as (spec : Z * names) (r : Z) (s' : lf) : Prop :=
  (r = spec.1 ∧ ns_view s'.2 = spec.2) ∨ (spec.1 = 0 ∧ r = - c_EIO).

Lemma rename_entry_moves d e src dst s n :
  ns_view n !! src = Some d → (e = true ↔ is_Some (ns_view n !! dst)) →
  wp (rename_entry next d e src dst) (renames_as
    (if e && d && negb (empty_dir dst (ns_view n)) then (- c_ENOTEMPTY, ns_view n)
     else (0, move_tree src dst (ns_view n)))) ((s, n) : lf).
Proof.
  intros Hsrc He. unfold rename_entry. destruct d.
  - apply wp_bind. eapply (wp_mono _ (λ b s', b = (if e then empty_dir dst (ns_view n) else true) ∧
      ∃ n', s' = (s, n') ∧ ns_view n' = ns_view n)).
    { destruct e; [|apply wp_ret; eauto]. eapply wp_next; [apply ns_IsDirEmpty|]. intros b n' [-> ?]. eauto. }
    intros b ? (-> & n1 & -> & Hv). rewrite andb_true_r. destruct e; simpl.
    1: destruct (empty_dir _ _); simpl; [|apply wp_ret; by left].
    all: apply wp_bind; eapply wp_next; [apply ns_RenameDir; by rewrite Hv|];
      intros err n2 Hr; rewrite Hv in Hr; case_bool_decide; apply wp_ret; [by right|left; auto].
  - rewrite andb_false_r. simpl. apply wp_bind. eapply wp_next; [by apply ns_RenameFile|].
    intros err n2 Hr. case_bool_decide; apply wp_ret; [by right|left; auto].
Qed.

Lemma rename_compatible_refines (e : bool) pd ps sa da src dst s n :
  kernel_checked src dst (ns_view n) →
  ns_view n !! src = Some (IsDir sa) → rt_objs n !! ps = Some sa →
  (if e then ns_view n !! dst = Some (IsDir da) ∧ rt_objs n !! pd = Some da else ns_view n !! dst = None) →
  wp (rename_compatible next e pd ps src dst) (renames_as (posix_rename false src dst (ns_view n))) ((s, n) : lf).
Proof.
  intros (Hpar & Hne & Hbel) Hsrc Hps Hd. unfold rename_compatible, posix_rename.
  rewrite Hsrc, Hpar, Hbel, (bool_decide_false (src = dst)) by done. cbn [negb andb].
  apply wp_bind. eapply (wp_mono _ (λ b s', b = (e && IsDir da && negb (IsDir sa)) ∧ s' = (s, n))).
  { unfold dst_dir_src_not. destruct e; [|by apply wp_ret]. destruct Hd as [_ Hpd].
    apply wp_bind. eapply attr_is_dir_run; [done|]. destruct (IsDir da); [|by apply wp_ret].
    apply wp_bind. eapply attr_is_dir_run; [done|]. by apply wp_ret. }
  intros b1 ? [-> ->]. destruct e; simpl; [destruct Hd as [Hdst Hpd]; rewrite Hdst|rewrite Hd].
  2:{ apply wp_bind, wp_ret. apply wp_bind. eapply attr_is_dir_run; [done|].
      apply (rename_entry_moves (IsDir sa) false src dst s n); [done|]. rewrite Hd. split; [done|by intros []]. }
  destruct (IsDir da && negb (IsDir sa)) eqn:E1; [apply wp_ret; by left|].
  apply wp_bind. eapply (wp_mono _ (λ b s', b = (negb (IsDir da) && IsDir sa) ∧ s' = (s, n))).
  { unfold dst_file_src_dir. apply wp_bind. eapply attr_is_dir_run; [done|].
    destruct (IsDir da); [by apply wp_ret|]. by eapply attr_is_dir_run. }
  intros b2 ? [-> ->]. destruct (negb (IsDir da) && IsDir sa) eqn:E2; [apply wp_ret; by left|].
  apply wp_bind. eapply attr_is_dir_run; [done|].
  apply (rename_entry_moves (IsDir sa) true src dst s n); [done|]. split; [|done]. eauto.
Qed.

(** Both lookups of a rename find the name or say that it does not exist. *)
Definition lookups_answer (src dst : string) (n : N) : Prop :=
  wp (r1 ← c_GetAttr next (mkGetAttrOptions src false);
      r2 ← c_GetAttr next (mkGetAttrOptions dst false); mret (r1, r2))
    (λ r _, ¬ lookup_failed r.1 ∧ ¬ lookup_failed r.2) n.

End rename.

(** ** Native writes

    A write to the local file goes through C; Go learns of it at flush and release,
    by the dirty mark of the native object. *)
Section native.
Context {N : Type} `{!Runtime N, !RuntimeLaws N, !FuseOS N} (next : Component N) `{!FuseNext next}.
#[local] Abbreviation lf := (LfState * N)%type.

Lemma native_write_marks path buf size off fi x s n :
  lf_ok (s, n) → lf_native s !! fi_fh fi = Some x → fh_fd x ≠ 0 →
  wp (native_write_file next path buf size off fi) (λ _ s', lf_ok s' ∧
    ∃ y, lf_native s'.1 !! fi_fh fi = Some y ∧ fh_obj y = fh_obj x ∧ fh_dirty y = 1) (s, n).
Proof.
  intros Hok Hx Hfd. unfold native_write_file. apply wp_bind. eapply wp_get_native; [done|].
  destruct (Z.eqb_spec (fh_fd x) 0) as [|_]; [done|].
  apply wp_bind. eapply wp_next; [apply fn_pwrite|]. intros r n1 [HK _]. assert (Hok1 : lf_ok (s, n1)) by (by eapply lf_ok_kept).
  apply wp_bind. eapply wp_upd_native; [done|]. set (y := mkFileHandle _ _ _ _).
  assert (Hok2 := lf_ok_upd_native s n1 _ x y Hok1 Hx eq_refl).
  apply wp_bind. eapply (wp_mono _ (λ _ s', lf_ok s' ∧ ∃ z, lf_native s'.1 !! fi_fh fi = Some z ∧
    fh_obj z = fh_obj x ∧ fh_dirty z = 1)).
  { destruct (_ =? 0); [|apply wp_ret; split; [done|]; exists y; simpl; by rewrite lookup_insert_eq].
    apply wp_bind. unfold wp at 1. simpl. eapply wp_upd_native; [apply lookup_insert_eq|]. split.
    - eapply lf_ok_upd_native; [by eapply lf_ok_same, Hok2|apply lookup_insert_eq|done].
    - eexists. simpl. by rewrite lookup_insert_eq. }
  intros _ s' Hs'. by apply wp_ret.
Qed.

(** C18: What a process writes to a locally cached file is not lost: a release after a
    native write hands the next component a dirty handle to close.  If closing a
    dirty handle establishes [P] (for the file cache: the file is stored), then write
    and release do, and the native object is gone. *)
Theorem native_write_reaches_close (P : N → Prop) path buf size off fi x s n :
  lf_ok (s, n) → lf_native s !! fi_fh fi = Some x → fh_fd x ≠ 0 →
  (∀ m h, rt_handles m !! fh_obj x = Some h → handle_Dirty h = true →
     wp (c_CloseFile next (mkCloseFileOptions (fh_obj x))) (λ e m', e = None ∧ P m') m) →
  wp (_ ← native_write_file next path buf size off fi; libfuse_release next path fi)
    (λ r s', r = 0 ∧ P s'.2 ∧ lf_native s'.1 !! fi_fh fi = None) (s, n).
Proof.
  intros Hok Hx Hfd HP. apply wp_bind. eapply wp_mono; [by eapply native_write_marks|].
  intros _ [s1 n1] (Hok1 & y & Hy & Hobj & Hdy). simpl in *. unfold libfuse_release.
  destruct (open_file_facts s1 n1 (fi_fh fi) Hok1) as (y' & h & Hy' & _ & Hh & _); [by exists y|]. simplify_eq.
  apply wp_bind. eapply wp_file_of; [done|]. apply wp_bind. eapply wp_mono; [by apply (propagate_dirty_run next)|].
  intros _ [s2 n2] (Es & HK & h2 & Hh2 & _ & Hdirty). simpl in *. subst s2. rewrite Hobj in *.
  apply wp_bind. eapply wp_next.
  { apply wp_and; [apply (HP n2 h2 Hh2); apply Hdirty; by rewrite Hdy|apply fn_CloseFile; by exists h2]. }
  intros e n3 [[-> HPn] HK3]. rewrite bool_decide_eq_false_2 by auto.
  destruct (proj1 HK3 _ _ Hh2) as (h3 & Hh3 & _).
  apply wp_bind. eapply wp_lf_get_handle; [done|]. apply wp_bind. unfold wp at 1, handlemap_Delete, set_lf, go_modify.
  apply wp_bind. unfold wp at 1, release_native_file_object, set_lf, go_modify. apply wp_ret.
  split_and!; [done..|]. simpl. apply lookup_delete_eq.
Qed.
End native.

(** ** Open flags *)
Lemma land_ldiff_zero a k m : Z.land a m = 0 → Z.land (Z.ldiff a k) m = 0.
Proof.
  intros H. rewrite Z.ldiff_land, <-Z.land_assoc, (Z.land_comm _ m), Z.land_assoc, H. apply Z.land_0_l.
Qed.
Lemma land_ldiff_self a m : Z.land (Z.ldiff a m) m = 0.
Proof. by rewrite Z.ldiff_land, <-Z.land_assoc, (Z.land_comm _ m), Z.land_lnot_diag, Z.land_0_r. Qed.

Lemma mask_open_flags_clear flags :
  Z.land (mask_open_flags flags) c_O_SYNC = 0 ∧ Z.land (mask_open_flags flags) c_O_DIRECT = 0.
Proof.
  unfold mask_open_flags. destruct (Z.eqb_spec (Z.land flags c_O_SYNC) 0) as [E1|E1],
    (Z.eqb_spec (Z.land flags c_O_DIRECT) 0) as [E2|E2]; simpl;
    [done|split; [apply land_ldiff_zero, land_ldiff_self|apply land_ldiff_self]..].
Qed.

(** Masks that have no bit in common. *)
Lemma land_zero_bit m k i : Z.land m k = 0 → Z.testbit m i && Z.testbit k i = false.
Proof. intros H. by rewrite <-Z.land_spec, H, Z.bits_0. Qed.
Lemma land_lor_zero m a b : Z.land m (Z.lor a b) = 0 → Z.land m a = 0 ∧ Z.land m b = 0.
Proof. rewrite Z.land_lor_distr_r. apply Z.lor_eq_0_iff. Qed.
Lemma land_ldiff_other a k m : Z.land m k = 0 → Z.land (Z.ldiff a k) m = Z.land a m.
Proof.
  intros H. apply Z.bits_inj'. intros i Hi. rewrite !Z.land_spec, Z.ldiff_spec.
  pose proof (land_zero_bit m k i H). by destruct (Z.testbit a i), (Z.testbit m i), (Z.testbit k i).
Qed.
Lemma land_lor_other a k m : Z.land m k = 0 → Z.land (Z.lor a k) m = Z.land a m.
Proof.
  intros H. apply Z.bits_inj'. intros i Hi. rewrite !Z.land_spec, Z.lor_spec.
  pose proof (land_zero_bit m k i H). by destruct (Z.testbit a i), (Z.testbit m i), (Z.testbit k i).
Qed.

Lemma mask_open_flags_other flags m :
  Z.land m c_O_SYNC = 0 → Z.land m c_O_DIRECT = 0 → Z.land (mask_open_flags flags) m = Z.land flags m.
Proof.
  intros H1 H2. unfold mask_open_flags. destruct (_ || _); [|done]. by rewrite !land_ldiff_other.
Qed.

(** The flags with which libfuse opens a file never have O_SYNC or O_DIRECT; with
    the write-back cache of the kernel on they are never write-only and never
    O_APPEND; and no flag other than these is changed. *)
Theorem open_flags_supported c flags f :
  writeback_open_flags c (mask_open_flags flags) = Some f →
  Z.land f c_O_SYNC = 0 ∧ Z.land f c_O_DIRECT = 0 ∧
  (disableWritebackCache c = false → Z.land f c_O_APPEND = 0 ∧ Z.land f c_O_ACCMODE ≠ O_WRONLY) ∧
  (∀ m, Z.land m (Z.lor (Z.lor c_O_SYNC c_O_DIRECT) (Z.lor c_O_APPEND c_O_ACCMODE)) = 0 →
     Z.land f m = Z.land flags m).
Proof.
  destruct (mask_open_flags_clear flags) as [Hs Hd].
  pose proof (mask_open_flags_other flags) as Ho. set (g := mask_open_flags flags) in *. clearbody g.
  intros Hf. assert (Hf' : f = g ∧ (disableWritebackCache c = false →
      Z.land g c_O_ACCMODE ≠ O_WRONLY ∧ Z.land g c_O_APPEND = 0) ∨
    f = Z.lor (Z.ldiff g (Z.lor c_O_APPEND c_O_ACCMODE)) O_RDWR).
  { unfold writeback_open_flags in Hf. destruct (disableWritebackCache c); simpl in Hf; [left; by simplify_eq|].
    destruct (Z.eqb_spec (Z.land g c_O_ACCMODE) O_WRONLY), (Z.eqb_spec (Z.land g c_O_APPEND) 0), (ignoreOpenFlags c);
      simpl in Hf; simplify_eq; auto. }
  destruct Hf' as [[-> Hw]|Hf2]; [|subst f].
  - split_and!; [done..| |].
    + intros H. by destruct (Hw H).
    + intros m Hm. apply land_lor_zero in Hm as [Hm _]. apply land_lor_zero in Hm as [? ?]. by apply Ho.
  - rewrite !land_lor_other by done. split_and!; [by apply land_ldiff_zero..| |].
    + intros _. rewrite <-Z.ldiff_ldiff_l. split; [apply land_ldiff_zero, land_ldiff_self|].
      by rewrite Z.land_lor_distr_l, land_ldiff_self.
    + intros m Hm. apply land_lor_zero in Hm as [Hm1 Hm2]. apply land_lor_zero in Hm1 as [? ?].
      pose proof (land_lor_zero _ _ _ Hm2) as [_ Hm3]. change c_O_ACCMODE with (Z.lor O_WRONLY O_RDWR) in Hm3.
      apply land_lor_zero in Hm3 as [_ Hm3].
      rewrite land_lor_other by done. rewrite land_ldiff_other by done. by apply Ho.
Qed.

(** ** What goes wrong *)

(** C40: When GetAttr of the source of a rename returns a nil attribute with an error that
    does not say that it does not exist (no permission, a failed request), rename goes on:
    with RENAME_NOREPLACE and a destination that exists it answers EEXIST, otherwise it
    dereferences the nil attribute and panics, whatever the destination is. *)
Theorem rename_panics {N} `{!Runtime N, !FuseOS N} (next : Component N) src dst flags s (n n1 n2 : N) e pd ed :
  Z.land flags RENAME_EXCHANGE = 0 → fuse_name src ≠ "" → fuse_name dst ≠ "" → os_IsNotExist (Some e) = false →
  c_GetAttr next (mkGetAttrOptions (fuse_name src) false) n = Ret ((nil_ptr, Some e), n1) →
  c_GetAttr next (mkGetAttrOptions (fuse_name dst) false) n1 = Ret ((pd, ed), n2) →
  rt_objs n2 !! nil_ptr = None →
  libfuse_rename next src dst flags (s, n) =
    if negb (Z.land flags RENAME_NOREPLACE =? 0) && (bool_decide (ed = None) || os_IsExist ed)
    then Ret (- c_EEXIST, (s, n2)) else Panic.
Proof. intros Hx Hs Hd He H1 H2 Hnil. by eapply libfuse_rename_nil. Qed.
