(* ===== verification/LibfuseRuns.v ===== *)
(** * The libfuse component on a file system in memory

    A small next component ([mem]: names, directory pages, handles, and the closes it
    has seen), which has the interfaces of LibfuseSpec.v and LibfuseFs.v, and runs of
    the callbacks on it. *)
From S2P Require Import Prelude GoLib Common HandleMap Internal AzUtils Libfuse LibfuseSpec LibfuseFs.

Record mem := mkMemFs {
  m_objs : gmap ptr ObjAttr;
  m_handles : gmap ptr Handle;
  m_names : names;
  m_closed : list bool
}.
#[export] Instance mem_Runtime : Runtime mem := {
  rt_now n := Ret (0, n);
  rt_objs := m_objs;
  rt_set_objs m n := mkMemFs m (m_handles n) (m_names n) (m_closed n);
  rt_handles := m_handles;
  rt_set_handles m n := mkMemFs (m_objs n) m (m_names n) (m_closed n)
}.
#[export] Instance mem_RuntimeLaws : RuntimeLaws mem.
Proof.
  constructor; try done; intros; simpl in *; [by eexists _, _|by simplify_eq..].
Qed.
#[export] Instance mem_FuseOS : FuseOS mem := {
  os_pread _ _ _ n := Ret (inl [], n);
  os_pwrite _ d _ n := Ret (inl (Z.of_nat (length d)), n);
  os_statvfs _ n := Ret (inl zero_statvfs, n);
  os_time n := Ret (0, n);
  os_fuse_context n := Ret ((1000, 1000), n)
}.

(** The token of a page is its number in unary. *)
Fixpoint unary (i : nat) : string :=
  match i with O => "" | S i => "x" +:+ unary i end.
Definition page_token (count i : nat) : string := if (i <? count)%nat then unary i else "".

Definition mem_GetAttr (o : GetAttrOptions) : go mem (ptr * option error) := λ n,
  match (m_names n : names) !! GetAttr_Name o with
  | None => Ret ((nil_ptr, Some (Errno ENOENT)), n)
  | Some d =>
      (p ← new_obj (mkObjAttr 0 0 0 0 0 420 (if (d : bool) then NewDirBitMap else 0) (GetAttr_Name o) (GetAttr_Name o) [] ∅);
       mret (p, None)) n
  end.
Definition mem_StreamDir (pages : list (list ObjAttr)) (o : StreamDirOptions)
    : go mem (list ptr * string * option error) :=
  let i := String.length (StreamDir_Token o) in
  match pages !! i with
  | None => mret ([], "", None)
  | Some page => ps ← mapM new_obj page; mret (ps, page_token (length pages) (S i), None)
  end.
Definition mem_new_handle (fd : Z) (name : string) : go mem (ptr * option error) := λ n,
  let p := fresh_ptr (m_handles n) in
  Ret ((p, None), rt_set_handles (<[p := handle_with_flags (Set_ 0 HandleFlagCached)
                                            (handle_with_fd fd (NewHandle name))]> (m_handles n)) n).
Definition mem_rename (src dst : string) : go mem (option error) := λ n,
  Ret (None, mkMemFs (m_objs n) (m_handles n) (move_tree src dst (m_names n)) (m_closed n)).
Definition mem_close (p : ptr) : go mem (option error) := λ n,
  Ret (None, mkMemFs (m_objs n) (m_handles n) (m_names n)
               (match m_handles n !! p with Some h => handle_Dirty h :: m_closed n | None => m_closed n end)).

Definition memfs (pages : list (list ObjAttr)) : Component mem :=
  let base := BaseComponent None in
  mkComponent (c_CreateDir base) (c_DeleteDir base)
    (λ o n, Ret (empty_dir (IsDirEmpty_Name o) (m_names n), n))
    (c_OpenDir base) (c_ReadDir base) (mem_StreamDir pages) (c_CloseDir base)
    (λ o, mem_rename (RenameDir_Src o) (RenameDir_Dst o))
    (λ o, mem_new_handle 7 (CreateFile_Name o))
    (c_DeleteFile base)
    (λ o, mem_new_handle 7 (OpenFile_Name o))
    (λ o, mem_close (CloseFile_Handle o))
    (λ o, mem_rename (RenameFile_Src o) (RenameFile_Dst o))
    (c_ReadFile base) (c_ReadInBuffer base)
    (λ o n, Ret ((Z.of_nat (length (WriteFile_Data o)), None), n))
    (c_TruncateFile base) (c_CopyToFile base) (c_CopyFromFile base) (c_SyncFile base) (c_SyncDir base)
    (c_FlushFile base) (c_ReleaseFile base) (c_UnlinkFile base) (c_CreateLink base) (c_ReadLink base)
    mem_GetAttr (c_GetFileBlockOffsets base) (c_SetAttr base) (c_Chmod base) (c_Chown base)
    (c_FileUsed base) (c_StatFs base) (c_GetCommittedBlockList base) (c_StageData base) (c_CommitData base).

(** ** It has the interfaces *)
Lemma mem_set_handles_kept p h (n : mem) :
  m_handles n !! p = None → kept n (rt_set_handles (<[p := h]> (m_handles n)) n).
Proof.
  intros Hp. split; simpl; [|done]. intros q g Hq. rewrite lookup_insert_ne by congruence. eauto using handle_kept_refl.
Qed.
Lemma mem_kept (n n' : mem) : m_objs n' = m_objs n → m_handles n' = m_handles n → kept n n'.
Proof. intros Ho Hh. split; simpl; rewrite ?Ho, ?Hh; [eauto using handle_kept_refl|done]. Qed.

Lemma mem_GetAttr_run o n :
  wp (mem_GetAttr o) (λ r n', kept n n' ∧ m_names n' = m_names n ∧ m_objs n ⊆ m_objs n' ∧
    match m_names n !! GetAttr_Name o with
    | Some d => r.2 = None ∧ ∃ a, m_objs n' !! r.1 = Some a ∧ IsDir a = d
    | None => r.2 = Some (Errno ENOENT)
    end) n.
Proof.
  unfold mem_GetAttr, wp at 1. destruct (m_names n !! GetAttr_Name o) as [d|]; [|by split_and!]. simpl.
  set (p := fresh_ptr _). assert (Hp : m_objs n !! p = None) by apply fresh_ptr_lookup. clearbody p.
  split_and!; [exact (kept_new_obj n p _ Hp)|done|by apply insert_subseteq|done|].
  eexists. split; [apply lookup_insert_eq|]. by destruct d.
Qed.
Lemma mem_new_handle_run fd name n :
  wp (mem_new_handle fd name) (λ r n', kept n n' ∧
    (r.2 = None → m_handles n !! r.1 = None ∧ ∃ h, m_handles n' !! r.1 = Some h ∧ GetValue "cache" h = None)) n.
Proof.
  unfold wp, mem_new_handle. set (p := fresh_ptr _).
  assert (Hp : m_handles n !! p = None) by apply fresh_ptr_lookup. clearbody p.
  split; [by apply mem_set_handles_kept|]. intros _. split; [done|]. simpl. rewrite lookup_insert_eq. by eexists.
Qed.

Section interfaces.
Context (pages : list (list ObjAttr)).

#[export] Instance mem_FuseNext : FuseNext (memfs pages).
Proof.
  constructor; try done.
  all: intros; try (unfold wp; simpl; split; [by apply mem_kept|lia]).
  all: try (unfold wp; simpl; by apply mem_kept).
  - eapply wp_mono; [apply mem_GetAttr_run|]. intros [p e] n' (HK & _ & _ & Hr). split; [done|]. simpl in *.
    destruct (m_names n !! _); [destruct Hr as (-> & a & ? & _); eauto|by subst e].
  - simpl. unfold mem_StreamDir. destruct (pages !! _); [|apply wp_ret; by split].
    apply wp_bind. eapply wp_mono; [apply new_objs_run|]. intros ps n' (HK & HF & _ & _). apply wp_ret.
    split; [done|]. intros _. simpl. clear -HF. induction HF; constructor; eauto.
  - apply mem_new_handle_run.
  - apply mem_new_handle_run.
Qed.

Lemma unary_length i : String.length (unary i) = i.
Proof. induction i as [|i IH]; [done|]. change (S (String.length (unary i)) = S i). by rewrite IH. Qed.

#[export] Instance mem_DirService dir : pages ≠ [] → (∀ i, (S i < length pages)%nat → pages !! i ≠ Some []) →
  DirService (memfs pages) dir pages (page_token (length pages)).
Proof.
  intros Hne Hp. unfold page_token. constructor; [| | |done..|].
  - by case_match.
  - intros i Hi. destruct (Nat.ltb_spec i (length pages)); [|lia]. intros Hu.
    apply (f_equal String.length) in Hu. rewrite unary_length in Hu. simpl in Hu. lia.
  - by rewrite Nat.ltb_irrefl.
  - intros i page off n Hi. simpl. unfold mem_StreamDir. simpl.
    pose proof (lookup_lt_Some _ _ _ Hi). destruct (Nat.ltb_spec i (length pages)); [|lia].
    rewrite unary_length, Hi. apply wp_bind. eapply wp_mono; [apply new_objs_run|].
    intros ps n' (HK & HF & _ & _). apply wp_ret. by split_and!.
Qed.

#[export] Instance mem_NameService : NameService (memfs pages).
Proof.
  refine {| ns_view := m_names |}; intros; try done.
  - eapply wp_mono; [apply mem_GetAttr_run|]. intros r n' (? & ? & _ & ?). split_and!; [done|done|by right].
  - eapply wp_mono; [apply mem_GetAttr_run|]. intros r n' (_ & _ & Hsub & _). by eapply lookup_weaken.
Defined.
End interfaces.

#[export] Instance fill_dirbuf_laws : FillerLaws fill_dirbuf (λ b : dirbuf, b.2).
Proof.
  constructor; unfold fill_dirbuf; intros b name st off.
  - destruct (_ <=? _)%nat; simpl; [by left|by right].
  - intros ->. done.
Qed.

(** ** Runs *)
Definition a_file (name : string) : ObjAttr := mkObjAttr 0 0 0 0 3 420 0 name name [] ∅.
Definition two_pages : list (list ObjAttr) := [[a_file "a"; a_file "b"; a_file "c"]; [a_file "d"]].
Definition start_mem : mem := mkMemFs ∅ ∅ (<["d" := true]> (<["d/x" := false]> (<["e" := true]> (<["f" := false]> ∅)))) [].
Definition start : LfState * mem := (init_LfState zero_Libfuse, start_mem).

(** The state after a request. *)
Definition after (r : fuse_req) (s : LfState * mem) : LfState * mem :=
  match serve (memfs two_pages) fuse3 r s with Ret (_, s') => s' | _ => s end.
Definition opened_dir : LfState * mem := after (ROpendir (Some "/d")) start.

Lemma serve_typed_witness :
  lf_ok opened_dir ∧ (wp (serve (memfs two_pages) fuse3 (RReaddir 1 0 1%nat))
    (λ c s', result_codes (RReaddir 1 0 1%nat) c ∧ lf_ok s') opened_dir ∨
    (failed_source (memfs two_pages) opened_dir (RReaddir 1 0 1%nat) ∧
     serve (memfs two_pages) fuse3 (RReaddir 1 0 1%nat) opened_dir = Panic)).
Proof.
  apply (serve_typed (memfs two_pages)).
  - apply (reach_serve _ _ start (ROpendir (Some "/d")) 0); [apply reach_init|by split|vm_compute; reflexivity].
  - split; [vm_compute; reflexivity|]. split; [done|]. exists 1. eexists. split; [vm_compute; reflexivity|].
    split; [vm_compute; reflexivity|]. by eexists.
Defined.

Lemma open_release_witness :
  wp (libfuse_open (memfs two_pages) (Some "/f") (mkFileInfo 0 0%nat)) (λ r s1,
    (r.1 ≠ 0 ∧ tables s1.1 = tables start.1) ∨
    (r.1 = 0 ∧
     (∃ key p x, lf_handles start.1 !! key = None ∧ ¬ registered start.1 p ∧ fh_obj x = p ∧ fh_dirty x = 0 ∧
        lf_native start.1 !! fi_fh r.2 = None ∧
        tables s1.1 = (<[key:=p]> (lf_handles start.1), <[fi_fh r.2:=x]> (lf_native start.1), lf_dirs start.1)) ∧
     wp (libfuse_release (memfs two_pages) (Some "/f") r.2) (λ c s2,
       tables s2.1 = if c =? 0 then tables start.1 else tables s1.1) s1)) start.
Proof. apply (open_release (memfs two_pages)); [by split|vm_compute; reflexivity]. Defined.

Lemma readdir_lists_all_witness :
  wp (r ← libfuse_opendir (Some "/d") (mkFileInfo 0 0%nat);
      list_dir (memfs two_pages) fill_dirbuf (λ b : dirbuf, b.2) (λ _, []) (1%nat, []) 5 0 r.2)
    (λ r _, r = (0, entry_list zero_Libfuse 0 (concat two_pages))) start.
Proof.
  assert (D : DirService (memfs two_pages) (dir_name (Some "/d")) two_pages (page_token 2)).
  { apply (mem_DirService two_pages); [done|]. intros [|i] Hi; [done|simpl in Hi; lia]. }
  apply (readdir_lists_all (memfs two_pages) fill_dirbuf (λ b : dirbuf, b.2) (1%nat, []) two_pages (page_token 2) (Some "/d"));
    [done|vm_compute; reflexivity|vm_compute; reflexivity].
Defined.


(** The handle that open makes is cached, with a descriptor: writes go to C. *)
Definition opened_file : LfState * mem := after (ROpen (Some "/f") 0) start.
Lemma native_write_reaches_close_witness :
  wp (_ ← native_write_file (memfs two_pages) (Some "/f") [] 0 0 (mkFileInfo 0 1%nat);
      libfuse_release (memfs two_pages) (Some "/f") (mkFileInfo 0 1%nat))
    (λ r s', r = 0 ∧ head (m_closed s'.2) = Some true ∧ lf_native s'.1 !! 1%nat = None) opened_file.
Proof.
  apply (native_write_reaches_close (memfs two_pages) (λ m, head (m_closed m) = Some true) (Some "/f") [] 0 0
    (mkFileInfo 0 1%nat) (mkFileHandle 7 1%nat 0 0)).
  - apply (reachable_ok (memfs two_pages) fuse3).
    apply (reach_serve _ _ start (ROpen (Some "/f") 0) 0); [apply reach_init|by split|vm_compute; reflexivity].
  - vm_compute. reflexivity.
  - done.
  - intros m h Hh Hd. unfold wp. simpl in *. rewrite Hh. split; [done|]. simpl. by rewrite Hd.
Defined.

Lemma open_flags_supported_witness :
  Z.land 2 c_O_SYNC = 0 ∧ Z.land 2 c_O_DIRECT = 0 ∧
  (false = false → Z.land 2 c_O_APPEND = 0 ∧ Z.land 2 c_O_ACCMODE ≠ O_WRONLY) ∧
  (∀ m, Z.land m (Z.lor (Z.lor c_O_SYNC c_O_DIRECT) (Z.lor c_O_APPEND c_O_ACCMODE)) = 0 →
     Z.land 2 m = Z.land 17409 m).
Proof.
  apply (open_flags_supported
    (mkLibfuse "" 0 0 false 0 0 0 false false 0 0 false "" false true false 0 0 false 0) 17409 2).
  vm_compute. reflexivity.
Defined.

(** A next component that may not look at the names. *)
Definition denied : Component mem :=
  let base := BaseComponent None in
  mkComponent (c_CreateDir base) (c_DeleteDir base) (c_IsDirEmpty base) (c_OpenDir base) (c_ReadDir base)
    (c_StreamDir base) (c_CloseDir base) (c_RenameDir base) (c_CreateFile base) (c_DeleteFile base)
    (c_OpenFile base) (c_CloseFile base) (c_RenameFile base) (c_ReadFile base) (c_ReadInBuffer base)
    (c_WriteFile base) (c_TruncateFile base) (c_CopyToFile base) (c_CopyFromFile base) (c_SyncFile base)
    (c_SyncDir base) (c_FlushFile base) (c_ReleaseFile base) (c_UnlinkFile base) (c_CreateLink base)
    (c_ReadLink base) (λ _ n, Ret ((nil_ptr, Some (Errno EACCES)), n)) (c_GetFileBlockOffsets base)
    (c_SetAttr base) (c_Chmod base) (c_Chown base) (c_FileUsed base) (c_StatFs base)
    (c_GetCommittedBlockList base) (c_StageData base) (c_CommitData base).

Lemma rename_panics_witness : libfuse_rename denied (Some "/a") (Some "/b") 0 start = Panic.
Proof.
  apply (rename_panics denied (Some "/a") (Some "/b") 0 (init_LfState zero_Libfuse) start_mem start_mem start_mem
           (Errno EACCES) nil_ptr (Some (Errno EACCES))); reflexivity || done.
Defined.

(** The names a reader gets who opens a directory of two pages, reads the first and
    rewinds: the listing starts again at the second page, because the token of the
    first listing is still in the page. *)
Definition rewound : outcome (list string) :=
  match (r ← libfuse_opendir (Some "/d") (mkFileInfo 0 0%nat);
         _ ← libfuse_readdir (memfs two_pages) fill_dirbuf None (9%nat, []) 0 r.2;
         x ← libfuse_readdir (memfs two_pages) fill_dirbuf None (9%nat, []) 0 r.2;
         mret ((λ e : entry, e.1.1) <$> x.2.2)) start with
  | Ret (l, _) => Ret l
  | Panic => Panic
  | Blocked => Blocked
  end.
Example rewind_skips_pages : rewound = Ret ["d"].
Proof. vm_compute. reflexivity. Qed.
